(* ===== verification/_CoqProject ===== *)
-Q . S2P
Prelude.v
Text.v
Json.v
JsonBytes.v
Regex.v
Crypto.v
BrokerProtocol.v
BrokerJournal.v
BrokerJournalSpec.v
ExecutionBroker.v
ExecutionBrokerSpec.v
ReplicaContract.v
ReplicaJournal.v
ReplicaJournalSpec.v
OperationGates.v
ReplicaLifecycle.v
ReplicaLifecycleSpec.v
RunCoordinator.v
PromptJournal.v
PromptJournalSpec.v
TerminalJournal.v
TerminalBuffer.v
TerminalJournalSpec.v
ThreadLifecycle.v
Uploads.v
RunnerCapabilities.v
RunnerNoise.v
WorkerRuntime.v
RunnerRoutes.v
RunnerRpc.v
RunnerRpcSpec.v
RunnerRelay.v
RunnerRelayInvariant.v
RunnerRelaySpec.v
Transactions.v
ManagedBackups.v
ManagedBackupsSpec.v
RunnerStorage.v
Runners.v
ManagedRunners.v
ControlSystem.v
ControlSteps.v
ControlScenario.v
ControlSpec.v
ControlActivation.v
