(* ===== verification/Prelude.v ===== *)
(** * Verification library for the Yinshi backend

    Yinshi's backend ([backend/src/yinshi/]) runs coding agents for many
    tenants. The parts modelled here are those that keep promises across
    failures: the privileged execution broker and its journal, the prompt and
    terminal journals that browsers follow, uploads, the lifecycle of delegated
    threads, the lifecycle of workspace replicas, the encrypted data plane
    between a browser and a runner with the relay that carries it, and the control
    database of runners, managed runtimes and their backups.

    ** Conventions

    The embedding is shallow. A Python [str] is a list of code points, [bytes]
    a list of integers, [int] is [Z], a dictionary read from JSON an ordered
    association list. A function that can raise returns [res]: [Ok] or
    [Raise] of an exception with its class, its message and its cause;
    [except] clauses are [caught] tests along Python's class hierarchy.
    Stateful code passes its state ([st S A]) and returns the state also when
    it raises. Clocks, random identifiers and the points where other tasks run
    are inputs of the definitions; libraries outside [src/] (Ed25519, X25519,
    HKDF, SHA-256, SHA-1, the Noise protocol, the worker application, floats,
    [datetime], parts of [urlsplit] and the Unicode tables) are type classes,
    with the documented laws a theorem needs in a class of their own and a toy
    instance for the witnesses. [Spec] files hold the proofs of the file they
    are named after.

    ** Files

    - [Prelude]: exceptions, the two monads, association lists, tactics.
    - [Text], [Json], [JsonBytes]: UTF-8, base64url, hexadecimal, UUIDs,
      [str] methods; [json.dumps] and [json.loads] with their errors, and
      [json.loads] on bytes with its detection of encodings.
    - [Regex]: regular expressions by derivatives, [re.fullmatch].
    - [Crypto]: the interfaces of the cryptographic libraries.
    - [BrokerProtocol] ([services/broker_protocol.py]): canonical JSON and
      signed frames.
    - [BrokerJournal], [BrokerJournalSpec] ([services/broker_journal.py]): the
      append-only event table with its constraints and triggers, all
      operations, uncertain commits, and an abstract lifecycle it refines.
    - [ExecutionBroker], [ExecutionBrokerSpec]
      ([services/execution_broker.py]): authentication, ownership, stages,
      waiting and recovery over the journal.
    - [PromptJournal], [PromptJournalSpec] ([services/prompt_journal.py], its
      tables of [db.py] and the retries of [api/deps.py]).
    - [TerminalJournal], [TerminalBuffer], [TerminalJournalSpec]
      ([services/terminal_journal.py]): terminals as interleaved threads.
    - [Uploads] ([services/encrypted_uploads.py]), [ThreadLifecycle]
      ([services/thread_lifecycle.py]), [RunCoordinator]
      ([services/run_coordinator.py]).
    - [RunnerCapabilities] ([services/runner_capabilities.py]),
      [RunnerNoise] ([services/runner_noise.py],
      [services/runner_noise_session.py]), [WorkerRuntime]
      ([worker_runtime.py]), [RunnerRoutes], [RunnerRpc], [RunnerRpcSpec]
      ([services/runner_rpc.py], [services/runner_rpc_transport.py]): the
      runner's side of the encrypted channel, from the signed capability to
      the call of the worker.
    - [ReplicaContract] ([services/replica_artifact_contract.py] and the wire
      values of [services/broker_replica_journal.py]): authorities, artifacts,
      receipts and their canonical JSON.
    - [ReplicaJournal], [ReplicaJournalSpec]
      ([services/broker_replica_journal.py]): the schema-1 journal of replica
      lifecycles. Every operation opens a connection of its own; the
      environment [env : nat → conn] gives, for each connection in turn, the
      statement that fails, what its commit does, and what other processes
      append in between.
    - [OperationGates]: the locks by which a coordinator serialises the calls
      of one operation, over [asyncio.Lock].
    - [ReplicaLifecycle], [ReplicaLifecycleSpec]
      ([services/broker_replica_lifecycle.py]): the coordinator as a machine
      of tasks over the replica journal; [act] interleaves calls, effects,
      timeouts, callbacks and cancellations.
    - [RunnerRelay], [RunnerRelayInvariant], [RunnerRelaySpec]
      ([services/runner_relay.py]): the transfer grants, and the relay broker.
      A method is a program of critical sections and awaits; [run] brings it to
      the await where it suspends, [resumed] ends that await with a result or
      an exception, and [act] interleaves the programs of all calls. The
      broker's log says what is registered, queued, taken and sent.
    - [Transactions]: updates and deletions of rows, transactions that fail
      before or at their commit, programs of atomic steps, the threads that
      interleave them, and [ensures], which states the guarantee of each step.
    - [ManagedBackups], [ManagedBackupsSpec] ([services/managed_backups.py],
      [services/managed_operation_failures.py]): archives, operations, leases.
    - [RunnerStorage], [Runners] ([services/runners.py]): capabilities, and
      registrations, tokens, heartbeats and revocation as programs.
    - [ManagedRunners] ([services/managed_runners.py],
      [services/managed_sprite_registry.py], triggers of [db.py]): the runtime
      of an account and the activation of a restored runner.
    - [ControlSystem], [ControlSteps], [ControlScenario], [ControlSpec],
      [ControlActivation]: all these calls as threads on one database; a lemma
      for each call, an example, and the theorems about the whole.

    ** What the theorems show

    - Protocol: the frame parser accepts exactly the canonical encodings; what
      is signed parses back; what is accepted is authentic and answers its
      request.
    - Broker: the constraints of the table admit exactly the transitions of an
      abstract lifecycle; every reachable journal passes the validation on
      open; decisions are immutable and claims exclusive; after an uncertain commit the journal says what happened; a root effect
      starts at most once and only after its start is durable; retries and
      recovery give the stored decision.
    - Prompts: every sequence of service calls, under database failures,
      keeps runs unique and events contiguous, appends exactly once, pages
      completely, and leaves no run unsettled.
    - Terminals: in every interleaving the table respects its limits and
      owners, buffers are bounded windows on the history, pages are exact.
    - Uploads, delegations, cancellation: round trip and isolation, an acyclic
      state machine, the exact outcome of a cancellation.
    - Runner channel: capabilities round-trip and are sound; a token opens at
      most one session; sessions are bounded; fragmentation is transparent;
      every call of the worker is authorised by the capability; failure is
      final.
    - Replicas: the receipt parser accepts exactly the canonical receipts;
      every sequence of journal operations, under failing statements,
      uncertain commits and other writers, keeps a journal that validates and
      only grows; histories follow the stages, decisions are final, claims
      exclusive, what an operation returns is stored. In every interleaving of
      the coordinator's tasks a gate has one holder and no wake-up is lost, a
      response is durable before it is returned, effects follow durable starts
      in the order of the stages, and recovery ends and settles what it found.
    - Relay: in every interleaving the tables of runners, sessions and clients
      agree and stay within their limits, a client receives what its runner
      sent it, in order and once, ciphertext goes only between a client and the
      runner of its grant within its byte limit, and a grant is claimed once.
      The invariant is proved program by program, by rely and guarantee.
    - Control database: in every interleaving of the calls of backups, runners
      and runtimes, with faults and connections that die between two
      statements, the tables are sound and agree; the catalog refines its
      abstract lifecycle, by itself and within the whole; a lease excludes
      others until it ends; a bearer token handed out before a revocation stays
      dead, and none works for the runner until the account registers it again;
      generations fence the calls of earlier ones; and an activation switches
      an account as a whole or not at all. [registration_token_used_twice] and
      [revoked_token_revived] show races that the code does not exclude.

    ** Fuel and bounds

    The JSON parser recurses on fuel linear in the length of its input, and
    [scan_fuel_enough] shows that more changes nothing; decimal digits take
    the bit length of the number; the retry loops of
    the prompt journal and the wait of the broker take the source's own
    attempt counts or the list of clock readings they consume; nothing else
    needs fuel. Integers are unbounded as in Python; the fields of the
    fragment header are 32 bits wide and [unpack] of [pack] is proved on that
    range.

    ** Not modelled

    The checks of constructor arguments that only reject misconfiguration,
    logging, metrics, and everything whose correctness lies in the operating
    system, the database engine or another service: web routes and wiring, Git
    and containers, virtual machine providers, the privileged launcher's
    processes, object stores, key files, and the TypeScript front ends. Of the
    replica journal, the creation and synchronisation of its directory; of
    Python, [RecursionError] (the digits of a pattern are those of Unicode 14).
    Of the
    control database, accounts and what their deletion takes along, and the
    row times that triggers keep. The second version of the replica journal
    and of its coordinator repeats the first, which is modelled, with more
    stages; the replica codecs and thread orchestration work on Git objects
    and directory descriptors, and are not modelled either. *)

From Stdlib Require Import Ascii.
From stdpp Require Export base tactics list strings gmap numbers sorting.
From stdpp Require Import options.

(** ** Python values shared by every component *)

(** A Python [str] is a sequence of code points, a Python [bytes] a sequence
    of integers between 0 and 255. *)
Abbreviation pystr := (list Z).
Abbreviation pybytes := (list Z).

(** An ASCII literal of the source, as code points. *)
Fixpoint u (s : string) : pystr :=
  match s with
  | EmptyString => []
  | String a r => Z.of_nat (nat_of_ascii a) :: u r
  end.
Arguments u s%_string.

Definition is_byte (b : Z) : bool := (0 <=? b)%Z && (b <=? 255)%Z.
Definition zlen {A} (l : list A) : Z := Z.of_nat (length l).

(** Python's [a in (x, y, ...)] on an explicit tuple or set of strings. *)
Definition mem_str (s : pystr) (l : list pystr) : bool := bool_decide (s ∈ l).

(** ** Exceptions *)

(** The exception classes the modelled code raises or catches. *)
Inductive exc_class :=
  | ValueError | TypeError | LookupError | KeyError | IndexError | RuntimeError | OSError_
  | AssertionError | ConnectionError
  | UnicodeEncodeError | UnicodeDecodeError | JSONDecodeError | BinasciiError
  | SqliteError | IntegrityError | SqliteBusy | CancelledError | TenantUnavailable
  | BrokerProtocolError | JournalSyncError | JournalCommitAbsent
  | LegacyJournalStateError
  | LauncherTransportError | LauncherTimeoutError | LauncherVerificationError
  | PromptRunNotFoundError | PromptRunConflictError | PromptRunStoppingError
  | TerminalNotFoundError | TerminalLimitError | TerminalCursorExpiredError
  | SidecarError | SpriteTaskLeaseError | InvalidSignature
  | InvalidTag | NoiseHandshakeError | NoiseInvalidMessage | NoiseMaxNonceError
  | NoiseValidationError | NoiseValueError | RunnerRelaySessionError | RunnerRelayAuthorizationError
  | ManagedBackupConflictError | RunnerRegistrationError | RunnerAuthenticationError
  | ReplicaJournalSyncError | ReplicaJournalCommitAbsent | ReplicaJournalConflictError
  | ReplicaJournalEffectResultError | BrokerReplicaLifecycleError | BrokerReplicaOwnerActive.

#[export] Instance exc_class_eq_dec : EqDecision exc_class.
Proof. solve_decision. Defined.

(** The direct base class, as the sources and the standard library declare
    it; [None] stands for [Exception] (or [BaseException]). *)
Definition exc_base (c : exc_class) : option exc_class :=
  match c with
  | UnicodeEncodeError | UnicodeDecodeError | JSONDecodeError | BinasciiError
  | BrokerProtocolError | RunnerRelaySessionError | RunnerRelayAuthorizationError
  | ReplicaJournalEffectResultError => Some ValueError
  | KeyError | IndexError | PromptRunNotFoundError | TerminalNotFoundError => Some LookupError
  | IntegrityError | SqliteBusy => Some SqliteError
  | ConnectionError => Some OSError_
  | JournalSyncError | PromptRunConflictError | PromptRunStoppingError | TenantUnavailable
  | LauncherTransportError | LauncherTimeoutError | LauncherVerificationError
  | TerminalLimitError | TerminalCursorExpiredError | SpriteTaskLeaseError
  | ReplicaJournalSyncError | BrokerReplicaLifecycleError | ManagedBackupConflictError => Some RuntimeError
  | JournalCommitAbsent | LegacyJournalStateError => Some JournalSyncError
  | ReplicaJournalCommitAbsent | ReplicaJournalConflictError => Some ReplicaJournalSyncError
  | BrokerReplicaOwnerActive => Some BrokerReplicaLifecycleError
  | _ => None
  end.

(** [issubclass c d]; the longest chain above has three links. *)
Definition subclass (c d : exc_class) : bool :=
  bool_decide (c = d)
  || match exc_base c with
     | Some c1 => bool_decide (c1 = d)
                  || match exc_base c1 with
                     | Some c2 => bool_decide (c2 = d)
                     | None => false
                     end
     | None => false
     end.

Record exn := Exn { exn_class : exc_class; exn_msg : string }.
#[export] Instance exn_eq_dec : EqDecision exn.
Proof. solve_decision. Defined.

(** [except (C1, ..., Cn)]. *)
Definition caught (e : exn) (cs : list exc_class) : bool :=
  existsb (subclass (exn_class e)) cs.

(** ** Results and state *)

Inductive res (A : Type) := Ok (a : A) | Raise (e : exn).
Arguments Ok {A} a.
Arguments Raise {A} e.

Definition raise {A} (c : exc_class) (m : string) : res A := Raise (Exn c m).
Arguments raise {A} c m%_string.

Definition res_bind {A B} (r : res A) (k : A → res B) : res B :=
  match r with Ok a => k a | Raise e => Raise e end.

Definition is_ok {A} (r : res A) : bool := match r with Ok _ => true | Raise _ => false end.

(** [if not b: raise C(m)] *)
Definition guard (b : bool) (c : exc_class) (m : string) : res unit :=
  if b then Ok tt else raise c m.
Arguments guard b c m%_string.

(** [try: r except (cs): raise C(m) from exc] *)
Definition reraise_as {A} (r : res A) (cs : list exc_class) (c : exc_class) (m : string) : res A :=
  match r with
  | Ok a => Ok a
  | Raise e => if caught e cs then raise c m else Raise e
  end.
Arguments reraise_as {A} r cs c m%_string.

(** State passing with exceptions: a raise keeps the state reached so far. *)
Definition st (S A : Type) : Type := S → S * res A.
Definition st_ret {S A} (a : A) : st S A := fun s => (s, Ok a).
Definition st_bind {S A B} (m : st S A) (k : A → st S B) : st S B :=
  fun s => match m s with (s', Ok a) => k a s' | (s', Raise e) => (s', Raise e) end.
Definition st_lift {S A} (r : res A) : st S A := fun s => (s, r).
Definition st_get {S} : st S S := fun s => (s, Ok s).
Definition st_put {S} (s : S) : st S unit := fun _ => (s, Ok tt).

Declare Scope py_scope.
Delimit Scope py_scope with py.
Notation "'let!' x ':=' m 'in' k" := (res_bind m (fun x => k))
  (at level 10, x name, m at level 100, k at level 200) : py_scope.
Notation "'check!' m 'in' k" := (res_bind m (fun _ => k))
  (at level 10, m at level 100, k at level 200) : py_scope.
Notation "'let^' x ':=' m 'in' k" := (st_bind m (fun x => k))
  (at level 10, x name, m at level 100, k at level 200) : py_scope.
Notation "'do^' m 'in' k" := (st_bind m (fun _ => k))
  (at level 10, m at level 100, k at level 200) : py_scope.
Open Scope py_scope.

Fixpoint mapM_res {A B} (f : A → res B) (l : list A) : res (list B) :=
  match l with
  | [] => Ok []
  | a :: r => let! b := f a in let! bs := mapM_res f r in Ok (b :: bs)
  end.

(** ** Dictionaries

    A [dict] as an association list in insertion order: [d.get(k)], [d[k] = v]
    and [d.pop(k, None)]. *)
Section Assoc.
Context {K V : Type} `{EqDecision K}.
Fixpoint assoc_get (k : K) (l : list (K * V)) : option V :=
  match l with
  | [] => None
  | kv :: r => if bool_decide (kv.1 = k) then Some kv.2 else assoc_get k r
  end.
Fixpoint assoc_set (k : K) (v : V) (l : list (K * V)) : list (K * V) :=
  match l with
  | [] => [(k, v)]
  | kv :: r => if bool_decide (kv.1 = k) then (k, v) :: r else kv :: assoc_set k v r
  end.
Fixpoint assoc_pop (k : K) (l : list (K * V)) : list (K * V) :=
  match l with
  | [] => []
  | kv :: r => if bool_decide (kv.1 = k) then r else kv :: assoc_pop k r
  end.
End Assoc.

(** ** Character classes used by the sources' patterns *)

Open Scope Z_scope.
Definition is_lower (c : Z) : bool := (97 <=? c) && (c <=? 122).
Definition is_upper (c : Z) : bool := (65 <=? c) && (c <=? 90).
Definition is_digit (c : Z) : bool := (48 <=? c) && (c <=? 57).
Definition is_hex (c : Z) : bool := is_digit c || ((97 <=? c) && (c <=? 102)).
Definition is_token_char (c : Z) : bool :=
  is_lower c || is_upper c || is_digit c || (c =? 95) || (c =? 45).

(** [re.fullmatch("[class]{n}", s)] and [fullmatch("[class]{lo,hi}", s)]. *)
Definition fullmatch_n (cls : Z → bool) (n : Z) (s : pystr) : bool :=
  (zlen s =? n) && forallb cls s.
Definition fullmatch_range (cls : Z → bool) (lo hi : Z) (s : pystr) : bool :=
  (lo <=? zlen s) && (zlen s <=? hi) && forallb cls s.

(** ** Proof automation *)

Create HintDb yinshi discriminated.
Create Rewrite HintDb yinshi_len.

(** Open one [match]/[if] of a hypothesis or of the goal. *)
Ltac dmatch :=
  match goal with
  | H : context [match ?x with _ => _ end] |- _ => destruct x eqn:?; simplify_eq/=
  | |- context [match ?x with _ => _ end] => destruct x eqn:?; simplify_eq/=
  end.

(** Turn boolean tests of the code into propositions. *)
Ltac breflect :=
  repeat match goal with
  | H : _ && _ = true |- _ => apply andb_true_iff in H; destruct H
  | H : _ || _ = false |- _ => apply orb_false_iff in H; destruct H
  | H : negb _ = true |- _ => apply negb_true_iff in H
  | H : negb _ = false |- _ => apply negb_false_iff in H
  | H : bool_decide _ = true |- _ => apply bool_decide_eq_true in H
  | H : bool_decide _ = false |- _ => apply bool_decide_eq_false in H
  | H : (_ =? _)%Z = true |- _ => apply Z.eqb_eq in H
  | H : (_ =? _)%Z = false |- _ => apply Z.eqb_neq in H
  | H : (_ <=? _)%Z = true |- _ => apply Z.leb_le in H
  | H : (_ <=? _)%Z = false |- _ => apply Z.leb_gt in H
  | H : (_ <? _)%Z = true |- _ => apply Z.ltb_lt in H
  | H : (_ <? _)%Z = false |- _ => apply Z.ltb_ge in H
  end.

(** Invert the binds of a computation known to return. *)
Ltac inv_ok :=
  repeat match goal with
  | H : res_bind ?m _ = Ok _ |- _ =>
      let E := fresh "E" in destruct m eqn:E; cbn [res_bind] in H; [|discriminate H]
  | H : guard ?b _ _ = Ok _ |- _ =>
      let E := fresh "G" in destruct b eqn:E; cbn [guard] in H; [clear H|discriminate H]
  | H : Ok _ = Ok _ |- _ => injection H as H; subst
  | H : raise _ _ = Ok _ |- _ => discriminate H
  end.

(** ** Shared lemmas *)

Lemma Forall_snoc {A} (P : A → Prop) l a : Forall P (l ++ [a]) ↔ Forall P l ∧ P a.
Proof. rewrite Forall_app. split; [intros [? H]; by inversion H|intros []; auto]. Qed.

Lemma reraise_ok {A} (r : res A) cs c m a : reraise_as r cs c m = Ok a → r = Ok a.
Proof. unfold reraise_as. destruct r as [|e]; [done|]. by destruct (caught e cs). Qed.

Lemma bind_raise {A B} (m : res A) (k : A → res B) e : res_bind m k = Raise e → m = Raise e ∨ ∃ a, m = Ok a ∧ k a = Raise e.
Proof. destruct m as [a|e']; [right; by exists a|left; cbn in *; congruence]. Qed.

Lemma bind_error_ok {A B} (m : res A) (k : A → res B) b :
  res_bind m k = Ok b → ∃ x, m = Ok x ∧ k x = Ok b.
Proof. destruct m; cbn; eauto. discriminate. Qed.

Lemma zlen_nil {A} : zlen (@nil A) = 0.
Proof. done. Qed.

Lemma zlen_cons {A} (a : A) l : zlen (a :: l) = 1 + zlen l.
Proof. unfold zlen. cbn [length]. lia. Qed.

Lemma zlen_app {A} (l k : list A) : zlen (l ++ k) = zlen l + zlen k.
Proof. unfold zlen. rewrite length_app. lia. Qed.

Lemma zlen_nonneg {A} (l : list A) : 0 <= zlen l.
Proof. unfold zlen. lia. Qed.

Lemma subclass_refl c : subclass c c = true.
Proof. unfold subclass. by rewrite bool_decide_eq_true_2. Qed.

Lemma mem_str_spec s l : mem_str s l = true ↔ s ∈ l.
Proof. unfold mem_str. apply bool_decide_eq_true. Qed.

Lemma forallb_Forall {A} (f : A → bool) l :
  forallb f l = true ↔ Forall (fun x => f x = true) l.
Proof.
  induction l as [|x l IH]; cbn [forallb]; [by split; [constructor|]|].
  rewrite andb_true_iff, Forall_cons, IH. done.
Qed.

(** Two facts about every element of a list, used together. *)
Lemma Forall_and_impl {A} (P Q R : A → Prop) l :
  Forall P l → Forall Q l → (∀ x, P x → Q x → R x) → Forall R l.
Proof.
  intros HP. induction HP as [|x l Hx HP IH]; intros HQ HR; [constructor|].
  apply Forall_cons in HQ as [HQx HQ]. constructor; auto.
Qed.

Lemma Forall2_same {A} (P : A → A → Prop) l : Forall2 P l l ↔ Forall (fun x => P x x) l.
Proof.
  induction l as [|x l IH]; [by split; constructor|]. rewrite Forall2_cons, Forall_cons, IH. done.
Qed.

Lemma mapM_res_ok {A B} (f : A → res B) l bs :
  mapM_res f l = Ok bs ↔ Forall2 (fun a b => f a = Ok b) l bs.
Proof.
  revert bs. induction l as [|a l IH]; intros bs; cbn [mapM_res].
  - split; [intros [= <-]; constructor | by inversion 1].
  - split.
    + intros H. inv_ok. constructor; [done|]. by apply IH.
    + inversion_clear 1 as [|? b ? bs' Hb Hbs].
      rewrite Hb. cbn [res_bind]. apply IH in Hbs. by rewrite Hbs.
Qed.

(** ** Counting and dictionaries *)

Definition count {A} (f : A → bool) (l : list A) : Z := zlen (List.filter f l).

Lemma count_cons {A} (f : A → bool) x l : count f (x :: l) = Z.b2z (f x) + count f l.
Proof. unfold count. cbn [List.filter]. destruct (f x); [apply zlen_cons|done]. Qed.

Lemma count_nonneg {A} (f : A → bool) l : 0 <= count f l.
Proof. apply zlen_nonneg. Qed.

Lemma count_app {A} (f : A → bool) l k : count f (l ++ k) = count f l + count f k.
Proof. unfold count. by rewrite List.filter_app, zlen_app. Qed.

Lemma count_insert {A} (f : A → bool) i x y l : l !! i = Some x →
  count f (<[i := y]> l) = count f l - Z.b2z (f x) + Z.b2z (f y).
Proof.
  revert i. induction l as [|z l IH]; intros [|i] H; try done.
  - injection H as ->. change (<[0%nat := y]> (x :: l)) with (y :: l). rewrite !count_cons. lia.
  - change (<[S i := y]> (z :: l)) with (z :: <[i := y]> l).
    rewrite !count_cons, (IH i) by done. lia.
Qed.

Lemma count_le {A} (f g : A → bool) l : (∀ x, x ∈ l → f x = true → g x = true) → count f l <= count g l.
Proof.
  induction l as [|x l IH]; intros H; [done|]. rewrite !count_cons.
  assert (count f l <= count g l) by (apply IH; intros; apply H; [by right|done]).
  assert (f x = true → g x = true) by (apply H; left).
  destruct (f x), (g x); cbn; try lia; naive_solver.
Qed.

Lemma count_sublist {A} (f : A → bool) l k : sublist l k → count f l <= count f k.
Proof.
  induction 1 as [|x l k _ IH|x l k _ IH]; rewrite ?count_cons; [done|lia|].
  destruct (f x); cbn; lia.
Qed.

(** One more element may pass the test. *)
Lemma count_one_more {A} (f g : A → bool) r l : NoDup l →
  (∀ x, x ∈ l → f x = true → g x = true ∨ x = r) → count f l <= count g l + 1.
Proof.
  induction 1 as [|x l Hx Hl IH]; intros H; [by cbn|]. rewrite !count_cons.
  pose proof (H x ltac:(left)) as Hh. destruct (f x); cbn [Z.b2z].
  - destruct (Hh eq_refl) as [-> | ->]; cbn [Z.b2z].
    + assert (count f l <= count g l + 1); [|lia]. apply IH. intros y Hy. apply H. by right.
    + assert (count f l <= count g l); [|destruct (g r); cbn; lia]. apply count_le.
      intros y Hy Hf. destruct (H y ltac:(by right) Hf) as [| ->]; done.
  - assert (count f l <= count g l + 1); [|destruct (g x); cbn; lia].
    apply IH. intros y Hy. apply H. by right.
Qed.

(** One element that passed the test is left out. *)
Lemma count_one_less {A} (f g : A → bool) r l : r ∈ l → g r = true →
  (∀ x, x ∈ l → f x = true → g x = true ∧ x ≠ r) → count f l + 1 <= count g l.
Proof.
  induction l as [|x l IH]; intros Hr Hg H; [by apply elem_of_nil in Hr|]. rewrite !count_cons.
  assert (L : count f l <= count g l).
  { apply count_le. intros y Hy Hf. by apply (H y); [right|]. }
  pose proof (H x ltac:(left)) as Hh. apply elem_of_cons in Hr as [-> | Hr].
  - rewrite Hg. destruct (f x); cbn [Z.b2z]; [|lia]. by destruct (Hh eq_refl).
  - assert (count f l + 1 <= count g l).
    { apply IH; [done|done|]. intros y Hy. apply H. by right. }
    destruct (f x); [destruct (Hh eq_refl) as [-> _]|destruct (g x)]; cbn [Z.b2z]; lia.
Qed.

Section AssocFacts.
Context {K V : Type} `{EqDecision K}.
Implicit Types (l : list (K * V)) (k : K).

Definition without (ks : list K) l : list (K * V) :=
  List.filter (fun kv => negb (bool_decide (kv.1 ∈ ks))) l.

Lemma without_nil l : without [] l = l.
Proof. induction l as [|kv l IH]; [done|]. unfold without in *. cbn. by rewrite IH. Qed.

Lemma without_fresh k l : k ∉ map fst l → without [k] l = l.
Proof.
  induction l as [|kv l IH]; [done|]. intros H. cbn in H. apply not_elem_of_cons in H as [N H].
  unfold without. cbn [List.filter]. rewrite bool_decide_false by (rewrite list_elem_of_singleton; congruence).
  cbn. f_equal. by apply IH.
Qed.

Lemma assoc_pop_without k l : NoDup (map fst l) → assoc_pop k l = without [k] l.
Proof.
  induction l as [|kv l IH]; [done|]. cbn [map]. intros [Hkv Hl]%NoDup_cons.
  cbn [assoc_pop]. unfold without. cbn [List.filter]. case_bool_decide as E.
  - subst k. rewrite bool_decide_true by (by left). symmetry. by apply without_fresh.
  - rewrite bool_decide_false by (rewrite list_elem_of_singleton; done). cbn. f_equal. by apply IH.
Qed.

Lemma without_NoDup ks l : NoDup (map fst l) → NoDup (map fst (without ks l)).
Proof.
  intros H. eapply sublist_NoDup; [exact H|]. unfold without. clear H.
  induction l as [|kv l IH]; [done|]. cbn. destruct (negb _); cbn; by constructor.
Qed.

Lemma without_without k ks l : without ks (without [k] l) = without (k :: ks) l.
Proof.
  unfold without. induction l as [|kv l IH]; [done|]. cbn [List.filter].
  destruct (decide (kv.1 = k)) as [E|E].
  - rewrite !bool_decide_true by (subst; left). by cbn.
  - rewrite (bool_decide_false (kv.1 ∈ [k])) by (rewrite list_elem_of_singleton; done).
    cbn [negb List.filter]. rewrite IH.
    rewrite (bool_decide_ext (kv.1 ∈ k :: ks) (kv.1 ∈ ks)); [done|].
    rewrite elem_of_cons. split; [by intros [?|?]|by right].
Qed.

Lemma pops_without ks l : NoDup (map fst l) →
  fold_left (fun m k => assoc_pop k m) ks l = without ks l.
Proof.
  revert l. induction ks as [|k ks IH]; intros l H; cbn [fold_left]; [by rewrite without_nil|].
  rewrite assoc_pop_without by done. rewrite IH by by apply without_NoDup. apply without_without.
Qed.

Lemma elem_of_without kv ks l : kv ∈ without ks l ↔ kv ∈ l ∧ (kv.1 ∉ ks).
Proof.
  unfold without. rewrite list_elem_of_In, filter_In, negb_true_iff, bool_decide_eq_false.
  by rewrite <- list_elem_of_In.
Qed.

Lemma without_sublist ks l : sublist (without ks l) l.
Proof. unfold without. induction l as [|kv l IH]; [done|]. cbn. destruct (negb _); by constructor. Qed.

Lemma assoc_get_in k v l : assoc_get k l = Some v → (k, v) ∈ l.
Proof.
  induction l as [|[k' v'] l IH]; cbn; [done|]. case_bool_decide as E.
  - intros [= <-]. cbn in E. subst. left.
  - intros H. right. by apply IH.
Qed.

Lemma assoc_get_none k l : assoc_get k l = None ↔ k ∉ map fst l.
Proof.
  induction l as [|kv l IH]; cbn; [by split; [intros _; apply not_elem_of_nil|]|].
  rewrite not_elem_of_cons. case_bool_decide as E.
  - split; [done|]. intros [N _]. congruence.
  - rewrite IH. split; [intros ?; split; [congruence|done]|by intros []].
Qed.

Lemma assoc_get_elem k v l : NoDup (map fst l) → (k, v) ∈ l → assoc_get k l = Some v.
Proof.
  induction l as [|[k' v'] l IH]; [by intros _ ?%elem_of_nil|]. cbn. intros [Hk Hl]%NoDup_cons H.
  apply elem_of_cons in H as [[= -> ->]|H]; [by rewrite bool_decide_true|].
  rewrite bool_decide_false; [by apply IH|]. intros ->. apply Hk.
  by apply (list_elem_of_fmap_2 fst _ (k, v)).
Qed.

Lemma assoc_set_fresh k v l : k ∉ map fst l → assoc_set k v l = l ++ [(k, v)].
Proof.
  induction l as [|kv l IH]; [done|]. cbn. intros [N H]%not_elem_of_cons.
  rewrite bool_decide_false by congruence. by rewrite IH.
Qed.

Lemma assoc_get_set k v k' l :
  assoc_get k' (assoc_set k v l) = if bool_decide (k = k') then Some v else assoc_get k' l.
Proof.
  induction l as [|kv l IH]; cbn; [done|]. destruct (decide (kv.1 = k)) as [E|E].
  - rewrite (bool_decide_true (kv.1 = k)) by done. cbn. subst k. by destruct (bool_decide (kv.1 = k')).
  - rewrite (bool_decide_false (kv.1 = k)) by done. cbn. rewrite IH.
    destruct (decide (kv.1 = k')) as [E'|E']; [|by rewrite (bool_decide_false (kv.1 = k'))].
    rewrite (bool_decide_true (kv.1 = k')) by done. rewrite bool_decide_false by congruence. done.
Qed.

Lemma assoc_set_keys k v l : NoDup (map fst l) → NoDup (map fst (assoc_set k v l)).
Proof.
  destruct (decide (k ∈ map fst l)) as [H|H].
  - assert (map fst (assoc_set k v l) = map fst l) as ->; [|done].
    induction l as [|kv l IH]; [by apply elem_of_nil in H|]. cbn in *.
    case_bool_decide as E; cbn; [by rewrite E|]. f_equal. apply IH.
    apply elem_of_cons in H as [-> |]; done.
  - intros Hl. rewrite assoc_set_fresh, map_app by done. apply NoDup_app. split_and!; try done.
    + intros x Hx ->%list_elem_of_singleton. done.
    + apply NoDup_singleton.
Qed.

Lemma assoc_get_without k k' l :
  assoc_get k' (without [k] l) = if bool_decide (k' = k) then None else assoc_get k' l.
Proof.
  unfold without. induction l as [|kv l IH]; cbn [List.filter assoc_get]; [by case_match|].
  destruct (decide (kv.1 = k)) as [E|E].
  - rewrite (bool_decide_true (kv.1 ∈ [k])) by (subst; left). cbn [negb]. rewrite IH.
    destruct (decide (k' = k)); [by rewrite bool_decide_true|]. rewrite !bool_decide_false by congruence. done.
  - rewrite (bool_decide_false (kv.1 ∈ [k])) by (rewrite list_elem_of_singleton; done).
    cbn [negb assoc_get]. rewrite IH.
    destruct (decide (kv.1 = k')) as [E'|E']; [|by rewrite (bool_decide_false (kv.1 = k'))].
    rewrite (bool_decide_true (kv.1 = k')) by done. by rewrite (bool_decide_false (k' = k)) by congruence.
Qed.
End AssocFacts.

Lemma sublist_map {A B} (f : A → B) l k : sublist l k → sublist (map f l) (map f k).
Proof. induction 1; cbn; by constructor. Qed.

Lemma assoc_pop_sublist {K V} `{EqDecision K} (k : K) (l : list (K * V)) : sublist (assoc_pop k l) l.
Proof. induction l as [|kv l IH]; [done|]. cbn. case_match; by constructor. Qed.

#[export] Hint Rewrite @zlen_nil @zlen_cons @zlen_app : yinshi_len.
#[export] Hint Resolve zlen_nonneg count_nonneg : yinshi.
