(* ===== verification/Text.v ===== *)
(** * Text and byte encodings

    The parts of Python's standard library the modelled sources rely on to
    move between [str] and [bytes]: [str.encode]/[bytes.decode] (UTF-8,
    strict), [bytes.hex], [base64.urlsafe_b64encode] and strict
    [base64.b64decode], decimal [repr] of [int], code-point ordering of [str],
    [str.strip]/[str.lower] on the characters the sources test, and the
    canonical text of [uuid.UUID]. *)

From S2P Require Import Prelude.

(** ** Hexadecimal *)

Definition hex_digit (d : Z) : Z := if d <? 10 then 48 + d else 87 + d.

(** [bytes.hex()] and [hashlib...hexdigest()]. *)
Fixpoint hexdigest (b : pybytes) : pystr :=
  match b with
  | [] => []
  | x :: r => hex_digit (x / 16) :: hex_digit (x mod 16) :: hexdigest r
  end.

(** ** UTF-8 *)

Definition is_surrogate (c : Z) : bool := (55296 <=? c) && (c <=? 57343).

(** A code point with a UTF-8 encoding. *)
Definition is_scalar (c : Z) : bool :=
  (0 <=? c) && (c <=? 1114111) && negb (is_surrogate c).

Definition utf8_char (c : Z) : pybytes :=
  if c <? 128 then [c]
  else if c <? 2048 then [192 + c / 64; 128 + c mod 64]
  else if c <? 65536 then [224 + c / 4096; 128 + (c / 64) mod 64; 128 + c mod 64]
  else [240 + c / 262144; 128 + (c / 4096) mod 64; 128 + (c / 64) mod 64; 128 + c mod 64].

(** [s.encode("utf-8")]: a lone surrogate has no encoding. *)
Fixpoint utf8_encode (s : pystr) : res pybytes :=
  match s with
  | [] => Ok []
  | c :: r =>
      check! guard (is_scalar c) UnicodeEncodeError "surrogates not allowed" in
      let! b := utf8_encode r in
      Ok (utf8_char c ++ b)
  end.

Definition is_cont (b : Z) : bool := (128 <=? b) && (b <=? 191).

(** [b.decode("utf-8")], strict: overlong forms, surrogates and values above
    U+10FFFF are refused. *)
Fixpoint utf8_decode (l : pybytes) : res pystr :=
  match l with
  | [] => Ok []
  | b0 :: r0 =>
      if b0 <? 128 then let! s := utf8_decode r0 in Ok (b0 :: s)
      else match r0 with
      | [] => raise UnicodeDecodeError "unexpected end of data"
      | b1 :: r1 =>
          if negb (is_cont b1) then raise UnicodeDecodeError "invalid continuation byte"
          else if (194 <=? b0) && (b0 <=? 223) then
            let! s := utf8_decode r1 in Ok ((b0 - 192) * 64 + (b1 - 128) :: s)
          else match r1 with
          | [] => raise UnicodeDecodeError "unexpected end of data"
          | b2 :: r2 =>
              if negb (is_cont b2) then raise UnicodeDecodeError "invalid continuation byte"
              else if (224 <=? b0) && (b0 <=? 239) then
                let c := (b0 - 224) * 4096 + (b1 - 128) * 64 + (b2 - 128) in
                check! guard ((2048 <=? c) && negb (is_surrogate c))
                  UnicodeDecodeError "invalid continuation byte" in
                let! s := utf8_decode r2 in Ok (c :: s)
              else match r2 with
              | [] => raise UnicodeDecodeError "unexpected end of data"
              | b3 :: r3 =>
                  if negb (is_cont b3) then raise UnicodeDecodeError "invalid continuation byte"
                  else if (240 <=? b0) && (b0 <=? 244) then
                    let c := (b0 - 240) * 262144 + (b1 - 128) * 4096
                             + (b2 - 128) * 64 + (b3 - 128) in
                    check! guard ((65536 <=? c) && (c <=? 1114111))
                      UnicodeDecodeError "invalid continuation byte" in
                    let! s := utf8_decode r3 in Ok (c :: s)
                  else raise UnicodeDecodeError "invalid start byte"
              end
          end
      end
  end.

(** ** Base64 with the URL alphabet, unpadded *)

Definition b64_char (v : Z) : Z :=
  if v <? 26 then 65 + v
  else if v <? 52 then 71 + v
  else if v <? 62 then v - 4
  else if v =? 62 then 45 else 95.

(** [base64.urlsafe_b64encode(value).rstrip(b"=").decode("ascii")] *)
Fixpoint b64url_encode (b : pybytes) : pystr :=
  match b with
  | [] => []
  | [x] => [b64_char (x / 4); b64_char (x mod 4 * 16)]
  | [x; y] => [b64_char (x / 4); b64_char (x mod 4 * 16 + y / 16); b64_char (y mod 16 * 4)]
  | x :: y :: z :: r =>
      b64_char (x / 4) :: b64_char (x mod 4 * 16 + y / 16)
      :: b64_char (y mod 16 * 4 + z / 64) :: b64_char (z mod 64) :: b64url_encode r
  end.

(** The value of one character once [altchars=b"-_"] has been translated to
    the standard alphabet; the standard characters stay accepted. *)
Definition b64_value (c : Z) : option Z :=
  if is_upper c then Some (c - 65)
  else if is_lower c then Some (c - 71)
  else if is_digit c then Some (c + 4)
  else if (c =? 43) || (c =? 45) then Some 62
  else if (c =? 47) || (c =? 95) then Some 63
  else None.

(** The data characters of the input, without their padding. *)
Fixpoint b64_data (l : pystr) : option pybytes :=
  match l with
  | [] => Some []
  | [_] => None
  | [a; b] =>
      x ← b64_value a; y ← b64_value b; Some [x * 4 + y / 16]
  | [a; b; c] =>
      x ← b64_value a; y ← b64_value b; z ← b64_value c;
      Some [x * 4 + y / 16; y mod 16 * 16 + z / 4]
  | a :: b :: c :: d :: r =>
      x ← b64_value a; y ← b64_value b; z ← b64_value c; w ← b64_value d;
      t ← b64_data r;
      Some (x * 4 + y / 16 :: y mod 16 * 16 + z / 4 :: z mod 4 * 64 + w :: t)
  end.

(** Drop one trailing ["="], if there is one. *)
Definition strip_pad1 (s : pystr) : pystr :=
  match reverse s with
  | c :: r => if c =? 61 then reverse r else s
  | [] => s
  end.

(** Drop at most two trailing ["="] characters. *)
Definition strip_padding (s : pystr) : pystr := strip_pad1 (strip_pad1 s).

(** [base64.b64decode(s, altchars=b"-_", validate=True)] on a string whose
    length the caller has rounded up to a multiple of four. *)
Definition b64decode (s : pystr) : res pybytes :=
  check! guard (zlen s mod 4 =? 0) BinasciiError "Incorrect padding" in
  match b64_data (strip_padding s) with
  | Some b => Ok b
  | None => raise BinasciiError "Non-base64 digit found"
  end.

(** ["=" * (-len(value) % 4)] *)
Definition b64_padding (value : pystr) : pystr :=
  repeat 61 (Z.to_nat ((- zlen value) mod 4)).

(** ** Decimal integers *)

Fixpoint dec_digits (fuel : nat) (n : Z) (acc : pystr) : pystr :=
  match fuel with
  | O => acc
  | S f => if n <? 10 then (48 + n) :: acc
           else dec_digits f (n / 10) ((48 + n mod 10) :: acc)
  end.

(** [repr] of a non-negative [int]: the number of decimal digits is at most
    the number of binary ones, so the fuel is never exhausted. *)
Definition nat_repr (n : Z) : pystr := dec_digits (S (Z.to_nat (Z.log2 n))) n [].
Definition int_repr (n : Z) : pystr :=
  if n <? 0 then 45 :: nat_repr (- n) else nat_repr n.

Definition dec_value (l : pystr) : Z := fold_left (fun a c => a * 10 + (c - 48)) l 0.

(** ** Ordering of [str] *)

Fixpoint str_ltb (a b : pystr) : bool :=
  match a, b with
  | _, [] => false
  | [], _ :: _ => true
  | x :: a', y :: b' => (x <? y) || ((x =? y) && str_ltb a' b')
  end.

(** ** [str] methods on the characters the sources test for *)

Definition is_space (c : Z) : bool :=
  ((9 <=? c) && (c <=? 13)) || ((28 <=? c) && (c <=? 32)) || (c =? 133) || (c =? 160)
  || (c =? 5760) || ((8192 <=? c) && (c <=? 8202)) || (c =? 8232) || (c =? 8233)
  || (c =? 8239) || (c =? 8287) || (c =? 12288).

Fixpoint lstrip (s : pystr) : pystr :=
  match s with
  | [] => []
  | c :: r => if is_space c then lstrip r else s
  end.
Definition strip (s : pystr) : pystr := reverse (lstrip (reverse (lstrip s))).

(** The lower-case form of the characters whose lower-case form is ASCII
    (the ASCII capitals and U+212A KELVIN SIGN). Every other character lowers
    to text that contains a non-ASCII character, as it does itself, so a
    comparison with ASCII text gives the answer of [str.lower]. *)
Definition lower_char (c : Z) : Z :=
  if is_upper c then c + 32 else if c =? 8490 then 107 else c.
Definition lower (s : pystr) : pystr := map lower_char s.

Fixpoint starts_with (p s : pystr) : bool :=
  match p, s with
  | [], _ => true
  | _ :: _, [] => false
  | a :: p', b :: s' => (a =? b) && starts_with p' s'
  end.
Definition ends_with (p s : pystr) : bool := starts_with (reverse p) (reverse s).

(** [s.split(sep)] for a separator of one character. *)
Fixpoint split_on (sep : Z) (s : pystr) : list pystr :=
  match s with
  | [] => [[]]
  | c :: r =>
      if c =? sep then [] :: split_on sep r
      else match split_on sep r with
           | x :: xs => (c :: x) :: xs
           | [] => [[c]]
           end
  end.

(** [s.encode("ascii")] *)
Definition ascii_encode (s : pystr) : res pybytes :=
  check! guard (forallb (fun c => (0 <=? c) && (c <? 128)) s) UnicodeEncodeError
    "ordinal not in range(128)" in
  Ok s.

(** ** Canonical text of a UUID *)

(** [str(uuid.UUID(bytes=b))] for sixteen bytes. *)
Definition uuid_str (b : pybytes) : pystr :=
  let h := hexdigest b in
  take 8 h ++ 45 :: take 4 (drop 8 h) ++ 45 :: take 4 (drop 12 h)
  ++ 45 :: take 4 (drop 16 h) ++ 45 :: drop 20 h.

Definition uuid_groups (s : pystr) : pystr :=
  take 8 s ++ take 4 (drop 9 s) ++ take 4 (drop 14 s) ++ take 4 (drop 19 s) ++ drop 24 s.

(** [str(uuid.UUID(value)) == value]: thirty-two lower-case hexadecimal digits
    in groups of 8-4-4-4-12. *)
Definition canonical_uuid (s : pystr) : bool :=
  (zlen s =? 36)
  && bool_decide (s !! 8%nat = Some 45) && bool_decide (s !! 13%nat = Some 45)
  && bool_decide (s !! 18%nat = Some 45) && bool_decide (s !! 23%nat = Some 45)
  && forallb is_hex (uuid_groups s).

(** ** Lemmas *)

Ltac zdm := Z.to_euclidean_division_equations; lia.

Lemma utf8_decode_char c r :
  is_scalar c = true →
  utf8_decode (utf8_char c ++ r) = let! s := utf8_decode r in Ok (c :: s).
Proof.
  unfold is_scalar, is_surrogate. intros H. breflect.
  assert (Hs : c < 55296 ∨ 57343 < c).
  { match goal with H : _ && _ = false |- _ => apply andb_false_iff in H; destruct H end;
      breflect; lia. }
  unfold utf8_char.
  destruct (c <? 128) eqn:E1; breflect.
  { cbn [app utf8_decode]. by rewrite (proj2 (Z.ltb_lt c 128)). }
  assert (Hcont : ∀ x, is_cont (128 + x mod 64) = true).
  { intros x. unfold is_cont. apply andb_true_iff. rewrite !Z.leb_le. zdm. }
  destruct (c <? 2048) eqn:E2; breflect; [|destruct (c <? 65536) eqn:E3; breflect].
  - cbn [app utf8_decode]. rewrite Hcont. cbn [negb].
    rewrite (proj2 (Z.ltb_ge _ 128)) by zdm.
    rewrite !(proj2 (Z.leb_le _ _)) by zdm. cbn [andb].
    replace ((192 + c / 64 - 192) * 64 + (128 + c mod 64 - 128)) with c by zdm. done.
  - cbn [app utf8_decode]. rewrite !Hcont. cbn [negb].
    rewrite (proj2 (Z.ltb_ge _ 128)) by zdm.
    rewrite (proj2 (Z.leb_le 194 _)) by zdm.
    rewrite (proj2 (Z.leb_gt _ 223)) by zdm. cbn [andb].
    rewrite !(proj2 (Z.leb_le _ _)) by zdm. cbn [andb].
    replace ((224 + c / 4096 - 224) * 4096 + (128 + c / 64 mod 64 - 128) * 64
             + (128 + c mod 64 - 128)) with c by zdm.
    unfold is_surrogate.
    by replace ((55296 <=? c) && (c <=? 57343)) with false.
  - cbn [app utf8_decode]. rewrite !Hcont. cbn [negb].
    rewrite (proj2 (Z.ltb_ge _ 128)) by zdm.
    rewrite (proj2 (Z.leb_le 194 _)) by zdm.
    rewrite (proj2 (Z.leb_gt _ 223)) by zdm. cbn [andb].
    rewrite (proj2 (Z.leb_le 224 _)) by zdm.
    rewrite (proj2 (Z.leb_gt _ 239)) by zdm. cbn [andb].
    rewrite !(proj2 (Z.leb_le _ _)) by zdm. cbn [andb guard res_bind].
    replace ((240 + c / 262144 - 240) * 262144 + (128 + c / 4096 mod 64 - 128) * 4096
             + (128 + c / 64 mod 64 - 128) * 64 + (128 + c mod 64 - 128)) with c by zdm.
    done.
Qed.

(** Decoding undoes encoding on every encodable string. *)
Lemma utf8_round_trip s b : utf8_encode s = Ok b → utf8_decode b = Ok s.
Proof.
  revert b. induction s as [|c s IH]; cbn [utf8_encode]; intros b H; [by inv_ok|].
  inv_ok. rewrite utf8_decode_char by done. by rewrite (IH _ eq_refl).
Qed.

(** Strict decoding accepts nothing but what encoding produces. *)
Lemma utf8_decode_encode n b s : (length b <= n)%nat → Forall (fun x => is_byte x = true) b →
  utf8_decode b = Ok s → utf8_encode s = Ok b.
Proof.
  assert (C : ∀ c r out, is_scalar c = true → utf8_encode r = Ok out →
    utf8_encode (c :: r) = Ok (utf8_char c ++ out)).
  { intros c r out Hc Hr. cbn [utf8_encode]. by rewrite Hc, Hr. }
  revert b s. induction n as [|n IH]; intros b s Hn Hb H; [destruct b; [by injection H as <-|cbn in Hn; lia]|].
  destruct b as [|b0 r0]; [by injection H as <-|]. apply Forall_cons in Hb as [H0 Hb]. cbn [length] in Hn.
  unfold is_byte in H0. cbn [utf8_decode] in H. destruct (b0 <? 128) eqn:E0.
  { destruct (utf8_decode r0) as [s'|] eqn:E; [|done]. injection H as <-. apply IH in E; [|lia|done].
    erewrite C; [|unfold is_scalar, is_surrogate; lia|exact E]. unfold utf8_char. by rewrite E0. }
  destruct r0 as [|b1 r1]; [done|]. apply Forall_cons in Hb as [H1 Hb]. cbn [length] in Hn.
  destruct (is_cont b1) eqn:C1; [|done]. unfold is_cont in C1. cbn [negb] in H.
  destruct ((194 <=? b0) && (b0 <=? 223)) eqn:E1.
  { destruct (utf8_decode r1) as [s'|] eqn:E; [|done]. injection H as <-. apply IH in E; [|lia|done].
    erewrite C; [|unfold is_scalar, is_surrogate; lia|exact E]. unfold utf8_char.
    rewrite (proj2 (Z.ltb_ge _ 128)), (proj2 (Z.ltb_lt _ 2048)) by lia. cbn [app]. repeat f_equal; zdm. }
  destruct r1 as [|b2 r2]; [done|]. apply Forall_cons in Hb as [H2 Hb]. cbn [length] in Hn.
  destruct (is_cont b2) eqn:C2; [|done]. unfold is_cont in C2. cbn [negb] in H.
  destruct ((224 <=? b0) && (b0 <=? 239)) eqn:E2.
  { remember ((b0 - 224) * 4096 + (b1 - 128) * 64 + (b2 - 128)) as c eqn:Hc.
    destruct ((2048 <=? c) && negb (is_surrogate c)) eqn:Ec; [|done]. cbn [guard res_bind] in H.
    destruct (utf8_decode r2) as [s'|] eqn:E; [|done]. injection H as <-. apply IH in E; [|lia|done].
    apply andb_true_iff in Ec as [Ec Es]. assert (Hsc : is_scalar c = true).
    { unfold is_scalar. rewrite Es. lia. }
    erewrite C; [|exact Hsc|exact E]. unfold utf8_char.
    rewrite (proj2 (Z.ltb_ge c 128)), (proj2 (Z.ltb_ge c 2048)), (proj2 (Z.ltb_lt c 65536)) by lia.
    cbn [app]. rewrite Hc. repeat f_equal; zdm. }
  destruct r2 as [|b3 r3]; [done|]. apply Forall_cons in Hb as [H3 Hb]. cbn [length] in Hn.
  destruct (is_cont b3) eqn:C3; [|done]. unfold is_cont in C3. cbn [negb] in H.
  destruct ((240 <=? b0) && (b0 <=? 244)) eqn:E3; [|done].
  remember ((b0 - 240) * 262144 + (b1 - 128) * 4096 + (b2 - 128) * 64 + (b3 - 128)) as c eqn:Hc.
  destruct ((65536 <=? c) && (c <=? 1114111)) eqn:Ec; [|done]. cbn [guard res_bind] in H.
  destruct (utf8_decode r3) as [s'|] eqn:E; [|done]. injection H as <-. apply IH in E; [|lia|done].
  erewrite C; [|unfold is_scalar, is_surrogate; lia|exact E]. unfold utf8_char.
  rewrite (proj2 (Z.ltb_ge c 128)), (proj2 (Z.ltb_ge c 2048)), (proj2 (Z.ltb_ge c 65536)) by lia.
  cbn [app]. rewrite Hc. repeat f_equal; zdm.
Qed.

Lemma utf8_encode_app s t b : utf8_encode (s ++ t) = Ok b →
  ∃ x y, utf8_encode s = Ok x ∧ utf8_encode t = Ok y ∧ b = x ++ y.
Proof.
  revert b. induction s as [|c s IH]; cbn [utf8_encode app]; intros b H.
  - by exists [], b.
  - inv_ok. destruct (IH _ eq_refl) as (x & y & Hx & Hy & ->).
    rewrite Hx. cbn [guard res_bind]. exists (utf8_char c ++ x), y.
    by rewrite app_assoc.
Qed.

Lemma utf8_encode_scalar s :
  forallb is_scalar s = true ↔ ∃ b, utf8_encode s = Ok b.
Proof.
  induction s as [|c s IH]; cbn [utf8_encode forallb].
  - split; [by eexists|done].
  - rewrite andb_true_iff, IH. split.
    + intros [-> [b ->]]. cbn. by eexists.
    + intros [b H]. inv_ok. eauto.
Qed.

Lemma utf8_encode_only_error s e :
  utf8_encode s = Raise e → exn_class e = UnicodeEncodeError.
Proof.
  induction s as [|c s IH]; cbn [utf8_encode]; [done|].
  unfold guard. destruct (is_scalar c); cbn [res_bind raise].
  - destruct (utf8_encode s); cbn [res_bind]; [done|]. intros [= ->]. by apply IH.
  - by intros [= <-].
Qed.

Lemma utf8_char_len c : 1 <= zlen (utf8_char c) <= 4.
Proof. unfold utf8_char. repeat case_match; unfold zlen; simpl; lia. Qed.

Lemma utf8_encode_bytes s b : utf8_encode s = Ok b → Forall (fun x => is_byte x = true) b.
Proof.
  revert b. induction s as [|c s IH]; cbn [utf8_encode]; intros b H; inv_ok; [constructor|].
  apply Forall_app. split; [|by apply IH].
  unfold is_scalar in G. breflect. unfold utf8_char.
  repeat case_match; breflect; repeat constructor; unfold is_byte;
    apply andb_true_iff; rewrite !Z.leb_le; zdm.
Qed.

(** ASCII text encodes to itself. *)
Lemma utf8_encode_ascii s :
  Forall (fun c => 0 <= c < 128) s → utf8_encode s = Ok s.
Proof.
  induction 1 as [|c s Hc Hs IH]; [done|]. cbn [utf8_encode].
  replace (is_scalar c) with true; cbn [guard res_bind].
  - rewrite IH. cbn [res_bind]. unfold utf8_char.
    by rewrite (proj2 (Z.ltb_lt c 128)) by lia.
  - symmetry. unfold is_scalar, is_surrogate. rewrite !(proj2 (Z.leb_le _ _)) by lia.
    cbn. rewrite (proj2 (Z.leb_gt _ _)) by lia. done.
Qed.

Lemma b64_value_char v : 0 <= v < 64 → b64_value (b64_char v) = Some v.
Proof.
  intros H. unfold b64_char, b64_value, is_upper, is_lower, is_digit.
  repeat case_match; breflect;
    repeat match goal with
    | H : _ && _ = false |- _ => apply andb_false_iff in H; destruct H
    | H : _ || _ = true |- _ => apply orb_true_iff in H; destruct H
    end; breflect; try (f_equal; lia); try lia.
Qed.

Lemma b64_char_not_pad v : 0 <= v < 64 → b64_char v ≠ 61.
Proof. intros H. unfold b64_char. repeat case_match; breflect; lia. Qed.

Lemma strip_pad1_snoc s : strip_pad1 (s ++ [61]) = s.
Proof. unfold strip_pad1. rewrite reverse_snoc. simpl. apply reverse_involutive. Qed.

Lemma strip_pad1_id s : Forall (fun c => c ≠ 61) s → strip_pad1 s = s.
Proof.
  intros H. unfold strip_pad1. destruct (reverse s) as [|c r] eqn:E; [done|].
  destruct (c =? 61) eqn:Ec; [|done]. breflect. subst.
  rewrite Forall_forall in H. destruct (H 61); [|done].
  apply elem_of_reverse. rewrite E. set_solver.
Qed.

(** Induction three bytes at a time, as the encoder consumes them. *)
Lemma list_ind3 {A} (P : list A → Prop) :
  P [] → (∀ x, P [x]) → (∀ x y, P [x; y]) →
  (∀ x y z r, P r → P (x :: y :: z :: r)) → ∀ l, P l.
Proof.
  intros H0 H1 H2 H3.
  fix IH 1. intros [|x [|y [|z r]]]; [done|apply H1|apply H2|apply H3, IH].
Qed.

Lemma b64_data_encode b :
  Forall (fun x => is_byte x = true) b → b64_data (b64url_encode b) = Some b.
Proof.
  induction b as [|x|x y|x y z r IH] using list_ind3; intros Hb; [done|..];
    rewrite ?Forall_cons in Hb; destruct_and?; unfold is_byte in *; breflect;
    cbn [b64url_encode b64_data];
    rewrite !b64_value_char by zdm; cbn; rewrite ?IH by done; cbn; repeat f_equal; zdm.
Qed.

Lemma b64url_encode_no_pad b :
  Forall (fun x => is_byte x = true) b → Forall (fun c => c ≠ 61) (b64url_encode b).
Proof.
  induction b as [|x|x y|x y z r IH] using list_ind3; intros Hb; [constructor|..];
    rewrite ?Forall_cons in Hb; destruct_and?; unfold is_byte in *; breflect;
    cbn [b64url_encode]; repeat (constructor; [apply b64_char_not_pad; zdm|]);
    try constructor; auto.
Qed.

Lemma b64url_encode_len b : zlen (b64url_encode b) mod 4 ≠ 1.
Proof.
  induction b as [|x|x y|x y z r IH] using list_ind3; [done..|].
  cbn [b64url_encode]. rewrite !zlen_cons. zdm.
Qed.

(** Strict decoding of the re-padded encoding gives the bytes back. *)
(** Decoding an unpadded text with the padding Python adds to it. *)
Lemma b64decode_padded v b : Forall (fun c => c ≠ 61) v → zlen v mod 4 ≠ 1 → b64_data v = Some b →
  b64decode (v ++ b64_padding v) = Ok b.
Proof.
  intros Hn Hl Hd. unfold b64decode.
  assert (Hk : (- zlen v) mod 4 = 0 ∨ (- zlen v) mod 4 = 1 ∨ (- zlen v) mod 4 = 2) by zdm.
  assert (Hm : zlen (v ++ b64_padding v) mod 4 = 0).
  { rewrite zlen_app. unfold b64_padding, zlen at 2. rewrite repeat_length, Z2Nat.id by zdm.
    clear - v. zdm. }
  rewrite Hm. cbn [guard res_bind Z.eqb].
  replace (strip_padding (v ++ b64_padding v)) with v; [by rewrite Hd|].
  unfold strip_padding, b64_padding.
  destruct Hk as [-> | [-> | ->]]; simpl repeat.
  - rewrite app_nil_r. by rewrite !strip_pad1_id by (rewrite ?strip_pad1_id; done).
  - rewrite strip_pad1_snoc. by rewrite strip_pad1_id.
  - replace (v ++ [61; 61]) with ((v ++ [61]) ++ [61]) by by rewrite <- app_assoc.
    by rewrite !strip_pad1_snoc.
Qed.

Lemma b64decode_encode b :
  Forall (fun x => is_byte x = true) b →
  b64decode (b64url_encode b ++ b64_padding (b64url_encode b)) = Ok b.
Proof.
  intros Hb. apply b64decode_padded;
    [by apply b64url_encode_no_pad|apply b64url_encode_len|by apply b64_data_encode].
Qed.

(** Both alphabets have the same values. *)
Lemma b64_data_map f n l : (∀ c, b64_value (f c) = b64_value c) → (length l <= n)%nat →
  b64_data (map f l) = b64_data l.
Proof.
  intros Hf. revert l. induction n as [|n IH]; intros l Hn; [by destruct l; [done|inversion Hn]|].
  destruct l as [|a [|b [|c [|d l]]]]; cbn [map b64_data]; rewrite ?Hf; [done..|].
  rewrite IH; [done|]. cbn in Hn. clear -Hn. lia.
Qed.

Lemma b64url_encode_length b : 3 * zlen (b64url_encode b) <= 4 * zlen b + 2.
Proof.
  induction b as [|x|x y|x y z r IH] using list_ind3; cbn [b64url_encode];
    repeat rewrite zlen_cons; change (zlen (@nil Z)) with 0; lia.
Qed.

Lemma dec_digits_value fuel n acc :
  0 <= n → n < 2 ^ Z.of_nat fuel →
  fold_left (fun a c => a * 10 + (c - 48)) (dec_digits fuel n acc) 0 =
  fold_left (fun a c => a * 10 + (c - 48)) acc n.
Proof.
  revert n acc. induction fuel as [|f IH]; intros n acc Hn Hb; cbn [dec_digits].
  - change (2 ^ Z.of_nat 0) with 1 in Hb. by replace n with 0 by lia.
  - destruct (n <? 10) eqn:E; breflect.
    + cbn. f_equal. lia.
    + rewrite IH.
      * cbn. f_equal. zdm.
      * zdm.
      * rewrite Nat2Z.inj_succ, Z.pow_succ_r in Hb by lia. zdm.
Qed.

(** Reading a decimal representation back gives the number. *)
Lemma nat_repr_value n : 0 <= n → dec_value (nat_repr n) = n.
Proof.
  intros Hn. unfold dec_value, nat_repr. rewrite dec_digits_value; [done|done|].
  rewrite Nat2Z.inj_succ, Z2Nat.id by apply Z.log2_nonneg.
  destruct (decide (n = 0)) as [->|]; [done|]. apply Z.log2_spec. lia.
Qed.

Lemma dec_digits_digit fuel n acc :
  0 <= n → Forall (fun c => is_digit c = true) acc →
  Forall (fun c => is_digit c = true) (dec_digits fuel n acc).
Proof.
  revert n acc. induction fuel as [|f IH]; intros n acc Hn Ha; cbn [dec_digits]; [done|].
  destruct (n <? 10) eqn:E; breflect.
  - constructor; [|done]. unfold is_digit. apply andb_true_iff. rewrite !Z.leb_le. lia.
  - apply IH; [zdm|]. constructor; [|done].
    unfold is_digit. apply andb_true_iff. rewrite !Z.leb_le. zdm.
Qed.

Lemma nat_repr_digit n : 0 <= n → Forall (fun c => is_digit c = true) (nat_repr n).
Proof. intros. apply dec_digits_digit; [done|constructor]. Qed.

Lemma dec_digits_head fuel n acc :
  0 < n → n < 2 ^ Z.of_nat fuel →
  ∃ d r, dec_digits fuel n acc = d :: r ∧ 49 <= d <= 57.
Proof.
  revert n acc. induction fuel as [|f IH]; intros n acc Hn Hb; cbn [dec_digits].
  - change (2 ^ Z.of_nat 0) with 1 in Hb. lia.
  - destruct (n <? 10) eqn:E; breflect; [eexists _, _; split; [reflexivity|lia]|].
    apply IH; [zdm|]. rewrite Nat2Z.inj_succ, Z.pow_succ_r in Hb by lia. zdm.
Qed.

(** A representation has no leading zero, except that of zero itself. *)
Lemma nat_repr_head n : 0 <= n →
  nat_repr n = [48] ∨ ∃ d r, nat_repr n = d :: r ∧ 49 <= d <= 57.
Proof.
  intros Hn. destruct (decide (n = 0)) as [->|Hz]; [by left|right].
  apply dec_digits_head; [lia|].
  rewrite Nat2Z.inj_succ, Z2Nat.id by apply Z.log2_nonneg. apply Z.log2_spec. lia.
Qed.

Lemma dec_digits_len fuel n acc : zlen (dec_digits fuel n acc) <= Z.of_nat fuel + zlen acc.
Proof.
  revert n acc. induction fuel as [|f IH]; intros n acc; cbn [dec_digits]; [lia|].
  destruct (n <? 10); [rewrite zlen_cons; lia|].
  etransitivity; [apply IH|]. rewrite zlen_cons. lia.
Qed.

Lemma nat_repr_len n : zlen (nat_repr n) <= 1 + Z.log2 n.
Proof.
  unfold nat_repr. etransitivity; [apply dec_digits_len|].
  rewrite Nat2Z.inj_succ, Z2Nat.id by apply Z.log2_nonneg. unfold zlen. simpl. lia.
Qed.

(** [str] comparison is a strict total order. *)
Lemma str_ltb_irrefl a : str_ltb a a = false.
Proof. induction a as [|x a IH]; cbn [str_ltb]; [done|]. rewrite Z.ltb_irrefl, Z.eqb_refl, IH. done. Qed.

Lemma str_ltb_trans a b c : str_ltb a b = true → str_ltb b c = true → str_ltb a c = true.
Proof.
  revert b c. induction a as [|x a IH]; intros [|y b] [|z c]; cbn [str_ltb]; try done.
  rewrite !orb_true_iff, !andb_true_iff, !Z.ltb_lt, !Z.eqb_eq.
  intros [H1|[-> H1]] [H2|[-> H2]]; [left; lia|left; lia|left; lia|].
  right. split; [done|]. by eapply IH.
Qed.

Lemma str_ltb_total a b : str_ltb a b = true ∨ a = b ∨ str_ltb b a = true.
Proof.
  revert b. induction a as [|x a IH]; intros [|y b]; cbn [str_ltb]; try by auto.
  rewrite !orb_true_iff, !andb_true_iff, !Z.ltb_lt, !Z.eqb_eq.
  destruct (Z.lt_trichotomy x y) as [H|[->|H]]; [by auto| |by auto].
  destruct (IH b) as [?|[->|?]]; auto.
Qed.

Lemma b64_char_token v : 0 <= v < 64 → is_token_char (b64_char v) = true.
Proof.
  intros Hv. unfold is_token_char, is_lower, is_upper, is_digit, b64_char.
  repeat case_match; breflect; lia.
Qed.

Lemma b64url_encode_token b : Forall (fun x => is_byte x = true) b →
  Forall (fun c => is_token_char c = true) (b64url_encode b).
Proof.
  induction b as [|x|x y|x y z r IH] using list_ind3; intros Hb; cbn [b64url_encode];
    repeat match goal with H : Forall _ (_ :: _) |- _ => apply Forall_cons in H as [? ?] end;
    unfold is_byte in *; breflect; repeat (constructor; [apply b64_char_token; zdm|]); auto.
Qed.

Lemma b64_value_range c v : b64_value c = Some v → 0 <= v < 64 ∧ 0 <= c < 128.
Proof.
  unfold b64_value, is_upper, is_lower, is_digit. intros H.
  repeat (case_match; breflect; simplify_eq); lia.
Qed.

Lemma b64_data_ok n l b : (length l <= n)%nat → b64_data l = Some b →
  Forall (fun x => is_byte x = true) b ∧ Forall (fun c => 0 <= c < 128) l.
Proof.
  assert (B : ∀ x, 0 <= x <= 255 → is_byte x = true) by (intros x Hx; unfold is_byte; lia).
  revert l b. induction n as [|n IH]; intros l b Hn H.
  - destruct l; [|cbn in Hn; lia]. by injection H as <-.
  - destruct l as [|c1 [|c2 [|c3 [|c4 l]]]]; cbn [b64_data] in H; simplify_option_eq;
      repeat match goal with E : b64_value _ = Some _ |- _ => apply b64_value_range in E as [? ?] end.
    1-3: split; repeat (constructor; [try apply B; zdm|]); constructor.
    match goal with E : b64_data l = Some _ |- _ => apply IH in E as [Hb Hl]; [|cbn in Hn; lia] end.
    split; repeat (constructor; [try apply B; zdm|]); done.
Qed.

Lemma strip_pad1_suffix s : s = strip_pad1 s ∨ s = strip_pad1 s ++ [61].
Proof.
  unfold strip_pad1. destruct (reverse s) as [|c r] eqn:E; [by left|]. case_match; [|by left].
  breflect. subst c. right. by rewrite <- reverse_cons, <- E, reverse_involutive.
Qed.

(** What [b64decode] returns is bytes, and what it accepts is ASCII. *)
Lemma b64decode_ok s b : b64decode s = Ok b →
  Forall (fun x => is_byte x = true) b ∧ Forall (fun c => 0 <= c < 128) s.
Proof.
  unfold b64decode. intros H. inv_ok. destruct (b64_data _) as [d|] eqn:E; [|done]. injection H as ->.
  apply (b64_data_ok (length (strip_padding s))) in E as [Hb Hs]; [|done]. split; [done|].
  assert (P : ∀ t, Forall (fun c => 0 <= c < 128) (strip_pad1 t) → Forall (fun c => 0 <= c < 128) t).
  { intros t Ht. destruct (strip_pad1_suffix t) as [-> | ->]; [done|]. apply Forall_snoc. split; [done|lia]. }
  by apply P, P.
Qed.

Lemma split_on_nonempty sep s : split_on sep s ≠ [].
Proof. destruct s as [|c s]; cbn; [done|]. repeat case_match; done. Qed.

Lemma split_on_plain sep s : sep ∉ s → split_on sep s = [s].
Proof.
  induction s as [|c s IH]; cbn; intros H; [done|]. apply not_elem_of_cons in H as [Hc H].
  rewrite (proj2 (Z.eqb_neq c sep)) by done. by rewrite IH.
Qed.

Lemma split_on_app sep s t : sep ∉ s → split_on sep (s ++ sep :: t) = s :: split_on sep t.
Proof.
  induction s as [|c s IH]; cbn; intros H; [by rewrite Z.eqb_refl|].
  apply not_elem_of_cons in H as [Hc H]. rewrite (proj2 (Z.eqb_neq c sep)) by done. by rewrite IH.
Qed.

(** Splitting and joining. *)
Lemma split_on_concat sep s x xs : split_on sep s = x :: xs →
  s = x ++ concat (map (fun y => sep :: y) xs).
Proof.
  revert x xs. induction s as [|c s IH]; cbn; intros x xs H; [by injection H as <- <-|].
  destruct (Z.eqb_spec c sep) as [->|N].
  - injection H as <- <-. destruct (split_on sep s) as [|y ys] eqn:E; [by destruct (split_on_nonempty sep s)|].
    cbn. by rewrite (IH _ _ eq_refl).
  - destruct (split_on sep s) as [|y ys] eqn:E; [by destruct (split_on_nonempty sep s)|].
    injection H as <- <-. cbn. by rewrite (IH _ _ eq_refl).
Qed.

Lemma hex_digit_is_hex d : 0 <= d < 16 → is_hex (hex_digit d) = true.
Proof.
  intros H. unfold is_hex, is_digit, hex_digit. destruct (d <? 10) eqn:E; breflect;
    rewrite orb_true_iff, !andb_true_iff, !Z.leb_le; lia.
Qed.

Lemma hexdigest_is_hex b :
  Forall (fun x => is_byte x = true) b → forallb is_hex (hexdigest b) = true.
Proof.
  induction 1 as [|x b Hx Hb IH]; [done|]. unfold is_byte in Hx. breflect.
  cbn [hexdigest forallb]. rewrite !hex_digit_is_hex by zdm. done.
Qed.

Lemma hexdigest_length b : length (hexdigest b) = (2 * length b)%nat.
Proof. induction b as [|x b IH]; cbn [hexdigest length]; lia. Qed.

(** The text of sixteen bytes is canonical. *)
Lemma uuid_str_canonical b :
  length b = 16%nat → Forall (fun x => is_byte x = true) b → canonical_uuid (uuid_str b) = true.
Proof.
  intros Hl Hb. apply hexdigest_is_hex in Hb. pose proof (hexdigest_length b) as Hh.
  rewrite Hl in Hh. unfold uuid_str. generalize dependent (hexdigest b). intros h Hx Hh.
  do 32 (destruct h as [|? h]; [discriminate Hh|]). destruct h; [|discriminate Hh].
  unfold canonical_uuid, uuid_groups. cbn -[is_hex] in *. exact Hx.
Qed.
