(* ===== verification/Json.v ===== *)
(** * Python's [json] module, as the backend uses it

    [json.dumps] with compact separators (both [ensure_ascii] settings, keys
    sorted on request) and [json.loads] with its [object_pairs_hook],
    [parse_float] and [parse_constant] hooks. The parser follows the
    standard library's scanner: whitespace, string escapes with surrogate
    pairs, the number grammar, the 4300-digit limit on integers, and the
    errors it raises. *)

From S2P Require Import Prelude Text.

(** A decoded value. A [dict] is an association list in insertion order; a
    [float] is kept as the text [repr] prints for it. *)
Unset Elimination Schemes.
Inductive json :=
  | JNull
  | JBool (b : bool)
  | JInt (z : Z)
  | JFloat (r : pystr)
  | JStr (s : pystr)
  | JArr (l : list json)
  | JObj (l : list (pystr * json)).
Set Elimination Schemes.

Lemma json_ind (P : json → Prop) :
  P JNull → (∀ b, P (JBool b)) → (∀ z, P (JInt z)) → (∀ r, P (JFloat r)) →
  (∀ s, P (JStr s)) → (∀ l, Forall P l → P (JArr l)) →
  (∀ l, Forall (fun kv => P kv.2) l → P (JObj l)) → ∀ v, P v.
Proof.
  intros Hn Hb Hi Hf Hs Ha Ho. fix IH 1. intros [|b|z|r|s|l|l].
  1-5: clear IH; auto.
  - apply Ha. induction l as [|v l IHl]; constructor; [apply IH|apply IHl].
  - apply Ho. induction l as [|kv l IHl]; constructor; [apply IH|apply IHl].
Qed.

(** [dict.get] and key membership. *)
Fixpoint dict_get (k : pystr) (l : list (pystr * json)) : option json :=
  match l with
  | [] => None
  | kv :: r => if bool_decide (kv.1 = k) then Some kv.2 else dict_get k r
  end.

Definition dict_keys (l : list (pystr * json)) : list pystr := map fst l.

(** [d[k] = v]: the value of an existing key is replaced in place. *)
Fixpoint dict_set (k : pystr) (v : json) (l : list (pystr * json)) : list (pystr * json) :=
  match l with
  | [] => [(k, v)]
  | kv :: r => if bool_decide (kv.1 = k) then (k, v) :: r else kv :: dict_set k v r
  end.

(** [set(message) == keys], and [message.get(k) == v] for a string [v]. *)
Definition has_keys (message : list (pystr * json)) (keys : list pystr) : bool :=
  forallb (fun k => bool_decide (k ∈ keys)) (dict_keys message)
  && forallb (fun k => bool_decide (k ∈ dict_keys message)) keys.

Definition get_is_str (message : list (pystr * json)) (k v : pystr) : bool :=
  match dict_get k message with
  | Some (JStr x) => bool_decide (x = v)
  | _ => false
  end.

(** [d.pop(k, None)] *)
Fixpoint dict_pop (k : pystr) (l : list (pystr * json)) : list (pystr * json) :=
  match l with
  | [] => []
  | kv :: r => if bool_decide (kv.1 = k) then r else kv :: dict_pop k r
  end.

(** ** [json.dumps] *)

Definition u_escape (n : Z) : pystr :=
  [92; 117; hex_digit (n / 4096 mod 16); hex_digit (n / 256 mod 16);
   hex_digit (n / 16 mod 16); hex_digit (n mod 16)].

Definition esc_char (ensure_ascii : bool) (c : Z) : pystr :=
  if c =? 34 then [92; 34]
  else if c =? 92 then [92; 92]
  else if c =? 10 then [92; 110]
  else if c =? 13 then [92; 114]
  else if c =? 9 then [92; 116]
  else if c =? 12 then [92; 102]
  else if c =? 8 then [92; 98]
  else if c <? 32 then u_escape c
  else if ensure_ascii && (126 <? c) then
    if c <? 65536 then u_escape c
    else u_escape (55296 + (c - 65536) / 1024) ++ u_escape (56320 + (c - 65536) mod 1024)
  else [c].

Definition esc_str (ensure_ascii : bool) (s : pystr) : pystr :=
  flat_map (esc_char ensure_ascii) s.
Definition dump_str (ensure_ascii : bool) (s : pystr) : pystr :=
  34 :: esc_str ensure_ascii s ++ [34].

(** Insertion of one item, and the sort of a dictionary's items by key. *)
Fixpoint insert_item {A} (kv : pystr * A) (l : list (pystr * A)) : list (pystr * A) :=
  match l with
  | [] => [kv]
  | x :: r => if str_ltb x.1 kv.1 then x :: insert_item kv r else kv :: x :: r
  end.
Definition sort_items {A} (l : list (pystr * A)) : list (pystr * A) :=
  foldr insert_item [] l.

Fixpoint join_with (sep : Z) (l : list pystr) : pystr :=
  match l with
  | [] => []
  | [x] => x
  | x :: r => x ++ sep :: join_with sep r
  end.

(** [json.dumps(v, ensure_ascii=..., separators=(",", ":"), sort_keys=...)] *)
Fixpoint dumps (ensure_ascii sort_keys : bool) (v : json) : pystr :=
  match v with
  | JNull => u"null"
  | JBool true => u"true"
  | JBool false => u"false"
  | JInt z => int_repr z
  | JFloat r => r
  | JStr s => dump_str ensure_ascii s
  | JArr l => 91 :: join_with 44 (map (dumps ensure_ascii sort_keys) l) ++ [93]
  | JObj l =>
      let items := map (fun kv => (kv.1, dumps ensure_ascii sort_keys kv.2)) l in
      let items := if sort_keys then sort_items items else items in
      123 :: join_with 44 (map (fun kv => dump_str ensure_ascii kv.1 ++ 58 :: kv.2) items)
      ++ [125]
  end.

(** ** [json.loads] *)

Definition derr {A} (m : string) : res A := raise JSONDecodeError m.
Arguments derr {A} m%_string.

Definition is_ws (c : Z) : bool := (c =? 32) || (c =? 9) || (c =? 10) || (c =? 13).
Fixpoint skip_ws (s : pystr) : pystr :=
  match s with
  | [] => []
  | c :: r => if is_ws c then skip_ws r else s
  end.

Definition hex_value (c : Z) : option Z :=
  if is_digit c then Some (c - 48)
  else if (97 <=? c) && (c <=? 102) then Some (c - 87)
  else if (65 <=? c) && (c <=? 70) then Some (c - 55)
  else None.

Definition u4_value (a b c d : Z) : option Z :=
  x ← hex_value a; y ← hex_value b; z ← hex_value c; w ← hex_value d;
  Some (x * 4096 + y * 256 + z * 16 + w).

Definition is_high (n : Z) : bool := (55296 <=? n) && (n <=? 56319).
Definition is_low (n : Z) : bool := (56320 <=? n) && (n <=? 57343).

Definition simple_escape (e : Z) : option Z :=
  if e =? 34 then Some 34 else if e =? 92 then Some 92 else if e =? 47 then Some 47
  else if e =? 98 then Some 8 else if e =? 102 then Some 12 else if e =? 110 then Some 10
  else if e =? 114 then Some 13 else if e =? 116 then Some 9 else None.

Definition push (c : Z) (r : res (pystr * pystr)) : res (pystr * pystr) :=
  let! p := r in Ok (c :: p.1, p.2).

(** The rest of a string literal, after its opening quote: its value and the
    text that follows the closing quote. *)
Fixpoint scan_string (s : pystr) : res (pystr * pystr) :=
  match s with
  | [] => derr "Unterminated string starting at"
  | c :: r =>
      if c =? 34 then Ok ([], r)
      else if c =? 92 then
        match r with
        | [] => derr "Unterminated string starting at"
        | e :: r1 =>
            if e =? 117 then
              match r1 with
              | h1 :: h2 :: h3 :: h4 :: r2 =>
                  match u4_value h1 h2 h3 h4 with
                  | None => derr "Invalid \\uXXXX escape"
                  | Some n =>
                      match r2 with
                      | b :: v :: g1 :: g2 :: g3 :: g4 :: r3 =>
                          if is_high n && (b =? 92) && (v =? 117) then
                            match u4_value g1 g2 g3 g4 with
                            | None => derr "Invalid \\uXXXX escape"
                            | Some m =>
                                if is_low m
                                then push (65536 + (n - 55296) * 1024 + (m - 56320)) (scan_string r3)
                                else push n (scan_string r2)
                            end
                          else push n (scan_string r2)
                      | _ => push n (scan_string r2)
                      end
                  end
              | _ => derr "Invalid \\uXXXX escape"
              end
            else
              match simple_escape e with
              | Some x => push x (scan_string r1)
              | None => derr "Invalid \\escape"
              end
        end
      else if c <? 32 then derr "Invalid control character at"
      else push c (scan_string r)
  end.

(** The longest prefix of decimal digits, and what follows. *)
Fixpoint span_digits (s : pystr) : pystr * pystr :=
  match s with
  | [] => ([], [])
  | c :: r => if is_digit c then let '(a, b) := span_digits r in (c :: a, b) else ([], s)
  end.

(** Fraction and exponent of a number, empty when the text has none. *)
Definition scan_frac (s : pystr) : pystr * pystr :=
  match s with
  | c :: r => if c =? 46 then let '(d, r') := span_digits r in
                if bool_decide (d = []) then ([], s) else (46 :: d, r')
              else ([], s)
  | [] => ([], s)
  end.

Definition scan_exp (s : pystr) : pystr * pystr :=
  match s with
  | c :: r =>
      if (c =? 101) || (c =? 69) then
        let '(sg, r1) := match r with
                         | x :: r' => if (x =? 43) || (x =? 45) then ([x], r') else ([], r)
                         | [] => ([], r)
                         end in
        let '(d, r2) := span_digits r1 in
        if bool_decide (d = []) then ([], s) else (c :: sg ++ d, r2)
      else ([], s)
  | [] => ([], s)
  end.

(** [sys.get_int_max_str_digits()] *)
Definition INT_MAX_STR_DIGITS : Z := 4300.

Section Loads.
Context (parse_float parse_constant : pystr → res json).
Context (object_pairs_hook : list (pystr * json) → res json).

(** A number whose sign, if any, has been read. *)
Definition scan_number (neg : bool) (s : pystr) : res (json * pystr) :=
  match s with
  | [] => derr "Expecting value"
  | d :: r =>
      if is_digit d then
        let '(ip, r1) := if d =? 48 then ([48], r) else span_digits s in
        let '(fp, r2) := scan_frac r1 in
        let '(ep, r3) := scan_exp r2 in
        if bool_decide (fp = []) && bool_decide (ep = []) then
          check! guard (zlen ip <=? INT_MAX_STR_DIGITS) ValueError
            "Exceeds the limit (4300 digits) for integer string conversion" in
          Ok (JInt (if neg then - dec_value ip else dec_value ip), r3)
        else
          let! v := parse_float ((if neg then [45] else []) ++ ip ++ fp ++ ep) in
          Ok (v, r3)
      else derr "Expecting value"
  end.

Definition out_of_fuel {A} : res A := raise AssertionError "fuel".

(** A literal word of the grammar. *)
Definition scan_word (w : pystr) (v : res json) (s : pystr) : res (json * pystr) :=
  if starts_with w s then let! x := v in Ok (x, drop (length w) s)
  else derr "Expecting value".

Fixpoint scan_value (fuel : nat) (s : pystr) : res (json * pystr) :=
  match fuel with
  | O => out_of_fuel
  | S f =>
      match s with
      | [] => derr "Expecting value"
      | c :: r =>
          if c =? 34 then let! p := scan_string r in Ok (JStr p.1, p.2)
          else if c =? 123 then
            match skip_ws r with
            | x :: r' =>
                if x =? 125 then let! o := object_pairs_hook [] in Ok (o, r')
                else let! p := scan_members f (x :: r') in
                     let! o := object_pairs_hook p.1 in Ok (o, p.2)
            | [] => derr "Expecting property name enclosed in double quotes"
            end
          else if c =? 91 then
            match skip_ws r with
            | x :: r' =>
                if x =? 93 then Ok (JArr [], r')
                else let! p := scan_items f (x :: r') in Ok (JArr p.1, p.2)
            | [] => derr "Expecting value"
            end
          else if c =? 110 then scan_word (u"null") (Ok JNull) s
          else if c =? 116 then scan_word (u"true") (Ok (JBool true)) s
          else if c =? 102 then scan_word (u"false") (Ok (JBool false)) s
          else if c =? 78 then scan_word (u"NaN") (parse_constant (u"NaN")) s
          else if c =? 73 then scan_word (u"Infinity") (parse_constant (u"Infinity")) s
          else if c =? 45 then
            if starts_with (u"Infinity") r
            then let! x := parse_constant (u"-Infinity") in Ok (x, drop 8 r)
            else scan_number true r
          else scan_number false s
      end
  end
(* The elements of an array up to its closing bracket. *)
with scan_items (fuel : nat) (s : pystr) : res (list json * pystr) :=
  match fuel with
  | O => out_of_fuel
  | S f =>
      let! p := scan_value f s in
      match skip_ws p.2 with
      | c :: r =>
          if c =? 93 then Ok ([p.1], r)
          else if c =? 44 then
            let! q := scan_items f (skip_ws r) in Ok (p.1 :: q.1, q.2)
          else derr "Expecting ',' delimiter"
      | [] => derr "Expecting ',' delimiter"
      end
  end
(* The members of an object up to its closing brace. *)
with scan_members (fuel : nat) (s : pystr) : res (list (pystr * json) * pystr) :=
  match fuel with
  | O => out_of_fuel
  | S f =>
      match s with
      | q :: s1 =>
          if q =? 34 then
            let! k := scan_string s1 in
            match skip_ws k.2 with
            | d :: s2 =>
                if d =? 58 then
                  let! p := scan_value f (skip_ws s2) in
                  match skip_ws p.2 with
                  | c :: r =>
                      if c =? 125 then Ok ([(k.1, p.1)], r)
                      else if c =? 44 then
                        let! m := scan_members f (skip_ws r) in
                        Ok ((k.1, p.1) :: m.1, m.2)
                      else derr "Expecting ',' delimiter"
                  | [] => derr "Expecting ',' delimiter"
                  end
                else derr "Expecting ':' delimiter"
            | [] => derr "Expecting ':' delimiter"
            end
          else derr "Expecting property name enclosed in double quotes"
      | [] => derr "Expecting property name enclosed in double quotes"
      end
  end.

(** Two steps of recursion per character are enough: see
    [scan_fuel_enough]. *)
Definition scan_fuel (s : pystr) : nat := S (2 * length s).

Definition loads (s : pystr) : res json :=
  check! guard (negb (starts_with [65279] s)) JSONDecodeError "Unexpected UTF-8 BOM" in
  let s := skip_ws s in
  let! p := scan_value (scan_fuel s) s in
  match skip_ws p.2 with
  | [] => Ok p.1
  | _ :: _ => derr "Extra data"
  end.
End Loads.

(** [dict(pairs)], the default for objects: a repeated key keeps its first
    position and its last value. *)
Definition dict_of_pairs (l : list (pystr * json)) : res json :=
  Ok (JObj (fold_left (fun d kv => dict_set kv.1 kv.2 d) l [])).

(** ** What printing and parsing preserve *)

(** Values [json.dumps] prints so that [json.loads] reads them back: no
    [float], integers within the digit limit, strings of code points (without
    surrogates when they are escaped), and distinct keys in every object. *)
Definition str_ok (ensure_ascii : bool) (s : pystr) : bool :=
  forallb (fun c => if ensure_ascii then is_scalar c else 0 <=? c) s.

Fixpoint json_ok (a : bool) (v : json) : bool :=
  match v with
  | JNull | JBool _ => true
  | JInt z => zlen (nat_repr (Z.abs z)) <=? INT_MAX_STR_DIGITS
  | JFloat _ => false
  | JStr s => str_ok a s
  | JArr l => forallb (json_ok a) l
  | JObj l => bool_decide (NoDup (dict_keys l))
              && forallb (fun kv => str_ok a kv.1 && json_ok a kv.2) l
  end.

(** Every object with its keys in order: the value [sort_keys] prints. *)
Fixpoint sort_json (v : json) : json :=
  match v with
  | JArr l => JArr (map sort_json l)
  | JObj l => JObj (sort_items (map (fun kv => (kv.1, sort_json kv.2)) l))
  | _ => v
  end.

(** ** Lemmas on strings *)

Lemma hex_value_digit d : 0 <= d < 16 → hex_value (hex_digit d) = Some d.
Proof.
  intros H. unfold hex_value, hex_digit, is_digit. destruct (d <? 10) eqn:E; breflect.
  - rewrite !(proj2 (Z.leb_le _ _)) by lia. cbn. f_equal. lia.
  - rewrite (proj2 (Z.leb_gt (87 + d) 57)) by lia. rewrite andb_false_r.
    rewrite !(proj2 (Z.leb_le _ _)) by lia. cbn. f_equal. lia.
Qed.

Lemma u4_value_escape n : 0 <= n < 65536 →
  u4_value (hex_digit (n / 4096 mod 16)) (hex_digit (n / 256 mod 16))
           (hex_digit (n / 16 mod 16)) (hex_digit (n mod 16)) = Some n.
Proof.
  intros H. unfold u4_value. rewrite !hex_value_digit by zdm. cbn. f_equal. zdm.
Qed.

Lemma scan_string_u n r : 0 <= n < 65536 → is_high n = false →
  scan_string (u_escape n ++ r) = push n (scan_string r).
Proof.
  intros Hn Hh. unfold u_escape. cbn [app scan_string].
  rewrite u4_value_escape by done. rewrite Hh. cbn [andb Z.eqb Pos.eqb].
  by repeat case_match.
Qed.

Lemma scan_string_pair c r : 65536 <= c <= 1114111 →
  scan_string (u_escape (55296 + (c - 65536) / 1024)
               ++ u_escape (56320 + (c - 65536) mod 1024) ++ r) = push c (scan_string r).
Proof.
  intros Hc. set (hi := 55296 + _). set (lo := 56320 + _).
  assert (is_high hi = true) as Hh by (unfold is_high, hi; rewrite andb_true_iff, !Z.leb_le; zdm).
  assert (is_low lo = true) as Hlo by (unfold is_low, lo; rewrite andb_true_iff, !Z.leb_le; zdm).
  unfold u_escape at 1 2. cbn [app scan_string].
  rewrite !u4_value_escape by (unfold hi, lo; zdm).
  rewrite Hh, Hlo. cbn [andb Z.eqb Pos.eqb].
  f_equal. unfold hi, lo. zdm.
Qed.

Lemma scan_string_raw c r : c ≠ 34 → c ≠ 92 → 32 <= c →
  scan_string (c :: r) = push c (scan_string r).
Proof.
  intros. cbn [scan_string]. rewrite !(proj2 (Z.eqb_neq c _)) by done.
  by rewrite (proj2 (Z.ltb_ge c 32)).
Qed.

Lemma scan_string_esc a c r : str_ok a [c] = true →
  scan_string (esc_char a c ++ r) = push c (scan_string r).
Proof.
  unfold str_ok. cbn [forallb]. rewrite andb_true_r. intros Hc.
  assert (H0 : 0 <= c) by (destruct a; unfold is_scalar in Hc; breflect; lia).
  unfold esc_char.
  do 7 match goal with
  | |- context [if c =? ?k then _ else _] =>
      destruct (c =? k) eqn:?; breflect; [subst c; done|]
  end.
  destruct (c <? 32) eqn:E; breflect.
  { apply scan_string_u; [lia|]. unfold is_high. by rewrite (proj2 (Z.leb_gt _ _)) by lia. }
  destruct (a && (126 <? c)) eqn:Ea; [|by apply scan_string_raw].
  breflect. subst a. unfold is_scalar in Hc. breflect.
  destruct (c <? 65536) eqn:Eb; breflect.
  - apply scan_string_u; [lia|].
    match goal with H : is_surrogate c = false |- _ =>
      unfold is_surrogate in H; apply andb_false_iff in H as [H|H] end;
      breflect; unfold is_high; apply andb_false_iff; rewrite !Z.leb_gt; lia.
  - rewrite <- app_assoc. apply scan_string_pair. lia.
Qed.

(** A printed string scans back to itself. *)
Lemma scan_string_dump a s r : str_ok a s = true →
  scan_string (esc_str a s ++ 34 :: r) = Ok (s, r).
Proof.
  induction s as [|c s IH]; intros Hs; [done|].
  assert (Hc : str_ok a [c] = true ∧ str_ok a s = true).
  { unfold str_ok in *. cbn [forallb] in *. breflect. by rewrite H, H0. }
  destruct Hc as [Hc Hs']. cbn [esc_str flat_map]. rewrite <- app_assoc, scan_string_esc by done.
  fold (esc_str a s). by rewrite IH.
Qed.

(** ** Lemmas on numbers *)

(** What may follow a value inside printed JSON or at the end of a line. *)
Definition stops (r : pystr) : Prop :=
  match r with [] => True | c :: _ => c = 44 ∨ c = 93 ∨ c = 125 ∨ c = 10 end.

Lemma span_digits_app d r :
  Forall (fun c => is_digit c = true) d → stops r → span_digits (d ++ r) = (d, r).
Proof.
  intros Hd Hr. induction Hd as [|c d Hc Hd IH]; cbn [app span_digits].
  - destruct r as [|c r]; [done|]. cbn [span_digits]. cbn in Hr.
    by destruct Hr as [-> | [-> | [-> | ->]]].
  - by rewrite Hc, IH.
Qed.

Lemma scan_number_repr pf neg n r : 0 <= n → zlen (nat_repr n) <= INT_MAX_STR_DIGITS → stops r →
  scan_number pf neg (nat_repr n ++ r) = Ok (JInt (if neg then - n else n), r).
Proof.
  intros Hn Hl Hr.
  assert (Hfrac : scan_frac r = ([], r)) by (destruct r as [|c r]; [done|];
    cbn in Hr |- *; by destruct Hr as [-> | [-> | [-> | ->]]]).
  assert (Hexp : scan_exp r = ([], r)) by (destruct r as [|c r]; [done|];
    cbn in Hr |- *; by destruct Hr as [-> | [-> | [-> | ->]]]).
  pose proof (nat_repr_digit n Hn) as Hd. pose proof (nat_repr_value n Hn) as Hv.
  pose proof (span_digits_app _ r Hd Hr) as Hsp.
  destruct (nat_repr_head n Hn) as [E | (d & t & E & Hdt)]; rewrite E in *.
  - cbn -[dec_value]. rewrite Hfrac, Hexp. cbn -[dec_value]. by rewrite Hv.
  - unfold scan_number. cbn [app] in *. rewrite Hsp.
    apply Forall_cons in Hd as [Hdig _]. rewrite Hdig.
    rewrite (proj2 (Z.eqb_neq d 48)) by lia. rewrite Hfrac, Hexp. cbn [bool_decide].
    rewrite !bool_decide_eq_true_2 by done. cbn [andb].
    rewrite (proj2 (Z.leb_le _ _)) by done. cbn [guard res_bind]. by rewrite Hv.
Qed.

(** ** Lemmas on values *)

(** The recursion depth [scan_value] needs on a printed value. *)
Definition need_list (ns : list nat) : nat := foldr (fun n a => S (max n a)) O ns.
Fixpoint need (v : json) : nat :=
  match v with
  | JArr l => S (need_list (map need l))
  | JObj l => S (need_list (map (fun kv => need kv.2) l))
  | _ => 1
  end.

Lemma join_with_cons sep x y l :
  join_with sep (x :: y :: l) = x ++ sep :: join_with sep (y :: l).
Proof. done. Qed.

Lemma join_with_length sep l :
  (foldr (fun x a => S (length x) + a) 0 l <= S (length (join_with sep l)))%nat.
Proof.
  induction l as [|x [|y l] IH]; [cbn; lia|cbn; lia|].
  rewrite join_with_cons, length_app. cbn [foldr length] in *. lia.
Qed.

Lemma need_list_bound ns (ls : list pystr) :
  Forall2 (fun n p => (n <= 2 * length p)%nat) ns ls →
  (need_list ns <= 2 * foldr (fun x a => S (length x) + a) 0 ls)%nat.
Proof. induction 1 as [|n p ns ls H Hs IH]; cbn [need_list foldr] in *; [lia|]. fold (need_list ns). lia. Qed.

Definition print_member (a : bool) (kv : pystr * json) : pystr :=
  dump_str a kv.1 ++ 58 :: dumps a false kv.2.

Lemma dumps_obj a l :
  dumps a false (JObj l) = 123 :: join_with 44 (map (print_member a) l) ++ [125].
Proof. cbn [dumps]. by rewrite map_map. Qed.

Lemma need_bound a v : json_ok a v = true → (need v <= 2 * length (dumps a false v))%nat.
Proof.
  induction v as [|b|z|r|s|l IH|l IH] using json_ind; intros Hok;
    cbn [json_ok] in Hok; cbn [need]; try rewrite dumps_obj; try cbn [dumps].
  - cbn; lia.
  - destruct b; cbn; lia.
  - assert (0 < length (int_repr z))%nat; [|lia].
    unfold int_repr. case_match; [cbn [length]; lia|]. breflect.
    destruct (nat_repr_head z) as [-> | (d & t & -> & _)]; cbn [length]; lia.
  - done.
  - cbn. lia.
  - cbn [length]. rewrite length_app.
    pose proof (join_with_length 44 (map (dumps a false) l)).
    assert (need_list (map need l)
            <= 2 * foldr (fun x a => S (length x) + a) 0 (map (dumps a false) l))%nat; [|cbn; lia].
    apply need_list_bound. rewrite Forall2_fmap. apply Forall_Forall2_diag.
    apply forallb_Forall in Hok. eapply Forall_and_impl; [exact IH|exact Hok|]. cbn. auto.
  - breflect.
    cbn [length]. rewrite length_app.
    pose proof (join_with_length 44 (map (print_member a) l)).
    assert (need_list (map (fun kv => need kv.2) l)
            <= 2 * foldr (fun x a => S (length x) + a) 0 (map (print_member a) l))%nat; [|cbn; lia].
    apply need_list_bound. rewrite Forall2_fmap. apply Forall_Forall2_diag.
    apply forallb_Forall in H0. eapply Forall_and_impl; [exact IH|exact H0|].
    cbn beta. intros kv Hkv Hkv'. breflect. unfold print_member. rewrite length_app. cbn [length].
    lapply Hkv; [lia|done].
Qed.

Lemma dumps_head a v : json_ok a v = true →
  ∃ c r, dumps a false v = c :: r ∧ is_ws c = false ∧ c ≠ 93 ∧ c ≠ 125 ∧ c ≠ 65279.
Proof.
  destruct v as [|b|z|f|s|l|l]; cbn [json_ok]; intros Hok; try done;
    try (eexists _, _; by split_and!).
  - destruct b; eexists _, _; by split_and!.
  - cbn [dumps]. unfold int_repr. case_match; [eexists _, _; by split_and!|]. breflect.
    destruct (nat_repr_head z) as [-> | (d & t & -> & Hd)]; [done|eexists _, _; by split_and!|].
    eexists _, _. split_and!; [done| |lia..].
    unfold is_ws. by rewrite !(proj2 (Z.eqb_neq _ _)) by lia.
Qed.

Lemma skip_ws_id c r : is_ws c = false → skip_ws (c :: r) = c :: r.
Proof. intros H. cbn [skip_ws]. by rewrite H. Qed.

Section RoundTrip.
Context (parse_float parse_constant : pystr → res json).
Context (hook : list (pystr * json) → res json).
Context (a : bool).
Hypothesis hook_nodup : ∀ l, NoDup (dict_keys l) → hook l = Ok (JObj l).
Let sv := scan_value parse_float parse_constant hook.
Let si := scan_items parse_float parse_constant hook.
Let sm := scan_members parse_float parse_constant hook.

Definition scans (v : json) : Prop :=
  ∀ f r, (need v <= f)%nat → stops r → sv f (dumps a false v ++ r) = Ok (v, r).

Lemma scan_items_dump l f r :
  l ≠ [] → Forall (fun v => json_ok a v = true) l → Forall scans l →
  (need_list (map need l) <= f)%nat →
  si f (join_with 44 (map (dumps a false) l) ++ 93 :: r) = Ok (l, r).
Proof.
  revert f. induction l as [|v l IH]; intros f Hl Hok Hs Hf; [done|].
  apply Forall_cons in Hok as [Hv Hok]. apply Forall_cons in Hs as [Hsv Hs].
  cbn [map need_list foldr] in Hf. destruct f as [|f]; [lia|]. fold (need_list (map need l)) in Hf.
  destruct l as [|w l].
  - cbn [map join_with]. unfold si. cbn [scan_items]. fold sv.
    rewrite Hsv by (lia || cbn; auto). done.
  - cbn [map]. rewrite join_with_cons, <- app_assoc. unfold si. cbn [scan_items]. fold sv.
    rewrite Hsv by (lia || cbn; auto). cbn [res_bind snd fst app skip_ws is_ws orb Z.eqb Pos.eqb]. fold si.
    destruct (dumps_head a w) as (c & t & Hc & Hw & _); [by apply Forall_cons in Hok as [? _]|].
    assert (Hskip : ∀ z, skip_ws (join_with 44 (dumps a false w :: z) ++ 93 :: r)
                       = join_with 44 (dumps a false w :: z) ++ 93 :: r).
    { intros [|? z]; cbn [join_with]; rewrite Hc; by apply skip_ws_id. }
    rewrite Hskip. change (dumps a false w :: map (dumps a false) l) with (map (dumps a false) (w :: l)).
    rewrite IH by (done || lia). done.
Qed.

Lemma scan_members_dump l f r :
  l ≠ [] → Forall (fun kv => str_ok a kv.1 && json_ok a kv.2 = true) l →
  Forall (fun kv => scans kv.2) l →
  (need_list (map (fun kv => need kv.2) l) <= f)%nat →
  sm f (join_with 44 (map (print_member a) l) ++ 125 :: r) = Ok (l, r).
Proof.
  revert f. induction l as [|[k v] l IH]; intros f Hl Hok Hs Hf; [done|].
  apply Forall_cons in Hok as [Hv Hok]. apply Forall_cons in Hs as [Hsv Hs].
  cbn [fst snd] in *. breflect. rename H into Hk, H0 into Hjv.
  cbn [map need_list foldr snd] in Hf. destruct f as [|f]; [lia|].
  fold (need_list (map (fun kv => need kv.2) l)) in Hf.
  assert (Hone : ∀ rest, stops rest → skip_ws rest = rest →
    sm (S f) (print_member a (k, v) ++ rest) =
    match rest with
    | c :: r' => if c =? 125 then Ok ([(k, v)], r')
                 else if c =? 44 then let! m := sm f (skip_ws r') in Ok ((k, v) :: m.1, m.2)
                 else derr "Expecting ',' delimiter"
    | [] => derr "Expecting ',' delimiter"
    end).
  { intros rest Hrest Hws. unfold print_member, dump_str, sm. cbn [fst snd app scan_members].
    rewrite <- !app_assoc. cbn [app Z.eqb Pos.eqb]. rewrite scan_string_dump by done.
    cbn [res_bind fst snd skip_ws is_ws orb Z.eqb Pos.eqb app].
    destruct (dumps_head a v Hjv) as (c & t & Hc & Hw & _).
    rewrite Hc. cbn [app]. rewrite skip_ws_id by done. rewrite app_comm_cons, <- Hc.
    fold sv. rewrite Hsv by (lia || done). cbn [res_bind fst snd].
    by rewrite Hws. }
  destruct l as [|w l].
  - cbn [map join_with]. by rewrite Hone by (cbn; auto).
  - cbn [map]. rewrite join_with_cons, <- app_assoc.
    rewrite Hone by (cbn; auto). cbn [app Z.eqb Pos.eqb].
    assert (Hskip : ∀ z, skip_ws (join_with 44 (print_member a w :: z) ++ 125 :: r)
                       = join_with 44 (print_member a w :: z) ++ 125 :: r) by (intros [|? z]; done).
    rewrite Hskip. change (print_member a w :: map (print_member a) l) with (map (print_member a) (w :: l)).
    rewrite IH by (done || lia). done.
Qed.

(** Scanning undoes printing, whatever legally follows. *)
Lemma scan_value_dump v : json_ok a v = true → scans v.
Proof.
  induction v as [|b|z|fl|s|l IH|l IH] using json_ind; intros Hok f r Hf Hr;
    cbn [json_ok] in Hok; destruct f as [|f]; try (cbn [need] in Hf; lia); try done.
  - by destruct b.
  - cbn [dumps]. unfold int_repr. breflect. destruct (z <? 0) eqn:Ez; breflect.
    + cbn [app]. unfold sv. cbn [scan_value Z.eqb Pos.eqb].
      destruct (nat_repr_head (- z)) as [E | (d & t & E & Hd)]; [lia|..]; rewrite E.
      * assert (z = 0); [|lia]. enough (- z = 0) by lia.
        rewrite <- (nat_repr_value (- z)) by lia. by rewrite E.
      * replace (starts_with (u "Infinity") ((d :: t) ++ r)) with false.
        2: { change (u "Infinity") with (73 :: u "nfinity"). cbn [app starts_with].
             by rewrite (proj2 (Z.eqb_neq 73 d)) by lia. }
        rewrite <- E. rewrite scan_number_repr; [do 3 f_equal; lia|lia| |done].
        by replace (- z) with (Z.abs z) by lia.
    + replace (Z.abs z) with z in Hok by lia.
      pose proof (scan_number_repr parse_float false z r Ez Hok Hr) as Hs.
      destruct (nat_repr_head z Ez) as [E | (d & t & E & Hd)]; rewrite E in *; cbn [app] in *;
        unfold sv; cbn [scan_value]; [exact Hs|].
      rewrite !(proj2 (Z.eqb_neq d _)) by lia. exact Hs.
  - unfold sv. cbn [dumps dump_str app scan_value Z.eqb Pos.eqb].
    rewrite <- app_assoc. cbn [app]. by rewrite scan_string_dump.
  - cbn [need] in Hf. apply forallb_Forall in Hok. unfold sv. cbn [dumps app scan_value Z.eqb Pos.eqb].
    rewrite <- app_assoc. cbn [app]. destruct l as [|v l]; [done|].
    assert (Hs : Forall scans (v :: l)) by (eapply Forall_and_impl; [exact IH|exact Hok|]; cbn beta; auto).
    pose proof (scan_items_dump (v :: l) f r ltac:(done) Hok Hs ltac:(lia)) as Hsi.
    destruct (dumps_head a v) as (c & t & Hc & Hw & H93 & _); [by apply Forall_cons in Hok as [? _]|].
    assert (∃ x, join_with 44 (map (dumps a false) (v :: l)) ++ 93 :: r = c :: x) as [x Ex].
    { destruct l; cbn [map join_with]; rewrite Hc; by eexists. }
    rewrite Ex in *. rewrite skip_ws_id by done. rewrite (proj2 (Z.eqb_neq c 93)) by done.
    fold (scan_items parse_float parse_constant hook). fold si. by rewrite Hsi.
  - cbn [need] in Hf. breflect. apply forallb_Forall in H0. rewrite dumps_obj. unfold sv.
    cbn [app scan_value Z.eqb Pos.eqb]. rewrite <- app_assoc. cbn [app].
    destruct l as [|kv l].
    { cbn. by rewrite hook_nodup by constructor. }
    assert (Hs : Forall (fun kv => scans kv.2) (kv :: l)).
    { eapply Forall_and_impl; [exact IH|exact H0|]. cbn. intros x Hx Hx'. breflect. auto. }
    pose proof (scan_members_dump (kv :: l) f r ltac:(done) H0 Hs ltac:(lia)) as Hsm.
    assert (∃ x, join_with 44 (map (print_member a) (kv :: l)) ++ 125 :: r = 34 :: x) as [x Ex].
    { destruct l; cbn [map join_with]; by eexists. }
    rewrite Ex in *. cbn [skip_ws is_ws orb Z.eqb Pos.eqb].
    fold (scan_members parse_float parse_constant hook). fold sm. rewrite Hsm.
    cbn [res_bind fst snd]. by rewrite hook_nodup.
Qed.

Lemma loads_dumps_line v t : json_ok a v = true → t = [] ∨ t = [10] →
  loads parse_float parse_constant hook (dumps a false v ++ t) = Ok v.
Proof.
  intros Hok Ht. pose proof (scan_value_dump v Hok (scan_fuel (dumps a false v ++ t)) t) as Hs.
  unfold loads. destruct (dumps_head a v Hok) as (c & r & Hc & Hw & _ & _ & Hbom).
  assert (starts_with [65279] (dumps a false v ++ t) = false) as ->.
  { rewrite Hc. cbn [starts_with app]. by rewrite (proj2 (Z.eqb_neq _ c)). }
  cbn [negb guard res_bind].
  assert (skip_ws (dumps a false v ++ t) = dumps a false v ++ t) as ->
    by (rewrite Hc; by apply skip_ws_id).
  fold sv. rewrite Hs; [by destruct Ht as [-> | ->]| |destruct Ht as [-> | ->]; cbn; auto].
  pose proof (need_bound a v Hok). unfold scan_fuel. rewrite length_app. lia.
Qed.

Lemma loads_dumps v : json_ok a v = true →
  loads parse_float parse_constant hook (dumps a false v) = Ok v.
Proof. intros Hok. rewrite <- (app_nil_r (dumps a false v)). apply loads_dumps_line; auto. Qed.
End RoundTrip.

(** ** Sorted keys *)

Lemma insert_item_map {A B} (f : A → B) (kv : pystr * A) l :
  insert_item (kv.1, f kv.2) (map (fun x => (x.1, f x.2)) l)
  = map (fun x => (x.1, f x.2)) (insert_item kv l).
Proof.
  induction l as [|x l IH]; cbn [insert_item map fst]; [done|].
  destruct (str_ltb x.1 kv.1); cbn [map]; [by rewrite IH|done].
Qed.

Lemma sort_items_map {A B} (f : A → B) l :
  sort_items (map (fun x => (x.1, f x.2)) l) = map (fun x => (x.1, f x.2)) (sort_items l).
Proof.
  induction l as [|x l IH]; [done|]. unfold sort_items in *. cbn [map foldr].
  by rewrite IH, (insert_item_map f x).
Qed.

Lemma insert_item_perm {A} (kv : pystr * A) l : insert_item kv l ≡ₚ kv :: l.
Proof.
  induction l as [|x l IH]; cbn [insert_item]; [done|].
  destruct (str_ltb x.1 kv.1); [|done]. rewrite IH. constructor.
Qed.

Lemma sort_items_perm {A} (l : list (pystr * A)) : sort_items l ≡ₚ l.
Proof.
  induction l as [|x l IH]; [done|]. unfold sort_items in *. cbn [foldr].
  by rewrite insert_item_perm, IH.
Qed.

(** The order [sort_keys] establishes. *)
Definition key_le {A} (x y : pystr * A) : Prop := str_ltb y.1 x.1 = false.

Lemma key_le_trans {A} (x y z : pystr * A) : key_le x y → key_le y z → key_le x z.
Proof.
  unfold key_le. intros H1 H2. destruct (str_ltb z.1 x.1) eqn:E; [|done].
  destruct (str_ltb_total x.1 y.1) as [H|[H|H]].
  - by rewrite (str_ltb_trans _ _ _ E H) in H2.
  - rewrite <- H in H2. congruence.
  - congruence.
Qed.

Lemma insert_item_sorted {A} (kv : pystr * A) l :
  StronglySorted key_le l → StronglySorted key_le (insert_item kv l).
Proof.
  induction 1 as [|x l Hs IH Hx]; cbn [insert_item]; [by repeat constructor|].
  destruct (str_ltb x.1 kv.1) eqn:E.
  - constructor; [done|]. rewrite insert_item_perm. constructor; [|done].
    unfold key_le. destruct (str_ltb kv.1 x.1) eqn:E2; [|done].
    pose proof (str_ltb_trans _ _ _ E E2) as H. by rewrite str_ltb_irrefl in H.
  - constructor; [by constructor|]. constructor; [done|].
    eapply Forall_impl; [exact Hx|]. intros y Hy. by apply key_le_trans with x.
Qed.

Lemma sort_items_sorted {A} (l : list (pystr * A)) : StronglySorted key_le (sort_items l).
Proof.
  induction l as [|x l IH]; [constructor|]. by apply insert_item_sorted.
Qed.

Lemma sort_items_id {A} (l : list (pystr * A)) : StronglySorted key_le l → sort_items l = l.
Proof.
  induction 1 as [|x l Hs IH Hx]; [done|]. unfold sort_items in *. cbn [foldr]. rewrite IH.
  destruct l as [|y l]; [done|]. cbn [insert_item].
  apply Forall_cons in Hx as [Hx _]. unfold key_le in Hx. by rewrite Hx.
Qed.

Lemma sort_items_keys {A} (f : json → A) (l : list (pystr * json)) :
  map fst (sort_items (map (fun kv => (kv.1, f kv.2)) l)) ≡ₚ dict_keys l.
Proof. rewrite sort_items_perm, map_map. done. Qed.

(** Printing with [sort_keys] is printing the sorted value. *)
Lemma dumps_sorted a v : dumps a true v = dumps a false (sort_json v).
Proof.
  induction v as [|b|z|r|s|l IH|l IH] using json_ind; try done; cbn [dumps sort_json].
  - rewrite map_map. do 3 f_equal. apply map_ext_Forall. exact IH.
  - f_equal. f_equal. f_equal. rewrite !sort_items_map, !map_map. cbn [fst snd].
    apply map_ext_Forall. rewrite sort_items_perm. eapply Forall_impl; [exact IH|].
    cbn beta. intros kv ->. done.
Qed.

Lemma sort_json_ok a v : json_ok a v = true → json_ok a (sort_json v) = true.
Proof.
  induction v as [|b|z|r|s|l IH|l IH] using json_ind; try done; cbn [json_ok sort_json]; intros H.
  - apply forallb_Forall in H. apply forallb_Forall, Forall_fmap.
    eapply Forall_and_impl; [exact IH|exact H|]. auto.
  - breflect. apply andb_true_iff. split.
    + apply bool_decide_eq_true. unfold dict_keys in *. by rewrite sort_items_keys.
    + apply forallb_Forall in H0. apply forallb_Forall. rewrite sort_items_perm. apply Forall_fmap.
      eapply Forall_and_impl; [exact IH|exact H0|]. cbn. intros kv Hkv Hok. breflect.
      apply andb_true_iff. auto.
Qed.

Lemma sort_json_idem v : sort_json (sort_json v) = sort_json v.
Proof.
  induction v as [|b|z|r|s|l IH|l IH] using json_ind; try done; cbn [sort_json].
  - f_equal. rewrite map_map. apply map_ext_Forall. exact IH.
  - f_equal. rewrite !sort_items_map, map_map. cbn [fst snd].
    rewrite (sort_items_id (sort_items l)) by apply sort_items_sorted.
    apply map_ext_Forall. rewrite sort_items_perm. eapply Forall_impl; [exact IH|].
    cbn beta. intros kv ->. done.
Qed.

(** ** The scanner consumes its input, so its fuel is enough *)

Lemma push_ok c r p : push c r = Ok p → ∃ q, r = Ok q ∧ p.2 = q.2.
Proof. unfold push. intros H. inv_ok. eauto. Qed.

Lemma scan_string_shorter n s p :
  (length s <= n)%nat → scan_string s = Ok p → (length p.2 < length s)%nat.
Proof.
  revert s p. induction n as [|n IH]; intros s p Hn H.
  { destruct s; [done|cbn in Hn; lia]. }
  assert (Hrec : ∀ c t, (length t < length s)%nat → push c (scan_string t) = Ok p →
                        (length p.2 < length s)%nat).
  { intros c t Ht Hp. apply push_ok in Hp as (q & Hq & ->). apply IH in Hq; lia. }
  destruct s as [|c r]; [done|]. cbn [scan_string] in H.
  repeat case_match; try discriminate; inv_ok; subst; cbn [snd length] in *; try lia;
    eapply Hrec; try eassumption; cbn [length]; lia.
Qed.

Lemma skip_ws_shorter s : (length (skip_ws s) <= length s)%nat.
Proof. induction s as [|c s IH]; cbn [skip_ws]; [done|]. case_match; cbn [length]; lia. Qed.

Lemma span_digits_shorter s : (length (span_digits s).2 <= length s)%nat.
Proof.
  induction s as [|c s IH]; cbn [span_digits]; [done|]. case_match; [|done].
  destruct (span_digits s). cbn in *. lia.
Qed.

Lemma scan_frac_shorter s : (length (scan_frac s).2 <= length s)%nat.
Proof.
  unfold scan_frac. destruct s as [|c r]; [done|]. case_match; [|done].
  pose proof (span_digits_shorter r). destruct (span_digits r). case_match; cbn in *; lia.
Qed.

Lemma scan_exp_shorter s : (length (scan_exp s).2 <= length s)%nat.
Proof.
  unfold scan_exp. destruct s as [|c r]; [done|]. case_match; [|done].
  destruct (match r with x :: r' => if (x =? 43) || (x =? 45) then ([x], r') else ([], r)
            | [] => ([], r) end) as [sg r1] eqn:E.
  assert (length r1 <= length r)%nat.
  { destruct r as [|x r']; [by simplify_eq/=|].
    destruct ((x =? 43) || (x =? 45)); simplify_eq/=; lia. }
  clear E. pose proof (span_digits_shorter r1). destruct (span_digits r1). case_match; cbn in *; lia.
Qed.

Section Fuel.
Context (parse_float parse_constant : pystr → res json).
Context (hook : list (pystr * json) → res json).
Let sv := scan_value parse_float parse_constant hook.
Let si := scan_items parse_float parse_constant hook.
Let sm := scan_members parse_float parse_constant hook.

Lemma scan_number_shorter neg s p :
  scan_number parse_float neg s = Ok p → (length p.2 < length s)%nat.
Proof.
  unfold scan_number. destruct s as [|d r]; [done|]. destruct (is_digit d) eqn:Hd; [|done].
  destruct (if d =? 48 then ([48], r) else span_digits (d :: r)) as [ip r1] eqn:E1.
  assert (length r1 < length (d :: r))%nat.
  { destruct (d =? 48); [simplify_eq/=; lia|]. cbn [span_digits] in E1. rewrite Hd in E1.
    pose proof (span_digits_shorter r). destruct (span_digits r). simplify_eq/=. lia. }
  pose proof (scan_frac_shorter r1). destruct (scan_frac r1) as [fp r2].
  pose proof (scan_exp_shorter r2). destruct (scan_exp r2) as [ep r3]. cbn [snd] in *.
  clear E1. destruct (_ && _); intros Hp; inv_ok; cbn [snd]; lia.
Qed.

Lemma starts_with_length w s : starts_with w s = true → (length w <= length s)%nat.
Proof.
  revert s. induction w as [|x w IH]; intros [|y s]; cbn [starts_with length]; intros H; try lia; try done.
  breflect. apply IH in H0. lia.
Qed.

Lemma scan_word_shorter w v s p :
  w ≠ [] → scan_word w v s = Ok p → (length p.2 < length s)%nat.
Proof.
  unfold scan_word. destruct (starts_with w s) eqn:E; [|done]. intros Hw H. inv_ok. cbn [snd].
  apply starts_with_length in E. rewrite length_drop. destruct w; [done|]. cbn in *. lia.
Qed.

Lemma scan_shorter f :
  (∀ s p, sv f s = Ok p → (length p.2 < length s)%nat) ∧
  (∀ s p, si f s = Ok p → (length p.2 < length s)%nat) ∧
  (∀ s p, sm f s = Ok p → (length p.2 < length s)%nat).
Proof.
  induction f as [|f (IHv & IHi & IHm)]; [done|]. split_and!.
  - intros s p H. unfold sv in H. destruct s as [|c r]; [done|].
    cbn [scan_value] in H.
    fold (scan_items parse_float parse_constant hook) (scan_members parse_float parse_constant hook) in H.
    fold si sm in H. pose proof (skip_ws_shorter r) as Hw.
    repeat case_match; try discriminate;
      try (apply scan_word_shorter in H; [exact H|done]);
      try (apply scan_number_shorter in H; cbn [length] in *; lia);
      inv_ok; cbn [snd length] in *; try lia.
    all: repeat match goal with
      | H : scan_string ?x = Ok _ |- _ => apply (scan_string_shorter (length x)) in H; [|done]
      | H : sm _ _ = Ok _ |- _ => apply IHm in H; cbn [length] in H
      | H : si _ _ = Ok _ |- _ => apply IHi in H; cbn [length] in H
      | H : starts_with _ _ = true |- _ => apply starts_with_length in H
      end; rewrite ?length_drop; lia.
  - intros s p H. unfold si in H. cbn [scan_items] in H. fold sv si in H. inv_ok.
    apply IHv in E. pose proof (skip_ws_shorter a.2).
    destruct (skip_ws a.2) as [|c r]; [done|]. cbn [length] in *.
    repeat case_match; try discriminate; inv_ok; cbn [snd]; [lia|].
    apply IHi in E0. pose proof (skip_ws_shorter r). lia.
  - intros s p H. unfold sm in H. destruct s as [|q s1]; [done|]. cbn [scan_members] in H. fold sv sm in H.
    case_match; [|done]. inv_ok. apply (scan_string_shorter (length s1)) in E; [|done].
    pose proof (skip_ws_shorter a.2). destruct (skip_ws a.2) as [|d s2]; [done|]. cbn [length] in *.
    case_match; [|done]. inv_ok. apply IHv in E0.
    pose proof (skip_ws_shorter s2). pose proof (skip_ws_shorter a0.2).
    destruct (skip_ws a0.2) as [|c r]; [done|]. cbn [length] in *.
    repeat case_match; try discriminate; inv_ok; cbn [snd]; [lia|].
    apply IHm in E1. pose proof (skip_ws_shorter r). lia.
Qed.

Lemma res_bind_ext {A B} (m m' : res A) (k k' : A → res B) :
  m = m' → (∀ x, m' = Ok x → k x = k' x) → res_bind m k = res_bind m' k'.
Proof. intros -> H. destruct m'; cbn; auto. Qed.

(** Any fuel above twice the length of the text gives the same answer. *)
Lemma scan_fuel_mono f : ∀ g,
  (∀ s, (S (2 * length s) <= f)%nat → (f <= g)%nat → sv f s = sv g s) ∧
  (∀ s, (S (S (2 * length s)) <= f)%nat → (f <= g)%nat → si f s = si g s) ∧
  (∀ s, (S (S (2 * length s)) <= f)%nat → (f <= g)%nat → sm f s = sm g s).
Proof.
  induction f as [|f IH]; [intros g; split_and!; intros; lia|].
  intros [|g]; [split_and!; intros; lia|]. destruct (IH g) as (IHv & IHi & IHm).
  split_and!; intros s Hs Hg.
  - unfold sv. destruct s as [|c r]; [done|]. cbn [scan_value].
    fold (scan_items parse_float parse_constant hook) (scan_members parse_float parse_constant hook).
    fold si sm. cbn [length] in Hs. pose proof (skip_ws_shorter r) as Hw.
    destruct (c =? 34); [done|]. destruct (c =? 123); [|destruct (c =? 91); [|done]];
      (destruct (skip_ws r) as [|x r']; [done|]; cbn [length] in Hw).
    + destruct (x =? 125); [done|]. apply res_bind_ext; [|done]. apply IHm; cbn [length]; lia.
    + destruct (x =? 93); [done|]. apply res_bind_ext; [|done]. apply IHi; cbn [length]; lia.
  - unfold si. cbn [scan_items]. fold sv si. apply res_bind_ext; [apply IHv; lia|].
    intros p Hp. apply (scan_shorter g) in Hp. pose proof (skip_ws_shorter p.2).
    destruct (skip_ws p.2) as [|c r]; [done|]. cbn [length] in *. repeat case_match; try done.
    apply res_bind_ext; [|done]. pose proof (skip_ws_shorter r). apply IHi; lia.
  - unfold sm. destruct s as [|q s1]; [done|]. cbn [scan_members length] in *. fold sv sm.
    case_match; [|done]. apply res_bind_ext; [done|]. intros k Hk.
    apply (scan_string_shorter (length s1)) in Hk; [|done].
    pose proof (skip_ws_shorter k.2). destruct (skip_ws k.2) as [|d s2]; [done|]. cbn [length] in *.
    case_match; [|done]. pose proof (skip_ws_shorter s2).
    apply res_bind_ext; [apply IHv; lia|].
    intros p Hp. apply (scan_shorter g) in Hp. pose proof (skip_ws_shorter p.2).
    destruct (skip_ws p.2) as [|c r]; [done|]. cbn [length] in *. repeat case_match; try done.
    apply res_bind_ext; [|done]. pose proof (skip_ws_shorter r). apply IHm; lia.
Qed.

Lemma scan_fuel_enough g s : (scan_fuel s <= g)%nat →
  scan_value parse_float parse_constant hook g s
  = scan_value parse_float parse_constant hook (scan_fuel s) s.
Proof. intros H. symmetry. apply (scan_fuel_mono (scan_fuel s) g); [|done]. unfold scan_fuel. lia. Qed.
End Fuel.

(** ** The errors of the scanner *)

Lemma scan_string_error n s e :
  (length s <= n)%nat → scan_string s = Raise e → exn_class e = JSONDecodeError.
Proof.
  revert s. induction n as [|n IH]; intros s Hn H.
  { destruct s; [by injection H as <-|cbn in Hn; lia]. }
  assert (Hrec : ∀ c t, (length t < length s)%nat → push c (scan_string t) = Raise e →
                        exn_class e = JSONDecodeError).
  { intros c t Ht Hp. unfold push in Hp. destruct (scan_string t) eqn:E; [done|].
    injection Hp as <-. apply IH in E; [done|lia]. }
  destruct s as [|c r]; [by injection H as <-|]. cbn [scan_string] in H.
  repeat case_match; try discriminate; try (by injection H as <-);
    (eapply Hrec; [|eassumption]; subst; cbn [length]; lia).
Qed.

Section Errors.
Context (parse_float parse_constant : pystr → res json).
Context (hook : list (pystr * json) → res json).
Context (Q : exn → Prop).
Hypothesis Q_float : ∀ s e, parse_float s = Raise e → Q e.
Hypothesis Q_constant : ∀ s e, parse_constant s = Raise e → Q e.
Hypothesis Q_hook : ∀ l e, hook l = Raise e → Q e.
Hypothesis Q_json : ∀ e, exn_class e = JSONDecodeError → Q e.
Hypothesis Q_digits : ∀ m, Q (Exn ValueError m).
Let sv := scan_value parse_float parse_constant hook.
Let si := scan_items parse_float parse_constant hook.
Let sm := scan_members parse_float parse_constant hook.

Lemma bind_error {A B} (m : res A) (k : A → res B) e :
  res_bind m k = Raise e → m = Raise e ∨ ∃ x, m = Ok x ∧ k x = Raise e.
Proof. destruct m; cbn; [eauto|]. intros [= ->]. auto. Qed.

Lemma derr_error {A} m e : @derr A m = Raise e → Q e.
Proof. intros [= <-]. by apply Q_json. Qed.

Lemma scan_number_error neg s e : scan_number parse_float neg s = Raise e → Q e.
Proof.
  unfold scan_number. destruct s as [|d r]; [apply derr_error|].
  destruct (is_digit d); [|apply derr_error].
  destruct (if d =? 48 then _ else _) as [ip r1]. destruct (scan_frac r1) as [fp r2].
  destruct (scan_exp r2) as [ep r3]. destruct (_ && _); intros [H|(x & _ & H)]%bind_error; try done.
  - unfold guard in H. destruct (_ <=? _); [done|]. injection H as <-. apply Q_digits.
  - by eapply Q_float.
Qed.

Lemma scan_word_error w v s e : (∀ x, v = Raise x → Q x) → scan_word w v s = Raise e → Q e.
Proof.
  intros Hv. unfold scan_word. destruct (starts_with w s); [|apply derr_error].
  intros [H|(x & _ & H)]%bind_error; [by apply Hv|done].
Qed.

Lemma scan_error f :
  (∀ s e, (S (2 * length s) <= f)%nat → sv f s = Raise e → Q e) ∧
  (∀ s e, (S (S (2 * length s)) <= f)%nat → si f s = Raise e → Q e) ∧
  (∀ s e, (S (S (2 * length s)) <= f)%nat → sm f s = Raise e → Q e).
Proof.
  induction f as [|f (IHv & IHi & IHm)]; [split_and!; intros; lia|].
  pose proof (fun s p => proj1 (scan_shorter parse_float parse_constant hook f) s p) as Hsh.
  fold sv in Hsh. split_and!; intros s e Hs H.
  - destruct s as [|c r]; [by eapply derr_error|]. unfold sv in H. cbn [scan_value] in H.
    fold (scan_items parse_float parse_constant hook) (scan_members parse_float parse_constant hook) in H.
    fold si sm in H. cbn [length] in Hs. pose proof (skip_ws_shorter r) as Hw.
    destruct (c =? 34).
    { apply bind_error in H as [H|(x & _ & H)]; [|done]. apply (scan_string_error (length r)) in H; auto. }
    destruct (c =? 123).
    { destruct (skip_ws r) as [|x r']; [by eapply derr_error|]. cbn [length] in Hw.
      destruct (x =? 125); apply bind_error in H as [H|(y & _ & H)]; try done; [by eapply Q_hook|..].
      - apply IHm in H; [done|cbn [length]; lia].
      - apply bind_error in H as [H|(z & _ & H)]; [by eapply Q_hook|done]. }
    destruct (c =? 91).
    { destruct (skip_ws r) as [|x r']; [by eapply derr_error|]. cbn [length] in Hw.
      destruct (x =? 93); [done|]. apply bind_error in H as [H|(y & _ & H)]; [|done].
      apply IHi in H; [done|cbn [length]; lia]. }
    repeat (match type of H with (if ?b then _ else _) = _ => destruct b end;
      [first [eapply scan_word_error in H; [exact H|]; (by intros ? ?) || (intros x Hx; by eapply Q_constant)
             | idtac] | ]).
    + apply bind_error in H as [H|(y & _ & H)]; [by eapply Q_constant|done].
    + by eapply scan_number_error.
    + by eapply scan_number_error.
  - unfold si in H. cbn [scan_items] in H. fold sv si in H.
    apply bind_error in H as [H|(p & Hp & H)]; [apply IHv in H; [done|lia]|].
    apply Hsh in Hp. pose proof (skip_ws_shorter p.2).
    destruct (skip_ws p.2) as [|c r]; [by eapply derr_error|]. cbn [length] in *.
    destruct (c =? 93); [done|]. destruct (c =? 44); [|by eapply derr_error].
    apply bind_error in H as [H|(q & _ & H)]; [|done]. pose proof (skip_ws_shorter r).
    apply IHi in H; [done|lia].
  - destruct s as [|q s1]; [by eapply derr_error|]. unfold sm in H. cbn [scan_members length] in *.
    fold sv sm in H. destruct (q =? 34); [|by eapply derr_error].
    apply bind_error in H as [H|(k & Hk & H)]; [apply (scan_string_error (length s1)) in H; auto|].
    apply (scan_string_shorter (length s1)) in Hk; [|done]. pose proof (skip_ws_shorter k.2).
    destruct (skip_ws k.2) as [|d s2]; [by eapply derr_error|]. cbn [length] in *.
    destruct (d =? 58); [|by eapply derr_error]. pose proof (skip_ws_shorter s2).
    apply bind_error in H as [H|(p & Hp & H)]; [apply IHv in H; [done|lia]|].
    apply Hsh in Hp. pose proof (skip_ws_shorter p.2).
    destruct (skip_ws p.2) as [|c r]; [by eapply derr_error|]. cbn [length] in *.
    destruct (c =? 125); [done|]. destruct (c =? 44); [|by eapply derr_error].
    apply bind_error in H as [H|(m & _ & H)]; [|done]. pose proof (skip_ws_shorter r).
    apply IHm in H; [done|lia].
Qed.

Lemma loads_error s e : loads parse_float parse_constant hook s = Raise e → Q e.
Proof.
  unfold loads. intros [H|(_ & _ & H)]%bind_error.
  { unfold guard in H. destruct (negb _); [done|]. injection H as <-. by apply Q_json. }
  apply bind_error in H as [H|(p & _ & H)].
  - apply (proj1 (scan_error _)) in H; [done|]. unfold scan_fuel. lia.
  - destruct (skip_ws p.2); [done|]. by eapply derr_error.
Qed.
End Errors.

(** ** Dictionaries without repeated keys *)

Lemma dict_set_fresh k v l : k ∉ dict_keys l → dict_set k v l = l ++ [(k, v)].
Proof.
  induction l as [|[k' v'] l IH]; [done|]. intros Hk. cbn in *.
  rewrite not_elem_of_cons in Hk. destruct Hk as [N Hk].
  rewrite bool_decide_false by congruence. by rewrite IH.
Qed.

Lemma dict_of_pairs_nodup l : NoDup (dict_keys l) → dict_of_pairs l = Ok (JObj l).
Proof.
  intros H. unfold dict_of_pairs. do 2 f_equal.
  assert (G : ∀ acc, NoDup (dict_keys (acc ++ l)) →
    fold_left (fun d kv => dict_set kv.1 kv.2 d) l acc = acc ++ l); [|by apply G].
  clear H. induction l as [|[k v] l IH]; intros acc H; cbn; [by rewrite app_nil_r|].
  rewrite dict_set_fresh, IH; [by rewrite <- app_assoc|by rewrite <- app_assoc|].
  unfold dict_keys in *. rewrite map_app in H. apply NoDup_app in H as (_ & H & _).
  intros Hin. by apply (H k Hin), list_elem_of_here.
Qed.
