(* ===== verification/JsonBytes.v ===== *)
(** * [json.loads] on bytes, and what [json.dumps] prints

    [json.loads] accepts [bytes]: it guesses the encoding among UTF-8, UTF-16
    and UTF-32 ([json.detect_encoding]) and decodes with the [surrogatepass]
    handler. This file models that path and shows that it undoes the ASCII
    text [json.dumps] prints by default. *)

From S2P Require Import Prelude Text Json.

(** ** The decoders *)

(** [b.decode("utf-8", "surrogatepass")]: as [utf8_decode], except that the
    three-byte form of a surrogate is accepted. *)
Fixpoint utf8_decode_pass (l : pybytes) : res pystr :=
  match l with
  | [] => Ok []
  | b0 :: r0 =>
      if b0 <? 128 then let! s := utf8_decode_pass r0 in Ok (b0 :: s)
      else match r0 with
      | [] => raise UnicodeDecodeError "unexpected end of data"
      | b1 :: r1 =>
          if negb (is_cont b1) then raise UnicodeDecodeError "invalid continuation byte"
          else if (194 <=? b0) && (b0 <=? 223) then
            let! s := utf8_decode_pass r1 in Ok ((b0 - 192) * 64 + (b1 - 128) :: s)
          else match r1 with
          | [] => raise UnicodeDecodeError "unexpected end of data"
          | b2 :: r2 =>
              if negb (is_cont b2) then raise UnicodeDecodeError "invalid continuation byte"
              else if (224 <=? b0) && (b0 <=? 239) then
                let c := (b0 - 224) * 4096 + (b1 - 128) * 64 + (b2 - 128) in
                check! guard (2048 <=? c) UnicodeDecodeError "invalid continuation byte" in
                let! s := utf8_decode_pass r2 in Ok (c :: s)
              else match r2 with
              | [] => raise UnicodeDecodeError "unexpected end of data"
              | b3 :: r3 =>
                  if negb (is_cont b3) then raise UnicodeDecodeError "invalid continuation byte"
                  else if (240 <=? b0) && (b0 <=? 244) then
                    let c := (b0 - 240) * 262144 + (b1 - 128) * 4096
                             + (b2 - 128) * 64 + (b3 - 128) in
                    check! guard ((65536 <=? c) && (c <=? 1114111))
                      UnicodeDecodeError "invalid continuation byte" in
                    let! s := utf8_decode_pass r3 in Ok (c :: s)
                  else raise UnicodeDecodeError "invalid start byte"
              end
          end
      end
  end.

(** The 16-bit units of a UTF-16 text, and the code points they stand for: a
    surrogate that is not part of a pair passes. *)
Fixpoint units16 (little : bool) (l : pybytes) : res (list Z) :=
  match l with
  | [] => Ok []
  | a :: b :: r =>
      let! us := units16 little r in
      Ok ((if little then b * 256 + a else a * 256 + b) :: us)
  | [_] => raise UnicodeDecodeError "truncated data"
  end.

Fixpoint join_units (us : list Z) : pystr :=
  match us with
  | [] => []
  | h :: r =>
      match r with
      | l :: r' =>
          if is_high h && is_low l
          then 65536 + (h - 55296) * 1024 + (l - 56320) :: join_units r'
          else h :: join_units r
      | [] => [h]
      end
  end.

Definition utf16_decode_pass (little : bool) (b : pybytes) : res pystr :=
  let! us := units16 little b in Ok (join_units us).

Fixpoint utf32_decode_pass (little : bool) (l : pybytes) : res pystr :=
  match l with
  | [] => Ok []
  | a :: b :: c :: d :: r =>
      let n := if little then ((d * 256 + c) * 256 + b) * 256 + a
               else ((a * 256 + b) * 256 + c) * 256 + d in
      check! guard (n <=? 1114111) UnicodeDecodeError "code point not in range(0x110000)" in
      let! s := utf32_decode_pass little r in
      Ok (n :: s)
  | _ => raise UnicodeDecodeError "truncated data"
  end.

(** ** [json.detect_encoding] *)

Inductive encoding := Utf8 | Utf8Sig | Utf16 | Utf16Be | Utf16Le | Utf32 | Utf32Be | Utf32Le.

Definition detect_encoding (b : pybytes) : encoding :=
  if starts_with [0; 0; 254; 255] b || starts_with [255; 254; 0; 0] b then Utf32
  else if starts_with [254; 255] b || starts_with [255; 254] b then Utf16
  else if starts_with [239; 187; 191] b then Utf8Sig
  else match b with
  | b0 :: b1 :: b2 :: b3 :: _ =>
      if b0 =? 0 then (if b1 =? 0 then Utf32Be else Utf16Be)
      else if b1 =? 0 then (if (b2 =? 0) && (b3 =? 0) then Utf32Le else Utf16Le)
      else Utf8
  | [b0; b1] => if b0 =? 0 then Utf16Be else if b1 =? 0 then Utf16Le else Utf8
  | _ => Utf8
  end.

(** [b.decode(detect_encoding(b), "surrogatepass")]: the codecs without a byte
    order of their own read it from the mark they were detected by. *)
Definition decode_detected (b : pybytes) : res pystr :=
  match detect_encoding b with
  | Utf8 => utf8_decode_pass b
  | Utf8Sig => utf8_decode_pass (drop 3 b)
  | Utf16 => utf16_decode_pass (starts_with [255; 254] b) (drop 2 b)
  | Utf16Be => utf16_decode_pass false b
  | Utf16Le => utf16_decode_pass true b
  | Utf32 => utf32_decode_pass (starts_with [255; 254; 0; 0] b) (drop 4 b)
  | Utf32Be => utf32_decode_pass false b
  | Utf32Le => utf32_decode_pass true b
  end.

(** The part of [loads] after the test for a mark, which the bytes path
    skips. *)
Definition loads_text (parse_float parse_constant : pystr → res json)
    (hook : list (pystr * json) → res json) (s : pystr) : res json :=
  let s := skip_ws s in
  let! p := scan_value parse_float parse_constant hook (scan_fuel s) s in
  match skip_ws p.2 with
  | [] => Ok p.1
  | _ :: _ => derr "Extra data"
  end.

Definition loads_bytes (parse_float parse_constant : pystr → res json)
    (hook : list (pystr * json) → res json) (b : pybytes) : res json :=
  let! text := decode_detected b in
  loads_text parse_float parse_constant hook text.

(** ** [float]

    The text [repr(float(literal))] is a parameter: the model rounds nothing.
    Python's numbers compare across types, so [v == 1] holds for [True] and
    for a [float] as well. *)
Class PyFloat := float_repr : pystr → pystr.

Definition read_float `{PyFloat} (lit : pystr) : res json := Ok (JFloat (float_repr lit)).
Definition read_constant (lit : pystr) : res json := Ok (JFloat lit).

Definition equals_small_int (v : json) (n : Z) : bool :=
  match v with
  | JInt z => z =? n
  | JBool b => Z.b2z b =? n
  | JFloat r => bool_decide (r = int_repr n ++ u".0")
  | _ => false
  end.

(** ** ASCII text

    By default [json.dumps] prints printable ASCII characters only. *)

Definition is_ascii_text (s : pystr) : Prop := Forall (fun c => 32 <= c < 128) s.

Lemma ascii_bytes s : is_ascii_text s → Forall (fun c => 0 <= c < 128) s.
Proof. intros H. eapply Forall_impl; [exact H|]. cbn beta. lia. Qed.

Lemma utf8_encode_text s : is_ascii_text s → utf8_encode s = Ok s.
Proof. intros H. by apply utf8_encode_ascii, ascii_bytes. Qed.

Lemma literal_ascii s :
  forallb (fun c => (32 <=? c) && (c <? 128)) s = true → is_ascii_text s.
Proof.
  intros H. apply forallb_Forall in H. eapply Forall_impl; [exact H|]. cbn beta. intros c Hc. breflect. lia.
Qed.

Lemma u_escape_ascii n : is_ascii_text (u_escape n).
Proof.
  assert (D : ∀ m, 32 <= hex_digit (m mod 16) < 128).
  { intros m. pose proof (Z.mod_pos_bound m 16). unfold hex_digit. case_match; breflect; lia. }
  unfold u_escape. repeat (constructor; [first [apply D|lia]|]). constructor.
Qed.

Lemma esc_str_ascii s : Forall (fun c => 0 <= c) s → is_ascii_text (esc_str true s).
Proof.
  induction 1 as [|c s Hc Hs IH]; [constructor|]. cbn [esc_str flat_map]. apply Forall_app. split; [|done].
  unfold esc_char. cbn [andb].
  repeat case_match; breflect; rewrite ?Forall_app; try split; try apply u_escape_ascii;
    repeat (constructor; [lia|]); try done.
Qed.

Lemma dump_str_ascii s : Forall (fun c => 0 <= c) s → is_ascii_text (dump_str true s).
Proof.
  intros H. unfold dump_str. constructor; [lia|]. apply Forall_snoc. split; [|lia].
  by apply esc_str_ascii.
Qed.

Lemma digits_ascii s : Forall (fun c => is_digit c = true) s → is_ascii_text s.
Proof. intros H. eapply Forall_impl; [exact H|]. intros c Hc. unfold is_digit in Hc. breflect. lia. Qed.

Lemma int_repr_ascii z : is_ascii_text (int_repr z).
Proof.
  unfold int_repr. destruct (z <? 0) eqn:E; breflect.
  - constructor; [lia|]. apply digits_ascii, nat_repr_digit. lia.
  - apply digits_ascii, nat_repr_digit. lia.
Qed.

Lemma join_ascii sep l : 32 <= sep < 128 → Forall is_ascii_text l → is_ascii_text (join_with sep l).
Proof.
  intros Hs H. induction H as [|x l Hx Hl IH]; [constructor|]. destruct l as [|y l]; [done|].
  rewrite join_with_cons. apply Forall_app. split; [done|]. by constructor.
Qed.

(** [sort_items] loses and adds nothing, so what holds of every item still
    does. *)
Lemma sort_items_forall {A} (P : pystr * A → Prop) l : Forall P l → Forall P (sort_items l).
Proof. intros H. by rewrite sort_items_perm. Qed.

Lemma str_ok_nonneg a s : str_ok a s = true → Forall (fun c => 0 <= c) s.
Proof.
  intros H. apply forallb_Forall in H. eapply Forall_impl; [exact H|]. cbn beta. intros c Hc.
  destruct a; [unfold is_scalar in Hc|]; breflect; lia.
Qed.

Lemma dumps_ascii v b : json_ok true v = true → is_ascii_text (dumps true b v).
Proof.
  induction v as [|t|z|fl|s|l IH|l IH] using json_ind; intros Hok; cbn [json_ok] in Hok; try done.
  - by apply literal_ascii.
  - by destruct t; apply literal_ascii.
  - apply int_repr_ascii.
  - apply dump_str_ascii. by eapply str_ok_nonneg.
  - apply forallb_Forall in Hok. cbn [dumps]. constructor; [lia|]. apply Forall_snoc. split; [|lia].
    apply join_ascii; [lia|]. apply Forall_map. eapply Forall_and_impl; [exact IH|exact Hok|].
    cbn beta. auto.
  - breflect. apply forallb_Forall in H0. cbn [dumps]. constructor; [lia|]. apply Forall_snoc.
    split; [|lia]. apply join_ascii; [lia|]. apply Forall_map.
    assert (HP : Forall (fun kv : pystr * pystr => Forall (fun c => 0 <= c) kv.1 ∧ is_ascii_text kv.2)
                   (map (fun kv => (kv.1, dumps true b kv.2)) l)).
    { apply Forall_map. eapply Forall_and_impl; [exact IH|exact H0|]. cbn. intros kv Hkv Hk. breflect.
      split; [by eapply str_ok_nonneg|auto]. }
    apply (Forall_impl (fun kv : pystr * pystr => Forall (fun c => 0 <= c) kv.1 ∧ is_ascii_text kv.2)).
    { destruct b; [by apply sort_items_forall|done]. }
    intros kv [Hk Hv]. apply Forall_app. split; [by apply dump_str_ascii|]. by constructor.
Qed.

(** ** Reading back *)

Lemma utf8_decode_pass_ascii s : is_ascii_text s → utf8_decode_pass s = Ok s.
Proof.
  induction 1 as [|c s Hc Hs IH]; [done|]. cbn [utf8_decode_pass].
  rewrite (proj2 (Z.ltb_lt c 128)) by lia. by rewrite IH.
Qed.

Lemma starts_with_false d p c s : c ≠ d → starts_with (d :: p) (c :: s) = false.
Proof. intros Hd. cbn. by rewrite (proj2 (Z.eqb_neq d c)) by done. Qed.

(** A printable ASCII text is read as UTF-8. *)
Lemma decode_detected_ascii s : is_ascii_text s → decode_detected s = Ok s.
Proof.
  intros Ha. unfold decode_detected. replace (detect_encoding s) with Utf8; [by apply utf8_decode_pass_ascii|].
  symmetry. unfold detect_encoding. destruct s as [|a s]; [done|].
  apply Forall_cons in Ha as [Ha Has]. cbn beta in Ha.
  rewrite !starts_with_false by lia. cbn [orb].
  destruct s as [|b [|c [|d s]]]; try done; apply Forall_cons in Has as [Hb _]; cbn beta in Hb;
    by rewrite !(proj2 (Z.eqb_neq _ 0)) by lia.
Qed.

(** [json.loads(json.dumps(v).encode())] is [v], its keys sorted if they were
    printed that way. *)
Lemma loads_bytes_dumps parse_float parse_constant hook v b :
  (∀ l, NoDup (dict_keys l) → hook l = Ok (JObj l)) → json_ok true v = true →
  loads_bytes parse_float parse_constant hook (dumps true b v)
  = Ok (if b then sort_json v else v).
Proof.
  intros Hhook Hok. unfold loads_bytes. rewrite decode_detected_ascii by by apply dumps_ascii.
  cbn [res_bind]. assert (∃ w, w = (if b then sort_json v else v) ∧ json_ok true w = true
    ∧ dumps true b v = dumps true false w) as (w & -> & Hw & ->).
  { destruct b; [exists (sort_json v)|exists v]; split_and!; try done;
      [by apply sort_json_ok|by rewrite dumps_sorted]. }
  pose proof (loads_dumps parse_float parse_constant hook true Hhook _ Hw) as H.
  unfold loads in H. destruct (starts_with _ _); [done|]. exact H.
Qed.
