(* ===== verification/Regex.v ===== *)
(** * Regular expressions

    The patterns of the sources use literals, character classes with bounded
    repetition, alternatives and optional groups. A pattern is a value, its
    language is defined by recursion on it, and [re.fullmatch] is computed by
    derivatives; [fullmatch_lang] says that the two agree. *)

From S2P Require Import Prelude Text.

Inductive regex :=
  | Void
  | Lit (s : pystr)
  | Rep (cls : Z → bool) (lo hi : nat)
  | Cat (r1 r2 : regex)
  | Alt (r1 r2 : regex).

Definition Eps : regex := Lit [].
Definition Opt (r : regex) : regex := Alt r Eps.
Definition cats (rs : list regex) : regex := foldr Cat Eps rs.
Definition alts (rs : list regex) : regex := foldr Alt Void rs.
(** [(?:w1|...|wn)] *)
Definition words (ws : list string) : regex := alts (map (fun w => Lit (u w)) ws).

Fixpoint lang (r : regex) (s : pystr) : Prop :=
  match r with
  | Void => False
  | Lit t => s = t
  | Rep cls lo hi => (lo ≤ length s ≤ hi)%nat ∧ Forall (fun c => cls c = true) s
  | Cat r1 r2 => ∃ s1 s2, s = s1 ++ s2 ∧ lang r1 s1 ∧ lang r2 s2
  | Alt r1 r2 => lang r1 s ∨ lang r2 s
  end.

(** Whether the empty string matches, and what is left to match after one
    character. *)
Fixpoint nullable (r : regex) : bool :=
  match r with
  | Void => false
  | Lit t => bool_decide (t = [])
  | Rep _ lo _ => Nat.eqb lo 0
  | Cat r1 r2 => nullable r1 && nullable r2
  | Alt r1 r2 => nullable r1 || nullable r2
  end.

Fixpoint deriv (c : Z) (r : regex) : regex :=
  match r with
  | Void => Void
  | Lit [] => Void
  | Lit (d :: t) => if c =? d then Lit t else Void
  | Rep cls lo hi =>
      match hi with
      | O => Void
      | S h => if cls c then Rep cls (Nat.pred lo) h else Void
      end
  | Cat r1 r2 =>
      if nullable r1 then Alt (Cat (deriv c r1) r2) (deriv c r2) else Cat (deriv c r1) r2
  | Alt r1 r2 => Alt (deriv c r1) (deriv c r2)
  end.

(** [re.compile(pattern).fullmatch(s) is not None] *)
Fixpoint fullmatch (r : regex) (s : pystr) : bool :=
  match s with
  | [] => nullable r
  | c :: t => fullmatch (deriv c r) t
  end.

(** Every repetition has an attainable upper bound. *)
Fixpoint regex_ok (r : regex) : bool :=
  match r with
  | Rep _ lo hi => (lo <=? hi)%nat
  | Cat r1 r2 | Alt r1 r2 => regex_ok r1 && regex_ok r2
  | _ => true
  end.

(** ** The matcher computes the language *)

Lemma nullable_lang r : regex_ok r = true → nullable r = true ↔ lang r [].
Proof.
  induction r as [|t|cls lo hi|r1 IH1 r2 IH2|r1 IH1 r2 IH2]; cbn; intros Hok.
  - done.
  - rewrite bool_decide_eq_true. split; congruence.
  - apply Nat.leb_le in Hok. rewrite Nat.eqb_eq. split; [intros ->; split; [lia|constructor]|].
    intros [H _]. lia.
  - breflect. rewrite andb_true_iff, IH1, IH2 by done. split.
    + intros [H1 H2]. by exists [], [].
    + intros (s1 & s2 & Hs & H1 & H2). symmetry in Hs. by apply app_eq_nil in Hs as [-> ->].
  - breflect. by rewrite orb_true_iff, IH1, IH2.
Qed.

Lemma deriv_ok c r : regex_ok r = true → regex_ok (deriv c r) = true.
Proof.
  induction r as [|t|cls lo hi|r1 IH1 r2 IH2|r1 IH1 r2 IH2]; cbn; intros Hok; try done.
  - by destruct t as [|d t]; [|case_match].
  - destruct hi as [|h]; [done|]. case_match; [|done]. cbn. apply Nat.leb_le in Hok. apply Nat.leb_le. lia.
  - breflect. case_match; cbn; rewrite IH1, ?IH2 by done; by rewrite ?H0.
  - breflect. by rewrite IH1, IH2.
Qed.

Lemma deriv_lang c r s : regex_ok r = true → lang (deriv c r) s ↔ lang r (c :: s).
Proof.
  revert s. induction r as [|t|cls lo hi|r1 IH1 r2 IH2|r1 IH1 r2 IH2]; cbn [deriv regex_ok]; intros s Hok.
  - done.
  - destruct t as [|d t]; [done|]. destruct (Z.eqb_spec c d) as [->|Hd]; cbn; split; congruence || tauto.
  - destruct hi as [|h]; [cbn; split; [done|intros [H _]; lia]|].
    destruct (cls c) eqn:Hc; cbn.
    + rewrite Forall_cons, Hc. split; intros H; (split; [lia|tauto]).
    + rewrite Forall_cons, Hc. split; [done|]. intros (_ & ? & _); done.
  - apply andb_true_iff in Hok as [Ho1 Ho2].
    assert (Hcat : lang (Cat (deriv c r1) r2) s ↔
      ∃ s1 s2, s = s1 ++ s2 ∧ lang r1 (c :: s1) ∧ lang r2 s2).
    { cbn. by setoid_rewrite (IH1 _ Ho1). }
    assert (Hsplit : lang (Cat r1 r2) (c :: s) ↔
      (lang r1 [] ∧ lang r2 (c :: s)) ∨ ∃ s1 s2, s = s1 ++ s2 ∧ lang r1 (c :: s1) ∧ lang r2 s2).
    { cbn. split.
      - intros ([|d s1] & s2 & Hs & H1 & H2); cbn in Hs; [left; by rewrite Hs|].
        injection Hs as -> ->. right. eauto.
      - intros [[H1 H2]|(s1 & s2 & -> & H1 & H2)]; [by exists [], (c :: s)|by exists (c :: s1), s2]. }
    rewrite Hsplit, <- (nullable_lang r1) by done. destruct (nullable r1); cbn [lang] in *.
    + rewrite Hcat, IH2 by done. tauto.
    + rewrite Hcat. split; [by right|]. by intros [[? _]|?].
  - apply andb_true_iff in Hok as [Ho1 Ho2]. cbn. by rewrite IH1, IH2.
Qed.

Lemma fullmatch_lang r s : regex_ok r = true → fullmatch r s = true ↔ lang r s.
Proof.
  revert r. induction s as [|c s IH]; intros r Hok; cbn; [by apply nullable_lang|].
  rewrite IH by by apply deriv_ok. by apply deriv_lang.
Qed.

(** ** Consequences used by the components *)

(** Every character the pattern can match satisfies [P]. *)
Fixpoint chars_in (P : Z → bool) (r : regex) : Prop :=
  match r with
  | Void => True
  | Lit t => forallb P t = true
  | Rep cls _ _ => ∀ c, cls c = true → P c = true
  | Cat r1 r2 | Alt r1 r2 => chars_in P r1 ∧ chars_in P r2
  end.

Lemma chars_in_lang P r s : chars_in P r → lang r s → Forall (fun c => P c = true) s.
Proof.
  revert s. induction r as [|t|cls lo hi|r1 IH1 r2 IH2|r1 IH1 r2 IH2]; cbn; intros s HP Hs.
  - done.
  - subst. by apply forallb_Forall.
  - destruct Hs as [_ Hs]. eapply Forall_impl; [exact Hs|]. auto.
  - destruct HP, Hs as (s1 & s2 & -> & H1 & H2). apply Forall_app. auto.
  - destruct HP, Hs; auto.
Qed.

(** The longest string the pattern can match. *)
Fixpoint max_len (r : regex) : nat :=
  match r with
  | Void => 0
  | Lit t => length t
  | Rep _ _ hi => hi
  | Cat r1 r2 => max_len r1 + max_len r2
  | Alt r1 r2 => max_len r1 `max` max_len r2
  end%nat.

Lemma max_len_lang r s : lang r s → (length s <= max_len r)%nat.
Proof.
  revert s. induction r as [|t|cls lo hi|r1 IH1 r2 IH2|r1 IH1 r2 IH2]; cbn; intros s Hs.
  - done.
  - by subst.
  - lia.
  - destruct Hs as (s1 & s2 & -> & H1 & H2). rewrite length_app. specialize (IH1 _ H1). specialize (IH2 _ H2). lia.
  - destruct Hs as [Hs|Hs]; [specialize (IH1 _ Hs)|specialize (IH2 _ Hs)]; lia.
Qed.

(** Reading a path after a slash ([true]) or after another character: an empty
    segment, two slashes in a row, has no reading. *)
Fixpoint after (q : bool) (s : pystr) : option bool :=
  match s with
  | [] => Some q
  | c :: t => if c =? 47 then (if q then None else after true t) else after false t
  end.

(** Where every match of the pattern leads, when it does not depend on it. *)
Fixpoint after_regex (r : regex) (q : bool) : option bool :=
  match r with
  | Void => None
  | Lit t => after q t
  | Rep cls lo _ => if cls 47 then None else if (lo =? 0)%nat then None else Some false
  | Cat r1 r2 => q1 ← after_regex r1 q; after_regex r2 q1
  | Alt r1 Void => after_regex r1 q
  | Alt r1 r2 =>
      match after_regex r1 q, after_regex r2 q with
      | Some a, Some b => if eqb a b then Some a else None
      | _, _ => None
      end
  end.

Lemma after_app q s t : after q (s ++ t) = (q1 ← after q s; after q1 t).
Proof. revert q. induction s as [|c s IH]; intros q; cbn; [done|]. repeat case_match; auto. Qed.

Lemma after_plain q s : Forall (fun c => c ≠ 47) s → s ≠ [] → after q s = Some false.
Proof.
  intros H. revert q. induction H as [|c s Hc Hs IH]; intros q Hne; [done|]. cbn.
  rewrite (proj2 (Z.eqb_neq c 47)) by done. destruct s; [done|]. by apply IH.
Qed.

Lemma after_regex_lang r q q' s : after_regex r q = Some q' → lang r s → after q s = Some q'.
Proof.
  revert q q' s. induction r as [|t|cls lo hi|r1 IH1 r2 IH2|r1 IH1 r2 IH2]; intros q q' s Hq Hs.
  - done.
  - cbn in *. by subst.
  - cbn in *. destruct (cls 47) eqn:H47; [done|]. destruct (Nat.eqb_spec lo 0); [done|].
    injection Hq as <-. destruct Hs as [Hl Hs]. apply after_plain.
    + eapply Forall_impl; [exact Hs|]. cbn. congruence.
    + intros ->. cbn in Hl. lia.
  - cbn in *. destruct Hs as (s1 & s2 & -> & H1 & H2). apply bind_Some in Hq as (q1 & Hq1 & Hq2).
    rewrite after_app, (IH1 _ _ _ Hq1 H1). cbn. by apply IH2.
  - assert (Hlr : lang r1 s ∨ lang r2 s) by exact Hs. destruct r2; [destruct Hlr; [by apply IH1|done]| | | |];
      cbn [after_regex] in Hq; destruct (after_regex r1 q) as [a|] eqn:Ha; try done;
      (let E := fresh in match type of Hq with context [match ?x with _ => _ end] => destruct x as [b|] eqn:E end);
      try done; destruct (eqb a b) eqn:Hab; try done; apply eqb_prop in Hab; injection Hq as <-;
      subst; destruct Hlr; eauto.
Qed.
