(* ===== verification/Crypto.v ===== *)
(** * Interfaces of the cryptographic primitives

    SHA-256 and Ed25519 are third-party code: the model takes them as
    interfaces. Their laws are the documented ones (the lengths of digests and
    signatures, and that a signature verifies under its own key); the toy
    instances show that the laws can hold. *)

From S2P Require Import Prelude.

Class Sha256 := sha256 : pybytes → pybytes.
Class Sha256Laws `{Sha256} := sha256_digest :
  ∀ m, length (sha256 m) = 32%nat ∧ Forall (fun x => is_byte x = true) (sha256 m).

Class Ed25519 := {
  private_key : Type;
  public_key : Type;
  public_of : private_key → public_key;
  ed_sign : private_key → pybytes → pybytes;
  ed_verify : public_key → pybytes → pybytes → bool;
}.
Class Ed25519Laws `{Ed25519} := {
  ed_sign_length : ∀ k m, length (ed_sign k m) = 64%nat;
  ed_sign_bytes : ∀ k m, Forall (fun x => is_byte x = true) (ed_sign k m);
  ed_verify_sign : ∀ k m, ed_verify (public_of k) (ed_sign k m) m = true;
}.

(** Raw keys: [from_public_bytes] refuses some strings of bytes with a
    [ValueError], never the raw form of a key. *)
Class Ed25519Raw `{Ed25519} := {
  private_from_bytes : pybytes → private_key;
  public_bytes_raw : public_key → pybytes;
  public_from_bytes : pybytes → option public_key;
}.
Class Ed25519RawLaws `{Ed25519Raw} := {
  public_raw_length : ∀ k, length (public_bytes_raw k) = 32%nat;
  public_from_raw : ∀ k, public_from_bytes (public_bytes_raw k) = Some k;
}.

(** [X25519PublicKey.from_public_bytes(b)] and an exchange with a fixed private
    key: [false] when one of them raises the documented [ValueError] (a wrong
    length, or a point of low order). *)
Class X25519 := x25519_usable : pybytes → bool.

(** [HKDF(SHA256, length=32, salt=salt, info=info).derive(secret)] *)
Class Hkdf := hkdf_sha256 : pybytes → pybytes → pybytes → pybytes.
Class HkdfLaws `{Hkdf} := hkdf_length : ∀ salt info secret, length (hkdf_sha256 salt info secret) = 32%nat.

(** ** Instances that satisfy the laws *)

Definition toy_sha256 : Sha256 := fun _ => repeat 0 32.
Lemma toy_sha256_laws : @Sha256Laws toy_sha256.
Proof. intros m. split; [done|]. by apply forallb_Forall. Qed.

Definition toy_ed25519 : Ed25519 := {|
  private_key := unit; public_key := unit; public_of := fun _ => tt;
  ed_sign := fun _ _ => repeat 7 64;
  ed_verify := fun _ s _ => bool_decide (s = repeat 7 64) |}.
Lemma toy_ed25519_laws : @Ed25519Laws toy_ed25519.
Proof.
  split; [done| |].
  - intros. by apply forallb_Forall.
  - intros. by apply bool_decide_eq_true_2.
Qed.

Definition toy_ed25519_raw : @Ed25519Raw toy_ed25519 := {|
  private_from_bytes := fun _ => (tt : @private_key toy_ed25519);
  public_bytes_raw := fun _ => repeat 5 32;
  public_from_bytes := fun b => if bool_decide (b = repeat 5 32)
                                then Some (tt : @public_key toy_ed25519) else None |}.
Lemma toy_ed25519_raw_laws : @Ed25519RawLaws toy_ed25519 toy_ed25519_raw.
Proof. split; [done|]. by intros []. Qed.

Definition toy_x25519 : X25519 := fun b => (zlen b =? 32) && negb (bool_decide (b = repeat 0 32)).
Definition toy_hkdf : Hkdf := fun _ _ _ => repeat 3 32.
Lemma toy_hkdf_laws : @HkdfLaws toy_hkdf.
Proof. done. Qed.
