(* ===== verification/BrokerProtocol.v ===== *)
(** * The broker protocol

    Models [services/broker_protocol.py]: bounded canonical JSON, strict
    base64url signatures, and the signed request and response frames the
    application and the execution broker exchange. Ed25519 and SHA-256 are
    interfaces ([Ed25519], [Sha256]); everything else is executable. *)

From S2P Require Import Prelude Text Json Crypto.

(** ** Constants *)

Definition BROKER_PROTOCOL_VERSION : pystr := u"yinshi-broker-v1".
Definition BROKER_FRAME_BYTES_MAX : Z := 65536.
Definition BROKER_RESPONSE_BYTES_MAX : Z := 4096.
Definition REQUEST_KEYS : list pystr :=
  [u"broker_incarnation"; u"connection_sequence"; u"database_incarnation"; u"nonce";
   u"operation_id"; u"payload"; u"payload_digest"; u"protocol_version"; u"request_type";
   u"signature"].
Definition RESPONSE_KEYS : list pystr :=
  [u"broker_incarnation"; u"connection_sequence"; u"database_incarnation"; u"error";
   u"operation_id"; u"payload_digest"; u"protocol_version"; u"request_nonce";
   u"request_type"; u"result"; u"signature"; u"status"].
Definition REQUEST_SIGNATURE_DOMAIN : pybytes := u"YINSHI-BROKER-REQUEST-V1" ++ [0].
Definition RESPONSE_SIGNATURE_DOMAIN : pybytes := u"YINSHI-BROKER-RESPONSE-V1" ++ [0].

Definition TOKEN_PATTERN : pystr → bool := fullmatch_range is_token_char 16 128.
Definition OPERATION_ID_PATTERN : pystr → bool := fullmatch_n is_hex 32.
Definition DIGEST_PATTERN : pystr → bool := fullmatch_n is_hex 64.

Record BrokerRequest := {
  protocol_version : pystr;
  broker_incarnation : pystr;
  database_incarnation : pystr;
  connection_sequence : Z;
  operation_id : pystr;
  request_type : pystr;
  nonce : pystr;
  payload_digest_ : pystr;
  payload : list (pystr * json);
}.

Record BrokerResponse := {
  r_protocol_version : pystr;
  r_broker_incarnation : pystr;
  r_database_incarnation : pystr;
  r_connection_sequence : Z;
  r_operation_id : pystr;
  r_request_type : pystr;
  r_request_nonce : pystr;
  r_payload_digest : pystr;
  r_status : pystr;
  r_error : option pystr;
  r_result : list (pystr * json);
}.

(** ** Canonical JSON *)

Definition reject_constant (value : pystr) : res json :=
  raise BrokerProtocolError "unsupported JSON constant".
Definition reject_float (value : pystr) : res json :=
  raise BrokerProtocolError "floating-point JSON values are not supported".

Fixpoint unique_pairs (seen : list (pystr * json)) (pairs : list (pystr * json))
  : res (list (pystr * json)) :=
  match pairs with
  | [] => Ok seen
  | kv :: r =>
      if bool_decide (kv.1 ∈ dict_keys seen)
      then raise BrokerProtocolError "duplicate JSON object key"
      else unique_pairs (seen ++ [kv]) r
  end.
Definition unique_object (pairs : list (pystr * json)) : res json :=
  let! d := unique_pairs [] pairs in Ok (JObj d).

Definition JSON_INT_MAX : Z := 2 ^ 53 - 1.

(** The key of one member: non-empty and at most 128 bytes. *)
Definition validate_key (k : pystr) : res unit :=
  check! guard (negb (bool_decide (k = []))) BrokerProtocolError
    "JSON object keys must be non-empty strings" in
  let! b := utf8_encode k in
  guard (zlen b <=? 128) BrokerProtocolError "JSON object key exceeds the protocol limit".

Fixpoint validate_json (value : json) (depth : Z) : res json :=
  if 8 <? depth then raise BrokerProtocolError "JSON nesting exceeds the protocol limit"
  else match value with
  | JNull | JBool _ => Ok value
  | JInt z =>
      check! guard ((- JSON_INT_MAX <=? z) && (z <=? JSON_INT_MAX)) BrokerProtocolError
        "JSON integer exceeds the protocol limit" in
      Ok value
  | JStr s =>
      let! b := utf8_encode s in
      check! guard (zlen b <=? 4096) BrokerProtocolError
        "JSON string exceeds the protocol limit" in
      Ok value
  | JArr l =>
      check! guard (zlen l <=? 64) BrokerProtocolError "JSON array exceeds the protocol limit" in
      let! l' := mapM_res (fun item => validate_json item (depth + 1)) l in
      Ok (JArr l')
  | JObj l =>
      check! guard (zlen l <=? 64) BrokerProtocolError "JSON object exceeds the protocol limit" in
      let! l' := mapM_res (fun kv =>
        check! validate_key kv.1 in
        let! item := validate_json kv.2 (depth + 1) in
        Ok (kv.1, item)) l in
      Ok (JObj l')
  | JFloat _ => raise BrokerProtocolError "unsupported JSON value type"
  end.

Definition canonical_json (value : json) : res pybytes :=
  let! validated := validate_json value 0 in
  let! encoded := utf8_encode (dumps false true validated) in
  check! guard (zlen encoded <=? BROKER_FRAME_BYTES_MAX) BrokerProtocolError
    "JSON frame exceeds the protocol limit" in
  Ok encoded.

Definition parse_canonical_json (frame : pybytes) (maximum : Z) : res (list (pystr * json)) :=
  check! guard (negb (bool_decide (frame = [])) && (zlen frame <=? maximum))
    BrokerProtocolError "JSON frame size is invalid" in
  let! value := reraise_as
    (let! text := utf8_decode frame in
     loads reject_float reject_constant unique_object text)
    [UnicodeDecodeError; JSONDecodeError] BrokerProtocolError "JSON frame is invalid" in
  let! validated := validate_json value 0 in
  match validated with
  | JObj d =>
      let! again := canonical_json validated in
      check! guard (bool_decide (again = frame)) BrokerProtocolError
        "JSON frame is not canonical" in
      Ok d
  | _ => raise BrokerProtocolError "JSON frame must contain an object"
  end.

(** [json.loads(frame)] with the default hooks. A [float] keeps its literal:
    the canonical encoder refuses floats whatever their value. *)
Definition loads_default (frame : pybytes) : res json :=
  let! text := utf8_decode frame in
  loads (fun lit => Ok (JFloat lit)) (fun lit => Ok (JFloat lit)) dict_of_pairs text.

(** ** Signatures and digests *)

Definition encode_base64url (value : pybytes) : pystr := b64url_encode value.

Definition decode_base64url (value : option json) (expected_bytes : Z) : res pybytes :=
  match value with
  | Some (JStr v) =>
      check! guard (negb (bool_decide (v = [])) && negb (bool_decide (61 ∈ v)))
        BrokerProtocolError "signature encoding is invalid" in
      let! decoded := reraise_as (b64decode (v ++ b64_padding v)) [BinasciiError; ValueError]
        BrokerProtocolError "signature encoding is invalid" in
      check! guard ((zlen decoded =? expected_bytes) && bool_decide (encode_base64url decoded = v))
        BrokerProtocolError "signature encoding is invalid" in
      Ok decoded
  | _ => raise BrokerProtocolError "signature encoding is invalid"
  end.

(** The checks both parsers make on one field. *)
Definition validate_token (value : option json) (name : string) : res pystr :=
  match value with
  | Some (JStr v) =>
      check! guard (TOKEN_PATTERN v) BrokerProtocolError (name +:+ " is invalid") in Ok v
  | _ => raise BrokerProtocolError (name +:+ " is invalid")
  end.

Definition validate_sequence (value : option json) : res Z :=
  match value with
  | Some (JInt n) =>
      check! guard ((1 <=? n) && (n <=? 2 ^ 63 - 1)) BrokerProtocolError
        "connection sequence is invalid" in Ok n
  | _ => raise BrokerProtocolError "connection sequence is invalid"
  end.

Definition validate_operation_id (value : option json) : res pystr :=
  match value with
  | Some (JStr v) =>
      check! guard (OPERATION_ID_PATTERN v) BrokerProtocolError "operation ID is invalid" in Ok v
  | _ => raise BrokerProtocolError "operation ID is invalid"
  end.

Definition validate_request_type (value : option json) : res pystr :=
  match value with
  | Some (JStr v) =>
      check! guard ((1 <=? zlen v) && (zlen v <=? 64)) BrokerProtocolError
        "request type is invalid" in Ok v
  | _ => raise BrokerProtocolError "request type is invalid"
  end.

Definition validate_digest (value : option json) : res pystr :=
  match value with
  | Some (JStr v) =>
      check! guard (DIGEST_PATTERN v) BrokerProtocolError "payload digest is invalid" in Ok v
  | _ => raise BrokerProtocolError "payload digest is invalid"
  end.

Section Crypto.
Context {SHA : Sha256} {ED : Ed25519}.

Definition payload_digest (value : json) : res pystr :=
  let! c := canonical_json value in Ok (hexdigest (sha256 c)).

Definition unsigned_message (message : list (pystr * json)) : res pybytes :=
  canonical_json (JObj (dict_pop (u"signature") message)).

(** ** Requests *)

(** The dictionary a request is signed as, before its signature is added. *)
Definition request_message (r : BrokerRequest) : list (pystr * json) :=
  [(u"broker_incarnation", JStr (broker_incarnation r));
   (u"connection_sequence", JInt (connection_sequence r));
   (u"database_incarnation", JStr (database_incarnation r));
   (u"nonce", JStr (nonce r));
   (u"operation_id", JStr (operation_id r));
   (u"payload", JObj (payload r));
   (u"payload_digest", JStr (payload_digest_ r));
   (u"protocol_version", JStr (protocol_version r));
   (u"request_type", JStr (request_type r))].

Definition create_signed_request (key : private_key) (protocol_version_ broker_incarnation_
    database_incarnation_ : pystr) (connection_sequence_ : Z)
    (operation_id_ request_type_ nonce_ : pystr) (payload_ : list (pystr * json)) : res pybytes :=
  let! digest := payload_digest (JObj payload_) in
  let message := request_message {|
    protocol_version := protocol_version_; broker_incarnation := broker_incarnation_;
    database_incarnation := database_incarnation_; connection_sequence := connection_sequence_;
    operation_id := operation_id_; request_type := request_type_; nonce := nonce_;
    payload_digest_ := digest; payload := payload_ |} in
  let! unsigned := canonical_json (JObj message) in
  let signature := ed_sign key (REQUEST_SIGNATURE_DOMAIN ++ unsigned) in
  canonical_json (JObj (message ++ [(u"signature", JStr (encode_base64url signature))])).

Definition parse_signed_request (frame : pybytes) (key : public_key) : res BrokerRequest :=
  let! message := parse_canonical_json frame BROKER_FRAME_BYTES_MAX in
  check! guard (has_keys message REQUEST_KEYS) BrokerProtocolError
    "broker request schema contains missing or unknown fields" in
  let! signature := decode_base64url (dict_get (u"signature") message) 64 in
  let! unsigned := unsigned_message message in
  check! guard (ed_verify key signature (REQUEST_SIGNATURE_DOMAIN ++ unsigned))
    BrokerProtocolError "broker request signature is invalid" in
  check! guard (get_is_str message (u"protocol_version") BROKER_PROTOCOL_VERSION)
    BrokerProtocolError "broker protocol version is invalid" in
  let! broker_inc := validate_token (dict_get (u"broker_incarnation") message)
    "broker incarnation" in
  let! database_inc := validate_token (dict_get (u"database_incarnation") message)
    "database incarnation" in
  let! sequence := validate_sequence (dict_get (u"connection_sequence") message) in
  let! op := validate_operation_id (dict_get (u"operation_id") message) in
  let! ty := validate_request_type (dict_get (u"request_type") message) in
  let! nonce_ := validate_token (dict_get (u"nonce") message) "request nonce" in
  let! digest := validate_digest (dict_get (u"payload_digest") message) in
  match dict_get (u"payload") message with
  | Some (JObj p) =>
      let! d := payload_digest (JObj p) in
      check! guard (bool_decide (d = digest)) BrokerProtocolError
        "request payload digest mismatch" in
      Ok {| protocol_version := BROKER_PROTOCOL_VERSION; broker_incarnation := broker_inc;
            database_incarnation := database_inc; connection_sequence := sequence;
            operation_id := op; request_type := ty; nonce := nonce_;
            payload_digest_ := digest; payload := p |}
  | _ => raise BrokerProtocolError "request payload must contain an object"
  end.

(** ** Responses *)

Definition response_message (r : BrokerResponse) : list (pystr * json) :=
  [(u"broker_incarnation", JStr (r_broker_incarnation r));
   (u"connection_sequence", JInt (r_connection_sequence r));
   (u"database_incarnation", JStr (r_database_incarnation r));
   (u"error", match r_error r with Some e => JStr e | None => JNull end);
   (u"operation_id", JStr (r_operation_id r));
   (u"payload_digest", JStr (r_payload_digest r));
   (u"protocol_version", JStr (r_protocol_version r));
   (u"request_nonce", JStr (r_request_nonce r));
   (u"request_type", JStr (r_request_type r));
   (u"result", JObj (r_result r));
   (u"status", JStr (r_status r))].

(** The response that answers one request. *)
Definition response_to (request : BrokerRequest) (status : pystr) (error : option pystr)
    (result : list (pystr * json)) : BrokerResponse := {|
  r_protocol_version := protocol_version request;
  r_broker_incarnation := broker_incarnation request;
  r_database_incarnation := database_incarnation request;
  r_connection_sequence := connection_sequence request;
  r_operation_id := operation_id request;
  r_request_type := request_type request;
  r_request_nonce := nonce request;
  r_payload_digest := payload_digest_ request;
  r_status := status; r_error := error; r_result := result |}.

Definition create_signed_response (request : BrokerRequest) (key : private_key) (status : pystr)
    (error : option pystr) (result : list (pystr * json)) : res pybytes :=
  check! guard (mem_str status [u"ok"; u"error"]) BrokerProtocolError
    "broker response status is invalid" in
  check! guard (match error with Some e => (1 <=? zlen e) && (zlen e <=? 128) | None => true end)
    BrokerProtocolError "broker response error is invalid" in
  check! guard (negb (bool_decide (status = u"ok") && bool_decide (error ≠ None)))
    BrokerProtocolError "successful broker response cannot contain an error" in
  check! guard (negb (bool_decide (status = u"error") && bool_decide (error = None)))
    BrokerProtocolError "failed broker response must contain an error" in
  let message := response_message (response_to request status error result) in
  let! unsigned := canonical_json (JObj message) in
  let signature := ed_sign key (RESPONSE_SIGNATURE_DOMAIN ++ unsigned) in
  let! response := canonical_json
    (JObj (message ++ [(u"signature", JStr (encode_base64url signature))])) in
  check! guard (zlen response <=? BROKER_RESPONSE_BYTES_MAX) BrokerProtocolError
    "broker response exceeds the protocol limit" in
  Ok response.

Definition validate_response_error (status : pystr) (value : option json) : res (option pystr) :=
  if bool_decide (status = u"ok") then
    match value with
    | Some JNull | None => Ok None
    | _ => raise BrokerProtocolError "broker response error is invalid"
    end
  else
    match value with
    | Some (JStr e) =>
        check! guard ((1 <=? zlen e) && (zlen e <=? 128)) BrokerProtocolError
          "broker response error is invalid" in Ok (Some e)
    | _ => raise BrokerProtocolError "broker response error is invalid"
    end.

(** The request identity a response repeats. *)
Definition response_identity (r : BrokerResponse) :=
  (r_protocol_version r, r_broker_incarnation r, r_database_incarnation r,
   r_connection_sequence r, r_operation_id r, r_request_type r, r_request_nonce r,
   r_payload_digest r).
Definition request_identity (r : BrokerRequest) :=
  (protocol_version r, broker_incarnation r, database_incarnation r,
   connection_sequence r, operation_id r, request_type r, nonce r, payload_digest_ r).

Definition verify_broker_response (frame : pybytes) (key : public_key)
    (expected_request : BrokerRequest) : res BrokerResponse :=
  let! message := parse_canonical_json frame BROKER_RESPONSE_BYTES_MAX in
  check! guard (has_keys message RESPONSE_KEYS) BrokerProtocolError
    "broker response schema contains missing or unknown fields" in
  let! signature := decode_base64url (dict_get (u"signature") message) 64 in
  let! unsigned := unsigned_message message in
  check! guard (ed_verify key signature (RESPONSE_SIGNATURE_DOMAIN ++ unsigned))
    BrokerProtocolError "broker response signature is invalid" in
  check! guard (get_is_str message (u"protocol_version") BROKER_PROTOCOL_VERSION)
    BrokerProtocolError "broker protocol version is invalid" in
  let! broker_inc := validate_token (dict_get (u"broker_incarnation") message)
    "broker incarnation" in
  let! database_inc := validate_token (dict_get (u"database_incarnation") message)
    "database incarnation" in
  let! sequence := validate_sequence (dict_get (u"connection_sequence") message) in
  let! op := validate_operation_id (dict_get (u"operation_id") message) in
  let! ty := validate_request_type (dict_get (u"request_type") message) in
  let! nonce_ := validate_token (dict_get (u"request_nonce") message) "request nonce" in
  let! digest := validate_digest (dict_get (u"payload_digest") message) in
  match dict_get (u"status") message, dict_get (u"result") message with
  | Some (JStr status), Some (JObj result) =>
      check! guard (mem_str status [u"ok"; u"error"]) BrokerProtocolError
        "broker response body is invalid" in
      let! error := validate_response_error status (dict_get (u"error") message) in
      let response := {|
        r_protocol_version := BROKER_PROTOCOL_VERSION; r_broker_incarnation := broker_inc;
        r_database_incarnation := database_inc; r_connection_sequence := sequence;
        r_operation_id := op; r_request_type := ty; r_request_nonce := nonce_;
        r_payload_digest := digest; r_status := status; r_error := error;
        r_result := result |} in
      check! guard (bool_decide (response_identity response = request_identity expected_request))
        BrokerProtocolError "broker response request identity mismatch" in
      Ok response
  | _, _ => raise BrokerProtocolError "broker response body is invalid"
  end.
End Crypto.

(** ** Canonical form *)

(** The type invariant of a Python [dict], at every depth: distinct keys. *)
Fixpoint wf_dicts (v : json) : bool :=
  match v with
  | JArr l => forallb wf_dicts l
  | JObj l => bool_decide (NoDup (dict_keys l)) && forallb (fun kv => wf_dicts kv.2) l
  | _ => true
  end.

Lemma validate_json_id v d v' : validate_json v d = Ok v' → v' = v.
Proof.
  revert d v'. induction v as [|b|z|r|s|l IH|l IH] using json_ind; intros d v' H;
    cbn [validate_json] in H; case_match; try discriminate; inv_ok; try done.
  - f_equal. apply mapM_res_ok in E0. clear -E0 IH.
    induction E0 as [|x y l ys Hxy E0 IHl]; [done|].
    apply Forall_cons in IH as [Hx IH]. f_equal; eauto.
  - f_equal. apply mapM_res_ok in E0. clear -E0 IH.
    induction E0 as [|x y l ys Hxy E0 IHl]; [done|].
    apply Forall_cons in IH as [Hx IH]. inv_ok. destruct x as [k x]. cbn [fst snd] in *.
    f_equal; [|auto]. f_equal. eauto.
Qed.

(** A member that passes [validate_json]. *)
Definition member_valid (d : Z) (kv : pystr * json) : Prop :=
  validate_key kv.1 = Ok tt ∧ validate_json kv.2 (d + 1) = Ok kv.2.

Lemma validate_arr l d : validate_json (JArr l) d = Ok (JArr l) ↔
  d <= 8 ∧ zlen l <= 64 ∧ Forall (fun v => validate_json v (d + 1) = Ok v) l.
Proof.
  cbn [validate_json]. split.
  - intros H. case_match; [done|]. inv_ok. breflect. split_and!; [done..|].
    apply mapM_res_ok in E0. clear -E0.
    by apply Forall2_same in E0.
  - intros (Hd & Hl & Hf). rewrite (proj2 (Z.ltb_ge _ _)) by done.
    rewrite (proj2 (Z.leb_le _ _)) by done. cbn [guard res_bind].
    assert (mapM_res (fun item => validate_json item (d + 1)) l = Ok l) as ->; [|done].
    apply mapM_res_ok, Forall2_same, Hf.
Qed.

Lemma validate_obj l d : validate_json (JObj l) d = Ok (JObj l) ↔
  d <= 8 ∧ zlen l <= 64 ∧ Forall (member_valid d) l.
Proof.
  cbn [validate_json]. split.
  - intros H. case_match; [done|]. inv_ok. breflect. split_and!; [done..|].
    apply mapM_res_ok in E0. clear -E0.
    apply Forall2_same in E0. eapply Forall_impl; [exact E0|].
    intros [k v] Hkv. inv_ok. destruct a. split; done.
  - intros (Hd & Hl & Hf). rewrite (proj2 (Z.ltb_ge _ _)) by done.
    rewrite (proj2 (Z.leb_le _ _)) by done. cbn [guard res_bind].
    match goal with |- context [mapM_res ?f l] => assert (mapM_res f l = Ok l) as ->; [|done] end.
    apply mapM_res_ok, Forall2_same. eapply Forall_impl; [exact Hf|].
    intros [k v] [Hk Hv]. cbn [fst snd] in *. by rewrite Hk, Hv.
Qed.

Lemma utf8_str_ok s b : utf8_encode s = Ok b → str_ok false s = true.
Proof.
  intros H. assert (Hs : forallb is_scalar s = true) by (apply utf8_encode_scalar; eauto).
  unfold str_ok. apply forallb_Forall in Hs. apply forallb_Forall.
  eapply Forall_impl; [exact Hs|]. cbn beta. unfold is_scalar. intros c Hc. breflect.
  by apply Z.leb_le.
Qed.

Lemma validate_key_str_ok k : validate_key k = Ok tt → str_ok false k = true.
Proof. unfold validate_key. intros H. inv_ok. by eapply utf8_str_ok. Qed.

(** What the validator accepts prints and parses back. *)
Lemma validate_json_ok v d :
  validate_json v d = Ok v → wf_dicts v = true → json_ok false v = true.
Proof.
  revert d. induction v as [|b|z|r|s|l IH|l IH] using json_ind; intros d H Hw; try done.
  - cbn [validate_json] in H. case_match; [done|]. inv_ok. breflect. cbn [json_ok].
    apply Z.leb_le. etransitivity; [apply nat_repr_len|].
    assert (Hlog : Z.log2 (Z.abs z) <= Z.log2 (2 ^ 53)) by (apply Z.log2_le_mono; unfold JSON_INT_MAX in *; lia).
    rewrite Z.log2_pow2 in Hlog by lia. unfold INT_MAX_STR_DIGITS. lia.
  - cbn [validate_json] in H. by case_match.
  - cbn [validate_json] in H. case_match; [done|]. inv_ok. by eapply utf8_str_ok.
  - apply validate_arr in H as (_ & _ & H). cbn [wf_dicts json_ok] in *.
    apply forallb_Forall in Hw. apply forallb_Forall.
    eapply Forall_and_impl; [exact (Forall_and_impl _ _ _ _ IH Hw (fun x a b => conj a b))|exact H|].
    cbn beta. intros x [Hx Hxw] Hxv. by apply (Hx (d + 1)).
  - apply validate_obj in H as (_ & _ & H). cbn [wf_dicts json_ok] in *. breflect.
    apply andb_true_iff. split; [by apply bool_decide_eq_true|].
    apply forallb_Forall in H1. apply forallb_Forall.
    eapply Forall_and_impl; [exact (Forall_and_impl _ _ _ _ IH H1 (fun x a b => conj a b))|exact H|].
    cbn beta. intros x [Hx Hxw] [Hk Hxv]. apply andb_true_iff.
    split; [by apply validate_key_str_ok|by apply (Hx (d + 1))].
Qed.

Lemma validate_json_sort v d :
  validate_json v d = Ok v → validate_json (sort_json v) d = Ok (sort_json v).
Proof.
  revert d. induction v as [|b|z|r|s|l IH|l IH] using json_ind; intros d H; try done.
  - apply validate_arr in H as (Hd & Hl & H). cbn [sort_json]. apply validate_arr.
    unfold zlen in *. rewrite length_map. split_and!; [done..|]. apply Forall_fmap.
    eapply Forall_and_impl; [exact IH|exact H|]. cbn. auto.
  - apply validate_obj in H as (Hd & Hl & H). cbn [sort_json]. apply validate_obj.
    unfold zlen in *. rewrite (Permutation_length (sort_items_perm _)), length_map.
    split_and!; [done..|]. rewrite sort_items_perm. apply Forall_fmap.
    eapply Forall_and_impl; [exact IH|exact H|]. cbn. intros kv Hkv [Hk Hv]. split; [done|]. cbn. auto.
Qed.

Lemma canonical_json_spec v f : canonical_json v = Ok f ↔
  validate_json v 0 = Ok v ∧ utf8_encode (dumps false true v) = Ok f
  ∧ zlen f <= BROKER_FRAME_BYTES_MAX.
Proof.
  unfold canonical_json. split.
  - intros H. inv_ok. breflect. pose proof (validate_json_id _ _ _ E) as E'. subst. by split_and!.
  - intros (H1 & H2 & H3). rewrite H1. cbn [res_bind]. rewrite H2. cbn [res_bind].
    by rewrite (proj2 (Z.leb_le _ _)).
Qed.

(** Key order does not change the canonical bytes. *)
Lemma canonical_json_sort v f : canonical_json v = Ok f → canonical_json (sort_json v) = Ok f.
Proof.
  rewrite !canonical_json_spec. intros (H1 & H2 & H3). split_and!; [| |done].
  - by apply validate_json_sort.
  - by rewrite dumps_sorted, sort_json_idem, <- dumps_sorted.
Qed.

Lemma unique_pairs_spec seen l d : unique_pairs seen l = Ok d →
  NoDup (dict_keys seen) → d = seen ++ l ∧ NoDup (dict_keys d).
Proof.
  revert seen. induction l as [|kv l IH]; intros seen H Hs; cbn [unique_pairs] in H.
  - inv_ok. by rewrite app_nil_r.
  - case_match; [done|]. breflect. apply IH in H as [-> Hd].
    + split; [by rewrite <- app_assoc|done].
    + unfold dict_keys in *. rewrite map_app. apply NoDup_app. split_and!; [done| |apply NoDup_singleton].
      intros k Hk Hk'. apply list_elem_of_singleton in Hk'. by subst.
Qed.

Lemma unique_pairs_ok seen l :
  NoDup (dict_keys (seen ++ l)) → unique_pairs seen l = Ok (seen ++ l).
Proof.
  revert seen. induction l as [|kv l IH]; intros seen H; cbn [unique_pairs].
  - by rewrite app_nil_r.
  - rewrite bool_decide_eq_false_2.
    + rewrite IH by by rewrite <- app_assoc. by rewrite <- app_assoc.
    + unfold dict_keys in *. rewrite map_app in H. apply NoDup_app in H as (_ & H & _).
      intros Hin. apply (H _ Hin). cbn. apply list_elem_of_here.
Qed.

Lemma unique_object_ok l : NoDup (dict_keys l) → unique_object l = Ok (JObj l).
Proof. intros H. unfold unique_object. by rewrite (unique_pairs_ok [] l). Qed.

(** A parser whose hooks build values with distinct keys builds such values. *)
Section ScanWf.
Context (parse_float parse_constant : pystr → res json) (hook : list (pystr * json) → res json).
Hypothesis float_wf : ∀ s v, parse_float s = Ok v → wf_dicts v = true.
Hypothesis constant_wf : ∀ s v, parse_constant s = Ok v → wf_dicts v = true.
Hypothesis hook_wf : ∀ l o, Forall (fun kv => wf_dicts kv.2 = true) l → hook l = Ok o →
  wf_dicts o = true.

Lemma scan_wf f :
  (∀ s p, scan_value parse_float parse_constant hook f s = Ok p → wf_dicts p.1 = true) ∧
  (∀ s p, scan_items parse_float parse_constant hook f s = Ok p →
          Forall (fun v => wf_dicts v = true) p.1) ∧
  (∀ s p, scan_members parse_float parse_constant hook f s = Ok p →
          Forall (fun kv => wf_dicts kv.2 = true) p.1).
Proof.
  assert (Hnum : ∀ neg s p, scan_number parse_float neg s = Ok p → wf_dicts p.1 = true).
  { intros neg s p H. unfold scan_number in H. destruct s as [|d r]; [done|].
    destruct (is_digit d); [|done]. destruct (if d =? 48 then _ else _).
    destruct (scan_frac l0). destruct (scan_exp l2). destruct (_ && _); inv_ok; try done. by eapply float_wf. }
  assert (Hword : ∀ w v s p, (∀ x, v = Ok x → wf_dicts x = true) → scan_word w v s = Ok p →
                             wf_dicts p.1 = true).
  { intros w v s p Hv H. unfold scan_word in H. destruct (starts_with w s); [|done]. inv_ok. by apply Hv. }
  induction f as [|f (IHv & IHi & IHm)]; [done|]. split_and!.
  - intros s p H. destruct s as [|c r]; [done|]. cbn [scan_value] in H.
    fold (scan_items parse_float parse_constant hook)
         (scan_members parse_float parse_constant hook) in H.
    destruct (c =? 34). { by inv_ok. }
    destruct (c =? 123).
    { destruct (skip_ws r) as [|x r']; [done|]. destruct (x =? 125); inv_ok; cbn [fst].
      - by apply (hook_wf []).
      - eapply hook_wf; [|eassumption]. by eapply IHm. }
    destruct (c =? 91).
    { destruct (skip_ws r) as [|x r']; [done|]. destruct (x =? 93); inv_ok; cbn [fst wf_dicts]; [done|].
      apply forallb_Forall. by eapply IHi. }
    repeat (match type of H with (if ?b then _ else _) = _ => destruct b end;
      [first [eapply Hword in H; [exact H|]; intros x Hx; first [by inv_ok|by eapply constant_wf] | idtac] | ]).
    + inv_ok. by eapply constant_wf.
    + by eapply Hnum.
    + by eapply Hnum.
  - intros s p H. cbn [scan_items] in H. inv_ok. destruct (skip_ws a.2) as [|c r]; [done|].
    apply IHv in E. destruct (c =? 93); inv_ok; [by repeat constructor|].
    destruct (c =? 44); [|done]. inv_ok. cbn [fst]. constructor; [done|]. by eapply IHi.
  - intros s p H. destruct s as [|q s1]; [done|]. cbn [scan_members] in H.
    destruct (q =? 34); [|done]. inv_ok. destruct (skip_ws a.2) as [|d s2]; [done|].
    destruct (d =? 58); [|done]. inv_ok. apply IHv in E0.
    destruct (skip_ws a0.2) as [|c r]; [done|].
    destruct (c =? 125); inv_ok; [by repeat constructor|].
    destruct (c =? 44); [|done]. inv_ok. cbn [fst]. constructor; [done|]. by eapply IHm.
Qed.

Lemma loads_wf_hooks s v : loads parse_float parse_constant hook s = Ok v → wf_dicts v = true.
Proof.
  unfold loads. intros H. inv_ok. destruct (skip_ws a0.2); [|done]. inv_ok. by eapply scan_wf.
Qed.
End ScanWf.

(** Every object the strict parser builds has distinct keys, and so has every
    object [json.loads] builds by default. *)
Lemma loads_wf s v : loads reject_float reject_constant unique_object s = Ok v → wf_dicts v = true.
Proof.
  apply loads_wf_hooks; [done|done|]. intros l o Hl H. unfold unique_object in H. inv_ok.
  apply unique_pairs_spec in E as [-> Hd]; [|constructor]. cbn [wf_dicts app].
  apply andb_true_iff. split; [by apply bool_decide_eq_true|by apply forallb_Forall].
Qed.

Lemma dict_set_keys k v x l : x ∈ dict_keys (dict_set k v l) → x = k ∨ x ∈ dict_keys l.
Proof.
  induction l as [|kv l IH]; cbn [dict_set].
  - intros ->%list_elem_of_singleton. by left.
  - case_bool_decide as E; cbn [dict_keys map fst]; intros Hx; [by right; rewrite E|].
    apply elem_of_cons in Hx as [-> |Hx]; [right; left|].
    destruct (IH Hx); [by left|by right; right].
Qed.

Lemma dict_set_wf k v l : wf_dicts (JObj l) = true → wf_dicts v = true →
  wf_dicts (JObj (dict_set k v l)) = true.
Proof.
  intros Hl Hv. induction l as [|kv l IH]; cbn [dict_set].
  - cbn. by rewrite Hv.
  - cbn [wf_dicts dict_keys map forallb] in Hl. breflect. apply NoDup_cons in H as [N H].
    case_bool_decide as E; cbn [wf_dicts dict_keys map forallb fst snd].
    + rewrite Hv, H1. rewrite bool_decide_true by (constructor; [by rewrite <- E|done]). done.
    + assert (K : wf_dicts (JObj (dict_set k v l)) = true).
      { apply IH. cbn [wf_dicts]. rewrite H1. by rewrite bool_decide_true. }
      cbn [wf_dicts] in K. breflect. rewrite H0. rewrite bool_decide_true; [done|].
      constructor; [|done]. by intros [|]%dict_set_keys.
Qed.

Lemma loads_default_wf f v : loads_default f = Ok v → wf_dicts v = true.
Proof.
  unfold loads_default. intros (t & _ & H)%bind_error_ok. revert H.
  apply loads_wf_hooks; [by intros ? ? [= <-]|by intros ? ? [= <-]|].
  intros l o Hl H. unfold dict_of_pairs in H. injection H as <-.
  assert (G : ∀ d, wf_dicts (JObj d) = true →
    wf_dicts (JObj (fold_left (fun d kv => dict_set kv.1 kv.2 d) l d)) = true); [|by apply G].
  induction Hl as [|kv l Hkv Hl IH]; intros d Hd; cbn [fold_left]; [done|].
  apply IH. by apply dict_set_wf.
Qed.

Lemma loads_canonical v f : canonical_json v = Ok f → wf_dicts v = true →
  (let! text := utf8_decode f in loads reject_float reject_constant unique_object text)
  = Ok (sort_json v).
Proof.
  intros (Hv & He & _)%canonical_json_spec Hw. rewrite (utf8_round_trip _ _ He). cbn [res_bind].
  rewrite dumps_sorted. apply loads_dumps; [apply unique_object_ok|].
  by eapply sort_json_ok, validate_json_ok.
Qed.

Lemma loads_default_canonical v f : canonical_json v = Ok f → wf_dicts v = true →
  loads_default f = Ok (sort_json v).
Proof.
  intros (Hv & He & _)%canonical_json_spec Hw. unfold loads_default.
  rewrite (utf8_round_trip _ _ He). cbn [res_bind].
  rewrite dumps_sorted. apply loads_dumps; [apply dict_of_pairs_nodup|].
  by eapply sort_json_ok, validate_json_ok.
Qed.

Lemma dumps_nonempty v : dumps false true (JObj v) ≠ [].
Proof. done. Qed.

Lemma canonical_json_nonempty l f : canonical_json (JObj l) = Ok f → f ≠ [].
Proof.
  intros (_ & He & _)%canonical_json_spec ->. apply utf8_round_trip in He. cbn in He. discriminate.
Qed.

(** Completeness: every canonical encoding of a dictionary is accepted. *)
Lemma parse_canonical_complete l f maximum :
  canonical_json (JObj l) = Ok f → wf_dicts (JObj l) = true → zlen f <= maximum →
  ∃ l', sort_json (JObj l) = JObj l' ∧ parse_canonical_json f maximum = Ok l'.
Proof.
  intros Hc Hw Hm. eexists. split; [reflexivity|]. unfold parse_canonical_json.
  rewrite bool_decide_eq_false_2 by by eapply canonical_json_nonempty.
  rewrite (proj2 (Z.leb_le _ _)) by done. cbn [negb andb guard res_bind].
  rewrite (loads_canonical _ _ Hc Hw). cbn [reraise_as res_bind].
  pose proof (canonical_json_sort _ _ Hc) as Hs.
  apply canonical_json_spec in Hs as Hs'. destruct Hs' as (Hv & _).
  rewrite Hv. cbn [res_bind]. cbn [sort_json] in *. rewrite Hs. cbn [res_bind].
  by rewrite bool_decide_eq_true_2.
Qed.

(** Soundness: what is accepted is the canonical encoding of the returned
    dictionary, whose keys are distinct and in order. *)
Lemma parse_canonical_sound f maximum l : parse_canonical_json f maximum = Ok l →
  canonical_json (JObj l) = Ok f ∧ wf_dicts (JObj l) = true ∧ sort_json (JObj l) = JObj l
  ∧ zlen f <= maximum.
Proof.
  unfold parse_canonical_json. intros H.
  destruct (negb _ && _) eqn:G; cbn [guard res_bind] in H; [|done]. breflect.
  destruct (let! text := utf8_decode f in _) as [v|e] eqn:El; cbn [reraise_as res_bind] in H.
  2: { by destruct (caught e _). }
  destruct (validate_json v 0) as [w|] eqn:Ev; cbn [res_bind] in H; [|done].
  destruct w as [| | | | | |d]; try discriminate.
  destruct (canonical_json (JObj d)) as [f'|] eqn:Ec; cbn [res_bind] in H; [|done].
  destruct (bool_decide (f' = f)) eqn:Ef; cbn [guard res_bind] in H; [|done]. breflect.
  injection H as ->. subst f'. apply validate_json_id in Ev as <-.
  assert (Hw : wf_dicts (JObj l) = true).
  { destruct (utf8_decode f) as [t|]; [|done]. by eapply loads_wf. }
  split_and!; [done..| |done].
  pose proof (loads_canonical _ _ Ec Hw) as Hl. rewrite El in Hl. congruence.
Qed.

(** ** Frames with a fixed schema *)

Definition str_le (a b : pystr) : Prop := str_ltb b a = false.
#[export] Instance str_le_antisymm : AntiSymm (=) str_le.
Proof.
  intros a b Hab Hba. unfold str_le in *.
  destruct (str_ltb_total a b) as [H|[H|H]]; congruence.
Qed.

Lemma sorted_dict_keys l : sort_json (JObj l) = JObj l → StronglySorted str_le (dict_keys l).
Proof.
  cbn [sort_json]. intros [= H]. rewrite <- H at 1. clear H.
  pose proof (sort_items_sorted (map (fun kv => (kv.1, sort_json kv.2)) l)) as Hs.
  induction Hs as [|x r Hs IH Hx]; [constructor|]. cbn. constructor; [done|].
  by apply Forall_fmap.
Qed.

(** A canonical dictionary with the required key set lists its keys in the
    order of the sorted schema. *)
Lemma has_keys_exact l keys :
  has_keys l keys = true → wf_dicts (JObj l) = true → sort_json (JObj l) = JObj l →
  NoDup keys → StronglySorted str_le keys → dict_keys l = keys.
Proof.
  unfold has_keys. intros H Hw Hs Hn Hk. cbn [wf_dicts] in Hw. breflect.
  apply (StronglySorted_unique str_le); [by apply sorted_dict_keys|done|].
  apply forallb_Forall in H. apply forallb_Forall in H2. rewrite Forall_forall in H, H2.
  apply NoDup_Permutation; [done..|]. intros k. split; intros Hin.
  - apply H in Hin. by apply bool_decide_eq_true in Hin.
  - apply H2 in Hin. by apply bool_decide_eq_true in Hin.
Qed.

Lemma decode_encode_base64url b n :
  Forall (fun x => is_byte x = true) b → zlen b = n → b ≠ [] →
  decode_base64url (Some (JStr (encode_base64url b))) n = Ok b.
Proof.
  intros Hb Hn Hne. unfold decode_base64url, encode_base64url.
  rewrite bool_decide_eq_false_2.
  2: { destruct b as [|x [|y [|z b]]]; done. }
  rewrite bool_decide_eq_false_2.
  2: { intros Hin. pose proof (b64url_encode_no_pad _ Hb) as Hp.
       rewrite Forall_forall in Hp. by apply (Hp 61). }
  cbn [negb andb guard res_bind]. rewrite b64decode_encode by done. cbn [reraise_as res_bind].
  rewrite (proj2 (Z.eqb_eq _ _)) by done. by rewrite bool_decide_eq_true_2.
Qed.

Lemma decode_base64url_sound v n b :
  decode_base64url v n = Ok b → v = Some (JStr (encode_base64url b)) ∧ zlen b = n.
Proof.
  unfold decode_base64url. destruct v as [[| | | |v| |]|]; try done. intros H. inv_ok. breflect. by subst.
Qed.

Section Signed.
Context {SHA : Sha256} {ED : Ed25519}.

Lemma payload_digest_sort v d : payload_digest v = Ok d → payload_digest (sort_json v) = Ok d.
Proof.
  unfold payload_digest. intros H. inv_ok. by rewrite (canonical_json_sort _ _ E).
Qed.

Lemma payload_digest_pattern {HL : Sha256Laws} v d : payload_digest v = Ok d → DIGEST_PATTERN d = true.
Proof.
  unfold payload_digest. intros H. inv_ok. destruct (sha256_digest a) as [Hl Hb].
  unfold DIGEST_PATTERN, fullmatch_n. apply andb_true_iff. split.
  - apply Z.eqb_eq. unfold zlen. by rewrite hexdigest_length, Hl.
  - by apply hexdigest_is_hex.
Qed.

(** The request with its payload's keys in order. *)
Definition sorted_request (r : BrokerRequest) (p : list (pystr * json)) : BrokerRequest := {|
  protocol_version := protocol_version r; broker_incarnation := broker_incarnation r;
  database_incarnation := database_incarnation r; connection_sequence := connection_sequence r;
  operation_id := operation_id r; request_type := request_type r; nonce := nonce r;
  payload_digest_ := payload_digest_ r; payload := p |}.

Lemma sort_request_message r p s : sort_json (JObj (payload r)) = JObj p →
  sort_json (JObj (request_message r ++ [(u"signature", JStr s)]))
  = JObj (request_message (sorted_request r p) ++ [(u"signature", JStr s)])
  ∧ sort_json (JObj (request_message r)) = JObj (request_message (sorted_request r p)).
Proof.
  cbn [sort_json]. intros [= <-]. split; reflexivity.
Qed.

(** Well-formed request fields, as the parser requires them. *)
Definition request_fields_ok (r : BrokerRequest) : bool :=
  bool_decide (protocol_version r = BROKER_PROTOCOL_VERSION)
  && TOKEN_PATTERN (broker_incarnation r) && TOKEN_PATTERN (database_incarnation r)
  && ((1 <=? connection_sequence r) && (connection_sequence r <=? JSON_INT_MAX))
  && OPERATION_ID_PATTERN (operation_id r)
  && ((1 <=? zlen (request_type r)) && (zlen (request_type r) <=? 64))
  && TOKEN_PATTERN (nonce r).

Lemma wf_request_message r s : wf_dicts (JObj (payload r)) = true →
  wf_dicts (JObj (request_message r ++ [(u"signature", JStr s)])) = true.
Proof.
  intros H. cbn [wf_dicts forallb request_message app snd] in *. rewrite H.
  rewrite bool_decide_eq_true_2; [done|]. by apply (bool_decide_unpack _).
Qed.

Lemma parse_message_request r key sig unsigned frame :
  parse_canonical_json frame BROKER_FRAME_BYTES_MAX
    = Ok (request_message r ++ [(u"signature", JStr (encode_base64url sig))]) →
  decode_base64url (Some (JStr (encode_base64url sig))) 64 = Ok sig →
  canonical_json (JObj (request_message r)) = Ok unsigned →
  ed_verify key sig (REQUEST_SIGNATURE_DOMAIN ++ unsigned) = true →
  request_fields_ok r = true → DIGEST_PATTERN (payload_digest_ r) = true →
  payload_digest (JObj (payload r)) = Ok (payload_digest_ r) →
  parse_signed_request frame key = Ok r.
Proof.
  intros Hp Hd Hu Hver Hf Hdp Hpd. unfold parse_signed_request. rewrite Hp. cbn [res_bind].
  change (has_keys _ REQUEST_KEYS) with true. cbn [guard res_bind].
  change (dict_get (u"signature") _) with (Some (JStr (encode_base64url sig))).
  rewrite Hd. cbn [res_bind]. unfold unsigned_message.
  change (dict_pop (u"signature") _) with (request_message r). rewrite Hu. cbn [res_bind].
  rewrite Hver. cbn [guard res_bind].
  unfold request_fields_ok in Hf. breflect.
  change (get_is_str _ _ _) with (bool_decide (protocol_version r = BROKER_PROTOCOL_VERSION)).
  rewrite bool_decide_eq_true_2 by done. cbn [guard res_bind].
  change (dict_get (u"broker_incarnation") _) with (Some (JStr (broker_incarnation r))).
  change (dict_get (u"database_incarnation") _) with (Some (JStr (database_incarnation r))).
  change (dict_get (u"connection_sequence") _) with (Some (JInt (connection_sequence r))).
  change (dict_get (u"operation_id") _) with (Some (JStr (operation_id r))).
  change (dict_get (u"request_type") _) with (Some (JStr (request_type r))).
  change (dict_get (u"nonce") _) with (Some (JStr (nonce r))).
  change (dict_get (u"payload_digest") _) with (Some (JStr (payload_digest_ r))).
  change (dict_get (u"payload") _) with (Some (JObj (payload r))).
  unfold validate_token, validate_sequence, validate_operation_id, validate_request_type,
    validate_digest, JSON_INT_MAX in *.
  repeat match goal with H : ?b = true |- context [guard ?b] => rewrite H end.
  rewrite !(proj2 (Z.leb_le _ _)) by lia. cbn [andb guard res_bind].
  repeat (match goal with H : ?b = true |- context [guard ?b] => rewrite H end; cbn [guard res_bind]).
  rewrite Hpd. cbn [res_bind]. rewrite bool_decide_eq_true_2 by done. cbn [guard res_bind].
  destruct r; cbn in *. by subst.
Qed.
End Signed.

(** ** Errors *)

Lemma validate_json_error v d e : validate_json v d = Raise e →
  exn_class e = BrokerProtocolError ∨ exn_class e = UnicodeEncodeError.
Proof.
  assert (Hguard : ∀ b m e, guard b BrokerProtocolError m = Raise e → exn_class e = BrokerProtocolError).
  { intros [] m e'; cbn; [done|]. by intros [= <-]. }
  assert (Hmap : ∀ A B (g : A → res B) l, mapM_res g l = Raise e → ∃ x, x ∈ l ∧ g x = Raise e).
  { intros A B g l. induction l as [|x l IH]; cbn [mapM_res]; [done|].
    intros [H|(y & _ & [H|(z & _ & H)]%bind_error)]%bind_error; [| |done].
    - exists x. split; [apply list_elem_of_here|done].
    - destruct (IH H) as (z & Hz & H'). exists z. split; [by apply list_elem_of_further|done]. }
  revert d. induction v as [|b|z|r|s|l IH|l IH] using json_ind; intros d; cbn [validate_json];
    (destruct (8 <? d); [by intros [= <-]; left|]); try done.
  - intros [H|(x & _ & H)]%bind_error; [|done]. left. by eapply Hguard.
  - intros [= <-]. by left.
  - intros [H|(x & _ & [H|(y & _ & H)]%bind_error)]%bind_error; [|left; by eapply Hguard|done].
    right. by eapply utf8_encode_only_error.
  - intros [H|(x & _ & [H|(y & _ & H)]%bind_error)]%bind_error; [left; by eapply Hguard| |done].
    apply Hmap in H as (w & Hw & H). rewrite Forall_forall in IH. by eapply IH.
  - intros [H|(x & _ & [H|(y & _ & H)]%bind_error)]%bind_error; [left; by eapply Hguard| |done].
    apply Hmap in H as (w & Hw & H). rewrite Forall_forall in IH.
    apply bind_error in H as [H|(_ & _ & [H|(z & _ & H)]%bind_error)]; [|by eapply IH|done].
    unfold validate_key in H.
    apply bind_error in H as [H|(_ & _ & [H|(z & _ & H)]%bind_error)]; [left; by eapply Hguard| |left; by eapply Hguard].
    right. by eapply utf8_encode_only_error.
Qed.

Lemma canonical_json_error v e : canonical_json v = Raise e →
  exn_class e = BrokerProtocolError ∨ exn_class e = UnicodeEncodeError.
Proof.
  unfold canonical_json. intros [H|(x & _ & [H|(y & _ & H)]%bind_error)]%bind_error.
  - by eapply validate_json_error.
  - right. by eapply utf8_encode_only_error.
  - apply bind_error in H as [H|(z & _ & H)]; [|done]. unfold guard in H.
    destruct (_ <=? _); [done|]. injection H as <-. by left.
Qed.

Definition protocol_error (e : exn) : Prop :=
  exn_class e = BrokerProtocolError ∨ exn_class e = UnicodeEncodeError ∨ exn_class e = ValueError.

Lemma utf8_decode_error n b e : (length b <= n)%nat →
  utf8_decode b = Raise e → exn_class e = UnicodeDecodeError.
Proof.
  revert b. induction n as [|n IH]; intros b Hn H.
  { destruct b; [done|cbn in Hn; lia]. }
  assert (Hrec : ∀ t (k : pystr → res pystr), (length t < length b)%nat → (∀ x, ∃ y, k x = Ok y) →
    res_bind (utf8_decode t) k = Raise e → exn_class e = UnicodeDecodeError).
  { intros t k Ht Hk [H'|(x & _ & H')]%bind_error; [apply IH in H'; [done|lia]|].
    destruct (Hk x). congruence. }
  destruct b as [|b0 r0]; [done|]. cbn [utf8_decode] in H.
  repeat match type of H with
  | (if ?c then _ else _) = _ => destruct c
  | match ?r with [] => _ | _ :: _ => _ end = _ => destruct r
  | raise _ _ = _ => by injection H as <-
  | res_bind (raise _ _) _ = _ => by injection H as <-
  | res_bind (utf8_decode _) _ = _ => eapply Hrec in H; [exact H|cbn [length]; lia|eauto]
  | res_bind (guard ?c _ _) _ = _ => destruct c; cbn [guard res_bind] in H
  end.
Qed.

(** ** Reading back the fields of a message *)

Lemma dict_keys_cons k ks l : dict_keys l = k :: ks →
  ∃ v r, l = (k, v) :: r ∧ dict_keys r = ks.
Proof. destruct l as [|[k' v] r]; cbn; [done|]. intros [= -> <-]. eauto. Qed.

(** Name the values of a dictionary whose keys are known. *)
Ltac split_dict H :=
  repeat (let v := fresh "v" in let r := fresh "r" in let E := fresh "E" in
    apply dict_keys_cons in H as (v & r & E & H); subst);
  apply map_eq_nil in H; subst.

(** Replace a lookup in a concrete dictionary by its value. *)
Ltac get_at H k v :=
  match type of H with context [dict_get (u k) ?m] =>
    change (dict_get (u k) m) with (Some v) in H end.

Lemma validate_token_ok v n t : validate_token v n = Ok t → v = Some (JStr t) ∧ TOKEN_PATTERN t = true.
Proof. unfold validate_token. repeat case_match; try done. intros K. by inv_ok. Qed.
Lemma validate_sequence_ok v n : validate_sequence v = Ok n → v = Some (JInt n) ∧ 1 <= n.
Proof. unfold validate_sequence. repeat case_match; try done. intros K. inv_ok. by breflect. Qed.
Lemma validate_operation_id_ok v t :
  validate_operation_id v = Ok t → v = Some (JStr t) ∧ OPERATION_ID_PATTERN t = true.
Proof. unfold validate_operation_id. repeat case_match; try done. intros K. by inv_ok. Qed.
Lemma validate_request_type_ok v t :
  validate_request_type v = Ok t → v = Some (JStr t) ∧ 1 <= zlen t <= 64.
Proof. unfold validate_request_type. repeat case_match; try done. intros K. inv_ok. by breflect. Qed.
Lemma validate_digest_ok v t : validate_digest v = Ok t → v = Some (JStr t) ∧ DIGEST_PATTERN t = true.
Proof. unfold validate_digest. repeat case_match; try done. intros K. by inv_ok. Qed.

(** Peel one validated field off a parser's continuation. *)
Ltac next_field H L x :=
  let E := fresh "E" in let Hx := fresh "Hx" in
  apply bind_error_ok in H as (x & E & H); apply L in E as [[= ->] Hx].

Lemma canonical_member l f kv :
  canonical_json (JObj l) = Ok f → kv ∈ l → member_valid 0 kv.
Proof.
  intros (Hv & _)%canonical_json_spec Hin. apply validate_obj in Hv as (_ & _ & Hv).
  rewrite Forall_forall in Hv. by apply Hv.
Qed.

Lemma canonical_int_bound l f k n :
  canonical_json (JObj l) = Ok f → (k, JInt n) ∈ l → n <= JSON_INT_MAX.
Proof.
  intros Hc Hin. destruct (canonical_member _ _ _ Hc Hin) as [_ Hv].
  cbn [snd validate_json] in Hv. change (8 <? 0 + 1) with false in Hv. cbn iota in Hv. inv_ok. by breflect.
Qed.

(** What parsing a request frame establishes about its message. *)
Lemma parse_request_message {SHA : Sha256} {ED : Ed25519} frame key r :
  parse_signed_request frame key = Ok r →
  ∃ sig, parse_canonical_json frame BROKER_FRAME_BYTES_MAX
           = Ok (request_message r ++ [(u"signature", JStr (encode_base64url sig))])
  ∧ ∃ unsigned, canonical_json (JObj (request_message r)) = Ok unsigned
    ∧ ed_verify key sig (REQUEST_SIGNATURE_DOMAIN ++ unsigned) = true
    ∧ request_fields_ok r = true
    ∧ payload_digest (JObj (payload r)) = Ok (payload_digest_ r).
Proof.
  unfold parse_signed_request. intros (message & Hp & H)%bind_error_ok.
  apply parse_canonical_sound in Hp as Hs. destruct Hs as (Hc & Hw & Hsort & _).
  destruct (has_keys message REQUEST_KEYS) eqn:Hk; cbn [guard res_bind] in H; [|done].
  apply has_keys_exact in Hk; [|done|done|by apply (bool_decide_unpack _)|by repeat constructor].
  unfold REQUEST_KEYS in Hk. split_dict Hk. unfold get_is_str in H.
  get_at H "signature" v8. get_at H "protocol_version" v6. get_at H "broker_incarnation" v.
  get_at H "database_incarnation" v1. get_at H "connection_sequence" v0.
  get_at H "operation_id" v3. get_at H "request_type" v7. get_at H "nonce" v2.
  get_at H "payload_digest" v5. get_at H "payload" v4.
  apply bind_error_ok in H as (sig & Hsig & H). apply decode_base64url_sound in Hsig as [[= ->] _].
  apply bind_error_ok in H as (unsigned & Hu & H).
  destruct (ed_verify _ _ _) eqn:Hver; cbn [guard res_bind] in H; [|done].
  destruct v6 as [| | | |ver| |]; try discriminate H.
  destruct (bool_decide (ver = _)) eqn:Hb; cbn [guard res_bind] in H; [|done]. breflect. subst.
  next_field H validate_token_ok bi. next_field H validate_token_ok di.
  next_field H validate_sequence_ok sq. next_field H validate_operation_id_ok op.
  next_field H validate_request_type_ok ty. next_field H validate_token_ok no.
  next_field H validate_digest_ok dg.
  destruct v4 as [| | | | | |p]; try discriminate H.
  apply bind_error_ok in H as (d & Hd & H).
  destruct (bool_decide (d = dg)) eqn:Hdg; cbn [guard res_bind] in H; [|done]. breflect. subst.
  injection H as <-. exists sig. split; [exact Hp|]. exists unsigned. split_and!; [exact Hu|done| |done].
  assert (sq <= JSON_INT_MAX).
  { eapply canonical_int_bound; [exact Hc|]. right. left. }
  unfold request_fields_ok. cbn [protocol_version broker_incarnation database_incarnation
    connection_sequence operation_id request_type nonce].
  rewrite !andb_true_iff, !Z.leb_le. split_and!; try done; lia.
Qed.

(** ** Responses *)

Definition status_error_ok (status : pystr) (error : option pystr) : Prop :=
  (status = u"ok" ∧ error = None) ∨
  (status = u"error" ∧ ∃ e, error = Some e ∧ 1 <= zlen e <= 128).

Lemma validate_response_error_ok status v error :
  mem_str status [u"ok"; u"error"] = true → validate_response_error status v = Ok error →
  status_error_ok status error
  ∧ (v = None ∨ v = Some (match error with Some e => JStr e | None => JNull end)).
Proof.
  intros Hs. apply mem_str_spec in Hs. unfold validate_response_error.
  destruct (bool_decide (status = u"ok")) eqn:Hok; breflect.
  - destruct v as [[]|]; try done; intros [= <-]; split; auto; by left.
  - apply elem_of_cons in Hs as [Hs|Hs%list_elem_of_singleton]; [done|].
    destruct v as [[]|]; try done. intros K. inv_ok. breflect. split; [|by right]. right. eauto.
Qed.

(** The response dictionary, signature included, in key order. *)
Definition signed_response_items (r : BrokerResponse) (s : pystr) : list (pystr * json) :=
  take 10 (response_message r) ++ (u"signature", JStr s) :: drop 10 (response_message r).

Lemma verify_response_message {ED : Ed25519} frame key req resp :
  verify_broker_response frame key req = Ok resp →
  response_identity resp = request_identity req ∧ status_error_ok (r_status resp) (r_error resp)
  ∧ ∃ sig unsigned, canonical_json (JObj (response_message resp)) = Ok unsigned
    ∧ ed_verify key sig (RESPONSE_SIGNATURE_DOMAIN ++ unsigned) = true
    ∧ canonical_json (JObj (signed_response_items resp (encode_base64url sig))) = Ok frame
    ∧ zlen frame <= BROKER_RESPONSE_BYTES_MAX
    ∧ parse_canonical_json frame BROKER_RESPONSE_BYTES_MAX
      = Ok (signed_response_items resp (encode_base64url sig)).
Proof.
  unfold verify_broker_response. intros (message & Hp & H)%bind_error_ok.
  apply parse_canonical_sound in Hp as Hs. destruct Hs as (Hc & Hw & Hsort & Hmax).
  destruct (has_keys message RESPONSE_KEYS) eqn:Hk; cbn [guard res_bind] in H; [|done].
  apply has_keys_exact in Hk; [|done|done|by apply (bool_decide_unpack _)|by repeat constructor].
  unfold RESPONSE_KEYS in Hk. split_dict Hk. unfold get_is_str in H.
  get_at H "signature" v9. get_at H "protocol_version" v5. get_at H "broker_incarnation" v.
  get_at H "database_incarnation" v1. get_at H "connection_sequence" v0. get_at H "error" v2.
  get_at H "operation_id" v3. get_at H "request_type" v7. get_at H "request_nonce" v6.
  get_at H "payload_digest" v4. get_at H "result" v8. get_at H "status" v10.
  apply bind_error_ok in H as (sig & Hsig & H). apply decode_base64url_sound in Hsig as [[= ->] _].
  apply bind_error_ok in H as (unsigned & Hu & H).
  destruct (ed_verify _ _ _) eqn:Hver; cbn [guard res_bind] in H; [|done].
  destruct v5 as [| | | |ver| |]; try discriminate H.
  destruct (bool_decide (ver = _)) eqn:Hb; cbn [guard res_bind] in H; [|done]. breflect. subst.
  next_field H validate_token_ok bi. next_field H validate_token_ok di.
  next_field H validate_sequence_ok sq. next_field H validate_operation_id_ok op.
  next_field H validate_request_type_ok ty. next_field H validate_token_ok no.
  next_field H validate_digest_ok dg.
  destruct v10 as [| | | |status| |]; try discriminate H.
  destruct v8 as [| | | | | |result]; try discriminate H.
  destruct (mem_str status _) eqn:Hst; cbn [guard res_bind] in H; [|done].
  apply bind_error_ok in H as (error & He & H).
  apply validate_response_error_ok in He as [Hse [[=]|[= ->]]]; [|done].
  destruct (bool_decide _) eqn:Hid in H; cbn [guard res_bind] in H; [|done]. breflect.
  injection H as <-. split_and!; [done|done|]. by exists sig, unsigned.
Qed.

Lemma has_signed_response_keys r s : has_keys (signed_response_items r s) RESPONSE_KEYS = true.
Proof. reflexivity. Qed.

Lemma validate_response_error_complete status error :
  status_error_ok status error →
  validate_response_error status (Some (match error with Some e => JStr e | None => JNull end))
  = Ok error.
Proof.
  intros [[-> ->]|(-> & e & -> & He)]; [done|]. cbn [validate_response_error].
  unfold validate_response_error. rewrite bool_decide_eq_false_2 by done.
  by rewrite !(proj2 (Z.leb_le _ _)) by lia.
Qed.

Lemma verify_message_response {ED : Ed25519} req resp key sig unsigned frame :
  parse_canonical_json frame BROKER_RESPONSE_BYTES_MAX
    = Ok (signed_response_items resp (encode_base64url sig)) →
  decode_base64url (Some (JStr (encode_base64url sig))) 64 = Ok sig →
  canonical_json (JObj (response_message resp)) = Ok unsigned →
  ed_verify key sig (RESPONSE_SIGNATURE_DOMAIN ++ unsigned) = true →
  request_fields_ok req = true → DIGEST_PATTERN (payload_digest_ req) = true →
  response_identity resp = request_identity req → status_error_ok (r_status resp) (r_error resp) →
  verify_broker_response frame key req = Ok resp.
Proof.
  intros Hp Hd Hu Hver Hf Hdp Hid Hse. unfold verify_broker_response. rewrite Hp. cbn [res_bind].
  rewrite has_signed_response_keys. cbn [guard res_bind].
  change (dict_get (u"signature") _) with (Some (JStr (encode_base64url sig))).
  rewrite Hd. cbn [res_bind]. unfold unsigned_message.
  change (dict_pop (u"signature") _) with (response_message resp). rewrite Hu. cbn [res_bind].
  rewrite Hver. cbn [guard res_bind].
  change (get_is_str _ _ _) with (bool_decide (r_protocol_version resp = BROKER_PROTOCOL_VERSION)).
  change (dict_get (u"broker_incarnation") _) with (Some (JStr (r_broker_incarnation resp))).
  change (dict_get (u"database_incarnation") _) with (Some (JStr (r_database_incarnation resp))).
  change (dict_get (u"connection_sequence") _) with (Some (JInt (r_connection_sequence resp))).
  change (dict_get (u"operation_id") _) with (Some (JStr (r_operation_id resp))).
  change (dict_get (u"request_type") _) with (Some (JStr (r_request_type resp))).
  change (dict_get (u"request_nonce") _) with (Some (JStr (r_request_nonce resp))).
  change (dict_get (u"payload_digest") _) with (Some (JStr (r_payload_digest resp))).
  change (dict_get (u"status") _) with (Some (JStr (r_status resp))).
  change (dict_get (u"result") _) with (Some (JObj (r_result resp))).
  change (dict_get (u"error") _) with
    (Some (match r_error resp with Some e => JStr e | None => JNull end)).
  unfold response_identity, request_identity in Hid. injection Hid as H1 H2 H3 H4 H5 H6 H7 H8.
  unfold request_fields_ok in Hf. rewrite <- H1, <- H2, <- H3, <- H4, <- H5, <- H6, <- H7 in Hf.
  rewrite <- H8 in Hdp. breflect. rewrite bool_decide_eq_true_2 by done. cbn [guard res_bind].
  unfold validate_token, validate_sequence, validate_operation_id, validate_request_type,
    validate_digest, JSON_INT_MAX in *.
  repeat (match goal with H : ?b = true |- context [guard ?b] => rewrite H end; cbn [guard res_bind]).
  rewrite !(proj2 (Z.leb_le _ _)) by lia. cbn [andb guard res_bind].
  repeat (match goal with H : ?b = true |- context [guard ?b] => rewrite H end; cbn [guard res_bind]).
  assert (mem_str (r_status resp) [u"ok"; u"error"] = true) as ->
    by (destruct Hse as [[-> _]|[-> _]]; reflexivity).
  cbn [guard res_bind]. rewrite validate_response_error_complete by done. cbn [res_bind].
  rewrite bool_decide_eq_true_2.
  - cbn [guard res_bind]. destruct resp; cbn in *. by subst.
  - unfold response_identity, request_identity.
    cbn [r_protocol_version r_broker_incarnation r_database_incarnation r_connection_sequence
      r_operation_id r_request_type r_request_nonce r_payload_digest].
    rewrite <- H1, <- H2, <- H3, <- H4, <- H5, <- H6, <- H7, <- H8.
    by match goal with H : r_protocol_version resp = BROKER_PROTOCOL_VERSION |- _ => rewrite H end.
Qed.

(** * Properties *)

(** C1. Canonical JSON is recognised exactly: [_parse_canonical_json] returns a
    dictionary iff the frame is the canonical encoding of that dictionary,
    the dictionary has distinct, sorted keys at every depth, and the frame is
    within its size limit. In particular the accepted frame of a dictionary is
    unique. *)
Theorem parse_canonical_json_iff (frame : pybytes) (maximum : Z) (l : list (pystr * json)) :
  parse_canonical_json frame maximum = Ok l ↔
  canonical_json (JObj l) = Ok frame ∧ wf_dicts (JObj l) = true ∧ sort_json (JObj l) = JObj l
  ∧ zlen frame <= maximum.
Proof.
  split; [apply parse_canonical_sound|]. intros (Hc & Hw & Hs & Hm).
  destruct (parse_canonical_complete _ _ _ Hc Hw Hm) as (l' & Hl' & Hp). congruence.
Qed.

(** Decoding a frame raises [BrokerProtocolError], or one of the two errors
    the decoder does not translate: [UnicodeEncodeError] (a lone surrogate
    escape reaches [str.encode]) or a plain [ValueError] (the interpreter's
    limit on integer digits). *)
Theorem parse_canonical_json_errors (frame : pybytes) (maximum : Z) (e : exn) :
  parse_canonical_json frame maximum = Raise e →
  exn_class e = BrokerProtocolError ∨ exn_class e = UnicodeEncodeError ∨ exn_class e = ValueError.
Proof.
  assert (Hval : ∀ e, exn_class e = BrokerProtocolError ∨ exn_class e = UnicodeEncodeError →
                      protocol_error e) by (unfold protocol_error; tauto).
  unfold parse_canonical_json. intros [H|(_ & _ & H)]%bind_error.
  { unfold guard in H. destruct (_ && _); [done|]. injection H as <-. by left. }
  apply bind_error in H as [H|(v & _ & H)].
  - destruct (let! text := utf8_decode frame in _) as [|e'] eqn:El; [done|]. cbn [reraise_as] in H.
    destruct (caught e' _) eqn:Ec; [injection H as <-; by left|]. injection H as <-.
    apply bind_error in El as [El|(t & _ & El)].
    + apply (utf8_decode_error (length frame)) in El; [|done].
      unfold caught in Ec. cbn in Ec. by rewrite El in Ec.
    + apply (loads_error _ _ _ (fun x => protocol_error x ∨ exn_class x = JSONDecodeError)) in El.
      * destruct El as [El|El]; [done|]. unfold caught in Ec. cbn in Ec. by rewrite El in Ec.
      * intros s x [= <-]. left. by left.
      * intros s x [= <-]. left. by left.
      * intros l x Hx. left. left. unfold unique_object in Hx.
        apply bind_error in Hx as [Hx|(d & _ & Hx)]; [|done].
        revert Hx. generalize (@nil (pystr * json)). induction l as [|kv l IH]; intros seen; cbn [unique_pairs]; [done|].
        destruct (bool_decide _); [by intros [= <-]|apply IH].
      * auto.
      * intros m. left. by do 2 right.
  - apply bind_error in H as [H|(w & _ & H)]; [by eapply Hval, validate_json_error|].
    destruct w; try (injection H as <-; by left).
    apply bind_error in H as [H|(c & _ & H)]; [by eapply Hval, canonical_json_error|].
    apply bind_error in H as [H|(c' & _ & H)]; [|done].
    unfold guard in H. destruct (bool_decide _); [done|]. injection H as <-. by left.
Qed.

Lemma parse_canonical_json_errors_witness :
  parse_canonical_json (u"{}}") 100 = Raise (Exn BrokerProtocolError "JSON frame is invalid")
  ∧ (exn_class (Exn BrokerProtocolError "JSON frame is invalid") = BrokerProtocolError
     ∨ exn_class (Exn BrokerProtocolError "JSON frame is invalid") = UnicodeEncodeError
     ∨ exn_class (Exn BrokerProtocolError "JSON frame is invalid") = ValueError).
Proof.
  split; [reflexivity|]. apply (parse_canonical_json_errors (u"{}}") 100). reflexivity.
Defined.

(** A frame holding a lone surrogate escape is malformed input that escapes
    the protocol's own error class: the decoder raises [UnicodeEncodeError],
    which is not a [BrokerProtocolError]. *)
Theorem lone_surrogate_frame_escapes :
  parse_canonical_json ([123; 34; 97; 34; 58; 34] ++ u_escape 55296 ++ [34; 125])
    BROKER_FRAME_BYTES_MAX
  = Raise (Exn UnicodeEncodeError "surrogates not allowed")
  ∧ subclass UnicodeEncodeError BrokerProtocolError = false.
Proof. split; reflexivity. Qed.

Section Properties.
Context {SHA : Sha256} {ED : Ed25519}.

(** A request created with valid fields is accepted by the parser under
    the matching public key, and comes back with every field unchanged (the
    payload with its keys in canonical order). *)
Theorem signed_request_round_trip {SL : Sha256Laws} {EL : Ed25519Laws}
    (key : private_key) (r : BrokerRequest) (frame : pybytes) :
  request_fields_ok r = true → wf_dicts (JObj (payload r)) = true →
  payload_digest (JObj (payload r)) = Ok (payload_digest_ r) →
  create_signed_request key (protocol_version r) (broker_incarnation r) (database_incarnation r)
    (connection_sequence r) (operation_id r) (request_type r) (nonce r) (payload r) = Ok frame →
  ∃ p, sort_json (JObj (payload r)) = JObj p
       ∧ parse_signed_request frame (public_of key) = Ok (sorted_request r p).
Proof.
  intros Hf Hw Hd Hc. unfold create_signed_request in Hc. rewrite Hd in Hc. cbn [res_bind] in Hc.
  match type of Hc with context [request_message ?x] => replace x with r in Hc by (by destruct r) end.
  apply bind_error_ok in Hc as (unsigned & Hu & Hc).
  set (sig := ed_sign key _) in Hc. eexists. split; [reflexivity|]. set (p := sort_items _).
  assert (Hp : sort_json (JObj (payload r)) = JObj p) by done.
  destruct (sort_request_message r p (encode_base64url sig) Hp) as [Hs1 Hs2].
  apply canonical_json_spec in Hc as Hc'. destruct Hc' as (_ & _ & Hlen).
  destruct (parse_canonical_complete _ _ BROKER_FRAME_BYTES_MAX Hc) as (l & Hl & Hparse);
    [by apply wf_request_message|done|].
  rewrite Hs1 in Hl. injection Hl as <-.
  eapply parse_message_request.
  - exact Hparse.
  - apply decode_encode_base64url; [apply ed_sign_bytes| |].
    + unfold zlen, sig. by rewrite ed_sign_length.
    + intros E. pose proof (ed_sign_length key (REQUEST_SIGNATURE_DOMAIN ++ unsigned)) as Hl64.
      fold sig in Hl64. by rewrite E in Hl64.
  - rewrite <- Hs2. by apply canonical_json_sort.
  - apply ed_verify_sign.
  - exact Hf.
  - cbn. by eapply payload_digest_pattern.
  - cbn [payload payload_digest_ sorted_request]. rewrite <- Hp. by apply payload_digest_sort.
Qed.

(** C2. Authenticity: an accepted request was signed. The verified bytes are the
    domain-separated canonical encoding of exactly the fields the parser
    returns, the frame is that encoding with the signature added, and the
    payload matches its digest. *)
Theorem parse_signed_request_authentic (key : public_key) (r : BrokerRequest) (frame : pybytes) :
  parse_signed_request frame key = Ok r →
  ∃ sig unsigned,
    canonical_json (JObj (request_message r)) = Ok unsigned
    ∧ ed_verify key sig (REQUEST_SIGNATURE_DOMAIN ++ unsigned) = true
    ∧ canonical_json (JObj (request_message r ++ [(u"signature", JStr (encode_base64url sig))]))
      = Ok frame
    ∧ request_fields_ok r = true
    ∧ payload_digest (JObj (payload r)) = Ok (payload_digest_ r).
Proof.
  intros H. apply parse_request_message in H as (sig & Hp & Hr). exists sig.
  apply parse_canonical_sound in Hp as (Hc & _). destruct Hr as (unsigned & Hu & Hv & Hf & Hd).
  by exists unsigned.
Qed.

(** A response created for a request is accepted by the requester under the
    broker's public key and returns the status, error and result that were
    sent (the result with its keys in canonical order). *)
Theorem signed_response_round_trip {EL : Ed25519Laws} (key : private_key) (req : BrokerRequest)
    (status : pystr) (error : option pystr) (result : list (pystr * json)) (frame : pybytes) :
  request_fields_ok req = true → DIGEST_PATTERN (payload_digest_ req) = true →
  wf_dicts (JObj result) = true →
  create_signed_response req key status error result = Ok frame →
  ∃ p, sort_json (JObj result) = JObj p
       ∧ verify_broker_response frame (public_of key) req = Ok (response_to req status error p).
Proof.
  intros Hf Hd Hw Hc. eexists. split; [reflexivity|]. set (p := sort_items _).
  unfold create_signed_response in Hc.
  destruct (mem_str status _) eqn:Hst; cbn [guard res_bind] in Hc; [|done].
  apply bind_error_ok in Hc as ([] & He1 & Hc). apply bind_error_ok in Hc as ([] & He2 & Hc).
  apply bind_error_ok in Hc as ([] & He3 & Hc). apply bind_error_ok in Hc as (unsigned & Hu & Hc).
  apply bind_error_ok in Hc as (response & Hr & Hc). inv_ok. breflect.
  set (sig := ed_sign key _) in Hr.
  assert (Hs1 : sort_json (JObj (response_message (response_to req status error result)
                  ++ [(u"signature", JStr (encode_base64url sig))]))
                = JObj (signed_response_items (response_to req status error p) (encode_base64url sig)))
    by (by destruct error).
  assert (Hs2 : sort_json (JObj (response_message (response_to req status error result)))
                = JObj (response_message (response_to req status error p))) by (by destruct error).
  destruct (parse_canonical_complete _ _ BROKER_RESPONSE_BYTES_MAX Hr) as (l & Hl & Hparse); [|done|].
  { cbn [wf_dicts] in *. apply andb_true_iff. split; [by apply (bool_decide_unpack _)|].
    cbn [forallb app response_message snd r_result r_error response_to wf_dicts]. rewrite Hw.
    by destruct error. }
  rewrite Hs1 in Hl. injection Hl as <-.
  eapply verify_message_response; [exact Hparse| | | |done|done|done|].
  - apply decode_encode_base64url; [apply ed_sign_bytes| |].
    + unfold zlen, sig. by rewrite ed_sign_length.
    + intros E. pose proof (ed_sign_length key (RESPONSE_SIGNATURE_DOMAIN ++ unsigned)) as Hl64.
      fold sig in Hl64. by rewrite E in Hl64.
  - rewrite <- Hs2. by apply canonical_json_sort.
  - apply ed_verify_sign.
  - cbn. apply mem_str_spec, elem_of_cons in Hst as [->|Hst]; [|apply list_elem_of_singleton in Hst as ->].
    + left. split; [done|]. by destruct error.
    + right. split; [done|]. destruct error as [e|]; [|done]. exists e. breflect. done.
Qed.

(** A verified response is bound to the request it answers: every identity
    field equals the request's, an error text is present exactly when the
    status is an error, and the broker's signature covers all of it under the
    response domain. *)
Theorem verify_broker_response_bound (key : public_key) (req : BrokerRequest)
    (resp : BrokerResponse) (frame : pybytes) :
  verify_broker_response frame key req = Ok resp →
  resp = response_to req (r_status resp) (r_error resp) (r_result resp)
  ∧ status_error_ok (r_status resp) (r_error resp)
  ∧ ∃ sig unsigned, canonical_json (JObj (response_message resp)) = Ok unsigned
      ∧ ed_verify key sig (RESPONSE_SIGNATURE_DOMAIN ++ unsigned) = true.
Proof.
  intros (Hid & Hse & sig & unsigned & Hu & Hv & _)%verify_response_message. split_and!; [|done|eauto].
  unfold response_identity, request_identity in Hid. destruct resp. cbn in *. unfold response_to.
  by simplify_eq/=.
Qed.
End Properties.

(** ** A concrete request, for the witnesses *)

Definition toy_request : BrokerRequest := {|
  protocol_version := BROKER_PROTOCOL_VERSION;
  broker_incarnation := u"broker-incarnation-1"; database_incarnation := u"database-incarnation";
  connection_sequence := 7; operation_id := repeat 97 32; request_type := u"executor.launch";
  nonce := u"nonce-0123456789"; payload_digest_ := repeat 48 64;
  payload := [(u"workspace", JStr (u"w1")); (u"limit", JInt 3)] |}.

Definition toy_frame : pybytes :=
  match @create_signed_request toy_sha256 toy_ed25519 tt (protocol_version toy_request)
    (broker_incarnation toy_request) (database_incarnation toy_request)
    (connection_sequence toy_request) (operation_id toy_request) (request_type toy_request)
    (nonce toy_request) (payload toy_request) with Ok f => f | Raise _ => [] end.
Definition toy_response_frame : pybytes :=
  match @create_signed_response toy_ed25519 toy_request tt (u"ok") None [(u"stage", JNull)] with
  Ok f => f | Raise _ => [] end.

Lemma signed_request_round_trip_witness :
  toy_frame ≠ [] ∧
  ∃ p, sort_json (JObj (payload toy_request)) = JObj p
       ∧ @parse_signed_request toy_sha256 toy_ed25519 toy_frame tt = Ok (sorted_request toy_request p).
Proof.
  split; [vm_compute; discriminate|].
  apply (@signed_request_round_trip toy_sha256 toy_ed25519 toy_sha256_laws toy_ed25519_laws
           tt toy_request toy_frame); vm_compute; reflexivity.
Defined.

Lemma parse_signed_request_authentic_witness :
  ∃ r sig unsigned,
    @parse_signed_request toy_sha256 toy_ed25519 toy_frame tt = Ok r
    ∧ canonical_json (JObj (request_message r)) = Ok unsigned
    ∧ @ed_verify toy_ed25519 tt sig (REQUEST_SIGNATURE_DOMAIN ++ unsigned) = true.
Proof.
  set (r := sorted_request toy_request [(u"limit", JInt 3); (u"workspace", JStr (u"w1"))]).
  assert (H : @parse_signed_request toy_sha256 toy_ed25519 toy_frame tt = Ok r)
    by (vm_compute; reflexivity).
  destruct (@parse_signed_request_authentic toy_sha256 toy_ed25519 tt r toy_frame H)
    as (sig & unsigned & Hu & Hv & _).
  exists r, sig, unsigned. exact (conj H (conj Hu Hv)).
Defined.

Lemma signed_response_round_trip_witness :
  toy_response_frame ≠ [] ∧
  ∃ p, sort_json (JObj [(u"stage", JNull)]) = JObj p
       ∧ @verify_broker_response toy_ed25519 toy_response_frame tt toy_request
         = Ok (response_to toy_request (u"ok") None p).
Proof.
  split; [vm_compute; discriminate|].
  apply (@signed_response_round_trip toy_ed25519 toy_ed25519_laws tt toy_request (u"ok") None
           [(u"stage", JNull)] toy_response_frame); vm_compute; reflexivity.
Defined.

Lemma verify_broker_response_bound_witness :
  ∃ resp, @verify_broker_response toy_ed25519 toy_response_frame tt toy_request = Ok resp
  ∧ resp = response_to toy_request (r_status resp) (r_error resp) (r_result resp).
Proof.
  set (resp := response_to toy_request (u"ok") None [(u"stage", JNull)]).
  assert (H : @verify_broker_response toy_ed25519 toy_response_frame tt toy_request = Ok resp)
    by (vm_compute; reflexivity).
  destruct (@verify_broker_response_bound toy_ed25519 tt toy_request resp toy_response_frame H)
    as (Hr & _).
  exists resp. exact (conj H Hr).
Defined.
