(* ===== verification/BrokerJournal.v ===== *)
(** * The broker journal

    Models [services/broker_journal.py]: the append-only SQLite table of
    broker lifecycle events with its CHECK constraint, partial unique indexes
    and triggers; the validator that runs on every open; the operations
    [accept], [claim_lifecycle], [begin_stage], [record_stage_outcome],
    [record_stage_unresolved], [status] and [incomplete_lifecycles] with the
    verification of uncertain commits; and the read-only inspection of a
    legacy v1 journal. *)

From S2P Require Import Prelude Text Json Crypto BrokerProtocol.

(** ** Rows *)

Inductive ev_type := Accepted | LifecycleClaimed | StageStarted | StageOutcome | StageUnresolved.
#[export] Instance ev_type_eq_dec : EqDecision ev_type.
Proof. solve_decision. Defined.

Inductive stage := Prepare | RuntimeSetup | Launch.
#[export] Instance stage_eq_dec : EqDecision stage.
Proof. solve_decision. Defined.

Definition stage_name (s : stage) : pystr :=
  match s with
  | Prepare => u"prepare" | RuntimeSetup => u"runtime_setup" | Launch => u"launch"
  end.

(** Membership in [_STAGES], as the stage it names. *)
Definition stage_of_name (n : pystr) : option stage :=
  if bool_decide (n = u"prepare") then Some Prepare
  else if bool_decide (n = u"runtime_setup") then Some RuntimeSetup
  else if bool_decide (n = u"launch") then Some Launch
  else None.

Definition UNRESOLVED_REASONS : list pystr :=
  [u"transport_unknown"; u"timeout_unknown"; u"cancellation_unknown"; u"verification_unknown";
   u"sqlite_commit_unknown"; u"broker_restart_unknown"].

Definition STAGE_STATUSES (s : stage) : list pystr :=
  match s with
  | Prepare => [u"prepared"; u"rejected"]
  | RuntimeSetup => [u"runtime_ready"]
  | Launch => [u"launched"; u"rejected"]
  end.

Definition ident : Type := (pystr * pystr * pystr)%type.

(** One row of [broker_journal_events]; [None] is SQL's NULL. *)
Record event := {
  ev_identity : ident;
  ev_kind : ev_type;
  ev_stage : option stage;
  ev_nonce : option pystr;
  ev_sequence : option Z;
  ev_digest : option pystr;
  ev_request_frame : option pybytes;
  ev_broker : option pystr;
  ev_owner : option pystr;
  ev_status : option pystr;
  ev_error : option pystr;
  ev_reason : option pystr;
  ev_response : option pybytes;
}.

(** The rows the INSERT statements of the operations build. *)
Definition accepted_event (i : ident) (n : pystr) (seq : Z) (digest : pystr) (frame : pybytes) : event :=
  {| ev_identity := i; ev_kind := Accepted; ev_stage := None; ev_nonce := Some n;
     ev_sequence := Some seq; ev_digest := Some digest; ev_request_frame := Some frame;
     ev_broker := None; ev_owner := None; ev_status := None; ev_error := None;
     ev_reason := None; ev_response := None |}.
Definition claimed_event (i : ident) (broker owner : pystr) : event :=
  {| ev_identity := i; ev_kind := LifecycleClaimed; ev_stage := None; ev_nonce := None;
     ev_sequence := None; ev_digest := None; ev_request_frame := None;
     ev_broker := Some broker; ev_owner := Some owner; ev_status := None; ev_error := None;
     ev_reason := None; ev_response := None |}.
Definition started_event (i : ident) (s : stage) (owner : pystr) : event :=
  {| ev_identity := i; ev_kind := StageStarted; ev_stage := Some s; ev_nonce := None;
     ev_sequence := None; ev_digest := None; ev_request_frame := None;
     ev_broker := None; ev_owner := Some owner; ev_status := None; ev_error := None;
     ev_reason := None; ev_response := None |}.
Definition outcome_event (i : ident) (s : stage) (owner status : pystr) (error : option pystr)
    (response : option pybytes) : event :=
  {| ev_identity := i; ev_kind := StageOutcome; ev_stage := Some s; ev_nonce := None;
     ev_sequence := None; ev_digest := None; ev_request_frame := None;
     ev_broker := None; ev_owner := Some owner; ev_status := Some status; ev_error := error;
     ev_reason := None; ev_response := response |}.
Definition unresolved_event (i : ident) (s : stage) (owner reason : pystr) (response : pybytes) : event :=
  {| ev_identity := i; ev_kind := StageUnresolved; ev_stage := Some s; ev_nonce := None;
     ev_sequence := None; ev_digest := None; ev_request_frame := None;
     ev_broker := None; ev_owner := Some owner; ev_status := None; ev_error := None;
     ev_reason := Some reason; ev_response := Some response |}.

(** The rows of one operation, in [event_id] order. *)
Definition rows_for (i : ident) (db : list event) : list event :=
  filter (fun r => ev_identity r = i) db.

(** ** Constraints of the table *)

Definition isnull {A} (o : option A) : bool := match o with None => true | Some _ => false end.
Definition notnull {A} (o : option A) : bool := negb (isnull o).
Definition is_launch (o : option stage) : bool := bool_decide (o = Some Launch).
Definition is_rejected (o : option pystr) : bool := bool_decide (o = Some (u"rejected")).

(** The CHECK of the table, one disjunct per event type. *)
Definition row_check (e : event) : bool :=
  match ev_kind e with
  | Accepted =>
      isnull (ev_stage e) && notnull (ev_nonce e) && notnull (ev_sequence e)
      && notnull (ev_digest e) && notnull (ev_request_frame e) && isnull (ev_broker e)
      && isnull (ev_owner e) && isnull (ev_status e) && isnull (ev_error e)
      && isnull (ev_reason e) && isnull (ev_response e)
  | LifecycleClaimed =>
      isnull (ev_stage e) && isnull (ev_nonce e) && isnull (ev_sequence e)
      && isnull (ev_digest e) && isnull (ev_request_frame e) && notnull (ev_broker e)
      && notnull (ev_owner e) && isnull (ev_status e) && isnull (ev_error e)
      && isnull (ev_reason e) && isnull (ev_response e)
  | StageStarted =>
      notnull (ev_stage e) && isnull (ev_nonce e) && isnull (ev_sequence e)
      && isnull (ev_digest e) && isnull (ev_request_frame e) && isnull (ev_broker e)
      && notnull (ev_owner e) && isnull (ev_status e) && isnull (ev_error e)
      && isnull (ev_reason e) && isnull (ev_response e)
  | StageOutcome =>
      notnull (ev_stage e) && isnull (ev_nonce e) && isnull (ev_sequence e)
      && isnull (ev_digest e) && isnull (ev_request_frame e) && isnull (ev_broker e)
      && notnull (ev_owner e) && notnull (ev_status e)
      && ((is_rejected (ev_status e) && notnull (ev_error e))
          || (negb (is_rejected (ev_status e)) && isnull (ev_error e)))
      && isnull (ev_reason e)
      && Bool.eqb (is_launch (ev_stage e) || is_rejected (ev_status e)) (notnull (ev_response e))
  | StageUnresolved =>
      notnull (ev_stage e) && isnull (ev_nonce e) && isnull (ev_sequence e)
      && isnull (ev_digest e) && isnull (ev_request_frame e) && isnull (ev_broker e)
      && notnull (ev_owner e) && isnull (ev_status e) && isnull (ev_error e)
      && notnull (ev_reason e) && notnull (ev_response e)
  end.

(** A row that ends its lifecycle. *)
Definition terminal_row (r : event) : bool :=
  bool_decide (ev_kind r = StageUnresolved)
  || (bool_decide (ev_kind r = StageOutcome)
      && (is_launch (ev_stage r) || is_rejected (ev_status r))).

Definition is_kind (k : ev_type) (r : event) : bool := bool_decide (ev_kind r = k).
Definition is_completion (r : event) : bool := is_kind StageOutcome r || is_kind StageUnresolved r.
(** SQL equality on a nullable column: NULL equals nothing. *)
Definition sql_eq {A} `{EqDecision A} (a b : option A) : bool :=
  match a, b with Some x, Some y => bool_decide (x = y) | _, _ => false end.

(** The seven partial unique indexes. *)
Definition unique_ok (db : list event) (e : event) : bool :=
  let rows := rows_for (ev_identity e) db in
  let accepted := List.filter (is_kind Accepted) db in
  let same_database r := bool_decide ((ev_identity r).1.1 = (ev_identity e).1.1) in
  (negb (is_kind Accepted e) || negb (existsb (is_kind Accepted) rows))
  && (negb (is_kind Accepted e)
      || negb (existsb (fun r => same_database r && sql_eq (ev_nonce r) (ev_nonce e)) accepted))
  && (negb (is_kind Accepted e)
      || negb (existsb (fun r => same_database r && sql_eq (ev_sequence r) (ev_sequence e)) accepted))
  && (negb (is_kind LifecycleClaimed e) || negb (existsb (is_kind LifecycleClaimed) rows))
  && (negb (is_kind StageStarted e)
      || negb (existsb (fun r => is_kind StageStarted r && sql_eq (ev_stage r) (ev_stage e)) rows))
  && (negb (is_completion e)
      || negb (existsb (fun r => is_completion r && sql_eq (ev_stage r) (ev_stage e)) rows))
  && (negb (terminal_row e) || negb (existsb terminal_row rows)).

(** The trigger [broker_journal_require_transition]. *)
Definition trigger_check (db : list event) (e : event) : res unit :=
  if is_kind Accepted e then Ok tt
  else
    let rows := rows_for (ev_identity e) db in
    check! guard (existsb (is_kind Accepted) rows) IntegrityError
      "broker journal acceptance is missing" in
    check! guard (is_kind LifecycleClaimed e
        || existsb (fun r => is_kind LifecycleClaimed r && sql_eq (ev_owner r) (ev_owner e)) rows)
      IntegrityError "broker journal lifecycle ownership is missing" in
    check! guard (negb (is_completion e)
        || existsb (fun r => is_kind StageStarted r && sql_eq (ev_stage r) (ev_stage e)
                             && sql_eq (ev_owner r) (ev_owner e)) rows)
      IntegrityError "broker journal stage start is missing" in
    check! guard (negb (is_kind StageStarted e && sql_eq (ev_stage e) (Some RuntimeSetup))
        || existsb (fun r => is_kind StageOutcome r && sql_eq (ev_stage r) (Some Prepare)
                             && sql_eq (ev_status r) (Some (u"prepared"))) rows)
      IntegrityError "broker journal prepare outcome is missing" in
    check! guard (negb (is_kind StageStarted e && sql_eq (ev_stage e) (Some Launch))
        || existsb (fun r => is_kind StageOutcome r && sql_eq (ev_stage r) (Some RuntimeSetup)
                             && sql_eq (ev_status r) (Some (u"runtime_ready"))) rows)
      IntegrityError "broker journal runtime outcome is missing" in
    guard (negb (existsb terminal_row rows)) IntegrityError
      "broker journal terminal state is immutable".

(** INSERT: the BEFORE trigger, the CHECK, then the unique indexes. *)
Definition insert_event (db : list event) (e : event) : res (list event) :=
  check! trigger_check db e in
  check! guard (row_check e) IntegrityError "CHECK constraint failed" in
  check! guard (unique_ok db e) IntegrityError "UNIQUE constraint failed" in
  Ok (db ++ [e]).

(** ** Validation on open *)

Definition malformed_frame : string := "broker journal contains a malformed stored frame".

Definition validate_stored_json (frame : option pybytes) (maximum : Z) : res unit :=
  match frame with
  | None => raise JournalSyncError malformed_frame
  | Some f =>
      check! guard (negb (bool_decide (f = [])) && (zlen f <=? maximum)) JournalSyncError
        malformed_frame in
      let! value := reraise_as (loads_default f) [UnicodeDecodeError; JSONDecodeError]
        JournalSyncError malformed_frame in
      match value with
      | JObj _ =>
          let! c := canonical_json value in
          guard (bool_decide (c = f)) JournalSyncError malformed_frame
      | _ => raise JournalSyncError malformed_frame
      end
  end.

(** Python's [==] between a decoded value and a column. *)
Definition json_is_str (v : option json) (c : option pystr) : bool :=
  match v, c with
  | Some (JStr s), Some t => bool_decide (s = t)
  | None, None | Some JNull, None => true
  | _, _ => false
  end.
Definition json_is_int (v : option json) (c : option Z) : bool :=
  match v, c with
  | Some (JInt z), Some n => z =? n
  | Some (JBool b), Some n => (if b then 1 else 0) =? n
  | None, None | Some JNull, None => true
  | _, _ => false
  end.

(** [(event_type, stage, status)] *)
Definition hist_item : Type := (ev_type * option stage * option pystr)%type.
Definition item_of (e : event) : hist_item := (ev_kind e, ev_stage e, ev_status e).

Definition opt_matches (p : pystr → bool) (o : option pystr) : bool :=
  match o with Some s => p s | None => false end.

Definition validate_accepted (history : list hist_item) (e : event) : res unit :=
  check! guard (bool_decide (history = []) && opt_matches DIGEST_PATTERN (ev_digest e))
    JournalSyncError "broker journal accepted event is invalid" in
  check! validate_stored_json (ev_request_frame e) BROKER_FRAME_BYTES_MAX in
  match ev_request_frame e with
  | None => raise JournalSyncError malformed_frame
  | Some f =>
      let! message := loads_default f in
      match message with
      | JObj m =>
          guard (json_is_str (dict_get (u"database_incarnation") m) (Some (ev_identity e).1.1)
                 && json_is_str (dict_get (u"operation_id") m) (Some (ev_identity e).1.2)
                 && json_is_str (dict_get (u"request_type") m) (Some (ev_identity e).2)
                 && json_is_str (dict_get (u"nonce") m) (ev_nonce e)
                 && json_is_str (dict_get (u"payload_digest") m) (ev_digest e)
                 && json_is_int (dict_get (u"connection_sequence") m) (ev_sequence e))
            JournalSyncError "broker journal accepted frame binding is invalid"
      | _ => raise JournalSyncError "broker journal accepted frame binding is invalid"
      end
  end.

Definition order_error : string := "broker journal stage start order is invalid".

Definition validate_stage_start (history : list hist_item) (s : option stage) : res unit :=
  match history with
  | (Accepted, _, _) :: (LifecycleClaimed, _, _) :: rest =>
      if bool_decide (s = Some Prepare) && bool_decide (rest = []) then Ok tt
      else
        let expected :=
          match s with
          | Some RuntimeSetup => Some (StageOutcome, Some Prepare, Some (u"prepared"))
          | Some Launch => Some (StageOutcome, Some RuntimeSetup, Some (u"runtime_ready"))
          | _ => None
          end in
        match expected with
        | None => raise JournalSyncError order_error
        | Some x => guard (bool_decide (last history = Some x)) JournalSyncError order_error
        end
  | _ => raise JournalSyncError order_error
  end.

(** The validator's two dictionaries. *)
Record vstate := { histories : gmap ident (list hist_item); owner_tokens : gmap ident pystr }.

Definition history_of (v : vstate) (i : ident) : list hist_item :=
  default [] (histories v !! i).

Definition validate_claim (history : list hist_item) (e : event) : res unit :=
  check! guard (bool_decide (map (fun x => x.1.1) history = [Accepted]))
    JournalSyncError "broker journal claim event order is invalid" in
  guard (opt_matches TOKEN_PATTERN (ev_broker e) && opt_matches TOKEN_PATTERN (ev_owner e))
    JournalSyncError "broker journal lifecycle owner is malformed".

Definition validate_completion (history : list hist_item) (e : event) : res unit :=
  match ev_stage e with
  | None => raise JournalSyncError "broker journal stage outcome order is invalid"
  | Some s =>
      check! guard (existsb (fun x => bool_decide (x.1 = (StageStarted, Some s))) history)
        JournalSyncError "broker journal stage outcome order is invalid" in
      check! guard (negb (is_kind StageOutcome e)
          || opt_matches (fun t => mem_str t (STAGE_STATUSES s)) (ev_status e))
        JournalSyncError "broker journal stage outcome is invalid" in
      check! guard (negb (is_kind StageUnresolved e)
          || opt_matches (fun t => mem_str t UNRESOLVED_REASONS) (ev_reason e))
        JournalSyncError "broker journal unresolved reason is invalid" in
      match ev_response e with
      | None => Ok tt
      | Some _ => validate_stored_json (ev_response e) BROKER_RESPONSE_BYTES_MAX
      end
  end.

(** One iteration of the loop of [_validate_events]. *)
Definition validate_row (v : vstate) (e : event) : res vstate :=
  let i := ev_identity e in
  let history := history_of v i in
  let! owners :=
    match ev_kind e with
    | Accepted => check! validate_accepted history e in Ok (owner_tokens v)
    | LifecycleClaimed =>
        check! validate_claim history e in
        Ok (<[i := default [] (ev_owner e)]> (owner_tokens v))
    | _ =>
        check! guard (bool_decide (ev_owner e = owner_tokens v !! i)) JournalSyncError
          "broker journal lifecycle owner changed" in
        check! (if is_kind StageStarted e then validate_stage_start history (ev_stage e)
                else validate_completion history e) in
        Ok (owner_tokens v)
    end in
  Ok {| histories := <[i := history ++ [item_of e]]> (histories v); owner_tokens := owners |}.

Definition validate_from (v : vstate) (db : list event) : res vstate :=
  fold_left (fun acc e => let! v := acc in validate_row v e) db (Ok v).

Definition validate_events (db : list event) : res unit :=
  let! _ := validate_from {| histories := ∅; owner_tokens := ∅ |} db in Ok tt.

(** What SQLite reports of the file besides its event rows: whether
    [PRAGMA integrity_check] answers "ok", whether [sqlite_master] is empty,
    the expected schema, or anything else, and the rows of the meta table. *)
Inductive schema := SchemaEmpty | SchemaExpected | SchemaOther.
#[export] Instance schema_eq_dec : EqDecision schema.
Proof. solve_decision. Defined.

Definition BROKER_JOURNAL_SCHEMA_VERSION : Z := 2.

Record journal := {
  jn_integrity : bool;
  jn_schema : schema;
  jn_meta : list (Z * pystr * Z);
  jn_events : list event;
}.

Definition with_events (j : journal) (db : list event) : journal := {|
  jn_integrity := jn_integrity j; jn_schema := jn_schema j; jn_meta := jn_meta j;
  jn_events := db |}.

(** [_APPLICATION_ID_PATTERN]: one alphanumeric character, then at most 127
    characters that may also be punctuation. *)
Definition is_alnum (c : Z) : bool := is_lower c || is_upper c || is_digit c.
Definition is_app_id_char (c : Z) : bool :=
  is_alnum c || (c =? 46) || (c =? 95) || (c =? 58) || (c =? 45).
Definition APPLICATION_ID_PATTERN (s : pystr) : bool :=
  match s with
  | c :: r => is_alnum c && (zlen r <=? 127) && forallb is_app_id_char r
  | [] => false
  end.

Definition validate (application_id : pystr) (j : journal) : res unit :=
  check! guard (jn_integrity j) JournalSyncError "broker journal integrity check failed" in
  check! guard (bool_decide (jn_schema j = SchemaExpected)) JournalSyncError
    "broker journal schema objects are unsupported" in
  check! guard (bool_decide (jn_meta j = [(0, application_id, BROKER_JOURNAL_SCHEMA_VERSION)]))
    JournalSyncError "broker journal application or schema version is unsupported" in
  match validate_events (jn_events j) with
  | Ok _ => Ok tt
  | Raise e =>
      if caught e [JournalSyncError] then Raise e
      else if caught e [OSError_; SqliteError; TypeError; ValueError]
      then raise JournalSyncError "broker journal validation failed"
      else Raise e
  end.

(** [_initialize], on the file as the first connection finds it. *)
Definition initialize (application_id : pystr) (j : journal) : st journal unit :=
  fun _ =>
    let j' := if bool_decide (jn_schema j = SchemaEmpty)
              then {| jn_integrity := jn_integrity j; jn_schema := SchemaExpected;
                      jn_meta := [(0, application_id, BROKER_JOURNAL_SCHEMA_VERSION)];
                      jn_events := [] |}
              else j in
    (j', validate application_id j').

(** [BrokerJournal.__init__] *)
Definition init_journal (application_id : pystr) : st journal unit := fun j =>
  if APPLICATION_ID_PATTERN application_id then initialize application_id j j
  else (j, raise ValueError "broker journal application ID is invalid").

(** ** Faults of the file and of the commit

    What the storage may do during one operation. A failed [commit] leaves
    the row durable or not, and the operation cannot tell which. *)
Inductive commit_outcome := CommitOk | CommitError (durable : bool).

Record faults := {
  connect_fails : bool;
  execute_fails : bool;
  commit : commit_outcome;
  reconnect_fails : bool;
  verify_fails : bool;
}.

Definition no_faults : faults := {|
  connect_fails := false; execute_fails := false; commit := CommitOk;
  reconnect_fails := false; verify_fails := false |}.

Definition sync_failed : string := "broker journal synchronization failed".

(** [_open]: connect, then validate the whole file. *)
Definition open_journal (application_id : pystr) (fails : bool) (j : journal) : res unit :=
  check! guard (negb fails) JournalSyncError sync_failed in
  validate application_id j.

(** ** Decisions *)

Inductive decision_state := DAccepted | DClaimed | DInFlight | DTerminal | DUnresolved.
#[export] Instance decision_state_eq_dec : EqDecision decision_state.
Proof. solve_decision. Defined.

Record JournalDecision := {
  state : decision_state;
  d_stage : option pystr;
  response_frame : option pybytes;
  owner_broker_incarnation : option pystr;
}.

Definition decided (s : decision_state) : JournalDecision :=
  {| state := s; d_stage := None; response_frame := None; owner_broker_incarnation := None |}.

Record IncompleteLifecycle := {
  il_frame : pybytes;
  il_owner : pystr;
  il_stage : stage;
  il_started : bool;
}.

Definition identity (r : BrokerRequest) : ident :=
  (database_incarnation r, operation_id r, request_type r).

(** [str(row[1])] *)
Definition str_stage (s : option stage) : pystr :=
  match s with Some s => stage_name s | None => u"None" end.

(** [_terminal]; [bytes(None)] raises TypeError. *)
Definition terminal (db : list event) (i : ident) : res (option JournalDecision) :=
  match last (List.filter terminal_row (rows_for i db)) with
  | None => Ok None
  | Some r =>
      match ev_response r with
      | None => raise TypeError "cannot convert 'NoneType' object to bytes"
      | Some f =>
          Ok (Some {| state := if is_kind StageUnresolved r then DUnresolved else DTerminal;
                      d_stage := Some (str_stage (ev_stage r)); response_frame := Some f;
                      owner_broker_incarnation := None |})
      end
  end.

(** ** Exact verification of an appended row *)

Inductive column :=
  | ColNonce | ColSequence | ColDigest | ColRequestFrame | ColBroker | ColOwner
  | ColStage | ColStatus | ColError | ColReason | ColResponse.
Inductive cell := CNull | CText (s : pystr) | CInt (z : Z) | CBlob (b : pybytes).
#[export] Instance cell_eq_dec : EqDecision cell.
Proof. solve_decision. Defined.

Definition text_cell (o : option pystr) : cell := match o with Some s => CText s | None => CNull end.
Definition blob_cell (o : option pybytes) : cell := match o with Some s => CBlob s | None => CNull end.
Definition int_cell (o : option Z) : cell := match o with Some s => CInt s | None => CNull end.

Definition cell_of (e : event) (c : column) : cell :=
  match c with
  | ColNonce => text_cell (ev_nonce e)
  | ColSequence => int_cell (ev_sequence e)
  | ColDigest => text_cell (ev_digest e)
  | ColRequestFrame => blob_cell (ev_request_frame e)
  | ColBroker => text_cell (ev_broker e)
  | ColOwner => text_cell (ev_owner e)
  | ColStage => text_cell (option_map stage_name (ev_stage e))
  | ColStatus => text_cell (ev_status e)
  | ColError => text_cell (ev_error e)
  | ColReason => text_cell (ev_reason e)
  | ColResponse => blob_cell (ev_response e)
  end.

(** [_exact_event_query]: every named column IS the given value. *)
Definition exact_event_query (db : list event) (i : ident) (k : ev_type)
    (exact : list (column * cell)) : bool :=
  existsb (fun r => bool_decide (ev_identity r = i) && is_kind k r
                    && forallb (fun cv => bool_decide (cell_of r cv.1 = cv.2)) exact) db.

Definition verify_intended_event (application_id : pystr) (ft : faults) (i : ident) (k : ev_type)
    (exact : list (column * cell)) (j : journal) : res bool :=
  check! open_journal application_id (reconnect_fails ft) j in
  check! guard (negb (verify_fails ft)) JournalSyncError "broker journal verification failed" in
  Ok (exact_event_query (jn_events j) i k exact).

Definition confirm_appended_event (application_id : pystr) (ft : faults) (i : ident) (k : ev_type)
    (exact : list (column * cell)) (j : journal) : res unit :=
  let! present := verify_intended_event application_id ft i k exact j in
  guard present JournalCommitAbsent "broker journal commit is absent after verification".

(** ** Transactions

    The body every mutating operation shares: BEGIN IMMEDIATE, the queries,
    at most one INSERT, the commit, and the verification of an uncertain
    commit on a new connection. *)
Inductive action (A : Type) :=
  | Return (a : A)
  | Append (e : event) (exact : list (column * cell)) (a : A).
Arguments Return {A} a.
Arguments Append {A} e exact a.

Definition run_body {A} (ft : faults) (body : list event → res (action A)) (db : list event) :
    res (list event * action A) :=
  reraise_as
    (check! guard (negb (execute_fails ft)) SqliteError "database is locked" in
     let! a := body db in
     match a with
     | Return _ => Ok (db, a)
     | Append e _ _ => let! db' := insert_event db e in Ok (db', a)
     end)
    [OSError_; SqliteError; TypeError] JournalSyncError sync_failed.

Definition transaction {A} (application_id : pystr) (ft : faults)
    (body : list event → res (action A)) : st journal A := fun j =>
  match (check! open_journal application_id (connect_fails ft) j in
         run_body ft body (jn_events j)) with
  | Raise e => (j, Raise e)
  | Ok (_, Return a) => (j, Ok a)
  | Ok (db', Append e exact a) =>
      match commit ft with
      | CommitOk => (with_events j db', Ok a)
      | CommitError durable =>
          let j' := if durable then with_events j db' else j in
          (j', check! confirm_appended_event application_id ft (ev_identity e) (ev_kind e) exact j'
               in Ok a)
      end
  end.

(** [_append_verified] *)
Definition append_verified (application_id : pystr) (ft : faults) (e : event)
    (exact : list (column * cell)) : st journal unit :=
  transaction application_id ft (fun _ => Ok (Append e exact tt)).

(** ** Operations *)

Definition accepted_matches (r : event) (request : BrokerRequest) (frame : pybytes) : bool :=
  bool_decide (ev_nonce r = Some (nonce request))
  && bool_decide (ev_sequence r = Some (connection_sequence request))
  && bool_decide (ev_digest r = Some (payload_digest_ request))
  && bool_decide (ev_request_frame r = Some frame).

(** The accepted rows of a database incarnation, and [MAX(connection_sequence)]
    over them (NULL over no row). *)
Definition accepted_rows (d : pystr) (db : list event) : list event :=
  List.filter (fun r => is_kind Accepted r && bool_decide ((ev_identity r).1.1 = d)) db.
Definition max_sequence (d : pystr) (db : list event) : option Z :=
  fold_right (fun r acc =>
    match ev_sequence r, acc with
    | Some n, Some k => Some (Z.max n k)
    | Some n, None => Some n
    | None, _ => acc
    end) None (accepted_rows d db).

Definition accept_body (request : BrokerRequest) (frame : pybytes) (db : list event) :
    res (action JournalDecision) :=
  let i := identity request in
  match List.find (is_kind Accepted) (rows_for i db) with
  | Some r =>
      check! guard (accepted_matches r request frame) BrokerProtocolError
        "operation payload mismatch" in
      let! t := terminal db i in
      Ok (Return (default (decided DAccepted) t))
  | None =>
      let d := database_incarnation request in
      check! guard (negb (existsb (fun r => bool_decide (ev_nonce r = Some (nonce request)))
                                  (accepted_rows d db)))
        BrokerProtocolError "duplicate nonce" in
      check! guard (match max_sequence d db with
                    | Some latest => latest <? connection_sequence request
                    | None => true
                    end) BrokerProtocolError "stale connection sequence" in
      Ok (Append (accepted_event i (nonce request) (connection_sequence request)
                    (payload_digest_ request) frame)
            [(ColNonce, CText (nonce request)); (ColSequence, CInt (connection_sequence request));
             (ColDigest, CText (payload_digest_ request)); (ColRequestFrame, CBlob frame)]
            (decided DAccepted))
  end.

Definition accept (application_id : pystr) (ft : faults) (request : BrokerRequest)
    (frame : pybytes) : st journal JournalDecision :=
  transaction application_id ft (accept_body request frame).

Definition in_flight (s : option pystr) (claim : event) : JournalDecision :=
  {| state := DInFlight; d_stage := s; response_frame := None;
     owner_broker_incarnation := Some (default (u"None") (ev_broker claim)) |}.

Definition claim_body (i : ident) (owner broker : pystr) (db : list event) :
    res (action JournalDecision) :=
  let! t := terminal db i in
  match t with
  | Some d => Ok (Return d)
  | None =>
      match List.find (is_kind LifecycleClaimed) (rows_for i db) with
      | Some claim => Ok (Return (in_flight None claim))
      | None =>
          Ok (Append (claimed_event i broker owner)
                [(ColBroker, CText broker); (ColOwner, CText owner)]
                {| state := DClaimed; d_stage := None; response_frame := None;
                   owner_broker_incarnation := Some broker |})
      end
  end.

Definition claim_lifecycle (application_id : pystr) (ft : faults) (request : BrokerRequest)
    (owner broker : pystr) : st journal JournalDecision :=
  if TOKEN_PATTERN owner && TOKEN_PATTERN broker
  then transaction application_id ft (claim_body (identity request) owner broker)
  else st_lift (raise ValueError "broker lifecycle owner is invalid").

Definition claim_launcher := claim_lifecycle.

Definition begin_stage (application_id : pystr) (ft : faults) (request : BrokerRequest)
    (owner stage_ : pystr) : st journal unit :=
  match stage_of_name stage_ with
  | None => st_lift (raise ValueError "broker lifecycle stage is invalid")
  | Some s =>
      append_verified application_id ft (started_event (identity request) s owner)
        [(ColStage, CText stage_); (ColOwner, CText owner)]
  end.

Definition record_stage_outcome (application_id : pystr) (ft : faults) (request : BrokerRequest)
    (owner stage_ status : pystr) (error : option pystr) (response : option pybytes) :
    st journal unit :=
  match stage_of_name stage_ with
  | Some s =>
      if mem_str status (STAGE_STATUSES s)
      then append_verified application_id ft
             (outcome_event (identity request) s owner status error response)
             [(ColStage, CText stage_); (ColOwner, CText owner); (ColStatus, CText status);
              (ColError, text_cell error); (ColResponse, blob_cell response)]
      else st_lift (raise ValueError "broker lifecycle outcome is invalid")
  | None => st_lift (raise ValueError "broker lifecycle outcome is invalid")
  end.

Definition unresolved_exact (stage_ owner reason : pystr) (response : pybytes) :
    list (column * cell) :=
  [(ColStage, CText stage_); (ColOwner, CText owner); (ColReason, CText reason);
   (ColResponse, CBlob response)].

Definition unresolved_body (i : ident) (s : stage) (owner reason : pystr) (response : pybytes)
    (db : list event) : res (action unit) :=
  let exact := unresolved_exact (stage_name s) owner reason response in
  let! t := terminal db i in
  match t with
  | Some _ =>
      check! guard (exact_event_query db i StageUnresolved exact) JournalSyncError
        "broker journal terminal state is immutable" in
      Ok (Return tt)
  | None => Ok (Append (unresolved_event i s owner reason response) exact tt)
  end.

Definition record_stage_unresolved (application_id : pystr) (ft : faults) (request : BrokerRequest)
    (owner stage_ reason : pystr) (response : pybytes) : st journal unit :=
  match stage_of_name stage_ with
  | Some s =>
      if mem_str reason UNRESOLVED_REASONS
      then transaction application_id ft (unresolved_body (identity request) s owner reason response)
      else st_lift (raise ValueError "unresolved lifecycle outcome is invalid")
  | None => st_lift (raise ValueError "unresolved lifecycle outcome is invalid")
  end.

(** The position of a claimed lifecycle: the first started stage without an
    outcome, or else the stage that would start next. *)
Definition lifecycle_position (rows : list event) : stage * bool :=
  let has k s := existsb (fun r => is_kind k r && bool_decide (ev_stage r = Some s)) rows in
  let unmatched s := has StageStarted s && negb (has StageOutcome s) in
  match List.find unmatched [Prepare; RuntimeSetup; Launch] with
  | Some s => (s, true)
  | None =>
      if has StageOutcome RuntimeSetup then (Launch, false)
      else if has StageOutcome Prepare then (RuntimeSetup, false)
      else (Prepare, false)
  end.

(** The JOIN of the accepted rows with the claims of their identity, less the
    identities with a terminal row. *)
Definition incomplete_rows (db : list event) : list (event * event) :=
  a ← List.filter (is_kind Accepted) db;
  let rows := rows_for (ev_identity a) db in
  if existsb terminal_row rows then []
  else c ← List.filter (is_kind LifecycleClaimed) rows; [(a, c)].

Definition incomplete_of (db : list event) (ac : event * event) : res IncompleteLifecycle :=
  let '(a, c) := ac in
  match ev_request_frame a with
  | None => raise TypeError "cannot convert 'NoneType' object to bytes"
  | Some f =>
      let pos := lifecycle_position (rows_for (ev_identity a) db) in
      Ok {| il_frame := f; il_owner := default (u"None") (ev_owner c); il_stage := pos.1;
            il_started := pos.2 |}
  end.

(** A read that opens, queries and closes. *)
Definition read_journal {A} (application_id : pystr) (ft : faults) (query : list event → res A)
    (j : journal) : res A :=
  check! open_journal application_id (connect_fails ft) j in
  reraise_as
    (check! guard (negb (execute_fails ft)) SqliteError "disk I/O error" in query (jn_events j))
    [OSError_; SqliteError; TypeError] JournalSyncError sync_failed.

Definition incomplete_lifecycles (application_id : pystr) (ft : faults) (j : journal) :
    res (list IncompleteLifecycle) :=
  read_journal application_id ft (fun db => mapM_res (incomplete_of db) (incomplete_rows db)) j.

Definition status_query (i : ident) (db : list event) : res JournalDecision :=
  let! t := terminal db i in
  match t with
  | Some d => Ok d
  | None =>
      match List.find (is_kind LifecycleClaimed) (rows_for i db) with
      | None => Ok (decided DAccepted)
      | Some claim =>
          let started := last (List.filter (is_kind StageStarted) (rows_for i db)) in
          Ok (in_flight (option_map (fun r => str_stage (ev_stage r)) started) claim)
      end
  end.

Definition status (application_id : pystr) (ft : faults) (request : BrokerRequest) (j : journal) :
    res JournalDecision :=
  read_journal application_id ft (status_query (identity request)) j.

(** ** The legacy v1 journal *)

(** What [lstat] answers for a path. *)
Inductive path_kind := Missing | Regular | NotRegular | StatError.

(** What an existing file answers when opened read-only: nothing (the open or
    a query fails), or its integrity, schema, meta rows and event types. *)
Record legacy_database := {
  lg_integrity : bool;
  lg_expected_schema : bool;
  lg_meta : list (Z * pystr * Z);
  lg_event_types : list pystr;
}.

Record legacy_files := {
  lf_main : path_kind;
  lf_wal : path_kind;
  lf_shm : path_kind;
  lf_connect : option (res legacy_database);
}.

Definition LEGACY_V1_SCHEMA_VERSION : Z := 1.

Definition legacy_sidecar_exists (k : path_kind) : res bool :=
  match k with
  | Missing => Ok false
  | StatError => raise LegacyJournalStateError "legacy broker journal sidecar is unreadable"
  | _ => Ok true
  end.

Definition legacy_sidecars_absent (f : legacy_files) (message : string) : res unit :=
  let! wal := legacy_sidecar_exists (lf_wal f) in
  check! guard (negb wal) LegacyJournalStateError message in
  let! shm := legacy_sidecar_exists (lf_shm f) in
  guard (negb shm) LegacyJournalStateError message.

Definition validate_legacy_v1_database (application_id : pystr) (d : res legacy_database) :
    res unit :=
  reraise_as
    (let! d := d in
     check! guard (lg_integrity d) LegacyJournalStateError "legacy broker journal is malformed" in
     check! guard (lg_expected_schema d) LegacyJournalStateError
       "legacy broker journal schema is malformed" in
     if bool_decide (lg_meta d = [(0, application_id, LEGACY_V1_SCHEMA_VERSION)])
     then guard (negb (existsb (fun t => bool_decide (t = u"accepted")) (lg_event_types d)))
            LegacyJournalStateError "legacy broker journal contains an accepted operation"
     else
       check! guard (match lg_meta d with
                     | [(_, _, v)] => v <=? LEGACY_V1_SCHEMA_VERSION
                     | _ => true
                     end) LegacyJournalStateError "legacy broker journal version is unsupported" in
       raise LegacyJournalStateError "legacy broker journal metadata is malformed")
    [SqliteError; TypeError; ValueError] LegacyJournalStateError
    "legacy broker journal is unreadable".

Definition inspect_legacy_v1_journal (application_id : pystr) (f : legacy_files) : res unit :=
  check! guard (APPLICATION_ID_PATTERN application_id) ValueError
    "broker journal application ID is invalid" in
  match lf_main f with
  | Missing => legacy_sidecars_absent f "legacy broker journal sidecar is orphaned"
  | StatError | NotRegular =>
      raise LegacyJournalStateError "legacy broker journal is unreadable"
  | Regular =>
      check! legacy_sidecars_absent f "legacy broker journal has unresolved sidecar state" in
      match lf_connect f with
      | None => raise LegacyJournalStateError "legacy broker journal is unreadable"
      | Some d => validate_legacy_v1_database application_id d
      end
  end.
