(* ===== verification/BrokerJournalSpec.v ===== *)
(** * The broker journal implements a lifecycle machine

    The abstract specification of [BrokerJournal]: the phase of one operation
    as a function of its rows, and the theorems that the table's constraints
    admit exactly the transitions of that machine, that every journal the
    operations produce passes the validation on open, and that terminal
    states, claims and acceptances behave as the callers rely on. *)

From S2P Require Import Prelude Text Json Crypto BrokerProtocol BrokerJournal.

(** ** The abstract machine *)

Inductive phase :=
  | Fresh
  | PAccepted
  | PClaimed (owner : pystr)
  | Running (owner : pystr) (s : stage)
  | Between (owner : pystr) (s : stage)
  | Final (owner : pystr) (s : stage).

Definition next_stage (s : stage) : option stage :=
  match s with Prepare => Some RuntimeSetup | RuntimeSetup => Some Launch | Launch => None end.

(** The status with which a stage hands over to the next one. *)
Definition success_status (s : stage) : pystr :=
  match s with
  | Prepare => u"prepared" | RuntimeSetup => u"runtime_ready" | Launch => u"launched"
  end.

Definition step (ph : phase) (e : event) : option phase :=
  match ph, ev_kind e with
  | Fresh, Accepted => Some PAccepted
  | PAccepted, LifecycleClaimed => option_map PClaimed (ev_owner e)
  | PClaimed o, StageStarted =>
      if bool_decide (ev_owner e = Some o) && bool_decide (ev_stage e = Some Prepare)
      then Some (Running o Prepare) else None
  | Between o s, StageStarted =>
      if bool_decide (ev_owner e = Some o) && bool_decide (ev_stage e = next_stage s)
      then option_map (Running o) (next_stage s) else None
  | Running o s, (StageOutcome | StageUnresolved) =>
      if bool_decide (ev_owner e = Some o) && bool_decide (ev_stage e = Some s)
      then Some (if terminal_row e then Final o s else Between o s) else None
  | _, _ => None
  end.

Definition phase_of (rows : list event) : option phase :=
  fold_left (fun acc e => ph ← acc; step ph e) rows (Some Fresh).

(** What a row may contain beyond the table's constraints: what the
    operations check before they insert. *)
Definition content_ok (e : event) : bool :=
  match ev_kind e with
  | Accepted =>
      opt_matches DIGEST_PATTERN (ev_digest e)
      && match validate_accepted [] e with Ok _ => true | Raise _ => false end
  | LifecycleClaimed => opt_matches TOKEN_PATTERN (ev_broker e) && opt_matches TOKEN_PATTERN (ev_owner e)
  | StageStarted => true
  | StageOutcome =>
      match ev_stage e with
      | Some s => opt_matches (fun t => mem_str t (STAGE_STATUSES s)) (ev_status e)
      | None => false
      end
      && match ev_response e with
         | None => true
         | Some _ =>
             match validate_stored_json (ev_response e) BROKER_RESPONSE_BYTES_MAX with
             | Ok _ => true | Raise _ => false
             end
         end
  | StageUnresolved =>
      opt_matches (fun t => mem_str t UNRESOLVED_REASONS) (ev_reason e)
      && match validate_stored_json (ev_response e) BROKER_RESPONSE_BYTES_MAX with
         | Ok _ => true | Raise _ => false
         end
  end.

Definition row_ok (e : event) : Prop := row_check e = true ∧ content_ok e = true.

(** The invariant of the event table: every row is well formed and the rows
    of every operation run the machine. *)
Definition lifecycles_ok (db : list event) : Prop :=
  Forall row_ok db ∧ ∀ i, is_Some (phase_of (rows_for i db)).

(** The rows that the machine's events are written as: which columns hold a
    value, and which are NULL. *)
Inductive event_row : event → Prop :=
  | row_accepted i nonce sequence digest frame : event_row (accepted_event i nonce sequence digest frame)
  | row_claimed i broker owner : event_row (claimed_event i broker owner)
  | row_started i s owner : event_row (started_event i s owner)
  | row_succeeded i s owner status : s ≠ Launch → status ≠ u"rejected" →
      event_row (outcome_event i s owner status None None)
  | row_launched i owner status response : status ≠ u"rejected" →
      event_row (outcome_event i Launch owner status None (Some response))
  | row_rejected i s owner error response : event_row (outcome_event i s owner (u"rejected") (Some error) (Some response))
  | row_unresolved i s owner reason response : event_row (unresolved_event i s owner reason response).

(** ** Facts of a phase *)

Definition stage_rank (s : stage) : Z :=
  match s with Prepare => 0 | RuntimeSetup => 1 | Launch => 2 end.

Definition phase_owner (ph : phase) : option pystr :=
  match ph with
  | Fresh | PAccepted => None
  | PClaimed o | Running o _ | Between o _ | Final o _ => Some o
  end.
Definition phase_accepted (ph : phase) : bool := match ph with Fresh => false | _ => true end.
Definition phase_final (ph : phase) : bool := match ph with Final _ _ => true | _ => false end.
Definition phase_started (ph : phase) (s : stage) : bool :=
  match ph with
  | Running _ t | Between _ t | Final _ t => stage_rank s <=? stage_rank t
  | _ => false
  end.
Definition phase_completed (ph : phase) (s : stage) : bool :=
  match ph with
  | Running _ t => stage_rank s <? stage_rank t
  | Between _ t | Final _ t => stage_rank s <=? stage_rank t
  | _ => false
  end.
(** The stages whose success is recorded. *)
Definition phase_succeeded (ph : phase) (s : stage) : bool :=
  match ph with
  | Running _ t | Final _ t => stage_rank s <? stage_rank t
  | Between _ t => stage_rank s <=? stage_rank t
  | _ => false
  end.

(** The queries of the triggers and of the unique indexes, as the phase
    answers them. *)
Record phase_facts (rows : list event) (ph : phase) : Prop := {
  f_accepted : existsb (is_kind Accepted) rows = phase_accepted ph;
  f_claimed : existsb (is_kind LifecycleClaimed) rows = notnull (phase_owner ph);
  f_owner : ∀ o, existsb (fun r => is_kind LifecycleClaimed r && sql_eq (ev_owner r) o) rows
                 = sql_eq (phase_owner ph) o;
  f_started : ∀ s, existsb (fun r => is_kind StageStarted r && sql_eq (ev_stage r) (Some s)) rows
                   = phase_started ph s;
  f_started_by : ∀ s o,
    existsb (fun r => is_kind StageStarted r && sql_eq (ev_stage r) (Some s)
                      && sql_eq (ev_owner r) o) rows
    = phase_started ph s && sql_eq (phase_owner ph) o;
  f_completed : ∀ s, existsb (fun r => is_completion r && sql_eq (ev_stage r) (Some s)) rows
                     = phase_completed ph s;
  f_succeeded : ∀ s, s ≠ Launch →
    existsb (fun r => is_kind StageOutcome r && sql_eq (ev_stage r) (Some s)
                      && sql_eq (ev_status r) (Some (success_status s))) rows
    = phase_succeeded ph s;
  f_terminal : existsb terminal_row rows = phase_final ph;
}.

Lemma phase_of_snoc rows e : phase_of (rows ++ [e]) = (ph ← phase_of rows; step ph e).
Proof. unfold phase_of. by rewrite fold_left_app. Qed.

Lemma existsb_snoc {A} (p : A → bool) l a : existsb p (l ++ [a]) = existsb p l || p a.
Proof. by rewrite existsb_app; cbn; rewrite orb_false_r. Qed.

(** A completion that does not end the lifecycle is the stage's success. *)
Lemma nonterminal_completion e s : row_ok e → is_completion e = true → ev_stage e = Some s →
  terminal_row e = false →
  ev_kind e = StageOutcome ∧ ev_status e = Some (success_status s) ∧ s ≠ Launch.
Proof.
  intros [_ Hc] Hk Hs Ht. unfold content_ok, is_completion, is_kind, terminal_row in *.
  destruct (ev_kind e); cbn in *; try discriminate.
  rewrite Hs in *. apply andb_true_iff in Hc as [Hc _].
  destruct (ev_status e) as [t|]; [|discriminate].
  cbn [opt_matches] in Hc. apply mem_str_spec in Hc.
  destruct s; cbn in Hc |- *; rewrite ?elem_of_cons, ?elem_of_nil in Hc;
    destruct_or?; subst; try done; revert Ht; vm_compute; done.
Qed.

Lemma terminal_completion e s : row_ok e → ev_stage e = Some s → terminal_row e = true →
  is_kind StageOutcome e && sql_eq (ev_status e) (Some (success_status s)) = true → s = Launch.
Proof.
  unfold terminal_row, is_kind. intros _ Hs Ht H. breflect. rewrite H, Hs in Ht. cbn in Ht.
  destruct (ev_status e) as [t|]; [|done]. cbn in H0. breflect. subst.
  by destruct s; revert Ht; vm_compute.
Qed.

Lemma phase_facts_nil : phase_facts [] Fresh.
Proof. by split. Qed.

(** Answer the queries about the new row from its kind and its columns. *)
Ltac new_row :=
  rewrite ?existsb_snoc; unfold is_completion, is_kind, terminal_row in *;
  repeat match goal with
  | H : ev_kind ?e = _ |- _ => rewrite H in *
  | H : ev_stage ?e = _ |- _ => rewrite H in *
  | H : ev_owner ?e = _ |- _ => rewrite H in *
  end.

Lemma facts_accept rows e : phase_facts rows Fresh → ev_kind e = Accepted →
  phase_facts (rows ++ [e]) PAccepted.
Proof.
  intros F K. destruct F. split; intros; new_row;
    rewrite ?f_accepted0, ?f_claimed0, ?f_owner0, ?f_started0, ?f_started_by0, ?f_completed0,
      ?f_succeeded0, ?f_terminal0 by done; done.
Qed.

Lemma facts_claim rows e o : phase_facts rows PAccepted → ev_kind e = LifecycleClaimed →
  ev_owner e = Some o → phase_facts (rows ++ [e]) (PClaimed o).
Proof.
  intros F K O. destruct F. split; intros; new_row;
    rewrite ?f_accepted0, ?f_claimed0, ?f_owner0, ?f_started0, ?f_started_by0, ?f_completed0,
      ?f_succeeded0, ?f_terminal0 by done; try done.
Qed.

Lemma facts_start rows ph e o s : phase_facts rows ph → ev_kind e = StageStarted →
  ev_owner e = Some o → ev_stage e = Some s →
  (ph = PClaimed o ∧ s = Prepare) ∨ (∃ t, ph = Between o t ∧ next_stage t = Some s) →
  phase_facts (rows ++ [e]) (Running o s).
Proof.
  intros F K O S P. destruct F. split; intros; new_row;
    rewrite ?f_accepted0, ?f_claimed0, ?f_owner0, ?f_started0, ?f_started_by0, ?f_completed0,
      ?f_succeeded0, ?f_terminal0 by done;
    destruct P as [[-> ->]|[t [-> P]]]; try done;
    try destruct t; simplify_eq/=; try destruct s0; cbn; rewrite ?andb_false_r, ?orb_false_r; try done;
    by destruct o0.
Qed.

Lemma facts_complete rows e o s : phase_facts rows (Running o s) → row_ok e →
  is_completion e = true → ev_owner e = Some o → ev_stage e = Some s →
  phase_facts (rows ++ [e]) (if terminal_row e then Final o s else Between o s).
Proof.
  intros F R K O S.
  pose proof (nonterminal_completion e s R K S) as NT.
  pose proof (terminal_completion e s R S) as T.
  assert (K3 : is_kind Accepted e = false ∧ is_kind LifecycleClaimed e = false
               ∧ is_kind StageStarted e = false)
    by (unfold is_completion, is_kind in *; destruct (ev_kind e); done).
  destruct K3 as (K1 & K2 & K3).
  destruct F. split; intros; rewrite existsb_snoc, ?K, ?K1, ?K2, ?K3, ?S, ?O;
    rewrite ?f_accepted0, ?f_claimed0, ?f_owner0, ?f_started0, ?f_started_by0, ?f_completed0,
      ?f_succeeded0, ?f_terminal0 by done;
    destruct (terminal_row e) eqn:E; try done; cbn; rewrite ?orb_false_r; try done;
    try (by destruct s, s0).
  - (* a terminal completion records no success before the launch *)
    destruct (decide (s0 = s)) as [->|N].
    + destruct (is_kind StageOutcome e && sql_eq (ev_status e) (Some (success_status s))) eqn:Q.
      * by destruct (H (T eq_refl eq_refl)).
      * apply andb_false_iff in Q as [-> | ->]; rewrite ?andb_false_r, ?orb_false_r; done.
    + rewrite bool_decide_false by congruence. by rewrite andb_false_r, orb_false_r.
  - (* the others record the success of their stage *)
    destruct (NT eq_refl) as (KO & -> & _). unfold is_kind. rewrite KO. cbn.
    by destruct s, s0.
Qed.

Lemma step_facts rows ph e ph' :
  phase_facts rows ph → row_ok e → step ph e = Some ph' → phase_facts (rows ++ [e]) ph'.
Proof.
  intros F R H. unfold step in H.
  destruct ph, (ev_kind e) eqn:K; try discriminate H.
  - injection H as <-. by apply facts_accept.
  - destruct (ev_owner e) eqn:O; [|discriminate H]. injection H as <-. by apply facts_claim.
  - case_bool_decide; [|discriminate H]. case_bool_decide; [|discriminate H]. injection H as <-.
    eapply facts_start; eauto.
  - case_bool_decide; [|discriminate H]. case_bool_decide; [|discriminate H]. injection H as <-.
    apply facts_complete; auto. unfold is_completion, is_kind. by rewrite K.
  - case_bool_decide; [|discriminate H]. case_bool_decide; [|discriminate H]. injection H as <-.
    apply facts_complete; auto. unfold is_completion, is_kind. by rewrite K.
  - case_bool_decide; [|discriminate H]. case_bool_decide; [|discriminate H].
    destruct (next_stage s) eqn:N; [|discriminate H]. injection H as <-.
    eapply facts_start; eauto 10.
Qed.

Lemma phase_of_facts rows ph :
  Forall row_ok rows → phase_of rows = Some ph → phase_facts rows ph.
Proof.
  revert ph. induction rows as [|e rows IH] using rev_ind; intros ph Hok H.
  - injection H as <-. apply phase_facts_nil.
  - rewrite phase_of_snoc in H. apply Forall_snoc in Hok as [Hok He].
    destruct (phase_of rows) as [ph0|]; [|discriminate H]. cbn in H.
    eapply step_facts; [by apply IH|exact He|exact H].
Qed.

Lemma rows_for_snoc i db e :
  rows_for i (db ++ [e]) = rows_for i db ++ (if decide (ev_identity e = i) then [e] else []).
Proof. unfold rows_for. by rewrite filter_app. Qed.

Lemma rows_for_row_ok i db : Forall row_ok db → Forall row_ok (rows_for i db).
Proof.
  rewrite !Forall_forall. intros H e [_ He]%list_elem_of_filter. by apply H.
Qed.

(** Appending a row that the machine accepts keeps the invariant. *)
Lemma lifecycles_ok_snoc db e ph : lifecycles_ok db → row_ok e →
  phase_of (rows_for (ev_identity e) db) = Some ph → is_Some (step ph e) →
  lifecycles_ok (db ++ [e]).
Proof.
  intros [Hr Hp] He Hph [ph' Hs]. split; [apply Forall_app; auto|].
  intros i. rewrite rows_for_snoc. case_decide; subst.
  - rewrite phase_of_snoc, Hph. by exists ph'.
  - rewrite app_nil_r. apply Hp.
Qed.

(** The invariant holds of every prefix. *)
Lemma lifecycles_ok_prefix db e : lifecycles_ok (db ++ [e]) →
  lifecycles_ok db ∧ row_ok e ∧
  ∃ ph ph', phase_of (rows_for (ev_identity e) db) = Some ph ∧ step ph e = Some ph'.
Proof.
  intros [Hr Hp]. apply Forall_snoc in Hr as [Hr He].
  assert (Hpre : ∀ i, is_Some (phase_of (rows_for i db))).
  { intros i. specialize (Hp i). rewrite rows_for_snoc in Hp. case_decide.
    - rewrite phase_of_snoc in Hp. destruct (phase_of _); [eauto|by destruct Hp].
    - by rewrite app_nil_r in Hp. }
  split_and!; [done|done|]. specialize (Hp (ev_identity e)).
  rewrite rows_for_snoc, decide_True, phase_of_snoc in Hp by done.
  destruct (phase_of _) as [ph|]; [|by destruct Hp]. destruct Hp as [ph' Hp]. eauto.
Qed.

(** *** INSERT against the machine *)

(** The acceptance repeats no nonce and no sequence of its database. *)
Definition replay_free (db : list event) (e : event) : bool :=
  let rows := accepted_rows (ev_identity e).1.1 db in
  negb (existsb (fun r => sql_eq (ev_nonce r) (ev_nonce e)) rows)
  && negb (existsb (fun r => sql_eq (ev_sequence r) (ev_sequence e)) rows).

Lemma existsb_accepted p d db :
  existsb (fun r => bool_decide ((ev_identity r).1.1 = d) && p r) (List.filter (is_kind Accepted) db)
  = existsb p (accepted_rows d db).
Proof.
  unfold accepted_rows. induction db as [|r db IH]; [done|]. cbn [List.filter].
  destruct (is_kind Accepted r); cbn [existsb andb]; rewrite ?IH; [|done].
  destruct (bool_decide _); cbn [existsb andb]; done.
Qed.

Lemma is_ok_bind_guard {A} b c m (k : res A) : is_ok (check! guard b c m in k) = b && is_ok k.
Proof. by destruct b. Qed.
Lemma is_ok_guard b c m : is_ok (guard b c m) = b.
Proof. by destruct b. Qed.

Lemma row_check_columns e : row_check e = true →
  match ev_kind e with
  | Accepted => ev_owner e = None
  | LifecycleClaimed => ev_stage e = None ∧ is_Some (ev_owner e)
  | _ => is_Some (ev_stage e) ∧ is_Some (ev_owner e)
  end.
Proof.
  unfold row_check, notnull, isnull. intros H.
  destruct (ev_kind e), (ev_stage e), (ev_owner e); cbn in *; try discriminate; eauto;
    breflect; try discriminate.
Qed.

(** The CHECK admits exactly the rows of events. *)
Ltac null_columns :=
  repeat match goal with
  | H : isnull ?o = true |- _ => destruct o; [discriminate H|clear H]
  | H : notnull ?o = true |- _ => destruct o; [clear H|discriminate H]
  end.

Lemma row_check_iff e : row_check e = true ↔ event_row e.
Proof.
  split.
  - destruct e as [i k st n sq d f b o sta er re rs]. unfold row_check. cbn -[isnull notnull]. intros H.
    destruct k; breflect; null_columns; try constructor. unfold is_rejected, is_launch in *.
    match goal with E : eqb _ _ = true |- _ => apply eqb_prop in E; rename E into Er end.
    match goal with E : _ || _ = true |- _ => rename E into Ee end.
    destruct (decide (l = u"rejected")) as [->|N].
    + rewrite (bool_decide_eq_true_2 (Some (u"rejected") = _)) in Er, Ee by done. rewrite orb_true_r in Er.
      destruct er, rs; try discriminate. constructor.
    + rewrite (bool_decide_eq_false_2 (Some l = _)) in Er, Ee by congruence. rewrite orb_false_r in Er. destruct er; [discriminate|].
      destruct (decide (s = Launch)) as [->|]; [rewrite bool_decide_eq_true_2 in Er by done|rewrite bool_decide_eq_false_2 in Er by congruence];
        destruct rs; try discriminate; by constructor.
  - intros [ | | |? s|? ? t| |]; try done; unfold row_check; cbn -[bool_decide].
    + unfold is_rejected, is_launch. by rewrite !bool_decide_eq_false_2 by congruence.
    + unfold is_rejected. by rewrite !(bool_decide_eq_false_2 (Some _ = Some (u"rejected"))) by congruence.
    + by rewrite orb_true_r.
Qed.

Definition step_ok (ph : phase) (e : event) : bool :=
  match step ph e with Some _ => true | None => false end.

Lemma kind_test e k k' : ev_kind e = k → is_kind k' e = bool_decide (k = k').
Proof. unfold is_kind. by intros ->. Qed.

Lemma not_completion e : is_completion e = false → terminal_row e = false.
Proof. unfold is_completion, terminal_row, is_kind. by destruct (ev_kind e). Qed.

Lemma insert_accept_ok db e ph : phase_facts (rows_for (ev_identity e) db) ph → row_check e = true →
  ev_kind e = Accepted → is_ok (insert_event db e) = step_ok ph e && replay_free db e.
Proof.
  intros F R K. unfold insert_event, trigger_check, unique_ok, replay_free, step_ok, step.
  assert (C : is_completion e = false) by (unfold is_completion; by rewrite !(kind_test _ _ _ K)).
  rewrite <- !existsb_accepted, R, K, C, (not_completion e C), !(kind_test _ _ _ K).
  rewrite (f_accepted _ _ F). destruct ph; try done. cbn -[existsb].
  by repeat match goal with |- context [existsb ?p ?l] => destruct (existsb p l) end.
Qed.

Lemma insert_claim_ok db e ph : phase_facts (rows_for (ev_identity e) db) ph → row_check e = true →
  ev_kind e = LifecycleClaimed → is_ok (insert_event db e) = step_ok ph e.
Proof.
  intros F R K. pose proof (row_check_columns e R) as Col. rewrite K in Col.
  destruct Col as [_ [o O]].
  unfold insert_event, trigger_check, unique_ok, step_ok, step.
  assert (C : is_completion e = false) by (unfold is_completion; by rewrite !(kind_test _ _ _ K)).
  rewrite R, K, C, (not_completion e C), !(kind_test _ _ _ K).
  rewrite (f_accepted _ _ F), (f_claimed _ _ F), (f_terminal _ _ F). rewrite O.
  by destruct ph.
Qed.

Lemma insert_start_ok db e ph : phase_facts (rows_for (ev_identity e) db) ph → row_check e = true →
  ev_kind e = StageStarted → is_ok (insert_event db e) = step_ok ph e.
Proof.
  intros F R K. pose proof (row_check_columns e R) as Col. rewrite K in Col.
  destruct Col as [[s S] [o O]].
  unfold insert_event, trigger_check, unique_ok, step_ok, step.
  assert (C : is_completion e = false) by (unfold is_completion; by rewrite !(kind_test _ _ _ K)).
  rewrite R, K, C, (not_completion e C), !(kind_test _ _ _ K), S, O.
  rewrite (f_accepted _ _ F), (f_owner _ _ F), (f_started _ _ F), (f_terminal _ _ F).
  assert (Sp := f_succeeded _ _ F Prepare ltac:(done)).
  assert (Sr := f_succeeded _ _ F RuntimeSetup ltac:(done)). cbn [success_status] in Sp, Sr.
  rewrite Sp, Sr.
  destruct ph; try done; cbn [phase_owner sql_eq];
    destruct (decide (o = owner)) as [->|N]; rewrite ?(bool_decide_true (owner = owner)), ?(bool_decide_true (Some owner = Some owner)) by done;
    rewrite ?(bool_decide_false (owner = o)), ?(bool_decide_false (Some o = Some owner)) by congruence;
    try done; destruct s; try destruct s0; done.
Qed.

Lemma insert_complete_ok db e ph : phase_facts (rows_for (ev_identity e) db) ph → row_check e = true →
  is_completion e = true → is_ok (insert_event db e) = step_ok ph e.
Proof.
  intros F R C. pose proof (row_check_columns e R) as Col.
  assert (Hk : is_kind Accepted e = false ∧ is_kind LifecycleClaimed e = false
               ∧ is_kind StageStarted e = false)
    by (unfold is_completion, is_kind in *; by destruct (ev_kind e)).
  destruct Hk as (K1 & K2 & K3).
  assert (is_Some (ev_stage e) ∧ is_Some (ev_owner e)) as [[s S] [o O]]
    by (unfold is_completion, is_kind in *; by destruct (ev_kind e)).
  unfold insert_event, trigger_check, unique_ok, step_ok.
  rewrite R, C, K1, K2, K3, S, O.
  rewrite (f_accepted _ _ F), (f_owner _ _ F), (f_started_by _ _ F), (f_completed _ _ F),
    (f_terminal _ _ F).
  unfold step. unfold is_completion, is_kind in C.
  destruct (ev_kind e) eqn:K; try discriminate C; clear C K1 K2 K3;
  destruct ph; try done; rewrite ?S, ?O; cbn [phase_owner sql_eq];
    destruct (decide (o = owner)) as [->|N]; rewrite ?(bool_decide_true (owner = owner)), ?(bool_decide_true (Some owner = Some owner)) by done;
    rewrite ?(bool_decide_false (owner = o)), ?(bool_decide_false (Some o = Some owner)) by congruence;
    try done; destruct s; try destruct s0; try done; by destruct (terminal_row e).
Qed.

Lemma insert_event_snoc db e db' : insert_event db e = Ok db' → db' = db ++ [e] ∧ row_check e = true.
Proof. unfold insert_event. intros H. by inv_ok. Qed.

Lemma guard_error b c m e : guard b c m = Raise e → exn_class e = c.
Proof. destruct b; cbn; [discriminate|]. by intros [= <-]. Qed.

Lemma insert_event_error db e ex : insert_event db e = Raise ex → exn_class ex = IntegrityError.
Proof.
  unfold insert_event, trigger_check. intros H.
  repeat match goal with
  | H : res_bind ?m _ = Raise _ |- _ =>
      let E := fresh "E" in destruct m eqn:E; cbn [res_bind] in H
  | H : (if ?b then _ else _) = _ |- _ => destruct b
  | H : Raise _ = Raise _ |- _ => injection H as <-
  | H : guard _ _ _ = Raise _ |- _ => by apply guard_error in H
  end; discriminate.
Qed.

Lemma insert_is_ok db e ph : phase_facts (rows_for (ev_identity e) db) ph → row_check e = true →
  is_ok (insert_event db e) = step_ok ph e && (negb (is_kind Accepted e) || replay_free db e).
Proof.
  intros F R. destruct (ev_kind e) eqn:K.
  - rewrite (insert_accept_ok db e ph), (kind_test _ _ _ K) by done. done.
  - rewrite (insert_claim_ok db e ph), (kind_test _ _ _ K) by done. by rewrite andb_true_r.
  - rewrite (insert_start_ok db e ph), (kind_test _ _ _ K) by done. by rewrite andb_true_r.
  - rewrite (insert_complete_ok db e ph), (kind_test _ _ _ K); try done; [by rewrite andb_true_r|].
    unfold is_completion. by rewrite !(kind_test _ _ _ K).
  - rewrite (insert_complete_ok db e ph), (kind_test _ _ _ K); try done; [by rewrite andb_true_r|].
    unfold is_completion. by rewrite !(kind_test _ _ _ K).
Qed.

Lemma insert_event_sound db e db' : lifecycles_ok db → content_ok e = true →
  insert_event db e = Ok db' →
  lifecycles_ok (db ++ [e]) ∧ row_ok e ∧
  ∃ ph ph', phase_of (rows_for (ev_identity e) db) = Some ph ∧ step ph e = Some ph'.
Proof.
  intros L C H. destruct (insert_event_snoc _ _ _ H) as [-> R].
  destruct (proj2 L (ev_identity e)) as [ph P].
  pose proof (phase_of_facts _ _ (rows_for_row_ok _ _ (proj1 L)) P) as F.
  pose proof (insert_is_ok db e ph F R) as I. rewrite H in I. cbn [is_ok] in I.
  symmetry in I. apply andb_true_iff in I as [I _]. unfold step_ok in I.
  destruct (step ph e) as [ph'|] eqn:S; [|discriminate I].
  split_and!; [|split; done|eauto].
  eapply lifecycles_ok_snoc; eauto; split; done.
Qed.

(** *** Validation of the rows *)

Definition last_item (rows : list event) : option hist_item := last (map item_of rows).

Lemma phase_shape rows ph : Forall row_ok rows → phase_of rows = Some ph →
  match ph with
  | Fresh => rows = []
  | PAccepted => map ev_kind rows = [Accepted]
  | PClaimed _ => map ev_kind rows = [Accepted; LifecycleClaimed]
  | _ => ∃ a c rest, rows = a :: c :: rest ∧ ev_kind a = Accepted ∧ ev_kind c = LifecycleClaimed
         ∧ match ph with
           | Between _ s => last_item rows = Some (StageOutcome, Some s, Some (success_status s))
           | _ => True
           end
  end.
Proof.
  revert ph. induction rows as [|e rows IH] using rev_ind; intros ph Hok H.
  - by injection H as <-.
  - rewrite phase_of_snoc in H. apply Forall_snoc in Hok as [Hok He].
    destruct (phase_of rows) as [ph0|]; [|discriminate H]. cbn in H.
    specialize (IH ph0 Hok eq_refl). unfold step in H.
    destruct ph0, (ev_kind e) eqn:K; try discriminate H.
    + injection H as <-. subst rows. cbn. by rewrite K.
    + destruct (ev_owner e); [|discriminate H]. injection H as <-.
      by rewrite map_app, IH; cbn; rewrite K.
    + case_bool_decide; [|discriminate H]. case_bool_decide; [|discriminate H]. injection H as <-.
      destruct rows as [|a [|c [|]]]; simplify_eq/=. eauto 10.
    + case_bool_decide; [|discriminate H]. case_bool_decide as S; [|discriminate H]. injection H as <-.
      destruct IH as (a & c & rest & -> & ? & ? & _).
      assert (C : is_completion e = true) by (unfold is_completion; by rewrite !(kind_test _ _ _ K)).
      destruct (terminal_row e) eqn:T; [eauto 10|].
      exists a, c, (rest ++ [e]). split_and!; try done.
      destruct (nonterminal_completion e s He C S T) as (KO & St & _).
      unfold last_item. change (a :: c :: rest ++ [e]) with ((a :: c :: rest) ++ [e]).
      rewrite (map_app item_of). change (map item_of [e]) with [item_of e]. rewrite last_snoc. unfold item_of. by rewrite KO, S, St.
    + case_bool_decide; [|discriminate H]. case_bool_decide as S; [|discriminate H]. injection H as <-.
      destruct IH as (a & c & rest & -> & ? & ? & _).
      assert (T : terminal_row e = true) by (unfold terminal_row; by rewrite K).
      rewrite T. eauto 10.
    + case_bool_decide; [|discriminate H]. case_bool_decide; [|discriminate H].
      destruct (next_stage s); [|discriminate H]. injection H as <-.
      destruct IH as (a & c & rest & -> & ? & ? & _). eauto 10.
Qed.

(** What the validator has accumulated after the rows [db]. *)
Definition vstate_ok (db : list event) (v : vstate) : Prop :=
  ∀ i, history_of v i = map item_of (rows_for i db)
       ∧ owner_tokens v !! i = (phase_of (rows_for i db) ≫= phase_owner).

Lemma existsb_map {A B} (f : A → B) p l : existsb p (map f l) = existsb (fun a => p (f a)) l.
Proof. induction l as [|a l IH]; [done|]. cbn. by rewrite IH. Qed.

Lemma history_started rows s :
  existsb (fun x => bool_decide (x.1 = (StageStarted, Some s))) (map item_of rows)
  = existsb (fun r => is_kind StageStarted r && sql_eq (ev_stage r) (Some s)) rows.
Proof.
  rewrite existsb_map. induction rows as [|r rows IH]; [done|]. cbn [existsb]. rewrite IH. f_equal.
  unfold item_of, is_kind. cbn.
  destruct (ev_kind r), (ev_stage r) as [[]|], s; try done.
Qed.

Lemma validate_stage_start_ok rows ph s : Forall row_ok rows → phase_of rows = Some ph →
  match ph with
  | PClaimed _ => s = Prepare
  | Between _ t => next_stage t = Some s
  | _ => False
  end → validate_stage_start (map item_of rows) (Some s) = Ok tt.
Proof.
  intros R P H. pose proof (phase_shape rows ph R P) as Sh.
  destruct ph; try done.
  - subst s. destruct rows as [|a [|c [|]]]; try discriminate Sh.
    injection Sh as Ka Kc. unfold validate_stage_start, item_of. cbn. by rewrite Ka, Kc.
  - destruct Sh as (a & c & rest & -> & Ka & Kc & L). unfold last_item in L.
    assert (Ia : item_of a = (Accepted, ev_stage a, ev_status a)) by (unfold item_of; by rewrite Ka).
    assert (Ic : item_of c = (LifecycleClaimed, ev_stage c, ev_status c))
      by (unfold item_of; by rewrite Kc).
    cbn [map] in *. rewrite Ia, Ic in *. unfold validate_stage_start.
    destruct s0; cbn in H; try discriminate H; injection H as <-; by rewrite L.
Qed.

Lemma vstate_ok_snoc db v e ph ph' owners : vstate_ok db v →
  phase_of (rows_for (ev_identity e) db) = Some ph → step ph e = Some ph' →
  (∀ i, owners !! i = if decide (ev_identity e = i) then phase_owner ph' else owner_tokens v !! i) →
  vstate_ok (db ++ [e])
    {| histories := <[ev_identity e := history_of v (ev_identity e) ++ [item_of e]]> (histories v);
       owner_tokens := owners |}.
Proof.
  intros V P S O i. rewrite rows_for_snoc. unfold history_of in *. cbn.
  rewrite O. case_decide; subst.
  - rewrite lookup_insert_eq, map_app, phase_of_snoc, P. cbn.
    destruct (V (ev_identity e)) as [H1 _]. unfold history_of in H1. by rewrite H1, S.
  - rewrite lookup_insert_ne, app_nil_r by done. apply V.
Qed.

Lemma step_owner ph e ph' : step ph e = Some ph' → ev_kind e ≠ Accepted →
  phase_owner ph' = ev_owner e ∧ (ev_kind e ≠ LifecycleClaimed → phase_owner ph = ev_owner e).
Proof.
  unfold step. intros H N.
  destruct ph, (ev_kind e); try discriminate H; try done; try case_bool_decide; try discriminate H;
    try (destruct (ev_owner e); [|discriminate H]); cbn in H; try case_bool_decide; try discriminate H;
    try (destruct (next_stage s); [|discriminate H]); cbn in H; injection H as <-;
    try destruct (terminal_row e); split; cbn; congruence.
Qed.

Lemma completion_content e s : row_ok e → is_completion e = true → ev_stage e = Some s →
  ∀ history, existsb (fun x => bool_decide (x.1 = (StageStarted, Some s))) history = true →
  validate_completion history e = Ok tt.
Proof.
  intros [R C] K S history Hs. unfold validate_completion. rewrite S, Hs. cbn [guard res_bind].
  unfold content_ok, is_completion, is_kind in *. rewrite S in C.
  destruct (ev_kind e) eqn:Ke; try discriminate K; cbn [negb orb bool_decide] in *;
    apply andb_true_iff in C as [C1 C2].
  - rewrite C1. cbn [bool_decide negb orb guard res_bind].
    destruct (ev_response e); [|done]. by destruct (validate_stored_json _ _) as [[]|].
  - rewrite C1. cbn [bool_decide negb orb guard res_bind].
    destruct (ev_response e); [|done]. by destruct (validate_stored_json _ _) as [[]|].
Qed.

Lemma step_completion ph e ph' : step ph e = Some ph' → is_completion e = true →
  ∃ o s, ph = Running o s ∧ ev_owner e = Some o ∧ ev_stage e = Some s.
Proof.
  unfold step, is_completion, is_kind. intros H C.
  destruct ph, (ev_kind e); try discriminate H; try discriminate C; clear C;
    case_bool_decide; try discriminate H; case_bool_decide; try discriminate H; by do 2 eexists.
Qed.

Lemma step_started ph e ph' : step ph e = Some ph' → ev_kind e = StageStarted →
  ∃ o s, ph' = Running o s ∧ ev_owner e = Some o ∧ ev_stage e = Some s ∧
    match ph with
    | PClaimed _ => s = Prepare
    | Between _ t => next_stage t = Some s
    | _ => False
    end.
Proof.
  unfold step. intros H K. rewrite K in H.
  destruct ph; try discriminate H; case_bool_decide; try discriminate H; case_bool_decide;
    try discriminate H.
  - injection H as <-. eauto 10.
  - destruct (next_stage s) eqn:N; [|discriminate H]. injection H as <-. eauto 10.
Qed.

Lemma validate_row_completion db v e ph ph' : lifecycles_ok db → vstate_ok db v → row_ok e →
  phase_of (rows_for (ev_identity e) db) = Some ph → step ph e = Some ph' →
  is_completion e = true →
  ∃ v', validate_row v e = Ok v' ∧ vstate_ok (db ++ [e]) v'.
Proof.
  intros L V He P S C. destruct (V (ev_identity e)) as [Vh Vo]. rewrite P in Vo. cbn in Vo.
  pose proof (phase_of_facts _ _ (rows_for_row_ok _ _ (proj1 L)) P) as F.
  assert (N : ev_kind e ≠ Accepted ∧ ev_kind e ≠ LifecycleClaimed ∧ is_kind StageStarted e = false)
    by (unfold is_completion, is_kind in *; by destruct (ev_kind e)).
  destruct N as (N1 & N2 & N3). destruct (step_owner _ _ _ S N1) as [Ho Ho']. specialize (Ho' N2).
  destruct (step_completion _ _ _ S C) as (o & s & -> & O & St). cbn in Vo.
  eexists. split.
  - unfold validate_row. rewrite Vh, Vo, <- O, N3, bool_decide_true by done.
    rewrite (completion_content e s He C St)
      by (rewrite history_started, (f_started _ _ F); cbn; lia).
    unfold is_completion, is_kind in C. destruct (ev_kind e); done.
  - rewrite <- Vh. eapply vstate_ok_snoc; eauto.
    intros i. case_decide; [subst; cbn in Ho |- *; congruence|done].
Qed.

Lemma validate_row_ok db v e : lifecycles_ok (db ++ [e]) → vstate_ok db v →
  ∃ v', validate_row v e = Ok v' ∧ vstate_ok (db ++ [e]) v'.
Proof.
  intros L V. apply lifecycles_ok_prefix in L as (L & He & ph & ph' & P & S).
  pose proof (rows_for_row_ok (ev_identity e) db (proj1 L)) as Rs.
  pose proof (phase_shape _ _ Rs P) as Sh. pose proof (phase_of_facts _ _ Rs P) as F.
  destruct (V (ev_identity e)) as [Vh Vo]. rewrite P in Vo. cbn in Vo.
  destruct (ev_kind e) eqn:K.
  - (* accepted *)
    unfold step in S. rewrite K in S. destruct ph; try discriminate S. injection S as <-.
    assert (VA : validate_accepted (map item_of (rows_for (ev_identity e) db)) e = Ok tt).
    { rewrite Sh. destruct He as [_ C]. unfold content_ok in C. rewrite K in C.
      apply andb_true_iff in C as [_ C]. cbn [map].
      by destruct (validate_accepted [] e) as [[]|]. }
    unfold validate_row. rewrite Vh, K, VA. eexists. split; [done|]. rewrite <- Vh.
    eapply vstate_ok_snoc; eauto; [by unfold step; rewrite K|].
    intros i. case_decide; subst; done.
  - (* claimed *)
    pose proof S as S'. unfold step in S. rewrite K in S. destruct ph; try discriminate S.
    destruct (step_owner _ _ _ S' ltac:(by rewrite K)) as [Ho _].
    destruct He as [R C]. unfold content_ok in C. rewrite K in C.
    unfold validate_row, validate_claim. rewrite Vh, K, map_map. change (fun x => (item_of x).1.1) with ev_kind.
    rewrite Sh, C. cbn [guard res_bind bool_decide]. eexists. split; [done|].
    rewrite <- Vh. eapply vstate_ok_snoc; eauto. intros i.
    pose proof (row_check_columns e R) as Col. rewrite K in Col. destruct Col as [_ [o O]].
    rewrite Ho, O. cbn. case_decide; subst; [by rewrite lookup_insert_eq|by rewrite lookup_insert_ne].
  - (* started *)
    destruct (step_owner _ _ _ S ltac:(by rewrite K)) as [Ho Ho']. rewrite K in Ho'.
    specialize (Ho' ltac:(done)). unfold validate_row. rewrite Vh, K, Vo, Ho', bool_decide_true by done.
    destruct (step_started _ _ _ S K) as (o & s & -> & O & St & Hph).
    rewrite (kind_test _ _ _ K), St, (validate_stage_start_ok _ _ _ Rs P) by done.
    eexists. split; [done|]. rewrite <- Vh. eapply vstate_ok_snoc; eauto.
    intros i. case_decide; [subst; cbn|done]. cbn in Ho. congruence.
  - eapply validate_row_completion; eauto. unfold is_completion. by rewrite !(kind_test _ _ _ K).
  - eapply validate_row_completion; eauto. unfold is_completion. by rewrite !(kind_test _ _ _ K).
Qed.

Lemma validate_events_ok db : lifecycles_ok db → validate_events db = Ok tt.
Proof.
  intros L. unfold validate_events.
  assert (∃ v, validate_from {| histories := ∅; owner_tokens := ∅ |} db = Ok v ∧ vstate_ok db v)
    as (v & -> & _); [|done].
  revert L. induction db as [|e db IH] using rev_ind; intros L.
  - eexists. split; [done|]. intros i. by unfold history_of.
  - destruct (lifecycles_ok_prefix _ _ L) as [L' _]. destruct (IH L') as (v & Hv & Hok).
    destruct (validate_row_ok db v e L Hok) as (v' & Hv' & Hok').
    exists v'. split; [|done]. unfold validate_from in *. rewrite fold_left_app, Hv. cbn. done.
Qed.

(** *** Stored frames *)

(** A canonical dictionary of bounded size is a valid stored frame. *)
Lemma stored_json_ok l f maximum : canonical_json (JObj l) = Ok f → wf_dicts (JObj l) = true →
  zlen f <= maximum → validate_stored_json (Some f) maximum = Ok tt.
Proof.
  intros Hc Hw Hm. unfold validate_stored_json.
  rewrite bool_decide_eq_false_2 by by eapply canonical_json_nonempty.
  rewrite (proj2 (Z.leb_le _ _)) by done. cbn [negb andb guard res_bind].
  rewrite (loads_default_canonical _ _ Hc Hw).
  pose proof (canonical_json_sort _ _ Hc) as Hs. cbn [reraise_as res_bind sort_json] in *.
  rewrite Hs. cbn [res_bind]. by rewrite bool_decide_true.
Qed.

(** The frame of a parsed request binds the columns of its acceptance. *)
Lemma accepted_content {SHA : Sha256} {ED : Ed25519} frame key r :
  parse_signed_request frame key = Ok r →
  content_ok (accepted_event (identity r) (nonce r) (connection_sequence r) (payload_digest_ r) frame)
  = true.
Proof.
  intros H. destruct (parse_request_message frame key r H) as (sig & Hp & unsigned & _ & _ & _ & Hd).
  apply parse_canonical_sound in Hp as (Hc & Hw & Hsort & Hm).
  assert (D : DIGEST_PATTERN (payload_digest_ r) = true).
  { unfold parse_signed_request in H. inv_ok.
    match goal with E : validate_digest _ = Ok _ |- _ => rename E into Ed end.
    destruct (dict_get (u"payload") a) as [[| | | | | |p]|]; try discriminate H.
    inv_ok. by apply validate_digest_ok in Ed as [_ ?]. }
  unfold content_ok. cbn [ev_kind accepted_event ev_digest opt_matches]. rewrite D.
  unfold validate_accepted. cbn [ev_digest ev_request_frame accepted_event opt_matches].
  rewrite D, (stored_json_ok _ _ _ Hc Hw Hm). cbn [bool_decide andb guard res_bind].
  rewrite (loads_default_canonical _ _ Hc Hw), Hsort. cbn [res_bind].
  set (m := request_message r ++ _).
  change (dict_get (u"database_incarnation") m) with (Some (JStr (database_incarnation r))).
  change (dict_get (u"operation_id") m) with (Some (JStr (operation_id r))).
  change (dict_get (u"request_type") m) with (Some (JStr (request_type r))).
  change (dict_get (u"nonce") m) with (Some (JStr (nonce r))).
  change (dict_get (u"payload_digest") m) with (Some (JStr (payload_digest_ r))).
  change (dict_get (u"connection_sequence") m) with (Some (JInt (connection_sequence r))).
  unfold identity, json_is_str, json_is_int.
  cbn [ev_identity accepted_event fst snd ev_nonce ev_digest ev_sequence].
  by rewrite !bool_decide_true, Z.eqb_refl by done.
Qed.

(** ** Calls *)

(** One call of a mutating operation, with its arguments. *)
Inductive call :=
  | CAccept (r : BrokerRequest) (frame : pybytes)
  | CClaim (r : BrokerRequest) (owner broker : pystr)
  | CBegin (r : BrokerRequest) (owner stage_ : pystr)
  | COutcome (r : BrokerRequest) (owner stage_ status_ : pystr) (error : option pystr)
      (response : option pybytes)
  | CUnresolved (r : BrokerRequest) (owner stage_ reason : pystr) (response : pybytes).

Definition drop_result {S A} (m : st S A) : st S unit := let^ _ := m in st_ret tt.

Definition run_call (application_id : pystr) (ft : faults) (c : call) : st journal unit :=
  match c with
  | CAccept r f => drop_result (accept application_id ft r f)
  | CClaim r o b => drop_result (claim_lifecycle application_id ft r o b)
  | CBegin r o s => begin_stage application_id ft r o s
  | COutcome r o s t e f => record_stage_outcome application_id ft r o s t e f
  | CUnresolved r o s x f => record_stage_unresolved application_id ft r o s x f
  end.

(** A response the broker may store: the canonical encoding of a dictionary,
    as [create_signed_response] returns it. *)
Definition storable (f : pybytes) : Prop :=
  ∃ l, canonical_json (JObj l) = Ok f ∧ wf_dicts (JObj l) = true
       ∧ zlen f <= BROKER_RESPONSE_BYTES_MAX.

Definition call_ok `{Sha256} `{Ed25519} (c : call) : Prop :=
  match c with
  | CAccept r f => ∃ key, parse_signed_request f key = Ok r
  | COutcome _ _ _ _ _ (Some f) | CUnresolved _ _ _ _ f => storable f
  | _ => True
  end.

Definition journal_ok (application_id : pystr) (j : journal) : Prop :=
  jn_integrity j = true ∧ jn_schema j = SchemaExpected
  ∧ jn_meta j = [(0, application_id, BROKER_JOURNAL_SCHEMA_VERSION)]
  ∧ lifecycles_ok (jn_events j).

Lemma validate_ok application_id j : journal_ok application_id j → validate application_id j = Ok tt.
Proof.
  intros (H1 & H2 & H3 & H4). unfold validate. rewrite H1, H2, H3, !bool_decide_true by done.
  cbn [guard res_bind]. by rewrite (validate_events_ok _ H4).
Qed.

(** What a transaction may do to the journal: nothing, or append the row of
    its body. *)
Lemma transaction_cases {A} application_id ft (body : list event → res (action A)) j j' r :
  transaction application_id ft body j = (j', r) →
  j' = j ∨ ∃ e exact a db', body (jn_events j) = Ok (Append e exact a)
           ∧ insert_event (jn_events j) e = Ok db' ∧ j' = with_events j db'.
Proof.
  unfold transaction, run_body. intros H.
  destruct (check! open_journal _ _ _ in _) as [[db' [a|e exact a]]|ex] eqn:E;
    [simplify_eq; by left| |simplify_eq; by left].
  apply bind_error_ok in E as ([] & _ & E).
  assert (∃ db0, body (jn_events j) = Ok (Append e exact a)
                 ∧ insert_event (jn_events j) e = Ok db0 ∧ db' = db0) as (db0 & Hb & Hi & ->).
  { destruct (check! guard _ _ _ in _) as [[db1 x]|ex] eqn:E'; cbn [reraise_as] in E;
      [|by destruct (caught ex _)].
    simplify_eq. apply bind_error_ok in E' as ([] & _ & E').
    destruct (body (jn_events j)) as [[a0|e0 x0 a0]|]; cbn [res_bind] in E'; simplify_eq.
    apply bind_error_ok in E' as (db1 & Hi & E'). simplify_eq. eauto. }
  destruct (commit ft) as [|[]]; simplify_eq; eauto 10.
Qed.

(** The row a call may append. *)
Definition call_row (c : call) : option event :=
  match c with
  | CAccept r f => Some (accepted_event (identity r) (nonce r) (connection_sequence r)
                           (payload_digest_ r) f)
  | CClaim r o b =>
      if TOKEN_PATTERN o && TOKEN_PATTERN b then Some (claimed_event (identity r) b o) else None
  | CBegin r o s => option_map (fun s => started_event (identity r) s o) (stage_of_name s)
  | COutcome r o s t e f =>
      s ← stage_of_name s;
      if mem_str t (STAGE_STATUSES s) then Some (outcome_event (identity r) s o t e f) else None
  | CUnresolved r o s x f =>
      s ← stage_of_name s;
      if mem_str x UNRESOLVED_REASONS then Some (unresolved_event (identity r) s o x f) else None
  end.

Lemma call_row_content {SHA : Sha256} {ED : Ed25519} c e : call_ok c → call_row c = Some e →
  content_ok e = true.
Proof.
  destruct c; cbn [call_ok call_row]; intros Hc H.
  - injection H as <-. destruct Hc as [key Hc]. by eapply accepted_content.
  - destruct (TOKEN_PATTERN owner) eqn:T1; [|done]. destruct (TOKEN_PATTERN broker) eqn:T2; [|done].
    injection H as <-. unfold content_ok. cbn [ev_kind claimed_event opt_matches ev_broker ev_owner].
    by rewrite T1, T2.
  - destruct (stage_of_name stage_); [|done]. by injection H as <-.
  - destruct (stage_of_name stage_) as [s|]; [|done]. cbn in H.
    destruct (mem_str status_ (STAGE_STATUSES s)) eqn:M; [|done]. injection H as <-.
    unfold content_ok. cbn [ev_kind outcome_event ev_stage ev_status opt_matches ev_response].
    rewrite M. destruct response as [f|]; [|done]. destruct Hc as (l & H1 & H2 & H3).
    by rewrite (stored_json_ok _ _ _ H1 H2 H3).
  - destruct (stage_of_name stage_) as [s|]; [|done]. cbn in H.
    destruct (mem_str reason UNRESOLVED_REASONS) eqn:M; [|done]. injection H as <-.
    unfold content_ok. cbn [ev_kind unresolved_event ev_stage ev_reason opt_matches ev_response].
    rewrite M. destruct Hc as (l & H1 & H2 & H3). by rewrite (stored_json_ok _ _ _ H1 H2 H3).
Qed.

(** The state of a call is the state of its transaction. *)
Lemma drop_result_state {S A} (m : st S A) s s' r : drop_result m s = (s', r) → ∃ r', m s = (s', r').
Proof. unfold drop_result, st_bind, st_ret. destruct (m s) as [s1 [a|e]]; intros H; simplify_eq/=; eauto. Qed.

Lemma accept_body_append r f db e x a : accept_body r f db = Ok (Append e x a) →
  e = accepted_event (identity r) (nonce r) (connection_sequence r) (payload_digest_ r) f
  ∧ existsb (fun r0 => bool_decide (ev_nonce r0 = Some (nonce r)))
      (accepted_rows (database_incarnation r) db) = false
  ∧ match max_sequence (database_incarnation r) db with
    | Some latest => latest < connection_sequence r
    | None => True
    end.
Proof.
  unfold accept_body. intros H.
  destruct (List.find _ _).
  - apply bind_error_ok in H as ([] & _ & H). apply bind_error_ok in H as (t & _ & H). done.
  - apply bind_error_ok in H as ([] & G1 & H). apply bind_error_ok in H as ([] & G2 & H).
    simplify_eq. split_and!; [done| |].
    + destruct (existsb _ _); done.
    + destruct (max_sequence _ _); [|done]. destruct (_ <? _) eqn:E; [by breflect|done].
Qed.

Lemma run_call_appends application_id ft c j j' r : run_call application_id ft c j = (j', r) →
  j' = j ∨ ∃ e, call_row c = Some e
    ∧ insert_event (jn_events j) e = Ok (jn_events j ++ [e])
    ∧ j' = with_events j (jn_events j ++ [e])
    ∧ (ev_kind e = Accepted → ∃ r f x a, accept_body r f (jn_events j) = Ok (Append e x a)).
Proof.
  destruct c; cbn [run_call call_row]; intros H.
  - apply drop_result_state in H as [r' H]. unfold accept in H.
    apply transaction_cases in H as [->|(e & x & a & db' & Hb & Hi & ->)]; [by left|right].
    destruct (insert_event_snoc _ _ _ Hi) as [-> _].
    pose proof (accept_body_append _ _ _ _ _ _ Hb) as (-> & _). eauto 15.
  - apply drop_result_state in H as [r' H]. unfold claim_lifecycle in H.
    destruct (_ && _); [|unfold st_lift in H; simplify_eq; by left].
    apply transaction_cases in H as [->|(e & x & a & db' & Hb & Hi & ->)]; [by left|right].
    destruct (insert_event_snoc _ _ _ Hi) as [-> _].
    unfold claim_body in Hb. apply bind_error_ok in Hb as ([d|] & _ & Hb); [done|].
    destruct (List.find _ _); simplify_eq. eexists. split_and!; done.
  - unfold begin_stage in H. destruct (stage_of_name stage_); [|unfold st_lift in H; simplify_eq; by left].
    apply transaction_cases in H as [->|(e & x & a & db' & Hb & Hi & ->)]; [by left|right].
    destruct (insert_event_snoc _ _ _ Hi) as [-> _]. simplify_eq. eexists. split_and!; done.
  - unfold record_stage_outcome in H.
    destruct (stage_of_name stage_) as [s|]; [|unfold st_lift in H; simplify_eq; by left]. cbn.
    destruct (mem_str _ _); [|unfold st_lift in H; simplify_eq; by left].
    apply transaction_cases in H as [->|(e & x & a & db' & Hb & Hi & ->)]; [by left|right].
    destruct (insert_event_snoc _ _ _ Hi) as [-> _]. simplify_eq. eexists. split_and!; done.
  - unfold record_stage_unresolved in H.
    destruct (stage_of_name stage_) as [s|]; [|unfold st_lift in H; simplify_eq; by left]. cbn.
    destruct (mem_str _ _); [|unfold st_lift in H; simplify_eq; by left].
    apply transaction_cases in H as [->|(e & x & a & db' & Hb & Hi & ->)]; [by left|right].
    destruct (insert_event_snoc _ _ _ Hi) as [-> _].
    unfold unresolved_body in Hb. apply bind_error_ok in Hb as ([d|] & _ & Hb).
    + apply bind_error_ok in Hb as ([] & _ & Hb). done.
    + simplify_eq. eexists. split_and!; done.
Qed.

(** ** Reachable journals *)

Inductive reachable `{Sha256} `{Ed25519} (application_id : pystr) : journal → Prop :=
  | reach_init j0 j :
      jn_integrity j0 = true → jn_schema j0 = SchemaEmpty →
      init_journal application_id j0 = (j, Ok tt) → reachable application_id j
  | reach_call ft c j j' r :
      reachable application_id j → call_ok c → run_call application_id ft c j = (j', r) →
      reachable application_id j'.

(** A later journal: some calls have run since. *)
Inductive later `{Sha256} `{Ed25519} (application_id : pystr) : journal → journal → Prop :=
  | later_refl j : later application_id j j
  | later_call ft c j1 j2 j3 r :
      later application_id j1 j2 → call_ok c → run_call application_id ft c j2 = (j3, r) →
      later application_id j1 j3.

Section Reachable.
Context `{SHA : Sha256} `{ED : Ed25519} (application_id : pystr).

Lemma journal_ok_call ft c j j' r : journal_ok application_id j → call_ok c →
  run_call application_id ft c j = (j', r) → journal_ok application_id j'.
Proof.
  intros J C H. destruct (run_call_appends _ _ _ _ _ _ H) as [->|(e & He & Hi & -> & _)]; [done|].
  pose proof J as (H1 & H2 & H3 & H4).
  split_and!; try done.
  by destruct (insert_event_sound _ _ _ H4 (call_row_content _ _ C He) Hi).
Qed.

Lemma reachable_ok j : reachable application_id j → journal_ok application_id j.
Proof.
  induction 1 as [j0 j Hi Hs H|ft c j j' r _ IH C H]; [|by eapply journal_ok_call].
  unfold init_journal, initialize in H. destruct (APPLICATION_ID_PATTERN _); [|done].
  rewrite bool_decide_true in H by done. injection H as <- _.
  by split_and!.
Qed.

Lemma later_ok j j' : later application_id j j' → journal_ok application_id j →
  journal_ok application_id j'.
Proof.
  induction 1 as [j|ft c j1 j2 j3 r L IH C H]; [done|]. intros J.
  eapply journal_ok_call; [by apply IH|exact C|exact H].
Qed.

Lemma journal_phase j i : journal_ok application_id j →
  ∃ ph, phase_of (rows_for i (jn_events j)) = Some ph ∧ phase_facts (rows_for i (jn_events j)) ph.
Proof.
  intros (_ & _ & _ & R & P). destruct (P i) as [ph Hp]. exists ph. split; [done|].
  apply phase_of_facts; [by apply rows_for_row_ok|done].
Qed.

(** A finished operation receives no further row. *)
Lemma final_rows_fixed ft c j j' r i ph : journal_ok application_id j → call_ok c →
  run_call application_id ft c j = (j', r) →
  phase_of (rows_for i (jn_events j)) = Some ph → phase_final ph = true →
  rows_for i (jn_events j') = rows_for i (jn_events j).
Proof.
  intros J C H P Fi. destruct (run_call_appends _ _ _ _ _ _ H) as [->|(e & He & Hi & -> & _)]; [done|].
  destruct J as (_ & _ & _ & L). cbn [jn_events with_events]. rewrite rows_for_snoc.
  case_decide as D; [|by rewrite app_nil_r].
  destruct (insert_event_sound _ _ _ L (call_row_content _ _ C He) Hi) as (_ & _ & ph1 & ph2 & P1 & S).
  rewrite D, P in P1. injection P1 as <-. by destruct ph.
Qed.

Lemma later_final_rows j j' i ph : later application_id j j' → journal_ok application_id j →
  phase_of (rows_for i (jn_events j)) = Some ph → phase_final ph = true →
  rows_for i (jn_events j') = rows_for i (jn_events j).
Proof.
  induction 1 as [j|ft c j1 j2 j3 r L IH C H]; [done|]. intros J P Fi. rewrite <- (IH J P Fi).
  eapply final_rows_fixed; [by eapply later_ok|done|done| |done]. by rewrite (IH J P Fi).
Qed.

Lemma last_filter_existsb {A} (p : A → bool) l :
  match last (List.filter p l) with
  | Some a => p a = true ∧ a ∈ l
  | None => existsb p l = false
  end.
Proof.
  induction l as [|a l IH] using rev_ind; [done|].
  rewrite List.filter_app, existsb_snoc. cbn [List.filter]. destruct (p a) eqn:E.
  - rewrite last_snoc. split; [done|]. apply elem_of_app. right. by apply list_elem_of_singleton.
  - rewrite app_nil_r, orb_false_r. destruct (last _); [|done]. destruct IH. split; [done|].
    apply elem_of_app. by left.
Qed.

(** On a well-formed table [_terminal] never fails, and answers exactly for
    the finished operations. *)
Lemma terminal_total db i ph : Forall row_ok db → phase_of (rows_for i db) = Some ph →
  ∃ t, terminal db i = Ok t ∧ match t with Some _ => phase_final ph = true | None => phase_final ph = false end.
Proof.
  intros R P. pose proof (phase_of_facts _ _ (rows_for_row_ok i db R) P) as F.
  unfold terminal. pose proof (last_filter_existsb terminal_row (rows_for i db)) as Hl.
  destruct (last _) as [e|].
  - destruct Hl as [Ht Hin]. pose proof (rows_for_row_ok i db R) as R'.
    rewrite Forall_forall in R'. specialize (R' e Hin). destruct R' as [Rc _].
    assert (is_Some (ev_response e)) as [f Hf].
    { unfold row_check, terminal_row in *. destruct (ev_response e); [eauto|exfalso].
      set (b := is_launch (ev_stage e) || is_rejected (ev_status e)) in *.
      destruct (ev_kind e); try discriminate Ht; apply andb_true_iff in Rc as [_ Rc];
        [|discriminate Rc]. change (b = true) in Ht. rewrite Ht in Rc. discriminate Rc. }
    rewrite Hf. eexists. split; [done|]. cbn. rewrite <- (f_terminal _ _ F).
    apply existsb_exists. exists e. split; [by apply list_elem_of_In|done].
  - eexists. split; [done|]. by rewrite <- (f_terminal _ _ F).
Qed.

(** *** Acceptances *)

Definition sequences_of (d : pystr) (db : list event) : list Z :=
  omap ev_sequence (accepted_rows d db).
Definition nonces_of (d : pystr) (db : list event) : list pystr :=
  omap ev_nonce (accepted_rows d db).

Lemma max_sequence_bound d db :
  match max_sequence d db with
  | Some m => Forall (fun n => n <= m) (sequences_of d db)
  | None => sequences_of d db = []
  end.
Proof.
  unfold max_sequence, sequences_of. induction (accepted_rows d db) as [|r l IH]; [done|]. cbn.
  destruct (ev_sequence r) as [n|].
  - destruct (fold_right _ _ l) as [m|].
    + constructor; [lia|]. eapply Forall_impl; [exact IH|]. cbn. lia.
    + rewrite IH. repeat constructor. lia.
  - by destruct (fold_right _ _ l).
Qed.

Lemma accepted_rows_snoc d db e :
  accepted_rows d (db ++ [e]) =
  accepted_rows d db ++ (if is_kind Accepted e && bool_decide ((ev_identity e).1.1 = d) then [e] else []).
Proof. unfold accepted_rows. rewrite List.filter_app. cbn. by destruct (_ && _). Qed.

Lemma StronglySorted_snoc_lt (l : list Z) x :
  StronglySorted Z.lt l → Forall (fun n => n < x) l → StronglySorted Z.lt (l ++ [x]).
Proof.
  induction 1 as [|a l S IH F]; intros Hx; cbn; [by repeat constructor|].
  inversion Hx; subst. constructor; [by apply IH|]. apply Forall_app. auto.
Qed.

Lemma sequences_increase_call ft c j j' r d : run_call application_id ft c j = (j', r) →
  StronglySorted Z.lt (sequences_of d (jn_events j)) ∧ NoDup (nonces_of d (jn_events j)) →
  StronglySorted Z.lt (sequences_of d (jn_events j')) ∧ NoDup (nonces_of d (jn_events j')).
Proof.
  intros H [S N]. destruct (run_call_appends _ _ _ _ _ _ H) as [->|(e & _ & _ & -> & A)]; [done|].
  cbn [jn_events with_events]. unfold sequences_of, nonces_of. rewrite accepted_rows_snoc.
  destruct (is_kind Accepted e) eqn:K; cbn [andb]; [|by rewrite app_nil_r].
  case_bool_decide as D; [|by rewrite app_nil_r].
  destruct A as (rq & f & x & a & Hb); [by unfold is_kind in K; breflect|].
  apply accept_body_append in Hb as (-> & Hn & Hs). cbn in D. subst d.
  rewrite !omap_app. cbn. pose proof (max_sequence_bound (database_incarnation rq) (jn_events j)) as Hm.
  split.
  - apply StronglySorted_snoc_lt; [done|]. fold (sequences_of (database_incarnation rq) (jn_events j)).
    destruct (max_sequence _ _); [|rewrite Hm; constructor].
    eapply Forall_impl; [exact Hm|]. cbn. lia.
  - apply NoDup_app. split_and!; [done| |apply NoDup_singleton].
    intros n Hin Hn'. apply list_elem_of_singleton in Hn'. subst n.
    apply list_elem_of_omap in Hin as (r0 & Hr0 & E).
    assert (X : existsb (fun r0 => bool_decide (ev_nonce r0 = Some (nonce rq)))
      (accepted_rows (database_incarnation rq) (jn_events j)) = true).
    { apply existsb_exists. exists r0. split; [by apply list_elem_of_In|by rewrite E, bool_decide_true]. }
    congruence.
Qed.

(** *** Claims *)

(** What a transaction that runs to its commit has done. *)
Lemma run_body_ok {A} ft (body : list event → res (action A)) db db' act :
  run_body ft body db = Ok (db', act) →
  body db = Ok act ∧ match act with Return _ => db' = db | Append e _ _ => insert_event db e = Ok db' end.
Proof.
  unfold run_body. intros H.
  destruct (check! guard _ _ _ in _) as [[db1 x]|ex] eqn:E; cbn [reraise_as] in H;
    [|by destruct (caught ex _)].
  injection H as -> ->. apply bind_error_ok in E as ([] & _ & E).
  apply bind_error_ok in E as (x & Hb & E). rewrite Hb.
  destruct x; [by simplify_eq|]. apply bind_error_ok in E as (db1 & Hi & E). by simplify_eq.
Qed.

(** No row of the same kind and stage precedes a successful insertion. *)
Lemma insert_fresh db e db' i k exact : insert_event db e = Ok db' →
  i = ev_identity e → k = ev_kind e → (ev_stage e = None ∨ (ColStage, cell_of e ColStage) ∈ exact) →
  row_check e = true → Forall row_ok db → exact_event_query db i k exact = false.
Proof.
  intros Hi -> -> Hst Rc R. unfold exact_event_query.
  destruct (existsb _ db) eqn:X; [exfalso|done].
  apply existsb_exists in X as (r & Hin%list_elem_of_In & Hr). breflect. unfold is_kind in *. breflect.
  rename H into Hid, H1 into Hk, H0 into Hex.
  assert (Hrow : r ∈ rows_for (ev_identity e) db) by (by apply list_elem_of_filter).
  rewrite Forall_forall in R. destruct (R r Hin) as [Rr _].
  assert (Hs : ev_stage e = None ∨ ev_stage r = ev_stage e).
  { destruct Hst as [?|Hst]; [by left|right]. rewrite forallb_forall in Hex.
    specialize (Hex _ (proj1 (list_elem_of_In _ _) Hst)). cbn in Hex. breflect.
    destruct (ev_stage r) as [[]|], (ev_stage e) as [[]|]; cbn in Hex; done. }
  pose proof (row_check_columns e Rc) as Col. unfold insert_event in Hi. inv_ok.
  match goal with G : unique_ok _ _ = true |- _ => rename G into U end. unfold unique_ok in U.
  rewrite !andb_true_iff in U. destruct U as ((((((U1 & _) & _) & U4) & U5) & U6) & _).
  unfold is_completion, is_kind in *.
  assert (Q : ∀ p, p r = true → existsb p (rows_for (ev_identity e) db) = true)
    by (intros p Hp; apply existsb_exists; exists r; by rewrite <- list_elem_of_In).
  destruct (ev_kind e) eqn:K.
  - rewrite (Q _) in U1; [done|by rewrite Hk].
  - rewrite (Q _) in U4; [done|by rewrite Hk].
  - rewrite (Q _) in U5; [done|]. rewrite Hk. destruct Hs as [Hs|Hs], Col as [[s Es] _]; [congruence|].
    rewrite Hs, Es. by destruct s.
  - rewrite (Q _) in U6; [done|]. rewrite Hk. destruct Hs as [Hs|Hs], Col as [[s Es] _]; [congruence|].
    rewrite Hs, Es. by destruct s.
  - rewrite (Q _) in U6; [done|]. rewrite Hk. destruct Hs as [Hs|Hs], Col as [[s Es] _]; [congruence|].
    rewrite Hs, Es. by destruct s.
Qed.

(** The cells an operation verifies are those of the row it appends. *)
Definition exact_describes (e : event) (exact : list (column * cell)) : Prop :=
  Forall (fun cv => cell_of e cv.1 = cv.2) exact
  ∧ (ev_stage e = None ∨ (ColStage, cell_of e ColStage) ∈ exact).

Lemma exact_query_snoc db e exact : Forall (fun cv => cell_of e cv.1 = cv.2) exact →
  exact_event_query (db ++ [e]) (ev_identity e) (ev_kind e) exact = true.
Proof.
  intros H. unfold exact_event_query. rewrite existsb_snoc, bool_decide_true by done.
  unfold is_kind. rewrite bool_decide_true by done.
  replace (forallb _ exact) with true; [by rewrite orb_true_r|]. symmetry. apply forallb_forall.
  intros cv Hin%list_elem_of_In. rewrite Forall_forall in H. by rewrite bool_decide_true by by apply H.
Qed.

(** The verdict of a transaction: [Ok] after an insertion means the row is
    durable, and [JournalCommitAbsent] means it is not. *)
Lemma transaction_verdict {A} ft (body : list event → res (action A)) j j' r :
  journal_ok application_id j →
  (∀ e exact a, body (jn_events j) = Ok (Append e exact a) → exact_describes e exact ∧ content_ok e = true) →
  transaction application_id ft body j = (j', r) →
  match r with
  | Ok a => (j' = j ∧ body (jn_events j) = Ok (Return a))
            ∨ ∃ e exact, body (jn_events j) = Ok (Append e exact a)
              ∧ insert_event (jn_events j) e = Ok (jn_events j ++ [e])
              ∧ j' = with_events j (jn_events j ++ [e])
  | Raise ex =>
      j' = j ∨ (exn_class ex ≠ JournalCommitAbsent
        ∧ ∃ e exact a, body (jn_events j) = Ok (Append e exact a)
          ∧ insert_event (jn_events j) e = Ok (jn_events j ++ [e])
          ∧ j' = with_events j (jn_events j ++ [e]))
  end.
Proof.
  intros J HB H. unfold transaction in H.
  destruct (check! open_journal _ _ _ in _) as [[db' act]|ex] eqn:E;
    [|injection H as <- <-; by left].
  apply bind_error_ok in E as ([] & _ & E). apply run_body_ok in E as [Hb Hi].
  destruct act as [a|e exact a]; [injection H as <- <-; by left|].
  destruct (HB _ _ _ Hb) as [[Hex Hst] Hc].
  destruct (insert_event_snoc _ _ _ Hi) as [-> Rc].
  pose proof J as (J1 & J2 & J3 & J4 & J5).
  destruct (commit ft) as [|[]]; injection H as <- <-.
  - right. eauto 10.
  - assert (J' : journal_ok application_id (with_events j (jn_events j ++ [e]))).
    { split_and!; try done; by destruct (insert_event_sound _ _ _ (conj J4 J5) Hc Hi) as [[] _]. }
    unfold confirm_appended_event, verify_intended_event, open_journal.
    rewrite (validate_ok _ _ J'). cbn [jn_events with_events].
    rewrite (exact_query_snoc _ _ _ Hex).
    destruct (reconnect_fails ft), (verify_fails ft); cbn; right; eauto 10.
  - unfold confirm_appended_event, verify_intended_event.
    rewrite (insert_fresh _ _ _ _ _ _ Hi eq_refl eq_refl Hst Rc J4).
    destruct (open_journal _ _ _) as [[]|]; cbn; [|by left]. destruct (verify_fails ft); by left.
Qed.

(** *** Rows only accumulate *)

Lemma later_rows j j' e : later application_id j j' → e ∈ jn_events j → e ∈ jn_events j'.
Proof.
  induction 1 as [j|ft c j1 j2 j3 r L IH C H]; [done|]. intros He. specialize (IH He).
  destruct (run_call_appends _ _ _ _ _ _ H) as [->|(e' & _ & _ & -> & _)]; [done|].
  cbn. apply elem_of_app. by left.
Qed.

Lemma find_some_kind k rows : existsb (is_kind k) rows = true →
  ∃ r, List.find (is_kind k) rows = Some r ∧ r ∈ rows ∧ ev_kind r = k.
Proof.
  intros H. destruct (List.find _ rows) as [r|] eqn:E.
  - apply find_some in E as [Hin Hk]. unfold is_kind in Hk. breflect.
    exists r. by rewrite list_elem_of_In.
  - apply existsb_exists in H as (r & Hin & Hk). by rewrite (find_none _ _ E r Hin) in Hk.
Qed.

Lemma terminal_decision db i d : terminal db i = Ok (Some d) →
  (state d = DTerminal ∨ state d = DUnresolved) ∧ is_Some (response_frame d).
Proof.
  unfold terminal. intros H. destruct (last _) as [r|]; [|done]. destruct (ev_response r); [|done].
  injection H as <-. cbn. split; [destruct (is_kind _ _); auto|eauto].
Qed.

Lemma claim_body_claimed i o b db d x e : claim_body i o b db = Ok (Append e x d) →
  e = claimed_event i b o ∧ existsb (is_kind LifecycleClaimed) (rows_for i db) = false.
Proof.
  unfold claim_body. intros H. apply bind_error_ok in H as ([t|] & _ & H); [done|].
  destruct (List.find _ _) eqn:F; [done|]. injection H as <- _ _. split; [done|].
  destruct (existsb _ _) eqn:X; [|done]. by apply find_some_kind in X as (r & ? & _); congruence.
Qed.

Lemma claim_body_return i o b db d : claim_body i o b db = Ok (Return d) → state d ≠ DClaimed.
Proof.
  unfold claim_body. intros H. apply bind_error_ok in H as ([t|] & Ht & H).
  - injection H as <-. apply terminal_decision in Ht as [[-> | ->] _]; done.
  - destruct (List.find _ _); [|done]. by injection H as <-.
Qed.

(** A claim that is granted leaves the owner's row and found none before. *)
Lemma claim_granted ft r o b j j' d : journal_ok application_id j →
  claim_lifecycle application_id ft r o b j = (j', Ok d) → state d = DClaimed →
  claimed_event (identity r) b o ∈ jn_events j'
  ∧ existsb (is_kind LifecycleClaimed) (rows_for (identity r) (jn_events j)) = false.
Proof.
  intros J H D. unfold claim_lifecycle in H.
  destruct (TOKEN_PATTERN o && TOKEN_PATTERN b) eqn:T; [|done].
  pose proof (transaction_verdict ft (claim_body (identity r) o b) j j' (Ok d) J) as V. cbn in V. destruct V as [[_ Hb]|(e & x & Hb & _ & ->)].
  - intros e x a Hb. assert (x = [(ColBroker, CText b); (ColOwner, CText o)] ∧ e = claimed_event (identity r) b o)
      as [-> ->].
    { unfold claim_body in Hb. apply bind_error_ok in Hb as ([t|] & _ & Hb); [done|].
      destruct (List.find _ _); [done|]. by injection Hb as <- <- _. }
    split; [split; [by repeat constructor|by left]|].
    unfold content_ok. cbn [ev_kind claimed_event opt_matches ev_broker ev_owner].
    by rewrite andb_comm.
  - exact H.
  - by apply claim_body_return in Hb.
  - apply claim_body_claimed in Hb as [-> Hc]. split; [|done]. cbn. apply elem_of_app. right.
    by apply list_elem_of_singleton.
Qed.
End Reachable.

(** ** Startup positions *)

(** Where a claimed, unfinished operation stands: its owner, the stage, and
    whether the stage has started. *)
Definition phase_position (ph : phase) : option (pystr * stage * bool) :=
  match ph with
  | PClaimed o => Some (o, Prepare, false)
  | Running o s => Some (o, s, true)
  | Between o s => option_map (fun n => (o, n, false)) (next_stage s)
  | _ => None
  end.

Lemma phase_claims rows ph : phase_of rows = Some ph →
  map ev_owner (List.filter (is_kind LifecycleClaimed) rows)
  = match phase_owner ph with Some o => [Some o] | None => [] end.
Proof.
  revert ph. induction rows as [|e rows IH] using rev_ind; intros ph H; [by injection H as <-|].
  rewrite phase_of_snoc in H. destruct (phase_of rows) as [ph0|]; [|discriminate H]. cbn in H.
  specialize (IH ph0 eq_refl). rewrite List.filter_app, map_app, IH. cbn [List.filter].
  destruct (decide (ev_kind e = Accepted)) as [A|A].
  - unfold step in H. rewrite A in H. destruct ph0; try discriminate H. injection H as <-.
    by rewrite (kind_test _ _ _ A).
  - destruct (step_owner _ _ _ H A) as [Ho Ho']. destruct (decide (ev_kind e = LifecycleClaimed)) as [C|C].
    + rewrite (kind_test _ _ _ C), bool_decide_true by done. unfold step in H. rewrite C in H. destruct ph0; try discriminate H.
      destruct (ev_owner e) as [o|] eqn:O; [|discriminate H]. injection H as <-. cbn. by rewrite O.
    + rewrite <- (Ho' C) in Ho. rewrite Ho. unfold is_kind. rewrite bool_decide_false by done.
      cbn. by rewrite app_nil_r.
Qed.

Lemma existsb_ext_in {A} (p q : A → bool) l : (∀ a, a ∈ l → p a = q a) → existsb p l = existsb q l.
Proof.
  induction l as [|a l IH]; [done|]. intros H. cbn. f_equal; [apply H, list_elem_of_here|].
  apply IH. intros b Hb. apply H. by apply list_elem_of_further.
Qed.

Lemma sql_eq_some {A} `{EqDecision A} (a : option A) b : sql_eq a (Some b) = bool_decide (a = Some b).
Proof. destruct a; cbn; [apply bool_decide_ext; naive_solver|done]. Qed.

(** [incomplete_lifecycles] reconstructs the position from the rows. *)
Lemma lifecycle_position_phase rows ph o s b : Forall row_ok rows → phase_of rows = Some ph →
  phase_position ph = Some (o, s, b) → lifecycle_position rows = (s, b).
Proof.
  intros R P H. pose proof (phase_of_facts _ _ R P) as F. unfold lifecycle_position.
  assert (St : ∀ t, existsb (fun r => is_kind StageStarted r && bool_decide (ev_stage r = Some t)) rows
                    = phase_started ph t).
  { intros t. rewrite <- (f_started _ _ F). apply existsb_ext_in. intros r _. by rewrite sql_eq_some. }
  assert (Fi : phase_final ph = false) by by destruct ph.
  rewrite <- (f_terminal _ _ F) in Fi.
  assert (Co : ∀ t, existsb (fun r => is_kind StageOutcome r && bool_decide (ev_stage r = Some t)) rows
                    = phase_completed ph t).
  { intros t. rewrite <- (f_completed _ _ F). apply existsb_ext_in. intros r Hr. rewrite sql_eq_some.
    f_equal. unfold is_completion. destruct (is_kind StageUnresolved r) eqn:U; [|by rewrite orb_false_r].
    assert (X : existsb terminal_row rows = true); [|congruence].
    apply existsb_exists. exists r. rewrite <- list_elem_of_In. split; [done|].
    unfold terminal_row. unfold is_kind in U. by rewrite U. }
  cbn [List.find]. rewrite !St, !Co.
  destruct ph; try discriminate H; [by injection H as <- <- <-| |]; destruct s0; cbn in H |- *;
    try discriminate H; by injection H as <- <- <-.
Qed.

(** The phase of an operation that is claimed and not finished has a position. *)
Lemma phase_position_spec rows ph : Forall row_ok rows → phase_of rows = Some ph →
  match phase_position ph with
  | Some (o, _, _) => phase_owner ph = Some o ∧ phase_final ph = false
  | None => phase_owner ph = None ∨ phase_final ph = true
  end.
Proof.
  intros R P. destruct ph; cbn; auto. destruct (next_stage s) eqn:N; cbn; [done|].
  exfalso. pose proof (phase_of_facts _ _ R P) as F. destruct s; try discriminate N. clear N.
  (* a launch outcome is terminal, so no operation waits after it *)
  pose proof (f_completed _ _ F Launch) as Hc. cbn in Hc.
  apply existsb_exists in Hc as (r & Hin & Hr). apply andb_true_iff in Hr as [Hk Hs].
  assert (X : existsb terminal_row rows = true); [|by rewrite (f_terminal _ _ F) in X].
  apply existsb_exists. exists r. split; [done|]. rewrite sql_eq_some in Hs. breflect.
  unfold terminal_row, is_completion, is_kind in *. rewrite Hs.
  destruct (ev_kind r); try discriminate Hk; done.
Qed.

(** The entry of [incomplete_lifecycles] for an accepted row. *)
Definition incomplete_entry (db : list event) (a : event) : option IncompleteLifecycle :=
  ph ← phase_of (rows_for (ev_identity a) db);
  '(o, s, b) ← phase_position ph;
  f ← ev_request_frame a;
  Some {| il_frame := f; il_owner := o; il_stage := s; il_started := b |}.

Lemma mapM_res_app {A B} (f : A → res B) l k :
  mapM_res f (l ++ k) = let! a := mapM_res f l in let! b := mapM_res f k in Ok (a ++ b).
Proof.
  induction l as [|a l IH]; cbn; [by destruct (mapM_res f k)|].
  destruct (f a); cbn; [|done]. rewrite IH. destruct (mapM_res f l); cbn; [|done].
  by destruct (mapM_res f k).
Qed.

Lemma incomplete_of_row db a : lifecycles_ok db → a ∈ db → ev_kind a = Accepted →
  mapM_res (incomplete_of db)
    (let rows := rows_for (ev_identity a) db in
     if existsb terminal_row rows then []
     else c ← List.filter (is_kind LifecycleClaimed) rows; [(a, c)])
  = Ok (option_list (incomplete_entry db a)).
Proof.
  intros [R P] Hin K. destruct (P (ev_identity a)) as [ph Hp].
  pose proof (rows_for_row_ok (ev_identity a) db R) as Rs.
  pose proof (phase_of_facts _ _ Rs Hp) as F. pose proof (phase_claims _ _ Hp) as Hc.
  pose proof (phase_position_spec _ _ Rs Hp) as Hpos. unfold incomplete_entry. rewrite Hp. cbn.
  rewrite (f_terminal _ _ F).
  destruct (phase_position ph) as [[[o s] b]|] eqn:Pos; cbn.
  - destruct Hpos as [Ho ->]. rewrite Ho in Hc.
    destruct (List.filter _ _) as [|c [|]] eqn:Fc; try discriminate Hc. injection Hc as Hc. cbn.
    rewrite Forall_forall in R. destruct (R a Hin) as [Ra _]. unfold row_check, notnull, isnull in Ra.
    rewrite K in Ra. destruct (ev_request_frame a) as [f|]; [|by breflect].
    cbn. by rewrite (lifecycle_position_phase _ _ _ _ _ Rs Hp Pos), Hc.
  - destruct Hpos as [Ho|Hf]; [|by rewrite Hf]. destruct (phase_final ph); [done|].
    rewrite Ho in Hc. by destruct (List.filter _ _).
Qed.

Lemma incomplete_rows_entries db : lifecycles_ok db →
  mapM_res (incomplete_of db) (incomplete_rows db)
  = Ok (omap (incomplete_entry db) (List.filter (is_kind Accepted) db)).
Proof.
  intros L. unfold incomplete_rows.
  assert (Hin : ∀ a, a ∈ List.filter (is_kind Accepted) db → a ∈ db ∧ ev_kind a = Accepted).
  { intros a Ha%list_elem_of_In. apply filter_In in Ha as [H1 H2]. rewrite list_elem_of_In.
    unfold is_kind in H2. by breflect. }
  revert Hin. induction (List.filter (is_kind Accepted) db) as [|a l IH]; intros Hin; [done|].
  cbn [mbind list_bind omap list_omap]. destruct (Hin a (list_elem_of_here _ _)) as [Ha Ka].
  rewrite mapM_res_app. pose proof (incomplete_of_row db a L Ha Ka) as E. cbn zeta in E. rewrite E.
  cbn [res_bind]. rewrite IH by (intros; by apply Hin, list_elem_of_further). cbn [res_bind].
  by destruct (incomplete_entry db a).
Qed.

(** ** Properties *)

(** C3. The constraints of the table implement the lifecycle machine: on a
    well-formed table, any row whatever is inserted exactly when it is the row
    of an event, the phase of its operation has that transition and, for an
    acceptance, its nonce and sequence are new to the database. The table then
    stays well formed, if the operation checked the texts that the row holds;
    a refused insertion is an integrity error. *)
Theorem insert_event_refines (db : list event) (e : event) :
  lifecycles_ok db →
  ∃ ph, phase_of (rows_for (ev_identity e) db) = Some ph ∧
  match insert_event db e with
  | Ok db' => db' = db ++ [e] ∧ event_row e ∧ is_Some (step ph e)
              ∧ (ev_kind e = Accepted → replay_free db e = true)
              ∧ (content_ok e = true → lifecycles_ok db')
  | Raise ex => exn_class ex = IntegrityError
                ∧ (¬ event_row e ∨ step ph e = None ∨ (ev_kind e = Accepted ∧ replay_free db e = false))
  end.
Proof.
  intros L. destruct (proj2 L (ev_identity e)) as [ph P]. exists ph. split; [done|].
  pose proof (phase_of_facts _ _ (rows_for_row_ok _ _ (proj1 L)) P) as F. pose proof (row_check_iff e) as R.
  destruct (insert_event db e) as [db'|ex] eqn:H.
  - destruct (insert_event_snoc _ _ _ H) as [-> C]. pose proof (insert_is_ok db e ph F C) as I. rewrite H in I.
    symmetry in I. apply andb_true_iff in I as [I1 I2]. unfold step_ok in I1. split_and!; [done|by apply R| | |].
    + by destruct (step ph e).
    + intros K. by rewrite (kind_test _ _ _ K) in I2.
    + intros Hc. by apply (insert_event_sound _ _ _ L Hc H).
  - split; [by eapply insert_event_error|]. destruct (row_check e) eqn:C; [right|left; by rewrite <- R].
    pose proof (insert_is_ok db e ph F C) as I. rewrite H in I. symmetry in I. unfold step_ok in I. cbn [is_ok] in I.
    destruct (step ph e); [right|by left]. cbn in I. apply orb_false_iff in I as [I1 I2]. breflect. unfold is_kind in I1. by breflect.
Qed.

(** C4. Every journal the operations can produce, whatever the faults of the
    storage, opens: the validation of the whole file succeeds, and the rows of
    every operation run the lifecycle machine. *)
Theorem reachable_validates `{SHA : Sha256} `{ED : Ed25519} (application_id : pystr) (j : journal) :
  reachable application_id j → validate application_id j = Ok tt ∧ lifecycles_ok (jn_events j).
Proof.
  intros R%reachable_ok. split; [by apply validate_ok|]. by destruct R as (_ & _ & _ & ?).
Qed.

(** A finished operation is immutable: once [_terminal] answers, it gives
    the same answer after any further calls, with any faults. *)
Theorem terminal_immutable `{SHA : Sha256} `{ED : Ed25519} (application_id : pystr) (j j' : journal) (i : ident)
    (d : JournalDecision) :
  reachable application_id j → later application_id j j' →
  terminal (jn_events j) i = Ok (Some d) → terminal (jn_events j') i = Ok (Some d).
Proof.
  intros R%reachable_ok L T. destruct (journal_phase application_id j i R) as (ph & P & _).
  pose proof R as (_ & _ & _ & Rows & _).
  destruct (terminal_total _ i ph Rows P) as (t & Ht & Hf). rewrite T in Ht. injection Ht as <-.
  rewrite <- T. unfold terminal. by erewrite later_final_rows.
Qed.

(** Replay protection: within a database the accepted sequences increase
    strictly in journal order and no nonce is accepted twice. *)
Theorem acceptances_ordered `{SHA : Sha256} `{ED : Ed25519} (application_id : pystr) (j : journal) (d : pystr) :
  reachable application_id j →
  StronglySorted Z.lt (sequences_of d (jn_events j)) ∧ NoDup (nonces_of d (jn_events j)).
Proof.
  induction 1 as [j0 j Hi Hs H|ft c j j' r _ IH C H]; [|by eapply sequences_increase_call].
  unfold init_journal, initialize in H. destruct (APPLICATION_ID_PATTERN _); [|done].
  rewrite bool_decide_true in H by done. injection H as <- _. cbn. split; constructor.
Qed.

(** At most one broker owns an operation: after a claim is granted no
    later claim of the same operation is granted. *)
Theorem claim_exclusive `{SHA : Sha256} `{ED : Ed25519} (application_id : pystr) (ft ft' : faults)
    (r r' : BrokerRequest) (o b o' b' : pystr) (j j1 j2 j3 : journal) (d d' : JournalDecision) :
  reachable application_id j →
  claim_lifecycle application_id ft r o b j = (j1, Ok d) → state d = DClaimed →
  later application_id j1 j2 → identity r' = identity r →
  claim_lifecycle application_id ft' r' o' b' j2 = (j3, Ok d') → state d' ≠ DClaimed.
Proof.
  intros R%reachable_ok H D L I H' D'.
  destruct (claim_granted _ _ _ _ _ _ _ _ R H D) as [Hin _].
  assert (J2 : journal_ok application_id j2).
  { eapply later_ok; [exact L|].
    eapply (journal_ok_call application_id ft (CClaim r o b) j j1 (Ok tt)); [done|done|].
    cbn [run_call]. unfold drop_result, st_bind. by rewrite H. }
  destruct (claim_granted _ _ _ _ _ _ _ _ J2 H' D') as [_ N].
  assert (X : existsb (is_kind LifecycleClaimed) (rows_for (identity r') (jn_events j2)) = true).
  { apply existsb_exists. exists (claimed_event (identity r) b o).
    rewrite <- list_elem_of_In. split; [|done]. unfold rows_for. apply list_elem_of_filter. split; [|by eapply later_rows]. done. }
  congruence.
Qed.

(** C5. The verdict on an outcome is right even when the commit is uncertain:
    [record_stage_outcome] returns only if exactly its row was appended, and
    raises [JournalCommitAbsent] only if the journal is unchanged. *)
Theorem outcome_commit_verdict `{SHA : Sha256} `{ED : Ed25519} (application_id : pystr) (ft : faults)
    (r : BrokerRequest) (owner stage_ status_ : pystr) (error : option pystr)
    (response : option pybytes) (j j' : journal) (result : res unit) :
  reachable application_id j → call_ok (COutcome r owner stage_ status_ error response) →
  record_stage_outcome application_id ft r owner stage_ status_ error response j = (j', result) →
  match result with
  | Ok _ => ∃ e, call_row (COutcome r owner stage_ status_ error response) = Some e
                 ∧ jn_events j' = jn_events j ++ [e]
  | Raise ex => exn_class ex = JournalCommitAbsent → j' = j
  end.
Proof.
  intros R%reachable_ok C H. pose proof (λ e, call_row_content _ e C) as Hc.
  unfold record_stage_outcome in H. cbn [call_row] in *.
  destruct (stage_of_name stage_) as [s|] eqn:Es; [|unfold st_lift in H; simplify_eq; done]. cbn in *.
  destruct (mem_str status_ (STAGE_STATUSES s)) eqn:M; [|unfold st_lift in H; simplify_eq; done].
  eapply (transaction_verdict application_id) in H; [|done|].
  - destruct result as [[]|ex].
    + destruct H as [[_ H]|(e & x & Hb & _ & ->)]; [done|]. injection Hb as <- _. eauto.
    + intros X. by destruct H as [->|[Hn _]].
  - intros e x a Hb. injection Hb as <- <- _. split; [split|by apply Hc].
    + unfold stage_of_name in Es. repeat case_bool_decide; simplify_eq; by repeat constructor.
    + right. unfold stage_of_name in Es.
      repeat case_bool_decide; simplify_eq; apply list_elem_of_here.
Qed.

(** Startup recovery sees exactly the claimed, unfinished operations: in
    acceptance order, each with its original frame, its owner and the exact
    position of its lifecycle. *)
Theorem incomplete_lifecycles_exact `{SHA : Sha256} `{ED : Ed25519} (application_id : pystr)
    (j : journal) :
  reachable application_id j →
  incomplete_lifecycles application_id no_faults j
  = Ok (omap (incomplete_entry (jn_events j)) (List.filter (is_kind Accepted) (jn_events j))).
Proof.
  intros R%reachable_ok. unfold incomplete_lifecycles, read_journal, open_journal.
  rewrite (validate_ok _ _ R). cbn [no_faults connect_fails execute_fails negb guard res_bind].
  destruct R as (_ & _ & _ & L). by rewrite (incomplete_rows_entries _ L).
Qed.

(** ** Witnesses *)

Definition toy_app : pystr := u"yinshi".
Definition toy_owner : pystr := u"owner-token-0123456789".
Definition toy_parsed : BrokerRequest :=
  sorted_request toy_request [(u"limit", JInt 3); (u"workspace", JStr (u"w1"))].
Definition toy_empty : journal :=
  {| jn_integrity := true; jn_schema := SchemaEmpty; jn_meta := []; jn_events := [] |}.

(** Run calls one after another, each with its own faults. *)
Fixpoint run_calls (cs : list (faults * call)) (j : journal) : journal :=
  match cs with
  | [] => j
  | (ft, c) :: r => run_calls r (run_call toy_app ft c j).1
  end.

(** The commit of the claim fails but is durable; the first commit of the
    prepare outcome is lost. *)
Definition uncertain (durable : bool) : faults := {|
  connect_fails := false; execute_fails := false; commit := CommitError durable;
  reconnect_fails := false; verify_fails := false |}.

Definition toy_accept : call := CAccept toy_parsed toy_frame.
Definition toy_claim : call := CClaim toy_parsed toy_owner (broker_incarnation toy_parsed).
Definition toy_prepare : call := CBegin toy_parsed toy_owner (u"prepare").
Definition toy_prepared : call :=
  COutcome toy_parsed toy_owner (u"prepare") (u"prepared") None None.
Definition toy_setup : call := CBegin toy_parsed toy_owner (u"runtime_setup").
Definition toy_lost : call :=
  CUnresolved toy_parsed toy_owner (u"runtime_setup") (u"verification_unknown") toy_response_frame.

Definition toy_initial : journal := (init_journal toy_app toy_empty).1.
Definition toy_running : journal :=
  run_calls [(no_faults, toy_accept); (uncertain true, toy_claim); (no_faults, toy_prepare);
             (uncertain false, toy_prepared)] toy_initial.
Definition toy_finished : journal :=
  run_calls [(no_faults, toy_prepared); (no_faults, toy_setup); (uncertain true, toy_lost)] toy_running.

#[local] Existing Instance toy_sha256.
#[local] Existing Instance toy_ed25519.

Lemma toy_calls_ok : Forall (fun c => call_ok c) [toy_accept; toy_claim; toy_prepare; toy_prepared; toy_setup; toy_lost].
Proof.
  repeat constructor; cbn.
  - exists tt. vm_compute. reflexivity.
  - eexists (response_message (response_to toy_request (u"ok") None [(u"stage", JNull)])
             ++ [(u"signature", JStr (encode_base64url (repeat 7 64)))]).
    split_and!; vm_compute; try reflexivity; discriminate.
Qed.

Lemma run_calls_later cs j : Forall (fun fc => call_ok fc.2) cs → later toy_app j (run_calls cs j).
Proof.
  assert (G : ∀ j0, later toy_app j0 j → Forall (fun fc => call_ok fc.2) cs →
    later toy_app j0 (run_calls cs j)); [|intros; apply G; [constructor|done]].
  revert j. induction cs as [|[ft c] cs IH]; intros j j0 L F; [done|]. inversion F; subst. cbn [run_calls].
  apply IH; [|done]. destruct (run_call toy_app ft c j) as [j' r] eqn:E. cbn [fst]. by apply (later_call _ ft c j0 j j' r).
Qed.

Lemma reachable_later j j' : reachable toy_app j → later toy_app j j' → reachable toy_app j'.
Proof.
  intros R L. induction L as [|ft c j1 j2 j3 r L IH C H]; [done|].
  eapply reach_call; [by apply IH|exact C|exact H].
Qed.

Lemma toy_initial_reachable : reachable toy_app toy_initial.
Proof. by apply (reach_init toy_app toy_empty toy_initial); vm_compute. Qed.

Ltac toy_calls := pose proof toy_calls_ok as H; rewrite Forall_forall in H;
  repeat (apply Forall_cons; split;
          [apply H; repeat (apply list_elem_of_here || apply list_elem_of_further)|]);
  apply Forall_nil; exact I.

Lemma toy_running_reachable : reachable toy_app toy_running.
Proof. apply (reachable_later toy_initial); [apply toy_initial_reachable|]. apply run_calls_later. toy_calls. Qed.

Lemma toy_finished_later : later toy_app toy_running toy_finished.
Proof. apply run_calls_later. toy_calls. Qed.

Lemma insert_event_refines_witness :
  ∃ ph, phase_of (rows_for (identity toy_parsed) (jn_events toy_running)) = Some ph
  ∧ ph = Running toy_owner Prepare
  ∧ lifecycles_ok (jn_events toy_running
      ++ [outcome_event (identity toy_parsed) Prepare toy_owner (u"prepared") None None]).
Proof.
  set (e := outcome_event (identity toy_parsed) Prepare toy_owner (u"prepared") None None).
  destruct (reachable_ok toy_app _ toy_running_reachable) as (_ & _ & _ & L).
  destruct (insert_event_refines (jn_events toy_running) e L)
    as (ph & P & I).
  assert (Hi : insert_event (jn_events toy_running) e = Ok (jn_events toy_running ++ [e]))
    by (vm_compute; reflexivity).
  rewrite Hi in I. exists ph. destruct I as (_ & _ & _ & _ & I).
  split; [exact P|split; [|exact (I ltac:(vm_compute; reflexivity))]].
  assert (P' : phase_of (rows_for (identity toy_parsed) (jn_events toy_running))
    = Some (Running toy_owner Prepare)) by (vm_compute; reflexivity).
  assert (P'' : phase_of (rows_for (identity toy_parsed) (jn_events toy_running)) = Some ph) by exact P.
  congruence.
Defined.

Lemma reachable_validates_witness :
  length (jn_events toy_running) = 3%nat ∧ validate toy_app toy_running = Ok tt.
Proof.
  split; [vm_compute; reflexivity|].
  apply (reachable_validates toy_app toy_running toy_running_reachable).
Defined.

Definition toy_decision : JournalDecision := {|
  state := DUnresolved; d_stage := Some (u"runtime_setup");
  response_frame := Some toy_response_frame; owner_broker_incarnation := None |}.

Lemma terminal_immutable_witness :
  terminal (jn_events (run_calls [(no_faults, toy_prepare); (no_faults, toy_lost)] toy_finished))
    (identity toy_parsed) = Ok (Some toy_decision).
Proof.
  apply (terminal_immutable toy_app toy_finished).
  - exact (reachable_later _ _ toy_running_reachable toy_finished_later).
  - apply run_calls_later. toy_calls.
  - vm_compute. reflexivity.
Defined.

Lemma acceptances_ordered_witness :
  sequences_of (database_incarnation toy_parsed) (jn_events toy_finished) = [7]
  ∧ StronglySorted Z.lt (sequences_of (database_incarnation toy_parsed) (jn_events toy_finished)).
Proof.
  split; [vm_compute; reflexivity|].
  apply (acceptances_ordered toy_app toy_finished (database_incarnation toy_parsed)).
  exact (reachable_later _ _ toy_running_reachable toy_finished_later).
Defined.

Definition toy_accepted : journal := run_calls [(no_faults, toy_accept)] toy_initial.
Definition toy_claimed : journal := run_calls [(uncertain true, toy_claim)] toy_accepted.

Lemma toy_accepted_reachable : reachable toy_app toy_accepted.
Proof.
  apply (reachable_later toy_initial); [apply toy_initial_reachable|]. apply run_calls_later. toy_calls.
Qed.

Lemma claim_exclusive_witness :
  ∃ d d', claim_lifecycle toy_app (uncertain true) toy_parsed toy_owner
            (broker_incarnation toy_parsed) toy_accepted = (toy_claimed, Ok d)
  ∧ state d = DClaimed
  ∧ claim_lifecycle toy_app no_faults toy_parsed toy_owner (broker_incarnation toy_parsed)
      toy_claimed = (toy_claimed, Ok d')
  ∧ state d' ≠ DClaimed.
Proof.
  set (d := {| state := DClaimed; d_stage := None; response_frame := None;
               owner_broker_incarnation := Some (broker_incarnation toy_parsed) |}).
  set (d' := {| state := DInFlight; d_stage := None; response_frame := None;
               owner_broker_incarnation := Some (broker_incarnation toy_parsed) |}).
  assert (H : claim_lifecycle toy_app (uncertain true) toy_parsed toy_owner
    (broker_incarnation toy_parsed) toy_accepted = (toy_claimed, Ok d)) by (vm_compute; reflexivity).
  assert (H' : claim_lifecycle toy_app no_faults toy_parsed toy_owner (broker_incarnation toy_parsed)
      toy_claimed = (toy_claimed, Ok d')) by (vm_compute; reflexivity).
  exists d, d'. split; [exact H|]. split; [reflexivity|]. split; [exact H'|].
  exact (claim_exclusive toy_app _ _ _ _ _ _ _ _ _ _ _ _ d d' toy_accepted_reachable H eq_refl
           (later_refl toy_app toy_claimed) eq_refl H').
Defined.

Lemma outcome_commit_verdict_witness :
  record_stage_outcome toy_app (uncertain true) toy_parsed toy_owner (u"prepare") (u"prepared")
    None None toy_running
  = (run_calls [(no_faults, toy_prepared)] toy_running, Ok tt)
  ∧ ∃ e, call_row toy_prepared = Some e
    ∧ jn_events (run_calls [(no_faults, toy_prepared)] toy_running) = jn_events toy_running ++ [e].
Proof.
  assert (H : record_stage_outcome toy_app (uncertain true) toy_parsed toy_owner (u"prepare")
    (u"prepared") None None toy_running
    = (run_calls [(no_faults, toy_prepared)] toy_running, Ok tt)) by (vm_compute; reflexivity).
  split; [exact H|].
  exact (outcome_commit_verdict toy_app _ toy_parsed toy_owner (u"prepare") (u"prepared") None None
           _ _ (Ok tt) toy_running_reachable I H).
Defined.

Lemma incomplete_lifecycles_exact_witness :
  incomplete_lifecycles toy_app no_faults toy_running
  = Ok [{| il_frame := toy_frame; il_owner := toy_owner; il_stage := Prepare; il_started := true |}].
Proof.
  rewrite (incomplete_lifecycles_exact toy_app toy_running toy_running_reachable).
  vm_compute. reflexivity.
Defined.
