(* ===== verification/ExecutionBroker.v ===== *)
(** * The execution broker

    Models [services/execution_broker.py]: authentication of launch requests,
    the lifecycle that an owner runs (prepare, runtime setup, launch) with
    every way an effect can end, the persisted outcomes, the wait for another
    owner, the recovery at startup, and the routing of control frames.

    Journal operations are synchronous in the source, so other handlers run
    only while a handler awaits; each await takes the interference of the
    other handlers as an argument, a function on the shared state. *)

From S2P Require Import Prelude Text Json Crypto BrokerProtocol BrokerJournal BrokerJournalSpec.

Definition SUPPORTED_REQUEST_TYPE : pystr := u"executor.launch".
Definition REPLICA_REQUEST_TYPE : pystr := u"replica.lifecycle".
Definition REPLICA_DRAIN_REQUEST_TYPE : pystr := u"replica.drain".
Definition FORBIDDEN_LAUNCH_FIELDS : list pystr :=
  [u"capabilities"; u"cgroup"; u"command"; u"commands"; u"environment"; u"executable"; u"gid";
   u"home"; u"mount"; u"mounts"; u"path"; u"paths"; u"properties"; u"replica"; u"socket";
   u"systemd_properties"; u"uid"; u"unit"].
Definition MAX_ABANDONED_EFFECTS : Z := 64.

(** [_ERROR_CODE_PATTERN] *)
Definition ERROR_CODE_PATTERN (s : pystr) : bool :=
  match s with
  | c :: r => is_lower c && (zlen r <=? 63)
              && forallb (fun x => is_lower x || is_digit x || (x =? 95)) r
  | [] => false
  end.

(** [key.lower().replace("-", "_")] *)
Definition normalized_key (k : pystr) : pystr :=
  map (fun c => if c =? 45 then 95 else c) (lower k).

Fixpoint contains_forbidden_control (value : json) : bool :=
  match value with
  | JArr l => existsb contains_forbidden_control l
  | JObj l => existsb (fun kv => mem_str (normalized_key kv.1) FORBIDDEN_LAUNCH_FIELDS
                                 || contains_forbidden_control kv.2) l
  | _ => false
  end.

Record LauncherResult := { lr_status : pystr; lr_error : option pystr }.

(** What an effect may return: a [LauncherResult] or an object of another type. *)
Inductive raw_result := RawLauncher (r : LauncherResult) | RawOther.

Definition confirmed_launcher_result (value : raw_result) (s : stage) : option LauncherResult :=
  match value with
  | RawOther => None
  | RawLauncher v =>
      let expected := if bool_decide (s = Prepare) then u"prepared" else u"launched" in
      if bool_decide (lr_status v = expected) && bool_decide (lr_error v = None) then Some v
      else if bool_decide (lr_status v = u"rejected")
              && match lr_error v with Some e => ERROR_CODE_PATTERN e | None => false end
      then Some v
      else None
  end.

(** How waiting for an effect ends: the waiter is cancelled, the deadline
    passes, or the task is done with a value or an exception. *)
Inductive effect_outcome :=
  | WaitCancelled | WaitTimedOut | TaskReturned (v : raw_result) | TaskRaised (e : exn).

(** The shared state: the journal file, the number of abandoned effects, the
    root effects started so far, and the faults of the journal operations to
    come. *)
Record bstate := {
  bs_journal : journal;
  bs_abandoned : Z;
  bs_effects : list (ident * stage);
  bs_faults : list faults;
}.

Definition set_journal (s : bstate) (j : journal) : bstate := {|
  bs_journal := j; bs_abandoned := bs_abandoned s; bs_effects := bs_effects s;
  bs_faults := tail (bs_faults s) |}.
Definition abandon : st bstate unit := fun s => ({|
  bs_journal := bs_journal s; bs_abandoned := bs_abandoned s + 1; bs_effects := bs_effects s;
  bs_faults := bs_faults s |}, Ok tt).
(** The done callback of an abandoned task. *)
Definition consume_abandoned (s : bstate) : bstate := {|
  bs_journal := bs_journal s; bs_abandoned := bs_abandoned s - 1; bs_effects := bs_effects s;
  bs_faults := bs_faults s |}.
Definition start_effect (i : ident) (g : stage) : st bstate unit := fun s => ({|
  bs_journal := bs_journal s; bs_abandoned := bs_abandoned s;
  bs_effects := bs_effects s ++ [(i, g)]; bs_faults := bs_faults s |}, Ok tt).
Definition interfere (f : bstate → bstate) : st bstate unit := fun s => (f s, Ok tt).

Definition journal_op {A} (op : faults → st journal A) : st bstate A := fun s =>
  let '(j, r) := op (hd no_faults (bs_faults s)) (bs_journal s) in (set_journal s j, r).
Definition journal_read {A} (op : faults → journal → res A) : st bstate A := fun s =>
  (set_journal s (bs_journal s), op (hd no_faults (bs_faults s)) (bs_journal s)).

(** What surrounds one request: how its effects end, what the other handlers
    do at its awaits, and its cancellations. *)
Record env := {
  prepare_outcome : effect_outcome;
  setup_raises : bool;
  launch_outcome : effect_outcome;
  at_finalizer : bstate → bstate;
  during_prepare : bstate → bstate;
  during_launch : bstate → bstate;
  finalizer_cancelled : bool;
  request_cancelled : bool;
}.

Section Broker.
Context `{SHA : Sha256} `{ED : Ed25519}.

Record config := {
  cf_broker : pystr;
  cf_database : pystr;
  cf_uid : Z;
  cf_public : public_key;
  cf_private : private_key;
  cf_owner : pystr;
  cf_application : pystr;
  cf_retry_wait : Z;
}.

Definition authenticate_frame (cf : config) (frame : pybytes) (peer_uid : Z) : res BrokerRequest :=
  check! guard (peer_uid =? cf_uid cf) BrokerProtocolError "broker peer UID is not authorized" in
  let! request := parse_signed_request frame (cf_public cf) in
  check! guard (bool_decide (broker_incarnation request = cf_broker cf)) BrokerProtocolError
    "broker incarnation is stale" in
  check! guard (bool_decide (database_incarnation request = cf_database cf)) BrokerProtocolError
    "database incarnation is stale" in
  Ok request.

Definition authenticate (cf : config) (frame : pybytes) (peer_uid : Z) : res BrokerRequest :=
  let! request := authenticate_frame cf frame peer_uid in
  check! guard (bool_decide (request_type request = SUPPORTED_REQUEST_TYPE)) BrokerProtocolError
    "broker request type is not supported" in
  check! guard (negb (contains_forbidden_control (JObj (payload request)))) BrokerProtocolError
    "request contains forbidden launch control" in
  Ok request.

Definition confirmed_response (cf : config) (request : BrokerRequest) (result : LauncherResult)
    (g : stage) : res pybytes :=
  let launched := bool_decide (lr_status result = u"launched") in
  create_signed_response request (cf_private cf) (if launched then u"ok" else u"error")
    (if launched then None else lr_error result)
    [(u"launcher_status", JStr (lr_status result)); (u"lifecycle_stage", JStr (stage_name g))].

Definition unresolved_response (cf : config) (request : BrokerRequest) (g : stage) : res pybytes :=
  create_signed_response request (cf_private cf) (u"error") (Some (u"launcher_outcome_unresolved"))
    [(u"launcher_status", JStr (u"unresolved")); (u"lifecycle_stage", JStr (stage_name g))].

Definition record_unresolved (cf : config) (request : BrokerRequest) (g : stage) (reason : pystr) :
    st bstate pybytes :=
  let^ response := st_lift (unresolved_response cf request g) in
  do^ journal_op (fun ft => record_stage_unresolved (cf_application cf) ft request (cf_owner cf)
                              (stage_name g) reason response) in
  st_ret response.

(** The reason recorded for an exception of the effect. *)
Definition effect_reason (e : exn) : pystr :=
  if caught e [CancelledError] then u"cancellation_unknown"
  else if caught e [LauncherTimeoutError] then u"timeout_unknown"
  else if caught e [LauncherVerificationError] then u"verification_unknown"
  else if caught e [LauncherTransportError; OSError_] then u"transport_unknown"
  else u"verification_unknown".

(** [_root_effect]; the left result is a confirmed launcher result, the right
    one the response of an unresolved stage. *)
Definition root_effect (cf : config) (request : BrokerRequest) (g : stage) (out : effect_outcome)
    (others : bstate → bstate) : st bstate (LauncherResult + pybytes) := fun s0 =>
  let unresolved reason := let^ f := record_unresolved cf request g reason in st_ret (inr f) in
  if MAX_ABANDONED_EFFECTS <=? bs_abandoned s0
  then unresolved (u"timeout_unknown") s0
  else
    (do^ start_effect (identity request) g in
     do^ interfere others in
     match out with
     | WaitCancelled => do^ abandon in unresolved (u"cancellation_unknown")
     | WaitTimedOut => do^ abandon in unresolved (u"timeout_unknown")
     | TaskRaised e => unresolved (effect_reason e)
     | TaskReturned raw =>
         match confirmed_launcher_result raw g with
         | Some result => st_ret (inl result)
         | None => unresolved (u"verification_unknown")
         end
     end) s0.

(** [try: m except JournalCommitAbsent: k] *)
Definition on_commit_absent {A} (m k : st bstate A) : st bstate A := fun s =>
  match m s with
  | (s', Raise e) => if caught e [JournalCommitAbsent] then k s' else (s', Raise e)
  | r => r
  end.

Definition persist_outcome (cf : config) (request : BrokerRequest) (g : stage) (stage_status : pystr)
    (stage_error : option pystr) (response : option pybytes) : st bstate (option pybytes) :=
  on_commit_absent
    (do^ journal_op (fun ft => record_stage_outcome (cf_application cf) ft request (cf_owner cf)
                                 (stage_name g) stage_status stage_error response) in
     st_ret response)
    (let^ f := record_unresolved cf request g (u"sqlite_commit_unknown") in st_ret (Some f)).

Definition begin (cf : config) (request : BrokerRequest) (g : stage) : st bstate unit :=
  journal_op (fun ft => begin_stage (cf_application cf) ft request (cf_owner cf) (stage_name g)).

Definition the_response (o : option pybytes) (message : string) : res pybytes :=
  match o with Some f => Ok f | None => raise RuntimeError message end.

(** The launch stage of [_finalize_lifecycle]. *)
Definition finalize_launch (cf : config) (en : env) (request : BrokerRequest) : st bstate pybytes :=
  do^ begin cf request Launch in
  let^ launch := root_effect cf request Launch (launch_outcome en) (during_launch en) in
  match launch with
  | inr f => st_ret f
  | inl result =>
      let^ response := st_lift (confirmed_response cf request result Launch) in
      let^ t := persist_outcome cf request Launch (lr_status result) (lr_error result) (Some response) in
      st_lift (the_response t "terminal launch outcome has no response")
  end.

(** The runtime setup stage of [_finalize_lifecycle]. *)
Definition finalize_runtime (cf : config) (en : env) (request : BrokerRequest) : st bstate pybytes :=
  do^ begin cf request RuntimeSetup in
  do^ start_effect (identity request) RuntimeSetup in
  if setup_raises en then record_unresolved cf request RuntimeSetup (u"verification_unknown")
  else
    let^ t := persist_outcome cf request RuntimeSetup (u"runtime_ready") None None in
    match t with
    | Some f => st_ret f
    | None => finalize_launch cf en request
    end.

Definition finalize_lifecycle (cf : config) (en : env) (request : BrokerRequest) : st bstate pybytes :=
  let^ prepare := root_effect cf request Prepare (prepare_outcome en) (during_prepare en) in
  match prepare with
  | inr f => st_ret f
  | inl result =>
      if bool_decide (lr_status result = u"rejected")
      then
        let^ response := st_lift (confirmed_response cf request result Prepare) in
        let^ t := persist_outcome cf request Prepare (u"rejected") (lr_error result) (Some response) in
        st_lift (the_response t "terminal prepare outcome has no response")
      else
        let^ t := persist_outcome cf request Prepare (u"prepared") None None in
        match t with
        | Some f => st_ret f
        | None => finalize_runtime cf en request
        end
  end.

(** [_run_as_owner]: the shielded finalizer runs to its end whatever happens
    to the request; a cancelled request raises only afterwards. The finalizer
    itself handles a cancellation once it runs, so it ends cancelled only if
    it is cancelled before its first step. *)
Definition run_as_owner (cf : config) (en : env) (request : BrokerRequest) : st bstate pybytes :=
  do^ begin cf request Prepare in
  do^ interfere (at_finalizer en) in
  let^ response :=
    if finalizer_cancelled en
    then record_unresolved cf request Prepare (u"cancellation_unknown")
    else finalize_lifecycle cf en request in
  if request_cancelled en then st_lift (raise CancelledError "") else st_ret response.

Definition decided_response (d : JournalDecision) : res pybytes :=
  match response_frame d with
  | None => raise RuntimeError "terminal broker journal entry has no response"
  | Some f => Ok f
  end.

Definition is_decided (d : JournalDecision) : bool :=
  bool_decide (state d = DTerminal) || bool_decide (state d = DUnresolved).

(** [_wait_for_owner], one iteration per reading of the clock; [None] when
    the readings end before the loop does. *)
Fixpoint wait_loop (cf : config) (request : BrokerRequest) (deadline : Z)
    (polls : list (Z * (bstate → bstate))) (s : bstate) : option (bstate * res pybytes) :=
  match polls with
  | [] => None
  | (now, others) :: r =>
      if now <? deadline then
        match journal_read (fun ft => status (cf_application cf) ft request) s with
        | (s', Raise e) => Some (s', Raise e)
        | (s', Ok d) =>
            if is_decided d then Some (s', decided_response d)
            else wait_loop cf request deadline r (others s')
        end
      else Some (s, raise LauncherTransportError "broker lifecycle owner is still active")
  end.

Definition wait_for_owner (cf : config) (request : BrokerRequest)
    (polls : list (Z * (bstate → bstate))) (s : bstate) : option (bstate * res pybytes) :=
  match polls with
  | [] => None
  | (now, _) :: r => wait_loop cf request (now + cf_retry_wait cf) r s
  end.

(** [BrokerService.handle] *)
Definition handle (cf : config) (en : env) (polls : list (Z * (bstate → bstate)))
    (frame : pybytes) (peer_uid : Z) (s : bstate) : option (bstate * res pybytes) :=
  match authenticate cf frame peer_uid with
  | Raise e => Some (s, Raise e)
  | Ok request =>
      match journal_op (fun ft => accept (cf_application cf) ft request frame) s with
      | (s1, Raise e) => Some (s1, Raise e)
      | (s1, Ok decision) =>
          if is_decided decision then Some (s1, decided_response decision)
          else if negb (bool_decide (state decision = DAccepted))
          then Some (s1, raise RuntimeError "broker journal returned an invalid transition")
          else
            match journal_op (fun ft => claim_lifecycle (cf_application cf) ft request (cf_owner cf)
                                          (cf_broker cf)) s1 with
            | (s2, Raise e) => Some (s2, Raise e)
            | (s2, Ok ownership) =>
                if bool_decide (state ownership = DClaimed)
                then Some (run_as_owner cf en request s2)
                else if is_decided ownership then Some (s2, decided_response ownership)
                else if bool_decide (state ownership = DInFlight)
                then wait_for_owner cf request polls s2
                else Some (s2, raise RuntimeError "broker journal returned an invalid transition")
            end
      end
  end.

(** One iteration of [recover_startup]. *)
Definition recover_one (cf : config) (incomplete : IncompleteLifecycle) : st bstate unit :=
  let^ request := st_lift (authenticate cf (il_frame incomplete) (cf_uid cf)) in
  do^ (if il_started incomplete then st_ret tt
       else journal_op (fun ft => begin_stage (cf_application cf) ft request (il_owner incomplete)
                                    (stage_name (il_stage incomplete)))) in
  let^ response := st_lift (unresolved_response cf request (il_stage incomplete)) in
  journal_op (fun ft => record_stage_unresolved (cf_application cf) ft request (il_owner incomplete)
                (stage_name (il_stage incomplete)) (u"broker_restart_unknown") response).

Fixpoint recover_all (cf : config) (l : list IncompleteLifecycle) : st bstate unit :=
  match l with
  | [] => st_ret tt
  | il :: r => do^ recover_one cf il in recover_all cf r
  end.

Definition recover_startup (cf : config) : st bstate unit :=
  let^ l := journal_read (fun ft => incomplete_lifecycles (cf_application cf) ft) in
  recover_all cf l.

(** ** Routing of control frames *)

(** [_disabled_replica_response] *)
Definition disabled_replica_response (cf : config) (request : BrokerRequest) : res pybytes :=
  create_signed_response request (cf_private cf) (u"error") (Some (u"replica_lifecycle_disabled"))
    [(u"stage", JStr (u"ingest")); (u"state", JStr (u"rejected"));
     (u"code", JStr (u"replica_lifecycle_disabled"))].

(** Where [BrokerControlService.handle] sends a frame: the replica payload
    parsers and the coordinator are other services, taken as arguments. *)
Inductive route (A C : Type) :=
  | ToLaunch (request : BrokerRequest)
  | ToReplica (request : BrokerRequest) (authority : A)
  | ToDrain (request : BrokerRequest) (continuation : C)
  | Respond (frame : pybytes).
Arguments ToLaunch {A C} request.
Arguments ToReplica {A C} request authority.
Arguments ToDrain {A C} request continuation.
Arguments Respond {A C} frame.

Definition control_handle {A C} (authority_of : BrokerRequest → res A)
    (continuation_of : BrokerRequest → res C) (cf : config) (replica_lifecycle_enabled : bool)
    (frame : pybytes) (peer_uid : Z) : res (route A C) :=
  let! request := authenticate_frame cf frame peer_uid in
  if bool_decide (request_type request = SUPPORTED_REQUEST_TYPE) then Ok (ToLaunch request)
  else
    check! guard (mem_str (request_type request) [REPLICA_REQUEST_TYPE; REPLICA_DRAIN_REQUEST_TYPE])
      BrokerProtocolError "broker request type is not supported" in
    if negb replica_lifecycle_enabled
    then let! f := disabled_replica_response cf request in Ok (Respond f)
    else if bool_decide (request_type request = REPLICA_REQUEST_TYPE)
    then
      let! a := reraise_as (authority_of request) [TypeError; ValueError] BrokerProtocolError
                  "replica lifecycle payload is invalid" in
      Ok (ToReplica request a)
    else
      let! c := reraise_as (continuation_of request) [TypeError; ValueError] BrokerProtocolError
                  "replica drain payload is invalid" in
      Ok (ToDrain request c).
End Broker.
