(* ===== verification/ExecutionBrokerSpec.v ===== *)
(** * Correctness of the execution broker

    The program logic of the broker's handlers (a triple over the shared state
    whose facts about one operation survive the interference of the other
    handlers) and the properties of [handle] and [recover_startup]. *)

From S2P Require Import Prelude Text Json Crypto BrokerProtocol BrokerJournal BrokerJournalSpec.
From S2P Require Import ExecutionBroker.

(** ** State of one operation *)

Definition events_of (s : bstate) : list event := jn_events (bs_journal s).

(** What one operation is: its rows and the root effects started for it. *)
Definition view (i : ident) (s : bstate) : list event * list (ident * stage) :=
  (rows_for i (events_of s), filter (fun x => x.1 = i) (bs_effects s)).

Definition has_started (i : ident) (g : stage) (s : bstate) : bool :=
  existsb (fun r => is_kind StageStarted r && sql_eq (ev_stage r) (Some g)) (rows_for i (events_of s)).

(** Each root effect was started at most once, and only after its stage. *)
Definition effects_ok (s : bstate) : Prop :=
  NoDup (bs_effects s) ∧ ∀ i g, (i, g) ∈ bs_effects s → has_started i g s = true.

(** The stored terminal response of an operation. *)
Definition persisted (i : ident) (f : pybytes) (s : bstate) : Prop :=
  ∃ d, terminal (events_of s) i = Ok (Some d) ∧ response_frame d = Some f.

Definition ready (i : ident) (g : stage) (s : bstate) : Prop :=
  has_started i g s = true ∧ (i, g) ∉ bs_effects s.

Lemma ready_view i g s s' : view i s' = view i s → ready i g s → ready i g s'.
Proof.
  unfold view, ready, has_started. intros [= -> H2] [H3 H4]. split; [done|].
  intros Hin. apply H4.
  assert (Hf : (i, g) ∈ filter (fun x => x.1 = i) (bs_effects s')) by (by apply list_elem_of_filter).
  rewrite H2 in Hf. by apply list_elem_of_filter in Hf as [_ ?].
Qed.

Lemma persisted_view i f s s' : view i s' = view i s → persisted i f s → persisted i f s'.
Proof. unfold view, persisted, terminal. by intros [= -> _]. Qed.

Section Spec.
Context `{SHA : Sha256} `{ED : Ed25519} (cf : config).
Local Abbreviation app := (cf_application cf).

Definition inv (s : bstate) : Prop := journal_ok app (bs_journal s) ∧ effects_ok s.

(** What one handler may assume of the others while it awaits, for the
    operation it owns. *)
Definition rely (i : ident) (f : bstate → bstate) : Prop :=
  ∀ s, inv s → inv (f s) ∧ later app (bs_journal s) (bs_journal (f s)) ∧ view i (f s) = view i s.

Definition env_relies (i : ident) (en : env) : Prop :=
  rely i (at_finalizer en) ∧ rely i (during_prepare en) ∧ rely i (during_launch en).

(** ** Triples *)

Definition triple {A} (P : bstate → Prop) (m : st bstate A) (Q : A → bstate → Prop) : Prop :=
  ∀ s s' r, inv s → P s → m s = (s', r) →
  inv s' ∧ later app (bs_journal s) (bs_journal s')
  ∧ match r with Ok a => Q a s' | Raise _ => True end.

Lemma later_trans j1 j2 j3 : later app j1 j2 → later app j2 j3 → later app j1 j3.
Proof.
  intros L1 L2. induction L2 as [|ft c j2 j3 j4 r L IH C H]; [done|].
  eapply later_call; [by apply IH|exact C|exact H].
Qed.

Lemma triple_ret {A} (a : A) P : triple P (st_ret a) (fun x s => x = a ∧ P s).
Proof. intros s s' r I HP H. unfold st_ret in H. simplify_eq. split_and!; [done|constructor|done|done]. Qed.

Lemma triple_lift {A} (x : res A) P : triple P (st_lift x) (fun a s => x = Ok a ∧ P s).
Proof.
  intros s s' r I HP H. unfold st_lift in H. simplify_eq. split_and!; [done|constructor|].
  by destruct r.
Qed.

Lemma triple_bind {A B} P (m : st bstate A) (k : A → st bstate B) Q R :
  triple P m Q → (∀ a, triple (Q a) (k a) R) → triple P (st_bind m k) R.
Proof.
  intros Hm Hk s s' r I HP H. unfold st_bind in H. destruct (m s) as [s1 [a|e]] eqn:E.
  - destruct (Hm _ _ _ I HP E) as (I1 & L1 & Q1). destruct (Hk a _ _ _ I1 Q1 H) as (I2 & L2 & R2).
    split_and!; [done|by eapply later_trans|done].
  - simplify_eq. by destruct (Hm _ _ _ I HP E) as (I1 & L1 & _).
Qed.

Lemma triple_weaken {A} (P P' : bstate → Prop) (m : st bstate A) (Q Q' : A → bstate → Prop) :
  triple P m Q → (∀ s, P' s → P s) → (∀ a s, Q a s → Q' a s) → triple P' m Q'.
Proof.
  intros H HP HQ s s' r I HP' E. destruct (H _ _ _ I (HP _ HP') E) as (I1 & L1 & Q1).
  split_and!; [done..|]. destruct r; auto.
Qed.

Lemma triple_raise {A} (x : exn) P (Q : A → bstate → Prop) : triple P (st_lift (Raise x)) Q.
Proof. intros s s' r I _ H. unfold st_lift in H. simplify_eq. split_and!; [done|constructor|done]. Qed.

Lemma triple_interfere i f (P : bstate → Prop) : rely i f →
  (∀ s s', view i s' = view i s → P s → P s') → triple P (interfere f) (fun _ => P).
Proof.
  intros R HP s s' r I Ps H. unfold interfere in H. simplify_eq.
  destruct (R s I) as (I' & L & V). split_and!; [done|done|by eapply HP].
Qed.

(** *** Journal operations *)

Lemma effects_ok_later s s' : effects_ok s → bs_effects s' = bs_effects s →
  later app (bs_journal s) (bs_journal s') → effects_ok s'.
Proof.
  intros [N S] E L. split; [by rewrite E|]. intros i g Hin. rewrite E in Hin.
  specialize (S i g Hin). unfold has_started in *. apply existsb_exists in S as (r & Hr & Hk).
  apply existsb_exists. exists r. split; [|done]. rewrite <- list_elem_of_In in *.
  apply list_elem_of_filter in Hr as [Hi Hr]. apply list_elem_of_filter. split; [done|].
  by eapply later_rows.
Qed.

(** An operation of the handler runs as one call of the journal. *)
Lemma triple_call {A} (op : faults → st journal A) (c : call) P (Q : A → bstate → Prop) :
  call_ok c → (∀ ft j, (op ft j).1 = (run_call app ft c j).1) →
  (∀ s ft j' a, inv s → P s → op ft (bs_journal s) = (j', Ok a) →
     Q a (set_journal s j')) →
  triple P (journal_op op) Q.
Proof.
  intros C E HQ s s' r [J F] HP H. unfold journal_op in H.
  set (ft := hd no_faults (bs_faults s)) in *.
  destruct (op ft (bs_journal s)) as [j' r'] eqn:Ho. injection H as <- <-.
  specialize (E ft (bs_journal s)). rewrite Ho in E. cbn in E.
  destruct (run_call app ft c (bs_journal s)) as [j2 r2] eqn:Hc. cbn in E. subst j2.
  assert (L : later app (bs_journal s) j') by (eapply later_call; [constructor|exact C|exact Hc]).
  assert (I' : inv (set_journal s j')).
  { split; [by eapply journal_ok_call|]. by eapply effects_ok_later. }
  split_and!; [apply I'..|done|]. destruct r' as [a|]; [|done]. by eapply HQ.
Qed.

Lemma drop_result_fst {S A} (m : st S A) s : (drop_result m s).1 = (m s).1.
Proof. unfold drop_result, st_bind, st_ret. by destruct (m s) as [? [|]]. Qed.

(** *** Responses *)

Lemma create_response_storable (request : BrokerRequest) (key : private_key) (status_ : pystr)
    (error : option pystr) (result : list (pystr * json)) (f : pybytes) :
  wf_dicts (JObj result) = true →
  create_signed_response request key status_ error result = Ok f → storable f.
Proof.
  intros W H. unfold create_signed_response in H. inv_ok. breflect.
  eexists. split_and!; [eassumption| |done].
  assert (V : ∀ l, forallb (fun kv => wf_dicts kv.2) l = true → NoDup (dict_keys l) →
    wf_dicts (JObj l) = true) by (intros l ? ?; cbn [wf_dicts]; by rewrite bool_decide_true).
  apply V; [|by apply (bool_decide_unpack _)]. unfold response_message, response_to.
  cbn [Datatypes.app forallb snd r_result r_error]. rewrite W. by destruct error.
Qed.

Lemma unresolved_response_storable request g f :
  unresolved_response cf request g = Ok f → storable f.
Proof. intros H. eapply create_response_storable, H. reflexivity. Qed.

Lemma confirmed_response_storable request result g f :
  confirmed_response cf request result g = Ok f → storable f.
Proof. intros H. eapply create_response_storable, H. reflexivity. Qed.

(** *** Terminal rows *)

Lemma terminal_unique rows ph r r' : Forall row_ok rows → phase_of rows = Some ph →
  r ∈ rows → r' ∈ rows → terminal_row r = true → terminal_row r' = true → r = r'.
Proof.
  intros R P. destruct rows as [|e rows _] using rev_ind; [intros H; by inversion H|].
  rewrite phase_of_snoc in P. apply Forall_snoc in R as [R He].
  destruct (phase_of rows) as [ph0|] eqn:P0; [|discriminate P]. cbn in P.
  pose proof (phase_of_facts _ _ R P0) as F.
  assert (T : existsb terminal_row rows = false) by (rewrite (f_terminal _ _ F); by destruct ph0).
  assert (G : ∀ x, x ∈ rows ++ [e] → terminal_row x = true → x = e).
  { intros x Hx Tx. apply elem_of_app in Hx as [Hx|Hx]; [|by apply list_elem_of_singleton in Hx].
    assert (existsb terminal_row rows = true); [|congruence].
    apply existsb_exists. exists x. by rewrite <- list_elem_of_In. }
  intros H1 H2 T1 T2. by rewrite (G r), (G r').
Qed.

(** A terminal row is what [_terminal] answers with. *)
Lemma terminal_row_persisted i j r f : journal_ok app j → r ∈ rows_for i (jn_events j) →
  terminal_row r = true → ev_response r = Some f →
  ∃ d, terminal (jn_events j) i = Ok (Some d) ∧ response_frame d = Some f.
Proof.
  intros J Hr T Hf. destruct (journal_phase app j i J) as (ph & P & F).
  destruct J as (_ & _ & _ & R & _). pose proof (rows_for_row_ok i _ R) as Rs.
  unfold terminal. pose proof (last_filter_existsb terminal_row (rows_for i (jn_events j))) as Hl.
  destruct (last _) as [r'|].
  - destruct Hl as [T' Hr']. rewrite (terminal_unique _ _ r' r Rs P Hr' Hr T' T), Hf. by eexists.
  - assert (existsb terminal_row (rows_for i (jn_events j)) = true); [|congruence].
    apply existsb_exists. exists r. by rewrite <- list_elem_of_In.
Qed.

Lemma stage_of_name_name g : stage_of_name (stage_name g) = Some g.
Proof. by destruct g. Qed.

Lemma new_row_in db e : e ∈ rows_for (ev_identity e) (db ++ [e]).
Proof.
  unfold rows_for. apply list_elem_of_filter. split; [done|]. apply elem_of_app. right.
  by apply list_elem_of_singleton.
Qed.

(** An unresolved stage that is recorded is the operation's terminal state. *)
Lemma unresolved_recorded ft request g owner reason f j j' : journal_ok app j → storable f →
  record_stage_unresolved app ft request owner (stage_name g) reason f j = (j', Ok tt) →
  ∃ d, terminal (jn_events j') (identity request) = Ok (Some d) ∧ response_frame d = Some f.
Proof.
  intros J S H. pose proof (λ e, call_row_content (CUnresolved request owner (stage_name g) reason f) e S) as Hc.
  assert (J' : journal_ok app j').
  { eapply (journal_ok_call app ft (CUnresolved request owner (stage_name g) reason f)); eauto. }
  unfold record_stage_unresolved in H. cbn [call_row] in Hc. rewrite stage_of_name_name in *. cbn in Hc.
  destruct (mem_str reason UNRESOLVED_REASONS); [|done].
  pose proof (transaction_verdict app ft (unresolved_body (identity request) g owner reason f) j j'
    (Ok tt) J) as V. cbn in V. destruct V as [[-> Hb]|(e & x & Hb & _ & ->)]; [|exact H| |].
  - intros e x a Hb. unfold unresolved_body in Hb. apply bind_error_ok in Hb as ([d|] & _ & Hb).
    { apply bind_error_ok in Hb as ([] & _ & Hb). done. }
    injection Hb as <- <- _. split; [split|by apply Hc].
    + by repeat constructor.
    + right. apply list_elem_of_here.
  - unfold unresolved_body in Hb. apply bind_error_ok in Hb as ([d|] & Ht & Hb); [|done].
    apply bind_error_ok in Hb as ([] & Hq & _).
    destruct (exact_event_query _ _ _ _) eqn:Q; [|done]. unfold exact_event_query in Q.
    apply existsb_exists in Q as (r & Hin & Q). rewrite <- list_elem_of_In in Hin.
    apply andb_true_iff in Q as [Q Qx]. apply andb_true_iff in Q as [Qi Qk].
    unfold is_kind in Qk. breflect.
    eapply (terminal_row_persisted _ _ r); [done| | |].
    + by apply list_elem_of_filter.
    + unfold terminal_row. by rewrite Qk.
    + rewrite forallb_forall in Qx.
      specialize (Qx (ColResponse, CBlob f) ltac:(cbn; auto)). cbn in Qx. breflect.
      destruct (ev_response r); cbn in Qx; congruence.
  - unfold unresolved_body in Hb. apply bind_error_ok in Hb as ([d|] & Ht & Hb).
    { apply bind_error_ok in Hb as ([] & _ & Hb). done. }
    injection Hb as <- _.
    apply (terminal_row_persisted _ _ (unresolved_event (identity request) g owner reason f));
      [done|apply (new_row_in _ (unresolved_event _ _ _ _ _))|done|done].
Qed.

Lemma triple_record_unresolved request g reason P :
  triple P (record_unresolved cf request g reason) (fun f s => persisted (identity request) f s).
Proof.
  unfold record_unresolved. eapply triple_bind; [apply triple_lift|]. intros f.
  intros s s' r I [Hf _] H.
  assert (S : storable f) by by eapply unresolved_response_storable.
  revert s s' r I Hf H. 
  enough (triple (fun _ => True) (do^ journal_op (λ ft, record_stage_unresolved app ft request
    (cf_owner cf) (stage_name g) reason f) in st_ret f) (λ f s, persisted (identity request) f s)) as T.
  { intros s s' r I _ H. by apply (T s s' r). }
  eapply (triple_bind _ _ _ (fun _ s => persisted (identity request) f s)).
  - eapply (triple_call _ (CUnresolved request (cf_owner cf) (stage_name g) reason f)); [done|done|].
    intros s ft j' [] [J _] _ Ho. by eapply unresolved_recorded.
  - intros []. eapply triple_weaken; [apply triple_ret|done|]. by intros a s [-> ?].
Qed.

(** *** Stages *)

Lemma begin_granted ft request owner g j j' : journal_ok app j →
  begin_stage app ft request owner (stage_name g) j = (j', Ok tt) →
  j' = with_events j (jn_events j ++ [started_event (identity request) g owner])
  ∧ existsb (fun r => is_kind StageStarted r && sql_eq (ev_stage r) (Some g))
      (rows_for (identity request) (jn_events j)) = false.
Proof.
  intros J H. unfold begin_stage in H. rewrite stage_of_name_name in H.
  set (e := started_event (identity request) g owner) in *.
  pose proof (transaction_verdict app ft
    (λ _, Ok (Append e [(ColStage, CText (stage_name g)); (ColOwner, CText owner)] tt)) j j' (Ok tt) J) as V.
  cbn in V. destruct V as [[_ Hb]|(e' & x & Hb & Hi & ->)]; [|exact H|done|].
  - intros e' x a [= <- <- _]. split; [split|done]; [by repeat constructor|].
    right. apply list_elem_of_here.
  - injection Hb as <- _. split; [done|].
    destruct (journal_phase app j (identity request) J) as (ph & P & F).
    destruct J as (_ & _ & _ & L).
    destruct (insert_event_sound _ e _ L eq_refl Hi) as (_ & _ & ph0 & ph1 & P0 & S).
    change (ev_identity e) with (identity request) in P0. rewrite P in P0. injection P0 as <-.
    destruct (step_started _ _ _ S eq_refl) as (o & s & _ & _ & [= <-] & Hph).
    rewrite (f_started _ _ F). destruct ph; try done. cbn in Hph |- *.
    destruct s, g; simplify_eq/=; done.
Qed.

Lemma has_started_snoc i g db owner :
  existsb (fun r => is_kind StageStarted r && sql_eq (ev_stage r) (Some g))
    (rows_for i (db ++ [started_event i g owner])) = true.
Proof.
  rewrite rows_for_snoc, decide_True by done. rewrite existsb_snoc.
  replace (is_kind StageStarted _ && _) with true; [by rewrite orb_true_r|]. by destruct g.
Qed.

Lemma triple_begin request g P :
  triple P (begin cf request g) (fun _ s => ready (identity request) g s).
Proof.
  unfold begin. eapply (triple_call _ (CBegin request (cf_owner cf) (stage_name g))); [done|done|].
  intros s ft j' [] [J F] _ H. destruct (begin_granted _ _ _ _ _ _ J H) as [-> N].
  split.
  - apply has_started_snoc.
  - cbn. intros Hin. destruct F as [_ F]. specialize (F _ _ Hin). unfold has_started, events_of in F.
    congruence.
Qed.

Lemma triple_start_effect i g : triple (ready i g) (start_effect i g) (fun _ _ => True).
Proof.
  intros s s' r [J [N S]] [H1 H2] H. unfold start_effect in H. simplify_eq.
  split; [split; [exact J|split]|split; [constructor|done]].
  - cbn. apply NoDup_app. split_and!; [done| |apply NoDup_singleton].
    intros x Hx Hx'. apply list_elem_of_singleton in Hx'. by subst.
  - cbn. intros i' g' Hin. unfold has_started, events_of in *. cbn.
    apply elem_of_app in Hin as [Hin|Hin%list_elem_of_singleton]; [by apply S|]. by simplify_eq.
Qed.

Lemma triple_abandon P : triple P abandon (fun _ _ => True).
Proof. intros s s' r [J F] _ H. unfold abandon in H. simplify_eq. split; [by split|by split; [constructor|]]. Qed.

(** *** Effects *)

Definition effect_post (i : ident) (x : LauncherResult + pybytes) (s : bstate) : Prop :=
  match x with inl _ => True | inr f => persisted i f s end.

Lemma triple_unresolved_effect request g reason P :
  triple P (let^ f := record_unresolved cf request g reason in st_ret (inr f))
    (fun x s => effect_post (identity request) x s).
Proof.
  eapply triple_bind; [apply triple_record_unresolved|]. intros f.
  eapply triple_weaken; [apply triple_ret|by intros s Hs; exact Hs|]. by intros x s [-> ?].
Qed.

Lemma triple_root_effect request g out others : rely (identity request) others →
  triple (ready (identity request) g) (root_effect cf request g out others)
    (fun x s => effect_post (identity request) x s).
Proof.
  intros R s s' r I HP H. unfold root_effect in H.
  destruct (MAX_ABANDONED_EFFECTS <=? bs_abandoned s).
  - by eapply (triple_unresolved_effect request g (u"timeout_unknown") (fun _ => True)).
  - revert s s' r I HP H. eapply triple_bind; [apply triple_start_effect|]. intros [].
    eapply triple_bind; [by eapply triple_interfere|]. intros [].
    destruct out as [| |raw|e].
    + eapply triple_bind; [apply triple_abandon|]. intros []. apply triple_unresolved_effect.
    + eapply triple_bind; [apply triple_abandon|]. intros []. apply triple_unresolved_effect.
    + destruct (confirmed_launcher_result raw g); [|apply triple_unresolved_effect].
      eapply triple_weaken; [apply triple_ret|by intros s Hs; exact Hs|]. by intros x s [-> _].
    + apply triple_unresolved_effect.
Qed.

(** *** Outcomes *)

Lemma outcome_recorded ft request g owner status_ error f j j' : journal_ok app j →
  match f with Some x => storable x | None => True end →
  record_stage_outcome app ft request owner (stage_name g) status_ error f j = (j', Ok tt) →
  match f with
  | Some x => ∃ d, terminal (jn_events j') (identity request) = Ok (Some d) ∧ response_frame d = Some x
  | None => True
  end.
Proof.
  intros J S H. destruct f as [f|]; [|done].
  set (c := COutcome request owner (stage_name g) status_ error (Some f)).
  pose proof (λ e, call_row_content c e S) as Hc.
  assert (J' : journal_ok app j') by by eapply (journal_ok_call app ft c).
  unfold record_stage_outcome in H. cbn [call_row c] in Hc. rewrite stage_of_name_name in *. cbn in Hc.
  destruct (mem_str status_ (STAGE_STATUSES g)); [|done].
  set (e := outcome_event (identity request) g owner status_ error (Some f)) in *.
  eapply (transaction_verdict app) in H; [|done|].
  - destruct H as [[_ H]|(e' & x & Hb & Hi & ->)]; [done|]. injection Hb as <- _.
    destruct (insert_event_snoc _ _ _ Hi) as [_ R].
    apply (terminal_row_persisted _ _ e); [done|apply (new_row_in _ e)| |done].
    unfold row_check in R. cbn -[is_launch is_rejected] in R.
    apply andb_true_iff in R as [_ R]. unfold terminal_row. cbn -[is_launch is_rejected].
    destruct (is_launch (Some g)), (is_rejected (Some status_)); done.
  - intros e' x a Hb. injection Hb as <- <- _. split; [split|by apply Hc].
    + by repeat constructor.
    + right. apply list_elem_of_here.
Qed.

Lemma triple_persist_outcome request g status_ error f P :
  match f with Some x => storable x | None => True end →
  triple P (persist_outcome cf request g status_ error f)
    (fun x s => match x with Some f => persisted (identity request) f s | None => True end).
Proof.
  intros S s s' r I HP H. unfold persist_outcome, on_commit_absent in H.
  set (m := (do^ _ in st_ret f) : st bstate (option pybytes)) in H.
  assert (T : triple P m (fun x s => match x with Some f => persisted (identity request) f s | None => True end)).
  { subst m. eapply (triple_bind _ _ _
      (fun _ s => match f with Some f => persisted (identity request) f s | None => True end)).
    - eapply (triple_call _ (COutcome request (cf_owner cf) (stage_name g) status_ error f)).
      + by destruct f.
      + done.
      + intros s0 ft j' [] [J _] _ Ho. by eapply outcome_recorded in Ho.
    - intros _. eapply triple_weaken; [apply triple_ret|by intros ? Hs; exact Hs|]. by intros x s0 [-> ?]. }
  destruct (m s) as [s1 [x|e]] eqn:E; [simplify_eq; exact (T _ _ _ I HP E)|].
  destruct (T _ _ _ I HP E) as (I1 & L1 & _).
  destruct (caught e _); [|by simplify_eq].
  assert (U : triple (fun _ => True) (let^ f := record_unresolved cf request g (u"sqlite_commit_unknown") in st_ret (Some f))
    (fun x s => match x with Some f => persisted (identity request) f s | None => True end)).
  { eapply triple_bind; [apply triple_record_unresolved|]. intros f0.
    eapply triple_weaken; [apply triple_ret|by intros ? Hs; exact Hs|]. by intros x s0 [-> ?]. }
  destruct (U _ _ _ I1 Logic.I H) as (I2 & L2 & Q2). split_and!; [done|by eapply later_trans|done].
Qed.

Lemma triple_the_response i o message :
  triple (fun s => match o with Some f => persisted i f s | None => True end)
    (st_lift (the_response o message)) (fun f s => persisted i f s).
Proof.
  destruct o as [f|]; [|apply triple_raise].
  eapply triple_weaken; [apply triple_lift|by intros ? Hs; exact Hs|]. by intros a s [[= ->] ?].
Qed.

(** *** The lifecycle of an owner *)

Lemma triple_confirmed_response request result g P :
  triple P (st_lift (confirmed_response cf request result g)) (fun f _ => storable f).
Proof.
  eapply triple_weaken; [apply triple_lift|by intros ? Hs; exact Hs|].
  intros f s [H _]. by eapply confirmed_response_storable.
Qed.

(** Turn a fact about the value into a fact about the program. *)
Lemma triple_pure {A} (X : Prop) P (m : st bstate A) Q :
  (X → triple P m Q) → triple (fun s => X ∧ P s) m Q.
Proof. intros H s s' r I [HX HP]. by apply H. Qed.

Lemma triple_finalize_launch en request P : rely (identity request) (during_launch en) →
  triple P (finalize_launch cf en request) (fun f s => persisted (identity request) f s).
Proof.
  intros R. unfold finalize_launch. eapply triple_bind; [apply triple_begin|]. intros [].
  eapply triple_bind; [by apply triple_root_effect|]. intros [result|f].
  - eapply triple_bind; [apply triple_confirmed_response|]. intros f.
    eapply (triple_weaken (fun s => storable f ∧ True)); [|by auto|intros a s Hs; exact Hs].
    apply triple_pure. intros S. eapply triple_bind; [by apply triple_persist_outcome|].
    intros t. apply triple_the_response.
  - eapply triple_weaken; [apply triple_ret|by intros s Hs; exact Hs|]. by intros a s [-> ?].
Qed.

Lemma triple_finalize_runtime en request P : rely (identity request) (during_launch en) →
  triple P (finalize_runtime cf en request) (fun f s => persisted (identity request) f s).
Proof.
  intros R. unfold finalize_runtime. eapply triple_bind; [apply triple_begin|]. intros [].
  eapply triple_bind; [apply triple_start_effect|]. intros [].
  destruct (setup_raises en); [apply triple_record_unresolved|].
  eapply triple_bind; [by apply triple_persist_outcome|]. intros [f|].
  - eapply triple_weaken; [apply triple_ret|by intros s Hs; exact Hs|]. by intros a s [-> ?].
  - by apply triple_finalize_launch.
Qed.

Lemma triple_finalize_lifecycle en request : env_relies (identity request) en →
  triple (ready (identity request) Prepare) (finalize_lifecycle cf en request)
    (fun f s => persisted (identity request) f s).
Proof.
  intros (_ & R1 & R2). unfold finalize_lifecycle.
  eapply triple_bind; [by apply triple_root_effect|]. intros [result|f].
  - destruct (bool_decide _).
    + eapply triple_bind; [apply triple_confirmed_response|]. intros f.
      eapply (triple_weaken (fun s => storable f ∧ True)); [|by auto|intros a s Hs; exact Hs].
      apply triple_pure. intros S. eapply triple_bind; [by apply triple_persist_outcome|].
      intros t. apply triple_the_response.
    + eapply triple_bind; [by apply triple_persist_outcome|]. intros [f|].
      * eapply triple_weaken; [apply triple_ret|by intros s Hs; exact Hs|]. by intros a s [-> ?].
      * by apply triple_finalize_runtime.
  - eapply triple_weaken; [apply triple_ret|by intros s Hs; exact Hs|]. by intros a s [-> ?].
Qed.

Lemma triple_run_as_owner en request P : env_relies (identity request) en →
  triple P (run_as_owner cf en request) (fun f s => persisted (identity request) f s).
Proof.
  intros R. unfold run_as_owner. eapply triple_bind; [apply triple_begin|]. intros [].
  eapply triple_bind; [eapply triple_interfere; [apply R|apply ready_view]|]. intros [].
  eapply (triple_bind _ _ _ (fun f s => persisted (identity request) f s)).
  - destruct (finalizer_cancelled en); [apply triple_record_unresolved|].
    by apply triple_finalize_lifecycle.
  - intros f. destruct (request_cancelled en); [apply triple_raise|].
    eapply triple_weaken; [apply triple_ret|by intros s Hs; exact Hs|]. by intros a s [-> ?].
Qed.

(** *** Requests *)

(** A decision that ends the request carries the stored response. *)
Definition decision_post (i : ident) (d : JournalDecision) (s : bstate) : Prop :=
  is_decided d = true → ∃ f, response_frame d = Some f ∧ persisted i f s.

Lemma terminal_decided i s d : terminal (events_of s) i = Ok (Some d) → decision_post i d s.
Proof.
  intros H _. destruct (terminal_decision _ _ _ H) as [_ [f Hf]]. exists f. split; [done|].
  by exists d.
Qed.

Lemma authenticate_parsed frame uid request : authenticate cf frame uid = Ok request →
  parse_signed_request frame (cf_public cf) = Ok request.
Proof.
  unfold authenticate, authenticate_frame. intros H. repeat (apply bind_error_ok in H as (? & ? & H)).
  injection H as <-. repeat match goal with
  | H : res_bind _ _ = Ok _ |- _ => apply bind_error_ok in H as (? & ? & H); cbn in H
  end. by simplify_eq.
Qed.

Lemma accept_describes request frame db e x a : accept_body request frame db = Ok (Append e x a) →
  exact_describes e x ∧ a = decided DAccepted.
Proof.
  unfold accept_body. intros H. destruct (List.find _ _).
  - apply bind_error_ok in H as ([] & _ & H). apply bind_error_ok in H as (t & _ & H). done.
  - apply bind_error_ok in H as ([] & _ & H). apply bind_error_ok in H as ([] & _ & H).
    injection H as <- <- <-. split; [|done]. split; [by repeat constructor|by left].
Qed.

Lemma triple_accept request frame uid P : authenticate cf frame uid = Ok request →
  triple P (journal_op (fun ft => accept app ft request frame))
    (fun d s => decision_post (identity request) d s).
Proof.
  intros A%authenticate_parsed. assert (C : call_ok (CAccept request frame)) by by exists (cf_public cf).
  eapply (triple_call _ (CAccept request frame)); [done|intros ft j; cbn [run_call]; by rewrite drop_result_fst|].
  intros s ft j' d [J _] _ H. unfold accept in H.
  eapply (transaction_verdict app) in H; [|done|].
  - destruct H as [[-> Hb]|(e & x & Hb & _ & ->)].
    + unfold accept_body in Hb. destruct (List.find _ _).
      * apply bind_error_ok in Hb as ([] & _ & Hb). apply bind_error_ok in Hb as (t & Ht & Hb).
        injection Hb as <-. destruct t as [d|]; [|done]. by apply terminal_decided.
      * apply bind_error_ok in Hb as ([] & _ & Hb). by apply bind_error_ok in Hb as ([] & _ & Hb).
    + by apply accept_describes in Hb as [_ ->].
  - intros e x a Hb. split; [by eapply accept_describes|].
    apply accept_body_append in Hb as (-> & _). by apply (call_row_content _ _ C).
Qed.

Lemma triple_claim request P :
  triple P (journal_op (fun ft => claim_lifecycle app ft request (cf_owner cf) (cf_broker cf)))
    (fun d s => decision_post (identity request) d s).
Proof.
  eapply (triple_call _ (CClaim request (cf_owner cf) (cf_broker cf)));
    [done|intros ft j; cbn [run_call]; by rewrite drop_result_fst|].
  intros s ft j' d [J _] _ H. unfold claim_lifecycle in H. destruct (_ && _) eqn:T; [|done].
  eapply (transaction_verdict app) in H; [|done|].
  - destruct H as [[-> Hb]|(e & x & Hb & _ & ->)].
    + unfold claim_body in Hb. apply bind_error_ok in Hb as ([t|] & Ht & Hb).
      * injection Hb as <-. by apply terminal_decided.
      * destruct (List.find _ _); [|done]. by injection Hb as <-.
    + unfold claim_body in Hb. apply bind_error_ok in Hb as ([t|] & _ & Hb); [done|].
      destruct (List.find _ _); [done|]. by injection Hb as _ _ <-.
  - intros e x a Hb. unfold claim_body in Hb. apply bind_error_ok in Hb as ([t|] & _ & Hb); [done|].
    destruct (List.find _ _); [done|]. injection Hb as <- <- _.
    split; [split; [by repeat constructor|by left]|].
    unfold content_ok. cbn [ev_kind claimed_event opt_matches ev_broker ev_owner]. by rewrite andb_comm.
Qed.

(** What a waiting request may assume of the others: they keep the invariant,
    and may finish the operation it waits for. *)
Definition rely_any (f : bstate → bstate) : Prop :=
  ∀ s, inv s → inv (f s) ∧ later app (bs_journal s) (bs_journal (f s)).

Lemma inv_read s : inv s → inv (set_journal s (bs_journal s)).
Proof. intros [J F]. by split. Qed.

Lemma wait_loop_spec request deadline polls s s' r : inv s →
  Forall (fun p => rely_any p.2) polls →
  wait_loop cf request deadline polls s = Some (s', r) →
  inv s' ∧ later app (bs_journal s) (bs_journal s')
  ∧ match r with Ok f => persisted (identity request) f s' | Raise _ => True end.
Proof.
  intros I R. revert s I. induction R as [|[now others] polls Ro R IH]; intros s I H; [done|].
  cbn [wait_loop] in H. destruct (now <? deadline); [|simplify_eq; by refine (conj I (conj (later_refl _ _) _))].
  unfold journal_read in H. set (s1 := set_journal s (bs_journal s)) in *.
  assert (I1 : inv s1) by by apply inv_read.
  destruct (status _ _ _ _) as [d|e] eqn:St;
    [|simplify_eq; by refine (conj I1 (conj (later_refl _ _) _))].
  destruct (is_decided d) eqn:D.
  - injection H as <- <-. split; [done|]. split; [constructor|].
    unfold status, read_journal, open_journal in St. apply bind_error_ok in St as ([] & _ & St).
    destruct (check! guard _ _ _ in _) as [d0|] eqn:E; cbn [reraise_as] in St;
      [|by destruct (caught _ _)]. injection St as ->. apply bind_error_ok in E as ([] & _ & E).
    unfold status_query in E. apply bind_error_ok in E as ([t|] & Ht & E).
    + injection E as ->. unfold decided_response.
      destruct (terminal_decided (identity request) s1 d Ht D) as (f & -> & Hp). done.
    + destruct (List.find _ _); injection E as <-; done.
  - destruct (Ro s1 I1) as [I2 L2]. destruct (IH _ I2 H) as (I3 & L3 & Q).
    exact (conj I3 (conj (later_trans _ _ _ L2 L3) Q)).
Qed.

(** The specification of a request. *)
Lemma handle_spec en polls frame uid s s' r : inv s →
  (∀ request, authenticate cf frame uid = Ok request → env_relies (identity request) en) →
  Forall (fun p => rely_any p.2) polls →
  handle cf en polls frame uid s = Some (s', r) →
  inv s' ∧ later app (bs_journal s) (bs_journal s')
  ∧ match r with
    | Ok f => ∃ request, authenticate cf frame uid = Ok request ∧ persisted (identity request) f s'
    | Raise _ => True
    end.
Proof.
  intros I RE RP H. unfold handle in H. destruct (authenticate cf frame uid) as [request|] eqn:A;
    [|simplify_eq; by refine (conj I (conj (later_refl _ _) _))].
  assert (D : ∀ d s0, inv s0 → is_decided d = true → decision_post (identity request) d s0 →
    match decided_response d with
    | Ok f => ∃ r, Ok request = Ok r ∧ persisted (identity r) f s0 | Raise _ => True end).
  { intros d s0 _ Hd Hp. destruct (Hp Hd) as (f & Hf & P). unfold decided_response. rewrite Hf. eauto. }
  destruct (journal_op (λ ft, accept _ ft _ _) s) as [s1 [d|e]] eqn:Ha; pose proof Ha as T;
    apply (triple_accept request frame uid (fun _ => True) A s _ _ I Logic.I) in T as (I1 & L1 & P1);
    [|simplify_eq; by refine (conj I1 (conj L1 _))].
  destruct (is_decided d) eqn:Dd.
  { simplify_eq. refine (conj I1 (conj _ _)); [done|]. by apply D. }
  destruct (negb _); [simplify_eq; by refine (conj I1 (conj L1 _))|].
  destruct (journal_op (λ ft, claim_lifecycle _ ft _ _ _) s1) as [s2 [o|e]] eqn:Hc; pose proof Hc as T;
    apply (triple_claim request (fun _ => True) s1 _ _ I1 Logic.I) in T as (I2 & L2 & P2);
    [|simplify_eq; by refine (conj I2 (conj (later_trans _ _ _ L1 L2) _))].
  destruct (bool_decide _).
  { injection H as H. destruct (triple_run_as_owner en request (fun _ => True) (RE _ eq_refl) _ _ _ I2 Logic.I H)
      as (I3 & L3 & P3). refine (conj I3 (conj (later_trans _ _ _ L1 (later_trans _ _ _ L2 L3)) _)). destruct r; eauto. }
  destruct (is_decided o) eqn:Do.
  { simplify_eq. refine (conj I2 (conj (later_trans _ _ _ L1 L2) _)). by apply D. }
  destruct (bool_decide _); [|simplify_eq; by refine (conj I2 (conj (later_trans _ _ _ L1 L2) _))].
  unfold wait_for_owner in H. destruct polls as [|[now ?] polls]; [done|]. inversion RP; subst.
  eapply wait_loop_spec in H as (I3 & L3 & P3); [|done|done].
  refine (conj I3 (conj (later_trans _ _ _ L1 (later_trans _ _ _ L2 L3)) _)). destruct r; eauto.
Qed.

(** *** Retries *)

Lemma accepted_unique rows ph r r' : phase_of rows = Some ph → r ∈ rows → r' ∈ rows →
  ev_kind r = Accepted → ev_kind r' = Accepted → r = r'.
Proof.
  revert ph. induction rows as [|e rows IH] using rev_ind; intros ph P H1 H2 K1 K2; [by inversion H1|].
  rewrite phase_of_snoc in P. destruct (phase_of rows) as [ph0|] eqn:P0; [|discriminate P]. cbn in P.
  assert (G : ev_kind e = Accepted → rows = []).
  { intros K. unfold step in P. rewrite K in P. destruct ph0; try discriminate P.
    clear - P0. destruct rows as [|x rows _] using rev_ind; [done|]. rewrite phase_of_snoc in P0.
    destruct (phase_of rows) as [q|]; [|done]. cbn in P0. unfold step in P0.
    destruct q, (ev_kind x); try discriminate P0; try destruct (ev_owner x); try discriminate P0;
      try destruct (_ && _); try discriminate P0; try destruct (terminal_row x); try discriminate P0;
      destruct (next_stage s); discriminate P0. }
  apply elem_of_app in H1 as [H1|H1%list_elem_of_singleton];
    apply elem_of_app in H2 as [H2|H2%list_elem_of_singleton]; subst.
  - by eapply IH.
  - rewrite (G K2) in H1. by inversion H1.
  - rewrite (G K1) in H2. by inversion H2.
  - done.
Qed.

(** The frame a request was accepted with. *)
Definition accepted_with (request : BrokerRequest) (frame : pybytes) (j : journal) : Prop :=
  ∃ r, r ∈ rows_for (identity request) (jn_events j) ∧ ev_kind r = Accepted
       ∧ accepted_matches r request frame = true.

Lemma accepted_with_later request frame j j' : later app j j' → accepted_with request frame j →
  accepted_with request frame j'.
Proof.
  intros L (r & Hr & K & M). exists r. split_and!; [|done|done].
  apply list_elem_of_filter in Hr as [Hi Hr]. apply list_elem_of_filter. split; [done|].
  by eapply later_rows.
Qed.

Lemma accept_accepted ft request frame uid j j' d : journal_ok app j →
  authenticate cf frame uid = Ok request →
  accept app ft request frame j = (j', Ok d) → accepted_with request frame j'.
Proof.
  intros J A%authenticate_parsed H.
  assert (C : call_ok (CAccept request frame)) by by exists (cf_public cf). unfold accept in H.
  eapply (transaction_verdict app) in H; [|done|].
  - destruct H as [[-> Hb]|(e & x & Hb & _ & ->)].
    + unfold accept_body in Hb. destruct (List.find _ _) as [r|] eqn:F.
      * apply bind_error_ok in Hb as ([] & G & Hb). destruct (accepted_matches r request frame) eqn:M; [|done].
        apply find_some in F as [Hin K]. unfold is_kind in K. breflect. exists r.
        by rewrite list_elem_of_In.
      * apply bind_error_ok in Hb as ([] & _ & Hb). by apply bind_error_ok in Hb as ([] & _ & Hb).
    + apply accept_body_append in Hb as (-> & _). eexists.
      split; [apply (new_row_in _ (accepted_event _ _ _ _ _))|].
      unfold accepted_matches. cbn. by rewrite !bool_decide_true.
  - intros e x a Hb. split; [by eapply accept_describes|].
    apply accept_body_append in Hb as (-> & _). by apply (call_row_content _ _ C).
Qed.

(** Accepting the same frame again answers with the stored response. *)
Lemma accept_replay request frame j f : journal_ok app j → accepted_with request frame j →
  (∃ d, terminal (jn_events j) (identity request) = Ok (Some d) ∧ response_frame d = Some f) →
  ∃ d, accept app no_faults request frame j = (j, Ok d) ∧ is_decided d = true
       ∧ response_frame d = Some f.
Proof.
  intros J (r & Hr & K & M) (d & Ht & Hf). exists d.
  assert (Hb : accept_body request frame (jn_events j) = Ok (Return d)).
  { unfold accept_body. destruct (journal_phase app j (identity request) J) as (ph & P & _).
    destruct (find_some_kind Accepted (rows_for (identity request) (jn_events j))) as (r' & -> & Hr' & K').
    { apply existsb_exists. exists r. rewrite <- list_elem_of_In. split; [done|].
      unfold is_kind. by rewrite bool_decide_true. }
    rewrite (accepted_unique _ _ r' r P Hr' Hr K' K), M. cbn [guard res_bind]. by rewrite Ht. }
  split_and!.
  - unfold accept, transaction, open_journal, run_body. rewrite (validate_ok _ _ J).
    cbn [no_faults connect_fails execute_fails negb guard res_bind]. by rewrite Hb.
  - destruct (terminal_decision _ _ _ Ht) as [[E|E] _]; unfold is_decided; by rewrite E.
  - done.
Qed.

Lemma later_persisted i f s s' : inv s → later app (bs_journal s) (bs_journal s') →
  persisted i f s → persisted i f s'.
Proof.
  intros [J _] L (d & Ht & Hf). exists d. split; [|done].
  destruct (journal_phase app _ i J) as (ph & P & _). pose proof J as (_ & _ & _ & R & _).
  destruct (terminal_total _ i ph R P) as (t & Ht' & F). unfold events_of in Ht. rewrite Ht in Ht'.
  injection Ht' as <-. rewrite <- Ht. unfold terminal, events_of. by erewrite later_final_rows.
Qed.

Lemma handle_accepted en polls frame uid s s' f request : inv s →
  (∀ request, authenticate cf frame uid = Ok request → env_relies (identity request) en) →
  Forall (fun p => rely_any p.2) polls →
  authenticate cf frame uid = Ok request →
  handle cf en polls frame uid s = Some (s', Ok f) → accepted_with request frame (bs_journal s').
Proof.
  intros I RE RP A H. unfold handle in H. rewrite A in H.
  destruct (journal_op (λ ft, accept _ ft _ _) s) as [s1 [d|e]] eqn:Ha; [|done].
  pose proof Ha as T.
  apply (triple_accept request frame uid (fun _ => True) A s _ _ I Logic.I) in T as (I1 & L1 & P1).
  assert (W : accepted_with request frame (bs_journal s1)).
  { unfold journal_op in Ha. destruct (accept _ _ _ _ _) as [j1 r1] eqn:E. injection Ha as <- ->.
    eapply accept_accepted; [apply I|exact A|exact E]. }
  destruct (is_decided d); [by simplify_eq|]. destruct (negb _); [done|].
  destruct (journal_op (λ ft, claim_lifecycle _ ft _ _ _) s1) as [s2 [o|e]] eqn:Hc; [|done].
  apply (triple_claim request (fun _ => True) s1 _ _ I1 Logic.I) in Hc as (I2 & L2 & P2).
  pose proof (accepted_with_later _ _ _ _ L2 W) as W2.
  destruct (bool_decide _).
  { injection H as H. destruct (triple_run_as_owner en request (fun _ => True) (RE _ A) _ _ _ I2 Logic.I H)
      as (I3 & L3 & P3). by eapply accepted_with_later. }
  destruct (is_decided o); [by simplify_eq|]. destruct (bool_decide _); [|done].
  unfold wait_for_owner in H. destruct polls as [|[now ?] polls]; [done|]. inversion RP; subst.
  eapply wait_loop_spec in H as (I3 & L3 & P3); [|done|done]. by eapply accepted_with_later.
Qed.

(** *** Recovery *)

(** The stored frame of an acceptance names its operation. *)
Lemma accepted_frame_identity a f key request : row_ok a → ev_kind a = Accepted →
  ev_request_frame a = Some f → parse_signed_request f key = Ok request →
  ev_identity a = identity request.
Proof.
  intros [_ C] K Ef H. destruct (parse_request_message f key request H) as (sig & Hp & _).
  apply parse_canonical_sound in Hp as (Hc & Hw & Hsort & _).
  unfold content_ok in C. rewrite K in C. apply andb_true_iff in C as [_ C].
  destruct (validate_accepted [] a) as [[]|] eqn:V; [|done]. unfold validate_accepted in V.
  apply bind_error_ok in V as ([] & _ & V). apply bind_error_ok in V as ([] & _ & V).
  rewrite Ef, (loads_default_canonical _ _ Hc Hw), Hsort in V. cbn [res_bind] in V.
  set (m := request_message request ++ _) in V.
  change (dict_get (u"database_incarnation") m) with (Some (JStr (database_incarnation request))) in V.
  change (dict_get (u"operation_id") m) with (Some (JStr (operation_id request))) in V.
  change (dict_get (u"request_type") m) with (Some (JStr (request_type request))) in V.
  unfold json_is_str at 1 2 3 in V.
  destruct (bool_decide (database_incarnation request = _)) eqn:B1; [|done].
  destruct (bool_decide (operation_id request = _)) eqn:B2; [|done].
  destruct (bool_decide (request_type request = _)) eqn:B3; [|done].
  breflect. unfold identity. rewrite B1, B2, B3. by destruct (ev_identity a) as [[]].
Qed.

(** A call changes no rows but those of its own operation. *)
Lemma call_other_rows ft c j j' r i : run_call app ft c j = (j', r) →
  (∀ e, call_row c = Some e → ev_identity e ≠ i) →
  rows_for i (jn_events j') = rows_for i (jn_events j).
Proof.
  intros H N. destruct (run_call_appends _ _ _ _ _ _ H) as [->|(e & He & _ & -> & _)]; [done|].
  cbn [jn_events with_events]. rewrite rows_for_snoc, decide_False by by apply N.
  by rewrite app_nil_r.
Qed.

(** A step of the recovery leaves every other operation as it was. *)
Definition only (i : ident) (s s' : bstate) : Prop :=
  ∀ i', i' ≠ i → rows_for i' (events_of s') = rows_for i' (events_of s).

Lemma only_op {A} (op : faults → st journal A) c i s s' r :
  (∀ ft j, (op ft j).1 = (run_call app ft c j).1) →
  (∀ e, call_row c = Some e → ev_identity e = i) →
  journal_op op s = (s', r) → only i s s'.
Proof.
  intros E C H i' N. unfold journal_op in H.
  set (ft := hd no_faults (bs_faults s)) in *. specialize (E ft (bs_journal s)).
  destruct (op ft (bs_journal s)) as [j' r'] eqn:Ho. injection H as <- <-.
  destruct (run_call app ft c (bs_journal s)) as [j2 r2] eqn:Hc. cbn in E. subst j2.
  unfold events_of. cbn. eapply call_other_rows; [exact Hc|].
  intros e He. rewrite (C e He). congruence.
Qed.

Lemma recover_one_spec a il s s' : inv s → a ∈ events_of s → ev_kind a = Accepted →
  ev_request_frame a = Some (il_frame il) →
  recover_one cf il s = (s', Ok tt) →
  inv s' ∧ later app (bs_journal s) (bs_journal s') ∧ only (ev_identity a) s s'
  ∧ ∃ f, persisted (ev_identity a) f s'.
Proof.
  intros I Ha K Ef H. unfold recover_one in H. unfold st_bind at 1 in H. unfold st_lift at 1 in H.
  destruct (authenticate cf (il_frame il) (cf_uid cf)) as [request|] eqn:A; [|done].
  apply authenticate_parsed in A.
  pose proof I as [(_ & _ & _ & R & _) _]. rewrite Forall_forall in R.
  pose proof (accepted_frame_identity a _ _ request (R a Ha) K Ef A) as Hid.
  set (m1 := if il_started il then _ else _) in H.
  assert (T1 : ∀ s1 r1, m1 s = (s1, r1) → inv s1 ∧ later app (bs_journal s) (bs_journal s1)
    ∧ only (ev_identity a) s s1).
  { intros s1 r1 H1. subst m1. destruct (il_started il).
    { unfold st_ret in H1. simplify_eq. split_and!; [apply I..|constructor|done]. }
    set (c := CBegin request (il_owner il) (stage_name (il_stage il))).
    destruct (triple_call _ c (fun _ => True) (fun _ _ => True) Logic.I (fun _ _ => eq_refl)
      ltac:(done) s s1 r1 I Logic.I H1) as (I1 & L1 & _).
    refine (conj I1 (conj L1 _)). eapply (only_op _ c); [done| |exact H1].
    intros e. cbn. rewrite stage_of_name_name. intros [= <-]. done. }
  unfold st_bind at 1 in H. destruct (m1 s) as [s1 [[]|e]] eqn:H1; [|done].
  destruct (T1 _ _ eq_refl) as (I1 & L1 & O1). clear T1.
  unfold st_bind in H. unfold st_lift in H.
  destruct (unresolved_response cf request (il_stage il)) as [f|] eqn:Ur; [|done].
  pose proof (unresolved_response_storable _ _ _ Ur) as S.
  set (c := CUnresolved request (il_owner il) (stage_name (il_stage il)) (u"broker_restart_unknown") f).
  assert (T2 : triple (fun _ => True) (journal_op (λ ft, record_stage_unresolved app ft request
    (il_owner il) (stage_name (il_stage il)) (u"broker_restart_unknown") f))
    (λ _ s, persisted (identity request) f s)).
  { apply (triple_call _ c); [exact S|done|]. intros s0 ft j' [] [J0 _] _ Ho.
    eapply unresolved_recorded; [exact J0|exact S|exact Ho]. }
  destruct (T2 s1 s' (Ok tt) I1 Logic.I H) as (I2 & L2 & P2).
  refine (conj I2 (conj (later_trans _ _ _ L1 L2) (conj _ _))).
  - assert (O2 : only (ev_identity a) s1 s').
    { eapply (only_op _ c); [done| |exact H].
      intros e. cbn. rewrite stage_of_name_name. cbn. intros [= <-]. done. }
    intros i' N. by rewrite (O2 i' N), (O1 i' N).
  - exists f. by rewrite Hid.
Qed.

Lemma incomplete_entry_frame db a il : incomplete_entry db a = Some il →
  ev_request_frame a = Some (il_frame il).
Proof.
  unfold incomplete_entry. destruct (phase_of _) as [ph|]; cbn; [|done].
  destruct (phase_position ph) as [[[o g] b]|]; cbn; [|done].
  destruct (ev_request_frame a); cbn; [|done]. by intros [= <-].
Qed.

Lemma recover_all_spec db0 al s s' : inv s →
  Forall (fun a => a ∈ events_of s ∧ ev_kind a = Accepted) al →
  recover_all cf (omap (incomplete_entry db0) al) s = (s', Ok tt) →
  inv s' ∧ later app (bs_journal s) (bs_journal s')
  ∧ (∀ i, (∀ a, a ∈ al → is_Some (incomplete_entry db0 a) → ev_identity a ≠ i) →
       rows_for i (events_of s') = rows_for i (events_of s))
  ∧ ∀ a, a ∈ al → is_Some (incomplete_entry db0 a) → ∃ f, persisted (ev_identity a) f s'.
Proof.
  intros I F. revert s I F. induction al as [|a al IH]; intros s I F H; cbn [omap list_omap] in H.
  { cbn in H. unfold st_ret in H. simplify_eq. split_and!; [apply I..|constructor|done|]. intros a Ha. by inversion Ha. }
  inversion F as [|x l [Ha Ka] F']; subst. destruct (incomplete_entry db0 a) as [il|] eqn:E.
  - cbn in H. unfold st_bind in H. destruct (recover_one cf il s) as [s1 [[]|e]] eqn:H1; [|done].
    destruct (recover_one_spec a il s s1 I Ha Ka (incomplete_entry_frame _ _ _ E) H1)
      as (I1 & L1 & O1 & f & P1).
    destruct (IH s1 I1) as (I2 & L2 & O2 & P2); [|done|].
    { eapply Forall_impl; [exact F'|]. intros x [Hx Kx]. split; [by eapply later_rows|done]. }
    refine (conj I2 (conj (later_trans _ _ _ L1 L2) (conj _ _))).
    + intros i N. rewrite O2, O1; [done| |].
      * intros ->. eapply (N a); [apply list_elem_of_here|rewrite E; eauto|done].
      * intros x Hx. apply N. by apply list_elem_of_further.
    + intros x Hx Sx. apply elem_of_cons in Hx as [->|Hx]; [|by apply P2].
      exists f. exact (later_persisted _ _ _ _ I1 L2 P1).
  - destruct (IH s I F' H) as (I2 & L2 & O2 & P2). refine (conj I2 (conj L2 (conj _ _))).
    + intros i N. apply O2. intros x Hx. apply N. by apply list_elem_of_further.
    + intros x Hx Sx. apply elem_of_cons in Hx as [->|Hx]; [|by apply P2]. rewrite E in Sx. by destruct Sx.
Qed.

Lemma incomplete_lifecycles_entries ft j l : journal_ok app j →
  incomplete_lifecycles app ft j = Ok l →
  l = omap (incomplete_entry (jn_events j)) (List.filter (is_kind Accepted) (jn_events j)).
Proof.
  intros J H. unfold incomplete_lifecycles, read_journal in H.
  apply bind_error_ok in H as ([] & _ & H).
  destruct (check! guard _ _ _ in _) as [l0|] eqn:E; cbn [reraise_as] in H;
    [|by destruct (caught _ _)]. injection H as ->. apply bind_error_ok in E as ([] & _ & E).
  destruct J as (_ & _ & _ & L). rewrite (incomplete_rows_entries _ L) in E. by injection E.
Qed.

Lemma accepted_in db a : a ∈ List.filter (is_kind Accepted) db → a ∈ db ∧ ev_kind a = Accepted.
Proof.
  rewrite !list_elem_of_In, filter_In. intros [H1 H2]. unfold is_kind in H2. by breflect.
Qed.

(** After the recovery no operation is claimed and unfinished. *)
Lemma recover_startup_final s s' : inv s → recover_startup cf s = (s', Ok tt) →
  inv s' ∧ later app (bs_journal s) (bs_journal s')
  ∧ ∀ a, a ∈ List.filter (is_kind Accepted) (events_of s') → incomplete_entry (events_of s') a = None.
Proof.
  intros I H. unfold recover_startup, st_bind, journal_read in H.
  destruct (incomplete_lifecycles _ _ _) as [l|] eqn:E; [|done].
  pose proof I as [J _]. apply incomplete_lifecycles_entries in E; [|done]. subst l.
  set (al := List.filter _ _) in H.
  destruct (recover_all_spec (jn_events (bs_journal s)) al (set_journal s (bs_journal s)) s'
    (inv_read s I)) as (I2 & L2 & O2 & P2); [|exact H|].
  { apply Forall_forall. intros a Ha. by apply accepted_in. }
  refine (conj I2 (conj L2 _)). intros a Ha. apply accepted_in in Ha as [Ha Ka].
  destruct (incomplete_entry (events_of s') a) as [il|] eqn:E; [exfalso|done].
  assert (Row : a ∈ rows_for (ev_identity a) (events_of s')) by (by apply list_elem_of_filter).
  pose proof I2 as [J2 _]. destruct (journal_phase app _ (ev_identity a) J2) as (ph & P & _).
  unfold incomplete_entry in E. fold (events_of s') in P. rewrite P in E. cbn in E.
  destruct (phase_position ph) as [[[o g] b]|] eqn:Pos; [|done].
  assert (Fin : ∀ f, persisted (ev_identity a) f s' → False).
  { intros f (d & Ht & _). pose proof J2 as (_ & _ & _ & R2 & _).
    destruct (terminal_total _ _ ph R2 P) as (t & Ht' & Fi). unfold events_of in Ht. rewrite Ht in Ht'.
    injection Ht' as <-. by destruct ph. }
  destruct (existsb (fun x => bool_decide (ev_identity x = ev_identity a)
    && match incomplete_entry (jn_events (bs_journal s)) x with Some _ => true | None => false end) al) eqn:X.
  - apply existsb_exists in X as (x & Hx & B). apply andb_true_iff in B as [B1 B2]. breflect.
    destruct (P2 x) as [f Hf]; [by apply list_elem_of_In| |rewrite B1 in Hf; by apply (Fin f)].
    destruct (incomplete_entry _ x); [eauto|done].
  - assert (N : ∀ x, x ∈ al → is_Some (incomplete_entry (jn_events (bs_journal s)) x) →
      ev_identity x ≠ ev_identity a).
    { intros x Hx [y Hy] Ex. assert (Y : existsb (fun x => bool_decide (ev_identity x = ev_identity a)
        && match incomplete_entry (jn_events (bs_journal s)) x with Some _ => true | None => false end) al = true);
        [|congruence].
      apply existsb_exists. exists x. rewrite <- list_elem_of_In. split; [done|].
      by rewrite bool_decide_true, Hy. }
    pose proof (O2 _ N) as Same. change (events_of (set_journal s (bs_journal s))) with (events_of s) in Same.
    rewrite Same in Row, P. apply list_elem_of_filter in Row as [_ Row].
    apply (N a); [|unfold incomplete_entry; fold (events_of s); rewrite P; cbn; rewrite Pos; cbn|done].
    + unfold al. rewrite list_elem_of_In, filter_In, <- list_elem_of_In. split; [done|].
      unfold is_kind. by rewrite bool_decide_true.
    + destruct (ev_request_frame a); [eauto|done].
Qed.
End Spec.

(** ** Runs of the broker *)

(** The states of a broker over any number of requests, journal calls and
    restarts; the log of root effects outlives the process. *)
Inductive broker_reachable `{SHA : Sha256} `{ED : Ed25519} (cf : config) : bstate → Prop :=
  | broker_init j fts : reachable (cf_application cf) j →
      broker_reachable cf {| bs_journal := j; bs_abandoned := 0; bs_effects := []; bs_faults := fts |}
  | broker_handle en polls frame uid s s' r : broker_reachable cf s →
      (∀ request, authenticate cf frame uid = Ok request → env_relies cf (identity request) en) →
      Forall (fun p => rely_any cf p.2) polls →
      handle cf en polls frame uid s = Some (s', r) → broker_reachable cf s'
  | broker_call ft c s j' r : broker_reachable cf s → call_ok c →
      run_call (cf_application cf) ft c (bs_journal s) = (j', r) →
      broker_reachable cf (set_journal s j')
  | broker_restart s fts : broker_reachable cf s →
      broker_reachable cf {| bs_journal := bs_journal s; bs_abandoned := 0;
                             bs_effects := bs_effects s; bs_faults := fts |}.

Lemma broker_reachable_inv `{SHA : Sha256} `{ED : Ed25519} cf s : broker_reachable cf s → inv cf s.
Proof.
  induction 1 as [j fts R|en polls frame uid s s' r _ I RE RP H|ft c s j' r _ I C H|s fts _ I].
  - split; [by apply reachable_ok|]. split; [constructor|]. intros i g Hin. by inversion Hin.
  - by destruct (handle_spec cf en polls frame uid s s' r I RE RP H).
  - destruct I as [J F]. split; [by eapply journal_ok_call|].
    eapply (effects_ok_later cf); [exact F|done|]. eapply later_call; [constructor|exact C|exact H].
  - by destruct I.
Qed.

(** A key at some depth of a JSON value. *)
Inductive key_in (k : pystr) : json → Prop :=
  | key_here l v : (k, v) ∈ l → key_in k (JObj l)
  | key_member l k' v : (k', v) ∈ l → key_in k v → key_in k (JObj l)
  | key_item l v : v ∈ l → key_in k v → key_in k (JArr l).

Lemma forbidden_key_found k v : key_in k v →
  mem_str (normalized_key k) FORBIDDEN_LAUNCH_FIELDS = true → contains_forbidden_control v = true.
Proof.
  intros H M. induction H as [l v Hin|l k' v Hin _ IH|l v Hin _ IH]; cbn [contains_forbidden_control];
    apply existsb_exists.
  - exists (k, v). rewrite <- list_elem_of_In. split; [done|]. cbn [fst snd]. by rewrite M.
  - exists (k', v). rewrite <- list_elem_of_In. split; [done|]. cbn [fst snd]. by rewrite IH, orb_true_r.
  - exists v. by rewrite <- list_elem_of_In.
Qed.

Lemma wait_loop_ends `{SHA : Sha256} `{ED : Ed25519} cf request deadline polls s :
  Exists (fun p => deadline <= p.1) polls → is_Some (wait_loop cf request deadline polls s).
Proof.
  intros H. revert s. induction H as [[now f] polls Hn|[now f] polls H IH]; intros s; cbn [wait_loop fst] in *.
  - destruct (now <? deadline) eqn:E; [breflect; lia|eauto].
  - destruct (now <? deadline); [|eauto]. destruct (journal_read _ s) as [s' [d|e]]; [|eauto].
    destruct (is_decided d); eauto.
Qed.

(** ** Properties *)

(** C6. The broker answers only with what it has stored: when a request
    returns, whatever the effects, the storage faults and the other handlers
    did, the response is the terminal response of its operation in the
    journal. *)
Theorem handle_persists `{SHA : Sha256} `{ED : Ed25519} (cf : config) (en : env)
    (polls : list (Z * (bstate → bstate))) (frame f : pybytes) (uid : Z) (s s' : bstate) :
  inv cf s →
  (∀ request, authenticate cf frame uid = Ok request → env_relies cf (identity request) en) →
  Forall (fun p => rely_any cf p.2) polls →
  handle cf en polls frame uid s = Some (s', Ok f) →
  ∃ request d, authenticate cf frame uid = Ok request
    ∧ terminal (jn_events (bs_journal s')) (identity request) = Ok (Some d)
    ∧ response_frame d = Some f.
Proof.
  intros I RE RP H. destruct (handle_spec cf en polls frame uid s s' _ I RE RP H)
    as (_ & _ & request & A & d & Ht & Hf). eauto.
Qed.

(** Retries are idempotent: after a request has returned a response, the
    same frame at any later time (the storage working) returns the same
    response, and neither the journal nor the effects change. *)
Theorem handle_retry `{SHA : Sha256} `{ED : Ed25519} (cf : config) (en en' : env)
    (polls polls' : list (Z * (bstate → bstate))) (frame f : pybytes) (uid : Z) (s s' s2 : bstate) :
  inv cf s →
  (∀ request, authenticate cf frame uid = Ok request → env_relies cf (identity request) en) →
  Forall (fun p => rely_any cf p.2) polls →
  handle cf en polls frame uid s = Some (s', Ok f) →
  later (cf_application cf) (bs_journal s') (bs_journal s2) → bs_faults s2 = [] →
  handle cf en' polls' frame uid s2 = Some (s2, Ok f).
Proof.
  intros I RE RP H L Nf.
  destruct (handle_spec cf en polls frame uid s s' _ I RE RP H) as (I' & _ & request & A & P).
  pose proof (handle_accepted cf _ _ _ _ _ _ _ request I RE RP A H) as W.
  apply (accepted_with_later cf _ _ _ _ L) in W.
  assert (J2 : journal_ok (cf_application cf) (bs_journal s2)) by (eapply later_ok; [exact L|apply I']).
  apply (later_persisted cf _ _ _ _ I' L) in P.
  destruct (accept_replay cf request frame _ f J2 W P) as (d & Hd & Dd & Fd).
  unfold handle. rewrite A. unfold journal_op. rewrite Nf. cbn [hd]. rewrite Hd.
  rewrite Dd. unfold decided_response. rewrite Fd. unfold set_journal. rewrite Nf. cbn [tail].
  by destruct s2; cbn in Nf; subst.
Qed.

(** C7. Every root effect (prepare, runtime setup, launch) of an operation is
    started at most once, over all requests, faults, interleavings and
    restarts, and only after the journal recorded the start of its stage. *)
Theorem effects_at_most_once `{SHA : Sha256} `{ED : Ed25519} (cf : config) (s : bstate) :
  broker_reachable cf s →
  NoDup (bs_effects s) ∧ ∀ i g, (i, g) ∈ bs_effects s → has_started i g s = true.
Proof. intros [_ F]%broker_reachable_inv. exact F. Qed.

(** A broker that starts has no lost lifecycle: when [recover_startup]
    returns, no operation is claimed and unfinished. *)
Theorem recover_startup_complete `{SHA : Sha256} `{ED : Ed25519} (cf : config) (s s' : bstate) :
  inv cf s → recover_startup cf s = (s', Ok tt) →
  incomplete_lifecycles (cf_application cf) no_faults (bs_journal s') = Ok [].
Proof.
  intros I H. destruct (recover_startup_final cf s s' I H) as ([J _] & _ & N).
  unfold incomplete_lifecycles, read_journal, open_journal. rewrite (validate_ok _ _ J).
  cbn [no_faults connect_fails execute_fails negb guard res_bind].
  destruct J as (_ & _ & _ & L). rewrite (incomplete_rows_entries _ L). cbn [reraise_as]. f_equal.
  unfold events_of in N. induction (List.filter _ _) as [|a l IH]; [done|]. cbn [omap list_omap].
  rewrite N by apply list_elem_of_here. apply IH. intros x Hx. apply N. by apply list_elem_of_further.
Qed.

(** A request with launch control anywhere in its payload, under any
    spelling of the key, is never authenticated. *)
Theorem authenticate_no_control `{SHA : Sha256} `{ED : Ed25519} (cf : config) (frame : pybytes)
    (uid : Z) (request : BrokerRequest) (k : pystr) :
  authenticate cf frame uid = Ok request → key_in k (JObj (payload request)) →
  (normalized_key k ∉ FORBIDDEN_LAUNCH_FIELDS)
  ∧ uid = cf_uid cf ∧ request_type request = SUPPORTED_REQUEST_TYPE.
Proof.
  unfold authenticate, authenticate_frame. intros H Hk.
  apply bind_error_ok in H as (r & H1 & H). apply bind_error_ok in H as ([] & H2 & H).
  apply bind_error_ok in H as ([] & H3 & H). injection H as ->.
  apply bind_error_ok in H1 as ([] & H4 & _). split_and!.
  - intros Hin. assert (M : mem_str (normalized_key k) FORBIDDEN_LAUNCH_FIELDS = true)
      by by apply mem_str_spec. by rewrite (forbidden_key_found k _ Hk M) in H3.
  - destruct (uid =? cf_uid cf) eqn:E; [by breflect|done].
  - by case_bool_decide.
Qed.

(** The clock reads a time at or past the deadline at some poll. *)
Definition clock_reaches (deadline : Z) (polls : list (Z * (bstate → bstate))) : Prop :=
  Exists (fun p => deadline <= p.1) polls.

(** Waiting for another owner ends: once the clock has read a time past
    the deadline, [_wait_for_owner] has returned or raised. *)
Theorem wait_for_owner_ends `{SHA : Sha256} `{ED : Ed25519} (cf : config) (request : BrokerRequest)
    (now : Z) (f : bstate → bstate) (polls : list (Z * (bstate → bstate))) (s : bstate) :
  clock_reaches (now + cf_retry_wait cf) polls →
  is_Some (wait_for_owner cf request ((now, f) :: polls) s).
Proof. intros H. by apply wait_loop_ends. Qed.

(** ** Witnesses *)

#[local] Existing Instance toy_sha256.
#[local] Existing Instance toy_ed25519.

Definition toy_config : config := {|
  cf_broker := broker_incarnation toy_request; cf_database := database_incarnation toy_request;
  cf_uid := 1000; cf_public := tt; cf_private := tt; cf_owner := toy_owner;
  cf_application := toy_app; cf_retry_wait := 5 |}.

Definition launcher_says (status_ : pystr) (error : option pystr) : effect_outcome :=
  TaskReturned (RawLauncher {| lr_status := status_; lr_error := error |}).

Definition quiet (prepare launch : effect_outcome) : env := {|
  prepare_outcome := prepare; setup_raises := false; launch_outcome := launch;
  at_finalizer := fun s => s; during_prepare := fun s => s; during_launch := fun s => s;
  finalizer_cancelled := false; request_cancelled := false |}.

(** A launch whose last commit fails although the row is durable. *)
Definition toy_env : env := quiet (launcher_says (u"prepared") None) (launcher_says (u"launched") None).
Definition toy_state : bstate := {|
  bs_journal := toy_initial; bs_abandoned := 0; bs_effects := [];
  bs_faults := repeat no_faults 7 ++ [uncertain true] |}.
Definition toy_result : bstate * res pybytes :=
  match handle toy_config toy_env [] toy_frame 1000 toy_state with
  | Some r => r
  | None => (toy_state, raise AssertionError "")
  end.
Definition toy_reply : pybytes := match toy_result.2 with Ok f => f | Raise _ => [] end.

Lemma toy_state_reachable : broker_reachable toy_config toy_state.
Proof. apply broker_init. apply toy_initial_reachable. Qed.

Lemma quiet_relies i prepare launch : env_relies toy_config i (quiet prepare launch).
Proof. split_and!; intros s I; (refine (conj I (conj _ _)); [constructor|done]). Qed.

Lemma toy_handled : handle toy_config toy_env [] toy_frame 1000 toy_state = Some (toy_result.1, Ok toy_reply).
Proof. vm_compute. reflexivity. Qed.

Lemma handle_persists_witness : ∃ request d, toy_reply ≠ []
  ∧ authenticate toy_config toy_frame 1000 = Ok request
  ∧ terminal (jn_events (bs_journal toy_result.1)) (identity request) = Ok (Some d)
  ∧ response_frame d = Some toy_reply.
Proof.
  destruct (handle_persists toy_config toy_env [] toy_frame toy_reply 1000 toy_state toy_result.1
    (broker_reachable_inv _ _ toy_state_reachable)
    (fun r _ => quiet_relies (identity r) _ _) (Forall_nil_2 _) toy_handled) as (r & d & A & T & F).
  exists r, d. refine (conj _ (conj A (conj T F))). vm_compute. discriminate.
Defined.

Lemma handle_retry_witness :
  handle toy_config (quiet WaitTimedOut WaitTimedOut) [] toy_frame 1000 toy_result.1
  = Some (toy_result.1, Ok toy_reply).
Proof.
  apply (handle_retry toy_config toy_env _ [] [] toy_frame toy_reply 1000 toy_state toy_result.1 toy_result.1
    (broker_reachable_inv _ _ toy_state_reachable)
    (fun r _ => quiet_relies (identity r) _ _) (Forall_nil_2 _) toy_handled).
  - constructor.
  - vm_compute. reflexivity.
Defined.

Lemma effects_at_most_once_witness :
  length (bs_effects toy_result.1) = 3%nat ∧ NoDup (bs_effects toy_result.1).
Proof.
  split; [vm_compute; reflexivity|].
  apply (effects_at_most_once toy_config toy_result.1).
  exact (broker_handle toy_config toy_env [] toy_frame 1000 toy_state toy_result.1 _
    toy_state_reachable (fun r _ => quiet_relies (identity r) _ _) (Forall_nil_2 _) toy_handled).
Defined.

(** A restart while the prepare stage runs. *)
Definition toy_crashed : bstate := {|
  bs_journal := toy_running; bs_abandoned := 0; bs_effects := []; bs_faults := [] |}.
Definition toy_recovered : bstate := (recover_startup toy_config toy_crashed).1.

Lemma recover_startup_complete_witness :
  length (jn_events (bs_journal toy_recovered)) = 4%nat
  ∧ incomplete_lifecycles toy_app no_faults (bs_journal toy_recovered) = Ok [].
Proof.
  split; [vm_compute; reflexivity|].
  apply (recover_startup_complete toy_config toy_crashed toy_recovered).
  - apply broker_reachable_inv. apply (broker_init toy_config toy_running []). apply toy_running_reachable.
  - vm_compute. reflexivity.
Defined.

Lemma authenticate_no_control_witness :
  ∃ r, authenticate toy_config toy_frame 1000 = Ok r
  ∧ (normalized_key (u"limit") ∉ FORBIDDEN_LAUNCH_FIELDS).
Proof.
  assert (H : authenticate toy_config toy_frame 1000 = Ok toy_parsed) by (vm_compute; reflexivity).
  exists toy_parsed. split; [exact H|].
  apply (authenticate_no_control toy_config toy_frame 1000 toy_parsed (u"limit") H).
  apply (key_here _ _ (JInt 3)). apply list_elem_of_here.
Defined.

Lemma wait_for_owner_ends_witness :
  wait_for_owner toy_config toy_parsed [(10, fun s => s); (12, fun s => s); (15, fun s => s)] toy_crashed
  = Some (toy_crashed, raise LauncherTransportError "broker lifecycle owner is still active")
  ∧ is_Some (wait_for_owner toy_config toy_parsed
      [(10, fun s => s); (12, fun s => s); (15, fun s => s)] toy_crashed).
Proof.
  split; [vm_compute; reflexivity|].
  apply (wait_for_owner_ends toy_config toy_parsed 10).
  apply Exists_cons_tl, Exists_cons_hd. cbn. lia.
Defined.
