(* ===== verification/ReplicaContract.v ===== *)
(** * The replica contract

    Models [services/replica_artifact_contract.py] and the value types and
    wire checks of [services/broker_replica_journal.py]: the logical
    authority, the artifact references, the receipt of each stage with its
    constructor's checks, the canonical receipts, and the validation of
    request frames, response frames and the binding of a receipt to the
    accepted request. *)

From S2P Require Import Prelude Text Json Crypto BrokerProtocol.

(** ** Identifiers and the artifact set *)

Definition is_alnum (c : Z) : bool := is_lower c || is_upper c || is_digit c.
Definition is_identifier_char (c : Z) : bool :=
  is_alnum c || (c =? 46) || (c =? 95) || (c =? 58) || (c =? 45).
Definition REPLICA_IDENTIFIER_PATTERN (s : pystr) : bool :=
  match s with
  | c :: r => is_alnum c && fullmatch_range is_identifier_char 15 127 r
  | [] => false
  end.
Definition REPLICA_OPERATION_PATTERN : pystr → bool := fullmatch_n is_hex 32.

Definition REPLICA_ARTIFACT_MEDIA_TYPES : list (pystr * pystr) :=
  [(u"committed_bundle", u"application/vnd.yinshi.git-bundle.v1");
   (u"worktree", u"application/vnd.yinshi.replica-worktree.v1");
   (u"index_objects", u"application/vnd.yinshi.git-index-objects-pack.v1")].

Definition validate_replica_identifier (value : json) (description : string) : res pystr :=
  match value with
  | JStr v =>
      check! guard (REPLICA_IDENTIFIER_PATTERN v) ValueError (description +:+ " is invalid") in Ok v
  | _ => raise ValueError (description +:+ " is invalid")
  end.

Definition validate_replica_operation_id (value : json) : res pystr :=
  match value with
  | JStr v =>
      check! guard (REPLICA_OPERATION_PATTERN v) ValueError "replica operation ID is invalid" in Ok v
  | _ => raise ValueError "replica operation ID is invalid"
  end.

Definition validate_distinct_artifact_ids (ids : list pystr) : res unit :=
  guard (bool_decide (NoDup ids)) ValueError "replica artifact IDs must be distinct".

(** [_canonical_json] of the contract: ASCII, sorted keys. *)
Definition contract_json (value : json) : res pybytes := ascii_encode (dumps true true value).

Section Digests.
Context {SHA : Sha256}.

Definition LIMITS_DOMAIN : pybytes := u"yinshi-replica-limits-v1" ++ [0].
Definition ARTIFACT_SET_DOMAIN : pybytes := u"yinshi-replica-artifact-set-v2" ++ [0].

Definition compute_replica_limits_sha256 (limits : json) : res pystr :=
  let! c := contract_json limits in Ok (hexdigest (sha256 (LIMITS_DOMAIN ++ c))).

Definition compute_replica_artifact_set_sha256 (operation_id repository_id workspace_id
    physical_target_id : pystr) (replica_generation : Z) (execution_owner_id object_format
    source_state_sha256 reconciliation_fingerprint : pystr)
    (bundle worktree index_objects : list (pystr * json)) (limits_sha256 : pystr) : res pystr :=
  let value := JObj
    [(u"version", JInt 2);
     (u"operation_id", JStr operation_id);
     (u"repository_id", JStr repository_id);
     (u"workspace_id", JStr workspace_id);
     (u"identity", JObj
        [(u"physical_target_id", JStr physical_target_id);
         (u"replica_generation", JInt replica_generation);
         (u"execution_owner_id", JStr execution_owner_id)]);
     (u"object_format", JStr object_format);
     (u"source_state_sha256", JStr source_state_sha256);
     (u"reconciliation_fingerprint", JStr reconciliation_fingerprint);
     (u"bundle", JObj bundle);
     (u"worktree", JObj worktree);
     (u"index_objects", JObj index_objects);
     (u"limits_sha256", JStr limits_sha256)] in
  let! c := contract_json value in
  Ok (hexdigest (sha256 (ARTIFACT_SET_DOMAIN ++ c))).
End Digests.

(** ** Stages *)

Inductive stage := Ingest | Verify | Publish | Admission | Drain | Export | Reclaim.
#[export] Instance stage_eq_dec : EqDecision stage.
Proof. solve_decision. Defined.

Definition STAGES : list stage := [Ingest; Verify; Publish; Admission; Drain; Export; Reclaim].

Definition stage_name (s : stage) : pystr :=
  match s with
  | Ingest => u"ingest" | Verify => u"verify" | Publish => u"publish"
  | Admission => u"admission" | Drain => u"drain" | Export => u"export" | Reclaim => u"reclaim"
  end.

(** [_STAGE_INDEX] *)
Definition stage_index (s : stage) : nat :=
  match s with
  | Ingest => 0 | Verify => 1 | Publish => 2 | Admission => 3 | Drain => 4 | Export => 5
  | Reclaim => 6
  end.

(** [_validate_stage]: membership in [_STAGE_INDEX], as the stage it names. *)
Definition stage_of_name (n : pystr) : option stage :=
  List.find (fun s => bool_decide (stage_name s = n)) STAGES.
Definition validate_stage (n : pystr) : res stage :=
  match stage_of_name n with
  | Some s => Ok s
  | None => raise ValueError "replica stage is invalid"
  end.

Definition BASE_UNRESOLVED_REASONS : list pystr :=
  [u"broker_restart_unknown"; u"cancellation_unknown"; u"sqlite_commit_unknown";
   u"timeout_unknown"; u"transport_unknown"].

Definition STAGE_UNRESOLVED_REASONS (s : stage) : list pystr :=
  match s with
  | Ingest => [u"transfer_unknown"; u"verification_unknown"]
  | Verify => [u"verification_unknown"]
  | Publish => [u"publication_unknown"; u"synchronization_unknown"]
  | Admission => [u"admission_unknown"; u"verification_unknown"]
  | Drain => [u"acknowledgment_unknown"; u"runtime_live"; u"unit_state_unknown"]
  | Export => [u"export_acknowledgment_unknown"; u"transfer_unknown"; u"verification_unknown"]
  | Reclaim => [u"absence_unknown"; u"effect_unknown"; u"presence_unknown"; u"unit_state_unknown"]
  end.

Definition REJECTED_STATUSES (s : stage) : list pystr :=
  match s with
  | Ingest => [u"artifact_rejected"; u"limit_rejected"]
  | Verify => [u"verification_rejected"]
  | Publish => [u"publication_rejected"]
  | Admission => [u"admission_rejected"]
  | Drain => [u"drain_rejected"]
  | Export => [u"export_rejected"; u"limit_rejected"]
  | Reclaim => [u"reclaim_rejected"]
  end.

Definition reason_ok (s : stage) (reason : pystr) : bool :=
  mem_str reason (BASE_UNRESOLVED_REASONS ++ STAGE_UNRESOLVED_REASONS s).

(** ** Value types *)

Definition ARTIFACT_BYTES_MAX : Z := 8 * 1024 * 1024 * 1024.
Definition RECEIPT_JSON_BYTES_MAX : Z := 2048.

Definition is_error_char (c : Z) : bool := is_lower c || is_digit c || (c =? 95).
Definition ERROR_CODE_PATTERN (s : pystr) : bool :=
  match s with
  | c :: r => is_lower c && fullmatch_range is_error_char 0 63 r
  | [] => false
  end.

(** [_token] and [_digest]. *)
Definition token (value : json) (description : string) : res pystr :=
  match value with
  | JStr v =>
      check! guard (TOKEN_PATTERN v) ValueError ("replica " +:+ description +:+ " is invalid") in Ok v
  | _ => raise ValueError ("replica " +:+ description +:+ " is invalid")
  end.
Definition digest (value : json) (description : string) : res pystr :=
  match value with
  | JStr v =>
      check! guard (DIGEST_PATTERN v) ValueError ("replica " +:+ description +:+ " is invalid") in Ok v
  | _ => raise ValueError ("replica " +:+ description +:+ " is invalid")
  end.

(** [value[k]] *)
Definition item (l : list (pystr * json)) (k : pystr) : res json :=
  match dict_get k l with Some v => Ok v | None => raise KeyError "key" end.

(** The constructors take the values the callers cast, and run
    [__post_init__]. *)
Record ReplicaAuthority := {
  physical_target_id : pystr;
  replica_generation : Z;
  execution_owner_id : pystr;
}.
#[export] Instance authority_eq_dec : EqDecision ReplicaAuthority.
Proof. solve_decision. Defined.

(** [type(v) is int and v >= 1] *)
Definition positive_int (value : json) (message : string) : res Z :=
  match value with
  | JInt n => check! guard (1 <=? n) ValueError message in Ok n
  | _ => raise ValueError message
  end.

Definition new_authority (target generation owner : json) : res ReplicaAuthority :=
  let! target := validate_replica_identifier target "physical target ID" in
  let! owner := validate_replica_identifier owner "execution owner ID" in
  let! generation := positive_int generation "replica generation must be a positive integer" in
  Ok {| physical_target_id := target; replica_generation := generation;
        execution_owner_id := owner |}.

Record ArtifactReference := { artifact_id : pystr; artifact_sha256 : pystr; byte_length : Z }.
#[export] Instance artifact_eq_dec : EqDecision ArtifactReference.
Proof. solve_decision. Defined.

Definition new_artifact (id sha length : json) : res ArtifactReference :=
  let! id := validate_replica_identifier id "artifact ID" in
  let! sha := digest sha "artifact SHA-256" in
  match length with
  | JInt n =>
      check! guard ((0 <=? n) && (n <=? ARTIFACT_BYTES_MAX)) ValueError
        "replica artifact byte length is invalid" in
      Ok {| artifact_id := id; artifact_sha256 := sha; byte_length := n |}
  | _ => raise ValueError "replica artifact byte length is invalid"
  end.

Record IngestReceipt := {
  ing_receipt_id : pystr;
  ing_bundle : ArtifactReference;
  ing_worktree : ArtifactReference;
  ing_index_objects : ArtifactReference;
}.
Record VerifyReceipt := {
  ver_receipt_id : pystr;
  ver_bundle_sha256 : pystr;
  ver_worktree_sha256 : pystr;
  ver_index_objects_sha256 : pystr;
  ver_source_state_sha256 : pystr;
  ver_reconciliation_fingerprint : pystr;
  ver_artifact_set_sha256 : pystr;
}.
Record PublishReceipt := {
  pub_receipt_id : pystr;
  pub_physical_target_id : pystr;
  pub_replica_generation : Z;
  pub_execution_owner_id : pystr;
  pub_publication_marker_sha256 : pystr;
  pub_synchronization_receipt_id : pystr;
  pub_artifact_set_sha256 : pystr;
}.
Record AdmissionReceipt := {
  adm_receipt_id : pystr;
  adm_execution_owner_id : pystr;
  adm_runtime_unit_id : pystr;
  adm_session_socket_sha256 : pystr;
}.
Record DrainReceipt := { drain_ack_receipt_id : pystr; quiescence_receipt_id : pystr }.
Record ExportReceipt := {
  export_receipt_id : pystr;
  exp_bundle : ArtifactReference;
  exp_worktree : ArtifactReference;
  exp_index_objects : ArtifactReference;
}.
Record ReclaimReceipt := { reclaim_receipt_id : pystr }.
Record RejectedReceipt := { rejected_receipt_id : pystr }.

Definition new_ingest (id : json) (bundle worktree index_objects : ArtifactReference) :
    res IngestReceipt :=
  let! id := token id "ingest receipt ID" in
  check! validate_distinct_artifact_ids
    [artifact_id bundle; artifact_id worktree; artifact_id index_objects] in
  Ok {| ing_receipt_id := id; ing_bundle := bundle; ing_worktree := worktree;
        ing_index_objects := index_objects |}.

Definition new_verify (id bundle worktree index_objects source fingerprint artifact_set : json) :
    res VerifyReceipt :=
  let! id := token id "verification receipt ID" in
  let! bundle := digest bundle "verified bundle SHA-256" in
  let! worktree := digest worktree "verified worktree SHA-256" in
  let! index_objects := digest index_objects "verified index objects SHA-256" in
  let! source := digest source "verified source state SHA-256" in
  let! fingerprint := digest fingerprint "verified reconciliation fingerprint" in
  let! artifact_set := digest artifact_set "verified artifact set SHA-256" in
  Ok {| ver_receipt_id := id; ver_bundle_sha256 := bundle; ver_worktree_sha256 := worktree;
        ver_index_objects_sha256 := index_objects; ver_source_state_sha256 := source;
        ver_reconciliation_fingerprint := fingerprint; ver_artifact_set_sha256 := artifact_set |}.

Definition new_publish (id target generation owner marker synchronization artifact_set : json) :
    res PublishReceipt :=
  let! id := token id "publication receipt ID" in
  let! target := validate_replica_identifier target "published physical target ID" in
  let! generation := positive_int generation "published replica generation is invalid" in
  let! owner := validate_replica_identifier owner "published execution owner ID" in
  let! marker := digest marker "publication marker SHA-256" in
  let! synchronization := token synchronization "synchronization receipt ID" in
  let! artifact_set := digest artifact_set "published artifact set SHA-256" in
  Ok {| pub_receipt_id := id; pub_physical_target_id := target;
        pub_replica_generation := generation; pub_execution_owner_id := owner;
        pub_publication_marker_sha256 := marker;
        pub_synchronization_receipt_id := synchronization;
        pub_artifact_set_sha256 := artifact_set |}.

Definition new_admission (id owner unit_id socket : json) : res AdmissionReceipt :=
  let! id := token id "admission receipt ID" in
  let! owner := validate_replica_identifier owner "admitted execution owner ID" in
  let! unit_id := token unit_id "runtime unit ID" in
  let! socket := digest socket "session socket SHA-256" in
  Ok {| adm_receipt_id := id; adm_execution_owner_id := owner; adm_runtime_unit_id := unit_id;
        adm_session_socket_sha256 := socket |}.

Definition new_drain (ack quiescence : json) : res DrainReceipt :=
  let! ack := token ack "drain acknowledgment receipt ID" in
  let! quiescence := token quiescence "quiescence receipt ID" in
  Ok {| drain_ack_receipt_id := ack; quiescence_receipt_id := quiescence |}.

Definition new_export (id : json) (bundle worktree index_objects : ArtifactReference) :
    res ExportReceipt :=
  let! id := token id "export receipt ID" in
  check! validate_distinct_artifact_ids
    [artifact_id bundle; artifact_id worktree; artifact_id index_objects] in
  Ok {| export_receipt_id := id; exp_bundle := bundle; exp_worktree := worktree;
        exp_index_objects := index_objects |}.

Definition new_reclaim (id : json) : res ReclaimReceipt :=
  let! id := token id "reclaim receipt ID" in Ok {| reclaim_receipt_id := id |}.

Definition new_rejected (id : json) : res RejectedReceipt :=
  let! id := token id "rejection receipt ID" in Ok {| rejected_receipt_id := id |}.

(** What an effect may hand over as its receipt: a receipt of one stage, or
    any other object ([None] included). *)
Inductive receipt :=
  | RIngest (r : IngestReceipt)
  | RVerify (r : VerifyReceipt)
  | RPublish (r : PublishReceipt)
  | RAdmission (r : AdmissionReceipt)
  | RDrain (r : DrainReceipt)
  | RExport (r : ExportReceipt)
  | RReclaim (r : ReclaimReceipt)
  | ROther.

(** [isinstance(receipt, <the receipt type of the stage>)] *)
Definition receipt_stage (r : receipt) : option stage :=
  match r with
  | RIngest _ => Some Ingest | RVerify _ => Some Verify | RPublish _ => Some Publish
  | RAdmission _ => Some Admission | RDrain _ => Some Drain | RExport _ => Some Export
  | RReclaim _ => Some Reclaim | ROther => None
  end.

(** ** Canonical receipts *)

Definition artifact_json (r : ArtifactReference) : json :=
  JObj [(u"artifact_id", JStr (artifact_id r)); (u"byte_length", JInt (byte_length r));
        (u"sha256", JStr (artifact_sha256 r))].

(** The dictionary [_receipt_json] encodes, for the receipt type of its stage. *)
Definition receipt_value (r : receipt) : option (list (pystr * json)) :=
  match r with
  | RIngest r => Some
      [(u"bundle", artifact_json (ing_bundle r));
       (u"index_objects", artifact_json (ing_index_objects r));
       (u"receipt_id", JStr (ing_receipt_id r));
       (u"worktree", artifact_json (ing_worktree r))]
  | RVerify r => Some
      [(u"artifact_set_sha256", JStr (ver_artifact_set_sha256 r));
       (u"bundle_sha256", JStr (ver_bundle_sha256 r));
       (u"index_objects_sha256", JStr (ver_index_objects_sha256 r));
       (u"receipt_id", JStr (ver_receipt_id r));
       (u"reconciliation_fingerprint", JStr (ver_reconciliation_fingerprint r));
       (u"source_state_sha256", JStr (ver_source_state_sha256 r));
       (u"worktree_sha256", JStr (ver_worktree_sha256 r))]
  | RPublish r => Some
      [(u"artifact_set_sha256", JStr (pub_artifact_set_sha256 r));
       (u"execution_owner_id", JStr (pub_execution_owner_id r));
       (u"physical_target_id", JStr (pub_physical_target_id r));
       (u"publication_marker_sha256", JStr (pub_publication_marker_sha256 r));
       (u"receipt_id", JStr (pub_receipt_id r));
       (u"replica_generation", JInt (pub_replica_generation r));
       (u"synchronization_receipt_id", JStr (pub_synchronization_receipt_id r))]
  | RAdmission r => Some
      [(u"execution_owner_id", JStr (adm_execution_owner_id r));
       (u"receipt_id", JStr (adm_receipt_id r));
       (u"runtime_unit_id", JStr (adm_runtime_unit_id r));
       (u"session_socket_sha256", JStr (adm_session_socket_sha256 r))]
  | RDrain r => Some
      [(u"drain_ack_receipt_id", JStr (drain_ack_receipt_id r));
       (u"quiescence_receipt_id", JStr (quiescence_receipt_id r))]
  | RExport r => Some
      [(u"bundle", artifact_json (exp_bundle r));
       (u"export_receipt_id", JStr (export_receipt_id r));
       (u"index_objects", artifact_json (exp_index_objects r));
       (u"worktree", artifact_json (exp_worktree r))]
  | RReclaim r => Some [(u"reclaim_receipt_id", JStr (reclaim_receipt_id r))]
  | ROther => None
  end.

(** [_receipt_json]: the type must be the one of the stage. *)
Definition receipt_json (s : stage) (r : receipt) : res pybytes :=
  check! guard (bool_decide (receipt_stage r = Some s)) TypeError
    "replica receipt type is invalid" in
  match receipt_value r with
  | None => raise TypeError "replica receipt type is invalid"
  | Some value =>
      let! encoded := canonical_json (JObj value) in
      check! guard (zlen encoded <=? RECEIPT_JSON_BYTES_MAX) ValueError
        "replica receipt exceeds the byte limit" in
      Ok encoded
  end.

Definition rejected_json (r : RejectedReceipt) : res pybytes :=
  let! encoded := canonical_json (JObj [(u"receipt_id", JStr (rejected_receipt_id r))]) in
  check! guard (zlen encoded <=? RECEIPT_JSON_BYTES_MAX) ValueError
    "replica rejection receipt exceeds the byte limit" in
  Ok encoded.

(** [_canonical_object]; [None] stands for a column that is NULL. *)
Definition canonical_object (raw : option pybytes) (maximum : Z) : res (list (pystr * json)) :=
  match raw with
  | None => raise ValueError "replica object size is invalid"
  | Some raw =>
      check! guard (negb (bool_decide (raw = [])) && (zlen raw <=? maximum)) ValueError
        "replica object size is invalid" in
      let! value := reraise_as (loads_default raw) [UnicodeDecodeError; JSONDecodeError]
        ValueError "replica object is invalid" in
      match value with
      | JObj d =>
          let! c := reraise_as (canonical_json value) [BrokerProtocolError] ValueError
            "replica object is invalid" in
          check! guard (bool_decide (c = raw)) ValueError "replica object is not canonical" in
          Ok d
      | _ => raise TypeError "replica object must be an object"
      end
  end.

Definition parse_artifact (value : json) : res ArtifactReference :=
  match value with
  | JObj l =>
      check! guard (has_keys l [u"artifact_id"; u"sha256"; u"byte_length"]) ValueError
        "replica artifact receipt is malformed" in
      let! id := item l (u"artifact_id") in
      let! sha := item l (u"sha256") in
      let! length := item l (u"byte_length") in
      new_artifact id sha length
  | _ => raise ValueError "replica artifact receipt is malformed"
  end.

(** The members each stage's receipt must have. *)
Definition receipt_keys (s : stage) : list pystr :=
  match s with
  | Ingest => [u"bundle"; u"index_objects"; u"receipt_id"; u"worktree"]
  | Verify => [u"artifact_set_sha256"; u"bundle_sha256"; u"index_objects_sha256"; u"receipt_id";
               u"reconciliation_fingerprint"; u"source_state_sha256"; u"worktree_sha256"]
  | Publish => [u"artifact_set_sha256"; u"execution_owner_id"; u"physical_target_id";
                u"publication_marker_sha256"; u"receipt_id"; u"replica_generation";
                u"synchronization_receipt_id"]
  | Admission => [u"execution_owner_id"; u"receipt_id"; u"runtime_unit_id"; u"session_socket_sha256"]
  | Drain => [u"drain_ack_receipt_id"; u"quiescence_receipt_id"]
  | Export => [u"bundle"; u"export_receipt_id"; u"index_objects"; u"worktree"]
  | Reclaim => [u"reclaim_receipt_id"]
  end.

Definition parse_receipt (s : stage) (l : list (pystr * json)) : res receipt :=
  match s with
  | Ingest =>
      let! id := item l (u"receipt_id") in
      let! bundle := item l (u"bundle") in let! bundle := parse_artifact bundle in
      let! worktree := item l (u"worktree") in let! worktree := parse_artifact worktree in
      let! index := item l (u"index_objects") in let! index := parse_artifact index in
      let! r := new_ingest id bundle worktree index in Ok (RIngest r)
  | Verify =>
      let! id := item l (u"receipt_id") in
      let! bundle := item l (u"bundle_sha256") in
      let! worktree := item l (u"worktree_sha256") in
      let! index := item l (u"index_objects_sha256") in
      let! source := item l (u"source_state_sha256") in
      let! fingerprint := item l (u"reconciliation_fingerprint") in
      let! artifact_set := item l (u"artifact_set_sha256") in
      let! r := new_verify id bundle worktree index source fingerprint artifact_set in
      Ok (RVerify r)
  | Publish =>
      let! id := item l (u"receipt_id") in
      let! target := item l (u"physical_target_id") in
      let! generation := item l (u"replica_generation") in
      let! owner := item l (u"execution_owner_id") in
      let! marker := item l (u"publication_marker_sha256") in
      let! synchronization := item l (u"synchronization_receipt_id") in
      let! artifact_set := item l (u"artifact_set_sha256") in
      let! r := new_publish id target generation owner marker synchronization artifact_set in
      Ok (RPublish r)
  | Admission =>
      let! id := item l (u"receipt_id") in
      let! owner := item l (u"execution_owner_id") in
      let! unit_id := item l (u"runtime_unit_id") in
      let! socket := item l (u"session_socket_sha256") in
      let! r := new_admission id owner unit_id socket in Ok (RAdmission r)
  | Drain =>
      let! ack := item l (u"drain_ack_receipt_id") in
      let! quiescence := item l (u"quiescence_receipt_id") in
      let! r := new_drain ack quiescence in Ok (RDrain r)
  | Export =>
      let! id := item l (u"export_receipt_id") in
      let! bundle := item l (u"bundle") in let! bundle := parse_artifact bundle in
      let! worktree := item l (u"worktree") in let! worktree := parse_artifact worktree in
      let! index := item l (u"index_objects") in let! index := parse_artifact index in
      let! r := new_export id bundle worktree index in Ok (RExport r)
  | Reclaim =>
      let! id := item l (u"reclaim_receipt_id") in
      let! r := new_reclaim id in Ok (RReclaim r)
  end.

(** [_validate_receipt] *)
Definition validate_receipt (s : stage) (raw : option pybytes) : res receipt :=
  let! value := canonical_object raw RECEIPT_JSON_BYTES_MAX in
  check! guard (has_keys value (receipt_keys s)) ValueError "replica receipt is malformed" in
  parse_receipt s value.

(** ** Python equality of decoded values

    [True == 1] and [False == 0]; dictionaries compare without order. A
    [JsonValue] of the source holds no [float]. *)
Fixpoint py_eq (a b : json) : bool :=
  match a, b with
  | JNull, JNull => true
  | JBool x, JBool y => Bool.eqb x y
  | JBool x, JInt n | JInt n, JBool x => (if x then 1 else 0) =? n
  | JInt n, JInt m => n =? m
  | JStr s, JStr t => bool_decide (s = t)
  | JArr l, JArr k =>
      (fix go (l k : list json) : bool :=
         match l, k with
         | [], [] => true
         | x :: l, y :: k => py_eq x y && go l k
         | _, _ => false
         end) l k
  | JObj l, JObj k =>
      (zlen l =? zlen k)
      && forallb (fun kv => match dict_get kv.1 k with
                            | Some w => py_eq kv.2 w
                            | None => false
                            end) l
  | _, _ => false
  end.

(** [value.get(k) == v] for a value that is not [None]. *)
Definition get_eq (l : list (pystr * json)) (k : pystr) (v : json) : bool :=
  match dict_get k l with Some w => py_eq w v | None => false end.

(** [BrokerRequest.__eq__] *)
Definition request_eq (a b : BrokerRequest) : bool :=
  bool_decide (protocol_version a = protocol_version b)
  && bool_decide (broker_incarnation a = broker_incarnation b)
  && bool_decide (database_incarnation a = database_incarnation b)
  && (connection_sequence a =? connection_sequence b)
  && bool_decide (operation_id a = operation_id b)
  && bool_decide (request_type a = request_type b)
  && bool_decide (nonce a = nonce b)
  && bool_decide (payload_digest_ a = payload_digest_ b)
  && py_eq (JObj (payload a)) (JObj (payload b)).

(** ** Requests *)

Definition parse_replica_authority (value : json) : res ReplicaAuthority :=
  match value with
  | JObj l =>
      check! guard (has_keys l [u"execution_owner_id"; u"physical_target_id"; u"replica_generation"])
        ValueError "replica request authority fields are invalid" in
      let! target := item l (u"physical_target_id") in
      let! generation := item l (u"replica_generation") in
      let! owner := item l (u"execution_owner_id") in
      new_authority target generation owner
  | _ => raise ValueError "replica request authority fields are invalid"
  end.

Definition OBJECT_FORMATS : list pystr := [u"sha1"; u"sha256"].

Definition PAYLOAD_KEYS : list pystr :=
  [u"artifact_set_sha256"; u"authority"; u"bundle"; u"index_objects"; u"limits_sha256";
   u"object_format"; u"reconciliation_fingerprint"; u"repository_id"; u"source_state_sha256";
   u"workspace_id"; u"worktree"].

(** [_validate_replica_payload]; the result is the dictionary itself. *)
Definition validate_replica_payload (value : json) : res (list (pystr * json)) :=
  match value with
  | JObj l =>
      check! guard (has_keys l PAYLOAD_KEYS) ValueError "replica request payload fields are invalid" in
      let! workspace := item l (u"workspace_id") in
      check! validate_replica_identifier workspace "request workspace ID" in
      let! repository := item l (u"repository_id") in
      check! validate_replica_identifier repository "request repository ID" in
      let! authority := item l (u"authority") in
      check! parse_replica_authority authority in
      let! format := item l (u"object_format") in
      check! (match format with
              | JStr f => guard (mem_str f OBJECT_FORMATS) ValueError
                            "replica request object format is invalid"
              | _ => raise ValueError "replica request object format is invalid"
              end) in
      let! artifact_set := item l (u"artifact_set_sha256") in
      check! digest artifact_set "request artifact set SHA-256" in
      let! limits := item l (u"limits_sha256") in
      check! digest limits "request limits SHA-256" in
      let! source := item l (u"source_state_sha256") in
      check! digest source "request source state SHA-256" in
      let! fingerprint := item l (u"reconciliation_fingerprint") in
      check! digest fingerprint "request reconciliation fingerprint" in
      let! bundle := item l (u"bundle") in let! bundle := parse_artifact bundle in
      let! worktree := item l (u"worktree") in let! worktree := parse_artifact worktree in
      let! index := item l (u"index_objects") in let! index := parse_artifact index in
      check! validate_distinct_artifact_ids
        [artifact_id bundle; artifact_id worktree; artifact_id index] in
      Ok l
  | _ => raise ValueError "replica request payload fields are invalid"
  end.

Definition REPLICA_LIFECYCLE : pystr := u"replica.lifecycle".

Definition replica_authority_from_request (request : BrokerRequest) : res ReplicaAuthority :=
  check! guard (bool_decide (request_type request = REPLICA_LIFECYCLE)) ValueError
    "replica lifecycle request is invalid" in
  let! payload := validate_replica_payload (JObj (payload request)) in
  let! authority := item payload (u"authority") in
  parse_replica_authority authority.

(** [cast(str, value)] where the validation has established the type. *)
Definition as_str (v : json) : res pystr :=
  match v with JStr s => Ok s | _ => raise TypeError "str expected" end.

Definition artifact_binding_json (role : pystr) (r : ArtifactReference) : res (list (pystr * json)) :=
  match assoc_get role REPLICA_ARTIFACT_MEDIA_TYPES with
  | None => raise KeyError "role"
  | Some media => Ok
      [(u"role", JStr role); (u"media_type", JStr media); (u"artifact_id", JStr (artifact_id r));
       (u"sha256", JStr (artifact_sha256 r)); (u"byte_length", JInt (byte_length r))]
  end.

Section Frames.
Context {SHA : Sha256} {ED : Ed25519}.

(** A payload member as the artifact binding of its role. *)
Definition payload_binding (p : list (pystr * json)) (role k : pystr) : res (list (pystr * json)) :=
  let! value := item p k in
  let! reference := parse_artifact value in
  artifact_binding_json role reference.

(** [_expected_artifact_set_sha256] *)
Definition expected_artifact_set (request : BrokerRequest) (a : ReplicaAuthority) : res pystr :=
  let! p := validate_replica_payload (JObj (payload request)) in
  let str k := let! v := item p k in as_str v in
  let! repository := str (u"repository_id") in
  let! workspace := str (u"workspace_id") in
  let! format := str (u"object_format") in
  let! source := str (u"source_state_sha256") in
  let! fingerprint := str (u"reconciliation_fingerprint") in
  let! bundle := payload_binding p (u"committed_bundle") (u"bundle") in
  let! worktree := payload_binding p (u"worktree") (u"worktree") in
  let! index := payload_binding p (u"index_objects") (u"index_objects") in
  let! limits := str (u"limits_sha256") in
  compute_replica_artifact_set_sha256 (operation_id request) repository workspace
    (physical_target_id a) (replica_generation a) (execution_owner_id a) format source fingerprint
    bundle worktree index limits.

Definition request_from_frame (frame : option pybytes) : res BrokerRequest :=
  let! value := canonical_object frame BROKER_FRAME_BYTES_MAX in
  check! guard (has_keys value REQUEST_KEYS) ValueError "replica request frame fields are invalid" in
  let! v := item value (u"broker_incarnation") in
  let! broker := token v "request broker incarnation" in
  let! v := item value (u"database_incarnation") in
  let! database := token v "request database incarnation" in
  let! v := item value (u"nonce") in
  let! nonce_ := token v "request nonce" in
  let! v := item value (u"operation_id") in
  let! operation := validate_replica_operation_id v in
  check! guard (get_eq value (u"request_type") (JStr REPLICA_LIFECYCLE)) ValueError
    "replica request type is invalid" in
  let! v := item value (u"connection_sequence") in
  let! sequence := match v with
                   | JInt n =>
                       check! guard ((1 <=? n) && (n <=? 2 ^ 63 - 1)) ValueError
                         "replica request connection sequence is invalid" in Ok n
                   | _ => raise ValueError "replica request connection sequence is invalid"
                   end in
  check! guard (get_eq value (u"protocol_version") (JStr BROKER_PROTOCOL_VERSION)) ValueError
    "replica request protocol version is invalid" in
  let! signature := item value (u"signature") in
  check! (match signature with
          | JStr s => guard (zlen s =? 86) ValueError "replica request signature encoding is invalid"
          | _ => raise ValueError "replica request signature encoding is invalid"
          end) in
  let! v := item value (u"payload") in
  let! p := validate_replica_payload v in
  let! encoded := canonical_json (JObj p) in
  let payload_sha256 := hexdigest (sha256 encoded) in
  check! guard (get_eq value (u"payload_digest") (JStr payload_sha256)) ValueError
    "replica request payload digest is invalid" in
  Ok {| protocol_version := BROKER_PROTOCOL_VERSION; broker_incarnation := broker;
        database_incarnation := database; connection_sequence := sequence;
        operation_id := operation; request_type := REPLICA_LIFECYCLE; nonce := nonce_;
        payload_digest_ := payload_sha256; payload := p |}.

Definition authenticate_request_frame (frame : pybytes) (key : public_key) : res BrokerRequest :=
  let! request := reraise_as (parse_signed_request frame key) [BrokerProtocolError] ValueError
    "replica request signature is invalid" in
  check! guard (bool_decide (request_type request = REPLICA_LIFECYCLE)) ValueError
    "replica request type is invalid" in
  Ok request.

(** [_validate_request_frame(frame, request)] *)
Definition validate_request_frame (frame : option pybytes) (request : BrokerRequest) : res pybytes :=
  let! stored := request_from_frame frame in
  check! guard (request_eq stored request) ValueError
    "replica request frame does not bind the request" in
  match frame with
  | Some f => Ok f
  | None => raise TypeError "cannot convert 'NoneType' object to bytes"
  end.

(** ** Terminal responses *)

Inductive terminal_state := Completed | RejectedState | UnresolvedState.
#[export] Instance terminal_state_eq_dec : EqDecision terminal_state.
Proof. solve_decision. Defined.
Definition terminal_name (t : terminal_state) : pystr :=
  match t with
  | Completed => u"completed" | RejectedState => u"rejected" | UnresolvedState => u"unresolved"
  end.

Definition opt_json (o : option pystr) : json := match o with Some s => JStr s | None => JNull end.

(** The response members that repeat the request. *)
Definition response_binding (r : BrokerRequest) : list (pystr * json) :=
  [(u"broker_incarnation", JStr (broker_incarnation r));
   (u"connection_sequence", JInt (connection_sequence r));
   (u"database_incarnation", JStr (database_incarnation r));
   (u"operation_id", JStr (operation_id r));
   (u"payload_digest", JStr (payload_digest_ r));
   (u"protocol_version", JStr (protocol_version r));
   (u"request_nonce", JStr (nonce r));
   (u"request_type", JStr (request_type r))].

(** [expected_result] *)
Definition terminal_result (state : terminal_state) (s : stage) (code receipt_id : option pystr) :
    list (pystr * json) :=
  [(u"stage", JStr (stage_name s)); (u"state", JStr (terminal_name state))]
  ++ match code with Some c => [(u"code", JStr c)] | None => [] end
  ++ match receipt_id with Some i => [(u"receipt_id", JStr i)] | None => [] end.

(** [_validate_response_frame]. The callers have validated the stage and pass
    one of the three states, so the disposition check cannot fail. *)
Definition validate_response_frame (frame : pybytes) (request : BrokerRequest) (key : public_key)
    (state : terminal_state) (s : stage) (code receipt_id : option pystr) : res pybytes :=
  check! reraise_as (verify_broker_response frame key request) [BrokerProtocolError] ValueError
    "replica response signature is invalid" in
  let! value := canonical_object (Some frame) BROKER_RESPONSE_BYTES_MAX in
  check! guard (has_keys value RESPONSE_KEYS) ValueError
    "replica response frame fields are invalid" in
  check! guard (forallb (fun kv => get_eq value kv.1 kv.2) (response_binding request)) ValueError
    "replica response frame does not bind the request" in
  let status := match state with Completed => u"ok" | _ => u"error" end in
  check! guard (get_eq value (u"status") (JStr status) && get_eq value (u"error") (opt_json code))
    ValueError "replica terminal response status conflicts with durable state" in
  check! (match code with
          | Some c => guard (ERROR_CODE_PATTERN c) ValueError
                        "replica terminal response code is invalid"
          | None => Ok tt
          end) in
  check! (match receipt_id with
          | Some i => check! token (JStr i) "terminal response receipt ID" in Ok tt
          | None => Ok tt
          end) in
  check! guard (get_eq value (u"result") (JObj (terminal_result state s code receipt_id))) ValueError
    "replica terminal response result conflicts with durable state" in
  let! signature := item value (u"signature") in
  check! (match signature with
          | JStr t => guard (zlen t =? 86) ValueError
                        "replica response signature encoding is invalid"
          | _ => raise ValueError "replica response signature encoding is invalid"
          end) in
  Ok frame.

(** ** Binding of a receipt to the accepted request *)

(** [receipt.x == payload[k]] for a string member. *)
Definition is_member (p : list (pystr * json)) (k v : pystr) : res bool :=
  let! w := item p k in Ok (py_eq (JStr v) w).

Definition validate_receipt_binding (s : stage) (r : receipt) (request : BrokerRequest)
    (a : ReplicaAuthority) : res unit :=
  let p := payload request in
  let! bundle := item p (u"bundle") in let! bundle := parse_artifact bundle in
  let! worktree := item p (u"worktree") in let! worktree := parse_artifact worktree in
  let! index := item p (u"index_objects") in let! index := parse_artifact index in
  let! artifact_set := item p (u"artifact_set_sha256") in
  match s, r with
  | Ingest, RIngest r =>
      guard (bool_decide (ing_bundle r = bundle) && bool_decide (ing_worktree r = worktree)
             && bool_decide (ing_index_objects r = index)) ValueError
        "replica ingest receipt conflicts with accepted artifacts"
  | Verify, RVerify r =>
      if bool_decide (ver_bundle_sha256 r = artifact_sha256 bundle)
         && bool_decide (ver_worktree_sha256 r = artifact_sha256 worktree)
         && bool_decide (ver_index_objects_sha256 r = artifact_sha256 index)
      then
        let! source := is_member p (u"source_state_sha256") (ver_source_state_sha256 r) in
        if source then
          let! fingerprint := is_member p (u"reconciliation_fingerprint")
                                (ver_reconciliation_fingerprint r) in
          guard (fingerprint && py_eq (JStr (ver_artifact_set_sha256 r)) artifact_set) ValueError
            "replica verification receipt conflicts with accepted state"
        else raise ValueError "replica verification receipt conflicts with accepted state"
      else raise ValueError "replica verification receipt conflicts with accepted state"
  | Publish, RPublish r =>
      guard (bool_decide (pub_physical_target_id r = physical_target_id a)
             && (pub_replica_generation r =? replica_generation a)
             && bool_decide (pub_execution_owner_id r = execution_owner_id a)
             && py_eq (JStr (pub_artifact_set_sha256 r)) artifact_set) ValueError
        "replica publication receipt conflicts with authority"
  | Admission, RAdmission r =>
      guard (bool_decide (adm_execution_owner_id r = execution_owner_id a)) ValueError
        "replica admission receipt conflicts with authority"
  | _, _ => Ok tt
  end.
End Frames.

(** ** Canonical objects *)

Lemma canonical_object_complete l f maximum : canonical_json (JObj l) = Ok f →
  wf_dicts (JObj l) = true → sort_json (JObj l) = JObj l → zlen f <= maximum →
  canonical_object (Some f) maximum = Ok l.
Proof.
  intros Hc Hw Hs Hm. unfold canonical_object.
  rewrite bool_decide_eq_false_2 by by eapply canonical_json_nonempty.
  rewrite (proj2 (Z.leb_le _ _)) by done. cbn [negb andb guard res_bind].
  rewrite (loads_default_canonical _ _ Hc Hw), Hs. cbn [reraise_as res_bind].
  rewrite Hc. cbn [reraise_as res_bind]. by rewrite bool_decide_eq_true_2.
Qed.

Lemma canonical_object_sound raw maximum l : canonical_object raw maximum = Ok l →
  ∃ f, raw = Some f ∧ canonical_json (JObj l) = Ok f ∧ wf_dicts (JObj l) = true
       ∧ sort_json (JObj l) = JObj l ∧ zlen f <= maximum.
Proof.
  unfold canonical_object. destruct raw as [f|]; [|done]. intros H.
  destruct (negb _ && _) eqn:G; cbn [guard res_bind] in H; [|done]. breflect.
  destruct (loads_default f) as [v|e] eqn:El; cbn [reraise_as res_bind] in H.
  2: { by destruct (caught e _). }
  destruct v as [| | | | | |d]; try discriminate H.
  destruct (canonical_json (JObj d)) as [c|e] eqn:Ec; cbn [reraise_as res_bind] in H.
  2: { by destruct (caught e _). }
  destruct (bool_decide (c = f)) eqn:Hb; cbn [guard res_bind] in H; [|done]. breflect. subst c.
  injection H as <-. pose proof (loads_default_wf _ _ El) as Hw.
  pose proof (loads_default_canonical _ _ Ec Hw) as Hs. exists f. split_and!; try done. congruence.
Qed.

Lemma parse_canonical_object f maximum l :
  parse_canonical_json f maximum = Ok l → canonical_object (Some f) maximum = Ok l.
Proof.
  intros (Hc & Hw & Hs & Hm)%parse_canonical_sound. by apply canonical_object_complete.
Qed.

(** Two readings of a frame agree, whatever size limit each applies. *)
Lemma canonical_object_unique f m m' l l' :
  canonical_object f m = Ok l → canonical_object f m' = Ok l' → l = l'.
Proof.
  intros (f1 & -> & Hc & Hw & Hs & _)%canonical_object_sound
         (f2 & [= <-] & Hc' & Hw' & Hs' & _)%canonical_object_sound.
  pose proof (loads_default_canonical _ _ Hc Hw) as H1.
  pose proof (loads_default_canonical _ _ Hc' Hw') as H2. congruence.
Qed.

(** ** What the constructors establish *)

(** The invariant [__post_init__] establishes, as the constructor accepting
    the fields. *)
Definition artifact_ok (a : ArtifactReference) : Prop :=
  new_artifact (JStr (artifact_id a)) (JStr (artifact_sha256 a)) (JInt (byte_length a)) = Ok a.
Definition authority_ok (a : ReplicaAuthority) : Prop :=
  new_authority (JStr (physical_target_id a)) (JInt (replica_generation a))
    (JStr (execution_owner_id a)) = Ok a.

Definition receipt_ok (r : receipt) : Prop :=
  match r with
  | RIngest i =>
      artifact_ok (ing_bundle i) ∧ artifact_ok (ing_worktree i) ∧ artifact_ok (ing_index_objects i)
      ∧ new_ingest (JStr (ing_receipt_id i)) (ing_bundle i) (ing_worktree i) (ing_index_objects i)
        = Ok i
  | RVerify v =>
      new_verify (JStr (ver_receipt_id v)) (JStr (ver_bundle_sha256 v))
        (JStr (ver_worktree_sha256 v)) (JStr (ver_index_objects_sha256 v))
        (JStr (ver_source_state_sha256 v)) (JStr (ver_reconciliation_fingerprint v))
        (JStr (ver_artifact_set_sha256 v)) = Ok v
  | RPublish p =>
      new_publish (JStr (pub_receipt_id p)) (JStr (pub_physical_target_id p))
        (JInt (pub_replica_generation p)) (JStr (pub_execution_owner_id p))
        (JStr (pub_publication_marker_sha256 p)) (JStr (pub_synchronization_receipt_id p))
        (JStr (pub_artifact_set_sha256 p)) = Ok p
  | RAdmission a =>
      new_admission (JStr (adm_receipt_id a)) (JStr (adm_execution_owner_id a))
        (JStr (adm_runtime_unit_id a)) (JStr (adm_session_socket_sha256 a)) = Ok a
  | RDrain d => new_drain (JStr (drain_ack_receipt_id d)) (JStr (quiescence_receipt_id d)) = Ok d
  | RExport e =>
      artifact_ok (exp_bundle e) ∧ artifact_ok (exp_worktree e) ∧ artifact_ok (exp_index_objects e)
      ∧ new_export (JStr (export_receipt_id e)) (exp_bundle e) (exp_worktree e)
          (exp_index_objects e) = Ok e
  | RReclaim c => new_reclaim (JStr (reclaim_receipt_id c)) = Ok c
  | ROther => False
  end.

Lemma identifier_ok v d t : validate_replica_identifier v d = Ok t → v = JStr t.
Proof. unfold validate_replica_identifier. destruct v; try done. intros H. by inv_ok. Qed.
Lemma token_ok v d t : token v d = Ok t → v = JStr t ∧ TOKEN_PATTERN t = true.
Proof. unfold token. destruct v; try done. intros H. by inv_ok. Qed.
Lemma digest_ok v d t : digest v d = Ok t → v = JStr t ∧ DIGEST_PATTERN t = true.
Proof. unfold digest. destruct v; try done. intros H. by inv_ok. Qed.
Lemma positive_int_ok v d n : positive_int v d = Ok n → v = JInt n ∧ 1 <= n.
Proof. unfold positive_int. destruct v; try done. intros H. inv_ok. by breflect. Qed.

Lemma new_artifact_ok i s l a : new_artifact i s l = Ok a →
  artifact_ok a ∧ i = JStr (artifact_id a) ∧ s = JStr (artifact_sha256 a) ∧ l = JInt (byte_length a).
Proof.
  intros H. assert (K := H). unfold new_artifact in H. inv_ok. destruct l; try discriminate H. inv_ok.
  apply identifier_ok in E as E'. apply digest_ok in E0 as [E0' _]. subst. by split_and!.
Qed.

Lemma new_authority_ok t g o a : new_authority t g o = Ok a →
  authority_ok a ∧ t = JStr (physical_target_id a) ∧ g = JInt (replica_generation a)
  ∧ o = JStr (execution_owner_id a).
Proof.
  intros H. assert (K := H). unfold new_authority in H. inv_ok.
  apply identifier_ok in E as E'. apply identifier_ok in E0 as E0'.
  apply positive_int_ok in E1 as [E1' _]. subst. by split_and!.
Qed.

Lemma item_ok l k v : item l k = Ok v ↔ dict_get k l = Some v.
Proof. unfold item. destruct (dict_get k l); split; intros H; try discriminate H; congruence. Qed.

Lemma parse_artifact_json a : artifact_ok a → parse_artifact (artifact_json a) = Ok a.
Proof. exact (fun H => H). Qed.

(** The keys of a canonical dictionary with a fixed schema. *)
Lemma canonical_keys l keys : has_keys l keys = true → wf_dicts (JObj l) = true →
  sort_json (JObj l) = JObj l → bool_decide (NoDup keys) = true →
  StronglySorted str_le keys → dict_keys l = keys.
Proof. intros. apply has_keys_exact; auto. by apply (bool_decide_unpack _), Is_true_true. Qed.

Lemma has_keys_spec l keys : has_keys l keys = true ↔ ∀ k, k ∈ dict_keys l ↔ k ∈ keys.
Proof.
  unfold has_keys. rewrite andb_true_iff, !forallb_Forall, !Forall_forall.
  setoid_rewrite bool_decide_eq_true. firstorder.
Qed.

Lemma has_keys_perm l k k' : k ≡ₚ k' → has_keys l k = has_keys l k'.
Proof. intros H. apply eq_true_iff_eq. rewrite !has_keys_spec. by setoid_rewrite H. Qed.

Lemma parse_artifact_sound v a : parse_artifact v = Ok a → wf_dicts v = true → sort_json v = v →
  artifact_ok a ∧ v = artifact_json a.
Proof.
  destruct v as [| | | | | |l]; try done. unfold parse_artifact. intros H Hw Hs.
  destruct (has_keys _ _) eqn:Hk; cbn [guard res_bind] in H; [|done].
  assert (Hk' : has_keys l [u"artifact_id"; u"byte_length"; u"sha256"] = true).
  { etransitivity; [|exact Hk]. apply has_keys_perm, perm_skip, perm_swap. }
  apply canonical_keys in Hk'; [|done|done|done|by repeat constructor].
  split_dict Hk'. unfold item in H. get_at H "artifact_id" v. get_at H "sha256" v1.
  get_at H "byte_length" v0. cbn [res_bind] in H.
  by apply new_artifact_ok in H as (Ha & -> & -> & ->).
Qed.

(** The members of a sorted dictionary are sorted. *)
Lemma sorted_member l kv : sort_json (JObj l) = JObj l → kv ∈ l → sort_json kv.2 = kv.2.
Proof.
  cbn [sort_json]. intros [= H] Hin. rewrite <- H in Hin. rewrite sort_items_perm in Hin.
  apply list_elem_of_fmap in Hin as (y & -> & _). cbn. apply sort_json_idem.
Qed.
Lemma wf_member l kv : wf_dicts (JObj l) = true → kv ∈ l → wf_dicts kv.2 = true.
Proof.
  cbn [wf_dicts]. intros H Hin. breflect. apply forallb_Forall in H0. rewrite Forall_forall in H0.
  by apply H0.
Qed.

(** Look up the members of a dictionary whose keys are known. *)
Ltac get_items :=
  unfold item;
  repeat match goal with
  | |- context [dict_get (u ?k) ?l] =>
      let r := eval hnf in (dict_get (u k) l) in
      change (dict_get (u k) l) with r; cbn [snd res_bind]
  end.
Ltac get_items_in H :=
  unfold item in H;
  repeat match type of H with
  | context [dict_get (u ?k) ?l] =>
      let r := eval hnf in (dict_get (u k) l) in
      change (dict_get (u k) l) with r in H; cbn [snd res_bind] in H
  end.

Lemma parse_receipt_complete r s v : receipt_ok r → receipt_stage r = Some s →
  receipt_value r = Some v → parse_receipt s v = Ok r.
Proof.
  intros Hr Hs Hv.
  destruct r; cbn [receipt_stage receipt_value receipt_ok] in *; try done;
    injection Hs as <-; injection Hv as <-;
    try (destruct Hr as (H1 & H2 & H3 & Hr); apply parse_artifact_json in H1, H2, H3);
    cbn [parse_receipt]; get_items; rewrite ?H1; cbn [res_bind]; rewrite ?H2; cbn [res_bind];
    rewrite ?H3; cbn [res_bind]; by rewrite Hr.
Qed.

Lemma receipt_value_keys r s v : receipt_stage r = Some s → receipt_value r = Some v →
  has_keys v (receipt_keys s) = true ∧ sort_json (JObj v) = JObj v ∧ wf_dicts (JObj v) = true.
Proof.
  intros Hs Hv.
  by destruct r; cbn [receipt_stage receipt_value] in *; try done; injection Hs as <-; injection Hv as <-.
Qed.

(** A validated field is the string (or integer) it was read from. *)
Lemma token_str v d t : token v d = Ok t → v = JStr t.
Proof. by intros [? _]%token_ok. Qed.
Lemma digest_str v d t : digest v d = Ok t → v = JStr t.
Proof. by intros [? _]%digest_ok. Qed.
Lemma positive_int_int v d n : positive_int v d = Ok n → v = JInt n.
Proof. by intros [? _]%positive_int_ok. Qed.

(** Invert a constructor: name the result of each check and keep the value
    it came from. *)
Ltac inv_new H :=
  let K := fresh "K" in
  assert (K := H);
  unfold new_ingest, new_verify, new_publish, new_admission, new_drain, new_export, new_reclaim,
    new_rejected in H;
  inv_ok;
  repeat match goal with
  | E : token _ _ = Ok _ |- _ => apply token_str in E; subst
  | E : digest _ _ = Ok _ |- _ => apply digest_str in E; subst
  | E : positive_int _ _ = Ok _ |- _ => apply positive_int_int in E; subst
  | E : validate_replica_identifier _ _ = Ok _ |- _ => apply identifier_ok in E; subst
  end.

Lemma parse_receipt_sound s l r : parse_receipt s l = Ok r → dict_keys l = receipt_keys s →
  wf_dicts (JObj l) = true → sort_json (JObj l) = JObj l →
  receipt_ok r ∧ receipt_stage r = Some s ∧ receipt_value r = Some l.
Proof.
  intros H Hk Hw Hs.
  assert (Ha : ∀ k v a, (k, v) ∈ l → parse_artifact v = Ok a → artifact_ok a ∧ v = artifact_json a).
  { intros k v a Hin Hp. apply (parse_artifact_sound _ _ Hp);
      [by apply (wf_member l (k, v))|by apply (sorted_member l (k, v))]. }
  destruct s; cbn [receipt_keys parse_receipt] in *; split_dict Hk; get_items_in H.
  - destruct (parse_artifact v) as [b|] eqn:E1; cbn [res_bind] in H; [|done].
    destruct (parse_artifact v2) as [w|] eqn:E2; cbn [res_bind] in H; [|done].
    destruct (parse_artifact v0) as [i|] eqn:E3; cbn [res_bind] in H; [|done].
    destruct (new_ingest _ _ _ _) as [n|] eqn:E4; cbn [res_bind] in H; [|done]. injection H as <-.
    apply (Ha (u"bundle")) in E1 as [A1 ->]; [|left]. apply (Ha (u"worktree")) in E2 as [A2 ->]; [|do 3 right; left].
    apply (Ha (u"index_objects")) in E3 as [A3 ->]; [|right; left].
    inv_new E4. done.
  - destruct (new_verify _ _ _ _ _ _ _) as [n|] eqn:E4; cbn [res_bind] in H; [|done]. injection H as <-.
    inv_new E4. done.
  - destruct (new_publish _ _ _ _ _ _ _) as [n|] eqn:E4; cbn [res_bind] in H; [|done]. injection H as <-.
    inv_new E4. done.
  - destruct (new_admission _ _ _ _) as [n|] eqn:E4; cbn [res_bind] in H; [|done]. injection H as <-.
    inv_new E4. done.
  - destruct (new_drain _ _) as [n|] eqn:E4; cbn [res_bind] in H; [|done]. injection H as <-.
    inv_new E4. done.
  - destruct (parse_artifact v) as [b|] eqn:E1; cbn [res_bind] in H; [|done].
    destruct (parse_artifact v2) as [w|] eqn:E2; cbn [res_bind] in H; [|done].
    destruct (parse_artifact v1) as [i|] eqn:E3; cbn [res_bind] in H; [|done].
    destruct (new_export _ _ _ _) as [n|] eqn:E4; cbn [res_bind] in H; [|done]. injection H as <-.
    apply (Ha (u"bundle")) in E1 as [A1 ->]; [|left]. apply (Ha (u"worktree")) in E2 as [A2 ->]; [|do 3 right; left].
    apply (Ha (u"index_objects")) in E3 as [A3 ->]; [|do 2 right; left].
    inv_new E4. done.
  - destruct (new_reclaim _) as [n|] eqn:E4; cbn [res_bind] in H; [|done]. injection H as <-.
    inv_new E4. done.
Qed.

Lemma receipt_keys_sorted s : StronglySorted str_le (receipt_keys s).
Proof. destruct s; repeat constructor. Qed.
Lemma receipt_keys_nodup s : bool_decide (NoDup (receipt_keys s)) = true.
Proof. by destruct s. Qed.

Lemma validate_receipt_complete s r f : receipt_ok r → receipt_json s r = Ok f →
  validate_receipt s (Some f) = Ok r.
Proof.
  intros Hr H. unfold receipt_json in H.
  destruct (bool_decide _) eqn:Hs; cbn [guard res_bind] in H; [|done]. breflect.
  destruct (receipt_value r) as [v|] eqn:Hv; [|done].
  destruct (receipt_value_keys _ _ _ Hs Hv) as (Hk & Hsort & Hw).
  inv_ok. breflect. unfold validate_receipt.
  rewrite (canonical_object_complete v) by done. cbn [res_bind]. rewrite Hk. cbn [guard res_bind].
  by apply parse_receipt_complete.
Qed.

Lemma validate_receipt_sound s raw r : validate_receipt s raw = Ok r →
  ∃ f, raw = Some f ∧ receipt_ok r ∧ receipt_json s r = Ok f.
Proof.
  unfold validate_receipt. intros H. inv_ok.
  apply canonical_object_sound in E as (f & -> & Hc & Hw & Hs & Hm). exists f. split; [done|].
  assert (Hk : dict_keys a = receipt_keys s)
    by (apply canonical_keys; auto using receipt_keys_sorted, receipt_keys_nodup).
  destruct (parse_receipt_sound _ _ _ H Hk Hw Hs) as (Hr & Hst & Hv). split; [done|].
  unfold receipt_json. rewrite bool_decide_true by done. cbn [guard res_bind]. rewrite Hv, Hc.
  cbn [res_bind]. by rewrite (proj2 (Z.leb_le _ _)).
Qed.

(** C22. Receipts round-trip exactly: a stored receipt validates for a stage iff
    it is the canonical encoding of a receipt of that stage's type that its
    constructor accepts, and then it reads back as that receipt. In
    particular two stored receipts that read back equal are the same bytes. *)
Theorem validate_receipt_iff (s : stage) (f : pybytes) (r : receipt) :
  validate_receipt s (Some f) = Ok r ↔ receipt_ok r ∧ receipt_json s r = Ok f.
Proof.
  split.
  - intros (f' & [= <-] & H)%validate_receipt_sound. exact H.
  - intros [Hr H]. by apply validate_receipt_complete.
Qed.

(** ** Requests and responses *)

Lemma validate_payload_id v p : validate_replica_payload v = Ok p → v = JObj p.
Proof. unfold validate_replica_payload. destruct v; try done. intros H. by inv_ok. Qed.

Lemma get_eq_str l k v w : get_eq l k (JStr v) = true → dict_get k l = Some w → w = JStr v.
Proof. unfold get_eq. intros H E. rewrite E in H. destruct w; try done. cbn in H. by breflect; subst. Qed.

Lemma request_eq_fields a b : request_eq a b = true →
  request_identity a = request_identity b ∧ py_eq (JObj (payload a)) (JObj (payload b)) = true.
Proof. unfold request_eq, request_identity. intros H. breflect. split; congruence. Qed.

Section FrameFacts.
Context {SHA : Sha256} {ED : Ed25519}.

Lemma authenticate_message f key r : authenticate_request_frame f key = Ok r →
  request_type r = REPLICA_LIFECYCLE ∧ request_fields_ok r = true
  ∧ payload_digest (JObj (payload r)) = Ok (payload_digest_ r)
  ∧ ∃ sig, canonical_object (Some f) BROKER_FRAME_BYTES_MAX
           = Ok (request_message r ++ [(u"signature", JStr (encode_base64url sig))]).
Proof.
  unfold authenticate_request_frame. intros H.
  destruct (parse_signed_request f key) as [q|e] eqn:E; cbn [reraise_as res_bind] in H.
  2: { by destruct (caught e _). }
  inv_ok. breflect. apply parse_request_message in E as (sig & Hp & unsigned & _ & _ & Hf & Hd).
  split_and!; try done. exists sig. by apply parse_canonical_object.
Qed.

(** Authenticating a frame and reading it give the same request. *)
Lemma authenticated_request_unique f key r q :
  authenticate_request_frame f key = Ok r → request_from_frame (Some f) = Ok q → q = r.
Proof.
  intros (Hty & Hf & Hd & sig & Ho)%authenticate_message H.
  unfold request_from_frame in H. rewrite Ho in H. cbn [res_bind] in H.
  unfold request_fields_ok in Hf. unfold payload_digest in Hd. inv_ok.
  unfold request_message in *. cbn [app] in *. unfold item in *.
  repeat match goal with
  | E : match dict_get (u ?k) ?l with Some _ => _ | None => _ end = Ok _ |- _ =>
      let r := eval hnf in (dict_get (u k) l) in
      change (dict_get (u k) l) with r in E; cbn [snd] in E; injection E as <-
  end.
  repeat match goal with
  | G : get_eq _ _ _ = true |- _ => eapply get_eq_str in G; [|reflexivity]; cbn [snd] in G; injection G as G
  end.
  repeat match goal with
  | E : token _ _ = Ok _ |- _ => apply token_str in E; injection E as <-
  | E : validate_replica_operation_id _ = Ok _ |- _ =>
      unfold validate_replica_operation_id in E; inv_ok
  | E : validate_replica_payload _ = Ok _ |- _ => apply validate_payload_id in E; injection E as <-
  end.
  inv_ok. destruct r. cbn in *. congruence.
Qed.

Lemma verify_response_identity f key r q : request_identity r = request_identity q →
  verify_broker_response f key r = verify_broker_response f key q.
Proof.
  intros H. unfold verify_broker_response. rewrite H. done.
Qed.

(** A response is judged against the identity of its request only. *)
Lemma validate_response_identity f r q key st s code id : request_identity r = request_identity q →
  validate_response_frame f r key st s code id = validate_response_frame f q key st s code id.
Proof.
  intros H. unfold validate_response_frame. rewrite (verify_response_identity f key r q H).
  assert (response_binding r = response_binding q) as ->; [|done].
  unfold request_identity in H. unfold response_binding. congruence.
Qed.

Lemma validate_response_frame_id f r key st s code id f' :
  validate_response_frame f r key st s code id = Ok f' → f' = f.
Proof. unfold validate_response_frame. intros H. by inv_ok. Qed.

(** What a validated terminal response says. *)
Lemma validate_response_sound f r key st s code id f' :
  validate_response_frame f r key st s code id = Ok f' →
  ∃ resp, verify_broker_response f key r = Ok resp
    ∧ r_status resp = (match st with Completed => u"ok" | _ => u"error" end)
    ∧ r_error resp = code
    ∧ py_eq (JObj (r_result resp)) (JObj (terminal_result st s code id)) = true.
Proof.
  unfold validate_response_frame. intros H.
  destruct (verify_broker_response f key r) as [resp|e] eqn:Ev; cbn [reraise_as res_bind] in H.
  2: { by destruct (caught e _). }
  exists resp. split; [done|].
  apply verify_response_message in Ev as (_ & _ & sig & un & _ & _ & _ & _ & Hp).
  apply parse_canonical_object in Hp. rewrite Hp in H. cbn [res_bind] in H.
  destruct (has_keys _ _); cbn [guard res_bind] in H; [|done].
  destruct (forallb _ _); cbn [guard res_bind] in H; [|done].
  destruct (get_eq _ (u"status") _ && get_eq _ (u"error") _) eqn:G; cbn [guard res_bind] in H; [|done].
  apply andb_true_iff in G as [G1 G2]. inv_ok.
  apply get_eq_str with (w := JStr (r_status resp)) in G1; [|done]. injection G1 as G1.
  change (py_eq (opt_json (r_error resp)) (opt_json code) = true) in G2.
  split_and!; [done| |].
  - destruct (r_error resp), code; cbn in G2; try done. by breflect; subst.
  - assumption.
Qed.
End FrameFacts.
