(* ===== verification/ReplicaJournal.v ===== *)
(** * The replica journal

    Models [BrokerReplicaJournal] of [services/broker_replica_journal.py]: the
    append-only SQLite table of lifecycle events with its unique indexes and
    triggers, the replay that validates every history on every open, the
    operations that accept, claim, start, complete, reject and leave
    unresolved a stage, and the verification of uncertain commits.

    Other connections of the same file may act between any two statements: an
    operation runs in an environment that says, for every connection it opens
    and every statement it executes, what the others did before and whether
    the storage fails. *)

From S2P Require Import Prelude Text Json Crypto BrokerProtocol ReplicaContract.

(** ** Rows *)

Definition REPLICA_JOURNAL_SCHEMA_VERSION : Z := 1.

Inductive ev_kind :=
  | Accepted | AuthorityClaimed | StageStarted | StageOutcome | StageRejected | StageUnresolved.
#[export] Instance ev_kind_eq_dec : EqDecision ev_kind.
Proof. solve_decision. Defined.

Definition ident : Type := (pystr * pystr * pystr)%type.

(** The columns the INSERT names, less the append receipt; [None] is NULL. *)
Record row := {
  identity_ : ident;
  kind : ev_kind;
  stage_ : option stage;
  request_frame : option pybytes;
  request_frame_sha256 : option pystr;
  request_broker_incarnation : option pystr;
  request_nonce : option pystr;
  request_connection_sequence : option Z;
  request_payload_digest : option pystr;
  row_target : option pystr;
  row_generation : option Z;
  row_execution_owner : option pystr;
  owner_token : option pystr;
  owner_broker : option pystr;
  stage_status : option pystr;
  receipt_column : option pybytes;
  unresolved_reason : option pystr;
  response_frame : option pybytes;
  response_frame_sha256 : option pystr;
}.
#[export] Instance row_eq_dec : EqDecision row.
Proof. solve_decision. Defined.

Record event := {
  event_id : Z;
  append_receipt_id : pystr;
  created_at : pystr;
  ev_row : row;
}.

Definition event_identity (e : event) : ident := identity_ (ev_row e).
Definition event_kind (e : event) : ev_kind := kind (ev_row e).
Definition event_stage (e : event) : option stage := stage_ (ev_row e).

(** [_rows_for], in [event_id] order. *)
Definition rows_for (i : ident) (db : list event) : list event :=
  filter (fun e => event_identity e = i) db.

Definition is_kind (k : ev_kind) (r : row) : bool := bool_decide (kind r = k).
Definition is_completion (r : row) : bool :=
  is_kind StageOutcome r || is_kind StageRejected r || is_kind StageUnresolved r.
Definition terminal_row (r : row) : bool :=
  is_kind StageRejected r || is_kind StageUnresolved r
  || (is_kind StageOutcome r && bool_decide (stage_ r = Some Reclaim)).

(** SQL equality on a nullable column: NULL equals nothing. *)
Definition sql_eq {A} `{EqDecision A} (a b : option A) : bool :=
  match a, b with Some x, Some y => bool_decide (x = y) | _, _ => false end.

(** ** Constraints of the table *)

(** The UNIQUE append receipt and the five partial unique indexes. *)
Definition unique_ok (db : list event) (receipt_id : pystr) (r : row) : bool :=
  let rows := map ev_row (rows_for (identity_ r) db) in
  negb (existsb (fun e => bool_decide (append_receipt_id e = receipt_id)) db)
  && (negb (is_kind Accepted r) || negb (existsb (is_kind Accepted) rows))
  && (negb (is_kind AuthorityClaimed r) || negb (existsb (is_kind AuthorityClaimed) rows))
  && (negb (is_kind StageStarted r)
      || negb (existsb (fun x => is_kind StageStarted x && sql_eq (stage_ x) (stage_ r)) rows))
  && (negb (is_completion r)
      || negb (existsb (fun x => is_completion x && sql_eq (stage_ x) (stage_ r)) rows))
  && (negb (terminal_row r) || negb (existsb terminal_row rows)).

(** The trigger [replica_journal_require_transition]. *)
Definition trigger_check (db : list event) (r : row) : res unit :=
  if is_kind Accepted r then Ok tt
  else
    let rows := map ev_row (rows_for (identity_ r) db) in
    check! guard (existsb (is_kind Accepted) rows) IntegrityError
      "replica journal acceptance is missing" in
    check! guard (is_kind AuthorityClaimed r
        || existsb (fun x => is_kind AuthorityClaimed x && sql_eq (owner_token x) (owner_token r)) rows)
      IntegrityError "replica journal authority is missing" in
    check! guard (negb (is_completion r)
        || existsb (fun x => is_kind StageStarted x && sql_eq (stage_ x) (stage_ r)
                             && sql_eq (owner_token x) (owner_token r)) rows)
      IntegrityError "replica journal stage start is missing" in
    guard (negb (existsb terminal_row rows)) IntegrityError
      "replica journal terminal state is immutable".

(** AUTOINCREMENT over a table whose rows are never deleted. *)
Definition next_event_id (db : list event) : Z :=
  match last db with Some e => event_id e + 1 | None => 1 end.

(** INSERT: the BEFORE trigger, then the indexes. *)
Definition insert_event (db : list event) (receipt_id time : pystr) (r : row) :
    res (list event * Z) :=
  check! trigger_check db r in
  check! guard (unique_ok db receipt_id r) IntegrityError "UNIQUE constraint failed" in
  let e := {| event_id := next_event_id db; append_receipt_id := receipt_id; created_at := time;
              ev_row := r |} in
  Ok (db ++ [e], event_id e).

(** ** The file *)

Inductive schema := SchemaEmpty | SchemaExpected | SchemaOther.
#[export] Instance schema_eq_dec : EqDecision schema.
Proof. solve_decision. Defined.

(** What SQLite reports of the file; a meta row is its singleton key, the
    application, the schema version and the journal ID. *)
Record journal := {
  jn_integrity : bool;
  jn_schema : schema;
  jn_meta : list (Z * pystr * Z * pystr);
  jn_events : list event;
}.

Definition with_events (j : journal) (db : list event) : journal := {|
  jn_integrity := jn_integrity j; jn_schema := jn_schema j; jn_meta := jn_meta j;
  jn_events := db |}.

(** ** Patterns *)

Definition APPLICATION_ID_PATTERN (s : pystr) : bool :=
  match s with
  | c :: r => is_alnum c && fullmatch_range is_identifier_char 0 127 r
  | [] => false
  end.
Definition APPEND_RECEIPT_PATTERN : pystr → bool := fullmatch_n is_hex 32.
Definition JOURNAL_ID_PATTERN (s : pystr) : bool :=
  fullmatch_n is_hex 32 (take 32 s) && bool_decide (take 1 (drop 32 s) = [95])
  && fullmatch_n is_hex 64 (drop 33 s).

(** [\d] on text: the decimal digits of Unicode 14, as the code points of
    their zeros. *)
Definition DECIMAL_ZEROS : list Z :=
  [48; 1632; 1776; 1984; 2406; 2534; 2662; 2790; 2918; 3046; 3174; 3302; 3430; 3558; 3664; 3792;
   3872; 4160; 4240; 6112; 6160; 6470; 6608; 6784; 6800; 6992; 7088; 7232; 7248; 42528; 43216;
   43264; 43472; 43504; 43600; 44016; 65296; 66720; 68912; 69734; 69872; 69942; 70096; 70384;
   70736; 70864; 71248; 71360; 71472; 71904; 72016; 72784; 73040; 73120; 92768; 92864; 93008;
   120782; 120792; 120802; 120812; 120822; 123200; 123632; 125264; 130032].
Definition is_decimal (c : Z) : bool := existsb (fun z => (z <=? c) && (c <=? z + 9)) DECIMAL_ZEROS.

(** [\d{4}-\d{2}-\d{2} \d{2}:\d{2}:\d{2}]: the shape of a timestamp, with [0]
    for a digit. *)
Definition TIMESTAMP_SHAPE : pystr := u"0000-00-00 00:00:00".
Definition timestamp_ok (s : pystr) : bool :=
  (zlen s =? zlen TIMESTAMP_SHAPE)
  && forallb (fun cp => if cp.2 =? 48 then is_decimal cp.1 else cp.1 =? cp.2)
       (combine s TIMESTAMP_SHAPE).

(** ** Replay *)

Inductive column :=
  | CRequestFrame | CRequestFrameSha256 | CRequestBroker | CRequestNonce | CRequestSequence
  | CRequestDigest | CTarget | CGeneration | CExecutionOwner | COwnerToken | COwnerBroker
  | CStageStatus | CReceipt | CReason | CResponse | CResponseSha256.

Definition isnull {A} (o : option A) : bool := match o with None => true | Some _ => false end.

Definition column_null (r : row) (c : column) : bool :=
  match c with
  | CRequestFrame => isnull (request_frame r)
  | CRequestFrameSha256 => isnull (request_frame_sha256 r)
  | CRequestBroker => isnull (request_broker_incarnation r)
  | CRequestNonce => isnull (request_nonce r)
  | CRequestSequence => isnull (request_connection_sequence r)
  | CRequestDigest => isnull (request_payload_digest r)
  | CTarget => isnull (row_target r)
  | CGeneration => isnull (row_generation r)
  | CExecutionOwner => isnull (row_execution_owner r)
  | COwnerToken => isnull (owner_token r)
  | COwnerBroker => isnull (owner_broker r)
  | CStageStatus => isnull (stage_status r)
  | CReceipt => isnull (receipt_column r)
  | CReason => isnull (unresolved_reason r)
  | CResponse => isnull (response_frame r)
  | CResponseSha256 => isnull (response_frame_sha256 r)
  end.

(** [_nulls] *)
Definition nulls (r : row) (names : list column) : bool := forallb (column_null r) names.

Definition REQUEST_COLUMNS : list column :=
  [CRequestFrame; CRequestFrameSha256; CRequestBroker; CRequestNonce; CRequestSequence;
   CRequestDigest; CTarget; CGeneration; CExecutionOwner].
Definition RESULT_COLUMNS : list column :=
  [CStageStatus; CReceipt; CReason; CResponse; CResponseSha256].

(** The variables of the loop of [_replay]. *)
Record progress := {
  p_owner : option pystr;
  p_broker : option pystr;
  p_next : nat;
  p_started : bool;
  p_terminal : option (terminal_state * stage * pybytes);
}.

Definition start : progress :=
  {| p_owner := None; p_broker := None; p_next := 0; p_started := false; p_terminal := None |}.

Record Replay := {
  rp_frame : pybytes;
  rp_authority : ReplicaAuthority;
  rp_progress : progress;
}.

Section Journal.
Context {SHA : Sha256} {ED : Ed25519} {RAW : Ed25519Raw}.

(** What the constructor keeps. *)
Record config := {
  cf_application_id : pystr;
  cf_limits_sha256 : pystr;
  cf_request_key : public_key;
  cf_response_keys : list (pystr * public_key);
  cf_configuration_sha256 : pystr;
}.

Definition CONFIGURATION_DOMAIN : pybytes := u"yinshi-replica-journal-configuration-v1" ++ [0].

(** [__init__] up to [_initialize]; the canonical encoding sorts the keyring. *)
Definition new_config (application_id : pystr) (limits : json) (request_key : public_key)
    (response_keys : list (pystr * public_key)) : res config :=
  check! guard (APPLICATION_ID_PATTERN application_id) ValueError
    "replica journal application ID is invalid" in
  check! guard (negb (bool_decide (map fst response_keys = []))) ValueError
    "replica response public keyring is empty" in
  check! mapM_res (fun k => token (JStr k) "response key broker incarnation")
    (map fst response_keys) in
  let! limits := digest limits "configured replica limits SHA-256" in
  let! encoded := canonical_json (JObj
    [(u"limits_sha256", JStr limits);
     (u"request_public_key", JStr (hexdigest (public_bytes_raw request_key)));
     (u"response_public_keys",
      JObj (map (fun kv => (kv.1, JStr (hexdigest (public_bytes_raw kv.2)))) response_keys))]) in
  Ok {| cf_application_id := application_id; cf_limits_sha256 := limits;
        cf_request_key := request_key; cf_response_keys := response_keys;
        cf_configuration_sha256 := hexdigest (sha256 (CONFIGURATION_DOMAIN ++ encoded)) |}.

Section Configured.
Context (cfg : config).

Definition sync {A} (m : string) : res A := raise ReplicaJournalSyncError m.
Definition require (b : bool) (m : string) : res unit := guard b ReplicaJournalSyncError m.

(** The checks of the first event. *)
Definition replay_acceptance (r : row) :
    res (pybytes * BrokerRequest * ReplicaAuthority * public_key) :=
  match stage_ r, request_frame r, row_target r, row_generation r, row_execution_owner r with
  | None, Some frame, Some target, Some generation, Some execution_owner =>
      check! require (nulls r (COwnerToken :: COwnerBroker :: RESULT_COLUMNS))
        "replica journal acceptance is malformed" in
      let! request := reraise_as (authenticate_request_frame frame (cf_request_key cfg)) [ValueError]
        ReplicaJournalSyncError "replica accepted request authentication failed" in
      let! p := reraise_as (validate_replica_payload (JObj (payload request))) [ValueError]
        ReplicaJournalSyncError "replica accepted request payload is invalid" in
      check! require
        (bool_decide (identity_ r = (database_incarnation request, operation_id request,
                                     request_type request))
         && bool_decide (request_frame_sha256 r = Some (hexdigest (sha256 frame)))
         && bool_decide (request_broker_incarnation r = Some (broker_incarnation request))
         && bool_decide (request_nonce r = Some (nonce request))
         && bool_decide (request_connection_sequence r = Some (connection_sequence request))
         && bool_decide (request_payload_digest r = Some (payload_digest_ request)))
        "replica accepted request binding is invalid" in
      let! authority := new_authority (JStr target) (JInt generation) (JStr execution_owner) in
      let! limits := item p (u"limits_sha256") in
      check! require (py_eq limits (JStr (cf_limits_sha256 cfg)))
        "replica accepted limit profile is invalid" in
      match assoc_get (broker_incarnation request) (cf_response_keys cfg) with
      | None => sync "replica response signer is not configured"
      | Some key =>
          let! artifact_set := item p (u"artifact_set_sha256") in
          let! expected := expected_artifact_set request authority in
          check! require (py_eq artifact_set (JStr expected))
            "replica accepted artifact set identity is invalid" in
          Ok (frame, request, authority, key)
      end
  | _, _, _, _, _ => sync "replica journal acceptance is malformed"
  end.

(** The checks of an [authority_claimed] event. *)
Definition replay_claim (request : BrokerRequest) (index : nat) (p : progress) (r : row) :
    res progress :=
  check! require (Nat.eqb index 1 && isnull (p_owner p) && isnull (stage_ r))
    "replica journal authority order is invalid" in
  match owner_token r, owner_broker r with
  | Some owner, Some broker =>
      check! token (JStr owner) "owner token" in
      check! token (JStr broker) "owner broker incarnation" in
      check! require (bool_decide (broker = broker_incarnation request))
        "replica journal owner broker differs from authenticated request" in
      check! require (nulls r (REQUEST_COLUMNS ++ RESULT_COLUMNS))
        "replica journal authority is malformed" in
      Ok {| p_owner := Some owner; p_broker := Some broker; p_next := p_next p;
            p_started := p_started p; p_terminal := p_terminal p |}
  | _, _ => sync "replica journal authority is malformed"
  end.

(** A stored terminal response and its digest. *)
Definition replay_response (request : BrokerRequest) (key : public_key) (state : terminal_state)
    (s : stage) (code id : option pystr) (r : row) : res pybytes :=
  match response_frame r, response_frame_sha256 r with
  | Some f, Some d =>
      check! validate_response_frame f request key state s code id in
      check! require (bool_decide (hexdigest (sha256 f) = d))
        "replica journal terminal response digest is invalid" in
      Ok f
  | _, _ => sync "replica journal terminal response is missing"
  end.

Definition advance (p : progress) (s : bool) (n : nat)
    (t : option (terminal_state * stage * pybytes)) : progress :=
  {| p_owner := p_owner p; p_broker := p_broker p; p_next := n; p_started := s; p_terminal := t |}.

Definition replay_outcome (request : BrokerRequest) (a : ReplicaAuthority) (key : public_key)
    (s : stage) (p : progress) (r : row) : res progress :=
  check! require (bool_decide (stage_status r = Some (u"completed"))
                  && negb (isnull (receipt_column r)) && isnull (unresolved_reason r))
    "replica journal stage outcome is malformed" in
  let! receipt := validate_receipt s (receipt_column r) in
  check! validate_receipt_binding s receipt request a in
  match s with
  | Reclaim =>
      check! require (negb (isnull (response_frame r)) && negb (isnull (response_frame_sha256 r)))
        "replica journal terminal response is missing" in
      match receipt with
      | RReclaim c =>
          let! f := replay_response request key Completed Reclaim None (Some (reclaim_receipt_id c)) r in
          Ok (advance p false (S (p_next p)) (Some (Completed, Reclaim, f)))
      | _ => sync "replica reclaim receipt type is invalid"
      end
  | _ =>
      check! require (isnull (response_frame r) && isnull (response_frame_sha256 r))
        "replica journal nonterminal response is invalid" in
      Ok (advance p false (S (p_next p)) None)
  end.

Definition replay_rejected (request : BrokerRequest) (key : public_key) (s : stage) (p : progress)
    (r : row) : res progress :=
  match stage_status r with
  | Some status =>
      check! require (mem_str status (REJECTED_STATUSES s) && negb (isnull (receipt_column r))
                      && isnull (unresolved_reason r) && negb (isnull (response_frame r))
                      && negb (isnull (response_frame_sha256 r)))
        "replica journal rejection is malformed" in
      let! value := canonical_object (receipt_column r) RECEIPT_JSON_BYTES_MAX in
      check! require (has_keys value [u"receipt_id"])
        "replica journal rejection receipt is malformed" in
      let! id := item value (u"receipt_id") in
      let! rejected := new_rejected id in
      let! f := replay_response request key RejectedState s (Some status)
                  (Some (rejected_receipt_id rejected)) r in
      Ok (advance p (p_started p) (p_next p) (Some (RejectedState, s, f)))
  | None => sync "replica journal rejection is malformed"
  end.

Definition replay_unresolved (request : BrokerRequest) (key : public_key) (s : stage)
    (p : progress) (r : row) : res progress :=
  match unresolved_reason r with
  | Some reason =>
      check! require (isnull (stage_status r) && isnull (receipt_column r) && reason_ok s reason
                      && negb (isnull (response_frame r)) && negb (isnull (response_frame_sha256 r)))
        "replica journal unresolved event is malformed" in
      let! f := replay_response request key UnresolvedState s (Some reason) None r in
      Ok (advance p (p_started p) (p_next p) (Some (UnresolvedState, s, f)))
  | None => sync "replica journal unresolved event is malformed"
  end.

(** One iteration of the loop of [_replay]. *)
Definition replay_event (request : BrokerRequest) (a : ReplicaAuthority) (key : public_key)
    (index : nat) (p : progress) (r : row) : res progress :=
  check! require (isnull (p_terminal p)) "replica journal contains an event after terminal state" in
  match kind r with
  | AuthorityClaimed => replay_claim request index p r
  | k =>
      check! require (negb (isnull (p_owner p)) && negb (isnull (p_broker p)))
        "replica journal event precedes authority claim" in
      check! require (bool_decide (owner_token r = p_owner p))
        "replica journal owner token changed" in
      match STAGES !! p_next p with
      | None => sync "replica journal has too many stages"
      | Some s =>
          check! require (bool_decide (stage_ r = Some s)) "replica journal stage order is invalid" in
          check! require (nulls r (REQUEST_COLUMNS ++ [COwnerBroker]))
            "replica journal stage event is malformed" in
          match k with
          | StageStarted =>
              check! require (negb (p_started p) && nulls r RESULT_COLUMNS)
                "replica journal stage start is malformed" in
              Ok (advance p true (p_next p) None)
          | _ =>
              check! require (p_started p) "replica journal stage completion precedes its start" in
              match k with
              | StageOutcome => replay_outcome request a key s p r
              | StageRejected => replay_rejected request key s p r
              | StageUnresolved => replay_unresolved request key s p r
              | _ => sync "replica journal event type is unsupported"
              end
          end
      end
  end.

Fixpoint replay_events (request : BrokerRequest) (a : ReplicaAuthority) (key : public_key)
    (index : nat) (p : progress) (rows : list row) : res progress :=
  match rows with
  | [] => Ok p
  | r :: rows =>
      let! p := replay_event request a key index p r in
      replay_events request a key (S index) p rows
  end.

(** [_replay] *)
Definition replay (rows : list row) : res Replay :=
  match rows with
  | r :: rows =>
      if is_kind Accepted r then
        let! x := replay_acceptance r in
        let '(frame, request, authority, key) := x in
        let! p := replay_events request authority key 1 start rows in
        Ok {| rp_frame := frame; rp_authority := authority; rp_progress := p |}
      else sync "replica journal acceptance order is invalid"
  | [] => sync "replica journal acceptance order is invalid"
  end.

(** ** Validation on open *)

(** The checks of one event in the first loop of [_validate_events]. *)
Definition validate_event (prior : Z) (e : event) : res unit :=
  check! require (event_id e =? prior + 1) "replica journal event order is invalid" in
  check! require (APPEND_RECEIPT_PATTERN (append_receipt_id e)) "replica append receipt ID is invalid" in
  check! token (JStr (event_identity e).1.1) "stored database incarnation" in
  check! reraise_as (validate_replica_operation_id (JStr (event_identity e).1.2)) [ValueError]
    ReplicaJournalSyncError "replica stored operation ID is invalid" in
  check! require (bool_decide ((event_identity e).2 = REPLICA_LIFECYCLE))
    "replica stored request type is invalid" in
  require (timestamp_ok (created_at e)) "replica event timestamp is invalid".

(** The loop: the histories grow in the order their identities first occur. *)
Fixpoint collect_histories (prior : Z) (h : list (ident * list event)) (db : list event) :
    res (list (ident * list event)) :=
  match db with
  | [] => Ok h
  | e :: db =>
      check! validate_event prior e in
      let i := event_identity e in
      collect_histories (event_id e) (assoc_set i (default [] (assoc_get i h) ++ [e]) h) db
  end.

Definition validate_events (db : list event) : res unit :=
  let! h := collect_histories 0 [] db in
  check! mapM_res (fun kv => replay (map ev_row kv.2)) h in
  Ok tt.

(** [_validate] *)
Definition validate (j : journal) : res unit :=
  let body :=
    check! require (jn_integrity j) "replica journal integrity check failed" in
    check! require (bool_decide (jn_schema j = SchemaExpected))
      "replica journal schema objects are unsupported" in
    match jn_meta j with
    | [(singleton, application_id, version, journal_id)] =>
        check! require ((singleton =? 0) && bool_decide (application_id = cf_application_id cfg)
                        && (version =? REPLICA_JOURNAL_SCHEMA_VERSION)
                        && JOURNAL_ID_PATTERN journal_id)
          "replica journal metadata is unsupported" in
        check! require (ends_with (95 :: cf_configuration_sha256 cfg) journal_id)
          "replica journal configured authentication or limit profile differs" in
        validate_events (jn_events j)
    | _ => sync "replica journal metadata is unsupported"
    end in
  match body with
  | Ok x => Ok x
  | Raise e =>
      if caught e [ReplicaJournalSyncError] then Raise e
      else if caught e [OSError_; SqliteError; TypeError; ValueError]
      then sync "replica journal validation failed"
      else Raise e
  end.

(** ** The environment

    Before a statement the other connections of the file do [t_others]; the
    statement itself may fail. The statements of one connection are numbered. *)
Record turn := { t_others : journal → journal; t_fails : bool }.

Inductive commit_outcome := CommitOk | CommitError (durable : bool).

(** One connection: what happened before it, whether [_connect] or the reads
    of the validation fail, its statements, the outcome of its commit, the
    [secrets.token_hex(16)] drawn for it and SQLite's CURRENT_TIMESTAMP. *)
Record conn := {
  cn_others : journal → journal;
  cn_fails : bool;
  cn_turn : nat → turn;
  cn_commit : commit_outcome;
  cn_token : pystr;
  cn_time : pystr;
}.

(** The file and the number of connections opened so far. *)
Record rstore := { rs_journal : journal; rs_next : nat }.

Context (env : nat → conn).

Definition set_journal (j : journal) : st rstore unit := fun s =>
  ({| rs_journal := j; rs_next := rs_next s |}, Ok tt).

(** [_connect] *)
Definition connect : st rstore conn := fun s =>
  let c := env (rs_next s) in
  let s' := {| rs_journal := cn_others c (rs_journal s); rs_next := S (rs_next s) |} in
  if cn_fails c then (s', sync "replica journal synchronization failed") else (s', Ok c).

(** [_open] *)
Definition open_ : st rstore conn :=
  let^ c := connect in
  let^ s := st_get in
  do^ st_lift (validate (rs_journal s)) in
  st_ret c.

(** The [k]-th statement of a connection, on the file as it finds it. *)
Definition statement (c : conn) (k : nat) : st rstore journal := fun s =>
  let t := cn_turn c k in
  let j := t_others t (rs_journal s) in
  let s' := {| rs_journal := j; rs_next := rs_next s |} in
  if t_fails t then (s', raise SqliteError "disk I/O error") else (s', Ok j).

(** [try: m except (cs): raise C(message)] *)
Definition st_reraise {A} (m : st rstore A) (cs : list exc_class) (c : exc_class) (msg : string) :
    st rstore A := fun s =>
  let p := m s in (p.1, reraise_as p.2 cs c msg).

(** [_initialize]; a commit that fails leaves the schema created or not. *)
Definition create_schema (c : conn) (j : journal) : journal :=
  if bool_decide (jn_schema j = SchemaEmpty)
  then {| jn_integrity := jn_integrity j; jn_schema := SchemaExpected;
          jn_meta := [(0, cf_application_id cfg, REPLICA_JOURNAL_SCHEMA_VERSION,
                       cn_token c ++ 95 :: cf_configuration_sha256 cfg)];
          jn_events := [] |}
  else j.

Definition initialize : st rstore unit :=
  st_reraise
    (let^ c := connect in
     let^ j := statement c 0 in
     do^ match cn_commit c with
         | CommitOk => set_journal (create_schema c j)
         | CommitError durable =>
             do^ (if durable then set_journal (create_schema c j) else st_ret tt) in
             st_lift (raise SqliteError "disk I/O error")
         end in
     let^ _ := open_ in st_ret tt)
    [OSError_; SqliteError] ReplicaJournalSyncError "replica journal synchronization failed".

(** ** Decisions and positions *)

Inductive decision_state := DAbsent | DAccepted | DClaimed | DInFlight | DTerminal (t : terminal_state).
#[export] Instance decision_state_eq_dec : EqDecision decision_state.
Proof. solve_decision. Defined.

Record ReplicaJournalDecision := {
  d_state : decision_state;
  d_stage : option stage;
  d_response : option pybytes;
  d_owner_broker : option pystr;
}.
#[export] Instance decision_eq_dec : EqDecision ReplicaJournalDecision.
Proof. solve_decision. Defined.

Record ReplicaJournalPosition := {
  pos_journal_id : pystr;
  pos_sequence : Z;
  pos_append_receipt_id : pystr;
}.

Definition absent : ReplicaJournalDecision :=
  {| d_state := DAbsent; d_stage := None; d_response := None; d_owner_broker := None |}.

(** [_decision] *)
Definition decision (p : progress) : ReplicaJournalDecision :=
  match p_terminal p, p_owner p with
  | Some (t, s, f), _ =>
      {| d_state := DTerminal t; d_stage := Some s; d_response := Some f; d_owner_broker := p_broker p |}
  | None, None =>
      {| d_state := DAccepted; d_stage := None; d_response := None; d_owner_broker := None |}
  | None, Some _ =>
      {| d_state := if p_started p then DInFlight else DClaimed;
         d_stage := Some (default Reclaim (STAGES !! p_next p)); d_response := None;
         d_owner_broker := p_broker p |}
  end.

Definition identity (r : BrokerRequest) : ident :=
  (database_incarnation r, operation_id r, request_type r).

(** [_validate_request_frame(events[0].request_frame, request)] *)
Definition require_bound (e : event) (request : BrokerRequest) : res unit :=
  check! validate_request_frame (request_frame (ev_row e)) request in Ok tt.

Definition status_query (request : BrokerRequest) (db : list event) : res ReplicaJournalDecision :=
  match rows_for (identity request) db with
  | [] => Ok absent
  | (e :: _) as events =>
      check! require_bound e request in
      let! rp := replay (map ev_row events) in
      Ok (decision (rp_progress rp))
  end.

Definition status (request : BrokerRequest) : st rstore ReplicaJournalDecision :=
  let^ c := open_ in
  let^ j := statement c 0 in
  st_lift (status_query request (jn_events j)).

(** ** Checks that open no database *)

Definition response_public_key (request : BrokerRequest) : res public_key :=
  match assoc_get (broker_incarnation request) (cf_response_keys cfg) with
  | Some key => Ok key
  | None => raise ReplicaJournalConflictError "replica response signer is not configured"
  end.

Definition require_response_signer (incarnation : pystr) (key : private_key) : res unit :=
  check! token (JStr incarnation) "response broker incarnation" in
  match assoc_get incarnation (cf_response_keys cfg) with
  | None => raise ValueError "replica response signer incarnation is not configured"
  | Some expected =>
      guard (bool_decide (public_bytes_raw (public_of key) = public_bytes_raw expected)) ValueError
        "replica response signer does not match configured authority"
  end.

Definition validate_stage_receipt (request : BrokerRequest) (a : ReplicaAuthority) (name : pystr)
    (r : receipt) : res unit :=
  reraise_as
    (let! s := validate_stage name in
     check! receipt_json s r in
     validate_receipt_binding s r request a)
    [TypeError; ValueError] ReplicaJournalEffectResultError "replica stage receipt is invalid".

Definition validate_rejection (name status : pystr) (r : RejectedReceipt) : res stage :=
  reraise_as
    (let! s := validate_stage name in
     check! guard (mem_str status (REJECTED_STATUSES s)) ValueError
       "replica rejection status is invalid" in
     check! rejected_json r in
     Ok s)
    [TypeError; ValueError] ReplicaJournalEffectResultError
    "replica rejected effect result is invalid".

Definition validate_unresolved_reason (name reason : pystr) : res stage :=
  reraise_as
    (let! s := validate_stage name in
     check! guard (reason_ok s reason) ValueError
       "replica unresolved reason is invalid for the stage" in
     Ok s)
    [TypeError; ValueError] ReplicaJournalEffectResultError
    "replica unresolved effect result is invalid".

(** ** Appending *)

(** [SELECT journal_id ... WHERE singleton = 0] *)
Definition journal_id_of (j : journal) : res pystr :=
  match List.find (fun m => m.1.1.1 =? 0) (jn_meta j) with
  | Some m => Ok m.2
  | None => sync "replica journal ID is missing"
  end.

Definition journal_position (c : conn) (k : nat) (id : Z) (receipt_id : pystr) :
    st rstore ReplicaJournalPosition :=
  let^ j := statement c k in
  let^ jid := st_lift (journal_id_of j) in
  st_ret {| pos_journal_id := jid; pos_sequence := id; pos_append_receipt_id := receipt_id |}.

(** The tuple [values] of [_append], less the append receipt. *)
Definition append_values (i : ident) (k : ev_kind) (s : option stage) (frame : option pybytes)
    (a : option ReplicaAuthority) (owner broker status : option pystr) (receipt_ : option pybytes)
    (reason : option pystr) (response : option pybytes) : res row :=
  let! request := match frame with
                  | Some _ => let! q := request_from_frame frame in Ok (Some q)
                  | None => Ok None
                  end in
  Ok {| identity_ := i; kind := k; stage_ := s; request_frame := frame;
        request_frame_sha256 := option_map (fun f => hexdigest (sha256 f)) frame;
        request_broker_incarnation := option_map broker_incarnation request;
        request_nonce := option_map nonce request;
        request_connection_sequence := option_map connection_sequence request;
        request_payload_digest := option_map payload_digest_ request;
        row_target := option_map physical_target_id a;
        row_generation := option_map replica_generation a;
        row_execution_owner := option_map execution_owner_id a;
        owner_token := owner; owner_broker := broker; stage_status := status;
        receipt_column := receipt_; unresolved_reason := reason; response_frame := response;
        response_frame_sha256 := option_map (fun f => hexdigest (sha256 f)) response |}.

Inductive verdict :=
  | Present (id : Z) (receipt_id : pystr)
  | Equivalent (id : Z) (receipt_id : pystr)
  | Conflict
  | Absent.

(** The row that occupies the slot of [r] in its unique index. *)
Definition same_slot (r : row) (e : event) : bool :=
  bool_decide (event_identity e = identity_ r)
  && match kind r with
     | Accepted | AuthorityClaimed => is_kind (kind r) (ev_row e)
     | StageStarted => is_kind StageStarted (ev_row e) && sql_eq (event_stage e) (stage_ r)
     | _ => is_completion (ev_row e) && sql_eq (event_stage e) (stage_ r)
     end.

Definition inspect_intended_event (receipt_id : pystr) (r : row) : st rstore verdict :=
  let^ c := open_ in
  st_reraise
    (let^ j := statement c 0 in
     match List.find (fun e => bool_decide (append_receipt_id e = receipt_id)) (jn_events j) with
     | Some e =>
         st_ret (if bool_decide (ev_row e = r) then Present (event_id e) (append_receipt_id e)
                 else Conflict)
     | None =>
         let^ j := statement c 1 in
         st_ret match List.find (same_slot r) (jn_events j) with
                | None => Absent
                | Some e => if bool_decide (ev_row e = r)
                            then Equivalent (event_id e) (append_receipt_id e) else Conflict
                end
     end)
    [OSError_; SqliteError; TypeError] ReplicaJournalSyncError "replica journal verification failed".

Definition confirm_appended_event (receipt_id : pystr) (r : row) (collision : bool) :
    st rstore ReplicaJournalPosition :=
  let^ v := inspect_intended_event receipt_id r in
  match v with
  | Present id rid | Equivalent id rid =>
      let^ c := open_ in journal_position c 0 id rid
  | Absent =>
      st_lift (if collision
               then raise ReplicaJournalConflictError
                      "replica journal transition conflicts with durable state"
               else raise ReplicaJournalCommitAbsent
                      "replica journal commit is absent after verification")
  | Conflict =>
      st_lift (if collision
               then raise ReplicaJournalConflictError
                      "replica journal transition conflicts with durable state"
               else sync "replica journal commit conflicts with persisted state")
  end.

(** The transaction of [_append]: the event's position when the commit
    returned, or whether it is uncertain or collided. *)
Inductive appended := Committed (id : Z) | Uncertain | Collision.

Definition append_transaction (c : conn) (r : row) : st rstore appended :=
  st_reraise
    (let^ j := statement c 0 in                        (* BEGIN IMMEDIATE *)
     if t_fails (cn_turn c 1) then st_lift (raise SqliteError "disk I/O error")
     else
       match insert_event (jn_events j) (cn_token c) (cn_time c) r with
       | Raise e => if caught e [IntegrityError] then st_ret Collision else st_lift (Raise e)
       | Ok (db, id) =>
           match cn_commit c with
           | CommitOk => do^ set_journal (with_events j db) in st_ret (Committed id)
           | CommitError durable =>
               do^ (if durable then set_journal (with_events j db) else st_ret tt) in
               st_ret Uncertain
           end
       end)
    [OSError_; SqliteError] ReplicaJournalSyncError "replica journal append failed".

(** [_append]; the receipt is drawn before the connection it is inserted by.
    Integers fit their columns: a generation and a connection sequence come
    from a signed frame, whose integers are below 2^53 ([parse_signed_request]). *)
Definition append (i : ident) (k : ev_kind) (s : option stage) (frame : option pybytes)
    (a : option ReplicaAuthority) (owner broker status : option pystr) (receipt_ : option pybytes)
    (reason : option pystr) (response : option pybytes) : st rstore ReplicaJournalPosition :=
  let^ r := st_lift (append_values i k s frame a owner broker status receipt_ reason response) in
  let^ c := open_ in
  let^ x := append_transaction c r in
  match x with
  | Committed id => let^ c2 := open_ in journal_position c2 0 id (cn_token c)
  | Uncertain => confirm_appended_event (cn_token c) r false
  | Collision => confirm_appended_event (cn_token c) r true
  end.

(** ** Acceptance and authority *)

(** What [accept] checks before it opens the database: the frame to store. *)
Definition check_acceptance (request : BrokerRequest) (frame : pybytes) (a : ReplicaAuthority) :
    res pybytes :=
  let! authenticated := reraise_as (authenticate_request_frame frame (cf_request_key cfg)) [ValueError]
    ReplicaJournalConflictError "replica request authentication failed" in
  check! guard (request_eq authenticated request) ReplicaJournalConflictError
    "replica request frame does not bind the request" in
  let! frame := validate_request_frame (Some frame) request in
  check! response_public_key request in
  let! p := validate_replica_payload (JObj (payload request)) in
  let! authority := item p (u"authority") in
  let! authority := parse_replica_authority authority in
  check! guard (bool_decide (authority = a)) ReplicaJournalConflictError
    "replica request authority differs from supplied authority" in
  let! limits := item p (u"limits_sha256") in
  check! guard (py_eq limits (JStr (cf_limits_sha256 cfg))) ReplicaJournalConflictError
    "replica request limit profile is not configured" in
  let! expected := expected_artifact_set request a in
  let! artifact_set := item p (u"artifact_set_sha256") in
  check! guard (py_eq artifact_set (JStr expected)) ReplicaJournalConflictError
    "replica artifact set identity is invalid" in
  Ok frame.

(** The durable acceptance, when there is one. *)
Definition accepted_query (request : BrokerRequest) (frame : pybytes) (a : ReplicaAuthority)
    (db : list event) : res (option ReplicaJournalDecision) :=
  match rows_for (identity request) db with
  | [] => Ok None
  | events =>
      let! rp := replay (map ev_row events) in
      check! guard (bool_decide (rp_frame rp = frame) && bool_decide (rp_authority rp = a))
        ReplicaJournalConflictError "replica acceptance conflicts with durable authority" in
      Ok (Some (decision (rp_progress rp)))
  end.

Definition accept (request : BrokerRequest) (frame : pybytes) (a : ReplicaAuthority) :
    st rstore ReplicaJournalDecision :=
  let^ frame := st_lift (check_acceptance request frame a) in
  let^ c := open_ in
  let^ j := statement c 0 in
  let^ known := st_lift (accepted_query request frame a (jn_events j)) in
  match known with
  | Some d => st_ret d
  | None =>
      do^ append (identity request) Accepted None (Some frame) (Some a) None None None None None None in
      status request
  end.

Definition claim_query (request : BrokerRequest) (owner broker : pystr) (db : list event) :
    res (option ReplicaJournalDecision) :=
  match rows_for (identity request) db with
  | [] => raise ReplicaJournalConflictError "replica acceptance is missing"
  | (e :: _) as events =>
      check! require_bound e request in
      let! rp := replay (map ev_row events) in
      match p_owner (rp_progress rp) with
      | None => Ok None
      | Some o =>
          check! guard (bool_decide (o = owner)
                        && bool_decide (p_broker (rp_progress rp) = Some broker))
            ReplicaJournalConflictError "replica authority conflicts with durable owner" in
          Ok (Some (decision (rp_progress rp)))
      end
  end.

Definition claim_authority (request : BrokerRequest) (owner broker : pystr) :
    st rstore ReplicaJournalDecision :=
  do^ st_lift (token (JStr owner) "owner token") in
  do^ st_lift (token (JStr broker) "owner broker incarnation") in
  do^ st_lift (guard (bool_decide (broker = broker_incarnation request)) ReplicaJournalConflictError
    "replica owner broker differs from authenticated request") in
  let^ c := open_ in
  let^ j := statement c 0 in
  let^ known := st_lift (claim_query request owner broker (jn_events j)) in
  match known with
  | Some d => st_ret d
  | None =>
      do^ append (identity request) AuthorityClaimed None None None (Some owner) (Some broker)
            None None None None in
      status request
  end.

(** ** Stages *)

Definition active_query (request : BrokerRequest) (owner : pystr) (s : stage) (db : list event) :
    res Replay :=
  match rows_for (identity request) db with
  | [] => raise ReplicaJournalConflictError "replica acceptance is missing"
  | (e :: _) as events =>
      check! require_bound e request in
      let! rp := replay (map ev_row events) in
      let p := rp_progress rp in
      check! guard (isnull (p_terminal p)) ReplicaJournalConflictError
        "replica lifecycle is already terminal" in
      check! guard (bool_decide (p_owner p = Some owner)) ReplicaJournalConflictError
        "replica lifecycle owner conflicts" in
      check! guard (bool_decide (STAGES !! p_next p = Some s)) ReplicaJournalConflictError
        "replica stage order conflicts" in
      Ok rp
  end.

(** [_require_active] *)
Definition require_active (request : BrokerRequest) (owner : pystr) (s : stage) : st rstore Replay :=
  let^ c := open_ in
  let^ j := statement c 0 in
  st_lift (active_query request owner s (jn_events j)).

(** [_existing_completion_or_start], for its only caller's event type. *)
Definition existing_start (request : BrokerRequest) (owner : pystr) (s : stage) :
    st rstore (option ReplicaJournalPosition) :=
  let^ c := open_ in
  let^ j := statement c 0 in
  let events := rows_for (identity request) (jn_events j) in
  do^ st_lift (match events with [] => Ok tt | e :: _ => require_bound e request end) in
  match List.find (fun e => is_kind StageStarted (ev_row e) && bool_decide (event_stage e = Some s))
          events with
  | None => st_ret None
  | Some e =>
      do^ st_lift (guard (bool_decide (owner_token (ev_row e) = Some owner))
                     ReplicaJournalConflictError "replica stage owner conflicts") in
      let^ p := journal_position c 1 (event_id e) (append_receipt_id e) in
      st_ret (Some p)
  end.

(** [exact] of [_existing_exact_completion]. *)
Definition exact_completion (r : row) (k : ev_kind) (owner : pystr) (status : option pystr)
    (receipt_ : option pybytes) (reason : option pystr) (response : option pybytes) : bool :=
  is_kind k r && bool_decide (owner_token r = Some owner) && bool_decide (stage_status r = status)
  && bool_decide (receipt_column r = receipt_) && bool_decide (unresolved_reason r = reason)
  && bool_decide (response_frame r = response)
  && bool_decide (response_frame_sha256 r
                  = option_map (fun f => hexdigest (sha256 f)) response).

Definition existing_exact_completion (request : BrokerRequest) (owner : pystr) (s : stage)
    (k : ev_kind) (status : option pystr) (receipt_ : option pybytes) (reason : option pystr)
    (response : option pybytes) : st rstore (option ReplicaJournalPosition) :=
  let^ c := open_ in
  let^ j := statement c 0 in
  let events := rows_for (identity request) (jn_events j) in
  do^ st_lift (match events with [] => Ok tt | e :: _ => require_bound e request end) in
  match List.find (fun e => bool_decide (event_stage e = Some s) && is_completion (ev_row e)) events with
  | None => st_ret None
  | Some e =>
      do^ st_lift (guard (exact_completion (ev_row e) k owner status receipt_ reason response)
                     ReplicaJournalConflictError
                     "replica stage completion conflicts with durable state") in
      let^ p := journal_position c 1 (event_id e) (append_receipt_id e) in
      st_ret (Some p)
  end.

Definition begin_stage (request : BrokerRequest) (owner name : pystr) :
    st rstore ReplicaJournalPosition :=
  do^ st_lift (token (JStr owner) "owner token") in
  let^ s := st_lift (validate_stage name) in
  let^ existing := existing_start request owner s in
  match existing with
  | Some p => st_ret p
  | None =>
      let^ rp := require_active request owner s in
      do^ st_lift (guard (negb (p_started (rp_progress rp))) ReplicaJournalConflictError
        "replica stage already started") in
      append (identity request) StageStarted (Some s) None None (Some owner) None None None None None
  end.

(** What every completion does after its own checks: an exact completion is
    returned, a lifecycle that is not at this stage refuses, and [check] sees
    the replay before the row is appended. *)
Definition complete_with (request : BrokerRequest) (owner : pystr) (s : stage) (k : ev_kind)
    (status : option pystr) (receipt_ : option pybytes) (reason : option pystr)
    (response : option pybytes) (check : Replay → res unit) : st rstore ReplicaJournalPosition :=
  let^ existing := existing_exact_completion request owner s k status receipt_ reason response in
  match existing with
  | Some p => st_ret p
  | None =>
      let^ rp := require_active request owner s in
      do^ st_lift (guard (p_started (rp_progress rp)) ReplicaJournalConflictError
        "replica stage start is missing") in
      do^ st_lift (check rp) in
      append (identity request) k (Some s) None None (Some owner) None status receipt_ reason response
  end.

(** The response a completion may carry: only the last stage has one. *)
Definition completion_response (request : BrokerRequest) (s : stage) (r : receipt)
    (response : option pybytes) : res (option pybytes) :=
  match s with
  | Reclaim =>
      match response, r with
      | None, _ => raise ValueError "replica reclaim response is required"
      | Some f, RReclaim c =>
          let! key := response_public_key request in
          let! f := validate_response_frame f request key Completed Reclaim None
                      (Some (reclaim_receipt_id c)) in
          Ok (Some f)
      | Some _, _ => raise TypeError "replica reclaim receipt type is invalid"
      end
  | _ => check! guard (isnull response) ValueError "replica nonterminal response is not permitted" in
         Ok None
  end.

(** [_complete], and the seven methods that call it *)
Definition complete (request : BrokerRequest) (owner : pystr) (s : stage) (r : receipt)
    (response : option pybytes) : st rstore ReplicaJournalPosition :=
  do^ st_lift (token (JStr owner) "owner token") in
  let^ encoded := st_lift (receipt_json s r) in
  let^ terminal := st_lift (completion_response request s r response) in
  complete_with request owner s StageOutcome (Some (u"completed")) (Some encoded) None terminal
    (fun rp =>
       let! accepted := authenticate_request_frame (rp_frame rp) (cf_request_key cfg) in
       validate_stage_receipt accepted (rp_authority rp) (stage_name s) r).

Definition complete_ingest (q : BrokerRequest) (owner : pystr) (r : IngestReceipt) :=
  complete q owner Ingest (RIngest r).
Definition complete_verify (q : BrokerRequest) (owner : pystr) (r : VerifyReceipt) :=
  complete q owner Verify (RVerify r).
Definition complete_publish (q : BrokerRequest) (owner : pystr) (r : PublishReceipt) :=
  complete q owner Publish (RPublish r).
Definition complete_admission (q : BrokerRequest) (owner : pystr) (r : AdmissionReceipt) :=
  complete q owner Admission (RAdmission r).
Definition complete_drain (q : BrokerRequest) (owner : pystr) (r : DrainReceipt) :=
  complete q owner Drain (RDrain r).
Definition complete_export (q : BrokerRequest) (owner : pystr) (r : ExportReceipt) :=
  complete q owner Export (RExport r).
Definition complete_reclaim (q : BrokerRequest) (owner : pystr) (r : ReclaimReceipt) :=
  complete q owner Reclaim (RReclaim r).

Definition record_rejected (request : BrokerRequest) (owner name status : pystr)
    (r : RejectedReceipt) (response : pybytes) : st rstore ReplicaJournalPosition :=
  do^ st_lift (token (JStr owner) "owner token") in
  let^ s := st_lift (validate_rejection name status r) in
  let^ encoded := st_lift (rejected_json r) in
  let^ key := st_lift (response_public_key request) in
  let^ f := st_lift (validate_response_frame response request key RejectedState s (Some status)
                       (Some (rejected_receipt_id r))) in
  complete_with request owner s StageRejected (Some status) (Some encoded) None (Some f)
    (fun _ => Ok tt).

Definition record_unresolved (request : BrokerRequest) (owner name reason : pystr)
    (response : pybytes) : st rstore ReplicaJournalPosition :=
  do^ st_lift (token (JStr owner) "owner token") in
  let^ s := st_lift (validate_unresolved_reason name reason) in
  let^ key := st_lift (response_public_key request) in
  let^ f := st_lift (validate_response_frame response request key UnresolvedState s (Some reason)
                       None) in
  complete_with request owner s StageUnresolved None None (Some reason) (Some f) (fun _ => Ok tt).

(** ** Recovery *)

Record IncompleteReplicaLifecycle := {
  il_request_frame : pybytes;
  il_owner_token : pystr;
  il_owner_broker : pystr;
  il_stage : stage;
  il_started : bool;
  il_reason : pystr;
  il_authority : ReplicaAuthority;
}.

(** [GROUP BY 1, 2, 3 ORDER BY MIN(event_id)] *)
Fixpoint first_seen (seen : list ident) (db : list event) : list ident :=
  match db with
  | [] => []
  | e :: db =>
      let i := event_identity e in
      if bool_decide (i ∈ seen) then first_seen seen db else i :: first_seen (i :: seen) db
  end.

Definition pending_of (rows : list row) : res (option IncompleteReplicaLifecycle) :=
  let! rp := replay rows in
  let p := rp_progress rp in
  match p_owner p, p_terminal p with
  | Some owner, None =>
      match STAGES !! p_next p, p_broker p with
      | Some s, Some broker => Ok (Some
          {| il_request_frame := rp_frame rp; il_owner_token := owner; il_owner_broker := broker;
             il_stage := s; il_started := p_started p; il_reason := u"broker_restart_unknown";
             il_authority := rp_authority rp |})
      | None, _ => sync "replica nonterminal lifecycle has no next stage"
      | Some _, None => raise TypeError "owner broker incarnation is None"
      end
  | _, _ => Ok None
  end.

(** One [_rows_for] per identity, each a statement of its own. *)
Fixpoint collect_pending (c : conn) (k : nat) (ids : list ident) :
    st rstore (list IncompleteReplicaLifecycle) :=
  match ids with
  | [] => st_ret []
  | i :: ids =>
      let^ j := statement c k in
      let^ x := st_lift (pending_of (map ev_row (rows_for i (jn_events j)))) in
      let^ rest := collect_pending c (S k) ids in
      st_ret (match x with Some l => l :: rest | None => rest end)
  end.

Definition incomplete_lifecycles : st rstore (list IncompleteReplicaLifecycle) :=
  let^ c := open_ in
  let^ j := statement c 0 in
  collect_pending c 1 (first_seen [] (jn_events j)).

Definition authenticated_request (l : IncompleteReplicaLifecycle) : res BrokerRequest :=
  check! require (negb (bool_decide (il_request_frame l = [])))
    "replica lifecycle request frame is invalid" in
  reraise_as (authenticate_request_frame (il_request_frame l) (cf_request_key cfg)) [ValueError]
    ReplicaJournalSyncError "replica lifecycle request authentication failed".
End Configured.
End Journal.
