(* ===== verification/ReplicaJournalSpec.v ===== *)
(** * The replica journal keeps every lifecycle

    What validation on open means for the table, and the proofs that the
    operations of [ReplicaJournal] keep it under any storage faults and any
    interference by other connections that keep it too: histories only grow,
    follow the fixed stage order, and a terminal state never changes. *)

From S2P Require Import Prelude Text Json Crypto BrokerProtocol ReplicaContract ReplicaJournal.

(** ** Histories by identity *)

Lemma rows_for_app i db db' : rows_for i (db ++ db') = rows_for i db ++ rows_for i db'.
Proof. apply filter_app. Qed.

Lemma rows_for_identity i db e : e ∈ rows_for i db → event_identity e = i ∧ e ∈ db.
Proof. unfold rows_for. by rewrite list_elem_of_filter. Qed.

Lemma rows_for_none i db : rows_for i db = [] ↔ ∀ e, e ∈ db → event_identity e ≠ i.
Proof.
  unfold rows_for. split.
  - intros H e He Hi. assert (K : e ∈ filter (fun e => event_identity e = i) db)
      by (by apply list_elem_of_filter). rewrite H in K. by apply elem_of_nil in K.
  - intros H. induction db as [|e db IH]; [done|]. rewrite filter_cons_False; [|apply H; left].
    apply IH. intros e' He'. apply H. by right.
Qed.

Definition add_history (h : list (ident * list event)) (e : event) : list (ident * list event) :=
  let i := event_identity e in assoc_set i (default [] (assoc_get i h) ++ [e]) h.

Lemma histories_get i db h :
  assoc_get i (fold_left add_history db h)
  = match rows_for i db with
    | [] => assoc_get i h
    | rows => Some (default [] (assoc_get i h) ++ rows)
    end.
Proof.
  revert h. induction db as [|e db IH]; intros h; cbn [fold_left]; [done|]. rewrite IH.
  unfold add_history. rewrite assoc_get_set. unfold rows_for. rewrite filter_cons.
  destruct (decide (event_identity e = i)) as [<-|N].
  - rewrite bool_decide_true by done.
    destruct (filter _ db) as [|e0 l]; cbn; [done|]. by rewrite <- app_assoc.
  - by rewrite bool_decide_false by done.
Qed.

Lemma histories_nodup db h : NoDup (map fst h) → NoDup (map fst (fold_left add_history db h)).
Proof.
  revert h. induction db as [|e db IH]; intros h Hh; cbn [fold_left]; [done|].
  apply IH. by apply assoc_set_keys.
Qed.

Lemma collect_histories_ok prior h db h' : 
  collect_histories prior h db = Ok h' ↔
  (∀ k e, db !! k = Some e → validate_event (prior + Z.of_nat k) e = Ok tt)
  ∧ h' = fold_left add_history db h.
Proof.
  revert prior h. induction db as [|e db IH]; intros prior h; cbn [collect_histories fold_left].
  - split; [intros [= <-]; split; [by intros ? ?|done]|by intros [_ ->]].
  - assert (Hid : validate_event prior e = Ok tt → event_id e = prior + 1).
    { unfold validate_event, require. intros H. inv_ok. by breflect. }
    split.
    + intros H. destruct (validate_event prior e) as [[]|] eqn:E; cbn [res_bind] in H; [|done].
      apply IH in H as [H ->]. split; [|done]. intros [|k] x Hx.
      * injection Hx as <-. by rewrite Z.add_0_r.
      * specialize (H k x Hx). rewrite Hid in H by done.
        by replace (prior + Z.of_nat (S k)) with (prior + 1 + Z.of_nat k) by lia.
    + intros [H ->]. pose proof (H 0%nat e eq_refl) as E. rewrite Z.add_0_r in E. rewrite E.
      cbn [res_bind]. apply IH. split; [|done]. intros k x Hx. rewrite Hid by done.
      specialize (H (S k) x Hx). by replace (prior + 1 + Z.of_nat k) with (prior + Z.of_nat (S k)) by lia.
Qed.

Section Spec.
Context {SHA : Sha256} {ED : Ed25519} {RAW : Ed25519Raw} (cfg : config).

Definition history (i : ident) (db : list event) : list row := map ev_row (rows_for i db).

(** What the validation on open establishes of the events. *)
Definition events_ok (db : list event) : Prop :=
  (∀ k e, db !! k = Some e → validate_event (Z.of_nat k) e = Ok tt)
  ∧ ∀ i, rows_for i db ≠ [] → is_Some (match replay cfg (history i db) with
                                        | Ok r => Some r | Raise _ => None end).

Lemma mapM_res_total {A B} (f : A → res B) l :
  (∃ bs, mapM_res f l = Ok bs) ↔ Forall (fun a => ∃ b, f a = Ok b) l.
Proof.
  induction l as [|a l IH]; cbn [mapM_res].
  - split; [constructor|eauto].
  - rewrite Forall_cons, <- IH. split.
    + intros [bs H]. inv_ok. eauto.
    + intros [[b Hb] [bs Hbs]]. rewrite Hb, Hbs. cbn. eauto.
Qed.

Lemma is_Some_ok {A} (r : res A) :
  is_Some (match r with Ok x => Some x | Raise _ => None end) ↔ ∃ x, r = Ok x.
Proof. destruct r; split; intros H; [eauto|eauto|by destruct H|by destruct H]. Qed.

Lemma validate_events_iff db : validate_events cfg db = Ok tt ↔ events_ok db.
Proof.
  unfold validate_events, events_ok.
  assert (G : ∀ i, assoc_get i (fold_left add_history db []) =
              match rows_for i db with [] => None | rows => Some rows end)
    by (intros i; by rewrite histories_get).
  assert (N : NoDup (map fst (fold_left add_history db [])))
    by (apply histories_nodup; constructor).
  assert (Hall : (∃ bs, mapM_res (fun kv => replay cfg (map ev_row kv.2)) (fold_left add_history db []) = Ok bs)
    ↔ ∀ i, rows_for i db ≠ [] → is_Some (match replay cfg (history i db) with
                                        | Ok r => Some r | Raise _ => None end)).
  { rewrite mapM_res_total, Forall_forall. split.
    - intros H i Hi. specialize (G i). destruct (rows_for i db) as [|e rows] eqn:E; [done|].
      apply assoc_get_in in G. apply is_Some_ok. unfold history. rewrite E. by apply (H (i, e :: rows)).
    - intros H [i rows] Hin. apply (assoc_get_elem _ _ _ N) in Hin. rewrite G in Hin.
      specialize (H i). apply is_Some_ok. unfold history in H.
      destruct (rows_for i db) as [|e l]; [done|]. injection Hin as <-. by apply H. }
  split.
  - intros H. destruct (collect_histories 0 [] db) as [h|] eqn:E; cbn [res_bind] in H; [|done].
    apply collect_histories_ok in E as [He ->]. split; [done|]. apply Hall.
    destruct (mapM_res _ _) eqn:M; [eauto|done].
  - intros [He Hr]. apply Hall in Hr as [bs Hb].
    assert (E : collect_histories 0 [] db = Ok (fold_left add_history db []))
      by (by apply collect_histories_ok).
    rewrite E. cbn [res_bind]. by rewrite Hb.
Qed.

(** The rest of the file: integrity, schema and meta row. *)
Definition file_ok (j : journal) : Prop :=
  jn_integrity j = true ∧ jn_schema j = SchemaExpected ∧
  ∃ jid, jn_meta j = [(0, cf_application_id cfg, REPLICA_JOURNAL_SCHEMA_VERSION, jid)]
         ∧ JOURNAL_ID_PATTERN jid = true ∧ ends_with (95 :: cf_configuration_sha256 cfg) jid = true.

Definition journal_ok (j : journal) : Prop := validate cfg j = Ok tt.

Lemma journal_ok_iff j : journal_ok j ↔ file_ok j ∧ events_ok (jn_events j).
Proof.
  unfold journal_ok, validate. rewrite <- validate_events_iff. unfold file_ok.
  destruct (jn_integrity j); cbn [require guard res_bind]; [|by split; [|intros [[? _] _]]].
  destruct (decide (jn_schema j = SchemaExpected)) as [Hs|Hs].
  2: { rewrite bool_decide_false by done. by split; [|intros [(_ & ? & _) _]]. }
  rewrite bool_decide_true by done. cbn [require guard res_bind].
  destruct (jn_meta j) as [|[[[z app] v] jid] [|]] eqn:Em;
    [by split; [|intros [(_ & _ & ? & [= ] & _) _]]| |by split; [|intros [(_ & _ & ? & [= ] & _) _]]].
  destruct (_ && _) eqn:G; cbn [require guard res_bind].
  2: { split; [done|]. intros [(_ & _ & j' & [= -> -> -> ->] & H1 & _) _].
       rewrite H1, bool_decide_true in G by done. done. }
  breflect. subst. destruct (ends_with _ jid) eqn:Ee; cbn [require guard res_bind].
  2: { split; [done|]. intros [(_ & _ & j' & [= ->] & _ & H1) _]. congruence. }
  destruct (validate_events cfg (jn_events j)) as [[]|e]; cbn [require guard res_bind].
  - split; [|done]. intros _. split; [|done]. split_and!; [done|done|]. by exists jid.
  - split; [by repeat case_match|by intros [_ ?]].
Qed.

(** ** Replaying a history *)

(** A replayed history: its acceptance and the progress of the other rows. *)
Lemma replay_ok rows rp : replay cfg rows = Ok rp ↔
  ∃ r rest q key p, rows = r :: rest ∧ kind r = Accepted
    ∧ replay_acceptance cfg r = Ok (rp_frame rp, q, rp_authority rp, key)
    ∧ replay_events q (rp_authority rp) key 1 start rest = Ok p ∧ rp_progress rp = p.
Proof.
  destruct rows as [|r rest]; cbn [replay]; unfold sync, raise;
    [by split; [|intros (? & ? & ? & ? & ? & ? & _)]|].
  unfold is_kind. destruct (decide (kind r = Accepted)) as [K|K].
  2: { rewrite bool_decide_false by done. split; [done|].
       by intros (? & ? & ? & ? & ? & [= <- <-] & ? & _). }
  rewrite bool_decide_true by done.
  destruct (replay_acceptance cfg r) as [[[[f q] a] key]|e] eqn:Ea; cbn [res_bind].
  2: { split; [done|]. intros (? & ? & ? & ? & ? & [= <- <-] & _ & Ha & _). congruence. }
  destruct (replay_events q a key 1 start rest) as [p|e] eqn:E; cbn [res_bind].
  - split.
    + intros [= <-]. exists r, rest, q, key, p. done.
    + intros (r' & rest' & q' & key' & p' & [= <- <-] & _ & Ha & E' & Hp).
      rewrite Ea in Ha. injection Ha as -> -> -> ->.
      rewrite E in E'. injection E' as ->. subst p'. by destruct rp.
  - split; [done|].
    intros (r' & rest' & q' & key' & p' & [= <- <-] & _ & Ha & E' & Hp).
    rewrite Ea in Ha. injection Ha as -> -> -> ->. congruence.
Qed.

Lemma replay_events_app q a key n p rows rows' :
  replay_events q a key n p (rows ++ rows')
  = let! p' := replay_events q a key n p rows in replay_events q a key (n + length rows) p' rows'.
Proof.
  revert n p. induction rows as [|r rows IH]; intros n p; cbn [app replay_events length].
  - cbn [res_bind]. by rewrite Nat.add_0_r.
  - destruct (replay_event q a key n p r) as [p'|e]; cbn [res_bind]; [|done].
    rewrite IH. by rewrite Nat.add_succ_r.
Qed.

(** A history and what a prefix of it had replayed to. *)
Lemma replay_prefix rows rows' rp : replay cfg (rows ++ rows') = Ok rp → rows ≠ [] →
  ∃ rp0, replay cfg rows = Ok rp0 ∧ rp_frame rp0 = rp_frame rp ∧ rp_authority rp0 = rp_authority rp.
Proof.
  intros (r & rest & q & key & p & Hr & K & Ha & He & Hp)%replay_ok Hn.
  destruct rows as [|r0 rows]; [done|]. cbn [app] in Hr. injection Hr as -> <-.
  rewrite replay_events_app in He.
  destruct (replay_events q (rp_authority rp) key 1 start rows) as [p0|] eqn:E; cbn [res_bind] in He; [|done].
  exists {| rp_frame := rp_frame rp; rp_authority := rp_authority rp; rp_progress := p0 |}.
  split; [|done]. apply replay_ok. by exists r, rows, q, key, p0.
Qed.

Lemma replay_snoc rows r rp : replay cfg (rows ++ [r]) = Ok rp → rows ≠ [] →
  ∃ rp0 q key, replay cfg rows = Ok rp0
    ∧ (∃ r0 rest, rows = r0 :: rest ∧ replay_acceptance cfg r0 = Ok (rp_frame rp0, q, rp_authority rp0, key))
    ∧ rp_frame rp0 = rp_frame rp ∧ rp_authority rp0 = rp_authority rp
    ∧ replay_event q (rp_authority rp) key (length rows) (rp_progress rp0) r = Ok (rp_progress rp).
Proof.
  intros (r0 & rest & q & key & p & Hr & K & Ha & He & Hp)%replay_ok Hn.
  destruct rows as [|r1 rows]; [done|]. cbn [app] in Hr. injection Hr as -> <-.
  rewrite replay_events_app in He.
  destruct (replay_events q (rp_authority rp) key 1 start rows) as [p0|] eqn:E; cbn [res_bind] in He; [|done].
  exists {| rp_frame := rp_frame rp; rp_authority := rp_authority rp; rp_progress := p0 |}, q, key.
  split_and!; [apply replay_ok; by exists r0, rows, q, key, p0|by exists r0, rows|done|done|].
  cbn [replay_events] in He. cbn [rp_progress].
  destruct (replay_event _ _ _ _ _ _) as [p1|] eqn:E1; cbn [res_bind] in He; [|done].
  change (length (r0 :: rows)) with (1 + length rows)%nat. rewrite ?E1, He. by subst.
Qed.

Lemma replay_extend rows r rp0 q key r0 rest p : replay cfg rows = Ok rp0 →
  rows = r0 :: rest → replay_acceptance cfg r0 = Ok (rp_frame rp0, q, rp_authority rp0, key) →
  replay_event q (rp_authority rp0) key (length rows) (rp_progress rp0) r = Ok p →
  replay cfg (rows ++ [r]) = Ok {| rp_frame := rp_frame rp0; rp_authority := rp_authority rp0; rp_progress := p |}.
Proof.
  intros (r1 & rest1 & q1 & key1 & p1 & Hr & K & Ha & He & Hp)%replay_ok -> Ha' Hev.
  injection Hr as <- <-. rewrite Ha in Ha'. injection Ha' as <- <-.
  apply replay_ok. exists r0, (rest ++ [r]), q1, key1, p. split_and!; try done.
  cbn [rp_authority]. rewrite replay_events_app, He. cbn [res_bind]. cbn [replay_events].
  cbn [length] in Hev. cbn. subst p1. by rewrite Hev.
Qed.

(** *** One event *)

Lemma require_ok b m x : require b m = Ok x → b = true.
Proof. unfold require, guard. by destruct b. Qed.

(** What an accepted event says about the progress before and after it. *)
Inductive event_step (p : progress) (r : row) : progress → Prop :=
  | ClaimStep o b : kind r = AuthorityClaimed → p_owner p = None → owner_token r = Some o →
      owner_broker r = Some b → stage_ r = None →
      event_step p r {| p_owner := Some o; p_broker := Some b; p_next := p_next p;
                        p_started := p_started p; p_terminal := p_terminal p |}
  | StartStep s : kind r = StageStarted → p_started p = false → STAGES !! p_next p = Some s →
      stage_ r = Some s → owner_token r = p_owner p → is_Some (p_owner p) →
      event_step p r (advance p true (p_next p) None)
  | OutcomeStep s : kind r = StageOutcome → p_started p = true → STAGES !! p_next p = Some s →
      stage_ r = Some s → owner_token r = p_owner p → is_Some (p_owner p) → s ≠ Reclaim →
      response_frame r = None →
      event_step p r (advance p false (S (p_next p)) None)
  | CompletedStep f : kind r = StageOutcome → p_started p = true → p_next p = 6%nat →
      stage_ r = Some Reclaim → owner_token r = p_owner p → is_Some (p_owner p) →
      response_frame r = Some f →
      event_step p r (advance p false 7 (Some (Completed, Reclaim, f)))
  | RejectedStep s f : kind r = StageRejected → p_started p = true → STAGES !! p_next p = Some s →
      stage_ r = Some s → owner_token r = p_owner p → is_Some (p_owner p) → response_frame r = Some f →
      event_step p r (advance p true (p_next p) (Some (RejectedState, s, f)))
  | UnresolvedStep s f : kind r = StageUnresolved → p_started p = true → STAGES !! p_next p = Some s →
      stage_ r = Some s → owner_token r = p_owner p → is_Some (p_owner p) → response_frame r = Some f →
      event_step p r (advance p true (p_next p) (Some (UnresolvedState, s, f))).

Lemma stage_at n s : STAGES !! n = Some s → n = stage_index s.
Proof. do 7 (destruct n as [|n]; [by intros [= <-]|]). done. Qed.
Lemma stage_lookup s : STAGES !! stage_index s = Some s.
Proof. by destruct s. Qed.

Lemma replay_response_frame q key t s code id r f : replay_response q key t s code id r = Ok f →
  response_frame r = Some f.
Proof.
  unfold replay_response. destruct (response_frame r), (response_frame_sha256 r); try done.
  intros H. by inv_ok.
Qed.

Lemma isnull_none {A} (o : option A) : isnull o = true → o = None.
Proof. by destruct o. Qed.

Lemma replay_event_step q a key n p r p' : replay_event q a key n p r = Ok p' →
  p_terminal p = None ∧ event_step p r p'.
Proof.
  unfold replay_event. intros (u0 & Ht%require_ok%isnull_none & H)%bind_error_ok. split; [done|].
  destruct (decide (kind r = AuthorityClaimed)) as [K|K].
  { rewrite K in H. unfold replay_claim in H.
    apply bind_error_ok in H as (u1 & H1%require_ok & H).
    apply andb_true_iff in H1 as [[_ N1%isnull_none]%andb_true_iff N2%isnull_none].
    destruct (owner_token r) as [o|] eqn:O, (owner_broker r) as [b|] eqn:B; try done. inv_ok.
    by apply ClaimStep. }
  assert (H' : (check! require (negb (isnull (p_owner p)) && negb (isnull (p_broker p)))
      "replica journal event precedes authority claim" in
    check! require (bool_decide (owner_token r = p_owner p)) "replica journal owner token changed" in
    match STAGES !! p_next p with
    | None => sync "replica journal has too many stages"
    | Some s =>
        check! require (bool_decide (stage_ r = Some s)) "replica journal stage order is invalid" in
        check! require (nulls r (REQUEST_COLUMNS ++ [COwnerBroker])) "replica journal stage event is malformed" in
        match kind r with
        | StageStarted =>
            check! require (negb (p_started p) && nulls r RESULT_COLUMNS)
              "replica journal stage start is malformed" in
            Ok (advance p true (p_next p) None)
        | _ =>
            check! require (p_started p) "replica journal stage completion precedes its start" in
            match kind r with
            | StageOutcome => replay_outcome q a key s p r
            | StageRejected => replay_rejected q key s p r
            | StageUnresolved => replay_unresolved q key s p r
            | _ => sync "replica journal event type is unsupported"
            end
        end
    end) = Ok p') by (by destruct (kind r)).
  clear H. rename H' into H.
  apply bind_error_ok in H as (u1 & H1%require_ok & H). apply bind_error_ok in H as (u2 & H2%require_ok & H).
  apply andb_true_iff in H1 as [H1 _]. apply bool_decide_eq_true in H2.
  assert (Ho : is_Some (p_owner p)) by (destruct (p_owner p); [eauto|done]).
  destruct (STAGES !! p_next p) as [s|] eqn:Es; [|done].
  apply bind_error_ok in H as (u3 & H3%require_ok%bool_decide_eq_true & H).
  apply bind_error_ok in H as (u4 & _ & H).
  destruct (kind r) eqn:Ek; try done;
    try (apply bind_error_ok in H as (u5 & H5%require_ok & H)); try discriminate H.
  - injection H as <-. apply andb_true_iff in H5 as [H5%negb_true_iff _]. by eapply StartStep.
  - unfold replay_outcome in H.
    apply bind_error_ok in H as (u6 & _ & H). apply bind_error_ok in H as (rc & Hrc & H).
    apply bind_error_ok in H as (u7 & _ & H).
    destruct (decide (s = Reclaim)) as [->|Ns].
    + apply bind_error_ok in H as (u8 & _ & H). destruct rc; try done.
      apply bind_error_ok in H as (f & Hf & H). injection H as <-.
      apply replay_response_frame in Hf. apply stage_at in Es. rewrite Es.
      by apply CompletedStep.
    + assert (K2 : (check! require (isnull (response_frame r) && isnull (response_frame_sha256 r))
        "replica journal nonterminal response is invalid" in
        Ok (advance p false (S (p_next p)) None)) = Ok p') by (by destruct s).
      apply bind_error_ok in K2 as (u9 & K3%require_ok & K2). injection K2 as <-.
      apply andb_true_iff in K3 as [K3%isnull_none _]. by eapply OutcomeStep.
  - unfold replay_rejected in H. destruct (stage_status r); [|done].
    apply bind_error_ok in H as (u6 & _ & H). apply bind_error_ok in H as (v & _ & H).
    apply bind_error_ok in H as (u7 & _ & H). apply bind_error_ok in H as (id & _ & H).
    apply bind_error_ok in H as (rj & _ & H). apply bind_error_ok in H as (f & Hf%replay_response_frame & H).
    injection H as <-. rewrite H5. by eapply RejectedStep.
  - unfold replay_unresolved in H. destruct (unresolved_reason r); [|done].
    apply bind_error_ok in H as (u6 & _ & H). apply bind_error_ok in H as (f & Hf%replay_response_frame & H).
    injection H as <-. rewrite H5. by eapply UnresolvedStep.
Qed.

(** ** The shape of a history *)

(** What a row records: its event type and stage. *)
Definition row_key (r : row) : ev_kind * option stage := (kind r, stage_ r).

(** The rows a lifecycle of this progress has: the acceptance, the claim, a
    start and an outcome for every finished stage in the fixed order, the
    start of the stage in flight, and the row that ended it early. *)
Definition expected_rows (p : progress) : list (ev_kind * option stage) :=
  (Accepted, None) ::
  if isnull (p_owner p) then []
  else (AuthorityClaimed, None) ::
    concat (map (fun s => [(StageStarted, Some s); (StageOutcome, Some s)]) (take (p_next p) STAGES))
    ++ (if p_started p then [(StageStarted, STAGES !! p_next p)] else [])
    ++ match p_terminal p with
       | Some (RejectedState, s, _) => [(StageRejected, Some s)]
       | Some (UnresolvedState, s, _) => [(StageUnresolved, Some s)]
       | _ => []
       end.

Definition progress_ok (p : progress) : Prop :=
  match p_owner p with
  | None => p = start
  | Some _ =>
      is_Some (p_broker p)
      ∧ match p_terminal p with
        | None => (p_next p < 7)%nat
        | Some (Completed, s, _) => p_next p = 7%nat ∧ p_started p = false ∧ s = Reclaim
        | Some (_, s, _) => p_started p = true ∧ STAGES !! p_next p = Some s
        end
  end.

Lemma take_stage n s : STAGES !! n = Some s → take (S n) STAGES = take n STAGES ++ [s].
Proof. apply take_S_r. Qed.

Lemma event_step_shape p r p' : p_terminal p = None → progress_ok p → event_step p r p' →
  progress_ok p' ∧ expected_rows p' = expected_rows p ++ [row_key r] ∧ owner_token r = p_owner p'.
Proof.
  intros Ht Hp H. unfold progress_ok in *. unfold row_key.
  destruct H as [o b K O Ho Hb Hs|s K S E Hs Ho [o O]|s K S E Hs Ho [o O] Nr _|f K S E Hs Ho [o O] Hf
                |s f K S E Hs Ho [o O] Hf|s f K S E Hs Ho [o O] Hf].
  - rewrite O in Hp. subst p. cbn. rewrite K, Hs. split_and!; try done; try lia.
  - rewrite O in Hp. destruct Hp as [Hb Hn]. rewrite Ht in Hn. cbn. rewrite O, Ho, K, Hs.
    split_and!; try done. unfold expected_rows. cbn [advance p_owner p_next p_started p_terminal].
    rewrite O, S, Ht, E. cbn [isnull]. rewrite !app_nil_r. done.
  - rewrite O in Hp. destruct Hp as [Hb Hn]. rewrite Ht in Hn. cbn. rewrite O, Ho, K, Hs.
    split_and!; try done.
    + apply stage_at in E. rewrite E in *. destruct s; cbn in *; try done; lia.
    + unfold expected_rows. cbn [advance p_owner p_next p_started p_terminal].
      rewrite O, S, Ht, E, (take_stage _ _ E), map_app, concat_app. cbn [isnull].
      rewrite ?app_nil_r. cbn. by rewrite <- ?app_assoc.
  - rewrite O in Hp. destruct Hp as [Hb Hn]. cbn. rewrite O, Ho, K, Hs. split_and!; try done.
    unfold expected_rows. cbn [advance p_owner p_next p_started p_terminal].
    by rewrite O, S, Ht, E.
  - rewrite O in Hp. destruct Hp as [Hb Hn]. cbn. rewrite O, Ho, K, Hs. split_and!; try done.
    unfold expected_rows. cbn [advance p_owner p_next p_started p_terminal].
    rewrite O, S, Ht, E. cbn [isnull]. rewrite ?app_nil_r. cbn. by rewrite <- ?app_assoc.
  - rewrite O in Hp. destruct Hp as [Hb Hn]. cbn. rewrite O, Ho, K, Hs. split_and!; try done.
    unfold expected_rows. cbn [advance p_owner p_next p_started p_terminal].
    rewrite O, S, Ht, E. cbn [isnull]. rewrite ?app_nil_r. cbn. by rewrite <- ?app_assoc.
Qed.

Lemma acceptance_row r x : replay_acceptance cfg r = Ok x → stage_ r = None ∧ owner_token r = None.
Proof.
  unfold replay_acceptance. destruct (stage_ r), (request_frame r), (row_target r), (row_generation r),
    (row_execution_owner r); try done.
  intros (u & H%require_ok & _)%bind_error_ok. split; [done|]. unfold nulls in H. cbn in H. breflect.
  by apply isnull_none.
Qed.

(** Every replayed history has the rows its progress says, all written under
    the owner that claimed it. *)
Lemma replay_shape rows rp : replay cfg rows = Ok rp →
  progress_ok (rp_progress rp) ∧ map row_key rows = expected_rows (rp_progress rp)
  ∧ ∀ r, r ∈ tail rows → owner_token r = p_owner (rp_progress rp).
Proof.
  revert rp. induction rows as [|r rows IH] using rev_ind; intros rp H.
  { by apply replay_ok in H as (? & ? & ? & ? & ? & ? & _). }
  destruct (decide (rows = [])) as [->|N].
  - apply replay_ok in H as (r0 & rest & q & key & p & [= <- <-] & K & Ha & He & Hp).
    injection He as <-. rewrite Hp. apply acceptance_row in Ha as [Hs _].
    split_and!; [done| |].
    + cbn. unfold row_key. by rewrite K, Hs.
    + cbn. by intros r' ?%elem_of_nil.
  - destruct (replay_snoc _ _ _ H N) as (rp0 & q & key & H0 & _ & _ & _ & He).
    destruct (IH _ H0) as (Hok & Hk & Ho). apply replay_event_step in He as [Ht He].
    destruct (event_step_shape _ _ _ Ht Hok He) as (Hok' & Hk' & Ho').
    split_and!; [done| |].
    + rewrite map_app, Hk, Hk'. done.
    + intros r' Hr. replace (tail (rows ++ [r])) with (tail rows ++ [r]) in Hr by (by destruct rows).
      apply elem_of_app in Hr as [Hr|Hr%list_elem_of_singleton]; [|by subst].
      rewrite (Ho _ Hr). destruct He; try done.
      (* the claim: nothing precedes it but the acceptance *)
      unfold progress_ok in Hok. rewrite H2 in Hok. subst. rewrite Hok in Hk.
      destruct rows as [|r0 [|r1 rows]]; try done. by apply elem_of_nil in Hr.
Qed.

(** The claim names the broker of the progress. *)
Lemma replay_claim_broker rows rp r : replay cfg rows = Ok rp → r ∈ rows → kind r = AuthorityClaimed →
  owner_broker r = p_broker (rp_progress rp).
Proof.
  revert rp. induction rows as [|x rows IH] using rev_ind; intros rp H Hr K; [by apply elem_of_nil in Hr|].
  destruct (decide (rows = [])) as [->|N].
  - apply replay_ok in H as (r0 & rest & q & key & p & [= <- <-] & K0 & _).
    apply list_elem_of_singleton in Hr as ->. congruence.
  - destruct (replay_snoc _ _ _ H N) as (rp0 & q & key & H0 & _ & _ & _ & He).
    apply replay_event_step in He as [Ht He]. apply replay_shape in H0 as Hsh. destruct Hsh as (Hok & Hk & _).
    apply elem_of_app in Hr as [Hr|Hr%list_elem_of_singleton].
    + destruct He; cbn [advance p_broker]; try (by apply IH).
      (* nothing precedes a claim but the acceptance *)
      unfold progress_ok in Hok. rewrite H2 in Hok. rewrite Hok in Hk.
      assert (Hin : row_key r ∈ expected_rows start) by (rewrite <- Hk; by apply list_elem_of_fmap_2).
      cbn in Hin. apply list_elem_of_singleton in Hin. unfold row_key in Hin. congruence.
    + subst x. destruct He; cbn [p_broker]; congruence.
Qed.

(** *** Nothing can follow a row whose slot is taken *)

Lemma history_fixed rows rest rp0 rp : replay cfg rows = Ok rp0 → replay cfg (rows ++ rest) = Ok rp →
  (∀ r p', r ∈ rest → p_terminal (rp_progress rp0) = None → event_step (rp_progress rp0) r p' → False) →
  rest = [].
Proof.
  intros H0 H Hno. destruct rest as [|r rest]; [done|]. exfalso.
  assert (N : rows ≠ []) by (intros ->; done).
  replace (rows ++ r :: rest) with ((rows ++ [r]) ++ rest) in H by (by rewrite <- app_assoc).
  apply replay_prefix in H as (rp1 & H1 & _); [|by destruct rows].
  destruct (replay_snoc _ _ _ H1 N) as (rp2 & q & key & H2 & _ & _ & _ & He).
  rewrite H0 in H2. injection H2 as <-. apply replay_event_step in He as [Ht He].
  eapply (Hno r); [left|done|exact He].
Qed.

(** A terminal history never grows. *)
Lemma terminal_history_final rows rest rp0 rp : replay cfg rows = Ok rp0 →
  replay cfg (rows ++ rest) = Ok rp → p_terminal (rp_progress rp0) ≠ None → rest = [].
Proof. intros H0 H Ht. apply (history_fixed _ _ _ _ H0 H). intros r p' _ Hn _. by apply Ht. Qed.

(** ** Files that grow *)

Definition extends (j j' : journal) : Prop :=
  jn_integrity j' = jn_integrity j ∧ jn_schema j' = jn_schema j ∧ jn_meta j' = jn_meta j
  ∧ jn_events j `prefix_of` jn_events j'.

#[export] Instance extends_preorder : PreOrder extends.
Proof.
  split; [by intros j|]. intros j1 j2 j3 (A1 & A2 & A3 & A4) (B1 & B2 & B3 & B4).
  split_and!; try congruence. by etransitivity.
Qed.

Lemma history_prefix i j j' : extends j j' → ∃ rest, history i (jn_events j') = history i (jn_events j) ++ rest.
Proof.
  intros (_ & _ & _ & k & E). exists (map ev_row (rows_for i k)). unfold history.
  by rewrite E, rows_for_app, map_app.
Qed.

Lemma history_replays i j : journal_ok j → rows_for i (jn_events j) ≠ [] →
  ∃ rp, replay cfg (history i (jn_events j)) = Ok rp.
Proof. intros [_ [_ H]]%journal_ok_iff Hi. apply is_Some_ok. by apply H. Qed.

Lemma history_nil i db : history i db = [] ↔ rows_for i db = [].
Proof. unfold history. split; [apply map_eq_nil|by intros ->]. Qed.

Lemma validate_event_identity n e : validate_event n e = Ok tt ↔
  event_id e = n + 1 ∧ APPEND_RECEIPT_PATTERN (append_receipt_id e) = true
  ∧ (TOKEN_PATTERN (event_identity e).1.1 = true ∧ REPLICA_OPERATION_PATTERN (event_identity e).1.2 = true
     ∧ (event_identity e).2 = REPLICA_LIFECYCLE)
  ∧ timestamp_ok (created_at e) = true.
Proof.
  unfold validate_event, require, validate_replica_operation_id, token. split.
  - intros H. destruct (REPLICA_OPERATION_PATTERN _) eqn:O; cbn [guard res_bind reraise_as] in H;
      [inv_ok; breflect; by split_and!|by inv_ok].
  - intros (H1 & H2 & (H3 & H4 & H5) & H6). rewrite H1, Z.eqb_refl, H2, H3, H4, H6.
    cbn. by rewrite bool_decide_true.
Qed.

Definition identity_ok (i : ident) : Prop :=
  TOKEN_PATTERN i.1.1 = true ∧ REPLICA_OPERATION_PATTERN i.1.2 = true ∧ i.2 = REPLICA_LIFECYCLE.

Lemma stored_identity_ok j i : journal_ok j → rows_for i (jn_events j) ≠ [] → identity_ok i.
Proof.
  intros [_ [H _]]%journal_ok_iff Hi. destruct (rows_for i (jn_events j)) as [|e l] eqn:E; [done|].
  assert (Hin : e ∈ rows_for i (jn_events j)) by (rewrite E; left).
  apply rows_for_identity in Hin as [<- Hin]. apply list_elem_of_lookup in Hin as [k Hk].
  by apply H, validate_event_identity in Hk as (_ & _ & Hi' & _).
Qed.

(** The events are numbered from one. *)
Lemma event_at j k e : journal_ok j → jn_events j !! k = Some e → event_id e = Z.of_nat k + 1.
Proof. intros [_ [H _]]%journal_ok_iff Hk. by apply H, validate_event_identity in Hk as (? & _). Qed.

Lemma next_id j : journal_ok j → next_event_id (jn_events j) = zlen (jn_events j) + 1.
Proof.
  intros Hj. unfold next_event_id. destruct (last (jn_events j)) as [e|] eqn:E.
  - rewrite last_lookup in E. rewrite (event_at j _ e Hj E). apply lookup_lt_Some in E. unfold zlen. lia.
  - apply last_None in E. by rewrite E.
Qed.

(** Inserting a row whose history replays keeps the file valid. *)
Lemma insert_keeps j rid time r db id rp : journal_ok j →
  insert_event (jn_events j) rid time r = Ok (db, id) → identity_ok (identity_ r) →
  APPEND_RECEIPT_PATTERN rid = true → timestamp_ok time = true →
  replay cfg (history (identity_ r) (jn_events j) ++ [r]) = Ok rp →
  journal_ok (with_events j db) ∧ extends j (with_events j db)
  ∧ ∃ e, db = jn_events j ++ [e] ∧ event_id e = id ∧ append_receipt_id e = rid ∧ ev_row e = r.
Proof.
  intros Hj Hi Hid Hr Ht Hrp. unfold insert_event in Hi. inv_ok.
  apply journal_ok_iff in Hj as Hj'. destruct Hj' as [Hf [He Hh]].
  set (e := {| event_id := _; append_receipt_id := _; created_at := _; ev_row := _ |}).
  split_and!.
  - apply journal_ok_iff. split; [done|]. cbn [with_events jn_events]. split.
    + intros k x Hx. apply lookup_snoc_Some in Hx as [[_ Hx]|[-> <-]]; [by apply He|].
      apply validate_event_identity. split_and!; try done; try apply Hid.
      cbn. by rewrite next_id.
    + intros i Hi. apply is_Some_ok. unfold history in *. rewrite rows_for_app in *.
      destruct (decide (i = identity_ r)) as [->|N].
      * replace (rows_for (identity_ r) [e]) with [e]
          by (unfold rows_for; by rewrite filter_cons_True).
        rewrite map_app. cbn [map ev_row e]. by exists rp.
      * replace (rows_for i [e]) with (@nil event) in *
          by (unfold rows_for; by rewrite filter_cons_False).
        rewrite app_nil_r in *. apply is_Some_ok. by apply Hh.
  - by repeat split; exists [e].
  - by exists e.
Qed.

(** What the trigger and the indexes say about a row they admit. *)
Lemma insert_event_checks db rid time r x : insert_event db rid time r = Ok x →
  trigger_check db r = Ok tt ∧ unique_ok db rid r = true.
Proof.
  unfold insert_event. intros H. destruct (trigger_check db r) as [[]|]; [|done].
  by destruct (unique_ok db rid r).
Qed.

(** *** A row takes the slot its predecessor left free *)

Lemma existsb_false {A} (f : A → bool) l x : existsb f l = false → x ∈ l → f x = false.
Proof.
  intros H Hx. destruct (f x) eqn:E; [|done]. assert (K : existsb f l = true); [|congruence].
  apply existsb_exists. exists x. split; [by apply list_elem_of_In|done].
Qed.

Lemma guarded_false (b c : bool) : negb b || negb c = true → b = true → c = false.
Proof. by destruct b, c. Qed.

Lemma is_kind_iff k r : is_kind k r = true ↔ kind r = k.
Proof. unfold is_kind. apply bool_decide_eq_true. Qed.

(** The unique indexes, as what no row of the history may be. *)
Lemma unique_spec db rid r : unique_ok db rid r = true →
  (∀ e, e ∈ db → append_receipt_id e ≠ rid) ∧
  ∀ x, x ∈ history (identity_ r) db →
    (kind r = Accepted → kind x ≠ Accepted)
    ∧ (kind r = AuthorityClaimed → kind x ≠ AuthorityClaimed)
    ∧ (∀ s, kind r = StageStarted → stage_ r = Some s → kind x = StageStarted → stage_ x ≠ Some s)
    ∧ (∀ s, is_completion r = true → stage_ r = Some s → is_completion x = true → stage_ x ≠ Some s).
Proof.
  unfold unique_ok. fold (history (identity_ r) db). intros H.
  apply andb_true_iff in H as [H _]. apply andb_true_iff in H as [H U4].
  apply andb_true_iff in H as [H U3]. apply andb_true_iff in H as [H U2].
  apply andb_true_iff in H as [U0%negb_true_iff U1]. split.
  { intros e He E. apply (existsb_false _ _ _ U0) in He. by rewrite bool_decide_true in He. }
  intros x Hx. split_and!.
  - intros K%is_kind_iff E%is_kind_iff. pose proof (existsb_false _ _ _ (guarded_false _ _ U1 K) Hx). congruence.
  - intros K%is_kind_iff E%is_kind_iff. pose proof (existsb_false _ _ _ (guarded_false _ _ U2 K) Hx). congruence.
  - intros s K%is_kind_iff S E%is_kind_iff T. pose proof (existsb_false _ _ _ (guarded_false _ _ U3 K) Hx) as F.
    cbn beta in F. rewrite E, S, T in F. cbn in F. by rewrite bool_decide_true in F.
  - intros s K S E T. pose proof (existsb_false _ _ _ (guarded_false _ _ U4 K) Hx) as F.
    cbn beta in F. rewrite E, S, T in F. cbn in F. by rewrite bool_decide_true in F.
Qed.

Section Slot.
Context (db : list event) (rid : pystr) (r : row) (rows rest : list row) (rp0 rp : Replay).
Hypothesis Hdb : history (identity_ r) db = rows ++ rest.
Hypothesis H0 : replay cfg rows = Ok rp0.
Hypothesis H1 : replay cfg (rows ++ rest) = Ok rp.
Hypothesis Hu : unique_ok db rid r = true.

Lemma slot_rows x : x ∈ rest → x ∈ history (identity_ r) db.
Proof. intros Hx. rewrite Hdb. apply elem_of_app. by right. Qed.

Lemma slot_claim : p_owner (rp_progress rp0) = None → kind r = AuthorityClaimed → rest = [].
Proof.
  intros Ho K. apply (history_fixed _ _ _ _ H0 H1). intros x p' Hx _ Hs.
  assert (Kx : kind x = AuthorityClaimed).
  { destruct Hs; try done;
      match goal with H : is_Some (p_owner _) |- _ => rewrite Ho in H; by destruct H end. }
  by destruct (proj2 (unique_spec _ _ _ Hu) x (slot_rows _ Hx)) as (_ & H & _); apply H.
Qed.

Lemma slot_start s : p_started (rp_progress rp0) = false → is_Some (p_owner (rp_progress rp0)) →
  STAGES !! p_next (rp_progress rp0) = Some s →
  kind r = StageStarted → stage_ r = Some s → rest = [].
Proof.
  intros Hs [o Ho] Hn K S. apply (history_fixed _ _ _ _ H0 H1). intros x p' Hx _ Hst.
  assert (Kx : kind x = StageStarted ∧ stage_ x = Some s).
  { destruct Hst; rewrite ?Hs, ?Ho, ?Hn in *; try done. by simplify_eq. }
  destruct Kx as [Kx Sx].
  destruct (proj2 (unique_spec _ _ _ Hu) x (slot_rows _ Hx)) as (_ & _ & H & _). by apply (H s).
Qed.

Lemma slot_complete s : p_started (rp_progress rp0) = true →
  STAGES !! p_next (rp_progress rp0) = Some s → is_completion r = true → stage_ r = Some s → rest = [].
Proof.
  intros Hs Hn K S. apply (history_fixed _ _ _ _ H0 H1). intros x p' Hx _ Hst.
  assert (Kx : is_completion x = true ∧ stage_ x = Some s).
  { apply replay_shape in H0 as (Hok & _). unfold is_completion, is_kind.
    destruct Hst as [? ? ? O|? ? ? ?|? K'|? K' ? E|? ? K'|? ? K']; rewrite ?Hs, ?Hn in *; try done.
    - unfold progress_ok in Hok. rewrite O in Hok. by rewrite Hok in Hs.
    - rewrite K'. split; [done|]. congruence.
    - rewrite E in Hn. injection Hn as <-. by rewrite K'.
    - rewrite K'. split; [done|]. congruence.
    - rewrite K'. split; [done|]. congruence. }
  destruct Kx as [Kx Sx].
  destruct (proj2 (unique_spec _ _ _ Hu) x (slot_rows _ Hx)) as (_ & _ & _ & H). by apply (H s).
Qed.
End Slot.

(** ** Requests bound to a stored frame *)

Lemma py_eq_item p q k v : py_eq (JObj p) (JObj q) = true → item p k = Ok v →
  ∃ w, item q k = Ok w ∧ py_eq v w = true.
Proof.
  cbn [py_eq]. intros [_ H]%andb_true_iff Hi. apply item_ok in Hi.
  assert (Hin : (k, v) ∈ p).
  { clear H. induction p as [|kv p IH]; [done|]. cbn [dict_get] in Hi. case_bool_decide as E.
    - injection Hi as <-. subst k. destruct kv. left.
    - right. by apply IH. }
  apply forallb_Forall in H. rewrite Forall_forall in H. specialize (H _ Hin). cbn in H.
  destruct (dict_get k q) as [w|] eqn:E; [|done]. exists w. split; [by apply item_ok|done].
Qed.

Lemma py_eq_as_str v w : py_eq v w = true → as_str v = as_str w.
Proof. destruct v, w; try done. cbn. intros H. by breflect; subst. Qed.

Lemma py_eq_str v s : py_eq v (JStr s) = true → v = JStr s.
Proof. destruct v; try done. cbn. intros H. by breflect; subst. Qed.
Lemma py_eq_str_l v s : py_eq (JStr s) v = true → v = JStr s.
Proof. destruct v; try done. cbn. intros H. by breflect; subst. Qed.

Lemma parse_artifact_py_eq v w a b : py_eq v w = true → parse_artifact v = Ok a →
  parse_artifact w = Ok b → a = b.
Proof.
  unfold parse_artifact. destruct v as [| | | | | |l], w as [| | | | | |k]; try done. intros E Ha Hb.
  inv_ok. apply new_artifact_ok in Ha as (_ & A1 & A2 & A3). apply new_artifact_ok in Hb as (_ & B1 & B2 & B3).
  subst. repeat match goal with
  | H : item l ?x = Ok ?v |- _ =>
      destruct (py_eq_item _ _ _ _ E H) as (? & ? & ?); clear H
  end.
  repeat match goal with H1 : item k ?x = Ok ?v, H2 : item k ?x = Ok ?w |- _ =>
    rewrite H1 in H2; injection H2 as <- end.
  repeat match goal with H : py_eq (JStr _) _ = true |- _ => apply py_eq_str_l in H; injection H as H end.
  match goal with H : py_eq (JInt _) _ = true |- _ => cbn in H end. breflect.
  destruct a, b; cbn in *. congruence.
Qed.

(** The artifacts and strings a validated payload holds. *)
Lemma validated_artifact p p' k : validate_replica_payload (JObj p) = Ok p' →
  k ∈ [u"bundle"; u"worktree"; u"index_objects"] → ∃ v a, item p k = Ok v ∧ parse_artifact v = Ok a.
Proof.
  intros H Hk. unfold validate_replica_payload in H. inv_ok.
  apply elem_of_cons in Hk as [->|Hk]; [eauto|]. apply elem_of_cons in Hk as [->|Hk]; [eauto|].
  apply list_elem_of_singleton in Hk as ->. eauto.
Qed.

Lemma validated_digest p p' k : validate_replica_payload (JObj p) = Ok p' →
  k ∈ [u"limits_sha256"; u"artifact_set_sha256"] → ∃ s, item p k = Ok (JStr s).
Proof.
  intros H Hk. unfold validate_replica_payload in H. inv_ok.
  repeat match goal with E : digest _ _ = Ok _ |- _ => apply digest_str in E; subst end.
  apply elem_of_cons in Hk as [->|Hk]; [eauto|]. apply list_elem_of_singleton in Hk as ->. eauto.
Qed.

Lemma payload_binding_py_eq p q p' q' role k : py_eq (JObj p) (JObj q) = true →
  validate_replica_payload (JObj p) = Ok p' → validate_replica_payload (JObj q) = Ok q' →
  k ∈ [u"bundle"; u"worktree"; u"index_objects"] → payload_binding p role k = payload_binding q role k.
Proof.
  intros E Hp Hq Hk. destruct (validated_artifact _ _ _ Hp Hk) as (v & a & Hv & Ha).
  destruct (validated_artifact _ _ _ Hq Hk) as (w & b & Hw & Hb).
  destruct (py_eq_item _ _ _ _ E Hv) as (w' & Hw' & Evw). rewrite Hw in Hw'. injection Hw' as <-.
  unfold payload_binding. rewrite Hv, Hw. cbn [res_bind]. rewrite Ha, Hb. cbn [res_bind].
  by rewrite (parse_artifact_py_eq _ _ _ _ Evw Ha Hb).
Qed.

Lemma payload_has p p' k : validate_replica_payload (JObj p) = Ok p' → k ∈ PAYLOAD_KEYS → ∃ v, item p k = Ok v.
Proof.
  intros H Hk. unfold validate_replica_payload in H.
  destruct (has_keys p PAYLOAD_KEYS) eqn:K; cbn [guard res_bind] in H; [|done].
  apply has_keys_spec with (k := k) in K. apply K in Hk. clear H K.
  induction p as [|kv p IH]; [by apply elem_of_nil in Hk|]. unfold item in *. cbn [dict_get].
  case_bool_decide; [eauto|]. apply elem_of_cons in Hk as [->|Hk]; [done|]. by apply IH.
Qed.

Lemma str_item_py_eq {B} p q p' k (f : pystr → res B) : py_eq (JObj p) (JObj q) = true →
  validate_replica_payload (JObj p) = Ok p' → k ∈ PAYLOAD_KEYS →
  (let! x := (let! v := item p k in as_str v) in f x) = (let! x := (let! v := item q k in as_str v) in f x).
Proof.
  intros E Hp Hk. destruct (payload_has _ _ _ Hp Hk) as [v Hv].
  destruct (py_eq_item _ _ _ _ E Hv) as (w & Hw & Evw). rewrite Hv, Hw. cbn [res_bind].
  by rewrite (py_eq_as_str _ _ Evw).
Qed.

(** Equal requests have the same artifact set. *)
Lemma expected_artifact_set_eq q r p' q' a : request_eq q r = true →
  validate_replica_payload (JObj (payload q)) = Ok p' →
  validate_replica_payload (JObj (payload r)) = Ok q' →
  expected_artifact_set q a = expected_artifact_set r a.
Proof.
  intros [Hid E]%request_eq_fields Hp Hq. unfold expected_artifact_set. rewrite Hp, Hq. cbn [res_bind].
  apply validate_payload_id in Hp as Ep. injection Ep as <-.
  apply validate_payload_id in Hq as Eq. injection Eq as <-.
  assert (operation_id q = operation_id r) as -> by (unfold request_identity in Hid; congruence).
  repeat (rewrite (str_item_py_eq _ _ _ _ _ E Hp) by (apply (bool_decide_unpack _); exact I);
          apply res_bind_ext; [done|intros ? _]).
  rewrite !(payload_binding_py_eq _ _ _ _ _ _ E Hp Hq) by (apply (bool_decide_unpack _); exact I).
  repeat (apply res_bind_ext; [done|intros ? _]).
  by rewrite (str_item_py_eq _ _ _ _ _ E Hp) by (apply (bool_decide_unpack _); exact I).
Qed.

Lemma request_from_frame_payload f q : request_from_frame f = Ok q →
  validate_replica_payload (JObj (payload q)) = Ok (payload q) ∧ request_type q = REPLICA_LIFECYCLE.
Proof.
  unfold request_from_frame. intros H.
  repeat (let x := fresh "x" in apply bind_error_ok in H as (x & ? & H)).
  injection H as <-. cbn. split; [|done].
  match goal with E : validate_replica_payload ?v = Ok ?p |- _ =>
    pose proof (validate_payload_id _ _ E); subst v; exact E end.
Qed.

Lemma parse_authority_ok v a : parse_replica_authority v = Ok a → authority_ok a.
Proof.
  unfold parse_replica_authority. destruct v; try done. intros H. inv_ok. by apply new_authority_ok in H as [? _].
Qed.

(** An acceptance that passed its checks. *)
Record accepted_facts (request : BrokerRequest) (frame : pybytes) (a : ReplicaAuthority)
    (q : BrokerRequest) : Prop := {
  af_authentic : authenticate_request_frame frame (cf_request_key cfg) = Ok q;
  af_read : request_from_frame (Some frame) = Ok q;
  af_equal : request_eq q request = true;
  af_authority : ∃ v, item (payload request) (u"authority") = Ok v ∧ parse_replica_authority v = Ok a;
  af_limits : item (payload q) (u"limits_sha256") = Ok (JStr (cf_limits_sha256 cfg));
  af_artifacts : ∃ d, expected_artifact_set q a = Ok d
                      ∧ item (payload q) (u"artifact_set_sha256") = Ok (JStr d);
  af_signer : is_Some (assoc_get (broker_incarnation q) (cf_response_keys cfg));
}.

Lemma check_acceptance_ok request frame a f : check_acceptance cfg request frame a = Ok f →
  f = frame ∧ ∃ q, accepted_facts request frame a q.
Proof.
  unfold check_acceptance. intros (q & Hq%reraise_ok & H)%bind_error_ok.
  apply bind_error_ok in H as (u1 & He & H). unfold guard in He.
  destruct (request_eq q request) eqn:Eq; [|done]. clear He.
  apply bind_error_ok in H as (f' & Hf & H). unfold validate_request_frame in Hf.
  apply bind_error_ok in Hf as (q2 & Hq2 & Hf). pose proof (authenticated_request_unique _ _ _ _ Hq Hq2) as ->.
  apply bind_error_ok in Hf as (u2 & _ & Hf). injection Hf as <-.
  apply bind_error_ok in H as (key & Hkey & H). apply bind_error_ok in H as (p & Hp & H).
  pose proof (validate_payload_id _ _ Hp) as Ep. injection Ep as <-.
  apply bind_error_ok in H as (va & Hva & H). apply bind_error_ok in H as (a' & Ha' & H).
  apply bind_error_ok in H as (u3 & E3 & H). apply bind_error_ok in H as (vl & Hvl & H).
  apply bind_error_ok in H as (u4 & E4 & H). apply bind_error_ok in H as (d & Hd & H).
  apply bind_error_ok in H as (vs & Hvs & H). apply bind_error_ok in H as (u5 & E5 & H).
  injection H as <-. split; [done|]. exists q. unfold guard in E3, E4, E5.
  destruct (bool_decide (a' = a)) eqn:Ba; [|done]. breflect. subst a'.
  destruct (py_eq vl _) eqn:El; [|done]. apply py_eq_str in El as ->.
  destruct (py_eq vs _) eqn:Es; [|done]. apply py_eq_str in Es as ->.
  destruct (request_from_frame_payload _ _ Hq2) as [Hpq _].
  destruct (request_eq_fields _ _ Eq) as [Hid Epy].
  split; try done.
  - eauto.
  - destruct (validated_digest _ _ (u"limits_sha256") Hpq) as [x Hx]; [left|].
    destruct (py_eq_item _ _ _ _ Epy Hx) as (w & Hw & Ew). rewrite Hw in Hvl. injection Hvl as ->.
    apply py_eq_str in Ew. by rewrite Hx, Ew.
  - exists d. rewrite (expected_artifact_set_eq _ _ _ _ a Eq Hpq Hp). split; [done|].
    destruct (validated_digest _ _ (u"artifact_set_sha256") Hpq) as [x Hx]; [right; left|].
    destruct (py_eq_item _ _ _ _ Epy Hx) as (w & Hw & Ew). rewrite Hw in Hvs. injection Hvs as ->.
    apply py_eq_str in Ew. by rewrite Hx, Ew.
  - unfold response_public_key in Hkey. unfold request_identity in Hid.
    assert (broker_incarnation q = broker_incarnation request) as -> by congruence.
    by destruct (assoc_get _ _).
Qed.

Definition accepted_row (request : BrokerRequest) (frame : pybytes) (a : ReplicaAuthority)
    (q : BrokerRequest) : row := {|
  identity_ := identity request; kind := Accepted; stage_ := None; request_frame := Some frame;
  request_frame_sha256 := Some (hexdigest (sha256 frame));
  request_broker_incarnation := Some (broker_incarnation q); request_nonce := Some (nonce q);
  request_connection_sequence := Some (connection_sequence q);
  request_payload_digest := Some (payload_digest_ q);
  row_target := Some (physical_target_id a); row_generation := Some (replica_generation a);
  row_execution_owner := Some (execution_owner_id a); owner_token := None; owner_broker := None;
  stage_status := None; receipt_column := None; unresolved_reason := None; response_frame := None;
  response_frame_sha256 := None |}.

Lemma accepted_row_replays request frame a q : accepted_facts request frame a q →
  identity_ok (identity request)
  ∧ replay cfg [accepted_row request frame a q]
    = Ok {| rp_frame := frame; rp_authority := a; rp_progress := start |}.
Proof.
  intros [Ha Hr He [va [Hva Hau]] Hl [d [Hd Hs]] [key Hk]].
  destruct (request_from_frame_payload _ _ Hr) as [Hp _].
  destruct (request_eq_fields _ _ He) as [Hid _].
  assert (Ei : identity request = identity q)
    by (unfold request_identity in Hid; unfold identity; congruence).
  apply authenticate_message in Ha as Hm. destruct Hm as (Hty & Hf & _). split.
  - rewrite Ei. unfold request_fields_ok in Hf. breflect. by split_and!.
  - unfold replay, is_kind. cbn [kind accepted_row]. rewrite bool_decide_true by done.
    unfold replay_acceptance. cbn [stage_ request_frame row_target row_generation row_execution_owner accepted_row].
    change (nulls _ _) with true. cbn [require guard res_bind]. rewrite Ha. cbn [reraise_as res_bind].
    rewrite Hp. cbn [reraise_as res_bind].
    cbn [identity_ request_frame_sha256 request_broker_incarnation request_nonce
      request_connection_sequence request_payload_digest accepted_row].
    rewrite Ei. rewrite !bool_decide_true by done. cbn [andb require guard res_bind].
    apply parse_authority_ok in Hau. unfold authority_ok in Hau. rewrite Hau. cbn [res_bind].
    rewrite Hl. cbn [res_bind py_eq]. rewrite bool_decide_true by done. cbn [require guard res_bind].
    rewrite Hk, Hs. cbn [res_bind]. rewrite Hd. cbn [res_bind py_eq].
    rewrite bool_decide_true by done. done.
Qed.

(** The request a history was accepted for. *)
Lemma bound_request e rest request rp : replay cfg (map ev_row (e :: rest)) = Ok rp →
  require_bound e request = Ok tt →
  ∃ q key, replay_acceptance cfg (ev_row e) = Ok (rp_frame rp, q, rp_authority rp, key)
    ∧ request_identity q = request_identity request
    ∧ authenticate_request_frame (rp_frame rp) (cf_request_key cfg) = Ok q
    ∧ assoc_get (broker_incarnation request) (cf_response_keys cfg) = Some key.
Proof.
  intros (r & rs & q & key & p & Hr & K & Ha & _ & _)%replay_ok Hb. cbn [map] in Hr. injection Hr as <- <-.
  exists q, key. split; [done|].
  unfold require_bound, validate_request_frame in Hb. apply bind_error_ok in Hb as (fr & Hb & _).
  apply bind_error_ok in Hb as (q2 & Hq2 & Hb). apply bind_error_ok in Hb as (u0 & He & _).
  unfold guard in He. destruct (request_eq q2 request) eqn:Eq; [|done]. clear He.
  unfold replay_acceptance in Ha.
  destruct (stage_ (ev_row e)), (request_frame (ev_row e)) as [f|] eqn:Ef, (row_target (ev_row e)),
    (row_generation (ev_row e)), (row_execution_owner (ev_row e)); try done.
  apply bind_error_ok in Ha as (u1 & _ & Ha). apply bind_error_ok in Ha as (q1 & Hq1%reraise_ok & Ha).
  apply bind_error_ok in Ha as (p1 & _ & Ha). apply bind_error_ok in Ha as (u2 & _ & Ha).
  apply bind_error_ok in Ha as (a1 & _ & Ha). apply bind_error_ok in Ha as (l1 & _ & Ha).
  apply bind_error_ok in Ha as (u3 & _ & Ha).
  destruct (assoc_get (broker_incarnation q1) _) as [k1|] eqn:Ek; [|done].
  apply bind_error_ok in Ha as (v1 & _ & Ha). apply bind_error_ok in Ha as (d1 & _ & Ha).
  apply bind_error_ok in Ha as (u4 & _ & Ha). injection Ha as E1 E2 E3 E4. subst.
  pose proof (authenticated_request_unique _ _ _ _ Hq1 Hq2) as ->.
  apply request_eq_fields in Eq as [Hid _].
  split_and!; try done. rewrite <- Ek. f_equal. unfold request_identity in Hid. congruence.
Qed.

(** ** Rows that continue a history *)

(** The row of every event but the acceptance. *)
Definition plain_row (i : ident) (k : ev_kind) (s : option stage) (owner broker status : option pystr)
    (rc : option pybytes) (reason : option pystr) (resp : option pybytes) : row := {|
  identity_ := i; kind := k; stage_ := s; request_frame := None; request_frame_sha256 := None;
  request_broker_incarnation := None; request_nonce := None; request_connection_sequence := None;
  request_payload_digest := None; row_target := None; row_generation := None;
  row_execution_owner := None; owner_token := owner; owner_broker := broker; stage_status := status;
  receipt_column := rc; unresolved_reason := reason; response_frame := resp;
  response_frame_sha256 := option_map (fun f => hexdigest (sha256 f)) resp |}.

Lemma append_values_plain i k s owner broker status rc reason resp r :
  append_values i k s None None owner broker status rc reason resp = Ok r ↔
  r = plain_row i k s owner broker status rc reason resp.
Proof. split; [by intros [= <-]|by intros ->]. Qed.

Lemma claim_replays q a key p i owner broker : p_terminal p = None → p_owner p = None →
  TOKEN_PATTERN owner = true → TOKEN_PATTERN broker = true → broker = broker_incarnation q →
  ∃ p', replay_event q a key 1 p
          (plain_row i AuthorityClaimed None (Some owner) (Some broker) None None None None) = Ok p'
        ∧ p_owner p' = Some owner ∧ p_broker p' = Some broker.
Proof.
  intros Ht Ho T1 T2 ->. eexists. unfold replay_event, replay_claim. rewrite Ht, Ho. cbn.
  rewrite T1, T2. cbn. rewrite bool_decide_true by done. cbn. done.
Qed.

(** What the progress allows at a stage in the hands of its owner. *)
Definition at_stage (p : progress) (owner : pystr) (s : stage) (started : bool) : Prop :=
  p_terminal p = None ∧ p_owner p = Some owner ∧ is_Some (p_broker p)
  ∧ STAGES !! p_next p = Some s ∧ p_started p = started.

Lemma start_replays q a key n p i owner s : at_stage p owner s false →
  ∃ p', replay_event q a key n p
          (plain_row i StageStarted (Some s) (Some owner) None None None None None) = Ok p'.
Proof.
  intros (Ht & Ho & [b Hb] & Hs & Hst). eexists. unfold replay_event. rewrite Ht, Ho, Hb, Hs, Hst. cbn.
  rewrite !bool_decide_true by done. cbn. done.
Qed.

Lemma response_replays q key t s code id f r : validate_response_frame f q key t s code id = Ok f →
  response_frame r = Some f → response_frame_sha256 r = Some (hexdigest (sha256 f)) →
  replay_response q key t s code id r = Ok f.
Proof.
  intros Hv Hf Hd. unfold replay_response. rewrite Hf, Hd, Hv. cbn [res_bind].
  by rewrite bool_decide_true.
Qed.

(** The checks every stage event passes before its own. *)
Lemma replay_stage_event q a key n p r owner s started :
  at_stage p owner s started → owner_token r = Some owner → stage_ r = Some s →
  nulls r (REQUEST_COLUMNS ++ [COwnerBroker]) = true → is_completion r = true → started = true →
  replay_event q a key n p r =
    match kind r with
    | StageOutcome => replay_outcome q a key s p r
    | StageRejected => replay_rejected q key s p r
    | _ => replay_unresolved q key s p r
    end.
Proof.
  intros (Ht & Ho & [b Hb] & Hs & Hst) Hr Hsr Hn Hc ->. unfold replay_event.
  rewrite Ht, Ho, Hb, Hs, Hst, Hr, Hsr, Hn. cbn [isnull negb andb require guard res_bind].
  rewrite !bool_decide_true by done. cbn [require guard res_bind].
  unfold is_completion, is_kind in Hc. by destruct (kind r).
Qed.

Lemma outcome_replays q a key n p i owner s r encoded resp :
  at_stage p owner s true → receipt_ok r → receipt_json s r = Ok encoded →
  validate_receipt_binding s r q a = Ok tt →
  match s with
  | Reclaim => ∃ c f, r = RReclaim c ∧ resp = Some f
      ∧ validate_response_frame f q key Completed Reclaim None (Some (reclaim_receipt_id c)) = Ok f
  | _ => resp = None
  end →
  ∃ p', replay_event q a key n p
          (plain_row i StageOutcome (Some s) (Some owner) None (Some (u"completed")) (Some encoded)
             None resp) = Ok p'.
Proof.
  intros Ha Hr He Hb Hresp.
  set (row := plain_row _ _ _ _ _ _ _ _ _).
  assert (E : replay_event q a key n p row = replay_outcome q a key s p row)
    by (by rewrite (replay_stage_event q a key n p row owner s true Ha)).
  rewrite E. subst row. unfold replay_outcome. cbn [plain_row stage_status receipt_column unresolved_reason].
  rewrite bool_decide_true by done. cbn [isnull negb andb require guard res_bind].
  rewrite (validate_receipt_complete _ _ _ Hr He). cbn [res_bind]. rewrite Hb. cbn [res_bind].
  destruct s; try (subst resp; cbn; by eexists).
  destruct Hresp as (c & f & -> & -> & Hv). cbn [plain_row response_frame response_frame_sha256 option_map].
  cbn [isnull negb andb require guard res_bind].
  rewrite (response_replays _ _ _ _ _ _ f _ Hv) by done. cbn [res_bind]. by eexists.
Qed.

Lemma rejected_replays q a key n p i owner s status c encoded f :
  at_stage p owner s true → mem_str status (REJECTED_STATUSES s) = true →
  new_rejected (JStr (rejected_receipt_id c)) = Ok c → rejected_json c = Ok encoded →
  validate_response_frame f q key RejectedState s (Some status) (Some (rejected_receipt_id c)) = Ok f →
  ∃ p', replay_event q a key n p
          (plain_row i StageRejected (Some s) (Some owner) None (Some status) (Some encoded) None (Some f))
        = Ok p'.
Proof.
  intros Ha Hst Hc He Hv. set (row := plain_row _ _ _ _ _ _ _ _ _).
  assert (E : replay_event q a key n p row = replay_rejected q key s p row)
    by (by rewrite (replay_stage_event q a key n p row owner s true Ha)).
  rewrite E. subst row. unfold replay_rejected. cbn [plain_row stage_status receipt_column unresolved_reason
    response_frame response_frame_sha256 option_map].
  rewrite Hst. cbn [isnull negb andb require guard res_bind].
  unfold rejected_json in He. apply bind_error_ok in He as (enc & Hcan & He).
  apply bind_error_ok in He as (u1 & Hlen & He). injection He as ->. unfold guard in Hlen.
  destruct (zlen encoded <=? RECEIPT_JSON_BYTES_MAX) eqn:L; [|done]. breflect.
  rewrite (canonical_object_complete _ _ _ Hcan) by done. cbn [res_bind].
  change (has_keys _ _) with true. cbn [require guard res_bind]. get_items.
  rewrite Hc. cbn [res_bind].
  rewrite (response_replays _ _ _ _ _ _ f _ Hv) by done. cbn [res_bind]. by eexists.
Qed.

Lemma unresolved_replays q a key n p i owner s reason f :
  at_stage p owner s true → reason_ok s reason = true →
  validate_response_frame f q key UnresolvedState s (Some reason) None = Ok f →
  ∃ p', replay_event q a key n p
          (plain_row i StageUnresolved (Some s) (Some owner) None None None (Some reason) (Some f))
        = Ok p'.
Proof.
  intros Ha Hst Hv. set (row := plain_row _ _ _ _ _ _ _ _ _).
  assert (E : replay_event q a key n p row = replay_unresolved q key s p row)
    by (by rewrite (replay_stage_event q a key n p row owner s true Ha)).
  rewrite E. subst row. unfold replay_unresolved. cbn [plain_row stage_status receipt_column unresolved_reason
    response_frame response_frame_sha256 option_map].
  rewrite Hst. cbn [isnull negb andb require guard res_bind].
  rewrite (response_replays _ _ _ _ _ _ f _ Hv) by done. cbn [res_bind]. by eexists.
Qed.

(** ** Running operations in an environment *)

(** The others only add to a valid file and leave it valid. *)
Definition others_ok (f : journal → journal) : Prop :=
  ∀ j, journal_ok j → journal_ok (f j) ∧ extends j (f j).

(** The documented shape of [secrets.token_hex(16)] and CURRENT_TIMESTAMP. *)
Record conn_ok (c : conn) : Prop := {
  c_others : others_ok (cn_others c);
  c_turns : ∀ k, others_ok (t_others (cn_turn c k));
  c_token : APPEND_RECEIPT_PATTERN (cn_token c) = true;
  c_time : timestamp_ok (cn_time c) = true;
}.

Context (env : nat → conn).
Definition env_ok : Prop := ∀ n, conn_ok (env n).

(** [runs P m Q]: from a valid file that satisfies [P] the computation leaves
    a valid file that extends it, whatever it raises, and when it returns the
    value and the file satisfy [Q]. *)
Definition runs {A} (P : journal → Prop) (m : st rstore A) (Q : A → journal → Prop) : Prop :=
  ∀ s, journal_ok (rs_journal s) → P (rs_journal s) →
    journal_ok (rs_journal (m s).1) ∧ extends (rs_journal s) (rs_journal (m s).1)
    ∧ ∀ a, (m s).2 = Ok a → Q a (rs_journal (m s).1).

Definition stable (P : journal → Prop) : Prop :=
  ∀ j j', journal_ok j → journal_ok j' → extends j j' → P j → P j'.

(** What held of an earlier state of the file. *)
Definition knows (φ : journal → Prop) (j : journal) : Prop :=
  ∃ j0, journal_ok j0 ∧ extends j0 j ∧ φ j0.

Lemma knows_stable φ : stable (knows φ).
Proof. intros j j' _ _ E (j0 & H0 & E0 & Hφ). exists j0. split_and!; [done|by transitivity j|done]. Qed.
Lemma knows_now (φ : journal → Prop) j : journal_ok j → φ j → knows φ j.
Proof. intros Hj Hφ. by exists j. Qed.
Lemma stable_and P P' : stable P → stable P' → stable (fun j => P j ∧ P' j).
Proof. intros HP HP' j j' Hj Hj' E [H H']. split; [by apply (HP j)|by apply (HP' j)]. Qed.
Lemma stable_const (X : Prop) : stable (fun _ => X).
Proof. by intros ? ?. Qed.

Lemma runs_bind {A B} P (m : st rstore A) (k : A → st rstore B) R Q :
  runs P m R → (∀ a, runs (R a) (k a) Q) → runs P (st_bind m k) Q.
Proof.
  intros Hm Hk s Hs HP. specialize (Hm s Hs HP). unfold st_bind.
  destruct (m s) as [s1 [a|e]]; cbn [fst snd] in *; destruct Hm as (H1 & H2 & H3).
  - destruct (Hk a s1 H1 (H3 a eq_refl)) as (K1 & K2 & K3). split_and!; [done|by transitivity (rs_journal s1)|done].
  - by split_and!.
Qed.

Lemma runs_lift {A} (P : journal → Prop) (r : res A) (Q : A → journal → Prop) :
  (∀ a j, r = Ok a → journal_ok j → P j → Q a j) → runs P (st_lift r) Q.
Proof. intros H s Hs HP. split_and!; [done|done|]. cbn. eauto. Qed.

Lemma runs_ret {A} (P : journal → Prop) (a : A) (Q : A → journal → Prop) :
  (∀ j, journal_ok j → P j → Q a j) → runs P (st_ret a) Q.
Proof. intros H s Hs HP. split_and!; [done|done|]. intros b [= <-]. auto. Qed.

Lemma runs_weaken {A} (P P' : journal → Prop) (m : st rstore A) (Q Q' : A → journal → Prop) :
  runs P' m Q' → (∀ j, journal_ok j → P j → P' j) → (∀ a j, journal_ok j → Q' a j → Q a j) → runs P m Q.
Proof.
  intros H HP HQ s Hs Hp. destruct (H s Hs (HP _ Hs Hp)) as (H1 & H2 & H3). split_and!; try done. auto.
Qed.

(** A lifted check keeps what is known and adds its result. *)
Lemma runs_check {A B} (P : journal → Prop) (r : res A) (k : A → st rstore B) Q :
  (∀ a, r = Ok a → runs P (k a) Q) → runs P (st_bind (st_lift r) k) Q.
Proof.
  intros H. eapply (runs_bind _ _ _ (fun a j => r = Ok a ∧ P j)).
  - by apply runs_lift.
  - intros a s Hs [E HP]. by apply H.
Qed.

Section Env.
Hypothesis ENV : env_ok.

Lemma runs_connect P : stable P → runs P (connect env) (fun c j => conn_ok c ∧ P j).
Proof.
  intros HP s Hs Hp. unfold connect. destruct (c_others _ (ENV (rs_next s)) _ Hs) as [H1 H2].
  destruct (cn_fails (env (rs_next s))); cbn [fst snd rs_journal]; split_and!; try done.
  intros a [= <-]. split; [apply ENV|by apply (HP (rs_journal s))].
Qed.

Lemma runs_open P : stable P → runs P (open_ cfg env) (fun c j => conn_ok c ∧ P j).
Proof.
  intros HP. eapply runs_bind; [by apply runs_connect|]. intros c. cbn beta.
  intros s Hs [Hc Hp]. unfold st_bind, st_get, st_lift, st_ret. rewrite Hs. cbn. split_and!; try done.
  by intros a [= <-].
Qed.

Lemma runs_statement P c k : conn_ok c → stable P →
  runs P (statement c k) (fun j' j => j' = j ∧ P j).
Proof.
  intros Hc HP s Hs Hp. unfold statement. destruct (c_turns _ Hc k _ Hs) as [H1 H2].
  destruct (t_fails (cn_turn c k)); cbn [fst snd rs_journal]; split_and!; try done.
  intros a [= <-]. split; [done|by apply (HP (rs_journal s))].
Qed.

Lemma runs_open_then {B} P (k : conn → st rstore B) Q : stable P →
  (∀ c, conn_ok c → runs P (k c) Q) → runs P (let^ c := open_ cfg env in k c) Q.
Proof.
  intros HP H. eapply runs_bind; [by apply runs_open|]. intros c s Hs [Hc Hp]. by apply H.
Qed.

(** [open; statement 0]: the query sees a valid file. *)
Lemma runs_query {B} P (k : conn → journal → st rstore B) Q : stable P →
  (∀ c j, conn_ok c → journal_ok j → P j → runs (fun j' => j' = j ∧ P j') (k c j) Q) →
  runs P (let^ c := open_ cfg env in let^ j := statement c 0 in k c j) Q.
Proof.
  intros HP H. apply runs_open_then; [done|]. intros c Hc.
  eapply runs_bind; [by apply runs_statement|]. intros j. cbn beta.
  intros s Hs [-> Hp]. by apply H.
Qed.

Lemma runs_journal_position P c k id rid : conn_ok c → stable P →
  runs P (journal_position c k id rid)
    (fun pos j => pos_sequence pos = id ∧ pos_append_receipt_id pos = rid ∧ P j).
Proof.
  intros Hc HP. eapply runs_bind; [by apply runs_statement|]. intros j. cbn beta.
  apply runs_check. intros jid _. apply runs_ret. by intros j' _ [_ Hp].
Qed.

Lemma runs_reraise {A} P (m : st rstore A) cs c msg Q : runs P m Q → runs P (st_reraise m cs c msg) Q.
Proof.
  intros H s Hs Hp. destruct (H s Hs Hp) as (H1 & H2 & H3). unfold st_reraise. cbn [fst snd].
  split_and!; try done. intros a. destruct (m s).2 as [b|e]; cbn [reraise_as].
  - intros [= <-]. by apply H3.
  - by destruct (caught e cs).
Qed.

(** *** Appending *)

(** The row is in the file, at this position. *)
Definition stored_at (r : row) (id : Z) (rid : pystr) (j : journal) : Prop :=
  ∃ e, e ∈ jn_events j ∧ event_id e = id ∧ append_receipt_id e = rid ∧ ev_row e = r.

Lemma stored_stable r id rid : stable (stored_at r id rid).
Proof.
  intros j j' _ _ (_ & _ & _ & k & E) (e & He & H). exists e. split; [|done].
  rewrite E. apply elem_of_app. by left.
Qed.

Definition stored (r : row) (pos : ReplicaJournalPosition) (j : journal) : Prop :=
  stored_at r (pos_sequence pos) (pos_append_receipt_id pos) j.

(** Where [P] holds, a row the table appendable continues its history. *)
Definition appendable (P : journal → Prop) (r : row) : Prop :=
  ∀ j rid time x, journal_ok j → P j → insert_event (jn_events j) rid time r = Ok x →
    identity_ok (identity_ r)
    ∧ ∃ rp, replay cfg (history (identity_ r) (jn_events j) ++ [r]) = Ok rp.

Lemma runs_append_transaction P c r : conn_ok c → stable P → appendable P r →
  runs P (append_transaction c r)
    (fun x j => P j ∧ match x with
                      | Committed id => stored_at r id (cn_token c) j
                      | _ => True
                      end).
Proof.
  intros Hc HP Ha. unfold append_transaction. apply runs_reraise.
  eapply runs_bind; [by apply runs_statement|]. intros j. cbn beta.
  intros s Hs [-> Hp]. destruct (t_fails (cn_turn c 1)); [by split_and!|].
  destruct (insert_event _ _ _ _) as [[db id]|e] eqn:Ei.
  2: { destruct (caught e _); split_and!; try done. by intros a [= <-]. }
  destruct (Ha _ _ _ _ Hs Hp Ei) as [Hid [rp Hrp]].
  destruct (insert_keeps _ _ _ _ _ _ _ Hs Ei Hid (c_token _ Hc) (c_time _ Hc) Hrp)
    as (K1 & K2 & e & -> & He).
  assert (Hst : stored_at r id (cn_token c) (with_events (rs_journal s) (jn_events (rs_journal s) ++ [e]))).
  { exists e. split; [|done]. apply elem_of_app. right. by apply list_elem_of_singleton. }
  destruct (cn_commit c) as [|[]]; cbn; split_and!; try done; intros a [= <-]; split; try done;
    by apply (HP (rs_journal s)).
Qed.

Lemma find_elem {A} (f : A → bool) l x : List.find f l = Some x → x ∈ l ∧ f x = true.
Proof. intros H. apply List.find_some in H as [H1 H2]. split; [by apply list_elem_of_In|done]. Qed.

Lemma runs_inspect P rid r : stable P →
  runs P (inspect_intended_event cfg env rid r)
    (fun v j => P j ∧ match v with
                      | Present id rid' | Equivalent id rid' => stored_at r id rid' j
                      | _ => True
                      end).
Proof.
  intros HP. apply runs_open_then; [done|]. intros c Hc. apply runs_reraise.
  eapply runs_bind; [by apply runs_statement|]. intros j. cbn beta.
  destruct (List.find _ (jn_events j)) as [e|] eqn:F.
  - apply runs_ret. intros j' _ [-> Hp]. split; [done|]. apply find_elem in F as [F _].
    case_bool_decide; [|done]. by exists e.
  - eapply (runs_bind _ _ _ (fun j1 j' => j1 = j' ∧ P j')).
    + eapply runs_weaken; [exact (runs_statement P c 1 Hc HP)|by intros ? _ [_ ?]|done].
    + intros j1. apply runs_ret. intros j' _ [-> Hp]. split; [done|].
      destruct (List.find (same_slot r) _) as [e|] eqn:F2; [|done]. apply find_elem in F2 as [F2 _].
      case_bool_decide; [|done]. by exists e.
Qed.

(** A position read on a new connection. *)
Lemma runs_position_of P r id rid : stable P →
  runs (fun j => P j ∧ stored_at r id rid j)
    (let^ c := open_ cfg env in journal_position c 0 id rid)
    (fun pos j => P j ∧ stored r pos j).
Proof.
  intros HP. assert (HS : stable (fun j => P j ∧ stored_at r id rid j))
    by (apply stable_and; [done|apply stored_stable]).
  apply runs_open_then; [done|]. intros c Hc.
  eapply runs_weaken; [apply (runs_journal_position _ _ _ _ _ Hc HS)|done|].
  intros pos j _ (E1 & E2 & Hp & Hst). split; [done|]. unfold stored. by rewrite E1, E2.
Qed.

Lemma runs_confirm P rid r collision : stable P →
  runs P (confirm_appended_event cfg env rid r collision) (fun pos j => P j ∧ stored r pos j).
Proof.
  intros HP. eapply runs_bind; [by apply runs_inspect|]. intros v.
  destruct v as [id rid'|id rid'| |]; cbn beta iota.
  - by apply runs_position_of.
  - by apply runs_position_of.
  - apply runs_lift. by destruct collision.
  - apply runs_lift. by destruct collision.
Qed.

Lemma runs_append P i k s frame a owner broker status rc reason resp : stable P →
  (∀ r, append_values i k s frame a owner broker status rc reason resp = Ok r → appendable P r) →
  runs P (append cfg env i k s frame a owner broker status rc reason resp)
    (fun pos j => P j ∧ ∃ r, append_values i k s frame a owner broker status rc reason resp = Ok r
                             ∧ stored r pos j).
Proof.
  intros HP Ha. apply runs_check. intros r Hr.
  apply (runs_weaken P P _ _ (fun pos j => P j ∧ stored r pos j));
    [|done|intros pos j _ [Hp Hst]; split; [exact Hp|by exists r]].
  apply runs_open_then; [done|]. intros c Hc.
  eapply runs_bind; [apply (runs_append_transaction P); auto|]. intros x.
  destruct x as [id| |]; cbn beta iota.
  - by apply runs_position_of.
  - eapply runs_weaken; [by apply runs_confirm|by intros ? _ [? _]|done].
  - eapply runs_weaken; [by apply runs_confirm|by intros ? _ [? _]|done].
Qed.

(** ** The operations *)

(** A lifecycle as a query of the request saw it. *)
Definition lifecycle_at (request : BrokerRequest) (rp : Replay) (j : journal) : Prop :=
  ∃ e rest, rows_for (identity request) (jn_events j) = e :: rest
    ∧ require_bound e request = Ok tt ∧ replay cfg (map ev_row (e :: rest)) = Ok rp.

(** What a history that replays to [rp] knows of its request. *)
Definition accepted_for (request q : BrokerRequest) (key : public_key) (rp : Replay) : Prop :=
  request_identity q = request_identity request
  ∧ authenticate_request_frame (rp_frame rp) (cf_request_key cfg) = Ok q
  ∧ assoc_get (broker_incarnation request) (cf_response_keys cfg) = Some key.

(** A row may be appended after a query when nothing else can take its slot
    and it continues what the query saw. *)
Lemma appendable_step request r (φ : Replay → Prop) : identity_ r = identity request →
  (∀ db rid rows rest rp rp', history (identity_ r) db = rows ++ rest → replay cfg rows = Ok rp →
     replay cfg (rows ++ rest) = Ok rp' → unique_ok db rid r = true → φ rp → rest = []) →
  (∀ rows rp q key, replay cfg rows = Ok rp → φ rp → accepted_for request q key rp →
     ∃ p', replay_event q (rp_authority rp) key (length rows) (rp_progress rp) r = Ok p') →
  appendable (knows (fun j => ∃ rp, lifecycle_at request rp j ∧ φ rp)) r.
Proof.
  intros Hid Hslot Hstep j rid time x Hj (j0 & Hj0 & Hext & rp & (e & rest & Hrows & Hb & Hrp) & Hφ) Hins.
  destruct (bound_request _ _ _ _ Hrp Hb) as (q & key & Ha & Hq).
  assert (Hh0 : history (identity_ r) (jn_events j0) = map ev_row (e :: rest))
    by (unfold history; by rewrite Hid, Hrows).
  destruct (history_prefix (identity_ r) _ _ Hext) as [more Hmore]. rewrite Hh0 in Hmore.
  assert (Hn : rows_for (identity_ r) (jn_events j) ≠ []).
  { intros E. apply history_nil in E. rewrite E in Hmore. done. }
  destruct (history_replays _ _ Hj Hn) as [rp' Hrp']. rewrite Hmore in Hrp'.
  apply insert_event_checks in Hins as [_ Hu].
  pose proof (Hslot _ _ _ _ _ _ Hmore Hrp Hrp' Hu Hφ) as ->. rewrite app_nil_r in *.
  split; [by apply (stored_identity_ok j)|]. rewrite Hmore.
  destruct (Hstep _ _ _ _ Hrp Hφ Hq) as [p' Hp'].
  eexists. apply (replay_extend _ _ _ _ _ _ _ _ Hrp eq_refl Ha Hp').
Qed.

Lemma runs_status P request : stable P →
  runs P (status cfg env request) (fun d j => P j ∧ status_query cfg request (jn_events j) = Ok d).
Proof.
  intros HP. apply runs_open_then; [done|]. intros c Hc.
  eapply runs_bind; [by apply runs_statement|]. intros j. cbn beta.
  apply runs_lift. by intros d j' Hd _ [-> Hp].
Qed.

(** The fields of a decision that say who may go on. *)
Lemma accepted_row_appendable request frame a q : accepted_facts request frame a q →
  appendable (fun _ => True) (accepted_row request frame a q).
Proof.
  intros Hf j rid time x Hj _ Hins. destruct (accepted_row_replays _ _ _ _ Hf) as [Hid Hrp].
  split; [done|]. apply insert_event_checks in Hins as [_ Hu].
  destruct (rows_for (identity request) (jn_events j)) as [|e rest] eqn:E.
  - cbn [identity_ accepted_row]. unfold history. rewrite E. cbn [map app]. by eexists.
  - exfalso. destruct (history_replays (identity request) j Hj) as [rp H]; [by rewrite E|].
    apply replay_ok in H as (r & rs & _ & _ & _ & Hr & K & _).
    assert (Hin : r ∈ history (identity_ (accepted_row request frame a q)) (jn_events j))
      by (cbn [identity_ accepted_row]; rewrite Hr; left).
    by destruct (proj2 (unique_spec _ _ _ Hu) r Hin) as (H1 & _); apply H1.
Qed.

Lemma accept_values request frame a q r : accepted_facts request frame a q →
  append_values (identity request) Accepted None (Some frame) (Some a) None None None None None None = Ok r
  ↔ r = accepted_row request frame a q.
Proof.
  intros Hf. unfold append_values. rewrite (af_read _ _ _ _ Hf). cbn [res_bind option_map].
  split; [by intros [= <-]|by intros ->].
Qed.

(** [accept] returns the durable decision of the accepted request. *)
Definition accepted_decision (request : BrokerRequest) (frame : pybytes) (a : ReplicaAuthority)
    (d : ReplicaJournalDecision) (j : journal) : Prop :=
  (∃ rp, rows_for (identity request) (jn_events j) ≠ []
         ∧ replay cfg (history (identity request) (jn_events j)) = Ok rp
         ∧ rp_frame rp = frame ∧ rp_authority rp = a ∧ decision (rp_progress rp) = d).

Lemma accepted_query_ok request frame a db d : accepted_query cfg request frame a db = Ok (Some d) →
  ∃ rp, rows_for (identity request) db ≠ [] ∧ replay cfg (history (identity request) db) = Ok rp
        ∧ rp_frame rp = frame ∧ rp_authority rp = a ∧ decision (rp_progress rp) = d.
Proof.
  unfold accepted_query, history. destruct (rows_for _ db) as [|e rest]; [done|]. intros H.
  apply bind_error_ok in H as (rp & Hrp & H). unfold guard in H.
  destruct (_ && _) eqn:G; cbn [res_bind] in H; [|done]. injection H as <-. breflect.
  exists rp. by split_and!.
Qed.

Lemma status_query_ok request db d : status_query cfg request db = Ok d →
  rows_for (identity request) db ≠ [] →
  ∃ rp, replay cfg (history (identity request) db) = Ok rp ∧ decision (rp_progress rp) = d.
Proof.
  unfold status_query, history. destruct (rows_for _ db) as [|e rest]; [done|].
  intros H _. apply bind_error_ok in H as (u1 & _ & H). apply bind_error_ok in H as (rp & Hrp & H).
  injection H as <-. by exists rp.
Qed.

Lemma in_history e i db : e ∈ db → event_identity e = i → ev_row e ∈ history i db.
Proof.
  intros He Hi. unfold history. apply list_elem_of_fmap_2. unfold rows_for. by apply list_elem_of_filter.
Qed.

Lemma stored_in_history r pos j : stored r pos j → r ∈ history (identity_ r) (jn_events j).
Proof. intros (e & He & _ & _ & <-). by apply in_history. Qed.

(** The acceptance of a history is its first row. *)
Lemma accepted_is_first rows rp r : replay cfg rows = Ok rp → r ∈ rows → kind r = Accepted →
  ∃ rest, rows = r :: rest.
Proof.
  intros H Hr K. pose proof (replay_shape _ _ H) as (_ & Hk & _).
  destruct rows as [|r0 rest]; [by apply elem_of_nil in Hr|].
  apply elem_of_cons in Hr as [->|Hr]; [by exists rest|]. exfalso.
  assert (Hin : row_key r ∈ tail (expected_rows (rp_progress rp))).
  { rewrite <- Hk. cbn [map tail]. by apply list_elem_of_fmap_2. }
  unfold row_key in Hin. rewrite K in Hin. unfold expected_rows in Hin. cbn [tail] in Hin.
  destruct (isnull _); [by apply elem_of_nil in Hin|].
  apply elem_of_cons in Hin as [[= ?]|Hin]. rewrite !elem_of_app in Hin. destruct Hin as [Hin|[Hin|Hin]].
  - apply list_elem_of_In, in_concat in Hin as (l & Hl & Hin).
    apply in_map_iff in Hl as (x & <- & _). by destruct Hin as [?|[?|[]]].
  - destruct (p_started _); [|by apply elem_of_nil in Hin]. by apply list_elem_of_singleton in Hin.
  - destruct (p_terminal _) as [[[[] ?] ?]|]; try by apply elem_of_nil in Hin.
    all: by apply list_elem_of_singleton in Hin.
Qed.

Lemma runs_accept request frame a :
  runs (fun _ => True) (accept cfg env request frame a) (accepted_decision request frame a).
Proof.
  apply runs_check. intros f Hf. apply check_acceptance_ok in Hf as [-> [q Hq]].
  apply runs_query; [apply stable_const|]. intros c j Hc Hj _.
  apply runs_check. intros [d|] Hd.
  { apply runs_ret. intros j' _ [-> _]. by apply accepted_query_ok in Hd. }
  apply (runs_weaken _ (fun _ => True) _ _ (accepted_decision request frame a)); [|done|done].
  eapply runs_bind.
  { apply runs_append; [apply stable_const|]. intros r ->%(accept_values _ _ _ _ _ Hq).
    by apply accepted_row_appendable. }
  intros pos. cbn beta.
  set (P := stored (accepted_row request frame a q) pos).
  apply (runs_weaken _ P _ _ (accepted_decision request frame a)); [|unfold P|done].
  2: { intros j' _ (_ & r & Hr & Hst). apply (accept_values _ _ _ _ _ Hq) in Hr. by subst. }
  eapply runs_weaken; [apply (runs_status P); apply stored_stable|done|].
  intros d j' Hj' [Hst Hd']. unfold P in Hst. apply stored_in_history in Hst.
  cbn [identity_ accepted_row] in Hst.
  assert (Hn : rows_for (identity request) (jn_events j') ≠ []).
  { intros E. apply history_nil in E. rewrite E in Hst. by apply elem_of_nil in Hst. }
  destruct (history_replays _ _ Hj' Hn) as [rp Hrp].
  destruct (accepted_is_first _ _ _ Hrp Hst eq_refl) as [rest Hrest].
  destruct (status_query_ok _ _ _ Hd' Hn) as (rp' & Hrp' & Hdec).
  rewrite Hrp in Hrp'. injection Hrp' as <-. exists rp. split_and!; try done.
  - rewrite Hrest in Hrp. apply (replay_prefix [_] rest) in Hrp as (rp1 & H1 & Hf1 & _); [|done].
    rewrite (proj2 (accepted_row_replays _ _ _ _ Hq)) in H1. injection H1 as <-. done.
  - rewrite Hrest in Hrp. apply (replay_prefix [_] rest) in Hrp as (rp1 & H1 & _ & Ha1); [|done].
    rewrite (proj2 (accepted_row_replays _ _ _ _ Hq)) in H1. injection H1 as <-. done.
Qed.

(** What a claim that returned establishes. *)
Definition claimed_decision (request : BrokerRequest) (owner broker : pystr)
    (d : ReplicaJournalDecision) (j : journal) : Prop :=
  ∃ rp, rows_for (identity request) (jn_events j) ≠ []
        ∧ replay cfg (history (identity request) (jn_events j)) = Ok rp
        ∧ p_owner (rp_progress rp) = Some owner ∧ p_broker (rp_progress rp) = Some broker
        ∧ decision (rp_progress rp) = d.

Lemma claim_query_ok request owner broker db o : claim_query cfg request owner broker db = Ok o →
  ∃ e rest rp, rows_for (identity request) db = e :: rest ∧ require_bound e request = Ok tt
    ∧ replay cfg (map ev_row (e :: rest)) = Ok rp
    ∧ match o with
      | None => p_owner (rp_progress rp) = None
      | Some d => p_owner (rp_progress rp) = Some owner ∧ p_broker (rp_progress rp) = Some broker
                  ∧ decision (rp_progress rp) = d
      end.
Proof.
  unfold claim_query. destruct (rows_for _ db) as [|e rest]; [done|]. intros H.
  apply bind_error_ok in H as ([] & Hb & H). apply bind_error_ok in H as (rp & Hrp & H).
  exists e, rest, rp. split_and!; try done.
  destruct (p_owner (rp_progress rp)) as [ow|]; [|by injection H as <-].
  apply bind_error_ok in H as (u1 & Hg & H). unfold guard in Hg. destruct (_ && _) eqn:G; [|done].
  injection H as <-. breflect. by subst.
Qed.

Lemma runs_claim request owner broker :
  runs (fun _ => True) (claim_authority cfg env request owner broker) (claimed_decision request owner broker).
Proof.
  apply runs_check. intros t1 [[= <-] T1]%token_ok. apply runs_check. intros t2 [[= <-] T2]%token_ok.
  apply runs_check. intros [] Hbr. unfold guard in Hbr.
  destruct (bool_decide (broker = broker_incarnation request)) eqn:Eb; [|done]. breflect. clear Hbr.
  apply runs_query; [apply stable_const|]. intros c j Hc Hj _.
  apply runs_check. intros known (e & rest & rp & Hrows & Hb & Hrp & Hk)%claim_query_ok.
  destruct known as [d|].
  { apply runs_ret. intros j' _ [-> _]. destruct Hk as (K1 & K2 & K3). exists rp. unfold history. rewrite Hrows. by split_and!. }
  set (φ := fun rp : Replay => p_owner (rp_progress rp) = None).
  set (K := knows (fun j => ∃ rp, lifecycle_at request rp j ∧ φ rp)).
  apply (runs_weaken _ K _ _ (claimed_decision request owner broker)); [| |done].
  2: { intros j' Hj' [-> _]. apply knows_now; [done|]. exists rp. split; [|done]. by exists e, rest. }
  set (row := plain_row (identity request) AuthorityClaimed None (Some owner) (Some broker) None None None None).
  assert (Hadm : appendable K row).
  { apply appendable_step; [done| |].
    - intros db rid rows rest' rp1 rp2 Hdb H0 H1 Hu Hφ. by eapply (slot_claim db rid row rows rest').
    - intros rows rp1 q key H0 Hφ (Hid & _ & _).
      destruct (replay_shape _ _ H0) as (Hok & Hsh & _). unfold φ in Hφ. unfold progress_ok in Hok.
      rewrite Hφ in Hok. rewrite Hok in Hsh. destruct rows as [|r0 [|r1 rows]]; try done. cbn [length].
      destruct (claim_replays q (rp_authority rp1) key (rp_progress rp1) (identity request) owner broker)
        as (p' & Hp' & _); [by rewrite Hok|done|done|done| |by exists p'].
      subst broker. unfold request_identity in Hid. congruence. }
  eapply runs_bind.
  { apply runs_append; [apply knows_stable|]. intros r ->%append_values_plain. exact Hadm. }
  intros pos. cbn beta.
  apply (runs_weaken _ (stored row pos) _ _ (claimed_decision request owner broker)); [| |done].
  2: { intros j' _ (_ & r & ->%append_values_plain & Hst). exact Hst. }
  eapply runs_weaken; [apply (runs_status (stored row pos)); apply stored_stable|done|].
  intros d j' Hj' [Hst Hd']. apply stored_in_history in Hst. cbn [identity_ row plain_row] in Hst.
  assert (Hn : rows_for (identity request) (jn_events j') ≠ []).
  { intros E. apply history_nil in E. rewrite E in Hst. by apply elem_of_nil in Hst. }
  destruct (history_replays _ _ Hj' Hn) as [rp' Hrp'].
  destruct (replay_shape _ _ Hrp') as (Hok & Hsh & Htl).
  assert (Hw : p_owner (rp_progress rp') = Some owner).
  { apply replay_ok in Hrp' as (r0 & rs & ? & ? & ? & Hr0 & K0 & _). rewrite Hr0 in Hst, Htl.
    apply elem_of_cons in Hst as [<-|Hst]; [done|]. symmetry. by apply (Htl row). }
  assert (Hbk : p_broker (rp_progress rp') = Some broker)
    by (symmetry; by apply (replay_claim_broker _ _ row Hrp')).
  exists rp'. split_and!; try done.
  destruct (status_query_ok _ _ _ Hd' Hn) as (rp2 & Hrp2 & Hdec). congruence.
Qed.

(** *** Stages *)

Lemma active_query_ok request owner s db rp : active_query cfg request owner s db = Ok rp →
  ∃ e rest, rows_for (identity request) db = e :: rest ∧ require_bound e request = Ok tt
    ∧ replay cfg (map ev_row (e :: rest)) = Ok rp
    ∧ at_stage (rp_progress rp) owner s (p_started (rp_progress rp)).
Proof.
  unfold active_query. destruct (rows_for _ db) as [|e rest]; [done|]. intros H.
  apply bind_error_ok in H as ([] & Hb & H). apply bind_error_ok in H as (rp' & Hrp & H).
  apply bind_error_ok in H as (u1 & H1 & H). apply bind_error_ok in H as (u2 & H2 & H).
  apply bind_error_ok in H as (u3 & H3 & H). injection H as ->. unfold guard in H1, H2, H3.
  destruct (isnull (p_terminal _)) eqn:G1; [|done]. apply isnull_none in G1.
  destruct (bool_decide (p_owner _ = _)) eqn:G2; [|done].
  destruct (bool_decide (STAGES !! _ = _)) eqn:G3; [|done]. breflect.
  exists e, rest. split_and!; try done.
  apply replay_shape in Hrp as (Hok & _). unfold progress_ok in Hok. rewrite G2 in Hok.
  by destruct Hok.
Qed.

Lemma runs_require_active P request owner s : stable P →
  runs P (require_active cfg env request owner s)
    (fun rp j => P j ∧ lifecycle_at request rp j
                 ∧ at_stage (rp_progress rp) owner s (p_started (rp_progress rp))).
Proof.
  intros HP. apply runs_query; [done|]. intros c j Hc Hj Hp. apply runs_lift.
  intros rp j' (e & rest & Hrows & Hb & Hrp & Hat)%active_query_ok _ [-> _].
  split; [done|]. split; [by exists e, rest|done].
Qed.

(** A row of this event type and stage, written by the owner, is in the file
    at the position. *)
Definition stage_recorded (request : BrokerRequest) (k : ev_kind) (s : stage) (owner : pystr)
    (pos : ReplicaJournalPosition) (j : journal) : Prop :=
  ∃ r, stored r pos j ∧ identity_ r = identity request ∧ kind r = k ∧ stage_ r = Some s
       ∧ owner_token r = Some owner.

Lemma runs_existing_start request owner s :
  runs (fun _ => True) (existing_start cfg env request owner s)
    (fun o j => match o with
                | Some pos => stage_recorded request StageStarted s owner pos j
                | None => True
                end).
Proof.
  apply runs_query; [apply stable_const|]. intros c j Hc Hj _. apply runs_check. intros _ _.
  destruct (List.find _ _) as [e|] eqn:F; [|by apply runs_ret].
  apply find_elem in F as [He F]. apply andb_true_iff in F as [K%is_kind_iff S%bool_decide_eq_true].
  apply rows_for_identity in He as [Hid He].
  apply runs_check. intros [] Hg. unfold guard in Hg.
  destruct (bool_decide (owner_token _ = _)) eqn:O; [|done]. breflect.
  set (P := stored_at (ev_row e) (event_id e) (append_receipt_id e)).
  apply (runs_weaken _ P _ _ (fun o j => match o with
           | Some pos => stage_recorded request StageStarted s owner pos j | None => True end)); [| |done].
  2: { intros j' _ [-> _]. by exists e. }
  eapply runs_bind; [apply (runs_journal_position P); [done|apply stored_stable]|].
  intros pos. apply runs_ret. intros j' _ (E1 & E2 & Hst). exists (ev_row e).
  split_and!; try done. unfold stored. by rewrite E1, E2.
Qed.

(** Appending the row of an active lifecycle. *)
Lemma runs_append_row request r (φ : Replay → Prop) i k s owner broker status rc reason resp :
  r = plain_row i k s owner broker status rc reason resp → i = identity request →
  appendable (knows (fun j => ∃ rp, lifecycle_at request rp j ∧ φ rp)) r →
  runs (knows (fun j => ∃ rp, lifecycle_at request rp j ∧ φ rp))
    (append cfg env i k s None None owner broker status rc reason resp) (stored r).
Proof.
  intros -> -> Ha. eapply runs_weaken; [apply runs_append; [apply knows_stable|]|done|].
  - intros r ->%append_values_plain. exact Ha.
  - intros pos j _ (_ & r & ->%append_values_plain & Hst). exact Hst.
Qed.

Lemma runs_begin_stage request owner name s : stage_of_name name = Some s →
  runs (fun _ => True) (begin_stage cfg env request owner name)
    (stage_recorded request StageStarted s owner).
Proof.
  intros Hs. apply runs_check. intros t1 [[= <-] T1]%token_ok. apply runs_check.
  intros s' Hs'. unfold validate_stage in Hs'. rewrite Hs in Hs'. injection Hs' as <-.
  eapply runs_bind; [apply runs_existing_start|]. intros [pos|]; [by apply runs_ret|].
  eapply runs_bind; [apply runs_require_active, stable_const|]. intros rp. apply runs_check.
  intros [] Hg. unfold guard in Hg. destruct (p_started (rp_progress rp)) eqn:St; [done|]. cbn [negb] in Hg.
  set (φ := fun rp : Replay => at_stage (rp_progress rp) owner s false).
  set (r := plain_row (identity request) StageStarted (Some s) (Some owner) None None None None None).
  set (K := knows (fun j => ∃ rp, lifecycle_at request rp j ∧ φ rp)).
  apply (runs_weaken _ K _ _ (stored r)); [apply (runs_append_row request r φ); [done|done|]| |].
  - apply appendable_step; [done| |].
    + intros db rid rows rest rp1 rp2 Hdb H0 H1 Hu (Ht & Ho & Hb & Hn & Hst).
      eapply (slot_start db rid r rows rest _ _ Hdb H0 H1 Hu s); auto.
    + intros rows rp1 q key H0 Hφ _. by apply (start_replays _ _ _ _ _ (identity request) owner s).
  - intros j Hj (_ & Hl & Hat). apply knows_now; [done|]. exists rp. split; [done|].
    done.
  - intros pos j _ Hst. exists r. by split_and!.
Qed.

(** A completion with exactly this content is in the file at the position. *)
Definition completion_recorded (request : BrokerRequest) (s : stage) (k : ev_kind) (owner : pystr)
    (status : option pystr) (rc : option pybytes) (reason : option pystr) (resp : option pybytes)
    (pos : ReplicaJournalPosition) (j : journal) : Prop :=
  ∃ r, stored r pos j ∧ identity_ r = identity request ∧ stage_ r = Some s
       ∧ exact_completion r k owner status rc reason resp = true.

Lemma runs_existing_exact request owner s k status rc reason resp :
  runs (fun _ => True) (existing_exact_completion cfg env request owner s k status rc reason resp)
    (fun o j => match o with
                | Some pos => completion_recorded request s k owner status rc reason resp pos j
                | None => True
                end).
Proof.
  apply runs_query; [apply stable_const|]. intros c j Hc Hj _. apply runs_check. intros _ _.
  destruct (List.find _ _) as [e|] eqn:F; [|by apply runs_ret].
  apply find_elem in F as [He F]. apply andb_true_iff in F as [S%bool_decide_eq_true _].
  apply rows_for_identity in He as [Hid He].
  apply runs_check. intros [] Hg. unfold guard in Hg.
  destruct (exact_completion _ _ _ _ _ _ _) eqn:X; [|done].
  set (P := stored_at (ev_row e) (event_id e) (append_receipt_id e)).
  apply (runs_weaken _ P _ _ (fun o j => match o with
           | Some pos => completion_recorded request s k owner status rc reason resp pos j
           | None => True end)); [| |done].
  2: { intros j' _ [-> _]. by exists e. }
  eapply runs_bind; [apply (runs_journal_position P); [done|apply stored_stable]|].
  intros pos. apply runs_ret. intros j' _ (E1 & E2 & Hst). exists (ev_row e).
  split_and!; try done. unfold stored. by rewrite E1, E2.
Qed.

Lemma plain_row_exact i k s owner broker status rc reason resp :
  exact_completion (plain_row i k s (Some owner) broker status rc reason resp) k owner status rc reason resp
  = true.
Proof. unfold exact_completion, is_kind. cbn. by rewrite !bool_decide_true. Qed.

Lemma runs_complete_with request owner s k status rc reason resp check :
  is_completion (plain_row (identity request) k (Some s) (Some owner) None status rc reason resp) = true →
  (∀ rp q key n, accepted_for request q key rp → at_stage (rp_progress rp) owner s true → check rp = Ok tt →
     ∃ p', replay_event q (rp_authority rp) key n (rp_progress rp)
       (plain_row (identity request) k (Some s) (Some owner) None status rc reason resp) = Ok p') →
  runs (fun _ => True) (complete_with cfg env request owner s k status rc reason resp check)
    (completion_recorded request s k owner status rc reason resp).
Proof.
  intros Hk Hrow. eapply runs_bind; [apply runs_existing_exact|]. intros [pos|]; [by apply runs_ret|].
  eapply runs_bind; [apply runs_require_active, stable_const|]. intros rp. apply runs_check.
  intros [] Hg. unfold guard in Hg. destruct (p_started (rp_progress rp)) eqn:St; [|done].
  apply runs_check. intros [] Hc.
  set (φ := fun rp : Replay => at_stage (rp_progress rp) owner s true ∧ check rp = Ok tt).
  set (r := plain_row (identity request) k (Some s) (Some owner) None status rc reason resp).
  set (K := knows (fun j => ∃ rp, lifecycle_at request rp j ∧ φ rp)).
  apply (runs_weaken _ K _ _ (stored r)); [apply (runs_append_row request r φ); [done|done|]| |].
  - apply appendable_step; [done| |].
    + intros db rid rows rest rp1 rp2 Hdb H0 H1 Hu ((Ht & Ho & Hb & Hn & Hst) & _).
      by eapply (slot_complete db rid r rows rest _ _ Hdb H0 H1 Hu s).
    + intros rows rp1 q key H0 [Hat Hch] Hq. by apply Hrow.
  - intros j Hj (_ & Hl & Hat). apply knows_now; [done|]. exists rp. split; [done|].
    done.
  - intros pos j _ Hst. exists r. split_and!; try done. apply plain_row_exact.
Qed.

Lemma stage_of_stage_name s : stage_of_name (stage_name s) = Some s.
Proof. by destruct s. Qed.
Lemma stage_of_name_inv n s : stage_of_name n = Some s → n = stage_name s.
Proof. unfold stage_of_name. intros H. apply find_elem in H as [_ H]. by breflect. Qed.
Lemma validate_stage_ok n s : validate_stage n = Ok s → n = stage_name s.
Proof.
  unfold validate_stage. destruct (stage_of_name n) eqn:E; [|done]. intros [= <-]. by apply stage_of_name_inv.
Qed.

(** A response checked for the request is checked for the accepted one. *)
Lemma response_for_accepted request q key rp f st s code id key' f' :
  accepted_for request q key rp → response_public_key cfg request = Ok key' →
  validate_response_frame f request key' st s code id = Ok f' →
  validate_response_frame f q key st s code id = Ok f ∧ f' = f.
Proof.
  intros (Hid & _ & Hk) Hk' Hv. unfold response_public_key in Hk'. rewrite Hk in Hk'. injection Hk' as <-.
  rewrite (validate_response_identity _ _ _ _ _ _ _ _ Hid).
  pose proof (validate_response_frame_id _ _ _ _ _ _ _ _ Hv) as ->. done.
Qed.

Lemma completion_response_ok request q key rp s r response terminal :
  accepted_for request q key rp → completion_response cfg request s r response = Ok terminal →
  terminal = response ∧
  match s with
  | Reclaim => ∃ c f, r = RReclaim c ∧ terminal = Some f
      ∧ validate_response_frame f q key Completed Reclaim None (Some (reclaim_receipt_id c)) = Ok f
  | _ => terminal = None
  end.
Proof.
  intros Hq H. unfold completion_response in H.
  destruct (decide (s = Reclaim)) as [->|N].
  - destruct response as [f|]; [|done]. destruct r as [| | | | | |c|]; try done.
    apply bind_error_ok in H as (key' & Hk & H). apply bind_error_ok in H as (f' & Hv & H).
    injection H as <-. destruct (response_for_accepted _ _ _ _ _ _ _ _ _ _ _ Hq Hk Hv) as [Hv' ->].
    split; [done|]. by exists c, f.
  - assert (E : (check! guard (isnull response) ValueError "replica nonterminal response is not permitted" in
                 Ok None) = Ok terminal) by (by destruct s).
    apply bind_error_ok in E as ([] & G & [= <-]). unfold guard in G.
    destruct response; [done|]. split; [done|]. by destruct s.
Qed.

Lemma runs_complete request owner s r response : receipt_ok r →
  runs (fun _ => True) (complete cfg env request owner s r response)
    (fun pos j => ∃ encoded, receipt_json s r = Ok encoded
       ∧ completion_recorded request s StageOutcome owner (Some (u"completed")) (Some encoded) None
           response pos j).
Proof.
  intros Hr. apply runs_check. intros t1 [[= <-] _]%token_ok. apply runs_check. intros encoded He.
  apply runs_check. intros terminal Ht.
  eapply runs_weaken; [apply (runs_complete_with request owner s StageOutcome (Some (u"completed"))
    (Some encoded) None terminal)|done|].
  - done.
  - intros rp q key n Hq Hat Hch. apply bind_error_ok in Hch as (q' & Hq' & Hch).
    pose proof Hq as (_ & Hauth & _). rewrite Hauth in Hq'. injection Hq' as <-.
    unfold validate_stage_receipt in Hch. apply reraise_ok in Hch.
    unfold validate_stage in Hch. rewrite stage_of_stage_name in Hch. cbn [res_bind] in Hch.
    apply bind_error_ok in Hch as (enc & _ & Hb).
    destruct (completion_response_ok _ _ _ _ _ _ _ _ Hq Ht) as [_ Hresp].
    by apply (outcome_replays q (rp_authority rp) key n (rp_progress rp) (identity request) owner s r).
  - intros pos j _ Hrec. exists encoded. split; [done|].
    assert (terminal = response) as <-; [|done].
    unfold completion_response in Ht. destruct s; try (by apply bind_error_ok in Ht as ([] & G & [= <-]);
      unfold guard in G; destruct response).
    destruct response as [f|]; [|done]. destruct r as [| | | | | |c|]; try done.
    apply bind_error_ok in Ht as (key' & Hk & Ht). apply bind_error_ok in Ht as (f' & Hv & Ht).
    injection Ht as <-. by apply validate_response_frame_id in Hv as ->.
Qed.

Lemma runs_record_rejected request owner name status c f :
  new_rejected (JStr (rejected_receipt_id c)) = Ok c →
  runs (fun _ => True) (record_rejected cfg env request owner name status c f)
    (fun pos j => ∃ s encoded, name = stage_name s ∧ rejected_json c = Ok encoded
       ∧ completion_recorded request s StageRejected owner (Some status) (Some encoded) None (Some f) pos j).
Proof.
  intros Hc. apply runs_check. intros t1 [[= <-] _]%token_ok. apply runs_check. intros s Hs%reraise_ok.
  apply bind_error_ok in Hs as (s' & Hs & H). apply validate_stage_ok in Hs.
  apply bind_error_ok in H as ([] & G & H). apply bind_error_ok in H as (enc & _ & [= ->]).
  unfold guard in G. destruct (mem_str status _) eqn:M; [|done].
  apply runs_check. intros encoded He. apply runs_check. intros key Hk. apply runs_check. intros f' Hv.
  pose proof (validate_response_frame_id _ _ _ _ _ _ _ _ Hv) as ->.
  eapply runs_weaken; [apply (runs_complete_with request owner s StageRejected (Some status)
    (Some encoded) None (Some f))|done|].
  - done.
  - intros rp q key' n Hq Hat _. destruct (response_for_accepted _ _ _ _ _ _ _ _ _ _ _ Hq Hk Hv) as [Hv' _].
    by apply (rejected_replays q (rp_authority rp) key' n (rp_progress rp) (identity request) owner s status c).
  - intros pos j _ Hrec. by exists s, encoded.
Qed.

Lemma runs_record_unresolved request owner name reason f :
  runs (fun _ => True) (record_unresolved cfg env request owner name reason f)
    (fun pos j => ∃ s, name = stage_name s
       ∧ completion_recorded request s StageUnresolved owner None None (Some reason) (Some f) pos j).
Proof.
  apply runs_check. intros t1 [[= <-] _]%token_ok. apply runs_check. intros s Hs%reraise_ok.
  apply bind_error_ok in Hs as (s' & Hs & H). apply validate_stage_ok in Hs.
  apply bind_error_ok in H as ([] & G & [= ->]). unfold guard in G. destruct (reason_ok s reason) eqn:M; [|done].
  apply runs_check. intros key Hk. apply runs_check. intros f' Hv.
  pose proof (validate_response_frame_id _ _ _ _ _ _ _ _ Hv) as ->.
  eapply runs_weaken; [apply (runs_complete_with request owner s StageUnresolved None None (Some reason) (Some f))|done|].
  - done.
  - intros rp q key' n Hq Hat _. destruct (response_for_accepted _ _ _ _ _ _ _ _ _ _ _ Hq Hk Hv) as [Hv' _].
    by apply (unresolved_replays q (rp_authority rp) key' n (rp_progress rp) (identity request) owner s reason).
  - intros pos j _ Hrec. by exists s.
Qed.

Lemma runs_collect_pending P c k ids : conn_ok c → stable P →
  runs P (collect_pending cfg c k ids) (fun _ _ => True).
Proof.
  intros Hc HP. revert k. induction ids as [|i ids IH]; intros k; cbn [collect_pending]; [by apply runs_ret|].
  eapply runs_bind; [by apply (runs_statement P)|]. intros j. apply runs_check. intros x _.
  eapply runs_bind; [eapply runs_weaken; [apply IH|by intros ? _ [_ ?]|intros ? ? _ H; exact H]|].
  intros rest. by apply runs_ret.
Qed.

Lemma runs_incomplete : runs (fun _ => True) (incomplete_lifecycles cfg env) (fun _ _ => True).
Proof.
  apply runs_query; [apply stable_const|]. intros c j Hc Hj _.
  eapply runs_weaken; [apply (runs_collect_pending (fun _ => True)); [done|apply stable_const]|done|done].
Qed.
End Env.

(** ** Sequences of operations *)

(** A call of the journal, with the arguments its caller passes. *)
Inductive operation :=
  | OStatus (q : BrokerRequest)
  | OAccept (q : BrokerRequest) (frame : pybytes) (a : ReplicaAuthority)
  | OClaim (q : BrokerRequest) (owner broker : pystr)
  | OBegin (q : BrokerRequest) (owner name : pystr)
  | OComplete (q : BrokerRequest) (owner : pystr) (s : stage) (r : receipt) (response : option pybytes)
  | OReject (q : BrokerRequest) (owner name status : pystr) (r : RejectedReceipt) (response : pybytes)
  | OUnresolved (q : BrokerRequest) (owner name reason : pystr) (response : pybytes)
  | OIncomplete.

(** The receipts a caller holds passed their constructors' checks. *)
Definition operation_ok (o : operation) : Prop :=
  match o with
  | OComplete _ _ _ r _ => receipt_ok r
  | OReject _ _ _ _ r _ => new_rejected (JStr (rejected_receipt_id r)) = Ok r
  | _ => True
  end.

Definition run_operation (o : operation) (s : rstore) : rstore :=
  match o with
  | OStatus q => (status cfg env q s).1
  | OAccept q f a => (accept cfg env q f a s).1
  | OClaim q ow b => (claim_authority cfg env q ow b s).1
  | OBegin q ow n => (begin_stage cfg env q ow n s).1
  | OComplete q ow st r resp => (complete cfg env q ow st r resp s).1
  | OReject q ow n status r resp => (record_rejected cfg env q ow n status r resp s).1
  | OUnresolved q ow n reason resp => (record_unresolved cfg env q ow n reason resp s).1
  | OIncomplete => (incomplete_lifecycles cfg env s).1
  end.

Lemma runs_ends {A} (P : journal → Prop) (m : st rstore A) Q s : runs P m Q →
  journal_ok (rs_journal s) → P (rs_journal s) →
  journal_ok (rs_journal (m s).1) ∧ extends (rs_journal s) (rs_journal (m s).1).
Proof. intros H Hs Hp. by destruct (H s Hs Hp) as (? & ? & _). Qed.

(** A stage name the journal refuses changes nothing. *)
Lemma begin_stage_refused request owner name s : stage_of_name name = None →
  (begin_stage cfg env request owner name s).1 = s.
Proof.
  intros H. unfold begin_stage, st_bind, st_lift. destruct (token _ _); [|done].
  unfold validate_stage. by rewrite H.
Qed.

Lemma run_operation_keeps o s : env_ok → operation_ok o → journal_ok (rs_journal s) →
  journal_ok (rs_journal (run_operation o s)) ∧ extends (rs_journal s) (rs_journal (run_operation o s)).
Proof.
  intros E Ho Hs. destruct o; cbn [run_operation operation_ok] in *.
  - eapply (runs_ends (fun _ => True) _ _ s); [apply runs_status; [done|apply stable_const]|done|done].
  - eapply (runs_ends (fun _ => True) _ _ s); [by apply runs_accept|done|done].
  - eapply (runs_ends (fun _ => True) _ _ s); [by apply runs_claim|done|done].
  - destruct (stage_of_name name) as [st|] eqn:F.
    + eapply (runs_ends (fun _ => True) _ _ s); [by apply runs_begin_stage|done|done].
    + by rewrite begin_stage_refused.
  - eapply (runs_ends (fun _ => True) _ _ s); [by apply runs_complete|done|done].
  - eapply (runs_ends (fun _ => True) _ _ s); [by apply runs_record_rejected|done|done].
  - eapply (runs_ends (fun _ => True) _ _ s); [by apply runs_record_unresolved|done|done].
  - eapply (runs_ends (fun _ => True) _ _ s); [by apply runs_incomplete|done|done].
Qed.

Definition run_operations (os : list operation) (s : rstore) : rstore :=
  fold_left (fun s o => run_operation o s) os s.

Lemma run_operations_keeps os s : env_ok → Forall operation_ok os → journal_ok (rs_journal s) →
  journal_ok (rs_journal (run_operations os s)) ∧ extends (rs_journal s) (rs_journal (run_operations os s)).
Proof.
  intros E Hos. revert s. induction Hos as [|o os Ho Hos IH]; intros s Hs; [done|].
  destruct (run_operation_keeps o s E Ho Hs) as [H1 H2]. cbn [run_operations fold_left].
  destruct (IH _ H1) as [H3 H4]. split; [done|]. by transitivity (rs_journal (run_operation o s)).
Qed.

(** ** What later states of a file keep *)

Lemma replay_later i j j' rp : journal_ok j' → extends j j' → rows_for i (jn_events j) ≠ [] →
  replay cfg (history i (jn_events j)) = Ok rp →
  ∃ rest rp', history i (jn_events j') = history i (jn_events j) ++ rest
    ∧ replay cfg (history i (jn_events j)  ++ rest) = Ok rp'.
Proof.
  intros Hj' Hext Hn Hrp. destruct (history_prefix i _ _ Hext) as [rest Hrest].
  assert (Hn' : rows_for i (jn_events j') ≠ []).
  { intros E. apply history_nil in E. rewrite E in Hrest. symmetry in Hrest.
    apply app_eq_nil in Hrest as [Hnil _]. by apply Hn, history_nil. }
  destruct (history_replays i j' Hj' Hn') as [rp' Hrp']. exists rest, rp'. by rewrite <- Hrest.
Qed.

(** The owner of a claimed lifecycle never changes. *)
Lemma owner_kept rows rest rp rp' o : replay cfg rows = Ok rp → replay cfg (rows ++ rest) = Ok rp' →
  p_owner (rp_progress rp) = Some o → p_owner (rp_progress rp') = Some o.
Proof.
  intros H0 H1 Ho. destruct (replay_shape _ _ H0) as (_ & Hk & Ht). destruct (replay_shape _ _ H1) as (_ & _ & Ht').
  unfold expected_rows in Hk. rewrite Ho in Hk. cbn [isnull] in Hk.
  destruct rows as [|r0 [|r1 rows]]; try done.
  rewrite <- (Ht' r1) by (cbn; left). rewrite <- Ho. apply Ht. left.
Qed.

Lemma decision_terminal p t : d_state (decision p) = DTerminal t → p_terminal p ≠ None.
Proof. unfold decision. destruct (p_terminal p); [done|]. destruct (p_owner p); [by destruct (p_started p)|done]. Qed.

Lemma terminal_decision_kept request j j' d t : journal_ok j' → extends j j' →
  status_query cfg request (jn_events j) = Ok d → d_state d = DTerminal t →
  rows_for (identity request) (jn_events j') = rows_for (identity request) (jn_events j).
Proof.
  intros Hj' Hext Hd Ht.
  destruct (decide (rows_for (identity request) (jn_events j) = [])) as [E|N].
  { unfold status_query in Hd. rewrite E in Hd. by injection Hd as <-. }
  destruct (status_query_ok _ _ _ Hd N) as (rp & Hrp & <-).
  destruct (replay_later _ _ _ _ Hj' Hext N Hrp) as (rest & rp' & Hrest & Hrp').
  pose proof (terminal_history_final _ _ _ _ Hrp Hrp' (decision_terminal _ _ Ht)) as ->.
  destruct Hext as (_ & _ & _ & k & Hk). rewrite Hk, rows_for_app in *. unfold history in Hrest.
  rewrite rows_for_app, map_app, app_nil_r in Hrest.
  assert (Hnil : map ev_row (rows_for (identity request) k) = []).
  { apply (f_equal length) in Hrest. rewrite length_app in Hrest.
    destruct (map ev_row (rows_for (identity request) k)); [done|]. cbn in Hrest. lia. }
  apply map_eq_nil in Hnil. by rewrite Hnil, app_nil_r.
Qed.

(** ** Lifecycles to recover *)

Lemma first_seen_spec seen db i :
  i ∈ first_seen seen db ↔ (i ∉ seen) ∧ rows_for i db ≠ [].
Proof.
  revert seen. induction db as [|e db IH]; intros seen; cbn [first_seen].
  { split; [by intros ?%elem_of_nil|by intros [_ ?]]. }
  unfold rows_for in *. rewrite filter_cons. case_bool_decide as E.
  - rewrite IH. destruct (decide (event_identity e = i)) as [<-|N]; [|done].
    split; [by intros [? _]|by intros [? _]].
  - rewrite elem_of_cons, IH. destruct (decide (event_identity e = i)) as [<-|N].
    + split; [by split|by left].
    + rewrite elem_of_cons. split; [intros [->|[H1 H2]]; [done|]; split; [|done]; intros Hi; apply H1; by right|].
      intros [H1 H2]. right. split; [|done]. intros [->|?]; done.
Qed.

Lemma first_seen_nodup seen db : NoDup (first_seen seen db).
Proof.
  revert seen. induction db as [|e db IH]; intros seen; cbn [first_seen]; [constructor|].
  case_bool_decide; [done|]. constructor; [|done]. rewrite first_seen_spec. intros [H0 _]. apply H0. left.
Qed.

(** The statements of a connection that nothing disturbs. *)
Definition undisturbed (c : conn) : Prop :=
  (∀ j, cn_others c j = j) ∧ cn_fails c = false
  ∧ ∀ k, t_fails (cn_turn c k) = false ∧ ∀ j, t_others (cn_turn c k) j = j.

Lemma statement_undisturbed c k s : undisturbed c → statement c k s = (s, Ok (rs_journal s)).
Proof. intros (_ & _ & H). destruct (H k) as [H1 H2]. unfold statement. rewrite H1, H2. by destruct s. Qed.

Lemma collect_pending_undisturbed c k ids s ls : undisturbed c →
  Forall2 (fun i x => pending_of cfg (history i (jn_events (rs_journal s))) = Ok x) ids ls →
  collect_pending cfg c k ids s = (s, Ok (omap id ls)).
Proof.
  intros Hc H. revert k. induction H as [|i x ids ls Hx H IH]; intros k; [done|].
  cbn [collect_pending]. unfold st_bind at 1. rewrite statement_undisturbed by done.
  unfold st_bind at 1, st_lift. unfold history in Hx. rewrite Hx.
  unfold st_bind. rewrite IH. by destruct x.
Qed.

(** * Properties *)

(** C23. The journal survives everything its callers, its storage and its
    neighbours do: whatever sequence of operations runs, with connections,
    statements and commits failing at any point (a failed commit durable or
    not) and with other connections appending between any two statements, a
    valid file stays valid and only grows. *)
Theorem operations_keep_journal (os : list operation) (s : rstore) :
  env_ok → Forall operation_ok os → journal_ok (rs_journal s) →
  journal_ok (rs_journal (run_operations os s))
  ∧ extends (rs_journal s) (rs_journal (run_operations os s)).
Proof. intros E Ho Hs. by apply run_operations_keeps. Qed.

(** Every lifecycle in a valid journal follows the fixed order: its rows are
    the acceptance, one claim, then for each stage in turn one start and one
    outcome, the start of the stage in flight, and at most one rejection or
    unresolved row, which is the last; all of them by the owner that claimed
    it. So a lifecycle has at most sixteen rows. *)
Theorem history_follows_stages (j : journal) (i : ident) :
  journal_ok j → rows_for i (jn_events j) ≠ [] →
  ∃ p, progress_ok p ∧ map row_key (history i (jn_events j)) = expected_rows p
       ∧ (∀ r, r ∈ tail (history i (jn_events j)) → owner_token r = p_owner p)
       ∧ (length (rows_for i (jn_events j)) <= 16)%nat.
Proof.
  intros Hj Hi. destruct (history_replays _ _ Hj Hi) as [rp Hrp].
  destruct (replay_shape _ _ Hrp) as (Hok & Hk & Ho). exists (rp_progress rp). split_and!; try done.
  apply (f_equal length) in Hk. unfold history in Hk. rewrite !length_map in Hk. rewrite Hk.
  clear -Hok. set (p := rp_progress rp) in *. clearbody p. unfold expected_rows, progress_ok in *.
  destruct (p_owner p); cbn [isnull]; [|cbn; lia]. destruct Hok as [_ Hok].
  assert (Hn : (p_next p <= 7)%nat ∧ (p_next p = 7%nat → p_started p = false)).
  { destruct (p_terminal p) as [[[[] st] f]|]; [by destruct Hok as (-> & -> & _)| | |lia];
      destruct Hok as [_ Hs]; apply stage_at in Hs; destruct st; cbn in Hs; lia. }
  destruct Hn as [Hn Hs]. cbn [length]. rewrite !length_app.
  assert (length (concat (map (fun s => [(StageStarted, Some s); (StageOutcome, Some s)])
            (take (p_next p) STAGES))) = 2 * p_next p)%nat as ->.
  { clear -Hn. revert Hn. generalize (p_next p). intros n Hn.
    do 8 (destruct n as [|n]; [done|]). lia. }
  destruct (p_started p), (p_terminal p) as [[[[] ?] ?]|]; cbn [length];
    try (assert (p_next p ≠ 7%nat) by (intros H7; by specialize (Hs H7))); lia.
Qed.

(** C24. A terminal decision is final: once a lifecycle has completed, been
    rejected or been left unresolved, its status (state, stage, signed
    response and owner) is the same after any later operations, faults and
    appends of others. *)
Theorem terminal_decision_final (request : BrokerRequest) (d : ReplicaJournalDecision)
    (t : terminal_state) (os : list operation) (s : rstore) :
  env_ok → Forall operation_ok os → journal_ok (rs_journal s) →
  status_query cfg request (jn_events (rs_journal s)) = Ok d → d_state d = DTerminal t →
  status_query cfg request (jn_events (rs_journal (run_operations os s))) = Ok d.
Proof.
  intros E Hos Hs Hd Ht. destruct (run_operations_keeps os s E Hos Hs) as [H1 H2].
  unfold status_query. by rewrite (terminal_decision_kept _ _ _ _ _ H1 H2 Hd Ht).
Qed.

(** A lifecycle has one owner: after a claim has returned for one owner
    token, no later claim of the same request returns for another one,
    whatever happens in between and while the claims run. *)
Theorem replica_claim_exclusive (request : BrokerRequest) (owner owner' broker broker' : pystr)
    (os : list operation) (s s1 s2 : rstore) (d d' : ReplicaJournalDecision) :
  env_ok → Forall operation_ok os → journal_ok (rs_journal s) →
  claim_authority cfg env request owner broker s = (s1, Ok d) →
  claim_authority cfg env request owner' broker' (run_operations os s1) = (s2, Ok d') →
  owner' = owner ∧ broker' = broker.
Proof.
  intros E Hos Hs H1 H2.
  destruct (runs_claim E request owner broker s Hs I) as (J1 & _ & C1). rewrite H1 in J1, C1.
  destruct (run_operations_keeps os s1 E Hos J1) as [J2 X2].
  destruct (runs_claim E request owner' broker' (run_operations os s1) J2 I) as (J3 & X3 & C2).
  rewrite H2 in J3, X3, C2.
  destruct (C1 _ eq_refl) as (rp & Hn & Hrp & Ho & Hb & _). destruct (C2 _ eq_refl) as (rp' & _ & Hrp' & Ho' & Hb' & _).
  cbn [fst] in *. assert (X : extends (rs_journal s1) (rs_journal s2)) by (by transitivity (rs_journal (run_operations os s1))).
  destruct (replay_later _ _ _ _ J3 X Hn Hrp) as (rest & rp2 & Hrest & Hrp2). rewrite Hrest in Hrp'.
  rewrite Hrp' in Hrp2. injection Hrp2 as <-.
  pose proof (owner_kept _ _ _ _ _ Hrp Hrp' Ho) as Hk. split; [congruence|].
  assert (Hc : ∃ r, r ∈ history (identity request) (jn_events (rs_journal s1)) ∧ kind r = AuthorityClaimed).
  { destruct (replay_shape _ _ Hrp) as (_ & Hsh & _). unfold expected_rows in Hsh. rewrite Ho in Hsh.
    destruct (history _ _) as [|r0 [|r1 rows]]; try done. exists r1. split; [right; left|].
    by injection Hsh. }
  destruct Hc as (r & Hr & K). pose proof (replay_claim_broker _ _ _ Hrp Hr K) as B1.
  assert (Hr' : r ∈ history (identity request) (jn_events (rs_journal s1)) ++ rest)
    by (apply elem_of_app; by left).
  pose proof (replay_claim_broker _ _ _ Hrp' Hr' K) as B2. congruence.
Qed.

(** An acceptance that returns binds what it stores: the durable first event
    is the given frame, which authenticates under the configured request key
    to a request equal to the given one; the payload names the given
    authority and the configured limits, and the artifact set is the digest
    of what the payload declares. *)
Theorem accept_binds_request (request : BrokerRequest) (frame : pybytes) (a : ReplicaAuthority)
    (s s' : rstore) (d : ReplicaJournalDecision) :
  env_ok → journal_ok (rs_journal s) → accept cfg env request frame a s = (s', Ok d) →
  accepted_decision request frame a d (rs_journal s') ∧ ∃ q, accepted_facts request frame a q.
Proof.
  intros E Hs H. destruct (runs_accept E request frame a s Hs I) as (_ & _ & C). rewrite H in C.
  split; [by apply C|]. unfold accept, st_bind in H. unfold st_lift at 1 in H.
  destruct (check_acceptance cfg request frame a) as [f|e] eqn:K; [|done].
  by apply check_acceptance_ok in K as [_ ?].
Qed.

(** A returned position is durable: when a stage start, a completion, a
    rejection or an unresolved result returns a position, even after an
    uncertain commit or a collision with another connection, the file holds
    at that position, under that append receipt, exactly the row that the
    call describes. *)
Theorem stage_results_durable (request : BrokerRequest) (owner : pystr) (s : rstore) :
  env_ok → journal_ok (rs_journal s) →
  (∀ st s' pos, begin_stage cfg env request owner (stage_name st) s = (s', Ok pos) →
     stage_recorded request StageStarted st owner pos (rs_journal s'))
  ∧ (∀ st r response s' pos, receipt_ok r →
       complete cfg env request owner st r response s = (s', Ok pos) →
       ∃ encoded, receipt_json st r = Ok encoded
         ∧ completion_recorded request st StageOutcome owner (Some (u"completed")) (Some encoded) None
             response pos (rs_journal s'))
  ∧ (∀ name status c f s' pos, new_rejected (JStr (rejected_receipt_id c)) = Ok c →
       record_rejected cfg env request owner name status c f s = (s', Ok pos) →
       ∃ st encoded, name = stage_name st ∧ rejected_json c = Ok encoded
         ∧ completion_recorded request st StageRejected owner (Some status) (Some encoded) None
             (Some f) pos (rs_journal s'))
  ∧ (∀ name reason f s' pos, record_unresolved cfg env request owner name reason f s = (s', Ok pos) →
       ∃ st, name = stage_name st
         ∧ completion_recorded request st StageUnresolved owner None None (Some reason) (Some f) pos
             (rs_journal s')).
Proof.
  intros E Hs. split_and!.
  - intros st s' pos H. destruct (runs_begin_stage E request owner _ st (stage_of_stage_name st) s Hs I)
      as (_ & _ & C). rewrite H in C. by apply C.
  - intros st r response s' pos Hr H. destruct (runs_complete E request owner st r response Hr s Hs I)
      as (_ & _ & C). rewrite H in C. by apply C.
  - intros name status c f s' pos Hc H.
    destruct (runs_record_rejected E request owner name status c f Hc s Hs I) as (_ & _ & C).
    rewrite H in C. by apply C.
  - intros name reason f s' pos H.
    destruct (runs_record_unresolved E request owner name reason f s Hs I) as (_ & _ & C).
    rewrite H in C. by apply C.
Qed.

(** Recovery misses nothing and invents nothing: on a valid file that nothing
    disturbs, [incomplete_lifecycles] lists exactly the lifecycles that are
    claimed and not terminal, each with its owner, its broker, the stage it
    stands at and whether that stage has started. *)
Theorem replica_incomplete_exact (s : rstore) : journal_ok (rs_journal s) →
  undisturbed (env (rs_next s)) →
  ∃ s' ls, incomplete_lifecycles cfg env s = (s', Ok ls) ∧ rs_journal s' = rs_journal s
    ∧ ∀ l, l ∈ ls ↔ ∃ i rp o b st,
        rows_for i (jn_events (rs_journal s)) ≠ []
        ∧ replay cfg (history i (jn_events (rs_journal s))) = Ok rp
        ∧ p_owner (rp_progress rp) = Some o ∧ p_terminal (rp_progress rp) = None
        ∧ p_broker (rp_progress rp) = Some b ∧ STAGES !! p_next (rp_progress rp) = Some st
        ∧ l = {| il_request_frame := rp_frame rp; il_owner_token := o; il_owner_broker := b;
                 il_stage := st; il_started := p_started (rp_progress rp);
                 il_reason := u"broker_restart_unknown"; il_authority := rp_authority rp |}.
Proof.
  intros Hs Hc. pose proof Hc as (Hco & Hcf & _).
  set (s1 := {| rs_journal := rs_journal s; rs_next := S (rs_next s) |}).
  set (db := jn_events (rs_journal s)).
  (* every listed identity has a pending answer *)
  assert (Hp : ∀ i, rows_for i db ≠ [] → ∃ rp x, replay cfg (history i db) = Ok rp
            ∧ pending_of cfg (history i db) = Ok x
            ∧ (∀ l, x = Some l ↔ ∃ o b st, p_owner (rp_progress rp) = Some o ∧ p_terminal (rp_progress rp) = None
                 ∧ p_broker (rp_progress rp) = Some b ∧ STAGES !! p_next (rp_progress rp) = Some st
                 ∧ l = {| il_request_frame := rp_frame rp; il_owner_token := o; il_owner_broker := b;
                          il_stage := st; il_started := p_started (rp_progress rp);
                          il_reason := u"broker_restart_unknown"; il_authority := rp_authority rp |})).
  { intros i Hi. destruct (history_replays i (rs_journal s) Hs Hi) as [rp Hrp]. exists rp.
    unfold pending_of. fold db in Hrp. rewrite Hrp. cbn [res_bind].
    pose proof (proj1 (replay_shape _ _ Hrp)) as Hok. unfold progress_ok in Hok.
    destruct (p_owner (rp_progress rp)) as [o|].
    2: { exists None. split_and!; try done. intros l. split; [done|]. by intros (? & ? & ? & ? & _). }
    destruct Hok as [[b Hb] Hok]. rewrite Hb.
    destruct (p_terminal (rp_progress rp)) as [x|].
    1: { exists None. split_and!; try done. intros l. split; [done|]. by intros (? & ? & ? & _ & ? & _). }
    destruct (STAGES !! p_next (rp_progress rp)) as [st|] eqn:Est.
    2: { apply lookup_ge_None in Est. cbn in Est. lia. }
    eexists. split_and!; [done|done|]. intros l. split.
    - intros [= <-]. by exists o, b, st.
    - by intros (o' & b' & st' & [= <-] & _ & [= <-] & [= <-] & ->). }
  set (ids := first_seen [] db).
  assert (Hids : ∀ i, i ∈ ids ↔ rows_for i db ≠ []).
  { intros i. unfold ids. rewrite first_seen_spec. split; [by intros [_ ?]|]. intros ?. split; [apply not_elem_of_nil|done]. }
  assert (Hls : ∃ xs, Forall2 (fun i x => pending_of cfg (history i db) = Ok x) ids xs).
  { assert (Hall : Forall (fun i => rows_for i db ≠ []) ids) by (apply Forall_forall; intros i; apply Hids).
    clear Hids. induction Hall as [|i ids' Hi Hall [xs Hxs]]; [by exists []|].
    destruct (Hp i Hi) as (_ & x & _ & Hx & _). exists (x :: xs). by constructor. }
  destruct Hls as [xs Hxs]. exists s1, (omap id xs). split_and!; [|done|].
  - unfold incomplete_lifecycles, open_, connect. unfold st_bind at 1 2. rewrite Hcf, Hco. fold s1.
    unfold st_bind at 1 2, st_get, st_lift. cbn [rs_journal s1]. rewrite Hs. unfold st_ret at 1.
    unfold st_bind. rewrite statement_undisturbed by done. cbn [rs_journal s1].
    by apply collect_pending_undisturbed.
  - intros l. rewrite list_elem_of_omap. split.
    + intros (x & Hx & Hl). unfold id in Hl. subst x.
      apply list_elem_of_lookup in Hx as [k Hk].
      destruct (Forall2_lookup_r _ _ _ _ _ Hxs Hk) as (i & Hi & Hpi).
      apply list_elem_of_lookup_2, Hids in Hi. destruct (Hp i Hi) as (rp & x & Hrp & Hx & Hiff).
      rewrite Hpi in Hx. injection Hx as <-. destruct (proj1 (Hiff l) eq_refl) as (o & b & st & ?).
      by exists i, rp, o, b, st.
    + intros (i & rp & o & b & st & Hi & Hrp & Hrest).
      apply Hids, list_elem_of_lookup in Hi as Hk. destruct Hk as [k Hk].
      destruct (Forall2_lookup_l _ _ _ _ _ Hxs Hk) as (x & Hx & Hpx).
      destruct (Hp i (proj1 (Hids i) Hi)) as (rp' & x' & Hrp' & Hx' & Hiff). rewrite Hrp in Hrp'. injection Hrp' as <-.
      rewrite Hpx in Hx'. injection Hx' as <-. exists x. split; [by eapply list_elem_of_lookup_2|].
      unfold id. apply Hiff. by exists o, b, st.
Qed.
End Spec.

(** ** A concrete file, for the witnesses *)

#[local] Existing Instance toy_sha256.
#[local] Existing Instance toy_ed25519.
#[local] Existing Instance toy_ed25519_raw.

Definition zero_digest : pystr := repeat 48 64.
Definition example_authority : ReplicaAuthority := {|
  physical_target_id := u"target-000000000001"; replica_generation := 3;
  execution_owner_id := u"owner-0000000000001" |}.
Definition example_artifact (name : pystr) : ArtifactReference := {|
  artifact_id := name; artifact_sha256 := zero_digest; byte_length := 12 |}.
Definition example_bundle := example_artifact (u"bundle-0000000000001").
Definition example_worktree := example_artifact (u"worktree-00000000001").
Definition example_index := example_artifact (u"index-00000000000001").

Definition example_payload : list (pystr * json) :=
  [(u"artifact_set_sha256", JStr zero_digest);
   (u"authority", JObj [(u"execution_owner_id", JStr (execution_owner_id example_authority));
                        (u"physical_target_id", JStr (physical_target_id example_authority));
                        (u"replica_generation", JInt 3)]);
   (u"bundle", artifact_json example_bundle);
   (u"index_objects", artifact_json example_index);
   (u"limits_sha256", JStr zero_digest);
   (u"object_format", JStr (u"sha1"));
   (u"reconciliation_fingerprint", JStr zero_digest);
   (u"repository_id", JStr (u"repository-000000001"));
   (u"source_state_sha256", JStr zero_digest);
   (u"workspace_id", JStr (u"workspace-0000000001"));
   (u"worktree", artifact_json example_worktree)].

Definition example_request : BrokerRequest := {|
  protocol_version := BROKER_PROTOCOL_VERSION; broker_incarnation := u"broker-incarnation-1";
  database_incarnation := u"database-incarnation"; connection_sequence := 7;
  operation_id := repeat 97 32; request_type := REPLICA_LIFECYCLE; nonce := u"nonce-0123456789";
  payload_digest_ := zero_digest; payload := example_payload |}.

Definition example_frame : pybytes :=
  match create_signed_request (tt : private_key) (protocol_version example_request)
    (broker_incarnation example_request) (database_incarnation example_request)
    (connection_sequence example_request) (operation_id example_request)
    (request_type example_request) (nonce example_request) (payload example_request) with
  | Ok f => f | Raise _ => []
  end.

Definition example_config : config := {|
  cf_application_id := u"yinshi"; cf_limits_sha256 := zero_digest; cf_request_key := (tt : public_key);
  cf_response_keys := [(u"broker-incarnation-1", (tt : public_key))];
  cf_configuration_sha256 := zero_digest |}.

Definition example_token (n : nat) : pystr := hexdigest (repeat 0 15 ++ [Z.of_nat n mod 256]).

(** Connections that nothing disturbs. *)
Definition quiet_env (n : nat) : conn := {|
  cn_others := id; cn_fails := false; cn_turn := fun _ => {| t_others := id; t_fails := false |};
  cn_commit := CommitOk; cn_token := example_token n; cn_time := u"2026-01-01 00:00:00" |}.
(** Every commit reports an error: those of the even connections were durable. *)
Definition faulty_env (n : nat) : conn := {|
  cn_others := id; cn_fails := false; cn_turn := fun _ => {| t_others := id; t_fails := false |};
  cn_commit := CommitError (Nat.even n); cn_token := example_token n;
  cn_time := u"2026-01-01 00:00:00" |}.

Definition example_file : rstore := {|
  rs_journal := {| jn_integrity := true; jn_schema := SchemaExpected;
    jn_meta := [(0, u"yinshi", 1, repeat 97 32 ++ 95 :: zero_digest)]; jn_events := [] |};
  rs_next := 0 |}.

Definition example_owner : pystr := u"owner-token-00001".
Definition example_ingest : receipt := RIngest {|
  ing_receipt_id := u"ingest-receipt-01"; ing_bundle := example_bundle;
  ing_worktree := example_worktree; ing_index_objects := example_index |}.
Definition example_response (status : pystr) (error : option pystr) (result : list (pystr * json)) : pybytes :=
  match create_signed_response example_request (tt : private_key) status error result with
  | Ok f => f | Raise _ => []
  end.
Definition example_unresolved : pybytes :=
  example_response (u"error") (Some (u"timeout_unknown"))
    (terminal_result UnresolvedState Verify (Some (u"timeout_unknown")) None).

(** Accept, claim, ingest, and lose track of the verification. *)
Definition example_operations : list operation :=
  [OAccept example_request example_frame example_authority;
   OClaim example_request example_owner (u"broker-incarnation-1");
   OBegin example_request example_owner (u"ingest");
   OComplete example_request example_owner Ingest example_ingest None;
   OBegin example_request example_owner (u"verify");
   OUnresolved example_request example_owner (u"verify") (u"timeout_unknown") example_unresolved].

Lemma example_token_pattern n : APPEND_RECEIPT_PATTERN (example_token n) = true.
Proof.
  unfold APPEND_RECEIPT_PATTERN, fullmatch_n, example_token.
  apply andb_true_iff. split.
  - apply Z.eqb_eq. unfold zlen. rewrite hexdigest_length. done.
  - apply hexdigest_is_hex, Forall_app. split; [by apply forallb_Forall|].
    constructor; [|constructor]. unfold is_byte.
    pose proof (Z.mod_pos_bound (Z.of_nat n) 256 eq_refl).
    apply andb_true_iff. rewrite !Z.leb_le. lia.
Qed.

Lemma quiet_env_ok : env_ok example_config quiet_env.
Proof.
  intros n. split; [by intros j|by intros k j| |done]. apply example_token_pattern.
Qed.
Lemma faulty_env_ok : env_ok example_config faulty_env.
Proof.
  intros n. split; [by intros j|by intros k j| |done]. apply example_token_pattern.
Qed.

Lemma example_file_ok : journal_ok example_config (rs_journal example_file).
Proof. vm_compute. reflexivity. Qed.

(** The rows those operations leave. *)
Definition example_ident : ident := identity example_request.
Definition example_json (r : res pybytes) : pybytes := match r with Ok b => b | Raise _ => [] end.
Definition example_rows : list row :=
  [accepted_row example_request example_frame example_authority example_request;
   plain_row example_ident AuthorityClaimed None (Some example_owner) (Some (u"broker-incarnation-1"))
     None None None None;
   plain_row example_ident StageStarted (Some Ingest) (Some example_owner) None None None None None;
   plain_row example_ident StageOutcome (Some Ingest) (Some example_owner) None (Some (u"completed"))
     (Some (example_json (receipt_json Ingest example_ingest))) None None;
   plain_row example_ident StageStarted (Some Verify) (Some example_owner) None None None None None;
   plain_row example_ident StageUnresolved (Some Verify) (Some example_owner) None None None
     (Some (u"timeout_unknown")) (Some example_unresolved)].
Definition example_events (rows : list row) : list event :=
  imap (fun k r => {| event_id := Z.of_nat k + 1; append_receipt_id := example_token k;
                      created_at := u"2026-01-01 00:00:00"; ev_row := r |}) rows.
Definition example_with (rows : list row) : rstore := {|
  rs_journal := with_events (rs_journal example_file) (example_events rows); rs_next := 0 |}.

Definition example_claimed : rstore := example_with (take 2 example_rows).
Definition example_terminal : rstore := example_with example_rows.

Lemma example_claimed_ok : journal_ok example_config (rs_journal example_claimed).
Proof. vm_compute. reflexivity. Qed.
Lemma example_terminal_ok : journal_ok example_config (rs_journal example_terminal).
Proof. vm_compute. reflexivity. Qed.

Definition example_decision : ReplicaJournalDecision := {|
  d_state := DTerminal UnresolvedState; d_stage := Some Verify;
  d_response := Some example_unresolved; d_owner_broker := Some (u"broker-incarnation-1") |}.
Lemma example_terminal_status :
  status_query example_config example_request (jn_events (rs_journal example_terminal)) = Ok example_decision.
Proof. vm_compute. reflexivity. Qed.
Lemma example_status_claimed_ok :
  (claim_authority example_config quiet_env example_request example_owner (u"broker-incarnation-1")
     example_claimed)
  = ({| rs_journal := rs_journal example_claimed; rs_next := 1 |},
     Ok {| d_state := DClaimed; d_stage := Some Ingest; d_response := None;
           d_owner_broker := Some (u"broker-incarnation-1") |}).
Proof. vm_compute. reflexivity. Qed.

Lemma example_claim_again :
  (claim_authority example_config quiet_env example_request example_owner (u"broker-incarnation-1")
     {| rs_journal := rs_journal example_claimed; rs_next := 1 |})
  = ({| rs_journal := rs_journal example_claimed; rs_next := 2 |},
     Ok {| d_state := DClaimed; d_stage := Some Ingest; d_response := None;
           d_owner_broker := Some (u"broker-incarnation-1") |}).
Proof. vm_compute. reflexivity. Qed.

(** What the storage holds after the whole sequence, commits failing or not. *)
Lemma example_run_rows :
  map ev_row (jn_events (rs_journal (run_operations example_config quiet_env example_operations
                                       example_file))) = example_rows.
Proof. vm_compute. reflexivity. Qed.

Lemma operations_keep_journal_witness :
  (journal_ok example_config
     (rs_journal (run_operations example_config faulty_env example_operations example_file))
   ∧ extends (rs_journal example_file)
       (rs_journal (run_operations example_config faulty_env example_operations example_file)))
  ∧ map ev_row (jn_events (rs_journal
      (run_operations example_config quiet_env example_operations example_file))) = example_rows.
Proof.
  split; [|exact example_run_rows].
  apply (operations_keep_journal example_config faulty_env example_operations example_file
           faulty_env_ok); [|exact example_file_ok].
  repeat constructor.
Defined.

Lemma history_follows_stages_witness :
  ∃ p, progress_ok p ∧ map row_key (history example_ident (jn_events (rs_journal example_terminal)))
                       = expected_rows p.
Proof.
  destruct (history_follows_stages example_config (rs_journal example_terminal) example_ident
              example_terminal_ok) as (p & Hp & Hk & _); [discriminate|].
  exists p. exact (conj Hp Hk).
Defined.

Lemma terminal_decision_final_witness :
  status_query example_config example_request
    (jn_events (rs_journal (run_operations example_config quiet_env
       [OClaim example_request (u"another-owner-0001") (u"broker-incarnation-1"); OIncomplete]
       example_terminal))) = Ok example_decision.
Proof.
  apply (terminal_decision_final example_config quiet_env example_request example_decision
           UnresolvedState _ example_terminal quiet_env_ok); [|exact example_terminal_ok|
           exact example_terminal_status|reflexivity].
  repeat constructor.
Defined.

Lemma replica_claim_exclusive_witness : example_owner = example_owner
  ∧ u"broker-incarnation-1" = u"broker-incarnation-1".
Proof.
  exact (replica_claim_exclusive example_config quiet_env example_request example_owner example_owner
           (u"broker-incarnation-1") (u"broker-incarnation-1") [] example_claimed _ _ _ _
           quiet_env_ok (Forall_nil_2 _) example_claimed_ok example_status_claimed_ok
           example_claim_again).
Defined.

Lemma example_accept_ok :
  accept example_config quiet_env example_request example_frame example_authority example_claimed
  = ({| rs_journal := rs_journal example_claimed; rs_next := 1 |},
     Ok {| d_state := DClaimed; d_stage := Some Ingest; d_response := None;
           d_owner_broker := Some (u"broker-incarnation-1") |}).
Proof. vm_compute. reflexivity. Qed.

Lemma accept_binds_request_witness :
  ∃ d q, accepted_decision example_config example_request example_frame example_authority d
           (rs_journal example_claimed)
         ∧ accepted_facts example_config example_request example_frame example_authority q.
Proof.
  destruct (accept_binds_request example_config quiet_env example_request example_frame
    example_authority example_claimed _ _ quiet_env_ok example_claimed_ok example_accept_ok)
    as [H [q Hq]].
  eexists. exists q. exact (conj H Hq).
Defined.

Lemma example_ingest_ok : receipt_ok example_ingest.
Proof. vm_compute. repeat split. Qed.

Definition example_started : rstore := example_with (take 3 example_rows).
Lemma example_started_ok : journal_ok example_config (rs_journal example_started).
Proof. vm_compute. reflexivity. Qed.

Definition example_position : ReplicaJournalPosition := {|
  pos_journal_id := repeat 97 32 ++ 95 :: zero_digest; pos_sequence := 4;
  pos_append_receipt_id := example_token 6 |}.
(** The uncertain commit of a completion, verified on a new connection. *)
Lemma example_complete_ok : ∃ s',
  complete example_config faulty_env example_request example_owner Ingest example_ingest None
    {| rs_journal := rs_journal example_started; rs_next := 4 |} = (s', Ok example_position).
Proof. eexists. vm_compute. reflexivity. Qed.

Lemma stage_results_durable_witness :
  ∃ encoded s', receipt_json Ingest example_ingest = Ok encoded
    ∧ completion_recorded example_request Ingest StageOutcome example_owner (Some (u"completed"))
        (Some encoded) None None example_position (rs_journal s').
Proof.
  destruct (stage_results_durable example_config faulty_env example_request example_owner
    {| rs_journal := rs_journal example_started; rs_next := 4 |} faulty_env_ok example_started_ok)
    as (_ & H & _).
  destruct example_complete_ok as [s' E].
  destruct (H Ingest example_ingest None s' example_position example_ingest_ok E) as (encoded & He & Hr).
  exists encoded, s'. exact (conj He Hr).
Defined.

Lemma replica_incomplete_exact_witness :
  ∃ s' ls, incomplete_lifecycles example_config quiet_env example_started = (s', Ok ls)
    ∧ ∀ l, l ∈ ls → il_owner_token l = example_owner → il_reason l = u"broker_restart_unknown".
Proof.
  destruct (replica_incomplete_exact example_config quiet_env example_started example_started_ok)
    as (s' & ls & H & _ & Hls); [by repeat split|].
  exists s', ls. split; [exact H|]. intros l Hl _.
  destruct (proj1 (Hls l) Hl) as (i & rp & o & b & st & _ & _ & _ & _ & _ & _ & E).
  rewrite E. reflexivity.
Defined.
