(* ===== verification/OperationGates.v ===== *)
(** * Operation gates

    Models the gates by which [services/broker_replica_lifecycle.py]
    serialises the runs of one operation: [_OperationGate], the dictionary of
    gates and the operations [_acquire_operation_gate] and
    [_release_operation_gate], over [asyncio.Lock] with its queue of futures.
    Gates are objects on a heap, since a caller keeps its gate while the
    dictionary may change. *)

From S2P Require Import Prelude.

Definition MAX_OPERATION_GATES : Z := 256.

(** ** asyncio.Lock

    A waiter is the future that a task awaits in [acquire], named by its task. *)
Inductive waiter := Pending | Woken | Cancelled.
#[export] Instance waiter_eq_dec : EqDecision waiter.
Proof. solve_decision. Defined.

Record gate := { g_locked : bool; g_waiters : list (nat * waiter); g_users : Z }.

Definition new_gate : gate := {| g_locked := false; g_waiters := []; g_users := 0 |}.
Definition set_lock (g : gate) (l : bool) (ws : list (nat * waiter)) : gate :=
  {| g_locked := l; g_waiters := ws; g_users := g_users g |}.
Definition add_users (n : Z) (g : gate) : gate :=
  {| g_locked := g_locked g; g_waiters := g_waiters g; g_users := g_users g + n |}.

(** [acquire] up to its await: whether the lock was taken at once. *)
Definition lock_try (i : nat) (g : gate) : gate * bool :=
  if negb (g_locked g) && forallb (fun w => bool_decide (w.2 = Cancelled)) (g_waiters g)
  then (set_lock g true (g_waiters g), true)
  else (set_lock g (g_locked g) (g_waiters g ++ [(i, Pending)]), false).

(** [_wake_up_first] *)
Definition wake_first (ws : list (nat * waiter)) : list (nat * waiter) :=
  match ws with
  | (i, Pending) :: r => (i, Woken) :: r
  | _ => ws
  end.

Definition remove_waiter (i : nat) (ws : list (nat * waiter)) : list (nat * waiter) :=
  filter (fun w => w.1 ≠ i) ws.

(** The await of [acquire] returns, or raises [CancelledError]. *)
Definition lock_resume (i : nat) (g : gate) : gate :=
  set_lock g true (remove_waiter i (g_waiters g)).
Definition lock_cancelled (i : nat) (g : gate) : gate :=
  let ws := remove_waiter i (g_waiters g) in
  set_lock g (g_locked g) (if g_locked g then ws else wake_first ws).

(** [task.cancel()] cancels the future that the task awaits, unless it is done. *)
Definition cancel_waiter (i : nat) (g : gate) : gate :=
  set_lock g (g_locked g)
    (map (fun w => if bool_decide (w = (i, Pending)) then (i, Cancelled) else w) (g_waiters g)).

Definition lock_release (g : gate) : res gate :=
  if g_locked g then Ok (set_lock g false (wake_first (g_waiters g)))
  else raise RuntimeError "Lock is not acquired.".

(** A task that waits for the lock can run: its future is done. *)
Definition waiter_ready (i : nat) (g : gate) : bool :=
  existsb (fun w => bool_decide (w.1 = i) && negb (bool_decide (w.2 = Pending))) (g_waiters g).
Definition waiter_woken (i : nat) (g : gate) : bool := bool_decide ((i, Woken) ∈ g_waiters g).

Section Gates.
Context {K : Type} `{EqDecision K}.

(** ** The dictionary of gates *)

Record gates := { gs_dict : list (K * nat); gs_heap : list gate }.

Definition no_gates : gates := {| gs_dict := []; gs_heap := [] |}.

Definition gate_at (gid : nat) (s : gates) : gate := default new_gate (gs_heap s !! gid).
Definition update_gate (gid : nat) (f : gate → gate) (s : gates) : gates :=
  {| gs_dict := gs_dict s; gs_heap := <[gid := f (gate_at gid s)]> (gs_heap s) |}.
Definition pop_gate (k : K) (s : gates) : gates :=
  {| gs_dict := assoc_pop k (gs_dict s); gs_heap := gs_heap s |}.

(** The gate of a key, created when there is none and room for it. *)
Definition find_gate (k : K) : st gates nat := fun s =>
  match assoc_get k (gs_dict s) with
  | Some gid => (s, Ok gid)
  | None =>
      if MAX_OPERATION_GATES <=? zlen (gs_dict s)
      then (s, raise BrokerReplicaLifecycleError "replica operation capacity is exhausted")
      else let gid := length (gs_heap s) in
           ({| gs_dict := assoc_set k gid (gs_dict s); gs_heap := gs_heap s ++ [new_gate] |}, Ok gid)
  end.

(** [_acquire_operation_gate] up to the lock: the gate, and whether task [i]
    holds it already or has to wait. *)
Definition enter_gate (i : nat) (k : K) : st gates (nat * bool) :=
  let^ gid := find_gate k in
  fun s =>
    let g := add_users 1 (gate_at gid s) in
    let '(g', acquired) := lock_try i g in
    (update_gate gid (fun _ => g') s, Ok (gid, acquired)).

(** Its [except BaseException]: what a task that leaves early gives back. *)
Definition leave_gate (k : K) (gid : nat) (acquired : bool) : st gates unit := fun s =>
  match (if acquired then lock_release (gate_at gid s) else Ok (gate_at gid s)) with
  | Raise e => (s, Raise e)
  | Ok g =>
      let g := add_users (-1) g in
      let s := update_gate gid (fun _ => g) s in
      (if (g_users g =? 0) && negb (g_locked g) then pop_gate k s else s, Ok tt)
  end.

(** The lock's await ends with [CancelledError]. *)
Definition cancelled_gate (i : nat) (k : K) (gid : nat) : st gates unit := fun s =>
  leave_gate k gid false (update_gate gid (lock_cancelled i) s).

(** [_release_operation_gate] *)
Definition release_gate (k : K) (gid : nat) : st gates unit := fun s =>
  let g := gate_at gid s in
  if bool_decide (assoc_get k (gs_dict s) = Some gid) && g_locked g && (1 <=? g_users g)
  then match lock_release g with
       | Raise e => (s, Raise e)
       | Ok g =>
           let g := add_users (-1) g in
           let s := update_gate gid (fun _ => g) s in
           (if g_users g =? 0 then pop_gate k s else s, Ok tt)
       end
  else (s, raise BrokerReplicaLifecycleError "replica operation gate state is invalid").

(** ** Who uses the gates

    A task inside [_acquire_operation_gate] or past it is a client of its
    gate, which it waits for or holds. *)
Record client := { c_key : K; c_gate : nat; c_holds : bool }.

Definition users (k : K) (C : gmap nat client) : gmap nat client :=
  filter (fun x => c_key x.2 = k) C.

(** No future is woken but the first; the first is, unless the lock is held or
    the first was cancelled. *)
Definition queue_ok (locked : bool) (ws : list (nat * waiter)) : Prop :=
  match ws with
  | [] => True
  | w :: r => Forall (fun x => x.2 ≠ Woken) r ∧ (if locked then w.2 ≠ Woken else w.2 ≠ Pending)
  end.

Record gate_ok (U : gmap nat client) (g : gate) : Prop := {
  ok_users : g_users g = Z.of_nat (size U);
  ok_nodup : NoDup (map fst (g_waiters g));
  ok_waits : ∀ i, i ∈ map fst (g_waiters g) ↔ ∃ c, U !! i = Some c ∧ c_holds c = false;
  ok_locked : g_locked g = true ↔ ∃ i c, U !! i = Some c ∧ c_holds c = true;
  ok_unique : ∀ i j c d, U !! i = Some c → c_holds c = true → U !! j = Some d → c_holds d = true → i = j;
  ok_queue : queue_ok (g_locked g) (g_waiters g);
}.

Record gates_ok (s : gates) (C : gmap nat client) : Prop := {
  ok_keys : NoDup (map fst (gs_dict s));
  ok_gate : ∀ k gid, assoc_get k (gs_dict s) = Some gid →
    (gid < length (gs_heap s))%nat ∧ users k C ≠ ∅ ∧ gate_ok (users k C) (gate_at gid s);
  ok_client : ∀ i c, C !! i = Some c → assoc_get (c_key c) (gs_dict s) = Some (c_gate c);
  ok_distinct : ∀ k k' gid, assoc_get k (gs_dict s) = Some gid →
    assoc_get k' (gs_dict s) = Some gid → k = k';
  ok_bound : zlen (gs_dict s) <= MAX_OPERATION_GATES;
}.

Lemma no_gates_ok : gates_ok no_gates ∅.
Proof. split; cbn; try done. constructor. Qed.

(** *** The users of a key *)

Lemma users_lookup k C i c : users k C !! i = Some c ↔ C !! i = Some c ∧ c_key c = k.
Proof. apply map_lookup_filter_Some. Qed.

Lemma users_insert k C i c : c_key c = k → users k (<[i := c]> C) = <[i := c]> (users k C).
Proof. intros H. by apply map_filter_insert_True. Qed.

Lemma users_insert_ne k C i c : c_key c ≠ k → (∀ d, C !! i = Some d → c_key d ≠ k) →
  users k (<[i := c]> C) = users k C.
Proof.
  intros H H0. unfold users. rewrite map_filter_insert_False by done.
  apply map_eq. intros j. apply option_eq. intros d. rewrite !map_lookup_filter_Some.
  rewrite lookup_delete_Some. split; [tauto|]. intros [Hd Hk]. split_and!; try done.
  intros <-. by apply (H0 d).
Qed.

Lemma users_delete k C i : users k (delete i C) = delete i (users k C).
Proof. apply map_filter_delete. Qed.

Lemma users_delete_ne k C i c : C !! i = Some c → c_key c ≠ k → users k (delete i C) = users k C.
Proof.
  intros Hi Hk. rewrite users_delete. apply delete_id.
  apply map_lookup_filter_None. right. intros d Hd. cbn. congruence.
Qed.

Lemma users_fresh k C i c : (∀ j d, C !! j = Some d → c_key d ≠ k) → c_key c = k →
  users k (<[i := c]> C) = {[i := c]}.
Proof.
  intros H Hk. rewrite users_insert by done.
  assert (users k C = ∅) as ->; [|done]. apply map_empty. intros j.
  apply map_lookup_filter_None. right. intros d Hd. by apply (H j).
Qed.

(** *** The queue of one lock *)

Lemma remove_waiter_fst i ws j : j ∈ map fst (remove_waiter i ws) ↔ j ∈ map fst ws ∧ j ≠ i.
Proof.
  unfold remove_waiter. rewrite !list_elem_of_fmap. split.
  - intros ([x w] & -> & H). apply list_elem_of_filter in H as [H1 H2]. split; [by exists (x, w)|done].
  - intros [([x w] & -> & H) Hi]. exists (x, w). split; [done|]. by apply list_elem_of_filter.
Qed.

Lemma remove_waiter_nodup i ws : NoDup (map fst ws) → NoDup (map fst (remove_waiter i ws)).
Proof.
  intros H. eapply sublist_NoDup; [exact H|]. apply sublist_map, sublist_filter.
Qed.

Lemma remove_waiter_out i ws : i ∉ map fst ws → remove_waiter i ws = ws.
Proof.
  intros H. unfold remove_waiter. induction ws as [|w ws IH]; [done|].
  rewrite filter_cons_True; [f_equal; apply IH|]; intros E; apply H; [by right|]. cbn. rewrite E. left.
Qed.

Lemma remove_waiter_Forall (P : nat * waiter → Prop) i ws :
  Forall P ws → Forall P (remove_waiter i ws).
Proof. rewrite !Forall_forall. intros H x Hx. by apply list_elem_of_filter in Hx as [_ ?%H]. Qed.

Lemma wake_first_fst ws : map fst (wake_first ws) = map fst ws.
Proof. by destruct ws as [|[i []] ws]. Qed.

(** Outside a held lock no future but the first is woken. *)
Lemma queue_locked ws : queue_ok true ws ↔ Forall (fun x => x.2 ≠ Woken) ws.
Proof. destruct ws as [|w ws]; cbn; [by rewrite Forall_nil|]. rewrite Forall_cons. tauto. Qed.

Lemma wake_first_ok ws : Forall (fun x => x.2 ≠ Woken) ws → queue_ok false (wake_first ws).
Proof. destruct ws as [|[i []] ws]; cbn; [done|..]; intros [? ?]%Forall_cons; done. Qed.

Lemma queue_remove locked i ws : NoDup (map fst ws) → queue_ok locked ws →
  queue_ok locked (if locked then remove_waiter i ws else wake_first (remove_waiter i ws)).
Proof.
  intros Hn H. destruct locked.
  - apply queue_locked in H. apply queue_locked. by apply remove_waiter_Forall.
  - destruct ws as [|[j w] ws]; [done|]. cbn [queue_ok snd] in H. destruct H as [H Hw].
    apply (remove_waiter_Forall _ i) in H. unfold remove_waiter in *. destruct (decide (j = i)) as [->|Hj].
    + rewrite filter_cons_False by (cbn; tauto). by apply wake_first_ok.
    + rewrite filter_cons_True by done. by destruct w.
Qed.

Lemma queue_cancel locked (i : nat) ws : queue_ok locked ws →
  queue_ok locked (map (fun w => if bool_decide (w = (i, Pending)) then (i, Cancelled) else w) ws).
Proof.
  destruct ws as [|w ws]; [done|]. cbn [queue_ok map]. intros [H Hw]. split.
  - apply Forall_map. eapply Forall_impl; [exact H|]. intros x Hx. cbn. by case_bool_decide.
  - case_bool_decide; [by destruct locked|done].
Qed.

Lemma cancel_waiter_fst (i : nat) ws :
  map fst (map (fun w => if bool_decide (w = (i, Pending)) then (i, Cancelled) else w) ws) = map fst ws.
Proof. rewrite map_map. apply map_ext. intros [j w]. case_bool_decide as E; [by injection E as -> _|done]. Qed.

(** A woken future is the first of a lock that is free. *)
Lemma queue_woken locked i ws : queue_ok locked ws → (i, Woken) ∈ ws →
  locked = false ∧ ∃ r, ws = (i, Woken) :: r ∧ Forall (fun x => x.2 ≠ Woken) r.
Proof.
  destruct ws as [|w ws]; [by intros _ ?%elem_of_nil|]. intros [H Hw] Hi.
  apply elem_of_cons in Hi as [<-|Hi].
  - destruct locked; [done|]. eauto.
  - rewrite Forall_forall in H. by specialize (H _ Hi).
Qed.

(** *** One gate, its clients changing *)

Lemma gate_try_ok U g i c : gate_ok U g → U !! i = None →
  c_holds c = (lock_try i (add_users 1 g)).2 →
  gate_ok (<[i := c]> U) (lock_try i (add_users 1 g)).1.
Proof.
  intros [Hu Hn Hw Hl Hun Hq] Hi. unfold lock_try. cbn [g_locked g_waiters add_users].
  destruct (negb (g_locked g) && _) eqn:E; cbn [fst snd]; intros Hc.
  - apply andb_true_iff in E as [El%negb_true_iff Ea].
    assert (Hfree : ∀ j d, U !! j = Some d → c_holds d = true → False).
    { intros j d Hj Hd. assert (g_locked g = true) by (apply Hl; eauto). congruence. }
    split; cbn [g_users g_locked g_waiters set_lock add_users].
    + rewrite map_size_insert_None by done. lia.
    + done.
    + intros j. rewrite Hw. split; intros (d & Hd & Hh).
      * exists d. split; [|done]. rewrite lookup_insert_ne; [done|]. intros <-. congruence.
      * apply lookup_insert_Some in Hd as [[<- <-]|[_ Hd]]; [congruence|eauto].
    + split; [|done]. intros _. exists i, c. by rewrite lookup_insert_eq.
    + intros j k d e Hd Hhd He Hhe.
      apply lookup_insert_Some in Hd as [[<- <-]|[_ Hd]]; [|by destruct (Hfree _ _ Hd)].
      apply lookup_insert_Some in He as [[<- <-]|[_ He]]; [done|by destruct (Hfree _ _ He)].
    + apply queue_locked, Forall_forall. intros x Hx Hx2. rewrite forallb_forall in Ea.
      apply list_elem_of_In in Hx. apply Ea in Hx. apply bool_decide_eq_true in Hx. congruence.
  - assert (Hiw : i ∉ map fst (g_waiters g)).
    { intros (d & Hd & _)%Hw. congruence. }
    split; cbn [g_users g_locked g_waiters set_lock add_users].
    + rewrite map_size_insert_None by done. lia.
    + rewrite map_app. apply NoDup_app. split_and!; [done| |apply NoDup_singleton].
      intros j Hj Hj'. cbn in Hj'. apply list_elem_of_singleton in Hj' as ->. done.
    + intros j. rewrite map_app, elem_of_app, Hw. cbn. rewrite list_elem_of_singleton. split.
      * intros [(d & Hd & Hh)| ->]; [|exists c; by rewrite lookup_insert_eq].
        exists d. rewrite lookup_insert_ne; [done|]. intros <-. congruence.
      * intros (d & Hd & Hh). apply lookup_insert_Some in Hd as [[<- <-]|[_ Hd]]; [by right|eauto].
    + rewrite Hl. split; intros (j & d & Hd & Hh).
      * exists j, d. split; [|done]. rewrite lookup_insert_ne; [done|]. intros <-. congruence.
      * apply lookup_insert_Some in Hd as [[<- <-]|[_ Hd]]; [congruence|eauto].
    + intros j k d e Hd Hhd He Hhe.
      apply lookup_insert_Some in Hd as [[<- <-]|[_ Hd]]; [congruence|].
      apply lookup_insert_Some in He as [[<- <-]|[_ He]]; [congruence|by apply (Hun j k d e)].
    + destruct (g_waiters g) as [|w ws] eqn:Ews; cbn.
      * split; [by constructor|]. by destruct (g_locked g).
      * cbn in Hq. destruct Hq as [H1 H2]. split; [|done]. apply Forall_app. split; [done|by repeat constructor].
Qed.

Lemma gate_resume_ok U g i c d : gate_ok U g → U !! i = Some c → c_holds c = false →
  (i, Woken) ∈ g_waiters g → c_holds d = true → gate_ok (<[i := d]> U) (lock_resume i g).
Proof.
  intros [Hu Hn Hw Hl Hun Hq] Hi Hc Hwk Hd.
  destruct (queue_woken _ _ _ Hq Hwk) as (El & r & Er & Hr).
  assert (Hfree : ∀ j e, U !! j = Some e → c_holds e = true → False).
  { intros j e Hj He. assert (g_locked g = true) by (apply Hl; eauto). congruence. }
  split; cbn [g_users g_locked g_waiters set_lock lock_resume].
  - by rewrite map_size_insert_Some.
  - by apply remove_waiter_nodup.
  - intros j. rewrite remove_waiter_fst, Hw. split.
    + intros [(e & He & Hh) Hj]. exists e. by rewrite lookup_insert_ne.
    + intros (e & He & Hh). apply lookup_insert_Some in He as [[<- <-]|[Hj He]]; [congruence|].
      split; [eauto|done].
  - split; [|done]. intros _. exists i, d. by rewrite lookup_insert_eq.
  - intros j k e f He Hhe Hf Hhf.
    apply lookup_insert_Some in He as [[<- <-]|[_ He]]; [|by destruct (Hfree _ _ He)].
    apply lookup_insert_Some in Hf as [[<- <-]|[_ Hf]]; [done|by destruct (Hfree _ _ Hf)].
  - apply queue_locked. rewrite Er in *. apply (remove_waiter_Forall _ i) in Hr.
    unfold remove_waiter in *. by rewrite filter_cons_False by (cbn; tauto).
Qed.

Lemma gate_cancel_ok U g i : gate_ok U g → gate_ok U (cancel_waiter i g).
Proof.
  intros [Hu Hn Hw Hl Hun Hq]. unfold cancel_waiter.
  split; cbn [g_users g_locked g_waiters set_lock]; rewrite ?cancel_waiter_fst; try done.
  by apply queue_cancel.
Qed.

(** A waiter, or the holder, is gone. *)
Lemma gate_cancelled_ok U g i c : gate_ok U g → U !! i = Some c → c_holds c = false →
  gate_ok (delete i U) (add_users (-1) (lock_cancelled i g)).
Proof.
  intros [Hu Hn Hw Hl Hun Hq] Hi Hc. unfold lock_cancelled.
  set (ws := if g_locked g then _ else _).
  assert (Hf : map fst ws = map fst (remove_waiter i (g_waiters g))).
  { unfold ws. destruct (g_locked g); [done|apply wake_first_fst]. }
  split; cbn [g_users g_locked g_waiters set_lock add_users]; rewrite ?Hf.
  - rewrite Hu, map_size_delete, Hi. pose proof (map_size_ne_0_lookup_2 U i ltac:(eauto)). lia.
  - by apply remove_waiter_nodup.
  - intros j. rewrite remove_waiter_fst, Hw. split.
    + intros [(e & He & Hh) Hj]. exists e. by rewrite lookup_delete_ne.
    + intros (e & He & Hh). apply lookup_delete_Some in He as [Hj He]. split; [eauto|done].
  - rewrite Hl. split; intros (j & e & He & Hh).
    + exists j, e. rewrite lookup_delete_ne; [done|]. intros <-. congruence.
    + apply lookup_delete_Some in He as [_ He]. eauto.
  - intros j k e f He Hhe Hf' Hhf. apply lookup_delete_Some in He as [_ He].
    apply lookup_delete_Some in Hf' as [_ Hf']. by apply (Hun j k e f).
  - by apply queue_remove.
Qed.

Lemma gate_release_ok U g i c : gate_ok U g → U !! i = Some c → c_holds c = true →
  ∃ g', lock_release g = Ok g' ∧ gate_ok (delete i U) (add_users (-1) g')
        ∧ g_users g' = g_users g ∧ g_locked g' = false.
Proof.
  intros [Hu Hn Hw Hl Hun Hq] Hi Hc. assert (El : g_locked g = true) by (apply Hl; eauto).
  unfold lock_release. rewrite El. eexists. split; [done|]. split; [|done].
  rewrite El in Hq. apply queue_locked in Hq.
  split; cbn [g_users g_locked g_waiters set_lock add_users]; rewrite ?wake_first_fst; try done.
  - rewrite Hu, map_size_delete, Hi. pose proof (map_size_ne_0_lookup_2 U i ltac:(eauto)). lia.
  - intros j. rewrite Hw. split; intros (e & He & Hh).
    + exists e. rewrite lookup_delete_ne; [done|]. intros <-. congruence.
    + apply lookup_delete_Some in He as [_ He]. eauto.
  - split; [done|]. intros (j & e & He & Hh). apply lookup_delete_Some in He as [Hj He].
    by destruct Hj; apply (Hun i j c e).
  - intros j k e f He Hhe Hf Hhf. apply lookup_delete_Some in He as [_ He].
    apply lookup_delete_Some in Hf as [_ Hf]. by apply (Hun j k e f).
  - by apply wake_first_ok.
Qed.

(** *** The dictionary *)

Lemma gate_at_update gid f s : (gid < length (gs_heap s))%nat →
  gate_at gid (update_gate gid f s) = f (gate_at gid s).
Proof. intros H. unfold gate_at, update_gate. cbn. by rewrite list_lookup_insert_eq. Qed.

Lemma gate_at_update_ne gid gid' f s : gid ≠ gid' → gate_at gid' (update_gate gid f s) = gate_at gid' s.
Proof. intros H. unfold gate_at, update_gate. cbn. by rewrite list_lookup_insert_ne. Qed.

(** The clients of one key change with its gate. *)
Lemma gates_step s C C' k gid f : gates_ok s C → assoc_get k (gs_dict s) = Some gid →
  (∀ k', k' ≠ k → users k' C' = users k' C) → users k C' ≠ ∅ →
  (∀ i c, users k C' !! i = Some c → c_gate c = gid) →
  gate_ok (users k C') (f (gate_at gid s)) → gates_ok (update_gate gid f s) C'.
Proof.
  intros [Hk Hg Hc Hd Hb] Hget Hne Hnn Hgid Hok. split; cbn [gs_dict update_gate]; try done.
  - intros k' gid' H'. destruct (Hg _ _ H') as (Hlt & Hu & Ho). cbn [gs_heap update_gate].
    rewrite length_insert. destruct (decide (k' = k)) as [->|Hkk].
    + assert (gid' = gid) as -> by congruence. by rewrite gate_at_update.
    + rewrite gate_at_update_ne by (intros <-; by apply Hkk, (Hd _ _ gid)). by rewrite Hne.
  - intros i c Hi. destruct (decide (c_key c = k)) as [Ek|Ek].
    + rewrite (Hgid i c) by (by apply users_lookup). by rewrite Ek.
    + apply (Hc i). apply (users_lookup (c_key c)). rewrite <- Hne by done. by apply users_lookup.
Qed.

(** The last client of a key leaves. *)
Lemma gates_drop s C C' k gid f : gates_ok s C → assoc_get k (gs_dict s) = Some gid →
  (∀ k', k' ≠ k → users k' C' = users k' C) → users k C' = ∅ →
  gates_ok (pop_gate k (update_gate gid f s)) C'.
Proof.
  intros [Hk Hg Hc Hd Hb] Hget Hne Hnn.
  assert (Hpop : ∀ k' gid', assoc_get k' (assoc_pop k (gs_dict s)) = Some gid' ↔
                   k' ≠ k ∧ assoc_get k' (gs_dict s) = Some gid').
  { intros k' gid'. rewrite assoc_pop_without, assoc_get_without by done. case_bool_decide; split; [done|by intros []|done|by intros []]. }
  split; cbn [gs_dict gs_heap update_gate pop_gate].
  - rewrite assoc_pop_without by done. by apply without_NoDup.
  - intros k' gid' [Hkk H']%Hpop. destruct (Hg _ _ H') as (Hlt & Hu & Ho). rewrite length_insert.
    change (gate_at gid' (pop_gate k (update_gate gid f s))) with (gate_at gid' (update_gate gid f s)).
    rewrite gate_at_update_ne by (intros <-; by apply Hkk, (Hd _ _ gid)). by rewrite Hne.
  - intros i c Hi. apply Hpop. destruct (decide (c_key c = k)) as [Ek|Ek].
    + assert (users k C' !! i = Some c) as E by (by apply users_lookup). by rewrite Hnn in E.
    + split; [done|]. apply (Hc i), (users_lookup (c_key c)). rewrite <- Hne by done. by apply users_lookup.
  - intros k1 k2 gid' [_ H1]%Hpop [_ H2]%Hpop. by apply (Hd _ _ gid').
  - rewrite assoc_pop_without by done. pose proof (sublist_length _ _ (without_sublist [k] (gs_dict s))).
    unfold zlen in *. lia.
Qed.

(** The first client of a key enters. *)
Lemma gates_new s C k i c g : gates_ok s C → assoc_get k (gs_dict s) = None →
  zlen (gs_dict s) < MAX_OPERATION_GATES → c_key c = k → c_gate c = length (gs_heap s) → C !! i = None →
  gate_ok {[i := c]} g →
  gates_ok {| gs_dict := assoc_set k (length (gs_heap s)) (gs_dict s);
              gs_heap := <[length (gs_heap s) := g]> (gs_heap s ++ [new_gate]) |} (<[i := c]> C).
Proof.
  intros [Hk Hg Hc Hd Hb] Hget Hlt Hck Hcg Hi Hok.
  assert (Hfresh : ∀ j d, C !! j = Some d → c_key d ≠ k) by (intros j d Hj E; apply Hc in Hj; congruence).
  assert (Hnew : ∀ k' gid', assoc_get k' (gs_dict s) = Some gid' → gid' ≠ length (gs_heap s))
    by (intros k' gid' H'; apply Hg in H' as [? _]; lia).
  split; cbn [gs_dict gs_heap].
  - by apply assoc_set_keys.
  - intros k' gid'. rewrite assoc_get_set, length_insert, length_app. cbn [length].
    unfold gate_at; cbn [gs_heap]. case_bool_decide as E.
    + intros [= <-]. subst k'. rewrite users_fresh by done. split_and!; [lia|apply map_non_empty_singleton|].
      rewrite list_lookup_insert_eq by (rewrite length_app; cbn; lia). done.
    + intros H'. destruct (Hg _ _ H') as (Hl & Hu & Ho). specialize (Hnew _ _ H').
      rewrite users_insert_ne by (try (intros d Hd'; rewrite Hi in Hd'); congruence).
      split_and!; [lia|done|]. rewrite list_lookup_insert_ne by done.
      rewrite lookup_app_l by done. exact Ho.
  - intros j d [[<- <-]|[_ Hj]]%lookup_insert_Some; rewrite assoc_get_set.
    + rewrite bool_decide_true by done. by rewrite Hcg.
    + rewrite bool_decide_false by (intros E; by apply (Hfresh j d)). by apply (Hc j).
  - intros k1 k2 gid'. rewrite !assoc_get_set. do 2 case_bool_decide; try congruence; intros H1 H2.
    + injection H1 as <-. by apply Hnew in H2.
    + injection H2 as <-. by apply Hnew in H1.
    + by apply (Hd _ _ gid').
  - rewrite assoc_set_fresh by (by apply assoc_get_none). rewrite zlen_app. unfold zlen at 2. cbn. lia.
Qed.

Lemma users_step_insert k C i c k' : c_key c = k → (∀ d, C !! i = Some d → c_key d = k) → k' ≠ k →
  users k' (<[i := c]> C) = users k' C.
Proof. intros H H0 Hk. apply users_insert_ne; [congruence|]. intros d Hd. apply H0 in Hd. congruence. Qed.

Lemma users_gate s C k gid i c : gates_ok s C → assoc_get k (gs_dict s) = Some gid →
  users k C !! i = Some c → c_gate c = gid.
Proof. intros H Hget [Hi Hk]%users_lookup. apply (ok_client _ _ H) in Hi. congruence. Qed.

Lemma users_nonempty k C i c : C !! i = Some c → c_key c = k → users k C ≠ ∅.
Proof.
  intros Hi Hk E. assert (users k C !! i = Some c) as Hu by (by apply users_lookup). by rewrite E in Hu.
Qed.

(** ** The operations keep the gates *)

Lemma enter_gate_ok s C i k : gates_ok s C → C !! i = None →
  match enter_gate i k s with
  | (s', Ok (gid, held)) => gates_ok s' (<[i := {| c_key := k; c_gate := gid; c_holds := held |}]> C)
  | (s', Raise e) => s' = s ∧ zlen (gs_dict s) = MAX_OPERATION_GATES
                     ∧ exn_class e = BrokerReplicaLifecycleError
  end.
Proof.
  intros H Hi. unfold enter_gate, st_bind, find_gate. destruct (assoc_get k (gs_dict s)) as [gid|] eqn:E.
  - destruct (ok_gate _ _ H _ _ E) as (Hlt & Hu & Ho).
    destruct (lock_try i (add_users 1 (gate_at gid s))) as [g' held] eqn:El.
    set (c := {| c_key := k; c_gate := gid; c_holds := held |}).
    assert (Hui : users k C !! i = None) by (apply map_lookup_filter_None; by left).
    apply (gates_step s C _ k gid); try done.
    + intros k' Hk. apply (users_step_insert k); [done|congruence|done].
    + apply (users_nonempty _ _ i c); [apply lookup_insert_eq|done].
    + intros j d. rewrite users_insert by done.
      intros [[<- <-]|[_ Hj]]%lookup_insert_Some; [done|by apply (users_gate s C k _ j)].
    + rewrite users_insert by done. cbn beta.
      pose proof (gate_try_ok (users k C) (gate_at gid s) i c Ho Hui) as G. rewrite El in G. by apply G.
  - destruct (Z.leb_spec MAX_OPERATION_GATES (zlen (gs_dict s))) as [Hge|Hlt].
    { split_and!; [done| |done]. pose proof (ok_bound _ _ H). lia. }
    unfold update_gate. cbn [gs_dict gs_heap].
    unfold gate_at at 1. cbn [gs_heap]. rewrite lookup_app_r, Nat.sub_diag by lia. cbn [default lookup list_lookup].
    change (lock_try i (add_users 1 new_gate)) with (set_lock (add_users 1 new_gate) true [], true).
    cbn beta iota. apply gates_new; try done.
    split; cbn; try done; [|constructor| | |].
    + by rewrite map_size_singleton.
    + intros j. split; [by intros ?%elem_of_nil|]. intros (d & Hd & Hh).
      apply lookup_singleton_Some in Hd as [_ <-]. done.
    + split; [|done]. intros _. eexists i, _. by rewrite lookup_singleton_eq.
    + intros j l d e Hj _ Hl _. apply lookup_singleton_Some in Hj as [<- _].
      by apply lookup_singleton_Some in Hl as [<- _].
Qed.

Lemma resume_gate_ok s C i k gid : gates_ok s C →
  C !! i = Some {| c_key := k; c_gate := gid; c_holds := false |} →
  (i, Woken) ∈ g_waiters (gate_at gid s) →
  gates_ok (update_gate gid (lock_resume i) s) (<[i := {| c_key := k; c_gate := gid; c_holds := true |}]> C).
Proof.
  intros H Hi Hw. pose proof (ok_client _ _ H _ _ Hi) as E. cbn in E.
  destruct (ok_gate _ _ H _ _ E) as (Hlt & Hu & Ho).
  set (c := {| c_key := k; c_gate := gid; c_holds := true |}).
  apply (gates_step s C _ k gid); try done.
  - intros k' Hk. apply (users_step_insert k); [done| |done]. intros d Hd. by simplify_eq.
  - apply (users_nonempty _ _ i c); [apply lookup_insert_eq|done].
  - intros j d. rewrite users_insert by done.
    intros [[<- <-]|[_ Hj]]%lookup_insert_Some; [done|by apply (users_gate s C k _ j)].
  - rewrite users_insert by done.
    apply (gate_resume_ok _ _ _ {| c_key := k; c_gate := gid; c_holds := false |}); try done.
    by apply users_lookup.
Qed.

Lemma cancel_gate_ok s C i k gid : gates_ok s C → assoc_get k (gs_dict s) = Some gid →
  gates_ok (update_gate gid (cancel_waiter i) s) C.
Proof.
  intros H E. destruct (ok_gate _ _ H _ _ E) as (Hlt & Hu & Ho).
  apply (gates_step s C _ k gid); try done; [intros j d; by apply (users_gate s C k _ j)|].
  by apply gate_cancel_ok.
Qed.

(** The last step of leaving: the gate is dropped with its last client. *)
Lemma gates_left s C k gid i c g b : gates_ok s C → assoc_get k (gs_dict s) = Some gid →
  C !! i = Some c → c_key c = k → gate_ok (delete i (users k C)) (add_users (-1) g) →
  b = bool_decide (g_users (add_users (-1) g) = 0) →
  gates_ok ((if b then pop_gate k else id) (update_gate gid (fun _ => add_users (-1) g) s)) (delete i C).
Proof.
  intros H E Hi Hk Hg ->. pose proof (ok_users _ _ Hg) as Hn.
  assert (Hne : ∀ k', k' ≠ k → users k' (delete i C) = users k' C)
    by (intros k' Hk'; apply (users_delete_ne _ _ _ c); congruence).
  case_bool_decide as E0.
  - apply (gates_drop s C _ k gid); try done. rewrite users_delete.
    apply map_size_empty_iff. rewrite E0 in Hn. lia.
  - apply (gates_step s C _ k gid); try done; rewrite users_delete; [| |done].
    + intros Ed. rewrite Ed, map_size_empty in Hn. done.
    + intros j d [_ Hj]%lookup_delete_Some. by apply (users_gate s C k _ j).
Qed.

Lemma cancelled_gate_ok s C i k gid : gates_ok s C →
  C !! i = Some {| c_key := k; c_gate := gid; c_holds := false |} →
  ∃ s', cancelled_gate i k gid s = (s', Ok tt) ∧ gates_ok s' (delete i C).
Proof.
  intros H Hi. pose proof (ok_client _ _ H _ _ Hi) as E. cbn in E.
  destruct (ok_gate _ _ H _ _ E) as (Hlt & Hu & Ho). eexists.
  unfold cancelled_gate, leave_gate. rewrite gate_at_update by done. split; [done|].
  set (g := lock_cancelled i (gate_at gid s)).
  assert (Hg : gate_ok (delete i (users k C)) (add_users (-1) g)).
  { apply (gate_cancelled_ok _ _ _ {| c_key := k; c_gate := gid; c_holds := false |}); try done.
    by apply users_lookup. }
  assert (update_gate gid (fun _ => add_users (-1) g) (update_gate gid (lock_cancelled i) s)
          = update_gate gid (fun _ => add_users (-1) g) s) as ->.
  { unfold update_gate. cbn. by rewrite list_insert_insert_eq. }
  pose proof (gates_left s C k gid i _ g _ H E Hi eq_refl Hg eq_refl) as G.
  destruct (Z.eqb_spec (g_users (add_users (-1) g)) 0) as [E0|E0]; [|by rewrite bool_decide_false in G].
  rewrite bool_decide_true in G by done.
  assert (g_locked (add_users (-1) g) = false) as ->; [|exact G].
  destruct (g_locked (add_users (-1) g)) eqn:El; [|done]. exfalso.
  apply (ok_locked _ _ Hg) in El as (j & d & Hj & _). pose proof (ok_users _ _ Hg) as Hn.
  rewrite E0 in Hn. pose proof (map_size_ne_0_lookup_2 (delete i (users k C)) j ltac:(eauto)). lia.
Qed.

Lemma leave_gate_ok s C i k gid : gates_ok s C →
  C !! i = Some {| c_key := k; c_gate := gid; c_holds := true |} →
  ∃ s', leave_gate k gid true s = (s', Ok tt) ∧ gates_ok s' (delete i C).
Proof.
  intros H Hi. pose proof (ok_client _ _ H _ _ Hi) as E. cbn in E.
  destruct (ok_gate _ _ H _ _ E) as (Hlt & Hu & Ho).
  destruct (gate_release_ok (users k C) _ i _ Ho (proj2 (users_lookup _ _ _ _) (conj Hi eq_refl)) eq_refl)
    as (g & Hr & Hg & Hgu & Hgl).
  unfold leave_gate. rewrite Hr. eexists. split; [done|].
  pose proof (gates_left s C k gid i _ g _ H E Hi eq_refl Hg eq_refl) as G.
  cbn [g_locked add_users]. rewrite Hgl, andb_true_r.
  destruct (Z.eqb_spec (g_users (add_users (-1) g)) 0) as [E0|E0];
    [by rewrite bool_decide_true in G|by rewrite bool_decide_false in G].
Qed.

Lemma release_gate_ok s C i k gid : gates_ok s C →
  C !! i = Some {| c_key := k; c_gate := gid; c_holds := true |} →
  ∃ s', release_gate k gid s = (s', Ok tt) ∧ gates_ok s' (delete i C).
Proof.
  intros H Hi. pose proof (ok_client _ _ H _ _ Hi) as E. cbn in E.
  destruct (ok_gate _ _ H _ _ E) as (Hlt & Hu & Ho).
  pose proof (proj2 (users_lookup k C i _) (conj Hi eq_refl)) as Hui.
  destruct (gate_release_ok (users k C) _ i _ Ho Hui eq_refl) as (g & Hr & Hg & Hgu & Hgl).
  unfold release_gate. rewrite Hr. rewrite bool_decide_true by done.
  assert (g_locked (gate_at gid s) = true) as -> by (apply (ok_locked _ _ Ho); eauto).
  assert ((1 <=? g_users (gate_at gid s)) = true) as ->.
  { apply Z.leb_le. rewrite (ok_users _ _ Ho).
    pose proof (map_size_ne_0_lookup_2 (users k C) i ltac:(eauto)). lia. }
  cbn [andb]. eexists. split; [done|].
  pose proof (gates_left s C k gid i _ g _ H E Hi eq_refl Hg eq_refl) as G.
  destruct (Z.eqb_spec (g_users (add_users (-1) g)) 0) as [E0|E0];
    [by rewrite bool_decide_true in G|by rewrite bool_decide_false in G].
Qed.

(** ** Every interleaving *)

(** What one task does between two awaits; a task cancelled before its future
    is done runs once the future is. *)
Inductive gate_step : gates * gmap nat client → gates * gmap nat client → Prop :=
  | GEnter i k s s' C gid held : C !! i = None → enter_gate i k s = (s', Ok (gid, held)) →
      gate_step (s, C) (s', <[i := {| c_key := k; c_gate := gid; c_holds := held |}]> C)
  | GRefused i k s s' C e : C !! i = None → enter_gate i k s = (s', Raise e) → gate_step (s, C) (s', C)
  | GCancel i c s C : C !! i = Some c →
      gate_step (s, C) (update_gate (c_gate c) (cancel_waiter i) s, C)
  | GResume i k gid s C : C !! i = Some {| c_key := k; c_gate := gid; c_holds := false |} →
      (i, Woken) ∈ g_waiters (gate_at gid s) →
      gate_step (s, C) (update_gate gid (lock_resume i) s,
                        <[i := {| c_key := k; c_gate := gid; c_holds := true |}]> C)
  | GCancelled i k gid s s' C r : C !! i = Some {| c_key := k; c_gate := gid; c_holds := false |} →
      waiter_ready i (gate_at gid s) = true → cancelled_gate i k gid s = (s', r) →
      gate_step (s, C) (s', delete i C)
  | GLeave i k gid s s' C r : C !! i = Some {| c_key := k; c_gate := gid; c_holds := true |} →
      leave_gate k gid true s = (s', r) → gate_step (s, C) (s', delete i C)
  | GRelease i k gid s s' C r : C !! i = Some {| c_key := k; c_gate := gid; c_holds := true |} →
      release_gate k gid s = (s', r) → gate_step (s, C) (s', delete i C).

Lemma gate_step_ok x y : gate_step x y → gates_ok x.1 x.2 → gates_ok y.1 y.2.
Proof.
  intros [i k s s' C gid held Hi E|i k s s' C e Hi E|i c s C Hi|i k gid s C Hi Hw
         |i k gid s s' C r Hi Hw E|i k gid s s' C r Hi E|i k gid s s' C r Hi E] H; cbn [fst snd] in *.
  - pose proof (enter_gate_ok s C i k H Hi) as G. by rewrite E in G.
  - pose proof (enter_gate_ok s C i k H Hi) as G. rewrite E in G. by destruct G as [-> _].
  - destruct c as [k gid h]. apply (cancel_gate_ok _ _ _ k); [done|]. apply (ok_client _ _ H _ _ Hi).
  - by apply resume_gate_ok.
  - destruct (cancelled_gate_ok _ _ _ _ _ H Hi) as (s2 & E2 & G). rewrite E2 in E. by injection E as <- _.
  - destruct (leave_gate_ok _ _ _ _ _ H Hi) as (s2 & E2 & G). rewrite E2 in E. by injection E as <- _.
  - destruct (release_gate_ok _ _ _ _ _ H Hi) as (s2 & E2 & G). rewrite E2 in E. by injection E as <- _.
Qed.

Lemma gates_holder s C i j c d : gates_ok s C → C !! i = Some c → C !! j = Some d →
  c_holds c = true → c_holds d = true → c_key c = c_key d → i = j.
Proof.
  intros H Hi Hj Hc Hd Hk. pose proof (ok_client _ _ H _ _ Hi) as E.
  destruct (ok_gate _ _ H _ _ E) as (_ & _ & Ho).
  apply (ok_unique _ _ Ho i j c d); try done; by apply users_lookup.
Qed.

(** A key with clients is never stuck: one of them holds the lock, or one of
    them has been woken or cancelled and can run. *)
Lemma gates_progress s C i c : gates_ok s C → C !! i = Some c →
  ∃ j d, C !! j = Some d ∧ c_key d = c_key c
         ∧ (c_holds d = true ∨ waiter_ready j (gate_at (c_gate d) s) = true).
Proof.
  intros H Hi. pose proof (ok_client _ _ H _ _ Hi) as E.
  destruct (ok_gate _ _ H _ _ E) as (_ & _ & Ho). set (g := gate_at (c_gate c) s) in *.
  destruct (g_locked g) eqn:El.
  { apply (ok_locked _ _ Ho) in El as (j & d & [Hj Hk]%users_lookup & Hh). exists j, d. tauto. }
  assert (Hh : c_holds c = false).
  { destruct (c_holds c) eqn:Eh; [|done].
    assert (g_locked g = true) by (apply (ok_locked _ _ Ho); exists i, c; by rewrite users_lookup).
    congruence. }
  assert (Hw : i ∈ map fst (g_waiters g)).
  { apply (ok_waits _ _ Ho). exists c. by rewrite users_lookup. }
  pose proof (ok_queue _ _ Ho) as Hq. rewrite El in Hq.
  destruct (g_waiters g) as [|[j w] ws] eqn:Ew; [by apply elem_of_nil in Hw|]. destruct Hq as [_ Hq].
  assert (Hj : j ∈ map fst (g_waiters g)) by (rewrite Ew; left).
  apply (ok_waits _ _ Ho) in Hj as (d & [Hj Hk]%users_lookup & Hd). exists j, d. split_and!; [done|done|right].
  assert (c_gate d = c_gate c) as ->.
  { pose proof (ok_client _ _ H _ _ Hj) as Ed. rewrite Hk, E in Ed. congruence. }
  fold g. unfold waiter_ready. rewrite Ew. cbn [existsb fst snd]. rewrite bool_decide_true by done.
  cbn in Hq. by rewrite bool_decide_false.
Qed.

(** C25. The gates do what they are for, in every interleaving of tasks that
    enter, wait, are woken or cancelled, leave early and release: at most one
    task holds the gate of an operation; there are at most 256 gates, one for
    each operation that has a task and none for another; giving a gate back
    never fails; and no wake-up is lost: while an operation has tasks, one of
    them holds its gate or can run. *)
Theorem operation_gates_exclusive (s : gates) (C : gmap nat client) :
  rtc gate_step (no_gates, ∅) (s, C) →
  (∀ i j c d, C !! i = Some c → C !! j = Some d → c_holds c = true → c_holds d = true →
     c_key c = c_key d → i = j)
  ∧ zlen (gs_dict s) <= MAX_OPERATION_GATES
  ∧ (∀ k, is_Some (assoc_get k (gs_dict s)) ↔ ∃ i c, C !! i = Some c ∧ c_key c = k)
  ∧ (∀ i k gid, C !! i = Some {| c_key := k; c_gate := gid; c_holds := true |} →
       (release_gate k gid s).2 = Ok tt ∧ (leave_gate k gid true s).2 = Ok tt)
  ∧ (∀ i c, C !! i = Some c → ∃ j d, C !! j = Some d ∧ c_key d = c_key c
       ∧ (c_holds d = true ∨ waiter_ready j (gate_at (c_gate d) s) = true)).
Proof.
  intros Hr. assert (H : gates_ok s C).
  { apply (rtc_ind_r (fun x => gates_ok x.1 x.2) (no_gates, ∅)) in Hr; [done|apply no_gates_ok|].
    intros x y _ Hs. by apply gate_step_ok. }
  split_and!.
  - intros i j c d. by apply gates_holder with (s := s).
  - apply (ok_bound _ _ H).
  - intros k. split.
    + intros [gid E]. destruct (ok_gate _ _ H _ _ E) as (_ & Hu & _).
      apply map_choose in Hu as (i & c & [Hi Hk]%users_lookup). eauto.
    + intros (i & c & Hi & <-). exists (c_gate c). by apply (ok_client _ _ H i).
  - intros i k gid Hi. destruct (release_gate_ok _ _ _ _ _ H Hi) as (s1 & -> & _).
    by destruct (leave_gate_ok _ _ _ _ _ H Hi) as (s2 & -> & _).
  - intros i c. by apply gates_progress.
Qed.
End Gates.
Arguments gates K : clear implicits.
Arguments client K : clear implicits.

(** Two tasks on one operation: the second waits until the first releases. *)
Definition example_holding : gates Z * gmap nat (client Z) :=
  ((enter_gate 0%nat 7 no_gates).1, {[0%nat := {| c_key := 7; c_gate := 0%nat; c_holds := true |}]}).
Definition example_waiting : gates Z * gmap nat (client Z) :=
  ((enter_gate 1%nat 7 example_holding.1).1,
   <[1%nat := {| c_key := 7; c_gate := 0%nat; c_holds := false |}]> example_holding.2).

Lemma example_waits : rtc gate_step (no_gates, ∅) example_waiting.
Proof.
  apply rtc_l with example_holding; [by apply (GEnter 0%nat 7 no_gates)|]. apply rtc_once.
  by apply (GEnter 1%nat 7 example_holding.1 _ example_holding.2).
Qed.

Lemma operation_gates_exclusive_witness :
  (release_gate 7 0%nat example_waiting.1).2 = Ok tt
  ∧ waiter_ready 1%nat (gate_at 0%nat example_waiting.1) = false
  ∧ waiter_ready 1%nat (gate_at 0%nat (release_gate 7 0%nat example_waiting.1).1) = true.
Proof.
  destruct (operation_gates_exclusive _ _ example_waits) as (_ & _ & _ & H & _).
  split; [|by vm_compute].
  exact (proj1 (H 0%nat 7 0%nat eq_refl)).
Defined.
