(* ===== verification/ReplicaLifecycle.v ===== *)
(** * The replica lifecycle coordinator

    Models [services/broker_replica_lifecycle.py]: the coordinator that drives
    a replica through the stages of its journal by effects of the outside
    world, under timeouts, cancellation and restarts.

    A call of [run] or [recover_incomplete] is a task: its code runs without
    interruption between two awaits, and what it awaits is its [phase]. The
    tasks share the coordinator's state; a machine interleaves them with the
    ends of the effects, the callbacks and cancellation. The journal is the
    model of [ReplicaJournal], so between any two of its statements other
    processes may append. *)

From S2P Require Import Prelude Text Json Crypto BrokerProtocol ReplicaContract ReplicaJournal OperationGates.

Definition MAX_ABANDONED_EFFECTS : Z := 32.

(** [_UNEXPECTED_ERROR_REASONS] *)
Definition UNEXPECTED_ERROR_REASONS (s : stage) : pystr :=
  match s with
  | Ingest => u"transfer_unknown"
  | Verify => u"verification_unknown"
  | Publish => u"publication_unknown"
  | Admission => u"admission_unknown"
  | Drain => u"acknowledgment_unknown"
  | Export => u"transfer_unknown"
  | Reclaim => u"effect_unknown"
  end.

(** ** Effects *)

Record StageReconciliation := {
  sr_outcome : pystr;
  sr_receipt : option receipt;
  sr_reason : option pystr;
}.

(** The constructor with its [__post_init__]. *)
Definition new_reconciliation (outcome : pystr) (r : option receipt) (reason : option pystr) :
    res StageReconciliation :=
  let ok := Ok {| sr_outcome := outcome; sr_receipt := r; sr_reason := reason |} in
  check! guard (mem_str outcome [u"completed"; u"not_applied"; u"unknown"]) ValueError
    "replica stage outcome is invalid" in
  if bool_decide (outcome = u"completed") then
    check! guard (negb (isnull r)) ValueError "replica completed outcome requires a receipt" in
    check! guard (isnull reason) ValueError "replica completed outcome must not carry a reason" in
    ok
  else
    check! guard (isnull r) ValueError "only a completed outcome may carry a receipt" in
    if bool_decide (outcome = u"unknown") then
      check! guard (match reason with Some (_ :: _) => true | _ => false end) ValueError
        "replica unknown outcome requires a reason" in
      ok
    else
      check! guard (isnull reason) ValueError "replica not-applied outcome must not carry a reason" in
      ok.

Definition unknown_outcome (reason : pystr) : StageReconciliation :=
  {| sr_outcome := u"unknown"; sr_receipt := None; sr_reason := Some reason |}.

(** The exceptions an effect may raise: [CancelledError], [StageRejected],
    [StageOutcomeUnknown] and any other [Exception]. *)
Inductive effect_exn :=
  | EffectCancelled
  | EffectRejected (status receipt_id : pystr)
  | EffectUnknown (reason : pystr)
  | EffectOther.

(** What the task of an effect ends with: a [StageReconciliation], another
    object, or an exception. *)
Inductive task_result :=
  | TaskReconciled (o : StageReconciliation)
  | TaskOther
  | TaskRaised (x : effect_exn).

(** What calling [apply] or [reconcile] does before anything is awaited. *)
Inductive invocation := InvokeRaises (x : effect_exn) | InvokeOther | InvokeTask.

(** A call of an effect; its task is named by its place in the list of calls. *)
Record call := { cl_ident : ident; cl_stage : stage; cl_reconcile : bool }.

(** ** The coordinator *)

Record ReplicaLifecycleContext := {
  cx_request : BrokerRequest;
  cx_authority : ReplicaAuthority;
  cx_owner : pystr;
}.

(** The fields that change, and the calls and results of the effects so far. *)
Record cstate := {
  cs_store : rstore;
  cs_clock : nat;
  cs_gates : gates pystr;
  cs_abandoned : gset nat;
  cs_uncertain : list (pystr * nat);
  cs_calls : list call;
  cs_results : list (nat * task_result);
}.

Definition with_store (x : rstore) (s : cstate) : cstate := {|
  cs_store := x; cs_clock := cs_clock s; cs_gates := cs_gates s; cs_abandoned := cs_abandoned s;
  cs_uncertain := cs_uncertain s; cs_calls := cs_calls s; cs_results := cs_results s |}.
Definition with_gates (x : gates pystr) (s : cstate) : cstate := {|
  cs_store := cs_store s; cs_clock := cs_clock s; cs_gates := x; cs_abandoned := cs_abandoned s;
  cs_uncertain := cs_uncertain s; cs_calls := cs_calls s; cs_results := cs_results s |}.
Definition with_uncertain (a : gset nat) (x : list (pystr * nat)) (s : cstate) : cstate := {|
  cs_store := cs_store s; cs_clock := cs_clock s; cs_gates := cs_gates s; cs_abandoned := a;
  cs_uncertain := x; cs_calls := cs_calls s; cs_results := cs_results s |}.

Definition journal_op {A} (m : st rstore A) : st cstate A := fun s =>
  let '(x, r) := m (cs_store s) in (with_store x s, r).
Definition gates_op {A} (m : st (gates pystr) A) : st cstate A := fun s =>
  let '(x, r) := m (cs_gates s) in (with_gates x s, r).

Definition add_call (c : call) : st cstate nat := fun s => ({|
  cs_store := cs_store s; cs_clock := cs_clock s; cs_gates := cs_gates s;
  cs_abandoned := cs_abandoned s; cs_uncertain := cs_uncertain s; cs_calls := cs_calls s ++ [c];
  cs_results := cs_results s |}, Ok (length (cs_calls s))).
Definition add_result (t : nat) (r : task_result) (s : cstate) : cstate := {|
  cs_store := cs_store s; cs_clock := cs_clock s; cs_gates := cs_gates s;
  cs_abandoned := cs_abandoned s; cs_uncertain := cs_uncertain s; cs_calls := cs_calls s;
  cs_results := cs_results s ++ [(t, r)] |}.
Definition task_done (t : nat) (s : cstate) : option task_result := assoc_get t (cs_results s).

(** [_abandon] and [_consume_abandoned] *)
Definition abandon (t : nat) (operation : pystr) : st cstate unit := fun s =>
  (with_uncertain (cs_abandoned s ∪ {[t]}) (assoc_set operation t (cs_uncertain s)) s, Ok tt).
Definition consume_abandoned (t : nat) (s : cstate) : cstate :=
  with_uncertain (cs_abandoned s ∖ {[t]})
    (List.filter (fun kv => negb (kv.2 =? t)%nat) (cs_uncertain s)) s.
Definition pop_uncertain (operation : pystr) : st cstate unit := fun s =>
  (with_uncertain (cs_abandoned s) (assoc_pop operation (cs_uncertain s)) s, Ok tt).

Section Lifecycle.
Context {SHA : Sha256} {ED : Ed25519} {RAW : Ed25519Raw}.

(** What the constructor keeps. *)
Record coordinator := {
  co_broker : pystr;
  co_keys : list (pystr * private_key);
  co_owner : pystr;
  co_wait : Z;
}.

Context (cfg : config) (env : nat → conn).

(** [__init__], less its checks of types and of the three durations;
    [owner] is [secrets.token_urlsafe(32)]. *)
Definition new_coordinator (broker : pystr) (keys : list (pystr * private_key)) (owner : pystr)
    (wait : Z) : res coordinator :=
  check! guard (negb (bool_decide (keys = []))) TypeError "replica broker private keyring is invalid" in
  check! guard (TOKEN_PATTERN broker) ValueError "replica broker incarnation is invalid" in
  check! guard (negb (isnull (assoc_get broker keys))) ValueError
    "replica current broker signer is missing" in
  check! mapM_res (fun kv => require_response_signer cfg kv.1 kv.2) keys in
  Ok {| co_broker := broker; co_keys := keys; co_owner := owner; co_wait := wait |}.

(** The coordinator, the readings of [time.monotonic] and what the calls of
    the effects do at once. *)
Context (co : coordinator) (clock : nat → Z) (world : nat → invocation).

Definition read_clock : st cstate Z := fun s => ({|
  cs_store := cs_store s; cs_clock := S (cs_clock s); cs_gates := cs_gates s;
  cs_abandoned := cs_abandoned s; cs_uncertain := cs_uncertain s; cs_calls := cs_calls s;
  cs_results := cs_results s |}, Ok (clock (cs_clock s))).

(** ** Terminal results *)

(** [_signing_key] *)
Definition signing_key (request : BrokerRequest) : res private_key :=
  match assoc_get (broker_incarnation request) (co_keys co) with
  | Some key => Ok key
  | None => raise BrokerReplicaLifecycleError "replica historical broker signer is unavailable"
  end.

(** The reason [_record_unresolved] settles on. *)
Definition settled_reason (s : stage) (reason : pystr) : res pystr :=
  match validate_unresolved_reason (stage_name s) reason with
  | Ok _ => Ok reason
  | Raise e =>
      if caught e [ReplicaJournalEffectResultError] then
        check! validate_unresolved_reason (stage_name s) (UNEXPECTED_ERROR_REASONS s) in
        Ok (UNEXPECTED_ERROR_REASONS s)
      else Raise e
  end.

(** [_record_unresolved] *)
Definition record_unresolved_ (request : BrokerRequest) (owner : pystr) (s : stage) (reason : pystr) :
    st cstate pybytes :=
  let^ reason := st_lift (settled_reason s reason) in
  let^ key := st_lift (signing_key request) in
  let^ response := st_lift (create_signed_response request key (u"error") (Some reason)
    [(u"stage", JStr (stage_name s)); (u"state", JStr (u"unresolved")); (u"code", JStr reason)]) in
  do^ journal_op (record_unresolved cfg env request owner (stage_name s) reason response) in
  do^ pop_uncertain (operation_id request) in
  st_ret response.

(** [_record_rejected] *)
Definition record_rejected_ (request : BrokerRequest) (owner : pystr) (s : stage)
    (status receipt_id : pystr) : st cstate pybytes :=
  match (let! r := new_rejected (JStr receipt_id) in
         check! validate_rejection (stage_name s) status r in Ok r) with
  | Raise e =>
      if caught e [ReplicaJournalEffectResultError; TypeError; ValueError]
      then record_unresolved_ request owner s (UNEXPECTED_ERROR_REASONS s)
      else st_lift (Raise e)
  | Ok r =>
      let^ key := st_lift (signing_key request) in
      let^ response := st_lift (create_signed_response request key (u"error") (Some status)
        [(u"stage", JStr (stage_name s)); (u"state", JStr (u"rejected")); (u"code", JStr status);
         (u"receipt_id", JStr receipt_id)]) in
      do^ journal_op (record_rejected cfg env request owner (stage_name s) status r response) in
      st_ret response
  end.

(** The journal call of [_persist_completed]: the signed response of the last
    stage, nothing for the others. *)
Definition complete_receipt (request : BrokerRequest) (owner : pystr) (r : receipt) :
    st cstate (option pybytes) :=
  match r with
  | RReclaim c =>
      let^ key := st_lift (signing_key request) in
      let^ response := st_lift (create_signed_response request key (u"ok") None
        [(u"stage", JStr (u"reclaim")); (u"state", JStr (u"completed"));
         (u"receipt_id", JStr (reclaim_receipt_id c))]) in
      do^ journal_op (complete_reclaim cfg env request owner c (Some response)) in
      st_ret (Some response)
  | RIngest c => do^ journal_op (complete_ingest cfg env request owner c None) in st_ret None
  | RVerify c => do^ journal_op (complete_verify cfg env request owner c None) in st_ret None
  | RPublish c => do^ journal_op (complete_publish cfg env request owner c None) in st_ret None
  | RAdmission c => do^ journal_op (complete_admission cfg env request owner c None) in st_ret None
  | RDrain c => do^ journal_op (complete_drain cfg env request owner c None) in st_ret None
  | RExport c => do^ journal_op (complete_export cfg env request owner c None) in st_ret None
  | ROther => st_lift (raise BrokerReplicaLifecycleError "replica completion stage is invalid")
  end.

(** [_persist_completed] *)
Definition persist_completed (c : ReplicaLifecycleContext) (s : stage) (r : option receipt) :
    st cstate (option pybytes) :=
  let unresolved :=
    let^ f := record_unresolved_ (cx_request c) (cx_owner c) s (UNEXPECTED_ERROR_REASONS s) in
    st_ret (Some f) in
  match r with
  | Some r =>
      if bool_decide (receipt_stage r = Some s) then
        match validate_stage_receipt (cx_request c) (cx_authority c) (stage_name s) r with
        | Ok _ => complete_receipt (cx_request c) (cx_owner c) r
        | Raise e => if caught e [ReplicaJournalEffectResultError] then unresolved else st_lift (Raise e)
        end
      else unresolved
  | None => unresolved
  end.

(** ** One attempt of a stage *)

(** What [_attempt] returns, or the frame of its [_StageTerminal]. *)
Inductive attempted := Answered (o : StageReconciliation) | StageTerminal (f : pybytes).

(** The [except] clauses of [_attempt], the same for the call and the task. *)
Definition effect_failed (c : ReplicaLifecycleContext) (s : stage) (x : effect_exn) :
    st cstate attempted :=
  match x with
  | EffectCancelled => st_ret (Answered (unknown_outcome (u"cancellation_unknown")))
  | EffectRejected status receipt_id =>
      let^ f := record_rejected_ (cx_request c) (cx_owner c) s status receipt_id in
      st_ret (StageTerminal f)
  | EffectUnknown reason =>
      let^ o := st_lift (new_reconciliation (u"unknown") None (Some reason)) in
      st_ret (Answered o)
  | EffectOther => st_ret (Answered (unknown_outcome (UNEXPECTED_ERROR_REASONS s)))
  end.

(** [_attempt] up to its await: the task it waits for, or its result. *)
Definition attempt (c : ReplicaLifecycleContext) (s : stage) (reconcile : bool) :
    st cstate (nat + attempted) :=
  let^ state := st_get in
  if MAX_ABANDONED_EFFECTS <=? Z.of_nat (size (cs_abandoned state))
  then st_ret (inr (Answered (unknown_outcome (u"timeout_unknown"))))
  else
    let^ t := add_call {| cl_ident := identity (cx_request c);
                          cl_stage := s; cl_reconcile := reconcile |} in
    match world t with
    | InvokeRaises x => let^ a := effect_failed c s x in st_ret (inr a)
    | InvokeOther => st_ret (inr (Answered (unknown_outcome (UNEXPECTED_ERROR_REASONS s))))
    | InvokeTask => st_ret (inl t)
    end.

(** [_attempt] after its await: the task is done, or the timeout has passed. *)
Definition attempt_ends (c : ReplicaLifecycleContext) (s : stage) (t : nat) : st cstate attempted :=
  let^ state := st_get in
  match task_done t state with
  | None =>
      do^ abandon t (operation_id (cx_request c)) in
      st_ret (Answered (unknown_outcome (u"timeout_unknown")))
  | Some (TaskReconciled o) => st_ret (Answered o)
  | Some TaskOther => st_ret (Answered (unknown_outcome (UNEXPECTED_ERROR_REASONS s)))
  | Some (TaskRaised x) => effect_failed c s x
  end.

(** The await of [_attempt] is cancelled. *)
Definition attempt_cancelled {A} (c : ReplicaLifecycleContext) (s : stage) (t : nat) : st cstate A :=
  do^ abandon t (operation_id (cx_request c)) in
  do^ record_unresolved_ (cx_request c) (cx_owner c) s (u"cancellation_unknown") in
  st_lift (raise CancelledError "").

(** ** Driving the stages *)

(** What is left to do when a suspended attempt has ended: the answer of a
    reconciliation is acted on by [_resume_started], that of an application by
    [_apply_stage], with the stages [_drive_from] has left. *)
Inductive continuation := Reconciling | Applying (rest : list stage).

(** How far a turn gets: to the await of an effect, or to its end. *)
Inductive turn_end :=
  | Suspended (c : ReplicaLifecycleContext) (s : stage) (k : continuation) (t : nat)
  | Returned (f : option pybytes).

(** [outcome.reason or _UNEXPECTED_ERROR_REASONS[stage]] *)
Definition reason_or_unexpected (s : stage) (o : StageReconciliation) : pystr :=
  match sr_reason o with
  | Some ((_ :: _) as reason) => reason
  | _ => UNEXPECTED_ERROR_REASONS s
  end.

(** The end of [_apply_stage], then the rest of the loop of [_drive_from]. *)
Definition apply_ends (c : ReplicaLifecycleContext) (s : stage) (a : attempted)
    (next : st cstate turn_end) : st cstate turn_end :=
  match a with
  | StageTerminal f => st_ret (Returned (Some f))
  | Answered o =>
      if bool_decide (sr_outcome o = u"completed") then
        let^ f := persist_completed c s (sr_receipt o) in
        match f with
        | Some f => st_ret (Returned (Some f))
        | None => next
        end
      else
        let^ f := record_unresolved_ (cx_request c) (cx_owner c) s (reason_or_unexpected s o) in
        st_ret (Returned (Some f))
  end.

(** The loop of [_drive_from] with the body [_apply_stage]. *)
Fixpoint drive (c : ReplicaLifecycleContext) (stages : list stage) : st cstate turn_end :=
  match stages with
  | [] => st_ret (Returned None)
  | s :: rest =>
      do^ journal_op (begin_stage cfg env (cx_request c) (cx_owner c) (stage_name s)) in
      let^ x := attempt c s false in
      match x with
      | inl t => st_ret (Suspended c s (Applying rest) t)
      | inr a => apply_ends c s a (drive c rest)
      end
  end.

(** [_drive_from] *)
Definition drive_from (c : ReplicaLifecycleContext) (s : stage) : st cstate turn_end :=
  drive c (drop (stage_index s) STAGES).

(** [_next_stage] *)
Definition next_stage (s : stage) : res stage :=
  match STAGES !! S (stage_index s) with
  | Some s' => Ok s'
  | None => raise BrokerReplicaLifecycleError "reclaim has no following stage"
  end.

(** The end of [_resume_started]. *)
Definition resume_ends (c : ReplicaLifecycleContext) (s : stage) (a : attempted) :
    st cstate turn_end :=
  match a with
  | StageTerminal f => st_ret (Returned (Some f))
  | Answered o =>
      if bool_decide (sr_outcome o = u"completed") then
        let^ f := persist_completed c s (sr_receipt o) in
        match f with
        | Some f => st_ret (Returned (Some f))
        | None => let^ s' := st_lift (next_stage s) in drive_from c s'
        end
      else if bool_decide (sr_outcome o = u"not_applied") then drive_from c s
      else
        let^ f := record_unresolved_ (cx_request c) (cx_owner c) s (default [] (sr_reason o)) in
        st_ret (Returned (Some f))
  end.

(** [_resume_started] *)
Definition resume_started (c : ReplicaLifecycleContext) (s : stage) : st cstate turn_end :=
  let^ x := attempt c s true in
  match x with
  | inl t => st_ret (Suspended c s Reconciling t)
  | inr a => resume_ends c s a
  end.

(** A suspended attempt goes on. *)
Definition continue_ (c : ReplicaLifecycleContext) (s : stage) (k : continuation) (t : nat) :
    st cstate turn_end :=
  let^ a := attempt_ends c s t in
  match k with
  | Reconciling => resume_ends c s a
  | Applying rest => apply_ends c s a (drive c rest)
  end.

(** ** Tasks *)

(** What a task awaits: the lock of its gate, an uncertain effect of its
    operation, the poll of the owner until a deadline, or an effect. *)
Inductive phase :=
  | PLock
  | PUncertain (t : nat)
  | PPoll (deadline : Z)
  | PEffect (c : ReplicaLifecycleContext) (s : stage) (k : continuation) (t : nat)
  | PDone (r : res (option pybytes)).

Inductive job :=
  | JRun (request : BrokerRequest) (frame : pybytes) (authority : ReplicaAuthority) (gid : nat)
  | JRecover (pending : list IncompleteReplicaLifecycle).

Record task := { tk_job : job; tk_phase : phase; tk_cancelled : bool }.

(** *** [run] *)

(** A turn of [run] past its gate: what it awaits next, or its response. *)
Inductive run_end := Waits (p : phase) | Responds (f : pybytes).

Definition run_turn (e : turn_end) : res run_end :=
  match e with
  | Suspended c s k t => Ok (Waits (PEffect c s k t))
  | Returned (Some f) => Ok (Responds f)
  | Returned None => raise BrokerReplicaLifecycleError "replica lifecycle has no terminal response"
  end.

(** [run] after the claim. *)
Definition run_claimed (request : BrokerRequest) (authority : ReplicaAuthority)
    (d : ReplicaJournalDecision) : st cstate run_end :=
  match d_response d with
  | Some f => st_ret (Responds f)
  | None =>
      match d_stage d with
      | None => st_lift (raise BrokerReplicaLifecycleError "replica lifecycle has no active stage")
      | Some s =>
          let c := {| cx_request := request; cx_authority := authority; cx_owner := co_owner co |} in
          let^ e := if bool_decide (d_state d = DInFlight) then resume_started c s
                    else drive_from c s in
          st_lift (run_turn e)
      end
  end.

(** One iteration of [_claim_within_deadline]. *)
Definition claim_once (request : BrokerRequest) (authority : ReplicaAuthority) (deadline : Z) :
    st cstate run_end := fun s =>
  match journal_op (claim_authority cfg env request (co_owner co) (co_broker co)) s with
  | (s', Ok d) => run_claimed request authority d s'
  | (s', Raise e) =>
      if caught e [ReplicaJournalConflictError] then
        (let^ current := journal_op (status cfg env request) in
         match d_response current with
         | Some _ => run_claimed request authority current
         | None =>
             let^ now := read_clock in
             if deadline <=? now
             then st_lift (raise BrokerReplicaOwnerActive
                             "replica lifecycle remains owned by another broker")
             else st_ret (Waits (PPoll deadline))
         end) s'
      else (s', Raise e)
  end.

(** The body of the [try] of [run]. *)
Definition run_body (request : BrokerRequest) (frame : pybytes) (authority : ReplicaAuthority) :
    st cstate run_end :=
  let^ d := journal_op (accept cfg env request frame authority) in
  match d_response d with
  | Some f => st_ret (Responds f)
  | None =>
      let^ now := read_clock in
      claim_once request authority (now + co_wait co)
  end.

(** [finally: self._release_operation_gate(...)] *)
Definition finally_release (operation : pystr) (gid : nat) (m : st cstate run_end) (s : cstate) :
    cstate * phase :=
  match m s with
  | (s', Ok (Waits p)) => (s', p)
  | (s', r) =>
      match gates_op (release_gate operation gid) s' with
      | (s2, Raise e) => (s2, PDone (Raise e))
      | (s2, Ok _) =>
          (s2, PDone match r with
                     | Ok (Responds f) => Ok (Some f)
                     | Ok (Waits _) => Ok None
                     | Raise e => Raise e
                     end)
      end
  end.

(** [_acquire_operation_gate] once it has the lock. *)
Definition has_lock (request : BrokerRequest) (frame : pybytes) (authority : ReplicaAuthority)
    (gid : nat) (s : cstate) : cstate * phase :=
  match assoc_get (operation_id request) (cs_uncertain s) with
  | Some t =>
      if isnull (task_done t s) then (s, PUncertain t)
      else finally_release (operation_id request) gid (run_body request frame authority) s
  | None => finally_release (operation_id request) gid (run_body request frame authority) s
  end.

Definition check_run (request : BrokerRequest) (frame : pybytes) : res unit :=
  check! guard (negb (bool_decide (frame = []))) TypeError "replica request frame is invalid" in
  guard (bool_decide (broker_incarnation request = co_broker co)) BrokerReplicaLifecycleError
    "replica request targets a different broker incarnation".

(** [run], called as task [i], up to its first await. *)
Definition start_run (i : nat) (request : BrokerRequest) (frame : pybytes)
    (authority : ReplicaAuthority) (s : cstate) : cstate * task :=
  let failed s e := (s, {| tk_job := JRun request frame authority 0; tk_phase := PDone (Raise e);
                           tk_cancelled := false |}) in
  match check_run request frame with
  | Raise e => failed s e
  | Ok _ =>
      match gates_op (enter_gate i (operation_id request)) s with
      | (s', Raise e) => failed s' e
      | (s', Ok (gid, held)) =>
          let '(s2, p) := if held : bool then has_lock request frame authority gid s' else (s', PLock) in
          (s2, {| tk_job := JRun request frame authority gid; tk_phase := p; tk_cancelled := false |})
      end
  end.

(** Task [i] of [run] goes on after its await. *)
Definition resume_run (i : nat) (request : BrokerRequest) (frame : pybytes)
    (authority : ReplicaAuthority) (gid : nat) (p : phase) (cancelled : bool) (s : cstate) :
    cstate * phase :=
  let operation := operation_id request in
  let done '(s', r) := (s', PDone match r with Ok _ => raise CancelledError "" | Raise e => Raise e end) in
  match p with
  | PLock =>
      if cancelled then
        if waiter_ready i (gate_at gid (cs_gates s))
        then done (gates_op (cancelled_gate i operation gid) s)
        else (s, p)
      else if waiter_woken i (gate_at gid (cs_gates s))
      then has_lock request frame authority gid
             (with_gates (update_gate gid (lock_resume i) (cs_gates s)) s)
      else (s, p)
  | PUncertain t =>
      if cancelled then done (gates_op (leave_gate operation gid true) s)
      else if isnull (task_done t s) then (s, p)
      else finally_release operation gid (run_body request frame authority) s
  | PPoll deadline =>
      finally_release operation gid
        (if cancelled then st_lift (raise CancelledError "") else claim_once request authority deadline) s
  | PEffect c st k t =>
      finally_release operation gid
        (if cancelled then attempt_cancelled c st t
         else let^ e := continue_ c st k t in st_lift (run_turn e)) s
  | PDone _ => (s, p)
  end.

(** *** [recover_incomplete] *)

(** [_recover_one] up to its await *)
Definition recover_one (l : IncompleteReplicaLifecycle) : st cstate turn_end :=
  let^ request := st_lift (authenticated_request cfg l) in
  if bool_decide (il_owner_broker l = co_broker co) then
    let c := {| cx_request := request; cx_authority := il_authority l;
                cx_owner := il_owner_token l |} in
    if il_started l then resume_started c (il_stage l) else drive_from c (il_stage l)
  else
    do^ (if il_started l then st_ret tt
         else do^ journal_op (begin_stage cfg env request (il_owner_token l) (stage_name (il_stage l))) in
              st_ret tt) in
    let^ f := record_unresolved_ request (il_owner_token l) (il_stage l) (u"broker_restart_unknown") in
    st_ret (Returned (Some f)).

(** The loop of [recover_incomplete]: what it awaits, and what is left. *)
Fixpoint recover_all (ls : list IncompleteReplicaLifecycle) :
    st cstate (phase * list IncompleteReplicaLifecycle) :=
  match ls with
  | [] => st_ret (PDone (Ok None), [])
  | l :: ls =>
      let^ e := recover_one l in
      match e with
      | Suspended c s k t => st_ret (PEffect c s k t, ls)
      | Returned _ => recover_all ls
      end
  end.

Definition recovery_turn (m : st cstate (phase * list IncompleteReplicaLifecycle)) (s : cstate) :
    cstate * task :=
  let '(s', r) := m s in
  let '(p, ls) := match r with Ok x => x | Raise e => (PDone (Raise e), []) end in
  (s', {| tk_job := JRecover ls; tk_phase := p; tk_cancelled := false |}).

Definition start_recovery : cstate → cstate * task :=
  recovery_turn (let^ ls := journal_op (incomplete_lifecycles cfg env) in recover_all ls).

Definition resume_recovery (ls : list IncompleteReplicaLifecycle) (c : ReplicaLifecycleContext)
    (s : stage) (k : continuation) (t : nat) (cancelled : bool) : cstate → cstate * task :=
  recovery_turn
    (if cancelled then attempt_cancelled c s t
     else let^ e := continue_ c s k t in
          match e with
          | Suspended c s k t => st_ret (PEffect c s k t, ls)
          | Returned _ => recover_all ls
          end).

(** ** The machine *)

Record machine := { mc_state : cstate; mc_tasks : list task }.

Inductive action :=
  | CallRun (request : BrokerRequest) (frame : pybytes) (authority : ReplicaAuthority)
  | CallRecover
  | Cancel (i : nat)
  | Resume (i : nat)
  | EffectEnds (t : nat) (r : task_result)
  | Callback (t : nat).

Definition is_done (p : phase) : bool := match p with PDone _ => true | _ => false end.
Definition recovering (tk : task) : bool :=
  match tk_job tk with JRecover _ => negb (is_done (tk_phase tk)) | _ => false end.

(** [task.cancel()]: a task that awaits its lock awaits a future to cancel. *)
Definition cancel_task (i : nat) (tk : task) (s : cstate) : cstate * task :=
  let s' := match tk_job tk, tk_phase tk with
            | JRun _ _ _ gid, PLock => with_gates (update_gate gid (cancel_waiter i) (cs_gates s)) s
            | _, _ => s
            end in
  (s', {| tk_job := tk_job tk; tk_phase := tk_phase tk; tk_cancelled := true |}).

Definition resume_task (i : nat) (tk : task) (s : cstate) : cstate * task :=
  match tk_job tk with
  | JRun request frame authority gid =>
      let '(s', p) := resume_run i request frame authority gid (tk_phase tk) (tk_cancelled tk) s in
      (s', {| tk_job := tk_job tk; tk_phase := p; tk_cancelled := tk_cancelled tk |})
  | JRecover ls =>
      match tk_phase tk with
      | PEffect c st k t => resume_recovery ls c st k t (tk_cancelled tk) s
      | _ => (s, tk)
      end
  end.

(** The calls come as [execution_daemons.py] makes them: recovery first and
    alone, requests when it is over. An action that cannot happen does nothing. *)
Definition act (a : action) (m : machine) : machine :=
  let s := mc_state m in
  let tasks := mc_tasks m in
  match a with
  | CallRun request frame authority =>
      if existsb recovering tasks then m
      else let '(s', tk) := start_run (length tasks) request frame authority s in
           {| mc_state := s'; mc_tasks := tasks ++ [tk] |}
  | CallRecover =>
      if forallb (fun tk => is_done (tk_phase tk)) tasks
      then let '(s', tk) := start_recovery s in {| mc_state := s'; mc_tasks := tasks ++ [tk] |}
      else m
  | Cancel i =>
      match tasks !! i with
      | Some tk => let '(s', tk') := cancel_task i tk s in
                   {| mc_state := s'; mc_tasks := <[i := tk']> tasks |}
      | None => m
      end
  | Resume i =>
      match tasks !! i with
      | Some tk => let '(s', tk') := resume_task i tk s in
                   {| mc_state := s'; mc_tasks := <[i := tk']> tasks |}
      | None => m
      end
  | EffectEnds t r =>
      match world t with
      | InvokeTask =>
          if (t <? length (cs_calls s))%nat && isnull (task_done t s)
          then {| mc_state := add_result t r s; mc_tasks := tasks |}
          else m
      | _ => m
      end
  | Callback t =>
      if bool_decide (t ∈ cs_abandoned s) && negb (isnull (task_done t s))
      then {| mc_state := consume_abandoned t s; mc_tasks := tasks |}
      else m
  end.

Definition acts (l : list action) (m : machine) : machine := fold_left (fun m a => act a m) l m.

Definition start_machine (x : rstore) : machine := {|
  mc_state := {| cs_store := x; cs_clock := 0; cs_gates := no_gates; cs_abandoned := ∅;
                 cs_uncertain := []; cs_calls := []; cs_results := [] |};
  mc_tasks := [] |}.
End Lifecycle.
