(* ===== verification/ReplicaLifecycleSpec.v ===== *)
(** * The replica lifecycle coordinator is safe

    Over the machine of [ReplicaLifecycle]: what a run answers is the durable
    terminal response, an effect is called only for a stage whose start is
    durable, it is applied again only after a reconciliation found it not
    applied, and recovery settles every lifecycle it finds. *)

From S2P Require Import Prelude Text Json Crypto BrokerProtocol ReplicaContract ReplicaJournal ReplicaJournalSpec OperationGates ReplicaLifecycle.

Section Spec.
Context {SHA : Sha256} {ED : Ed25519} {RAW : Ed25519Raw} (cfg : config) (env : nat → conn).
Hypothesis ENV : env_ok cfg env.

(** ** What a history says *)

(** The history of a lifecycle, and where it stands. *)
Definition stands (i : ident) (p : progress) (j : journal) : Prop :=
  ∃ rp, rows_for i (jn_events j) ≠ [] ∧ replay cfg (history i (jn_events j)) = Ok rp
        ∧ rp_progress rp = p.

(** Its terminal response is durable. *)
Definition answered (i : ident) (f : pybytes) (j : journal) : Prop :=
  ∃ p t s, stands i p j ∧ p_terminal p = Some (t, s, f).

(** The start of a stage is durable. *)
Definition started (i : ident) (s : stage) (j : journal) : Prop :=
  ∃ r, r ∈ history i (jn_events j) ∧ kind r = StageStarted ∧ stage_ r = Some s.

Definition stable_ (P : journal → Prop) : Prop := stable cfg P.

Lemma history_extends i j j' r : extends j j' → r ∈ history i (jn_events j) → r ∈ history i (jn_events j').
Proof.
  intros H Hr. destruct (history_prefix i _ _ H) as [rest ->]. apply elem_of_app. by left.
Qed.

Lemma started_stable i s : stable_ (started i s).
Proof. intros j j' _ _ H (r & Hr & K). exists r. split; [by apply (history_extends _ j)|done]. Qed.

Lemma stands_later i p j j' : journal_ok cfg j' → extends j j' → stands i p j →
  ∃ p', stands i p' j' ∧ (p_terminal p ≠ None → p' = p).
Proof.
  intros Hj' Hext (rp & Hn & Hrp & <-).
  destruct (replay_later cfg _ _ _ _ Hj' Hext Hn Hrp) as (rest & rp' & Hrest & Hrp').
  exists (rp_progress rp'). split.
  - exists rp'. rewrite Hrest. split_and!; [|done|done]. intros E. apply history_nil in E.
    rewrite E in Hrest. symmetry in Hrest. apply app_eq_nil in Hrest as [Hnil _].
    by apply Hn, history_nil.
  - intros Ht. pose proof (terminal_history_final cfg _ _ _ _ Hrp Hrp' Ht) as ->.
    rewrite app_nil_r in Hrp'. rewrite Hrp in Hrp'. by injection Hrp' as <-.
Qed.

Lemma answered_stable i f : stable_ (answered i f).
Proof.
  intros j j' _ Hj' Hext (p & t & s & Hs & Ht).
  destruct (stands_later _ _ _ _ Hj' Hext Hs) as (p' & Hp' & E).
  exists p', t, s. split; [done|]. rewrite E; [done|by rewrite Ht].
Qed.

Lemma stands_unique i p p' j : stands i p j → stands i p' j → p = p'.
Proof. intros (rp & _ & H & <-) (rp' & _ & H' & <-). rewrite H in H'. by injection H' as ->. Qed.

Lemma stands_shape i p j : stands i p j →
  progress_ok p ∧ map row_key (history i (jn_events j)) = expected_rows p.
Proof. intros (rp & _ & H & <-). by apply replay_shape in H as (? & ? & _). Qed.

Lemma started_index i s p j : stands i p j → started i s j →
  (stage_index s < p_next p)%nat ∨ (stage_index s = p_next p ∧ p_started p = true).
Proof.
  intros [_ H]%stands_shape (r & Hr & K & S).
  assert (Hk : (StageStarted, Some s) ∈ expected_rows p).
  { rewrite <- H. replace (StageStarted, Some s) with (row_key r) by (unfold row_key; congruence).
    by apply list_elem_of_fmap_2. }
  clear -Hk. unfold expected_rows in Hk. apply elem_of_cons in Hk as [?|Hk]; [done|].
  destruct (isnull (p_owner p)); [by apply elem_of_nil in Hk|].
  apply elem_of_cons in Hk as [?|Hk]; [done|]. rewrite !elem_of_app in Hk. destruct Hk as [Hk|[Hk|Hk]].
  - left. apply list_elem_of_In, in_concat in Hk as (l & Hl & Hk).
    apply in_map_iff in Hl as (x & <- & Hx). destruct Hk as [[= ->]|[?|[]]]; [|done].
    apply list_elem_of_In, list_elem_of_lookup in Hx as [n Hn].
    apply lookup_take_Some in Hn as [Hn Hlt]. apply stage_at in Hn. by subst.
  - right. destruct (p_started p); [|by apply elem_of_nil in Hk].
    apply list_elem_of_singleton in Hk. injection Hk as E. symmetry in E. by apply stage_at in E.
  - exfalso. destruct (p_terminal p) as [[[[] ?] ?]|]; try (by apply elem_of_nil in Hk);
      by apply list_elem_of_singleton in Hk.
Qed.

(** The stage that a decision names, when the lifecycle is claimed and open. *)
Lemma stands_open i p j : stands i p j → p_terminal p = None → is_Some (p_owner p) →
  ∃ s, STAGES !! p_next p = Some s ∧ stage_index s = p_next p
       ∧ (p_started p = true → started i s j).
Proof.
  intros [Hok Hk]%stands_shape Ht [o Ho]. unfold progress_ok in Hok. rewrite Ho, Ht in Hok.
  destruct Hok as [_ Hn]. destruct (STAGES !! p_next p) as [s|] eqn:Es.
  2: { apply lookup_ge_None in Es. cbn in Es. lia. }
  exists s. split_and!; [done|by apply stage_at in Es|]. intros Hs.
  assert (Hin : (StageStarted, Some s) ∈ expected_rows p).
  { unfold expected_rows. rewrite Ho, Hs, Es. cbn [isnull]. right. right.
    apply elem_of_app. right. apply elem_of_app. left. left. }
  rewrite <- Hk in Hin. apply list_elem_of_fmap in Hin as (r & E & Hr). injection E as E1 E2.
  by exists r.
Qed.

(** A stored row with a response ends its lifecycle with it. *)
Lemma response_ends rows rp r f : replay cfg rows = Ok rp → r ∈ rows → is_completion r = true →
  response_frame r = Some f → ∃ t s, p_terminal (rp_progress rp) = Some (t, s, f).
Proof.
  revert rp. induction rows as [|x rows IH] using rev_ind; intros rp H Hr K F; [by apply elem_of_nil in Hr|].
  destruct (decide (rows = [])) as [->|N].
  - apply replay_ok in H as (r0 & rest & q & key & p & [= <- <-] & K0 & _).
    apply list_elem_of_singleton in Hr as ->. unfold is_completion, is_kind in K. by rewrite K0 in K.
  - destruct (replay_snoc cfg _ _ _ H N) as (rp0 & q & key & H0 & _ & _ & _ & He).
    apply replay_event_step in He as [Ht He]. apply elem_of_app in Hr as [Hr|Hr].
    { destruct (IH _ H0 Hr K F) as (t & s & E). congruence. }
    apply list_elem_of_singleton in Hr as ->. unfold is_completion, is_kind in K.
    destruct He as [? ? K0|? K0|? K0 ? ? ? ? ? ? R|f' K0 ? ? ? ? ? R|? f' K0 ? ? ? ? ? R|? f' K0 ? ? ? ? ? R];
      rewrite K0 in K; try done; try congruence; cbn [advance p_terminal];
      (replace f with f' by congruence; eauto).
Qed.

Lemma recorded_answers request s k owner status rc reason f pos j : journal_ok cfg j →
  completion_recorded request s k owner status rc reason (Some f) pos j →
  k ∈ [StageOutcome; StageRejected; StageUnresolved] → answered (identity request) f j.
Proof.
  intros Hj (r & Hr & Hi & Hs & He) Hk. apply stored_in_history in Hr. rewrite Hi in Hr.
  unfold exact_completion in He. apply andb_true_iff in He as [He _]. breflect.
  assert (K : kind r = k) by (by apply is_kind_iff).
  assert (Hn : rows_for (identity request) (jn_events j) ≠ []).
  { intros E. apply history_nil in E. rewrite E in Hr. by apply elem_of_nil in Hr. }
  destruct (history_replays cfg _ _ Hj Hn) as [rp Hrp].
  destruct (response_ends _ _ r f Hrp Hr) as (t & s' & Ht); [|done|].
  - unfold is_completion, is_kind. rewrite K. repeat (apply elem_of_cons in Hk as [->|Hk]; [done|]).
    by apply elem_of_nil in Hk.
  - exists (rp_progress rp), t, s'. split; [|done]. by exists rp.
Qed.

Lemma recorded_started request s owner pos j :
  stage_recorded request StageStarted s owner pos j → started (identity request) s j.
Proof.
  intros (r & Hr & Hi & K & S & _). exists r. split; [|done]. rewrite <- Hi. by apply stored_in_history in Hr.
Qed.

Lemma decision_response p f : d_response (decision p) = Some f → ∃ t s, p_terminal p = Some (t, s, f).
Proof.
  unfold decision. destruct (p_terminal p) as [[[t s] g]|].
  - intros [= ->]. eauto.
  - by destruct (p_owner p).
Qed.

(** ** The calls of the effects *)

Definition file (s : cstate) : journal := rs_journal (cs_store s).
Definition trace : Type := (list call * list (nat * task_result))%type.
Definition trace_of (s : cstate) : trace := (cs_calls s, cs_results s).

(** What the constructors of the result and of its receipt establish. *)
Definition reconciliation_ok (o : StageReconciliation) : Prop :=
  new_reconciliation (sr_outcome o) (sr_receipt o) (sr_reason o) = Ok o
  ∧ ∀ r, sr_receipt o = Some r → receipt_ok r.

(** Call [k] was a reconciliation of the stage and found it not applied. *)
Definition not_applied_at (k : nat) (i : ident) (s : stage) (tr : trace) : Prop :=
  ∃ c o, tr.1 !! k = Some c ∧ cl_ident c = i ∧ cl_stage c = s ∧ cl_reconcile c = true
         ∧ assoc_get k tr.2 = Some (TaskReconciled o) ∧ sr_outcome o = u"not_applied".

(** Applications of one lifecycle follow the stages; a stage is applied again
    only after a reconciliation in between. *)
Definition applied_in_order (tr : trace) : Prop :=
  ∀ m n c d, (m < n)%nat → tr.1 !! m = Some c → tr.1 !! n = Some d → cl_reconcile c = false →
    cl_reconcile d = false → cl_ident c = cl_ident d →
    (stage_index (cl_stage c) < stage_index (cl_stage d))%nat
    ∨ (cl_stage c = cl_stage d ∧ ∃ k, (m < k < n)%nat ∧ not_applied_at k (cl_ident c) (cl_stage c) tr).

(** No application went past the stage; the stage may be applied next. *)
Definition upto (i : ident) (s : stage) (tr : trace) : Prop :=
  ∀ n c, tr.1 !! n = Some c → cl_ident c = i → cl_reconcile c = false →
    (stage_index (cl_stage c) <= stage_index s)%nat.
Definition may_apply (i : ident) (s : stage) (tr : trace) : Prop :=
  ∀ n c, tr.1 !! n = Some c → cl_ident c = i → cl_reconcile c = false →
    (stage_index (cl_stage c) < stage_index s)%nat
    ∨ (cl_stage c = s ∧ ∃ k, (n < k)%nat ∧ not_applied_at k i s tr).

Record good (s : cstate) : Prop := {
  g_journal : journal_ok cfg (file s);
  g_started : ∀ n c, cs_calls s !! n = Some c → started (cl_ident c) (cl_stage c) (file s);
  g_order : applied_in_order (trace_of s);
  g_results : ∀ t o, assoc_get t (cs_results s) = Some (TaskReconciled o) → reconciliation_ok o;
}.

(** What a turn for one lifecycle changes. *)
Record evolves (i : ident) (s s' : cstate) : Prop := {
  e_file : extends (file s) (file s');
  e_calls : ∃ new, cs_calls s' = cs_calls s ++ new ∧ Forall (fun c => cl_ident c = i) new;
  e_results : cs_results s' = cs_results s;
  e_gates : cs_gates s' = cs_gates s;
}.

#[local] Instance evolves_preorder i : PreOrder (evolves i).
Proof.
  split.
  - intros s. split; [done|exists []; by rewrite app_nil_r|done|done].
  - intros s1 s2 s3 [A1 (n1 & A2 & F1) A3 A4] [B1 (n2 & B2 & F2) B3 B4].
    split; [by transitivity (file s2)| |congruence|congruence].
    exists (n1 ++ n2). rewrite B2, A2, app_assoc. split; [done|by apply Forall_app].
Qed.

Lemma stage_index_inj s s' : stage_index s = stage_index s' → s = s'.
Proof. by destruct s, s'. Qed.

Lemma may_apply_upto i s tr : may_apply i s tr → upto i s tr.
Proof. intros H n c Hc Hi Hr. destruct (H n c Hc Hi Hr) as [?|[-> _]]; lia. Qed.

Lemma upto_may_apply i s s' tr : upto i s tr → (stage_index s < stage_index s')%nat → may_apply i s' tr.
Proof. intros H Hlt n c Hc Hi Hr. left. specialize (H n c Hc Hi Hr). lia. Qed.

Lemma not_applied_app k i s calls results c :
  not_applied_at k i s (calls, results) → not_applied_at k i s (calls ++ [c], results).
Proof.
  intros (x & o & Hx & H). exists x, o. split; [|done]. cbn in *. by apply lookup_app_l_Some.
Qed.

(** A call is added; an application only of a stage that may be applied. *)
Lemma order_app calls results c : applied_in_order (calls, results) →
  (cl_reconcile c = false → may_apply (cl_ident c) (cl_stage c) (calls, results)) →
  applied_in_order (calls ++ [c], results).
Proof.
  intros H Hc m n x y Hmn Hx Hy Rx Ry Hi. cbn [fst] in *.
  apply lookup_app_Some in Hy as [Hy|[Hn Hy]].
  - rewrite lookup_app_l in Hx by (apply lookup_lt_Some in Hy; lia).
    destruct (H m n x y Hmn Hx Hy Rx Ry Hi) as [?|(E & k & Hk & Ha)]; [by left|right].
    split; [done|]. exists k. split; [done|by apply not_applied_app].
  - assert (n = length calls) as ->.
    { apply list_lookup_singleton_Some in Hy as [? _]. lia. }
    apply list_lookup_singleton_Some in Hy as [_ <-]. rewrite lookup_app_l in Hx by lia.
    destruct (Hc Ry m x Hx Hi Rx) as [?|(E & k & Hk & Ha)]; [by left|right]. split; [done|].
    exists k. pose proof Ha as (z & _ & Hz & _). cbn in Hz. apply lookup_lt_Some in Hz.
    split; [lia|]. rewrite Hi, E. by apply not_applied_app.
Qed.

(** ** Turns

    From a good state that satisfies [P] the turn leaves a good one, touches
    only its own lifecycle, and when it returns its value satisfies [Q]. *)
Definition turns {A} (i : ident) (P : cstate → Prop) (m : st cstate A) (Q : A → cstate → Prop) : Prop :=
  ∀ s, good s → P s → good (m s).1 ∧ evolves i s (m s).1 ∧ ∀ a, (m s).2 = Ok a → Q a (m s).1.

Lemma turns_bind {A B} i P (m : st cstate A) (k : A → st cstate B) R Q :
  turns i P m R → (∀ a, turns i (R a) (k a) Q) → turns i P (st_bind m k) Q.
Proof.
  intros Hm Hk s Hs HP. specialize (Hm s Hs HP). unfold st_bind.
  destruct (m s) as [s1 [a|e]]; cbn [fst snd] in *; destruct Hm as (H1 & H2 & H3).
  - destruct (Hk a s1 H1 (H3 a eq_refl)) as (K1 & K2 & K3). split_and!; [done|by transitivity s1|done].
  - by split_and!.
Qed.

Lemma turns_lift {A} i P (r : res A) (Q : A → cstate → Prop) :
  (∀ a s, r = Ok a → good s → P s → Q a s) → turns i P (st_lift r) Q.
Proof. intros H s Hs HP. split_and!; [done|done|]. cbn. eauto. Qed.

Lemma turns_ret {A} i P (a : A) (Q : A → cstate → Prop) :
  (∀ s, good s → P s → Q a s) → turns i P (st_ret a) Q.
Proof. intros H s Hs HP. split_and!; [done|done|]. intros b [= <-]. auto. Qed.

Lemma turns_weaken {A} i (P P' : cstate → Prop) (m : st cstate A) (Q Q' : A → cstate → Prop) :
  turns i P' m Q' → (∀ s, good s → P s → P' s) → (∀ a s, good s → Q' a s → Q a s) → turns i P m Q.
Proof.
  intros H HP HQ s Hs Hp. destruct (H s Hs (HP _ Hs Hp)) as (H1 & H2 & H3). split_and!; try done. auto.
Qed.

Lemma turns_check {A B} i P (r : res A) (k : A → st cstate B) Q :
  (∀ a, r = Ok a → turns i P (k a) Q) → turns i P (st_bind (st_lift r) k) Q.
Proof.
  intros H. eapply (turns_bind _ _ _ _ (fun a s => r = Ok a ∧ P s)); [by apply turns_lift|].
  intros a s Hs [E HP]. by apply H.
Qed.

(** A precondition that does not change can be assumed outside. *)
Lemma turns_pure {A} i (X : Prop) P (m : st cstate A) Q :
  (X → turns i P m Q) → turns i (fun s => X ∧ P s) m Q.
Proof. intros H s Hs [HX HP]. by apply H. Qed.

(** Only the file and fields without meaning for the calls change. *)
Lemma turns_same {A} i (X : trace → Prop) (m : st cstate A) (Q : A → journal → Prop)
    (P : journal → Prop) :
  (∀ s, journal_ok cfg (file s) → P (file s) →
     trace_of (m s).1 = trace_of s ∧ cs_gates (m s).1 = cs_gates s
     ∧ journal_ok cfg (file (m s).1) ∧ extends (file s) (file (m s).1)
     ∧ ∀ a, (m s).2 = Ok a → Q a (file (m s).1)) →
  turns i (fun s => P (file s) ∧ X (trace_of s)) m (fun a s => Q a (file s) ∧ X (trace_of s)).
Proof.
  intros H s [Hj Hst Hord Hres] [HP HX]. destruct (H s Hj HP) as (Ht & Hg & J & E & HQ).
  assert (Hc : cs_calls (m s).1 = cs_calls s) by (by injection Ht).
  assert (Hr : cs_results (m s).1 = cs_results s) by (by injection Ht).
  split_and!.
  - split; [done| |by rewrite Ht|by rewrite Hr].
    intros n c. rewrite Hc. intros Hn. by apply (started_stable _ _ (file s)), (Hst n).
  - split; [done|exists []; by rewrite Hc, app_nil_r|done|done].
  - intros a Ha. rewrite Ht. auto.
Qed.

Lemma turns_journal {A} i (X : trace → Prop) P (m : st rstore A) Q : runs cfg P m Q →
  turns i (fun s => P (file s) ∧ X (trace_of s)) (journal_op m) (fun a s => Q a (file s) ∧ X (trace_of s)).
Proof.
  intros H. apply turns_same. intros s Hj HP. unfold journal_op.
  specialize (H (cs_store s) Hj HP). destruct (m (cs_store s)) as [x r]. by cbn in *.
Qed.

(** [journal_op] where nothing is known of the file. *)
Lemma turns_journal_ {A} i (X : trace → Prop) (m : st rstore A) Q : runs cfg (fun _ => True) m Q →
  turns i (fun s => X (trace_of s)) (journal_op m) (fun a s => Q a (file s) ∧ X (trace_of s)).
Proof. intros H. eapply turns_weaken; [by apply (turns_journal i X)|done|done]. Qed.

Lemma turns_add_call i (c : call) : cl_ident c = i →
  turns i (fun s => started i (cl_stage c) (file s) ∧ upto i (cl_stage c) (trace_of s)
                    ∧ (cl_reconcile c = false → may_apply i (cl_stage c) (trace_of s)))
    (add_call c)
    (fun t s => cs_calls s !! t = Some c ∧ length (cs_calls s) = S t ∧ upto i (cl_stage c) (trace_of s)).
Proof.
  intros Hi s [Hj Hst Hord Hres] (H1 & H2 & H3). unfold add_call. cbn [fst snd]. split_and!.
  - split; cbn [file cs_store cs_calls cs_results]; try done.
    + intros n x [Hx|[_ Hx]]%lookup_app_Some; [by apply (Hst n)|].
      apply list_lookup_singleton_Some in Hx as [_ <-]. by rewrite Hi.
    + apply order_app; [done|]. by rewrite Hi.
  - split; try done. exists [c]. split; [done|]. by repeat constructor.
  - intros t [= <-]. cbn [cs_calls]. rewrite lookup_app_r, Nat.sub_diag, length_app by lia.
    split_and!; [done|cbn; lia|].
    intros n x [Hx|[_ Hx]]%lookup_app_Some; [by apply (H2 n)|].
    by apply list_lookup_singleton_Some in Hx as [_ <-].
Qed.

Section Coordinator.
Context (co : coordinator) (clock : nat → Z) (world : nat → invocation).

(** ** Terminal results are durable *)

Lemma turns_pop_uncertain i (X : trace → Prop) P op :
  turns i (fun s => P (file s) ∧ X (trace_of s)) (pop_uncertain op) (fun _ s => P (file s) ∧ X (trace_of s)).
Proof. apply turns_same. intros s Hj HP. by split_and!. Qed.

Lemma turns_abandon i (X : trace → Prop) P t op :
  turns i (fun s => P (file s) ∧ X (trace_of s)) (abandon t op) (fun _ s => P (file s) ∧ X (trace_of s)).
Proof. apply turns_same. intros s Hj HP. by split_and!. Qed.

Lemma turns_unresolved (X : trace → Prop) request owner s reason :
  turns (identity request) (fun x => X (trace_of x)) (record_unresolved_ cfg env co request owner s reason)
    (fun f x => answered (identity request) f (file x) ∧ X (trace_of x)).
Proof.
  apply turns_check. intros r _. apply turns_check. intros key _. apply turns_check. intros f _.
  eapply turns_bind; [apply turns_journal_, runs_record_unresolved, ENV|]. intros pos. cbn beta.
  apply (turns_weaken _ _ (fun x => answered (identity request) f (file x) ∧ X (trace_of x)) _ _
           (fun g x => answered (identity request) g (file x) ∧ X (trace_of x))).
  - eapply turns_bind; [by apply (turns_pop_uncertain _ X (answered (identity request) f))|].
    intros ?. by apply turns_ret.
  - intros x Hx [(st & _ & Hrec) HX]. split; [|done].
    eapply recorded_answers; [apply Hx|exact Hrec|]. right. right. left.
  - done.
Qed.

Lemma turns_rejected (X : trace → Prop) request owner s status id :
  turns (identity request) (fun x => X (trace_of x)) (record_rejected_ cfg env co request owner s status id)
    (fun f x => answered (identity request) f (file x) ∧ X (trace_of x)).
Proof.
  unfold record_rejected_. destruct (res_bind _ _) as [r|e] eqn:E.
  2: { destruct (caught e _); [apply turns_unresolved|by apply turns_lift]. }
  apply turns_check. intros key _. apply turns_check. intros f _.
  assert (Hr : new_rejected (JStr (rejected_receipt_id r)) = Ok r).
  { apply bind_error_ok in E as (r' & Hr & E). apply bind_error_ok in E as (st & _ & [= ->]).
    pose proof Hr as Hr'. unfold new_rejected in Hr'. apply bind_error_ok in Hr' as (i & Hi & [= <-]).
    apply token_ok in Hi as [[= <-] _]. exact Hr. }
  eapply turns_bind; [by apply turns_journal_, runs_record_rejected|]. intros pos. cbn beta.
  apply turns_ret. intros x Hx [(st & enc & _ & _ & Hrec) HX]. split; [|done].
  eapply recorded_answers; [apply Hx|exact Hrec|]. right. left.
Qed.

Lemma turns_complete_none (X : trace → Prop) request owner stg r (m : st rstore ReplicaJournalPosition) :
  receipt_ok r → m = complete cfg env request owner stg r None →
  turns (identity request) (fun x => X (trace_of x)) (do^ journal_op m in st_ret (@None pybytes))
    (fun o x => o = None ∧ X (trace_of x)).
Proof.
  intros Hr ->. eapply turns_bind; [by apply turns_journal_, runs_complete|]. intros pos. cbn beta.
  apply turns_ret. by intros x _ [_ HX].
Qed.

(** [complete_receipt] answers at the last stage only. *)
Lemma turns_complete_receipt (X : trace → Prop) request owner r : receipt_ok r →
  turns (identity request) (fun x => X (trace_of x)) (complete_receipt cfg env co request owner r)
    (fun o x => match o with
                | Some f => answered (identity request) f (file x)
                | None => receipt_stage r ≠ Some Reclaim
                end ∧ X (trace_of x)).
Proof.
  intros Hr. destruct r as [c|c|c|c|c|c|c|]; cbn [complete_receipt receipt_stage];
    try (eapply turns_weaken; [eapply (turns_complete_none X _ _ _ _ _ Hr); reflexivity|done|by intros o x _ [-> ?]]).
  - apply turns_check. intros key _. apply turns_check. intros f _.
    eapply turns_bind; [by apply turns_journal_, runs_complete|]. intros pos. cbn beta.
    apply turns_ret. intros x Hx [(enc & _ & Hrec) HX]. split; [|done].
    eapply recorded_answers; [apply Hx|exact Hrec|]. left.
  - by apply turns_lift.
Qed.

Lemma turns_persist (X : trace → Prop) c s r : (∀ x, r = Some x → receipt_ok x) →
  turns (identity (cx_request c)) (fun x => X (trace_of x)) (persist_completed cfg env co c s r)
    (fun o x => match o with
                | Some f => answered (identity (cx_request c)) f (file x)
                | None => s ≠ Reclaim
                end ∧ X (trace_of x)).
Proof.
  intros Hr. unfold persist_completed.
  assert (U : ∀ reason, turns (identity (cx_request c)) (fun x => X (trace_of x))
    (let^ f := record_unresolved_ cfg env co (cx_request c) (cx_owner c) s reason in st_ret (Some f))
    (fun o x => match o with
                | Some f => answered (identity (cx_request c)) f (file x)
                | None => s ≠ Reclaim
                end ∧ X (trace_of x))).
  { intros reason. eapply turns_bind; [apply turns_unresolved|]. intros f. by apply turns_ret. }
  destruct r as [r|]; [|apply U]. case_bool_decide as Es; [|apply U].
  destruct (validate_stage_receipt _ _ _ _) as [u0|e].
  - eapply turns_weaken; [apply (turns_complete_receipt X); by apply Hr|done|].
    intros [f|] x _ [H HX]; split; try done. intros ->. by apply H.
  - destruct (caught e _); [apply U|by apply turns_lift].
Qed.

(** ** Attempts *)

(** What an attempt may answer; only a task can answer that nothing was applied. *)
Definition attempted_ok (i : ident) (a : attempted) (x : cstate) : Prop :=
  match a with
  | StageTerminal f => answered i f (file x)
  | Answered o => reconciliation_ok o
  end.
Definition denies (a : attempted) : Prop :=
  match a with
  | StageTerminal _ => True
  | Answered o => sr_outcome o ≠ u"not_applied"
  end.

Lemma unknown_ok reason : reason ≠ [] → reconciliation_ok (unknown_outcome reason).
Proof. intros H. destruct reason; [done|]. by split. Qed.

Lemma unexpected_nonempty s : UNEXPECTED_ERROR_REASONS s ≠ [].
Proof. by destruct s. Qed.

Lemma turns_effect_failed (X : trace → Prop) c s e :
  turns (identity (cx_request c)) (fun x => X (trace_of x)) (effect_failed cfg env co c s e)
    (fun a x => attempted_ok (identity (cx_request c)) a x ∧ denies a ∧ X (trace_of x)).
Proof.
  destruct e as [|status id|reason|]; cbn [effect_failed].
  - apply turns_ret. intros x _ HX. split_and!; [by apply unknown_ok|done|done].
  - eapply turns_bind; [apply turns_rejected|]. intros f. apply turns_ret. by intros x _ [H HX].
  - apply turns_check. intros o Ho. apply turns_ret. intros x _ HX.
    assert (o = unknown_outcome reason ∧ reason ≠ []) as [-> Hn].
    { cbn in Ho. destruct reason; [done|]. by injection Ho as <-. }
    split_and!; [by apply unknown_ok|done|done].
  - apply turns_ret. intros x _ HX. split_and!; [apply unknown_ok, unexpected_nonempty|done|done].
Qed.

(** The call of a suspended attempt: the last one of its operation. *)
Definition waits_for (c : ReplicaLifecycleContext) (s : stage) (reconcile : bool) (t : nat) (x : cstate) : Prop :=
  cs_calls x !! t = Some {| cl_ident := identity (cx_request c); cl_stage := s; cl_reconcile := reconcile |}
  ∧ upto (identity (cx_request c)) s (trace_of x)
  ∧ ∀ n d, (t < n)%nat → cs_calls x !! n = Some d → (cl_ident d).1.2 ≠ operation_id (cx_request c).

Lemma turns_attempt c s reconcile :
  turns (identity (cx_request c))
    (fun x => started (identity (cx_request c)) s (file x) ∧ upto (identity (cx_request c)) s (trace_of x)
              ∧ (reconcile = false → may_apply (identity (cx_request c)) s (trace_of x)))
    (attempt cfg env co world c s reconcile)
    (fun r x => match r with
                | inl t => waits_for c s reconcile t x
                | inr a => attempted_ok (identity (cx_request c)) a x ∧ denies a
                           ∧ upto (identity (cx_request c)) s (trace_of x)
                end).
Proof.
  unfold attempt. eapply (turns_bind _ _ _ _ (fun _ x => started (identity (cx_request c)) s (file x)
    ∧ upto (identity (cx_request c)) s (trace_of x)
    ∧ (reconcile = false → may_apply (identity (cx_request c)) s (trace_of x)))).
  { intros x Hx HP. unfold st_get. cbn [fst snd]. by split_and!. }
  intros state. destruct (_ <=? _).
  { apply turns_ret. intros x _ (_ & H & _). split_and!; [by apply unknown_ok|done|done]. }
  eapply turns_bind; [exact (turns_add_call (identity (cx_request c)) {| cl_ident := identity (cx_request c);
    cl_stage := s; cl_reconcile := reconcile |} eq_refl)|]. intros t. cbn [cl_stage cl_ident cl_reconcile].
  destruct (world t) as [e| |].
  - eapply turns_bind.
    + eapply turns_weaken; [apply (turns_effect_failed (upto (identity (cx_request c)) s) c s e)|by intros x _ (_ & _ & ?)|].
      intros a x _ H. exact H.
    + intros a. apply turns_ret. by intros x _ (H1 & H2 & H3).
  - apply turns_ret. intros x _ (_ & _ & H). split_and!; [apply unknown_ok, unexpected_nonempty|done|done].
  - apply turns_ret. intros x _ (H1 & H2 & H3). split_and!; [done|done|].
    intros n d Hn Hd. apply lookup_lt_Some in Hd. lia.
Qed.

(** ** Driving *)

Definition is_reconciling (k : continuation) : bool :=
  match k with Reconciling => true | Applying _ => false end.

(** A suspended attempt, with the stages left to drive. *)
Definition suspended_ok (c : ReplicaLifecycleContext) (s : stage) (k : continuation) (t : nat)
    (x : cstate) : Prop :=
  waits_for c s (is_reconciling k) t x
  ∧ ∀ rest, k = Applying rest → rest = drop (S (stage_index s)) STAGES.

(** A turn ends at an await or with a durable answer, never with neither. *)
Definition turn_ok (c : ReplicaLifecycleContext) (e : turn_end) (x : cstate) : Prop :=
  match e with
  | Suspended c' s k t => c' = c ∧ suspended_ok c s k t x
  | Returned (Some f) => answered (identity (cx_request c)) f (file x)
  | Returned None => False
  end.

Section Context_.
Context (c : ReplicaLifecycleContext).
Let i : ident := identity (cx_request c).

(** An unresolved result ends the turn. *)
Lemma turns_end_unresolved (X : trace → Prop) owner s reason :
  turns i (fun x => X (trace_of x))
    (let^ f := record_unresolved_ cfg env co (cx_request c) owner s reason in st_ret (Returned (Some f)))
    (turn_ok c).
Proof. eapply turns_bind; [apply turns_unresolved|]. intros f. apply turns_ret. by intros x _ [H _]. Qed.

Lemma turns_apply_ends s a next :
  turns i (fun x => s ≠ Reclaim ∧ upto i s (trace_of x)) next (turn_ok c) →
  turns i (fun x => attempted_ok i a x ∧ upto i s (trace_of x)) (apply_ends cfg env co c s a next) (turn_ok c).
Proof.
  intros Hnext. destruct a as [o|f]; cbn [apply_ends attempted_ok].
  2: { apply turns_ret. by intros x _ [H _]. }
  apply turns_pure. intros [_ Ho]. case_bool_decide; [|apply (turns_end_unresolved (upto i s))].
  eapply turns_bind; [by apply (turns_persist (upto i s))|]. intros [f|]; [|exact Hnext].
  apply turns_ret. by intros x _ [H' _].
Qed.

Lemma drop_stage n s rest : drop n STAGES = s :: rest →
  n = stage_index s ∧ rest = drop (S (stage_index s)) STAGES.
Proof.
  intros H. assert (E : STAGES !! n = Some s) by (by rewrite <- (Nat.add_0_r n), <- lookup_drop, H).
  apply stage_at in E as ->. split; [done|]. rewrite <- Nat.add_1_r, <- drop_drop, H. done.
Qed.

Lemma turns_drive stages n : stages = drop n STAGES → stages ≠ [] →
  turns i (fun x => ∀ s, head stages = Some s → may_apply i s (trace_of x)) (drive cfg env co world c stages)
    (turn_ok c).
Proof.
  revert n. induction stages as [|s rest IH]; intros n Hn Hne; [done|]. cbn [drive head].
  symmetry in Hn. apply drop_stage in Hn as [-> Hrest].
  eapply turns_bind.
  { eapply turns_weaken;
      [apply (turns_journal_ i (may_apply i s)), (runs_begin_stage _ _ ENV _ _ _ s), stage_of_stage_name
      |by intros x _ H; apply H|intros a x _ H; exact H]. }
  intros pos. cbn beta. eapply turns_bind.
  { eapply turns_weaken; [apply turns_attempt| |intros a x _ H; exact H].
    intros x _ [H1%recorded_started H2]. split_and!; [done|by apply may_apply_upto|done]. }
  intros [t|a].
  - apply turns_ret. intros x _ H. split; [done|]. split; [done|]. by intros r [= <-].
  - cbn beta. eapply turns_weaken; [apply (turns_apply_ends s a)|by intros x _ (H1 & _ & H2)|done].
    apply turns_pure. intros Hs.
    assert (Hr : rest ≠ []) by (subst rest; by destruct s).
    eapply turns_weaken; [by apply (IH (S (stage_index s)))| |done].
    intros x _ H s' Hh. apply (upto_may_apply i s); [done|].
    destruct rest as [|s0 rest]; [done|]. injection Hh as ->. symmetry in Hrest.
    apply drop_stage in Hrest as [Hrest _]. lia.
Qed.

Lemma turns_drive_from s :
  turns i (fun x => may_apply i s (trace_of x)) (drive_from cfg env co world c s) (turn_ok c).
Proof.
  eapply turns_weaken; [apply (turns_drive _ (stage_index s) eq_refl); by destruct s| |done].
  intros x _ H s' Hs'. destruct (drop (stage_index s) STAGES) as [|s0 rest] eqn:E; [done|].
  apply drop_stage in E as [E _]. apply stage_index_inj in E as <-. by injection Hs' as <-.
Qed.

(** Who may act on a reconciliation that found nothing applied. *)
Definition may_retry (s : stage) (a : attempted) (x : cstate) : Prop :=
  ∀ o, a = Answered o → sr_outcome o = u"not_applied" → may_apply i s (trace_of x).

Lemma turns_resume_ends s a :
  turns i (fun x => attempted_ok i a x ∧ upto i s (trace_of x) ∧ may_retry s a x)
    (resume_ends cfg env co world c s a) (turn_ok c).
Proof.
  destruct a as [o|f]; cbn [resume_ends attempted_ok].
  2: { apply turns_ret. by intros x _ [H _]. }
  apply turns_pure. intros [_ Ho]. case_bool_decide as E.
  { eapply turns_bind.
    - eapply turns_weaken; [by apply (turns_persist (upto i s))|by intros x _ [H _]|intros f x _ H; exact H].
    - intros [f|]; cbn beta; [apply turns_ret; by intros x _ [H' _]|].
      apply turns_pure. intros Hs. apply turns_check. intros s' Hs'. unfold next_stage in Hs'.
      eapply turns_weaken; [apply turns_drive_from| |done].
      intros x _ H. apply (upto_may_apply i s); [done|].
      destruct (STAGES !! _) as [s0|] eqn:El; [|done]. injection Hs' as ->. apply stage_at in El. lia. }
  case_bool_decide as E'.
  - eapply turns_weaken; [apply turns_drive_from| |done]. intros x _ [_ H]. by apply (H o).
  - eapply turns_weaken; [apply (turns_end_unresolved (upto i s))|by intros x _ [H _]|done].
Qed.

Lemma turns_resume_started s :
  turns i (fun x => started i s (file x) ∧ upto i s (trace_of x)) (resume_started cfg env co world c s)
    (turn_ok c).
Proof.
  eapply turns_bind.
  { eapply turns_weaken; [apply turns_attempt|by intros x _ [H1 H2]; split_and!|intros a x _ H; exact H]. }
  intros [t|a]; cbn beta.
  - apply turns_ret. intros x _ H. split; [done|]. by split.
  - eapply turns_weaken; [apply turns_resume_ends| |done]. intros x _ (H1 & H2 & H3). split_and!; try done.
    intros o -> Eo. by destruct H2.
Qed.

Lemma turns_attempt_ends s k t :
  turns i (suspended_ok c s k t) (attempt_ends cfg env co c s t)
    (fun a x => attempted_ok i a x ∧ upto i s (trace_of x) ∧ (k = Reconciling → may_retry s a x)).
Proof.
  set (X := upto i s).
  assert (U : ∀ reason, reason ≠ [] →
    turns i (fun x => X (trace_of x)) (st_ret (Answered (unknown_outcome reason)))
      (fun a x => attempted_ok i a x ∧ X (trace_of x) ∧ (k = Reconciling → may_retry s a x))).
  { intros reason Hr. apply turns_ret. intros x _ HX. split_and!; [by apply unknown_ok|done|].
    by intros _ o [= <-] ?. }
  intros x Hx Hs. pose proof Hs as [(Ht & Hup & Hlast) Hk].
  unfold attempt_ends, st_bind, st_get.
  destruct (task_done t x) as [[o| |e]|] eqn:Et.
  - split_and!; try done. intros a [= <-]. cbn [fst]. split_and!; [by apply (g_results _ Hx t)|done|].
    intros -> o' [= <-] Eo n d Hd Hi Hr. specialize (Hup n d Hd Hi Hr).
    destruct (decide (stage_index (cl_stage d) < stage_index s)%nat) as [?|Hge]; [by left|right].
    split; [apply stage_index_inj; lia|]. exists t. split.
    + destruct (lt_eq_lt_dec n t) as [[?| ->]|Hgt]; [done| |].
      * change (cs_calls x !! t = Some d) in Hd. rewrite Ht in Hd. injection Hd as <-. done.
      * exfalso. apply (Hlast n d); [done|done|]. by rewrite Hi.
    + eexists _, o. split; [exact Ht|]. by split_and!.
  - by apply (U _ (unexpected_nonempty s)).
  - destruct (turns_effect_failed X c s e x Hx Hup) as (H1 & H2 & H3). split_and!; [done|done|].
    intros a Ha. destruct (H3 a Ha) as (A1 & A2 & A3). split_and!; [done|done|].
    by intros _ o -> Eo.
  - assert (A : turns i (fun x => X (trace_of x))
        (do^ abandon t (operation_id (cx_request c)) in
         st_ret (Answered (unknown_outcome (u"timeout_unknown"))))
        (fun a x => attempted_ok i a x ∧ X (trace_of x) ∧ (k = Reconciling → may_retry s a x))).
    { eapply turns_bind.
      - eapply turns_weaken; [apply (turns_abandon i X (fun _ => True))|done|intros b y _ H; exact H].
      - intros ?. eapply turns_weaken; [by apply U|by intros y _ [_ H]|done]. }
    by apply A.
Qed.

Lemma turns_continue s k t :
  turns i (suspended_ok c s k t) (continue_ cfg env co world c s k t) (turn_ok c).
Proof.
  intros x Hx Hs. pose proof Hs as [_ Hk]. revert x Hx Hs.
  eapply turns_bind; [apply turns_attempt_ends|]. intros a. destruct k as [|rest]; cbn beta iota.
  - eapply turns_weaken; [apply turns_resume_ends| |done]. intros x _ (H1 & H2 & H3).
    split_and!; [done|done|by apply H3].
  - eapply turns_weaken; [apply (turns_apply_ends s a)|by intros x _ (H1 & H2 & _)|done].
    apply turns_pure. intros Hr. rewrite (Hk rest eq_refl).
    eapply turns_weaken; [apply (turns_drive _ _ eq_refl); by destruct s| |done].
    intros x _ H s' Hh. apply (upto_may_apply i s); [done|].
    destruct (drop _ STAGES) as [|s0 rest'] eqn:E; [done|]. injection Hh as ->.
    apply drop_stage in E as [E _]. lia.
Qed.

Lemma turns_cancelled {A} s k t Q :
  turns i (suspended_ok c s k t) (attempt_cancelled (A := A) cfg env co c s t) Q.
Proof.
  set (X := upto i s). apply (turns_weaken _ _ (fun x => X (trace_of x)) _ _ Q); [|by intros x _ [(_ & H & _) _]|done].
  eapply turns_bind.
  - eapply turns_weaken; [apply (turns_abandon i X (fun _ => True))|done|intros b y _ H; exact H].
  - intros ?. eapply turns_bind.
    + eapply turns_weaken; [apply (turns_unresolved X)|by intros y _ [_ H]|intros b y _ H; exact H].
    + intros ?. by apply turns_lift.
Qed.
End Context_.

(** ** Runs *)

(** What a run may await past its gate. *)
Definition waiting_ok (request : BrokerRequest) (p : phase) (x : cstate) : Prop :=
  match p with
  | PEffect c s k t => cx_request c = request ∧ suspended_ok c s k t x
  | PPoll _ => True
  | _ => False
  end.

Definition run_ok (request : BrokerRequest) (e : run_end) (x : cstate) : Prop :=
  match e with
  | Waits p => waiting_ok request p x
  | Responds f => answered (identity request) f (file x)
  end.

Lemma turns_read_clock i P :
  turns i (fun x => P (file x)) (read_clock clock) (fun _ x => P (file x)).
Proof.
  eapply turns_weaken; [apply (turns_same i (fun _ => True) (read_clock clock) (fun _ => P) P)|done|by intros ? ? _ []].
  intros x Hj HP. by split_and!.
Qed.

(** The journal's account of a lifecycle bounds the applications so far. *)
Lemma stands_upto x i p s : good x → stands i p (file x) → stage_index s = p_next p →
  upto i s (trace_of x) ∧ (p_started p = false → may_apply i s (trace_of x)).
Proof.
  intros Hx Hp Hs.
  assert (H : ∀ n d, cs_calls x !! n = Some d → cl_ident d = i →
            (stage_index (cl_stage d) < stage_index s)%nat
            ∨ (stage_index (cl_stage d) = stage_index s ∧ p_started p = true)).
  { intros n d Hd Hi. pose proof (g_started _ Hx n d Hd) as Hst. rewrite Hi in Hst.
    rewrite Hs. by apply started_index with (j := file x) (i := i). }
  split.
  - intros n d Hd Hi _. destruct (H n d Hd Hi) as [?|[? _]]; lia.
  - intros Hns n d Hd Hi _. destruct (H n d Hd Hi) as [?|[_ ?]]; [by left|congruence].
Qed.

Lemma turns_run_claimed request authority d :
  turns (identity request) (fun x => ∃ p, stands (identity request) p (file x) ∧ decision p = d)
    (run_claimed cfg env co world request authority d) (run_ok request).
Proof.
  unfold run_claimed. destruct (d_response d) as [f|] eqn:Ed.
  { apply turns_ret. intros x _ (p & Hp & <-). apply decision_response in Ed as (t & s & Ht).
    by exists p, t, s. }
  destruct (d_stage d) as [s|] eqn:Es; [|by apply turns_lift].
  set (c := {| cx_request := request; cx_authority := authority; cx_owner := co_owner co |}).
  assert (Hend : ∀ e, turns (identity request) (turn_ok c e) (st_lift (run_turn e)) (run_ok request)).
  { intros [c' s' k t|[f|]]; cbn [run_turn turn_ok]; apply turns_lift.
    - intros r x [= <-] _ [-> H]. by split.
    - by intros r x [= <-] _ H.
    - by intros r x [= ]. }
  assert (Hopen : ∀ x, good x → (∃ p, stands (identity request) p (file x) ∧ decision p = d) →
            upto (identity request) s (trace_of x)
            ∧ (d_state d = DInFlight → started (identity request) s (file x))
            ∧ (d_state d ≠ DInFlight → may_apply (identity request) s (trace_of x))).
  { intros x Hx (p & Hp & <-). unfold decision in *.
    destruct (p_terminal p) as [[[? ?] ?]|] eqn:Et; [done|]. destruct (p_owner p) eqn:Eo; [|done].
    destruct (stands_open _ _ _ Hp Et ltac:(eauto)) as (s' & Hs' & Hi & Hst).
    rewrite Hs' in Es. injection Es as ->. destruct (stands_upto _ _ _ s Hx Hp Hi) as [U M].
    cbn [d_state]. destruct (p_started p); split_and!; auto; done. }
  case_bool_decide as Eb.
  - eapply turns_bind; [|apply Hend]. eapply turns_weaken; [apply (turns_resume_started c)| |done].
    intros x Hx H. destruct (Hopen x Hx H) as (U & S & _). split; [by apply S|done].
  - eapply turns_bind; [|apply Hend]. eapply turns_weaken; [apply (turns_drive_from c)| |done].
    intros x Hx H. destruct (Hopen x Hx H) as (_ & _ & M). by apply M.
Qed.

Lemma turns_claim_once request authority deadline :
  turns (identity request) (fun _ => True) (claim_once cfg env co clock world request authority deadline)
    (run_ok request).
Proof.
  intros x Hx _. unfold claim_once.
  pose proof (turns_journal_ (identity request) (fun _ => True) _ _
    (runs_claim cfg env ENV request (co_owner co) (co_broker co)) x Hx I) as H.
  destruct (journal_op _ x) as [x1 [d|e]]; cbn [fst snd] in H; destruct H as (H1 & H2 & H3).
  - destruct (H3 d eq_refl) as [(rp & Hn & Hrp & Ho & Hb & Hd) _].
    destruct (turns_run_claimed request authority d x1 H1) as (K1 & K2 & K3).
    { exists (rp_progress rp). split; [by exists rp|done]. }
    split_and!; [done|by transitivity x1|done].
  - destruct (caught e _); [|by split_and!].
    match goal with |- context [fst (?m x1)] =>
      assert (T : turns (identity request) (fun _ => True) m (run_ok request)) end.
    2: { destruct (T x1 H1 I) as (K1 & K2 & K3). split_and!; [done|by transitivity x1|done]. }
    eapply turns_bind.
    { apply (turns_journal_ _ (fun _ => True)). apply (runs_status _ _ ENV (fun _ => True)), stable_const. }
    intros cur. cbn beta. destruct (d_response cur) as [f|] eqn:Ef.
    + eapply turns_weaken; [apply turns_run_claimed| |done]. intros y Hy [[_ Hq] _].
      assert (Hn : rows_for (identity request) (jn_events (file y)) ≠ []).
      { intros E. unfold status_query in Hq. rewrite E in Hq. injection Hq as <-. done. }
      destruct (status_query_ok _ _ _ _ Hq Hn) as (rp & Hrp & <-).
      exists (rp_progress rp). split; [by exists rp|done].
    + eapply turns_bind; [eapply turns_weaken;
        [apply (turns_read_clock _ (fun _ => True))|done|intros a y _ H; exact H]|].
      intros now. destruct (deadline <=? now); [by apply turns_lift|by apply turns_ret].
Qed.

Lemma turns_run_body request frame authority :
  turns (identity request) (fun _ => True) (run_body cfg env co clock world request frame authority)
    (run_ok request).
Proof.
  eapply turns_bind; [apply (turns_journal_ _ (fun _ => True)), runs_accept, ENV|]. intros d. cbn beta.
  destruct (d_response d) as [f|] eqn:Ef.
  - apply turns_ret. intros x _ [(rp & Hn & Hrp & _ & _ & <-) _].
    apply decision_response in Ef as (t & s & Ht). exists (rp_progress rp), t, s. split; [by exists rp|done].
  - eapply turns_bind; [eapply turns_weaken;
      [apply (turns_read_clock _ (fun _ => True))|done|intros a y _ H; exact H]|].
    intros now. apply turns_claim_once.
Qed.

(** ** Turns and gates *)

(** What the turn of one lifecycle changes for the tasks of the others. *)
Record moves (i : ident) (x x' : cstate) : Prop := {
  mv_file : extends (file x) (file x');
  mv_calls : ∃ new, cs_calls x' = cs_calls x ++ new ∧ Forall (fun c => cl_ident c = i) new;
  mv_results : cs_results x' = cs_results x;
}.

Lemma evolves_moves i x x' : evolves i x x' → moves i x x'.
Proof. by intros []. Qed.

Lemma with_gates_good x g : good x → good (with_gates g x).
Proof. by intros []. Qed.

(** A run's turn ends with its gate kept at an await, or given back. *)
Lemma finally_release_ok request gid n C m x : good x → gates_ok (cs_gates x) C →
  C !! n = Some {| c_key := operation_id request; c_gate := gid; c_holds := true |} →
  turns (identity request) (fun y => y = x) m (run_ok request) →
  let '(x', p) := finally_release (operation_id request) gid m x in
  good x' ∧ moves (identity request) x x'
  ∧ ((waiting_ok request p x' ∧ cs_gates x' = cs_gates x)
     ∨ ∃ r, p = PDone r ∧ gates_ok (cs_gates x') (delete n C) ∧ r ≠ Ok None
            ∧ ∀ f, r = Ok (Some f) → answered (identity request) f (file x')).
Proof.
  intros Hx HC Hn Hm. destruct (Hm x Hx eq_refl) as (H1 & H2 & H3). unfold finally_release.
  destruct (m x) as [x1 r]. cbn [fst snd] in *.
  destruct (release_gate_ok _ _ _ _ _ HC Hn) as (g' & Hg & HC').
  assert (Hrel : gates_op (release_gate (operation_id request) gid) x1 = (with_gates g' x1, Ok tt)).
  { unfold gates_op. rewrite (e_gates _ _ _ H2), Hg. done. }
  destruct r as [[p|f]|e]; rewrite ?Hrel.
  - split_and!; [done|by apply evolves_moves|]. left. split; [by apply (H3 (Waits p))|apply H2].
  - split_and!; [by apply with_gates_good|by apply evolves_moves in H2 as []|].
    right. eexists. split_and!; [done|done|done|]. intros f' [= <-]. by apply (H3 (Responds f)).
  - split_and!; [by apply with_gates_good|by apply evolves_moves in H2 as []|].
    right. eexists. split_and!; done.
Qed.

(** ** What recovery finds *)

Definition claimed (i : ident) (j : journal) : Prop :=
  ∃ p, stands i p j ∧ is_Some (p_owner p).
Definition settled (i : ident) (j : journal) : Prop :=
  ∃ p, stands i p j ∧ p_terminal p ≠ None.

(** A lifecycle listed from some state of the file since [j0]. *)
Definition listed (j0 j : journal) (i : ident) (l : IncompleteReplicaLifecycle) : Prop :=
  ∃ j1, journal_ok cfg j1 ∧ extends j0 j1 ∧ extends j1 j ∧ rows_for i (jn_events j1) ≠ []
        ∧ pending_of cfg (history i (jn_events j1)) = Ok (Some l).

Lemma settled_stable i : stable_ (settled i).
Proof.
  intros j j' _ Hj' Hext (p & Hp & Ht). destruct (stands_later _ _ _ _ Hj' Hext Hp) as (p' & Hp' & E).
  exists p'. split; [done|]. by rewrite E.
Qed.

Lemma claimed_stable i : stable_ (claimed i).
Proof.
  intros j j' _ Hj' Hext (p & (rp & Hn & Hrp & <-) & o & Ho).
  destruct (replay_later cfg _ _ _ _ Hj' Hext Hn Hrp) as (rest & rp' & Hrest & Hrp').
  exists (rp_progress rp'). split; [|exists o; by apply (owner_kept _ _ _ _ _ _ Hrp Hrp')].
  exists rp'. rewrite Hrest. split_and!; [|done|done]. intros E. apply history_nil in E.
  rewrite E in Hrest. symmetry in Hrest. apply app_eq_nil in Hrest as [Hnil _]. by apply Hn, history_nil.
Qed.

Lemma runs_frame {A} (P S : journal → Prop) (m : st rstore A) Q : stable_ S → runs cfg P m Q →
  runs cfg (fun j => P j ∧ S j) m (fun a j => Q a j ∧ S j).
Proof.
  intros HS H s Hs [HP Hss]. destruct (H s Hs HP) as (H1 & H2 & H3). split_and!; [done|done|].
  intros a Ha. split; [by apply H3|by apply (HS (rs_journal s))].
Qed.

Lemma pending_none i j rp : replay cfg (history i (jn_events j)) = Ok rp →
  pending_of cfg (history i (jn_events j)) = Ok None → rows_for i (jn_events j) ≠ [] →
  claimed i j → settled i j.
Proof.
  intros Hrp Hnone Hn (p & Hp & [o Ho]). exists p. split; [done|]. intros Ht.
  assert (rp_progress rp = p) as E.
  { apply (stands_unique i _ _ j); [|done]. by exists rp. }
  unfold pending_of in Hnone. rewrite Hrp in Hnone. cbn [res_bind] in Hnone. rewrite E, Ho, Ht in Hnone.
  destruct (STAGES !! p_next p); [|done]. by destruct (p_broker p).
Qed.

Definition pending_list (j0 : journal) (ids : list ident) (ls : list IncompleteReplicaLifecycle)
    (j : journal) : Prop :=
  ∃ ids', ids' `sublist_of` ids ∧ Forall2 (listed j0 j) ids' ls
          ∧ ∀ i, i ∈ ids → claimed i j0 → i ∈ ids' ∨ settled i j.

Lemma runs_collect c k ids j0 : conn_ok cfg c → journal_ok cfg j0 →
  runs cfg (fun j => extends j0 j ∧ ∀ i, i ∈ ids → rows_for i (jn_events j) ≠ [])
    (collect_pending cfg c k ids) (fun ls j => pending_list j0 ids ls j).
Proof.
  intros Hc Hj0. revert k. induction ids as [|i ids IH]; intros k; cbn [collect_pending].
  { apply runs_ret. intros j _ _. exists []. split_and!; [done|done|]. by intros i ?%elem_of_nil. }
  set (P := fun j => extends j0 j ∧ ∀ x, x ∈ i :: ids → rows_for x (jn_events j) ≠ []).
  assert (SP : stable_ P).
  { intros j j' _ _ Hext [E H]. split; [by transitivity j|]. intros x Hx Hnil. apply (H x Hx).
    destruct Hext as (_ & _ & _ & more & Em). rewrite Em, rows_for_app in Hnil.
    by apply app_eq_nil in Hnil as [? _]. }
  set (S := fun (o : option IncompleteReplicaLifecycle) j => ∃ j1, journal_ok cfg j1 ∧ extends j0 j1
        ∧ extends j1 j ∧ rows_for i (jn_events j1) ≠ [] ∧ pending_of cfg (history i (jn_events j1)) = Ok o).
  assert (SS : ∀ o, stable_ (S o)).
  { intros o j j' _ _ Hext (j1 & A & B & Cx & D). exists j1. split_and!; try done; [by transitivity j|apply D..]. }
  eapply runs_bind; [by apply (runs_statement _ P)|]. intros j'. cbn beta.
  apply (runs_bind _ _ _ _ (fun o j => P j ∧ S o j)).
  { apply runs_lift. intros o j Ho Hj [-> Hp]. split; [done|]. exists j. split_and!; try done; [apply Hp|].
    apply Hp. left. }
  intros o. apply (runs_bind _ _ _ _ (fun ls j => pending_list j0 ids ls j ∧ S o j)).
  { eapply (runs_weaken _ _ (fun j => (extends j0 j ∧ ∀ x, x ∈ ids → rows_for x (jn_events j) ≠ []) ∧ S o j));
      [apply runs_frame; [apply SS|apply IH]| |done].
    intros j _ [[E H] HS]. split; [|done]. split; [done|]. intros x Hx. apply H. by right. }
  intros ls. apply runs_ret. intros j Hj [(ids' & Hsub & Hall & Hcov) (j1 & J1 & E1 & E2 & N1 & Hp)].
  destruct o as [l|].
  - exists (i :: ids'). split_and!; [by constructor|by constructor; [exists j1|]|].
    intros x [->|Hx]%elem_of_cons Hcl; [left; left|]. destruct (Hcov x Hx Hcl); [left; by right|by right].
  - exists ids'. split_and!; [by constructor|done|].
    intros x [->|Hx]%elem_of_cons Hcl; [|by apply Hcov].
    right. destruct (history_replays cfg i j1 J1 N1) as [rp Hrp].
    apply (settled_stable i j1 j J1 Hj E2). apply (pending_none i j1 rp Hrp Hp N1).
    by apply (claimed_stable i j0 j1).
Qed.

(** [incomplete_lifecycles] lists each lifecycle at most once, from a state it
    had, and misses none that was claimed when it was called. *)
Lemma runs_incomplete_listed j0 : journal_ok cfg j0 →
  runs cfg (fun j => extends j0 j) (incomplete_lifecycles cfg env)
    (fun ls j => ∃ ids, NoDup ids ∧ Forall2 (listed j0 j) ids ls
                        ∧ ∀ i, claimed i j0 → i ∈ ids ∨ settled i j).
Proof.
  intros Hj0. assert (SE : stable_ (fun j => extends j0 j)) by (intros j j' _ _ H E; by transitivity j).
  apply runs_query; [done|done|]. intros c j Hc Hj Hext.
  eapply runs_weaken; [by apply (runs_collect c 1 (first_seen [] (jn_events j)) j0)| |].
  - intros j' _ [-> _]. split; [done|]. intros i Hi. by apply first_seen_spec in Hi as [_ ?].
  - intros ls j' _ (ids' & Hsub & Hall & Hcov). exists ids'. split_and!; [|done|].
    + eapply sublist_NoDup; [apply (first_seen_nodup [])|done].
    + intros i Hi. apply Hcov; [|done]. apply first_seen_spec. split; [apply not_elem_of_nil|].
      destruct (claimed_stable i j0 j Hj0 Hj Hext Hi) as (p & (rp & Hn & _) & _). done.
Qed.

(** *** One lifecycle *)

Definition lifecycle_for (i : ident) (l : IncompleteReplicaLifecycle) : Prop :=
  ∃ q, authenticate_request_frame (il_request_frame l) (cf_request_key cfg) = Ok q ∧ identity q = i.

(** Where a listed lifecycle may be taken up. *)
Definition open_at (i : ident) (l : IncompleteReplicaLifecycle) (x : cstate) : Prop :=
  lifecycle_for i l
  ∧ (il_started l = true → started i (il_stage l) (file x) ∧ upto i (il_stage l) (trace_of x))
  ∧ (il_started l = false → may_apply i (il_stage l) (trace_of x)).

Lemma history_identity i db r : r ∈ history i db → identity_ r = i.
Proof.
  unfold history. intros Hr. apply list_elem_of_fmap in Hr as (e & -> & He).
  by apply rows_for_identity in He as [? _].
Qed.

Lemma replay_request i db rp : replay cfg (history i db) = Ok rp →
  ∃ q, authenticate_request_frame (rp_frame rp) (cf_request_key cfg) = Ok q ∧ identity q = i.
Proof.
  intros (r & rest & q & key & p & Hr & _ & Ha & _)%replay_ok.
  assert (Hi : identity_ r = i) by (apply (history_identity i db); rewrite Hr; left).
  unfold replay_acceptance in Ha.
  destruct (stage_ r), (request_frame r) as [f|], (row_target r), (row_generation r),
    (row_execution_owner r); try done.
  apply bind_error_ok in Ha as (u1 & _ & Ha). apply bind_error_ok in Ha as (q1 & Hq1%reraise_ok & Ha).
  apply bind_error_ok in Ha as (p1 & _ & Ha). apply bind_error_ok in Ha as (u2 & Hb%require_ok & Ha).
  apply bind_error_ok in Ha as (a1 & _ & Ha). apply bind_error_ok in Ha as (l1 & _ & Ha).
  apply bind_error_ok in Ha as (u3 & _ & Ha). destruct (assoc_get _ _); [|done].
  apply bind_error_ok in Ha as (v1 & _ & Ha). apply bind_error_ok in Ha as (d1 & _ & Ha).
  apply bind_error_ok in Ha as (u4 & _ & Ha). injection Ha as <- <- _ _.
  exists q1. split; [done|]. breflect. unfold identity. congruence.
Qed.

Lemma listed_open j0 x i l : good x → extends j0 (file x) →
  (∀ n d, cs_calls x !! n = Some d → started (cl_ident d) (cl_stage d) j0) →
  listed j0 (file x) i l → open_at i l x.
Proof.
  intros Hx Hext Hst (j1 & J1 & E1 & E2 & N1 & Hp).
  unfold pending_of in Hp. apply bind_error_ok in Hp as (rp & Hrp & Hp).
  destruct (p_owner (rp_progress rp)) as [o|] eqn:Eo; [|done].
  destruct (p_terminal (rp_progress rp)) eqn:Et; [done|].
  assert (Hs : stands i (rp_progress rp) j1) by (by exists rp).
  destruct (stands_open _ _ _ Hs Et ltac:(eauto)) as (s & Hs' & Hidx & Hstart).
  rewrite Hs' in Hp. destruct (p_broker (rp_progress rp)) as [b|]; [|done]. injection Hp as <-.
  assert (Hst1 : ∀ n d, cs_calls x !! n = Some d → cl_ident d = i →
            (stage_index (cl_stage d) < stage_index s)%nat
            ∨ (stage_index (cl_stage d) = stage_index s ∧ p_started (rp_progress rp) = true)).
  { intros n d Hd Hi. rewrite Hidx. apply (started_index i _ _ j1); [done|].
    destruct (Hst n d Hd) as (r & Hr & K). rewrite Hi in Hr. exists r. split; [|done].
    by apply (history_extends i j0). }
  split_and!; cbn [il_request_frame il_started il_stage].
  - by apply (replay_request i (jn_events j1)).
  - intros Hsp. split.
    + destruct (Hstart Hsp) as (r & Hr & K). exists r. split; [by apply (history_extends i j1)|done].
    + intros n d Hd Hi _. destruct (Hst1 n d Hd Hi) as [?|[? _]]; lia.
  - intros Hsp n d Hd Hi _. destruct (Hst1 n d Hd Hi) as [?|[_ ?]]; [by left|congruence].
Qed.

(** *** The loop of recovery *)

Lemma moves_lookup i x x' n d : moves i x x' → cs_calls x' !! n = Some d → cl_ident d ≠ i →
  cs_calls x !! n = Some d.
Proof.
  intros [_ (new & -> & Hnew) _] Hd Hi. apply lookup_app_Some in Hd as [Hd|[_ Hd]]; [done|].
  rewrite Forall_forall in Hnew. apply list_elem_of_lookup_2, Hnew in Hd. done.
Qed.

Lemma moves_lookup_old i x x' n d : moves i x x' → cs_calls x !! n = Some d → cs_calls x' !! n = Some d.
Proof. intros [_ (new & -> & _) _] Hd. by apply lookup_app_l_Some. Qed.

Lemma upto_moves i i' s x x' : moves i x x' → i' ≠ i → upto i' s (trace_of x) → upto i' s (trace_of x').
Proof.
  intros M N H n d Hd Hi. apply (H n d); [|done]. apply (moves_lookup i _ x'); [done|done|congruence].
Qed.

Lemma may_apply_moves i i' s x x' : moves i x x' → i' ≠ i →
  may_apply i' s (trace_of x) → may_apply i' s (trace_of x').
Proof.
  intros M N H n d Hd Hi Hr.
  destruct (H n d) as [?|(E & k & Hk & y & o & Hy & A)];
    [apply (moves_lookup i _ x'); [done|done|congruence]|done|done|by left|right].
  split; [done|]. exists k. split; [done|]. exists y, o.
  split; [by apply (moves_lookup_old i x)|]. cbn. by rewrite (mv_results _ _ _ M).
Qed.

Lemma open_moves i i' l x x' : good x → good x' → moves i x x' → i' ≠ i → open_at i' l x → open_at i' l x'.
Proof.
  intros Hx Hx' M N (H1 & H2 & H3). split_and!; [done| |].
  - intros Hs. destruct (H2 Hs) as [A B]. split; [|by apply (upto_moves i _ _ x)].
    by apply (started_stable _ _ _ _ (g_journal _ Hx) (g_journal _ Hx') (mv_file _ _ _ M)).
  - intros Hs. apply (may_apply_moves i _ _ x); auto.
Qed.

Lemma turns_recover_one i l :
  turns i (open_at i l) (recover_one cfg env co world l)
    (fun e x => ∃ c, identity (cx_request c) = i ∧ turn_ok c e x).
Proof.
  set (R := fun i x => (il_started l = true → started i (il_stage l) (file x) ∧ upto i (il_stage l) (trace_of x))
                       ∧ (il_started l = false → may_apply i (il_stage l) (trace_of x))).
  apply (turns_pure i (lifecycle_for i l) (R i)). intros (q & Hq & Hi).
  apply turns_check. intros q' Hq'. unfold authenticated_request in Hq'.
  apply bind_error_ok in Hq' as (u0 & _ & Hq'%reraise_ok). rewrite Hq in Hq'. injection Hq' as <-.
  subst i. case_bool_decide.
  - set (c := {| cx_request := q; cx_authority := il_authority l; cx_owner := il_owner_token l |}).
    assert (Hc : ∀ m, turns (identity q) (R (identity q)) m (turn_ok c) →
      turns (identity q) (R (identity q)) m
        (fun e x => ∃ c, identity (cx_request c) = identity q ∧ turn_ok c e x)).
    { intros m Hm. eapply turns_weaken; [exact Hm|done|]. intros e x _ H'. by exists c. }
    destruct (il_started l) eqn:Es; apply Hc.
    + eapply turns_weaken; [apply (turns_resume_started c)| |done]. intros x _ [H' _]. by apply H'.
    + eapply turns_weaken; [apply (turns_drive_from c)| |done]. intros x _ [_ H']. by apply H'.
  - set (X := fun _ : trace => True).
    apply (turns_weaken _ _ (fun x => X (trace_of x)) _ _
      (fun e x => ∃ c, identity (cx_request c) = identity q ∧ turn_ok c e x)); [|done|done].
    eapply (turns_bind _ _ _ _ (fun _ x => X (trace_of x))).
    + destruct (il_started l); [by apply turns_ret|].
      eapply turns_bind; [apply (turns_journal_ _ X), (runs_begin_stage _ _ ENV _ _ _ (il_stage l)), stage_of_stage_name|].
      intros pos. by apply turns_ret.
    + intros ?. eapply turns_bind; [apply turns_unresolved|]. intros f. apply turns_ret. intros x _ [H' _].
      by exists {| cx_request := q; cx_authority := il_authority l; cx_owner := il_owner_token l |}.
Qed.

(** What recovery awaits, and that it misses none of [D]. *)
Definition recovery_ok (D : ident → Prop) (p : phase) (ls : list IncompleteReplicaLifecycle) (x : cstate) : Prop :=
  match p with
  | PEffect c s k t =>
      suspended_ok c s k t x
      ∧ ∃ ids, NoDup (identity (cx_request c) :: ids) ∧ Forall2 (fun i l => open_at i l x) ids ls
               ∧ ∀ i, D i → settled i (file x) ∨ i ∈ identity (cx_request c) :: ids
  | PDone (Ok _) => ∀ i, D i → settled i (file x)
  | PDone (Raise _) => True
  | _ => False
  end.

Definition recovers (D : ident → Prop) (x : cstate)
    (r : cstate * res (phase * list IncompleteReplicaLifecycle)) : Prop :=
  good r.1 ∧ extends (file x) (file r.1) ∧ cs_gates r.1 = cs_gates x
  ∧ ∀ p ls, r.2 = Ok (p, ls) → recovery_ok D p ls r.1.

Lemma answered_settled i f j : answered i f j → settled i j.
Proof. intros (p & t & s & Hp & Ht). exists p. split; [done|]. by rewrite Ht. Qed.

(** One lifecycle's turn, then the others. *)
Lemma recovers_turn D i ids ls m next x : good x → NoDup (i :: ids) →
  Forall2 (fun i l => open_at i l x) ids ls →
  (∀ j, D j → settled j (file x) ∨ j ∈ i :: ids) →
  turns i (fun y => y = x) m (fun e x => ∃ c, identity (cx_request c) = i ∧ turn_ok c e x) →
  (∀ y, good y → NoDup ids → Forall2 (fun i l => open_at i l y) ids ls →
     (∀ j, D j → settled j (file y) ∨ j ∈ ids) → recovers D y (next y)) →
  recovers D x ((let^ e := m in
                 match e with
                 | Suspended c s k t => st_ret (PEffect c s k t, ls)
                 | Returned _ => next
                 end) x).
Proof.
  intros Hx Hnd Hall Hcov Hm Hnext. destruct (Hm x Hx eq_refl) as (H1 & H2 & H3).
  unfold st_bind. destruct (m x) as [x1 [e|e]]; cbn [fst snd] in *.
  2: { split_and!; [done|apply H2|apply H2|done]. }
  destruct (H3 e eq_refl) as (c & Hc & Ht). apply NoDup_cons in Hnd as [Hni Hnd].
  assert (Hall1 : Forall2 (fun i l => open_at i l x1) ids ls).
  { clear -Hall Hni Hx H1 H2. induction Hall as [|i' l ids ls Ho Hall IH]; constructor.
    - apply (open_moves i _ _ x); [done|done|by apply evolves_moves| |done].
      intros ->. apply Hni. left.
    - apply IH. intros Hi. apply Hni. by right. }
  destruct e as [c' s k t|o]; cbn [turn_ok] in Ht.
  - destruct Ht as [-> Ht]. split_and!; [done|apply H2|apply H2|].
    intros p ls' [= <- <-]. split; [done|]. exists ids. rewrite Hc.
    split_and!; [by constructor|done|]. intros j Hj. destruct (Hcov j Hj) as [Hs|?]; [left|by right].
    by apply (settled_stable j (file x)); [apply Hx|apply H1|apply H2|].
  - destruct o as [f|]; [|done]. rewrite Hc in Ht.
    destruct (Hnext x1 H1 Hnd Hall1) as (A1 & A2 & A3 & A4).
    { intros j Hj. destruct (Hcov j Hj) as [Hs|[->|Hin]%elem_of_cons].
      - left. by apply (settled_stable j (file x)); [apply Hx|apply H1|apply H2|].
      - left. by apply answered_settled with f.
      - by right. }
    split_and!; [done|transitivity (file x1); [apply H2|done]|rewrite A3; apply H2|done].
Qed.

Lemma recover_all_ok D ids ls x : good x → NoDup ids → Forall2 (fun i l => open_at i l x) ids ls →
  (∀ j, D j → settled j (file x) ∨ j ∈ ids) → recovers D x (recover_all cfg env co world ls x).
Proof.
  intros Hx Hnd Hall Hcov. revert ids x Hx Hnd Hall Hcov. induction ls as [|l ls IH]; intros ids x Hx Hnd Hall Hcov.
  - cbn [recover_all]. split_and!; [done|done|done|]. intros p ls [= <- <-] j Hj.
    inversion Hall; subst. destruct (Hcov j Hj) as [?|?%elem_of_nil]; done.
  - inversion Hall as [|i ? ids' ? Ho Hall']; subst. cbn [recover_all].
    apply (recovers_turn D i ids'); [done|done|done|done| |].
    + eapply turns_weaken; [apply (turns_recover_one i l)|by intros ? _ ->|done].
    + intros y Hy Hn Hl Hc. by apply (IH ids').
Qed.

Lemma start_recovery_ok D x : good x → (∀ i, D i → claimed i (file x)) →
  recovers D x ((let^ ls := journal_op (incomplete_lifecycles cfg env) in recover_all cfg env co world ls) x).
Proof.
  intros Hx HD. set (j0 := file x).
  pose proof (turns_journal ([], [], []) (fun tr => tr = trace_of x) (fun j => extends j0 j)
    _ _ (runs_incomplete_listed j0 (g_journal _ Hx)) x Hx (conj (reflexivity j0) eq_refl)) as H.
  unfold st_bind. destruct (journal_op _ x) as [x1 [ls|e]]; cbn [fst snd] in H; destruct H as (H1 & H2 & H3).
  2: { split_and!; [done|apply H2|apply H2|done]. }
  destruct (H3 ls eq_refl) as [(ids & Hnd & Hall & Hcov) Htr].
  destruct (recover_all_ok D ids ls x1 H1 Hnd) as (A1 & A2 & A3 & A4).
  - eapply Forall2_impl; [exact Hall|]. intros i l Hl.
    apply (listed_open j0); [done|apply H2| |done].
    intros n d Hd. apply (g_started _ Hx n). by injection Htr as <- _.
  - intros i Hi. destruct (Hcov i (HD i Hi)); [by right|by left].
  - split_and!; [done|transitivity (file x1); [apply H2|done]|rewrite A3; apply H2|done].
Qed.

Lemma resume_recovery_ok D ls c s k t (cancelled : bool) x : good x → recovery_ok D (PEffect c s k t) ls x →
  recovers D x
    ((if cancelled then attempt_cancelled cfg env co c s t
      else let^ e := continue_ cfg env co world c s k t in
           match e with
           | Suspended c s k t => st_ret (PEffect c s k t, ls)
           | Returned _ => recover_all cfg env co world ls
           end) x).
Proof.
  intros Hx [Hs (ids & Hnd & Hall & Hcov)]. destruct cancelled.
  - destruct (turns_cancelled c (A := phase * list IncompleteReplicaLifecycle) s k t (fun _ _ => False) x Hx Hs)
      as (H1 & H2 & H3).
    split_and!; [done|apply H2|apply H2|]. intros p l Hp. by apply H3 in Hp.
  - apply (recovers_turn D (identity (cx_request c)) ids); try done.
    + eapply turns_weaken; [apply (turns_continue c s k t)|by intros ? _ ->|].
      intros e y _ H. by exists c.
    + intros y Hy Hn Hl Hc. by apply (recover_all_ok D ids).
Qed.

(** ** The machine *)

(** A run is a client of its gate until it is done. *)
Definition client_of (tk : task) : option (client pystr) :=
  match tk_job tk with
  | JRun request _ _ gid =>
      match tk_phase tk with
      | PDone _ => None
      | PLock => Some {| c_key := operation_id request; c_gate := gid; c_holds := false |}
      | _ => Some {| c_key := operation_id request; c_gate := gid; c_holds := true |}
      end
  | JRecover _ => None
  end.

Definition task_ok (D : ident → Prop) (tk : task) (x : cstate) : Prop :=
  match tk_job tk with
  | JRun request _ _ _ =>
      match tk_phase tk with
      | PLock | PUncertain _ => True
      | PDone r => r ≠ Ok None ∧ ∀ f, r = Ok (Some f) → answered (identity request) f (file x)
      | p => waiting_ok request p x
      end
  | JRecover ls => recovery_ok D (tk_phase tk) ls x
  end.

Definition clients_of (tasks : list task) (C : gmap nat (client pystr)) : Prop :=
  ∀ n, C !! n = tasks !! n ≫= client_of.

Record machine_ok (D : ident → Prop) (m : machine) : Prop := {
  m_good : good (mc_state m);
  m_due : ∀ i, D i → claimed i (file (mc_state m));
  m_gates : ∃ C, gates_ok (cs_gates (mc_state m)) C ∧ clients_of (mc_tasks m) C;
  m_tasks : ∀ n tk, mc_tasks m !! n = Some tk → task_ok D tk (mc_state m);
  m_alone : ∀ n tk k tk', mc_tasks m !! n = Some tk → recovering tk = true →
    mc_tasks m !! k = Some tk' → k ≠ n → is_done (tk_phase tk') = true;
}.

Lemma moves_refl i x x' : file x' = file x → cs_calls x' = cs_calls x → cs_results x' = cs_results x →
  moves i x x'.
Proof.
  intros Hf Hc Hr. split; [by rewrite Hf|exists []; by rewrite Hc, app_nil_r|done].
Qed.

Lemma suspended_moves i c s k t x x' : moves i x x' →
  cs_calls x' = cs_calls x ∨ operation_id (cx_request c) ≠ i.1.2 →
  suspended_ok c s k t x → suspended_ok c s k t x'.
Proof.
  intros M Hc [(H1 & H2 & H3) Hk]. split; [|done]. destruct Hc as [Hc|Hc].
  { unfold waits_for, upto, trace_of in *. cbn [fst] in *. rewrite Hc. by split_and!. }
  split_and!.
  - by apply (moves_lookup_old i x).
  - apply (upto_moves i _ _ x); [done| |done]. intros <-. by apply Hc.
  - intros n d Hn Hd Ei. apply (H3 n d Hn); [|done]. apply (moves_lookup i _ x'); [done|done|].
    intros E. rewrite E in Ei. by apply Hc.
Qed.

Lemma task_moves D tk i x x' : good x → good x' → moves i x x' → recovering tk = false →
  cs_calls x' = cs_calls x ∨ (∀ c, client_of tk = Some c → c_holds c = true → c_key c ≠ i.1.2) →
  task_ok D tk x → task_ok D tk x'.
Proof.
  intros Hx Hx' M Hr Hc H. unfold task_ok, recovering, client_of in *.
  destruct (tk_job tk) as [request frame authority gid|ls].
  - destruct (tk_phase tk) as [|t|d|c s k t|r]; try done; cbn [waiting_ok] in *.
    + destruct H as [E H]. split; [done|]. apply (suspended_moves i _ _ _ _ x); [done| |done].
      destruct Hc as [Hc|Hc]; [by left|right]. rewrite E. by apply (Hc _ eq_refl).
    + destruct H as [H0 H]. split; [done|]. intros f Hf.
      apply (answered_stable _ _ (file x)); [apply Hx|apply Hx'|apply M|by apply H].
  - destruct (tk_phase tk) as [| | | |[o|e]]; try done. cbn [recovery_ok] in *. intros j Hj.
    apply (settled_stable _ (file x)); [apply Hx|apply Hx'|apply M|by apply H].
Qed.

(** Task [n] of a run takes a turn, or is new. *)
Definition replaces (n : nat) (tk : task) (ts ts' : list task) : Prop :=
  ts' !! n = Some tk ∧ ∀ k, k ≠ n → ts' !! k = ts !! k.

Lemma replaces_insert n tk ts : (n < length ts)%nat → replaces n tk ts (<[n := tk]> ts).
Proof. intros H. split; [by apply list_lookup_insert_eq|]. intros k Hk. by apply list_lookup_insert_ne. Qed.

Lemma replaces_snoc tk ts : replaces (length ts) tk ts (ts ++ [tk]).
Proof.
  split; [by rewrite lookup_app_r, Nat.sub_diag|]. intros k Hk.
  destruct (decide (k < length ts)%nat) as [Hl|Hl]; [by apply lookup_app_l|].
  rewrite lookup_app_r, (lookup_ge_None_2 ts) by lia. apply lookup_ge_None. cbn. lia.
Qed.

Lemma run_turn_ok D m n tk x' ts C C' i request frame authority gid :
  machine_ok D m → clients_of (mc_tasks m) C →
  (∀ k tk', mc_tasks m !! k = Some tk' → k ≠ n → recovering tk' = false) →
  replaces n tk (mc_tasks m) ts → tk_job tk = JRun request frame authority gid →
  good x' → moves i (mc_state m) x' → gates_ok (cs_gates x') C' →
  C' !! n = client_of tk → (∀ k, k ≠ n → C' !! k = C !! k) →
  cs_calls x' = cs_calls (mc_state m)
  ∨ (∀ k c, k ≠ n → C !! k = Some c → c_holds c = true → c_key c ≠ i.1.2) →
  task_ok D tk x' →
  machine_ok D {| mc_state := x'; mc_tasks := ts |}.
Proof.
  intros [Hg Hd _ Ht Ha] HC Hrec [Hn Hk] Hj Hx' M HC' HCn HCk Hcalls Htk. split; cbn [mc_state mc_tasks].
  - done.
  - intros j Hj'. apply (claimed_stable _ (file (mc_state m))); [apply Hg|apply Hx'|apply M|by apply Hd].
  - exists C'. split; [done|]. intros k. destruct (decide (k = n)) as [->|N]; [by rewrite Hn|].
    by rewrite HCk, Hk.
  - intros k tk' Hk'. destruct (decide (k = n)) as [->|N]; [by simplify_eq|]. rewrite Hk in Hk' by done.
    apply (task_moves D tk' i (mc_state m)); try done; [by apply (Hrec k)| |by apply (Ht k)].
    destruct Hcalls as [?|Hc]; [by left|right]. intros c Hc' Hh. apply (Hc k c N); [|done].
    by rewrite HC, Hk'.
  - intros k tk1 l tk2 H1 Hr H2 Hne. exfalso. destruct (decide (k = n)) as [->|N].
    + rewrite Hn in H1. injection H1 as <-. unfold recovering in Hr. by rewrite Hj in Hr.
    + rewrite Hk in H1 by done. by rewrite (Hrec k tk1 H1 N) in Hr.
Qed.

(** No run goes on while recovery is active. *)
Lemma not_recovering D m n tk : machine_ok D m → mc_tasks m !! n = Some tk →
  is_done (tk_phase tk) = false →
  ∀ k tk', mc_tasks m !! k = Some tk' → k ≠ n → recovering tk' = false.
Proof.
  intros H Hn Hd k tk' Hk N. destruct (recovering tk') eqn:Hr; [|done].
  pose proof (m_alone _ _ H k tk' n tk Hk Hr Hn ltac:(done)). congruence.
Qed.

(** The turn of a run that holds its gate. *)
Lemma holder_turn_ok D m n x ts C request frame authority gid p x' cancelled :
  machine_ok D m → clients_of (mc_tasks m) C → gates_ok (cs_gates x) (<[n := {| c_key := operation_id request;
    c_gate := gid; c_holds := true |}]> C) →
  (∀ k tk', mc_tasks m !! k = Some tk' → k ≠ n → recovering tk' = false) →
  good x → moves (identity request) (mc_state m) x → cs_calls x = cs_calls (mc_state m) →
  replaces n {| tk_job := JRun request frame authority gid; tk_phase := p; tk_cancelled := cancelled |}
    (mc_tasks m) ts →
  good x' → moves (identity request) x x' →
  (waiting_ok request p x' ∧ cs_gates x' = cs_gates x
     ∨ ∃ r, p = PDone r ∧ gates_ok (cs_gates x') (delete n (<[n := {| c_key := operation_id request;
              c_gate := gid; c_holds := true |}]> C)) ∧ r ≠ Ok None
            ∧ ∀ f, r = Ok (Some f) → answered (identity request) f (file x')) →
  machine_ok D {| mc_state := x'; mc_tasks := ts |}.
Proof.
  intros Hm HC HG Hrec Hx Mx Hcx Hts Hx' M H. set (c := {| c_key := operation_id request; c_gate := gid; c_holds := true |}) in *.
  assert (M' : moves (identity request) (mc_state m) x').
  { destruct Mx as [A1 A2 A3], M as [B1 (new & B2 & B4) B3].
    split; [by transitivity (file x)|exists new; by rewrite B2, Hcx|congruence]. }
  assert (Hother : ∀ k d, k ≠ n → C !! k = Some d → c_holds d = true → c_key d ≠ (identity request).1.2).
  { intros k d N Hk Hh E. apply N. apply (gates_holder _ _ k n d c HG); try done.
    - by rewrite lookup_insert_ne.
    - apply lookup_insert_eq. }
  destruct H as [[Hw Hg]|(r & -> & Hg & Hr & Hf)].
  - refine (run_turn_ok D m n _ x' ts C _ (identity request) request frame authority gid Hm HC Hrec Hts eq_refl
      Hx' M' (eq_ind_r (fun g => gates_ok g _) HG Hg) _ _ (or_intror Hother) _).
    + rewrite lookup_insert_eq. unfold client_of. cbn. by destruct p.
    + intros k N. by rewrite lookup_insert_ne.
    + unfold task_ok. cbn. by destruct p.
  - refine (run_turn_ok D m n _ x' ts C _ (identity request) request frame authority gid Hm HC Hrec Hts eq_refl
      Hx' M' Hg _ _ (or_intror Hother) _).
    + by rewrite lookup_delete_eq.
    + intros k N. by rewrite lookup_delete_ne, lookup_insert_ne.
    + by split.
Qed.

(** A run past its lock: it waits for an uncertain effect, or goes on. *)
Lemma has_lock_ok D m n x ts C request frame authority gid cancelled :
  machine_ok D m → clients_of (mc_tasks m) C → gates_ok (cs_gates x) (<[n := {| c_key := operation_id request;
    c_gate := gid; c_holds := true |}]> C) →
  (∀ k tk', mc_tasks m !! k = Some tk' → k ≠ n → recovering tk' = false) →
  good x → moves (identity request) (mc_state m) x → cs_calls x = cs_calls (mc_state m) →
  let '(x', p) := has_lock cfg env co clock world request frame authority gid x in
  replaces n {| tk_job := JRun request frame authority gid; tk_phase := p; tk_cancelled := cancelled |}
    (mc_tasks m) ts →
  machine_ok D {| mc_state := x'; mc_tasks := ts |}.
Proof.
  intros Hm HC HG Hrec Hx Mx Hcx. unfold has_lock.
  assert (Hrun : let '(x', p) := finally_release (operation_id request) gid
                   (run_body cfg env co clock world request frame authority) x in
    replaces n {| tk_job := JRun request frame authority gid; tk_phase := p; tk_cancelled := cancelled |}
      (mc_tasks m) ts → machine_ok D {| mc_state := x'; mc_tasks := ts |}).
  { pose proof (finally_release_ok request gid n _ (run_body cfg env co clock world request frame authority) x Hx HG
      (lookup_insert_eq _ _ _)) as H.
    destruct (finally_release _ _ _ _) as [x' p]. intros Hts.
    destruct H as (H1 & H2 & H3); [eapply turns_weaken; [apply turns_run_body|done|done]|].
    by apply (holder_turn_ok D m n x ts C request frame authority gid p x' cancelled). }
  destruct (assoc_get _ (cs_uncertain x)) as [t|]; [|exact Hrun].
  destruct (isnull _); [|exact Hrun]. intros Hts.
  refine (run_turn_ok D m n _ x ts C _ (identity request) request frame authority gid Hm HC Hrec Hts eq_refl
    Hx Mx HG _ _ (or_introl Hcx) I).
  - by rewrite lookup_insert_eq.
  - intros k N. by rewrite lookup_insert_ne.
Qed.

(** *** Every action *)

Lemma recovering_done tk : is_done (tk_phase tk) = true → recovering tk = false.
Proof. unfold recovering. destruct (tk_job tk); [done|]. by intros ->. Qed.

Lemma existsb_lookup {A} (f : A → bool) l n x : existsb f l = false → l !! n = Some x → f x = false.
Proof.
  intros H Hx. destruct (f x) eqn:E; [|done]. exfalso. assert (existsb f l = true); [|congruence].
  apply existsb_exists. exists x. split; [by apply list_elem_of_In, list_elem_of_lookup_2 with n|done].
Qed.

Lemma with_gates_same x : with_gates (cs_gates x) x = x.
Proof. by destruct x. Qed.

Lemma fresh_client m C : clients_of (mc_tasks m) C → C !! length (mc_tasks m) = None.
Proof. intros H. by rewrite H, lookup_ge_None_2. Qed.

Lemma call_run_ok D m request frame authority : machine_ok D m →
  machine_ok D (act cfg env co clock world (CallRun request frame authority) m).
Proof.
  intros Hm. pose proof (m_gates _ _ Hm) as (C & HG & HC). cbn [act].
  destruct (existsb recovering (mc_tasks m)) eqn:Er; [done|].
  set (n := length (mc_tasks m)). set (x := mc_state m).
  assert (Hrec : ∀ k tk', mc_tasks m !! k = Some tk' → k ≠ n → recovering tk' = false).
  { intros k tk' Hk _. by apply (existsb_lookup _ _ k _ Er). }
  assert (Hfail : ∀ e, machine_ok D {| mc_state := x; mc_tasks := mc_tasks m ++
            [{| tk_job := JRun request frame authority 0; tk_phase := PDone (Raise e); tk_cancelled := false |}] |}).
  { intros e. refine (run_turn_ok D m n _ x _ C C (identity request) request frame authority 0%nat Hm HC Hrec
      (replaces_snoc _ _) _ (m_good _ _ Hm) (moves_refl _ _ _ eq_refl eq_refl eq_refl) HG _ _
      (or_introl eq_refl) _); [done|by apply fresh_client|done|done]. }
  unfold start_run. destruct (check_run _ _ _) as [u0|e]; [|by apply Hfail].
  pose proof (enter_gate_ok (cs_gates x) C n (operation_id request) HG (fresh_client _ _ HC)) as He.
  unfold gates_op. destruct (enter_gate _ _ _) as [g [[gid held]|e]].
  2: { destruct He as [-> _]. rewrite with_gates_same. by apply Hfail. }
  set (x1 := with_gates g x).
  assert (Hx1 : good x1) by (apply with_gates_good, (m_good _ _ Hm)).
  assert (Mx1 : moves (identity request) (mc_state m) x1) by (by apply moves_refl).
  destruct held.
  - pose proof (has_lock_ok D m n x1 (mc_tasks m ++ [{| tk_job := JRun request frame authority gid;
      tk_phase := (has_lock cfg env co clock world request frame authority gid x1).2; tk_cancelled := false |}])
      C request frame authority gid false Hm HC He Hrec Hx1 Mx1 eq_refl) as H.
    destruct (has_lock _ _ _ _ _ _ _ _ _ _) as [x2 p]. apply H, replaces_snoc.
  - refine (run_turn_ok D m n _ x1 _ C _ (identity request) request frame authority gid Hm HC Hrec
      (replaces_snoc _ _) _ Hx1 Mx1 He _ _ (or_introl eq_refl) _); [done| | |done].
    + by rewrite lookup_insert_eq.
    + intros k N. by rewrite lookup_insert_ne.
Qed.

Lemma resume_run_ok D m n request frame authority gid p cancelled : machine_ok D m →
  mc_tasks m !! n = Some {| tk_job := JRun request frame authority gid; tk_phase := p; tk_cancelled := cancelled |} →
  let '(x', p') := resume_run cfg env co clock world n request frame authority gid p cancelled (mc_state m) in
  machine_ok D {| mc_state := x'; mc_tasks := <[n := {| tk_job := JRun request frame authority gid;
                    tk_phase := p'; tk_cancelled := cancelled |}]> (mc_tasks m) |}.
Proof.
  intros Hm Hn. pose proof (m_gates _ _ Hm) as (C & HG & HC). set (x := mc_state m) in *.
  pose proof (m_good _ _ Hm) as Hx. fold x in Hx.
  assert (Hlt : (n < length (mc_tasks m))%nat) by (by apply lookup_lt_Some in Hn).
  pose proof (HC n) as HCn. rewrite Hn in HCn. cbn in HCn. unfold client_of in HCn. cbn [tk_job tk_phase] in HCn.
  set (job := JRun request frame authority gid) in *.
  set (tsk := fun q => {| tk_job := job; tk_phase := q; tk_cancelled := cancelled |}).
  assert (Hsame : machine_ok D {| mc_state := x; mc_tasks := <[n := tsk p]> (mc_tasks m) |}).
  { unfold tsk. rewrite list_insert_id by done. by destruct m. }
  destruct (is_done p) eqn:Ep.
  { by destruct p. }
  pose proof (not_recovering D m n _ Hm Hn Ep) as Hrec.
  assert (Mx : ∀ g, moves (identity request) (mc_state m) (with_gates g x)) by (by intros g; apply moves_refl).
  (* the run leaves its gate without having touched anything else *)
  assert (Hleave : ∀ op, (∃ g', op (cs_gates x) = (g', Ok tt) ∧ gates_ok g' (delete n C)) →
    machine_ok D {| mc_state := (gates_op op x).1; mc_tasks := <[n := tsk (PDone
      match (gates_op op x).2 with Ok _ => raise CancelledError "" | Raise e => Raise e end)]> (mc_tasks m) |}).
  { intros op (g' & Eop & Hg'). unfold gates_op. rewrite Eop. cbn [fst snd].
    refine (run_turn_ok D m n _ _ _ C _ (identity request) request frame authority gid Hm HC Hrec
      (replaces_insert _ _ _ Hlt) _ (with_gates_good _ _ Hx) (Mx g') Hg' _ _ (or_introl eq_refl) _).
    - done.
    - by rewrite lookup_delete_eq.
    - intros k N. by rewrite lookup_delete_ne.
    - by split. }
  (* the run holds its gate and takes a turn *)
  assert (Hturn : ∀ t, C !! n = Some {| c_key := operation_id request; c_gate := gid; c_holds := true |} →
    turns (identity request) (fun y => y = x) t (run_ok request) →
    machine_ok D {| mc_state := (finally_release (operation_id request) gid t x).1;
                    mc_tasks := <[n := tsk (finally_release (operation_id request) gid t x).2]> (mc_tasks m) |}).
  { intros t HCt Ht. pose proof (finally_release_ok request gid n C t x Hx HG HCt Ht) as H.
    destruct (finally_release _ _ _ _) as [x' p']. destruct H as (H1 & H2 & H3). cbn [fst snd].
    pose proof (insert_id C n _ HCt) as EC.
    refine (holder_turn_ok D m n x _ C request frame authority gid p' x' cancelled Hm HC _ Hrec Hx _ eq_refl
      (replaces_insert _ _ _ Hlt) H1 H2 _); rewrite ?EC; [done|by apply moves_refl|done]. }
  destruct p as [|t|d|c s k t|r]; [| | | |done]; cbn [resume_run].
  - destruct cancelled.
    + destruct (waiter_ready _ _); [|exact Hsame].
      pose proof (cancelled_gate_ok _ _ _ _ _ HG HCn) as Hop. specialize (Hleave _ Hop).
      by destruct (gates_op _ x).
    + destruct (waiter_woken _ _) eqn:Ew; [|exact Hsame]. unfold waiter_woken in Ew. apply bool_decide_eq_true in Ew.
      pose proof (resume_gate_ok _ _ _ _ _ HG HCn Ew) as Hg.
      pose proof (has_lock_ok D m n (with_gates (update_gate gid (lock_resume n) (cs_gates x)) x)
        (<[n := tsk (has_lock cfg env co clock world request frame authority gid
                   (with_gates (update_gate gid (lock_resume n) (cs_gates x)) x)).2]> (mc_tasks m))
        C request frame authority gid false Hm HC Hg Hrec (with_gates_good _ _ Hx) (Mx _) eq_refl) as H.
      destruct (has_lock _ _ _ _ _ _ _ _ _ _) as [x2 p]. by apply H, replaces_insert.
  - destruct cancelled.
    + pose proof (leave_gate_ok _ _ _ _ _ HG HCn) as Hop. specialize (Hleave _ Hop). by destruct (gates_op _ x).
    + destruct (isnull _); [exact Hsame|].
      specialize (Hturn (run_body cfg env co clock world request frame authority) HCn).
      destruct (finally_release _ _ _ _). apply Hturn. eapply turns_weaken; [apply turns_run_body|done|done].
  - match goal with |- context [finally_release _ _ ?t _] => specialize (Hturn t HCn) end.
    destruct (finally_release _ _ _ _). apply Hturn.
    destruct cancelled; [by apply turns_lift|]. eapply turns_weaken; [apply turns_claim_once|done|done].
  - match goal with |- context [finally_release _ _ ?t _] => specialize (Hturn t HCn) end.
    destruct (finally_release _ _ _ _). apply Hturn.
    pose proof (m_tasks _ _ Hm n _ Hn) as [Ec Hs]. cbn in Ec, Hs. subst request.
    destruct cancelled.
    + eapply turns_weaken; [apply (turns_cancelled c s k t)|by intros ? _ ->|done].
    + eapply turns_bind; [eapply turns_weaken; [apply (turns_continue c s k t)|by intros ? _ ->|intros e y _ H; exact H]|].
      intros e. apply turns_lift. intros r y Hr Hy Ht.
      destruct e as [c' s' k' t'|[f|]]; [injection Hr as <-|injection Hr as <-|done].
      * by destruct Ht as [-> Ht].
      * done.
Qed.

(** *** Recovery is alone *)

Lemma task_done_ok D tk x x' : good x → good x' → extends (file x) (file x') →
  is_done (tk_phase tk) = true → task_ok D tk x → task_ok D tk x'.
Proof.
  intros Hx Hx' E Hd H. unfold task_ok in *. destruct (tk_phase tk) as [| | | |r]; try done.
  destruct (tk_job tk) as [request ? ? ?|ls].
  - destruct H as [H0 H]. split; [done|]. intros f Hf.
    apply (answered_stable _ _ (file x)); [apply Hx|apply Hx'|done|by apply H].
  - destruct r; [|done]. intros j Hj.
    apply (settled_stable _ (file x)); [apply Hx|apply Hx'|done|by apply H].
Qed.

Lemma recovery_turn_ok D m n ts op : machine_ok D m →
  (∀ k tk, mc_tasks m !! k = Some tk → k ≠ n → is_done (tk_phase tk) = true) →
  mc_tasks m !! n ≫= client_of = None → recovers D (mc_state m) (op (mc_state m)) →
  let '(x', tk) := recovery_turn op (mc_state m) in
  replaces n tk (mc_tasks m) ts → machine_ok D {| mc_state := x'; mc_tasks := ts |}.
Proof.
  intros [Hg Hd (C & HG & HC) Ht Ha] Hdone Hcl (R1 & R2 & R3 & R4). unfold recovery_turn.
  destruct (op (mc_state m)) as [x' r]. cbn [fst snd] in *.
  set (pl := match r with Ok x => x | Raise e => (PDone (Raise e), []) end).
  assert (Hr : recovery_ok D pl.1 pl.2 x') by (destruct r as [[p ls]|e]; [by apply R4|done]).
  destruct pl as [p ls]. cbn [fst snd] in Hr. intros [Hn Hk]. split; cbn [mc_state mc_tasks].
  - done.
  - intros i Hi. apply (claimed_stable _ (file (mc_state m))); [apply Hg|apply R1|done|by apply Hd].
  - exists C. rewrite R3. split; [done|]. intros k. destruct (decide (k = n)) as [->|N].
    + rewrite HC, Hcl, Hn. done.
    + by rewrite HC, Hk.
  - intros k tk' Hk'. destruct (decide (k = n)) as [->|N]; [by simplify_eq|]. rewrite Hk in Hk' by done.
    by apply (task_done_ok D tk' (mc_state m)); [| | |apply (Hdone k)|apply (Ht k)].
  - intros k tk1 l tk2 H1 Hrec H2 N. destruct (decide (k = n)) as [->|Nk].
    + rewrite Hk in H2 by done. by apply (Hdone l).
    + rewrite Hk in H1 by done. pose proof (Hdone k tk1 H1 Nk) as Hd1.
      by rewrite (recovering_done _ Hd1) in Hrec.
Qed.

Lemma call_recover_ok D m : machine_ok D m → machine_ok D (act cfg env co clock world CallRecover m).
Proof.
  intros Hm. cbn [act]. destruct (forallb _ _) eqn:Ef; [|done].
  assert (Hdone : ∀ k tk, mc_tasks m !! k = Some tk → is_done (tk_phase tk) = true).
  { intros k tk Hk. rewrite forallb_forall in Ef. apply Ef, list_elem_of_In. by apply list_elem_of_lookup_2 with k. }
  pose proof (recovery_turn_ok D m (length (mc_tasks m))
    (mc_tasks m ++ [(start_recovery cfg env co world (mc_state m)).2])
    (let^ ls := journal_op (incomplete_lifecycles cfg env) in recover_all cfg env co world ls) Hm) as H.
  unfold start_recovery in *. destruct (recovery_turn _ _) as [x' tk]. apply H; [by eauto| | |apply replaces_snoc].
  - by rewrite lookup_ge_None_2.
  - apply start_recovery_ok; apply Hm.
Qed.

Lemma resume_recovery_turn_ok D m n ls c s k t cancelled : machine_ok D m →
  mc_tasks m !! n = Some {| tk_job := JRecover ls; tk_phase := PEffect c s k t; tk_cancelled := cancelled |} →
  let '(x', tk) := resume_recovery cfg env co world ls c s k t cancelled (mc_state m) in
  machine_ok D {| mc_state := x'; mc_tasks := <[n := tk]> (mc_tasks m) |}.
Proof.
  intros Hm Hn. assert (Hlt : (n < length (mc_tasks m))%nat) by (by apply lookup_lt_Some in Hn).
  pose proof (fun op => recovery_turn_ok D m n
    (<[n := (resume_recovery cfg env co world ls c s k t cancelled (mc_state m)).2]> (mc_tasks m)) op Hm) as H.
  unfold resume_recovery in *.
  match goal with |- context [recovery_turn ?op _] => specialize (H op) end.
  destruct (recovery_turn _ _) as [x' tk]. apply H; [| | |by apply replaces_insert].
  - intros j tk' Hj N. by apply (m_alone _ _ Hm n _ j tk' Hn).
  - by rewrite Hn.
  - apply resume_recovery_ok; [apply Hm|]. exact (m_tasks _ _ Hm n _ Hn).
Qed.

(** *** What the outside world does *)

(** The file, the calls and the results known so far stay. *)
Record later (x x' : cstate) : Prop := {
  lt_file : file x' = file x;
  lt_calls : cs_calls x' = cs_calls x;
  lt_results : ∀ t r, assoc_get t (cs_results x) = Some r → assoc_get t (cs_results x') = Some r;
}.

Lemma not_applied_later k i s x x' : later x x' →
  not_applied_at k i s (trace_of x) → not_applied_at k i s (trace_of x').
Proof.
  intros [_ Hc Hr] (c & o & Hk & Hi & Hs & Hre & Ho & Hn). exists c, o. unfold trace_of in *. cbn [fst snd] in *.
  rewrite Hc. by split_and!; auto.
Qed.

Lemma may_apply_later i s x x' : later x x' → may_apply i s (trace_of x) → may_apply i s (trace_of x').
Proof.
  intros L H n c Hc Hi Hr. unfold trace_of in Hc. cbn [fst] in Hc. rewrite (lt_calls _ _ L) in Hc.
  destruct (H n c Hc Hi Hr) as [?|(E & k & Hk & Hn)]; [by left|right]. split; [done|].
  exists k. split; [done|by apply (not_applied_later _ _ _ x)].
Qed.

Lemma open_later i l x x' : later x x' → open_at i l x → open_at i l x'.
Proof.
  intros L (H1 & H2 & H3). unfold open_at, upto, trace_of in *. cbn [fst] in *.
  rewrite (lt_calls _ _ L), (lt_file _ _ L). split_and!; [done|done|].
  intros Hs. pose proof (may_apply_later _ _ _ _ L (H3 Hs)) as H. unfold trace_of in H.
  by rewrite (lt_calls _ _ L) in H.
Qed.

Lemma suspended_later c s k t x x' : later x x' → suspended_ok c s k t x → suspended_ok c s k t x'.
Proof.
  intros L [H Hk]. split; [|done]. unfold waits_for, upto, trace_of in *. cbn [fst] in *.
  by rewrite (lt_calls _ _ L).
Qed.

Lemma task_later D tk x x' : later x x' → task_ok D tk x → task_ok D tk x'.
Proof.
  intros L H. unfold task_ok in *. destruct (tk_job tk) as [request ? ? ?|ls].
  - destruct (tk_phase tk); try done; cbn [waiting_ok] in *.
    + destruct H as [E H]. split; [done|by apply (suspended_later _ _ _ _ x)].
    + by rewrite (lt_file _ _ L).
  - destruct (tk_phase tk) as [| | |c s k t|[o|e]]; try done; cbn [recovery_ok] in *.
    + destruct H as [H (ids & Hnd & Hall & Hcov)]. split; [by apply (suspended_later _ _ _ _ x)|].
      exists ids. rewrite (lt_file _ _ L). split_and!; [done| |done].
      eapply Forall2_impl; [exact Hall|]. intros i l. by apply open_later.
    + by rewrite (lt_file _ _ L).
Qed.

(** The same jobs in the same phases. *)
Definition same_tasks (ts ts' : list task) : Prop :=
  ∀ n, (fun tk => (tk_job tk, tk_phase tk)) <$> ts' !! n = (fun tk => (tk_job tk, tk_phase tk)) <$> ts !! n.

Lemma same_task ts ts' n tk' : same_tasks ts ts' → ts' !! n = Some tk' →
  ∃ tk, ts !! n = Some tk ∧ tk_job tk = tk_job tk' ∧ tk_phase tk = tk_phase tk'.
Proof.
  intros H Hn. specialize (H n). rewrite Hn in H. destruct (ts !! n) as [tk|]; [|done].
  injection H as E1 E2. by exists tk.
Qed.

Lemma world_ok D m x' ts : machine_ok D m → later (mc_state m) x' → good x' →
  same_tasks (mc_tasks m) ts → (∀ C, gates_ok (cs_gates (mc_state m)) C → clients_of (mc_tasks m) C →
                                     gates_ok (cs_gates x') C) →
  machine_ok D {| mc_state := x'; mc_tasks := ts |}.
Proof.
  intros [Hg Hd (C & HG & HC) Ht Ha] L Hx' S Hgates. split; cbn [mc_state mc_tasks].
  - done.
  - intros i Hi. rewrite (lt_file _ _ L). by apply Hd.
  - exists C. split; [by apply Hgates|]. intros n. rewrite HC. specialize (S n).
    destruct (ts !! n) as [tk'|], (mc_tasks m !! n) as [tk|]; try done. injection S as E1 E2. cbn.
    unfold client_of. by rewrite E1, E2.
  - intros n tk' Hn. destruct (same_task _ _ _ _ S Hn) as (tk & Hn' & E1 & E2).
    pose proof (task_later _ _ _ _ L (Ht _ _ Hn')) as H. unfold task_ok in *. by rewrite <- E1, <- E2.
  - intros n tk1 k tk2 H1 Hr H2 N. destruct (same_task _ _ _ _ S H1) as (u1 & A1 & A2 & A3).
    destruct (same_task _ _ _ _ S H2) as (u2 & B1 & B2 & B3). rewrite <- B3.
    apply (Ha n u1 k); try done. unfold recovering. by rewrite A2, A3.
Qed.

Lemma assoc_get_snoc {V} (l : list (nat * V)) t v t' :
  assoc_get t' (l ++ [(t, v)]) = match assoc_get t' l with
                                 | Some w => Some w
                                 | None => if bool_decide (t = t') then Some v else None
                                 end.
Proof.
  induction l as [|[a b] l IH]; cbn [app assoc_get fst snd]; [done|]. by destruct (bool_decide (a = t')).
Qed.

Lemma later_refl x x' : file x' = file x → cs_calls x' = cs_calls x → cs_results x' = cs_results x → later x x'.
Proof. intros H1 H2 H3. split; [done|done|]. by rewrite H3. Qed.

Lemma add_result_later t r x : later x (add_result t r x).
Proof. split; [done|done|]. intros t' r' H. cbn. by rewrite assoc_get_snoc, H. Qed.

Lemma add_result_good t r x : good x → (∀ o, r = TaskReconciled o → reconciliation_ok o) →
  good (add_result t r x).
Proof.
  intros [Hj Hst Hord Hres] Hr. pose proof (add_result_later t r x) as L. split; [done|done| |].
  - intros m n c d Hmn Hc Hd Rc Rd Hi. destruct (Hord m n c d Hmn Hc Hd Rc Rd Hi) as [?|(E & k & Hk & Hn)].
    + by left.
    + right. split; [done|]. exists k. split; [done|by apply (not_applied_later _ _ _ x)].
  - intros t' o. cbn. rewrite assoc_get_snoc. destruct (assoc_get t' (cs_results x)) eqn:E.
    + intros [= ->]. by apply (Hres t').
    + case_bool_decide; [|done]. intros [= ->]. by apply Hr.
Qed.

(** What the outside world promises: a reconciliation that an effect returns
    was made by the constructors. *)
Definition action_ok (a : action) : Prop :=
  match a with EffectEnds _ (TaskReconciled o) => reconciliation_ok o | _ => True end.

Lemma cancel_task_ok D m n tk : machine_ok D m → mc_tasks m !! n = Some tk →
  machine_ok D {| mc_state := (cancel_task n tk (mc_state m)).1;
                  mc_tasks := <[n := (cancel_task n tk (mc_state m)).2]> (mc_tasks m) |}.
Proof.
  intros Hm Hn. apply (world_ok D m); try done.
  - unfold cancel_task. destruct (tk_job tk), (tk_phase tk); apply later_refl; reflexivity.
  - unfold cancel_task. destruct (tk_job tk), (tk_phase tk);
      first [exact (m_good _ _ Hm)|exact (with_gates_good _ _ (m_good _ _ Hm))].
  - intros k. destruct (decide (k = n)) as [->|N]; [|by rewrite list_lookup_insert_ne].
    rewrite list_lookup_insert_eq by (by apply lookup_lt_Some in Hn). by rewrite Hn.
  - intros C HG HC. unfold cancel_task. destruct tk as [[request frame authority gid|ls] [| | | |] b]; try done.
    cbn. apply (cancel_gate_ok _ _ _ (operation_id request)); [done|].
    apply (ok_client _ _ HG n {| c_key := operation_id request; c_gate := gid; c_holds := false |}).
    by rewrite HC, Hn.
Qed.

Lemma resume_task_ok D m n tk : machine_ok D m → mc_tasks m !! n = Some tk →
  machine_ok D {| mc_state := (resume_task cfg env co clock world n tk (mc_state m)).1;
                  mc_tasks := <[n := (resume_task cfg env co clock world n tk (mc_state m)).2]> (mc_tasks m) |}.
Proof.
  intros Hm Hn. destruct tk as [[request frame authority gid|ls] p cancelled]; unfold resume_task; cbn [tk_job tk_phase tk_cancelled].
  - pose proof (resume_run_ok D m n request frame authority gid p cancelled Hm Hn) as H.
    by destruct (resume_run _ _ _ _ _ _ _ _ _ _ _ _ _) as [x' p'].
  - assert (Hsame : machine_ok D {| mc_state := mc_state m; mc_tasks := <[n :=
      {| tk_job := JRecover ls; tk_phase := p; tk_cancelled := cancelled |}]> (mc_tasks m) |}).
    { rewrite list_insert_id by done. by destruct m. }
    destruct p as [| | |c s k t|r]; try exact Hsame.
    pose proof (resume_recovery_turn_ok D m n ls c s k t cancelled Hm Hn) as H.
    by destruct (resume_recovery _ _ _ _ _ _ _ _ _ _ _) as [x' tk].
Qed.

Lemma act_ok D a m : action_ok a → machine_ok D m → machine_ok D (act cfg env co clock world a m).
Proof.
  intros Ha Hm. destruct a as [request frame authority| |n|n|t r|t].
  - by apply call_run_ok.
  - by apply call_recover_ok.
  - cbn [act]. destruct (mc_tasks m !! n) as [tk|] eqn:Hn; [|done].
    pose proof (cancel_task_ok D m n tk Hm Hn) as H. by destruct (cancel_task _ _ _).
  - cbn [act]. destruct (mc_tasks m !! n) as [tk|] eqn:Hn; [|done].
    pose proof (resume_task_ok D m n tk Hm Hn) as H. by destruct (resume_task _ _ _ _ _ _ _ _).
  - cbn [act]. destruct (world t); [done|done|]. destruct (_ && _); [|done].
    apply (world_ok D m); [done|apply add_result_later| |done|done].
    apply add_result_good; [apply Hm|]. intros o ->. exact Ha.
  - cbn [act]. destruct (_ && _); [|done]. apply (world_ok D m); [done|by apply later_refl| |done|done].
    destruct (m_good _ _ Hm). by split.
Qed.

Lemma acts_ok D l m : Forall action_ok l → machine_ok D m → machine_ok D (acts cfg env co clock world l m).
Proof.
  intros Hl. revert m. induction Hl as [|a l Ha Hl IH]; intros m Hm; [done|].
  by apply IH, act_ok.
Qed.

(** The lifecycles that are claimed in the file recovery starts with. *)
Definition due (x : rstore) (i : ident) : Prop := claimed i (rs_journal x).

Lemma start_machine_ok x : journal_ok cfg (rs_journal x) → machine_ok (due x) (start_machine x).
Proof.
  intros Hj. split; cbn.
  - by split.
  - done.
  - exists ∅. split; [apply no_gates_ok|]. intros n. by rewrite lookup_empty.
  - done.
  - done.
Qed.

Definition after (l : list action) (x : rstore) : machine :=
  acts cfg env co clock world l (start_machine x).

Lemma after_ok l x : Forall action_ok l → journal_ok cfg (rs_journal x) → machine_ok (due x) (after l x).
Proof. intros Hl Hj. by apply acts_ok, start_machine_ok. Qed.

(** *** Recovery ends

    Every effect is awaited under a timeout, so a turn of recovery is always
    possible; each one leaves less to do. *)

(** What a value returned from any state satisfies. *)
Definition returns {S A} (m : st S A) (Q : A → Prop) : Prop := ∀ s a, (m s).2 = Ok a → Q a.

Lemma returns_bind {S A B} (m : st S A) (k : A → st S B) Q : (∀ a, returns (k a) Q) → returns (st_bind m k) Q.
Proof. intros H s b. unfold st_bind. destruct (m s) as [s' [a|e]]; [apply H|done]. Qed.
Lemma returns_bind_of {S A B} (m : st S A) (k : A → st S B) P Q :
  returns m P → (∀ a, P a → returns (k a) Q) → returns (st_bind m k) Q.
Proof.
  intros Hm Hk s b. specialize (Hm s). unfold st_bind. destruct (m s) as [s' [a|e]]; [|done].
  apply Hk. by apply Hm.
Qed.
Lemma returns_ret {S A} (a : A) (Q : A → Prop) : Q a → returns (S := S) (st_ret a) Q.
Proof. intros H s b [= <-]. done. Qed.
Lemma returns_raise {S A} k m (Q : A → Prop) : returns (S := S) (st_lift (raise k m)) Q.
Proof. by intros s b. Qed.

Definition weight (k : continuation) : nat :=
  match k with Reconciling => 7 | Applying rest => length rest end.

Definition lighter (n : nat) (e : turn_end) : Prop :=
  match e with Suspended _ _ k _ => (weight k < n)%nat | Returned _ => True end.

Lemma apply_ends_lighter c s a next n : returns next (lighter n) →
  returns (apply_ends cfg env co c s a next) (lighter n).
Proof.
  intros H. destruct a as [o|f]; cbn [apply_ends]; [|by apply returns_ret].
  case_bool_decide; apply returns_bind; intros f; [destruct f|]; [by apply returns_ret|done|by apply returns_ret].
Qed.

Lemma drive_lighter c stages : returns (drive cfg env co world c stages) (lighter (length stages)).
Proof.
  induction stages as [|s rest IH]; cbn [drive]; [by apply returns_ret|].
  apply returns_bind. intros pos. apply returns_bind. intros [t|a].
  - apply returns_ret. cbn. lia.
  - apply apply_ends_lighter. intros x e He. specialize (IH x e He).
    destruct e; cbn [lighter length] in *; [lia|done].
Qed.

Lemma drive_from_lighter c s : returns (drive_from cfg env co world c s) (lighter 7).
Proof.
  intros x e He. apply drive_lighter in He. destruct e; [|done]. cbn [lighter] in *.
  rewrite length_drop in He. change (length STAGES) with 7%nat in He. lia.
Qed.

Lemma resume_ends_lighter c s a : returns (resume_ends cfg env co world c s a) (lighter 7).
Proof.
  destruct a as [o|f]; cbn [resume_ends]; [|by apply returns_ret]. repeat case_bool_decide.
  - apply returns_bind. intros [f|]; [by apply returns_ret|]. apply returns_bind. intros s'. apply drive_from_lighter.
  - apply drive_from_lighter.
  - apply returns_bind. intros f. by apply returns_ret.
Qed.

Lemma continue_lighter c s k t : returns (continue_ cfg env co world c s k t) (lighter (weight k)).
Proof.
  apply returns_bind. intros a. destruct k; [apply resume_ends_lighter|].
  apply apply_ends_lighter, drive_lighter.
Qed.

Lemma recover_one_lighter l : returns (recover_one cfg env co world l) (lighter 8).
Proof.
  assert (W : ∀ m : st cstate turn_end, returns m (lighter 7) → returns m (lighter 8)).
  { intros m H x e He. specialize (H x e He). destruct e; cbn [lighter] in *; [lia|done]. }
  apply returns_bind. intros q. case_bool_decide.
  - destruct (il_started l); [|apply W, drive_from_lighter]. apply returns_bind. intros [t|a].
    + apply returns_ret. cbn. lia.
    + apply W, resume_ends_lighter.
  - apply returns_bind. intros ?. apply returns_bind. intros f. by apply returns_ret.
Qed.

(** At most [n] turns are left. *)
Definition turns_left (n : nat) (p : phase) (ls : list IncompleteReplicaLifecycle) : Prop :=
  match p with
  | PEffect _ _ k _ => (weight k + 8 * length ls < n)%nat
  | PDone _ => True
  | _ => False
  end.

Lemma recover_all_turns ls :
  returns (recover_all cfg env co world ls) (fun pl => turns_left (8 * length ls) pl.1 pl.2).
Proof.
  induction ls as [|l ls IH]; cbn [recover_all]; [by apply returns_ret|].
  eapply returns_bind_of; [apply recover_one_lighter|]. intros e He. destruct e as [c s k t|f].
  - apply returns_ret. cbn in *. lia.
  - intros x [p ls'] Hp. specialize (IH x _ Hp). destruct p; cbn in *; [done|done|done|lia|done].
Qed.

Definition recovery_left (n : nat) (tk : task) : Prop :=
  ∃ ls, tk_job tk = JRecover ls ∧ turns_left n (tk_phase tk) ls.

Lemma recovery_turn_left n op x : returns op (fun pl => turns_left n pl.1 pl.2) →
  recovery_left n (recovery_turn op x).2.
Proof.
  intros H. specialize (H x). unfold recovery_turn. destruct (op x) as [x' [[p ls]|e]].
  - exists ls. split; [done|by apply (H (p, ls))].
  - by exists [].
Qed.

Lemma resume_recovery_left n i tk x : recovery_left (S n) tk →
  recovery_left n (resume_task cfg env co clock world i tk x).2.
Proof.
  intros (ls & Ej & Hp). unfold resume_task. rewrite Ej. destruct (tk_phase tk) as [| | |c s k t|r] eqn:Ep; try done.
  - apply recovery_turn_left. destruct (tk_cancelled tk).
    + apply returns_bind. intros ?. apply returns_bind. intros ?. by apply returns_raise.
    + eapply returns_bind_of; [apply continue_lighter|]. intros e He. cbn [turns_left] in Hp. destruct e as [c' s' k' t'|f].
      * apply returns_ret. cbn in *. lia.
      * intros y [p ls'] Hy. apply recover_all_turns in Hy. destruct p; cbn in *; [done|done|done|lia|done].
  - exists ls. split; [exact Ej|]. cbn. by rewrite Ep.
Qed.

Lemma recovery_left_le n n' tk : (n <= n')%nat → recovery_left n tk → recovery_left n' tk.
Proof.
  intros Hn (ls & Ej & Hp). exists ls. split; [done|]. destruct (tk_phase tk); cbn [turns_left] in *; [done|done|done|lia|done].
Qed.

(** How often task [i] takes a turn. *)
Definition turns_of (i : nat) (l : list action) : nat :=
  length (List.filter (fun a => match a with Resume j => (j =? i)%nat | _ => false end) l).

Lemma act_recovery_left n i a m tk : mc_tasks m !! i = Some tk →
  recovery_left (n + turns_of i [a]) tk →
  ∃ tk', mc_tasks (act cfg env co clock world a m) !! i = Some tk' ∧ recovery_left n tk'.
Proof.
  intros Hi Htk. assert (Hlt : (i < length (mc_tasks m))%nat) by (by apply lookup_lt_Some in Hi).
  assert (Hold : recovery_left n tk → ∃ tk', mc_tasks m !! i = Some tk' ∧ recovery_left n tk') by eauto.
  destruct a as [request frame authority| |j|j|t r|t]; unfold turns_of in Htk; cbn in Htk; cbn [act];
    rewrite ?Nat.add_0_r in Htk.
  - destruct (existsb _ _); [auto|]. destruct (start_run _ _ _ _ _ _ _ _ _) as [x' tk']. cbn [mc_tasks].
    exists tk. by rewrite lookup_app_l.
  - destruct (forallb _ _); [|auto]. destruct (start_recovery _ _ _ _ _) as [x' tk']. cbn [mc_tasks].
    exists tk. by rewrite lookup_app_l.
  - destruct (mc_tasks m !! j) as [tk0|] eqn:Ej; [|auto]. destruct (cancel_task _ _ _) as [x' tk'] eqn:E.
    cbn [mc_tasks]. destruct (decide (j = i)) as [->|N]; [|rewrite list_lookup_insert_ne by done; auto].
    rewrite list_lookup_insert_eq by done. rewrite Hi in Ej. injection Ej as <-. injection E as _ <-.
    eexists. split; [done|]. exact Htk.
  - destruct (Nat.eqb_spec j i) as [->|N].
    + rewrite Hi. cbn in Htk. rewrite Nat.add_1_r in Htk.
      pose proof (resume_recovery_left n i tk (mc_state m) Htk) as H.
      destruct (resume_task _ _ _ _ _ _ _ _) as [x' tk']. cbn [mc_tasks] in *. exists tk'.
      by rewrite list_lookup_insert_eq.
    + rewrite Nat.add_0_r in Htk. destruct (mc_tasks m !! j) as [tk0|]; [|auto].
      destruct (resume_task _ _ _ _ _ _ _ _) as [x' tk']. cbn [mc_tasks].
      rewrite list_lookup_insert_ne by done. auto.
  - destruct (world t); [auto|auto|]. destruct (_ && _); auto.
  - destruct (_ && _); auto.
Qed.

Lemma acts_recovery_left i l m n tk : mc_tasks m !! i = Some tk → recovery_left (n + turns_of i l) tk →
  ∃ tk', mc_tasks (acts cfg env co clock world l m) !! i = Some tk' ∧ recovery_left n tk'.
Proof.
  revert m tk. induction l as [|a l IH]; intros m tk Hi Htk.
  - exists tk. split; [done|]. by rewrite Nat.add_0_r in Htk.
  - assert (E : (n + turns_of i (a :: l) = n + turns_of i l + turns_of i [a])%nat).
    { unfold turns_of. cbn [List.filter]. destruct (match a with Resume j => _ | _ => _ end); cbn [length]; lia. }
    rewrite E in Htk. destruct (act_recovery_left _ _ _ _ _ Hi Htk) as (tk' & Hi' & Htk').
    by apply (IH _ tk').
Qed.

Lemma recovery_ends x : ∃ n, ∀ l, (n <= turns_of 0 l)%nat →
  ∃ ls r, (fun tk => (tk_job tk, tk_phase tk)) <$> mc_tasks (after (CallRecover :: l) x) !! 0%nat
          = Some (JRecover ls, PDone r).
Proof.
  set (tk := (start_recovery cfg env co world (mc_state (start_machine x))).2).
  assert (Htk : ∃ n, recovery_left n tk).
  { unfold tk, start_recovery, recovery_turn. destruct (st_bind _ _ _) as [x' r] eqn:E. unfold st_bind in E.
    destruct (journal_op _ _) as [x1 [ls|e]]; [|injection E as <- <-; by exists 0%nat, []].
    exists (8 * length ls)%nat. destruct r as [[p ls']|e]; [|by exists []]. exists ls'. split; [done|].
    apply (recover_all_turns ls x1 (p, ls')). by rewrite E. }
  destruct Htk as [n Hn]. exists n. intros l Hl.
  destruct (acts_recovery_left 0 l (act cfg env co clock world CallRecover (start_machine x)) 0 tk)
    as (tk' & Hi & ls & Ej & Hp).
  - cbn [act start_machine mc_tasks forallb]. unfold tk. by destruct (start_recovery _ _ _ _ _).
  - by apply (recovery_left_le n).
  - change (after (CallRecover :: l) x)
      with (acts cfg env co clock world l (act cfg env co clock world CallRecover (start_machine x))).
    exists ls. rewrite Hi. cbn. rewrite Ej. destruct (tk_phase tk'); cbn in Hp; try done; [lia|eauto].
Qed.

(** *** The properties *)

(** An effect that raises [StageOutcomeUnknown] without a reason is the one
    failure that is not recorded: the constructor's [ValueError] escapes. *)
Lemma empty_reason_escapes c s x :
  effect_failed cfg env co c s (EffectUnknown []) x
  = (x, raise ValueError "replica unknown outcome requires a reason").
Proof. done. Qed.

Definition job_and_phase (tk : task) : job * phase := (tk_job tk, tk_phase tk).

Lemma job_and_phase_some (ts : list task) (n : nat) j p : job_and_phase <$> ts !! n = Some (j, p) →
  ∃ tk, ts !! n = Some tk ∧ tk_job tk = j ∧ tk_phase tk = p.
Proof. destruct (ts !! n) as [tk|]; [|done]. intros [= <- <-]. by exists tk. Qed.

Lemma run_answers l x n request frame authority gid o : Forall action_ok l → journal_ok cfg (rs_journal x) →
  job_and_phase <$> mc_tasks (after l x) !! n = Some (JRun request frame authority gid, PDone (Ok o)) →
  ∃ f, o = Some f ∧ answered (identity request) f (file (mc_state (after l x))).
Proof.
  intros Hl Hj (tk & Hn & Ej & Ep)%job_and_phase_some. pose proof (m_tasks _ _ (after_ok l x Hl Hj) n tk Hn) as H.
  unfold task_ok in H. rewrite Ej, Ep in H. destruct H as [H0 H]. destruct o as [f|]; [|done].
  exists f. split; [done|by apply H].
Qed.

(** C26. Whatever the interleaving of calls, effects, timeouts, cancellations
    and other processes' appends, what [run] returns is the terminal response
    of its lifecycle, and it is durable in the journal's file by then; so any
    two calls for one lifecycle that return, return the same bytes. *)
Theorem lifecycle_response_durable (l : list action) (x : rstore) (n : nat) (request : BrokerRequest)
    (frame : pybytes) (authority : ReplicaAuthority) (gid : nat) (o : option pybytes) :
  Forall action_ok l → journal_ok cfg (rs_journal x) →
  job_and_phase <$> mc_tasks (after l x) !! n = Some (JRun request frame authority gid, PDone (Ok o)) →
  ∃ f, o = Some f
       ∧ answered (identity request) f (file (mc_state (after l x)))
       ∧ ∀ n' request' frame' authority' gid' o', identity request' = identity request →
           job_and_phase <$> mc_tasks (after l x) !! n'
             = Some (JRun request' frame' authority' gid', PDone (Ok o')) → o' = Some f.
Proof.
  intros Hl Hj Hn. destruct (run_answers _ _ _ _ _ _ _ _ Hl Hj Hn) as (f & -> & Hf). exists f.
  split_and!; [done|done|]. intros n' request' frame' authority' gid' o' E Hn'.
  destruct (run_answers _ _ _ _ _ _ _ _ Hl Hj Hn') as (f' & -> & p' & t' & s' & Hs' & Ht').
  destruct Hf as (p & t & s & Hs & Ht). rewrite E in Hs'. rewrite (stands_unique _ _ _ _ Hs Hs') in Ht. congruence.
Qed.

(** A task that awaits an effect is a run that holds its gate, or recovery. *)
Lemma awaiting_client D m n tk c s k t : machine_ok D m → mc_tasks m !! n = Some tk →
  tk_phase tk = PEffect c s k t → recovering tk = false →
  ∃ gid, client_of tk = Some {| c_key := operation_id (cx_request c); c_gate := gid; c_holds := true |}.
Proof.
  intros Hm Hn Ep Hr. pose proof (m_tasks _ _ Hm n tk Hn) as H. unfold task_ok, recovering, client_of in *.
  rewrite Ep in *. destruct (tk_job tk) as [request frame authority gid|ls]; [|done].
  destruct H as [<- _]. by exists gid.
Qed.

(** C27. Whatever the interleaving, every effect that is called was preceded
    by the durable start of its stage; the stages of a lifecycle are applied
    in their order, and a stage is applied again only after a reconciliation
    that found it not applied; and no two tasks await effects of the same
    operation. *)
Theorem effects_follow_journal (l : list action) (x : rstore) :
  Forall action_ok l → journal_ok cfg (rs_journal x) →
  (∀ n c, cs_calls (mc_state (after l x)) !! n = Some c →
     started (cl_ident c) (cl_stage c) (file (mc_state (after l x))))
  ∧ applied_in_order (trace_of (mc_state (after l x)))
  ∧ ∀ n n' tk tk' c c' s s' k k' t t', mc_tasks (after l x) !! n = Some tk →
      mc_tasks (after l x) !! n' = Some tk' → tk_phase tk = PEffect c s k t →
      tk_phase tk' = PEffect c' s' k' t' →
      operation_id (cx_request c) = operation_id (cx_request c') → n = n'.
Proof.
  intros Hl Hj. pose proof (after_ok l x Hl Hj) as H. set (m := after l x) in *.
  split_and!; [apply H|apply H|]. intros n n' tk tk' c c' s s' k k' t t' Hn Hn' Ep Ep' E.
  destruct (decide (n = n')) as [|N]; [done|exfalso].
  assert (Hr : ∀ a b u v, mc_tasks m !! a = Some u → mc_tasks m !! b = Some v → a ≠ b →
    is_done (tk_phase v) = false → recovering u = false).
  { intros a b u v Ha Hb Nab Hd. destruct (recovering u) eqn:Er; [|done].
    pose proof (m_alone _ _ H a u b v Ha Er Hb ltac:(done)). congruence. }
  destruct (awaiting_client _ _ _ _ _ _ _ _ H Hn Ep (Hr _ _ _ _ Hn Hn' N ltac:(by rewrite Ep'))) as [gid G].
  destruct (awaiting_client _ _ _ _ _ _ _ _ H Hn' Ep' (Hr _ _ _ _ Hn' Hn ltac:(done) ltac:(by rewrite Ep)))
    as [gid' G'].
  destruct (m_gates _ _ H) as (C & HG & HC). apply N.
  assert (Hc : C !! n = client_of tk) by (by rewrite HC, Hn).
  assert (Hc' : C !! n' = client_of tk') by (by rewrite HC, Hn').
  rewrite G in Hc. rewrite G' in Hc'. by apply (gates_holder _ _ n n' _ _ HG Hc Hc').
Qed.

(** C28. Recovery ends whatever the effects do, for it only waits under
    timeouts: from any file there is a number of turns after which its task
    is done; and when it returns without an exception, every lifecycle the
    file had claimed when it started has a durable terminal result. *)
Theorem replica_recovery_settles (x : rstore) : journal_ok cfg (rs_journal x) →
  ∃ turns, ∀ l, Forall action_ok l → (turns <= turns_of 0 l)%nat →
    ∃ ls r, job_and_phase <$> mc_tasks (after (CallRecover :: l) x) !! 0%nat = Some (JRecover ls, PDone r)
      ∧ ∀ o i, r = Ok o → claimed i (rs_journal x) →
          settled i (file (mc_state (after (CallRecover :: l) x))).
Proof.
  intros Hj. destruct (recovery_ends x) as [n Hn]. exists n. intros l Hl Ht.
  destruct (Hn l Ht) as (ls & r & E). exists ls, r. split; [exact E|]. intros o i -> Hi.
  apply job_and_phase_some in E as (tk & E & Ej & Ep).
  pose proof (m_tasks _ _ (after_ok (CallRecover :: l) x (Forall_cons_2 action_ok CallRecover l I Hl) Hj) _ _ E) as H.
  unfold task_ok in H. rewrite Ej, Ep in H. by apply H.
Qed.
End Coordinator. End Spec.

(** ** Witnesses *)

#[local] Existing Instance toy_sha256.
#[local] Existing Instance toy_ed25519.
#[local] Existing Instance toy_ed25519_raw.

Definition example_coordinator : coordinator := {|
  co_broker := u"broker-incarnation-1"; co_keys := [(u"broker-incarnation-1", tt : private_key)];
  co_owner := example_owner; co_wait := 5 |}.

#[local] Notation example_after :=
  (after example_config quiet_env example_coordinator (fun n => Z.of_nat n) (fun _ => InvokeTask)).

(** The transfer succeeds, the verification times out, and a second call for
    the same request asks again. *)
Definition example_reconciled : StageReconciliation := {|
  sr_outcome := u"completed"; sr_receipt := Some example_ingest; sr_reason := None |}.
Definition example_actions : list action :=
  [CallRun example_request example_frame example_authority;
   CallRun example_request example_frame example_authority;
   EffectEnds 0 (TaskReconciled example_reconciled); Resume 0; Resume 0; Resume 1].

Lemma example_actions_ok : Forall action_ok example_actions.
Proof.
  repeat (apply Forall_cons_2; [first [exact I|split; [reflexivity|]]|]); [|apply Forall_nil_2].
  intros r [= <-]. exact example_ingest_ok.
Qed.

Lemma example_lifecycle_answers :
  map (fun tk => match tk_phase tk with PDone (Ok o) => o | _ => None end)
    (mc_tasks (example_after example_actions example_file)) = [Some example_unresolved; Some example_unresolved].
Proof. vm_compute. reflexivity. Qed.

Lemma example_second_run :
  job_and_phase <$> mc_tasks (example_after example_actions example_file) !! 1%nat
  = Some (JRun example_request example_frame example_authority 0, PDone (Ok (Some example_unresolved))).
Proof. vm_compute. reflexivity. Qed.

Lemma lifecycle_response_durable_witness :
  ∃ f, Some example_unresolved = Some f
       ∧ answered example_config example_ident f
           (file (mc_state (example_after example_actions example_file))).
Proof.
  destruct (lifecycle_response_durable example_config quiet_env quiet_env_ok example_coordinator
    (fun n => Z.of_nat n) (fun _ => InvokeTask) example_actions example_file 1 example_request
    example_frame example_authority 0 (Some example_unresolved) example_actions_ok example_file_ok
    example_second_run) as (f & E & Hf & _).
  exists f. exact (conj E Hf).
Defined.

Lemma example_calls :
  cs_calls (mc_state (example_after example_actions example_file))
  = [{| cl_ident := example_ident; cl_stage := Ingest; cl_reconcile := false |};
     {| cl_ident := example_ident; cl_stage := Verify; cl_reconcile := false |}].
Proof. vm_compute. reflexivity. Qed.

Lemma example_first_call :
  cs_calls (mc_state (example_after example_actions example_file)) !! 0%nat
  = Some {| cl_ident := example_ident; cl_stage := Ingest; cl_reconcile := false |}.
Proof. by rewrite example_calls. Qed.

Lemma effects_follow_journal_witness :
  started example_ident Ingest (file (mc_state (example_after example_actions example_file))).
Proof.
  destruct (effects_follow_journal example_config quiet_env quiet_env_ok example_coordinator
    (fun n => Z.of_nat n) (fun _ => InvokeTask) example_actions example_file example_actions_ok
    example_file_ok) as [H _].
  exact (H 0%nat _ example_first_call).
Defined.

(** The transfer was started when the broker stopped. The restarted broker
    finds it not applied, applies it, and cannot tell how it ended. *)
Definition example_not_applied : StageReconciliation := {|
  sr_outcome := u"not_applied"; sr_receipt := None; sr_reason := None |}.
Definition example_recovery : list action :=
  [EffectEnds 0 (TaskReconciled example_not_applied); Resume 0; Resume 0].

Lemma example_recovery_returns :
  job_and_phase <$> mc_tasks (example_after (CallRecover :: example_recovery) example_started) !! 0%nat
  = Some (JRecover [], PDone (Ok None)).
Proof. vm_compute. reflexivity. Qed.

Lemma example_recovery_ok n : Forall action_ok (example_recovery ++ repeat (Resume 0) n).
Proof.
  apply Forall_app. split.
  - apply Forall_cons_2; [by split|]. by repeat constructor.
  - induction n as [|n IH]; [constructor|]. by apply Forall_cons_2.
Qed.

Lemma turns_of_repeat n : (n <= turns_of 0 (example_recovery ++ repeat (Resume 0) n))%nat.
Proof.
  unfold turns_of. rewrite List.filter_app, length_app.
  assert (E : ∀ k, length (List.filter (fun a => match a with Resume j => (j =? 0)%nat | _ => false end)
                    (repeat (Resume 0) k)) = k) by (intros k; induction k; cbn; congruence).
  rewrite E. lia.
Qed.

Lemma example_claimed_ident : claimed example_config example_ident (rs_journal example_started).
Proof.
  destruct (replay example_config (history example_ident (jn_events (rs_journal example_started)))) as [rp|e] eqn:E.
  - exists (rp_progress rp). split; [exists rp; split_and!; [|exact E|done]|].
    + by vm_compute.
    + revert E. vm_compute. intros [= <-]. eauto.
  - exfalso. revert E. by vm_compute.
Qed.

Lemma replica_recovery_settles_witness :
  (∃ l ls r, job_and_phase <$> mc_tasks (example_after (CallRecover :: l) example_started) !! 0%nat
               = Some (JRecover ls, PDone r)
     ∧ ∀ o, r = Ok o → settled example_config example_ident
                         (file (mc_state (example_after (CallRecover :: l) example_started))))
  ∧ job_and_phase <$> mc_tasks (example_after (CallRecover :: example_recovery) example_started) !! 0%nat
    = Some (JRecover [], PDone (Ok None)).
Proof.
  split; [|exact example_recovery_returns].
  destruct (replica_recovery_settles example_config quiet_env quiet_env_ok example_coordinator
    (fun n => Z.of_nat n) (fun _ => InvokeTask) example_started example_started_ok) as [n Hn].
  destruct (Hn _ (example_recovery_ok n) (turns_of_repeat n)) as (ls & r & E & H).
  eexists. exists ls, r. split; [exact E|]. intros o Ho. exact (H o example_ident Ho example_claimed_ident).
Defined.
