(* ===== verification/RunCoordinator.v ===== *)
(** * The run coordinator

    Models [services/run_coordinator.py]: the registry of active sidecar runs.
    A registration is an object: [request_cancel] keeps a reference to it while
    it waits for the sidecar, so the objects live in a heap and the registry
    maps a session to an index. The coordinator's lock guards blocks without a
    suspension; the only suspension is the call of the sidecar. *)

From S2P Require Import Prelude Text.

(** [CancelOutcome] *)
Inductive CancelOutcome := REQUESTED | FINISHED | ABSENT.

(** [_RegisteredRun]; a sidecar client is named by a number. *)
Record RegisteredRun := { rr_sidecar : nat; rr_released : bool }.

Record coordinator := { co_heap : list RegisteredRun; co_runs : list (pystr * nat) }.
Definition new_coordinator : coordinator := {| co_heap := []; co_runs := [] |}.

(** [register]; [callable] is whether the sidecar exposes [cancel]. *)
Definition register (session_id : pystr) (sidecar : nat) (callable : bool) : st coordinator unit :=
  do^ st_lift (guard (negb (bool_decide (session_id = []))) ValueError "session_id must be non-empty") in
  do^ st_lift (guard callable TypeError "sidecar must expose a callable cancel method") in
  fun s => ({| co_heap := co_heap s ++ [{| rr_sidecar := sidecar; rr_released := false |}];
               co_runs := assoc_set session_id (length (co_heap s)) (co_runs s) |}, Ok tt).

Definition set_released (oid : nat) (h : list RegisteredRun) : list RegisteredRun :=
  alter (fun e => {| rr_sidecar := rr_sidecar e; rr_released := true |}) oid h.

Definition release (session_id : pystr) : st coordinator unit :=
  do^ st_lift (guard (negb (bool_decide (session_id = []))) ValueError "session_id must be non-empty") in
  fun s =>
    (match assoc_get session_id (co_runs s) with
     | Some oid => {| co_heap := set_released oid (co_heap s);
                      co_runs := assoc_pop session_id (co_runs s) |}
     | None => s
     end, Ok tt).

Definition released (oid : nat) (s : coordinator) : bool :=
  match co_heap s !! oid with Some e => rr_released e | None => false end.

(** [request_cancel]; [others] is what happens while the sidecar is asked and
    [answer] how it answers. *)
Definition request_cancel (session_id : pystr) (answer : res unit) (others : coordinator → coordinator) :
    st coordinator CancelOutcome :=
  do^ st_lift (guard (negb (bool_decide (session_id = []))) ValueError "session_id must be non-empty") in
  fun s =>
    match assoc_get session_id (co_runs s) with
    | None => (s, Ok ABSENT)
    | Some oid =>
        let s' := others s in
        (s', match answer with
             | Ok _ => Ok REQUESTED
             | Raise e =>
                 if caught e [SidecarError]
                 then if negb (released oid s') then Raise e else Ok FINISHED
                 else Raise e
             end)
    end.

(** ** Interleavings *)

Inductive ccall := CRegister (session : pystr) (sidecar : nat) (callable : bool) | CRelease (session : pystr).
Definition run_call (c : ccall) (s : coordinator) : coordinator :=
  match c with
  | CRegister x k b => (register x k b s).1
  | CRelease x => (release x s).1
  end.
Definition run_calls (l : list ccall) (s : coordinator) : coordinator :=
  fold_left (fun s c => run_call c s) l s.

(** Registered objects are live and not shared. *)
Record registry_ok (s : coordinator) : Prop := {
  ro_keys : NoDup (map fst (co_runs s));
  ro_objects : NoDup (map snd (co_runs s));
  ro_live : ∀ x oid, (x, oid) ∈ co_runs s → ∃ e, co_heap s !! oid = Some e ∧ rr_released e = false;
}.

(** Does a release of the session come before it is registered again? *)
Fixpoint release_wins (session : pystr) (l : list ccall) : bool :=
  match l with
  | [] => false
  | CRelease x :: r => if bool_decide (x = session) then true else release_wins session r
  | CRegister x _ true :: r => if bool_decide (x = session) then false else release_wins session r
  | CRegister _ _ false :: r => release_wins session r
  end.

Lemma run_call_noop c s : run_call c s = s ∨ ∃ x, x ≠ [] ∧
  ((∃ k, c = CRegister x k true) ∨ (c = CRelease x ∧ is_Some (assoc_get x (co_runs s)))).
Proof.
  destruct c as [x k b|x]; cbn [run_call]; unfold register, release, st_bind, st_lift;
    (destruct (decide (x = [])) as [E|E]; [rewrite bool_decide_true by done; by left|];
     rewrite bool_decide_false by done; cbn [negb guard]).
  - destruct b; cbn [guard]; [right|by left]. exists x. split; [done|]. left. by exists k.
  - destruct (assoc_get x (co_runs s)) eqn:G; [right|by left]. exists x. split; [done|]. right.
    split; [done|]. rewrite ?G. by eexists.
Qed.

Lemma assoc_set_in {V} (k k' : pystr) (v v' : V) l :
  NoDup (map fst l) → (k', v') ∈ assoc_set k v l → (k' = k ∧ v' = v) ∨ (k' ≠ k ∧ (k', v') ∈ l).
Proof.
  intros Hn Hin. pose proof (assoc_get_elem k' v' _ (assoc_set_keys k v l Hn) Hin) as G.
  rewrite assoc_get_set in G. case_bool_decide as E; [left; by injection G as <-|right].
  split; [done|]. by apply assoc_get_in.
Qed.

Lemma assoc_set_objects k v (l : list (pystr * nat)) : NoDup (map snd l) → (v ∉ map snd l) →
  NoDup (map snd (assoc_set k v l)).
Proof.
  intros Hn Hv. induction l as [|[k' v'] l IH]; cbn; [apply NoDup_singleton|].
  cbn in Hn, Hv. apply NoDup_cons in Hn as [H1 H2]. apply not_elem_of_cons in Hv as [H3 H4].
  case_bool_decide; cbn; [by constructor|]. constructor; [|by apply IH].
  intros Hin. assert (S : ∀ m : list (pystr * nat), v' ∈ map snd (assoc_set k v m) → v' = v ∨ v' ∈ map snd m).
  { induction m as [|[a b] m IHm]; cbn; [intros ->%list_elem_of_singleton; auto|].
    case_bool_decide; cbn; rewrite !elem_of_cons; [tauto|]. intros [?|Hm]; [tauto|].
    destruct (IHm Hm); tauto. }
  destruct (S _ Hin) as [->|]; done.
Qed.

Lemma objects_unshared (l : list (pystr * nat)) a b o : NoDup (map snd l) →
  (a, o) ∈ l → (b, o) ∈ l → a = b.
Proof.
  induction l as [|[c p] l IH]; [by intros _ ?%elem_of_nil|]. cbn [map snd]. intros [Hp Hl]%NoDup_cons.
  assert (S : ∀ x, (x, p) ∈ l → False).
  { intros x Hx. apply Hp. by apply (list_elem_of_fmap_2 snd _ (x, p)). }
  rewrite !elem_of_cons. intros [E1|H1] [E2|H2]; [congruence| | |by apply IH].
  - injection E1 as -> ->. by apply S in H2.
  - injection E2 as -> ->. by apply S in H1.
Qed.

Lemma registry_call c s : registry_ok s → registry_ok (run_call c s).
Proof.
  intros I. destruct (run_call_noop c s) as [-> | (x & Nx & [(k & ->)|(-> & oid & G)])]; [done|..].
  - pose proof I as [H1 H2 H3]. cbn [run_call]. unfold register, st_bind, st_lift.
    rewrite bool_decide_false by done. cbn [negb guard fst].
    assert (F : ∀ y o, (y, o) ∈ co_runs s → (o < length (co_heap s))%nat).
    { intros y o Hin. destruct (H3 y o Hin) as (e & He & _). by eapply lookup_lt_Some. }
    split; cbn [co_runs co_heap].
    + by apply assoc_set_keys.
    + apply assoc_set_objects; [done|]. intros ([y o] & E & Hin)%list_elem_of_fmap. cbn in E.
      specialize (F y o Hin). lia.
    + intros y o [[-> ->]|[_ Hin]]%assoc_set_in; [| |done].
      * eexists. rewrite lookup_app_r, Nat.sub_diag by done. by split.
      * destruct (H3 y o Hin) as (e & He & Hr). exists e. split; [by apply lookup_app_l_Some|done].
  - pose proof I as [H1 H2 H3]. cbn [run_call]. unfold release, st_bind, st_lift.
    rewrite bool_decide_false by done. cbn [negb guard fst]. rewrite G.
    pose proof (assoc_get_in _ _ _ G) as Gin. split; cbn [co_runs co_heap].
    + rewrite assoc_pop_without by done. by apply without_NoDup.
    + eapply sublist_NoDup; [exact H2|]. apply sublist_map, assoc_pop_sublist.
    + intros y o Hin. rewrite assoc_pop_without in Hin by done. apply elem_of_without in Hin as [Hin N].
      cbn in N. destruct (H3 y o Hin) as (e & He & Hr). exists e. split; [|done].
      unfold set_released. rewrite list_lookup_alter_ne; [done|]. intros ->.
      apply N, list_elem_of_singleton. by eapply objects_unshared.
Qed.

Lemma registry_calls l s : registry_ok s → registry_ok (run_calls l s).
Proof. revert s. induction l as [|c l IH]; intros s I; [done|]. by apply IH, registry_call. Qed.

(** ** The registration under cancellation *)

Lemma released_alter oid o h s : co_heap s = set_released o h →
  released oid s = released oid {| co_heap := h; co_runs := [] |} || (bool_decide (oid = o) && bool_decide (oid < length h)%nat).
Proof.
  intros E. unfold released, set_released in *. rewrite E. cbn.
  destruct (decide (oid = o)) as [->|N].
  - rewrite list_lookup_alter_eq, (bool_decide_true (o = o)) by done. destruct (h !! o) as [e|] eqn:L; cbn.
    + rewrite bool_decide_true by by eapply lookup_lt_Some. by rewrite orb_true_r.
    + rewrite bool_decide_false; [done|]. apply lookup_ge_None in L. lia.
  - rewrite list_lookup_alter_ne, bool_decide_false by done. by rewrite orb_false_r.
Qed.

(** An object that is no longer registered is not released any more. *)
Lemma unregistered_frozen l s oid : registry_ok s → (oid < length (co_heap s))%nat →
  (oid ∉ map snd (co_runs s)) → released oid (run_calls l s) = released oid s.
Proof.
  revert s. induction l as [|c l IH]; intros s I L N; [done|]. cbn [run_calls fold_left].
  fold (run_calls l (run_call c s)). pose proof (registry_call c s I) as I'.
  destruct (run_call_noop c s) as [E | (x & Nx & [(k & ->)|(-> & o & G)])].
  - rewrite E. by apply IH.
  - assert (E : run_call (CRegister x k true) s = {| co_heap := co_heap s ++ [{| rr_sidecar := k; rr_released := false |}];
      co_runs := assoc_set x (length (co_heap s)) (co_runs s) |}).
    { cbn [run_call]. unfold register, st_bind, st_lift. by rewrite bool_decide_false. }
    rewrite E in *. rewrite IH; cbn [co_heap co_runs]; [|done|rewrite length_app; lia|].
    + unfold released. cbn [co_heap]. by rewrite lookup_app_l.
    + intros ([y o] & Ey & [[-> Eo]|[_ Hin]]%assoc_set_in)%list_elem_of_fmap; cbn in Ey; [lia| |apply I].
      apply N. subst. by apply (list_elem_of_fmap_2 snd _ (y, o)).
  - assert (E : run_call (CRelease x) s = {| co_heap := set_released o (co_heap s); co_runs := assoc_pop x (co_runs s) |}).
    { cbn [run_call]. unfold release, st_bind, st_lift. rewrite bool_decide_false by done.
      cbn [negb guard fst]. by rewrite G. }
    rewrite E in *. rewrite IH; cbn [co_heap co_runs]; [|done|unfold set_released; by rewrite length_alter|].
    + unfold released, set_released. cbn [co_heap]. rewrite list_lookup_alter_ne; [done|]. intros ->.
      apply N. apply assoc_get_in in G. by apply (list_elem_of_fmap_2 snd _ (x, oid)).
    + intros H. apply N. eapply elem_of_sublist; [exact H|]. apply sublist_map, assoc_pop_sublist.
Qed.

Lemma released_exact l s session oid : registry_ok s → session ≠ [] →
  assoc_get session (co_runs s) = Some oid →
  released oid (run_calls l s) = release_wins session l.
Proof.
  revert s. induction l as [|c l IH]; intros s I Ns G.
  { apply assoc_get_in in G. destruct (ro_live _ I _ _ G) as (e & He & Hr). unfold released. cbn. by rewrite He. }
  cbn [run_calls fold_left]. fold (run_calls l (run_call c s)). pose proof (registry_call c s I) as I'.
  pose proof (assoc_get_in _ _ _ G) as Gin. destruct (ro_live _ I _ _ Gin) as (e & He & Hr).
  pose proof (lookup_lt_Some _ _ _ He) as Hlt.
  assert (Hnot : ∀ y, y ≠ session → (y, oid) ∈ co_runs s → False).
  { intros y Ny Hy. apply Ny. eapply objects_unshared; [apply I|exact Hy|exact Gin]. }
  destruct c as [x k [|]|x]; cbn [run_call release_wins] in *;
    unfold register, release, st_bind, st_lift in *.
  - destruct (decide (x = [])) as [->|Nx].
    { rewrite bool_decide_true in * by done. cbn [negb guard fst raise] in *.
      rewrite bool_decide_false by congruence. by apply IH. }
    rewrite bool_decide_false in * by done. cbn [negb guard fst] in *.
    destruct (decide (x = session)) as [->|Nxs].
    + rewrite (bool_decide_true (session = session)) by done. rewrite unregistered_frozen; cbn [co_heap co_runs];
        [|done|rewrite length_app; lia|].
      * unfold released. cbn [co_heap]. by rewrite lookup_app_l, He.
      * intros ([y o] & Ey & [[-> Eo]|[Ny Hin]]%assoc_set_in)%list_elem_of_fmap; cbn in Ey; [lia| |apply I].
        subst o. by eapply Hnot.
    + rewrite bool_decide_false by done. apply IH; [done|done|]. cbn [co_runs].
      by rewrite assoc_get_set, bool_decide_false.
  - destruct (negb (bool_decide (x = []))); cbn [guard fst raise] in *; by apply IH.
  - destruct (decide (x = [])) as [->|Nx].
    { rewrite bool_decide_true in * by done. cbn [negb guard fst raise] in *.
      rewrite bool_decide_false by congruence. by apply IH. }
    rewrite (bool_decide_false (x = [])) in * by done. cbn [negb guard fst] in *.
    destruct (decide (x = session)) as [->|Nxs].
    + rewrite (bool_decide_true (session = session)) by done. rewrite G in *.
      rewrite unregistered_frozen; cbn [co_heap co_runs]; [|done|unfold set_released; by rewrite length_alter|].
      * unfold released, set_released. cbn [co_heap]. by rewrite list_lookup_alter_eq, He.
      * rewrite assoc_pop_without by apply I.
        intros ([y o] & Ey & [Hin N]%elem_of_without)%list_elem_of_fmap. cbn in *. subst o.
        rewrite list_elem_of_singleton in N. by eapply Hnot.
    + rewrite (bool_decide_false (x = session)) by done. destruct (assoc_get x (co_runs s)) as [o|]; [|by apply IH].
      apply IH; [done|done|]. cbn [co_runs]. rewrite assoc_pop_without, assoc_get_without by apply I.
      by rewrite bool_decide_false.
Qed.

Lemma new_coordinator_ok : registry_ok new_coordinator.
Proof. split; cbn; try constructor. by intros ? ? ?%elem_of_nil. Qed.

(** A cancellation request is answered exactly: without a registered run
    it is absent and nothing is asked of a sidecar; otherwise the answer of the
    sidecar decides, and its failure counts as a finished run exactly when the
    run was released while the request was pending (before the session was
    registered again), whatever else happened; any other failure reaches the
    caller. *)
Theorem request_cancel_exact (before during : list ccall) (session_id : pystr) (answer : res unit) :
  session_id ≠ [] →
  (request_cancel session_id answer (run_calls during) (run_calls before new_coordinator)).2 =
  match assoc_get session_id (co_runs (run_calls before new_coordinator)) with
  | None => Ok ABSENT
  | Some _ =>
      match answer with
      | Ok _ => Ok REQUESTED
      | Raise e => if caught e [SidecarError] && release_wins session_id during then Ok FINISHED else Raise e
      end
  end.
Proof.
  intros N. unfold request_cancel, st_bind, st_lift. rewrite bool_decide_false by done. cbn [negb guard].
  pose proof (registry_calls before _ new_coordinator_ok) as I.
  destruct (assoc_get session_id _) as [oid|] eqn:G; [|done]. cbn [snd]. destruct answer as [|e]; [done|].
  rewrite (released_exact during _ _ _ I N G). destruct (caught e _), (release_wins session_id during); done.
Qed.

Lemma request_cancel_exact_witness :
  u"s" ≠ []
  ∧ (request_cancel (u"s") (raise SidecarError "gone") (run_calls [CRelease (u"s")])
       (run_calls [CRegister (u"s") 1 true] new_coordinator)).2 = Ok FINISHED.
Proof.
  split; [discriminate|].
  exact (request_cancel_exact [CRegister (u"s") 1 true] [CRelease (u"s")] (u"s") (raise SidecarError "gone")
           ltac:(discriminate)).
Defined.
