(* ===== verification/PromptJournal.v ===== *)
(** * The prompt journal

    Models [services/prompt_journal.py] over the tables of [db.py] it uses:
    prompt runs with their status machine, the ordered event journal with its
    reconnect cursors, cancellation, the terminal statuses with their retries,
    the recovery of a database left by another process, and the background
    consumer of an executor's events. One tenant database is modelled; the
    retries of [run_db_operation_for_request] are part of each operation. *)

From S2P Require Import Prelude Text Json RunCoordinator.

(** ** Tables *)

Inductive pstatus := Starting | Running | Stopping | Completed | Failed | Cancelled | Interrupted.
#[export] Instance pstatus_eq_dec : EqDecision pstatus.
Proof. solve_decision. Defined.

Definition is_active (st : pstatus) : bool :=
  match st with Starting | Running | Stopping => true | _ => false end.
Definition is_terminal (st : pstatus) : bool := negb (is_active st).

Record run_row := {
  run_id : pystr;
  run_session : pystr;
  run_key : pystr;
  run_status : pstatus;
}.

Record event_row := { er_run : pystr; er_sequence : Z; er_json : pystr }.
#[export] Instance event_row_eq_dec : EqDecision event_row.
Proof. solve_decision. Defined.

(** [messages]: session, role and turn of each row, in [rowid] order. *)
Record message_row := { msg_session : pystr; msg_role : pystr; msg_turn : option pystr }.

Record prompt_db := {
  db_sessions : list (pystr * pystr);
  db_messages : list message_row;
  db_runs : list run_row;
  db_events : list event_row;
}.

Definition with_runs (db : prompt_db) (l : list run_row) : prompt_db := {|
  db_sessions := db_sessions db; db_messages := db_messages db; db_runs := l;
  db_events := db_events db |}.
Definition with_events (db : prompt_db) (l : list event_row) : prompt_db := {|
  db_sessions := db_sessions db; db_messages := db_messages db; db_runs := db_runs db;
  db_events := l |}.
Definition with_sessions (db : prompt_db) (l : list (pystr * pystr)) : prompt_db := {|
  db_sessions := l; db_messages := db_messages db; db_runs := db_runs db;
  db_events := db_events db |}.

Definition EVENT_BYTES_MAX : Z := 1048576.
Definition EVENT_BATCH_BYTES_MAX : Z := 48000.
Definition EVENT_COUNT_MAX : Z := 100000.
Definition EVENT_BATCH_MAX : Z := 100.
Definition RESOURCE_ID_LENGTH : Z := 32.
Definition TERMINAL_STATUS_ATTEMPTS : nat := 3.

(** [_TERMINAL_EVENT_FINAL_STATUSES] *)
Definition TERMINAL_EVENT_FINAL_STATUSES (event_type : pystr) : option pstatus :=
  if bool_decide (event_type = u"result") then Some Completed
  else if bool_decide (event_type = u"cancelled") then Some Cancelled
  else if bool_decide (event_type = u"error") then Some Failed
  else None.

Definition has_id (rid : pystr) (r : run_row) : bool := bool_decide (run_id r = rid).
Definition has_key (session key : pystr) (r : run_row) : bool :=
  bool_decide (run_session r = session) && bool_decide (run_key r = key).
Definition active_in (session : pystr) (r : run_row) : bool :=
  bool_decide (run_session r = session) && is_active (run_status r).
Definition session_exists (db : prompt_db) (session : pystr) : bool :=
  existsb (fun x => bool_decide (x.1 = session)) (db_sessions db).

Definition find_run (db : prompt_db) (rid : pystr) : option run_row :=
  List.find (has_id rid) (db_runs db).

(** INSERT INTO prompt_runs: the primary key, the idempotency key, one active
    run per session, and the session's foreign key. *)
Definition insert_run (db : prompt_db) (r : run_row) : res prompt_db :=
  check! guard (negb (existsb (has_id (run_id r)) (db_runs db))
                && negb (existsb (has_key (run_session r) (run_key r)) (db_runs db))
                && negb (is_active (run_status r) && existsb (active_in (run_session r)) (db_runs db))
                && session_exists db (run_session r))
    IntegrityError "constraint failed" in
  Ok (with_runs db (db_runs db ++ [r])).

(** UPDATE prompt_runs SET status WHERE id = ? AND status IN ...; returns the
    row count. *)
Definition set_row_status (st : pstatus) (r : run_row) : run_row := {|
  run_id := run_id r; run_session := run_session r; run_key := run_key r; run_status := st |}.
Definition update_runs (db : prompt_db) (rid : pystr) (allowed : pstatus → bool) (st : pstatus) :
    prompt_db * Z :=
  let hit r := has_id rid r && allowed (run_status r) in
  (with_runs db (map (fun r => if hit r then set_row_status st r else r) (db_runs db)),
   zlen (List.filter hit (db_runs db))).

Definition run_events (rid : pystr) (db : prompt_db) : list event_row :=
  List.filter (fun e => bool_decide (er_run e = rid)) (db_events db).

(** MAX(sequence) over the events of a run, NULL when there is none. *)
Definition max_sequence (l : list event_row) : option Z :=
  fold_right (fun e acc => Some (match acc with Some m => Z.max (er_sequence e) m | None => er_sequence e end))
    None l.

(** INSERT INTO prompt_events *)
Definition insert_event_row (db : prompt_db) (e : event_row) : res prompt_db :=
  check! guard (negb (existsb (fun x => bool_decide (er_run x = er_run e)
                                        && (er_sequence x =? er_sequence e)) (db_events db))
                && (0 <=? er_sequence e) && existsb (has_id (er_run e)) (db_runs db))
    IntegrityError "constraint failed" in
  Ok (with_events db (db_events db ++ [e])).

(** ** Public values *)

Record PromptRun := { pr_id : pystr; pr_session : pystr; pr_status : pstatus }.
Record PromptEventBatch := {
  pb_run : pystr;
  pb_status : pstatus;
  pb_events : list json;
  pb_next : Z;
}.

Definition row_to_run (r : run_row) : res PromptRun :=
  check! guard (zlen (run_id r) =? RESOURCE_ID_LENGTH) RuntimeError "prompt run row is invalid" in
  Ok {| pr_id := run_id r; pr_session := run_session r; pr_status := run_status r |}.

Definition validate_resource_id (value : pystr) (name : string) : res unit :=
  check! guard (zlen value =? RESOURCE_ID_LENGTH) ValueError
    (name +:+ " must contain exactly 32 characters") in
  guard (forallb is_hex value) ValueError (name +:+ " must be lowercase hexadecimal").

(** A value that is not a UUID, or not its canonical text, raises ValueError. *)
Definition validate_idempotency_key (value : pystr) : res unit :=
  guard (canonical_uuid value) ValueError "idempotency_key must be canonical".

(** ** Database operations with retries

    [run_db_operation_for_request] repeats an operation on a fresh connection
    when the storage fails temporarily: on opening, with the work rolled back,
    or after the commit became durable. It gives up at its deadline, and an
    error of another kind ends it. The closure may keep memory between the
    attempts. *)
Inductive attempt := FailOpen | FailRollback | FailAfter.
Inductive ending := RunsThrough | GivesUp | Fails (e : exn).
Record plan := { failures : list attempt; ends : ending }.
Definition smooth : plan := {| failures := []; ends := RunsThrough |}.

Definition db_op (M A : Type) : Type := M → prompt_db → prompt_db * (M * res A).

Fixpoint run_attempts {M A} (op : db_op M A) (fs : list attempt) (e : ending) (m : M)
    (db : prompt_db) : prompt_db * res A :=
  match fs with
  | [] =>
      match e with
      | RunsThrough => let '(db', (_, r)) := op m db in (db', r)
      | GivesUp => (db, raise TenantUnavailable "Tenant database storage is temporarily unavailable")
      | Fails x => (db, Raise x)
      end
  | FailOpen :: fs' => run_attempts op fs' e m db
  | f :: fs' =>
      match op m db with
      | (db', (m', Ok _)) =>
          run_attempts op fs' e m' (match f with FailAfter => db' | _ => db end)
      | (db', (_, Raise x)) => (db', Raise x)
      end
  end.

Definition run_db_operation {M A} (p : plan) (op : db_op M A) (m : M) (db : prompt_db) :
    prompt_db * res A := run_attempts op (failures p) (ends p) m db.

(** An operation without memory. *)
Definition plain {A} (op : st prompt_db A) : db_op unit A := fun _ db =>
  let '(db', r) := op db in (db', (tt, r)).

(** ** Operations inside one connection *)

(** [create_run]: [others] is what other writers commit between the first
    reads and the write lock. *)
Definition create_run (rid session key : pystr) (admission_guard : prompt_db → res unit)
    (others : prompt_db → prompt_db) : st prompt_db (PromptRun * bool) := fun db =>
  let existing r := let! run := row_to_run r in Ok (run, bool_decide (pr_id run = rid)) in
  match List.find (has_key session key) (db_runs db) with
  | Some r => (db, existing r)
  | None =>
      if negb (session_exists db session)
      then (db, raise PromptRunNotFoundError "session not found")
      else
        let db := others db in
        match List.find (has_key session key) (db_runs db) with
        | Some r => (db, existing r)
        | None =>
            match admission_guard db with
            | Raise e => (db, Raise e)
            | Ok _ =>
                match insert_run db {| run_id := rid; run_session := session; run_key := key;
                                       run_status := Starting |} with
                | Ok db' => (db', Ok ({| pr_id := rid; pr_session := session; pr_status := Starting |}, true))
                | Raise e =>
                    (db, match List.find (has_key session key) (db_runs db) with
                         | Some r => existing r
                         | None =>
                             if existsb (active_in session) (db_runs db)
                             then raise PromptRunConflictError "session already has an active prompt run"
                             else Raise e
                         end)
                end
            end
        end
  end.

Definition read_active (session : pystr) (db : prompt_db) : res (option PromptRun) :=
  match List.find (active_in session) (db_runs db) with
  | Some r => let! run := row_to_run r in Ok (Some run)
  | None => Ok None
  end.

(** Rows of a SELECT ... ORDER BY sequence. *)
Fixpoint insert_by_sequence (e : event_row) (l : list event_row) : list event_row :=
  match l with
  | [] => [e]
  | x :: r => if er_sequence e <=? er_sequence x then e :: x :: r else x :: insert_by_sequence e r
  end.
Definition order_by_sequence (l : list event_row) : list event_row :=
  fold_right insert_by_sequence [] l.

Definition loads_text (s : pystr) : res json :=
  loads (fun lit => Ok (JFloat lit)) (fun lit => Ok (JFloat lit)) dict_of_pairs s.

(** The loop of [read_events]: the events of the page and the next cursor. *)
Fixpoint page_loop (rows : list event_row) (cursor bytes : Z) (first : bool) : res (list json * Z) :=
  match rows with
  | [] => Ok ([], cursor)
  | row :: r =>
      check! guard (er_sequence row =? cursor) RuntimeError
        "prompt journal sequence is not contiguous" in
      let! encoded := utf8_encode (er_json row) in
      let size := zlen encoded in
      if negb first && (EVENT_BATCH_BYTES_MAX <? bytes + size) then Ok ([], cursor)
      else
        let! event := loads_text (er_json row) in
        match event with
        | JObj _ =>
            let! rest := page_loop r (cursor + 1) (bytes + size) false in
            Ok (event :: rest.1, rest.2)
        | _ => raise RuntimeError "prompt journal event is not an object"
        end
  end.

Definition read_events (session rid : pystr) (next_sequence : Z) (db : prompt_db) :
    res PromptEventBatch :=
  match List.find (fun r => has_id rid r && bool_decide (run_session r = session)) (db_runs db) with
  | None => raise PromptRunNotFoundError "prompt run not found"
  | Some run =>
      let rows := take (Z.to_nat EVENT_BATCH_MAX)
        (order_by_sequence (List.filter (fun e => next_sequence <=? er_sequence e) (run_events rid db))) in
      let! page := page_loop rows next_sequence 0 true in
      Ok {| pb_run := rid; pb_status := run_status run; pb_events := page.1; pb_next := page.2 |}
  end.

(** [request_stop]; [others] is what other writers commit between the read and
    the UPDATE. *)
Definition request_stop (session rid : pystr) (others : prompt_db → prompt_db) :
    st prompt_db (PromptRun * bool) := fun db =>
  let row db := List.find (fun r => has_id rid r && bool_decide (run_session r = session)) (db_runs db) in
  match row db with
  | None => (db, raise PromptRunNotFoundError "prompt run not found")
  | Some r =>
      match row_to_run r with
      | Raise e => (db, Raise e)
      | Ok run =>
          if is_terminal (pr_status run) then (db, Ok (run, false))
          else if bool_decide (pr_status run = Stopping) then (db, Ok (run, true))
          else
            let db := others db in
            let '(db', n) := update_runs db rid
              (fun x => bool_decide (x = Starting) || bool_decide (x = Running)) Stopping in
            if n =? 1
            then (db', Ok ({| pr_id := pr_id run; pr_session := pr_session run; pr_status := Stopping |},
                           true))
            else
              (db, match row db with
                   | None => raise PromptRunNotFoundError "prompt run not found"
                   | Some current =>
                       let! reconciled := row_to_run current in
                       if is_terminal (pr_status reconciled) then Ok (reconciled, false)
                       else if bool_decide (pr_status reconciled = Stopping) then Ok (reconciled, true)
                       else raise RuntimeError "prompt cancellation transition was rejected"
                   end)
      end
  end.

(** [_derive_terminal_status_from_events]: the rows arrive in descending
    order of their sequence. *)
Definition event_final_status (text : pystr) : option pstatus :=
  match loads_text text with
  | Ok (JObj l) =>
      match dict_get (u"type") l with
      | Some (JStr t) => TERMINAL_EVENT_FINAL_STATUSES t
      | _ => None
      end
  | _ => None
  end.

Fixpoint first_final_status (l : list event_row) : option pstatus :=
  match l with
  | [] => None
  | e :: r => match event_final_status (er_json e) with Some st => Some st | None => first_final_status r end
  end.

Definition derive_terminal_status_from_events (db : prompt_db) (rid : pystr) : option pstatus :=
  first_final_status (reverse (order_by_sequence (run_events rid db))).

(** The turn of the last user message of a session. *)
Definition last_user_turn (db : prompt_db) (session : pystr) : option pystr :=
  match last (List.filter (fun m => bool_decide (msg_session m = session)
                                    && bool_decide (msg_role m = u"user")) (db_messages db)) with
  | Some m => msg_turn m
  | None => None
  end.

(** UPDATE sessions SET status = 'idle' WHERE id = ? AND status = 'running'
    AND (reset OR run = last user turn) *)
Definition idle_session (db : prompt_db) (session rid : pystr) (reset : bool) : prompt_db :=
  if reset || bool_decide (last_user_turn db session = Some rid)
  then with_sessions db (map (fun x => if bool_decide (x.1 = session) && bool_decide (x.2 = u"running")
                                       then (x.1, u"idle") else x) (db_sessions db))
  else db.

Definition INTERRUPTED_EVENT : json :=
  JObj [(u"type", JStr (u"error")); (u"error", JStr (u"Prompt run was interrupted"))].

(** [json.dumps(event, separators=(",", ":"), sort_keys=True)] *)
Definition serialize (event : json) : pystr := dumps true true event.

(** One iteration of [recover_prompt_database]. *)
Definition recover_row (reset_sessions : bool) (db : prompt_db) (row : run_row) :
    res (prompt_db * PromptRun) :=
  let! p :=
    match derive_terminal_status_from_events db (run_id row) with
    | Some derived => Ok (db, if bool_decide (run_status row = Stopping) then Cancelled else derived)
    | None =>
        let sequence := match max_sequence (run_events (run_id row) db) with Some m => m + 1 | None => 0 end in
        let! db' :=
          if sequence <? EVENT_COUNT_MAX
          then insert_event_row db {| er_run := run_id row; er_sequence := sequence;
                                      er_json := serialize INTERRUPTED_EVENT |}
          else Ok db in
        Ok (db', Interrupted)
    end in
  let db1 := idle_session p.1 (run_session row) (run_id row) reset_sessions in
  let db2 := (update_runs db1 (run_id row) is_active p.2).1 in
  Ok (db2, {| pr_id := run_id row; pr_session := run_session row; pr_status := p.2 |}).

Fixpoint recover_rows (reset_sessions : bool) (db : prompt_db) (rows : list run_row) :
    res (prompt_db * list PromptRun) :=
  match rows with
  | [] => Ok (db, [])
  | row :: r =>
      let! x := recover_row reset_sessions db row in
      let! y := recover_rows reset_sessions x.1 r in
      Ok (y.1, x.2 :: y.2)
  end.

(** [recover_prompt_database]: one transaction, rolled back on any error. *)
Definition recover_prompt_database (reset_sessions : bool) : st prompt_db (list PromptRun) := fun db =>
  match recover_rows reset_sessions db (List.filter (fun r => is_active (run_status r)) (db_runs db)) with
  | Ok (db', l) => (db', Ok l)
  | Raise e => (db, Raise e)
  end.

(** [append], the closure of [_append_event]; the memory is
    [intended_sequence]. *)
Definition append (rid : pystr) (serialized : pystr) (unless_terminal deduplicate : bool) :
    db_op (option Z) unit := fun intended db =>
  match find_run db rid with
  | None => (db, (intended, raise PromptRunNotFoundError "prompt run not found"))
  | Some run =>
      if unless_terminal && (is_terminal (run_status run) || bool_decide (run_status run = Stopping))
      then (db, (intended, Ok tt))
      else if deduplicate && existsb (fun e => bool_decide (er_json e = serialized)) (run_events rid db)
      then (db, (intended, Ok tt))
      else
        let seq := match intended with
                   | Some n => n
                   | None => match max_sequence (run_events rid db) with Some m => m + 1 | None => 0 end
                   end in
        if EVENT_COUNT_MAX <=? seq
        then (db, (Some seq, raise RuntimeError "prompt journal event count exceeded the limit"))
        else
          match List.find (fun e => er_sequence e =? seq) (run_events rid db) with
          | Some existing =>
              if bool_decide (er_json existing = serialized) then (db, (Some seq, Ok tt))
              else (db, (Some seq, raise RuntimeError "prompt journal sequence contains a different event"))
          | None =>
              match insert_event_row db {| er_run := rid; er_sequence := seq; er_json := serialized |} with
              | Ok db' => (db', (Some seq, Ok tt))
              | Raise e => (db, (Some seq, Raise e))
              end
          end
  end.

(** [update] of [_set_status]; [others] as above. *)
Definition update_status (rid : pystr) (target : pstatus) (expected : pstatus → bool)
    (others : prompt_db → prompt_db) : st prompt_db unit := fun db =>
  let row := find_run db rid in
  if match row with Some r => bool_decide (run_status r = target) | None => false end then (db, Ok tt)
  else if bool_decide (target = Running)
          && match row with Some r => bool_decide (run_status r = Stopping) | None => false end
  then (db, raise PromptRunStoppingError "prompt cancellation won before startup")
  else
    let '(db', n) := update_runs (others db) rid expected target in
    (db', guard (n =? 1) RuntimeError "prompt run status transition was rejected").

(** [update] of [_set_terminal_status] *)
Definition update_terminal (rid : pystr) (target : pstatus) (others : prompt_db → prompt_db) :
    st prompt_db (pystr * pstatus) := fun db =>
  match find_run db rid with
  | None => (db, raise PromptRunNotFoundError "prompt run not found")
  | Some row =>
      if is_terminal (run_status row) then (db, Ok (run_session row, run_status row))
      else
        let effective := if bool_decide (run_status row = Stopping) then Cancelled else target in
        let db := others db in
        let '(db', n) := update_runs db rid is_active effective in
        if negb (n =? 1)
        then (db, match find_run db rid with
                  | Some current =>
                      check! guard (is_terminal (run_status current)) RuntimeError
                        "prompt terminal status transition was rejected" in
                      Ok (run_session row, run_status current)
                  | None => raise RuntimeError "prompt terminal status transition was rejected"
                  end)
        else (idle_session db' (run_session row) rid false, Ok (run_session row, effective))
  end.

Definition load_run (session rid : pystr) (db : prompt_db) : res PromptRun :=
  match List.find (fun r => has_id rid r && bool_decide (run_session r = session)) (db_runs db) with
  | None => raise PromptRunNotFoundError "prompt run not found"
  | Some row => row_to_run row
  end.

(** ** The journal *)

(** The state of the service for its database: the registered tasks, whether
    it is closing, whether the database was recovered, the terminal statuses
    that could not be stored, the observed outcomes, and the storage plans of
    the database operations to come. *)
Record jstate := {
  js_db : prompt_db;
  js_tasks : list pystr;
  js_closing : bool;
  js_recovered : bool;
  js_pending : list (pystr * pstatus);
  js_observed : list (pystr * pystr * pstatus);
  js_plans : list plan;
}.

Definition set_db (s : jstate) (db : prompt_db) : jstate := {|
  js_db := db; js_tasks := js_tasks s; js_closing := js_closing s; js_recovered := js_recovered s;
  js_pending := js_pending s; js_observed := js_observed s; js_plans := tail (js_plans s) |}.
Definition set_tasks (s : jstate) (l : list pystr) : jstate := {|
  js_db := js_db s; js_tasks := l; js_closing := js_closing s; js_recovered := js_recovered s;
  js_pending := js_pending s; js_observed := js_observed s; js_plans := js_plans s |}.
Definition set_pending (s : jstate) (l : list (pystr * pstatus)) : jstate := {|
  js_db := js_db s; js_tasks := js_tasks s; js_closing := js_closing s; js_recovered := js_recovered s;
  js_pending := l; js_observed := js_observed s; js_plans := js_plans s |}.
Definition set_recovered (s : jstate) : jstate := {|
  js_db := js_db s; js_tasks := js_tasks s; js_closing := js_closing s; js_recovered := true;
  js_pending := js_pending s; js_observed := js_observed s; js_plans := js_plans s |}.
Definition observe (s : jstate) (session rid : pystr) (outcome : pstatus) : jstate := {|
  js_db := js_db s; js_tasks := js_tasks s; js_closing := js_closing s; js_recovered := js_recovered s;
  js_pending := js_pending s; js_observed := js_observed s ++ [(session, rid, outcome)];
  js_plans := js_plans s |}.

(** [run_db_operation_for_request] on the journal's database. *)
Definition db_step {M A} (op : db_op M A) (memory : M) : st jstate A := fun s =>
  let '(db', r) := run_db_operation (hd smooth (js_plans s)) op memory (js_db s) in
  (set_db s db', r).
Definition db_query {A} (q : prompt_db → res A) : st jstate A :=
  db_step (plain (fun db => (db, q db))) tt.

(** [_set_terminal_status]: the observer's errors are dropped. *)
Definition set_terminal_status (rid : pystr) (target : pstatus) (others : prompt_db → prompt_db) :
    st jstate unit :=
  if is_active target then st_lift (raise ValueError "prompt terminal status is invalid")
  else
    let^ x := db_step (plain (update_terminal rid target others)) tt in
    fun s => (observe s x.1 rid x.2, Ok tt).

Definition is_sqlite_busy (e : exn) : bool :=
  caught e [SqliteBusy]
  || bool_decide (exn_msg e = "database is locked"%string)
  || bool_decide (exn_msg e = "database table is locked"%string).

(** [_persist_terminal_status]: at most three attempts, the next one only
    after lock contention. [CancelledError] is not an [Exception]. *)
Fixpoint persist_attempts (n : nat) (rid : pystr) (target : pstatus)
    (others : prompt_db → prompt_db) : st jstate unit := fun s =>
  match n with
  | O => (s, raise AssertionError "Terminal status attempts must return or raise")
  | S k =>
      match set_terminal_status rid target others s with
      | (s', Ok _) => (s', Ok tt)
      | (s', Raise e) =>
          if caught e [CancelledError] || negb (is_sqlite_busy e) || bool_decide (k = O)
          then (s', Raise e)
          else persist_attempts k rid target others s'
      end
  end.
Definition persist_terminal_status (rid : pystr) (target : pstatus)
    (others : prompt_db → prompt_db) : st jstate unit :=
  persist_attempts TERMINAL_STATUS_ATTEMPTS rid target others.

Definition pending_of (rid : pystr) (s : jstate) : option pstatus :=
  option_map snd (List.find (fun x => bool_decide (x.1 = rid)) (js_pending s)).
Definition drop_pending (rid : pystr) (l : list (pystr * pstatus)) : list (pystr * pstatus) :=
  List.filter (fun x => negb (bool_decide (x.1 = rid))) l.

(** [_remember_pending_terminal_status] *)
Definition remember_pending (rid : pystr) (target : pstatus) : st jstate unit := fun s =>
  (set_pending s (drop_pending rid (js_pending s) ++ [(rid, target)]), Ok tt).

(** [_reconcile_pending_terminal_status] *)
Definition reconcile_pending (rid : pystr) (others : prompt_db → prompt_db) : st jstate unit := fun s =>
  match pending_of rid s with
  | None => (s, Ok tt)
  | Some target =>
      (do^ persist_terminal_status rid target others in
       fun s' => (if bool_decide (pending_of rid s' = Some target)
                  then set_pending s' (drop_pending rid (js_pending s')) else s', Ok tt)) s
  end.

Fixpoint for_each {A S} (f : A → st S unit) (l : list A) : st S unit :=
  match l with
  | [] => st_ret tt
  | a :: r => do^ f a in for_each f r
  end.

(** [_reconcile_pending_for_database] *)
Definition reconcile_all (others : prompt_db → prompt_db) : st jstate unit := fun s =>
  for_each (fun rid => reconcile_pending rid others) (map fst (js_pending s)) s.

(** [_recover_database] *)
Definition recover_database (others : prompt_db → prompt_db) : st jstate unit := fun s =>
  if js_recovered s then (s, Ok tt)
  else
    (let^ recovered := db_step (plain (recover_prompt_database false)) tt in
     do^ (fun s' => (set_recovered s', Ok tt)) in
     for_each (fun r => set_terminal_status (pr_id r) (pr_status r) others) recovered) s.

(** [_start_serialized], with the run ID drawn for it; the second result tells
    whether a consumer task was created. *)
Definition start_serialized (rid session key : pystr) (admission_guard : prompt_db → res unit)
    (others : prompt_db → prompt_db) : st jstate (PromptRun * bool) :=
  let^ x := db_step (plain (create_run rid session key admission_guard others)) tt in
  fun s =>
    let '(run, created) := x in
    let registered := bool_decide (pr_id run ∈ js_tasks s) in
    if created || (bool_decide (pr_status run = Starting) && negb registered)
    then if registered
         then (s, raise AssertionError "new run ID must not collide with an active task")
         else (set_tasks s (js_tasks s ++ [pr_id run]), Ok (run, true))
    else (s, Ok (run, false)).

Definition start (rid session key : pystr) (admission_guard : prompt_db → res unit)
    (others : prompt_db → prompt_db) : st jstate (PromptRun * bool) :=
  do^ st_lift (validate_resource_id session "session_id") in
  do^ st_lift (validate_idempotency_key key) in
  do^ (fun s => (s, guard (negb (js_closing s)) RuntimeError "prompt journal is closing")) in
  do^ recover_database others in
  do^ reconcile_all others in
  do^ (fun s => (s, guard (negb (js_closing s)) RuntimeError "prompt journal is closing")) in
  start_serialized rid session key admission_guard others.

Definition active (session : pystr) (others : prompt_db → prompt_db) : st jstate (option PromptRun) :=
  do^ st_lift (validate_resource_id session "session_id") in
  do^ recover_database others in
  do^ reconcile_all others in
  db_query (read_active session).

Definition events (session rid : pystr) (next_sequence : Z) (others : prompt_db → prompt_db) :
    st jstate PromptEventBatch :=
  do^ st_lift (validate_resource_id session "session_id") in
  do^ st_lift (validate_resource_id rid "run_id") in
  do^ st_lift (guard (0 <=? next_sequence) ValueError "next_sequence must be a non-negative integer") in
  do^ recover_database others in
  do^ reconcile_pending rid others in
  db_query (read_events session rid next_sequence).

(** [_append_event]; [event] is a dict. *)
Definition append_event (rid : pystr) (event : json) (unless_terminal deduplicate : bool) :
    st jstate unit :=
  match event with
  | JObj l =>
      match dict_get (u"type") l with
      | Some (JStr _) =>
          let serialized := serialize event in
          do^ st_lift (guard (zlen serialized <=? EVENT_BYTES_MAX) ValueError
                         "prompt journal event exceeds the byte limit") in
          db_step (append rid serialized unless_terminal deduplicate) None
      | _ => st_lift (raise ValueError "prompt journal event must have a string type")
      end
  | _ => st_lift (raise ValueError "prompt journal event must have a string type")
  end.

Definition event_type (event : json) : option pystr :=
  match event with
  | JObj l => match dict_get (u"type") l with Some (JStr t) => Some t | _ => None end
  | _ => None
  end.
Definition is_type (event : json) (t : pystr) : bool := bool_decide (event_type event = Some t).

Definition CANCELLED_EVENT : json :=
  JObj [(u"type", JStr (u"cancelled")); (u"reason", JStr (u"user_stop"))].
Definition FAILED_EVENT : json :=
  JObj [(u"type", JStr (u"error")); (u"error", JStr (u"Prompt execution failed"))].

(** [_append_terminal_event_safely] *)
Definition append_terminal_event_safely (rid : pystr) (event : json) : st jstate unit := fun s =>
  match append_event rid event true (is_type event (u"cancelled")) s with
  | (s', Raise e) =>
      if caught e [PromptRunNotFoundError; RuntimeError; TypeError; ValueError; SqliteError]
      then (s', Ok tt) else (s', Raise e)
  | r => r
  end.

(** What the executor's iterator yields next. *)
Inductive source_item := SourceEvent (event : json) | SourceRaises (e : exn).

Definition event_status (event : json) (final : pstatus) : pstatus :=
  if is_type event (u"cancelled") then Cancelled
  else if is_type event (u"error") then Failed
  else final.

(** The body of [_consume]: the final status, or the exception with the
    status reached before it. *)
Fixpoint consume_events (rid : pystr) (src : list source_item) (final : pstatus) (s : jstate) :
    jstate * pstatus * res unit :=
  match src with
  | [] => (s, final, Ok tt)
  | SourceRaises e :: _ => (s, final, Raise e)
  | SourceEvent event :: r =>
      match append_event rid event false (is_type event (u"cancelled")) s with
      | (s', Ok _) => consume_events rid r (event_status event final) s'
      | (s', Raise e) => (s', final, Raise e)
      end
  end.

Definition consume_body (rid : pystr) (src : list source_item) (others : prompt_db → prompt_db)
    (s : jstate) : jstate * pstatus * res unit :=
  match db_step (plain (update_status rid Running (fun x => bool_decide (x = Starting)) others)) tt s with
  | (s', Ok _) => consume_events rid src Completed s'
  | (s', Raise e) => (s', Completed, Raise e)
  end.

(** The except clauses of [_consume]: the final status, and the exception that
    is raised again. *)
Definition consume_outcome (rid : pystr) (final : pstatus) (r : res unit) (s : jstate) :
    jstate * pstatus * res unit :=
  match r with
  | Ok _ => (s, final, Ok tt)
  | Raise e =>
      if caught e [PromptRunStoppingError] then (s, Cancelled, Ok tt)
      else if caught e [CancelledError] then
        let '(status, event) :=
          if js_closing s then (Interrupted, INTERRUPTED_EVENT) else (Cancelled, CANCELLED_EVENT) in
        let '(s', r') := append_terminal_event_safely rid event s in
        (s', status, match r' with Ok _ => Raise e | Raise e' => Raise e' end)
      else
        let '(s', r') := append_terminal_event_safely rid FAILED_EVENT s in (s', Failed, r')
  end.

(** [_consume] with its finally block. *)
Definition consume (rid : pystr) (src : list source_item) (others : prompt_db → prompt_db) :
    st jstate unit := fun s =>
  let '(s1, final, r) := consume_body rid src others s in
  let '(s2, final, r) := consume_outcome rid final r s1 in
  let '(s3, p) := persist_terminal_status rid final others s2 in
  let '(s4, r) :=
    match p with
    | Ok _ => (s3, r)
    | Raise e =>
        if caught e [CancelledError] then (s3, Raise e)
        else let '(s4, _) := remember_pending rid final s3 in (s4, Raise e)
    end in
  (set_tasks s4 (List.filter (fun t => negb (bool_decide (t = rid))) (js_tasks s4)), r).

(** [cancel]; the cancelled task is the consumer of the run: what it does, and
    what awaiting it raises, is [interrupted_task]. *)
Definition cancel (session rid : pystr) (coordinator : res CancelOutcome)
    (interrupted_task : st jstate unit) (others : prompt_db → prompt_db) : st jstate PromptRun :=
  do^ st_lift (validate_resource_id session "session_id") in
  do^ st_lift (validate_resource_id rid "run_id") in
  do^ recover_database others in
  do^ reconcile_pending rid others in
  let^ x := db_step (plain (request_stop session rid others)) tt in
  if negb x.2 then st_ret x.1
  else
    let^ outcome := st_lift coordinator in
    do^ (match outcome with
         | ABSENT =>
             do^ (fun s =>
               if bool_decide (rid ∈ js_tasks s) then
                 match interrupted_task s with
                 | (s', Raise e) => if caught e [CancelledError] then (s', Ok tt) else (s', Raise e)
                 | r => r
                 end
               else (s, Ok tt)) in
             do^ append_event rid CANCELLED_EVENT false true in
             set_terminal_status rid Cancelled others
         | _ => st_ret tt
         end) in
    db_query (load_run session rid).

(** [close]: every task is cancelled and awaited; each one runs its cleanup. *)
Definition close (cleanups : pystr → jstate → jstate) : st jstate unit := fun s =>
  let s1 := {| js_db := js_db s; js_tasks := js_tasks s; js_closing := true;
               js_recovered := js_recovered s; js_pending := js_pending s;
               js_observed := js_observed s; js_plans := js_plans s |} in
  (set_tasks (fold_left (fun s rid => cleanups rid s) (js_tasks s) s1) [], Ok tt).
