(* ===== verification/PromptJournalSpec.v ===== *)
(** * Correctness of the prompt journal

    How every operation of the journal may change the database (the relation
    [evolves]: the invariant of the tables, absorbing terminal statuses,
    append-only events), the exactly-once append under retries, the pages of a
    reconnecting reader, idempotent starts, recovery and the consumer's end. *)

From S2P Require Import Prelude Text Json PromptJournal.

(** ** The invariant *)

Definition status_of (db : prompt_db) (rid : pystr) : option pstatus :=
  option_map run_status (find_run db rid).

Definition run_name (r : run_row) : pystr * pystr := (run_session r, run_key r).

(** The events of a run are numbered from zero in journal order. *)
Definition contiguous (l : list event_row) : Prop :=
  map er_sequence l = seqZ 0 (zlen l) ∧ zlen l <= EVENT_COUNT_MAX.

Record db_ok (db : prompt_db) : Prop := {
  ok_ids : NoDup (map run_id (db_runs db));
  ok_keys : NoDup (map run_name (db_runs db));
  ok_active : ∀ session, (length (List.filter (active_in session) (db_runs db)) <= 1)%nat;
  ok_events : ∀ rid, contiguous (run_events rid db);
}.

Record evolves (db db' : prompt_db) : Prop := {
  ev_ok : db_ok db';
  ev_terminal : ∀ rid x, status_of db rid = Some x → is_terminal x = true → status_of db' rid = Some x;
  ev_runs : ∀ rid r, find_run db rid = Some r →
    ∃ r', find_run db' rid = Some r' ∧ run_name r' = run_name r;
  ev_append : ∀ rid, ∃ k, run_events rid db' = run_events rid db ++ k;
}.

Lemma evolves_refl db : db_ok db → evolves db db.
Proof. intros H. split; [done|done|eauto|]. intros rid. exists []. by rewrite app_nil_r. Qed.

Lemma evolves_trans db1 db2 db3 : evolves db1 db2 → evolves db2 db3 → evolves db1 db3.
Proof.
  intros E1 E2. split.
  - apply E2.
  - intros rid x H T. exact (ev_terminal _ _ E2 _ _ (ev_terminal _ _ E1 _ _ H T) T).
  - intros rid r H. destruct (ev_runs _ _ E1 rid r H) as (r1 & H1 & N1).
    destruct (ev_runs _ _ E2 rid r1 H1) as (r2 & H2 & N2). exists r2. split; [done|congruence].
  - intros rid. destruct (ev_append _ _ E1 rid) as [k1 H1]. destruct (ev_append _ _ E2 rid) as [k2 H2].
    exists (k1 ++ k2). by rewrite H2, H1, app_assoc.
Qed.

(** *** Rows *)

Lemma find_run_in db rid r : find_run db rid = Some r → r ∈ db_runs db ∧ run_id r = rid.
Proof.
  unfold find_run. intros [Hin Hid]%find_some. unfold has_id in Hid. breflect. by rewrite list_elem_of_In.
Qed.

Lemma find_run_unique db rid r : db_ok db → r ∈ db_runs db → run_id r = rid → find_run db rid = Some r.
Proof.
  intros H Hin <-. apply ok_ids in H. unfold find_run.
  induction (db_runs db) as [|x l IH]; [by inversion Hin|]. cbn in *.
  apply NoDup_cons in H as [N H]. unfold has_id at 1. case_bool_decide as E.
  - apply elem_of_cons in Hin as [->|Hin]; [done|]. exfalso. apply N. rewrite E.
    by apply list_elem_of_fmap_2.
  - apply elem_of_cons in Hin as [->|Hin]; [done|]. by apply IH.
Qed.

Lemma find_map_id rid (f : run_row → run_row) l : (∀ r, run_id (f r) = run_id r) →
  List.find (has_id rid) (map f l) = option_map f (List.find (has_id rid) l).
Proof.
  intros H. induction l as [|r l IH]; [done|]. cbn. unfold has_id in *. rewrite H.
  by destruct (bool_decide _).
Qed.

(** The row an UPDATE leaves. *)
Definition updated (rid : pystr) (allowed : pstatus → bool) (target : pstatus) (r : run_row) : run_row :=
  if has_id rid r && allowed (run_status r) then set_row_status target r else r.

Lemma update_runs_fst db rid allowed target :
  (update_runs db rid allowed target).1 = with_runs db (map (updated rid allowed target) (db_runs db)).
Proof. done. Qed.

Lemma updated_id rid allowed target r : run_id (updated rid allowed target r) = run_id r.
Proof. unfold updated. by destruct (_ && _). Qed.
Lemma updated_name rid allowed target r : run_name (updated rid allowed target r) = run_name r.
Proof. unfold updated. by destruct (_ && _). Qed.

Lemma updated_active rid allowed target r session :
  (∀ x, allowed x = true → is_active target = true → is_active x = true) →
  active_in session (updated rid allowed target r) = true → active_in session r = true.
Proof.
  intros H. unfold updated. destruct (has_id rid r && allowed (run_status r)) eqn:E; [|done].
  apply andb_true_iff in E as [_ E]. unfold active_in. cbn. intros A. apply andb_true_iff in A as [A1 A2].
  by rewrite A1, (H _ E A2).
Qed.

Lemma filter_map_length {A B} (f : A → B) (p : A → bool) (q : B → bool) l :
  (∀ a, q (f a) = true → p a = true) → (length (List.filter q (map f l)) <= length (List.filter p l))%nat.
Proof.
  intros H. induction l as [|a l IH]; [done|]. cbn. destruct (q (f a)) eqn:E.
  - rewrite (H a E). cbn. lia.
  - destruct (p a); cbn; lia.
Qed.

(** An UPDATE that respects terminal statuses evolves the database. *)
Lemma update_runs_evolves db rid allowed target : db_ok db →
  (∀ x, allowed x = true → is_active x = true) →
  evolves db (update_runs db rid allowed target).1.
Proof.
  intros K Ha. rewrite update_runs_fst. split.
  - destruct K as [K1 K2 K3 K4]. split; cbn.
    + rewrite map_map. erewrite map_ext; [exact K1|]. intros r. apply updated_id.
    + rewrite map_map. erewrite map_ext; [exact K2|]. intros r. apply updated_name.
    + intros session. etransitivity; [|apply (K3 session)]. apply filter_map_length.
      intros r. apply updated_active. auto.
    + exact K4.
  - intros rid' x H T. unfold status_of, find_run in *. cbn.
    rewrite find_map_id by apply updated_id. destruct (List.find _ _) as [r|]; [|done]. cbn in *.
    injection H as <-. unfold updated. destruct (has_id rid r && allowed (run_status r)) eqn:E; [|done].
    apply andb_true_iff in E as [_ E]. unfold is_terminal in T. by rewrite (Ha _ E) in T.
  - intros rid' r H. unfold find_run in *. cbn. rewrite find_map_id by apply updated_id. rewrite H.
    eexists. split; [done|]. apply updated_name.
  - intros rid'. exists []. by rewrite app_nil_r.
Qed.

Lemma idle_session_evolves db session rid reset : db_ok db → evolves db (idle_session db session rid reset).
Proof.
  intros K. unfold idle_session. destruct (_ || _); [|by apply evolves_refl].
  split; [by destruct K|done|eauto|]. intros r. exists []. by rewrite app_nil_r.
Qed.

Lemma find_app_l {A} (p : A → bool) l k x : List.find p l = Some x → List.find p (l ++ k) = Some x.
Proof. induction l as [|a l IH]; [done|]. cbn. by destruct (p a). Qed.

Lemma insert_run_evolves db r db' : db_ok db → insert_run db r = Ok db' → evolves db db'.
Proof.
  intros K H. unfold insert_run in H. inv_ok. breflect.
  match goal with H : existsb (has_id _) _ = false |- _ => rename H into N1 end.
  match goal with H : existsb (has_key _ _) _ = false |- _ => rename H into N2 end.
  match goal with H : _ && existsb (active_in _) _ = false |- _ => rename H into N3 end.
  assert (P : ∀ rid r0, find_run db rid = Some r0 → find_run (with_runs db (db_runs db ++ [r])) rid = Some r0).
  { intros rid r0 F. by apply find_app_l. }
  split.
  - destruct K as [K1 K2 K3 K4]. split; cbn.
    + rewrite map_app. apply NoDup_app. split_and!; [done| |apply NoDup_singleton].
      intros x Hx Hx'. apply list_elem_of_singleton in Hx'. subst x.
      apply list_elem_of_fmap in Hx as (y & Ey & Hy).
      assert (existsb (has_id (run_id r)) (db_runs db) = true); [|congruence].
      apply existsb_exists. exists y. rewrite <- list_elem_of_In. split; [done|]. by apply bool_decide_true.
    + rewrite map_app. apply NoDup_app. split_and!; [done| |apply NoDup_singleton].
      intros x Hx Hx'. apply list_elem_of_singleton in Hx'. subst x.
      apply list_elem_of_fmap in Hx as (y & Ey & Hy). unfold run_name in Ey. injection Ey as E1 E2.
      assert (existsb (has_key (run_session r) (run_key r)) (db_runs db) = true); [|congruence].
      apply existsb_exists. exists y. rewrite <- list_elem_of_In. split; [done|].
      unfold has_key. by rewrite !bool_decide_true.
    + intros session. rewrite List.filter_app, length_app. cbn.
      destruct (active_in session r) eqn:A; [|cbn; specialize (K3 session); lia]. cbn.
      unfold active_in in A. apply andb_true_iff in A as [A1 A2]. breflect. subst session.
      rewrite A2 in N3. cbn in N3.
      assert (List.filter (active_in (run_session r)) (db_runs db) = []) as ->; [|done].
      clear - N3. induction (db_runs db) as [|x l IH]; [done|]. cbn in *.
      apply orb_false_iff in N3 as [-> N3]. by apply IH.
    + exact K4.
  - intros rid x S T. unfold status_of in *. destruct (find_run db rid) as [r0|] eqn:F; [|done].
    by rewrite (P _ _ F).
  - intros rid r0 F. exists r0. split; [by apply P|done].
  - intros rid. exists []. by rewrite app_nil_r.
Qed.

(** *** Events *)

Lemma run_events_snoc rid db e :
  run_events rid (with_events db (db_events db ++ [e]))
  = run_events rid db ++ (if bool_decide (er_run e = rid) then [e] else []).
Proof. unfold run_events. cbn. rewrite List.filter_app. cbn. by destruct (bool_decide _). Qed.

Lemma max_sequence_contiguous l : map er_sequence l = seqZ 0 (zlen l) →
  max_sequence l = if zlen l =? 0 then None else Some (zlen l - 1).
Proof.
  intros H. assert (G : ∀ a, map er_sequence l = seqZ a (zlen l) →
    max_sequence l = if zlen l =? 0 then None else Some (a + zlen l - 1)).
  { clear H. induction l as [|e l IH]; intros a H; [done|].
    rewrite zlen_cons in *. rewrite seqZ_cons in H by (unfold zlen; lia). injection H as E H.
    replace (Z.pred (1 + zlen l)) with (zlen l) in H by lia. cbn [max_sequence fold_right].
    fold (max_sequence l). rewrite (IH (Z.succ a) H).
    assert (0 <= zlen l) by (unfold zlen; lia).
    rewrite (proj2 (Z.eqb_neq (1 + zlen l) 0)) by lia.
    destruct (zlen l =? 0) eqn:Z0; breflect; f_equal; lia. }
  rewrite (G 0 H). by destruct (zlen l =? 0).
Qed.

(** The next sequence of a run is the number of its events. *)
Lemma next_sequence_length db rid : db_ok db →
  match max_sequence (run_events rid db) with Some m => m + 1 | None => 0 end = zlen (run_events rid db).
Proof.
  intros K. destruct (ok_events _ K rid) as [H _]. rewrite (max_sequence_contiguous _ H).
  assert (0 <= zlen (run_events rid db)) by (unfold zlen; lia).
  destruct (_ =? 0) eqn:E; breflect; lia.
Qed.

Lemma contiguous_snoc l e : contiguous l → er_sequence e = zlen l → zlen l < EVENT_COUNT_MAX →
  contiguous (l ++ [e]).
Proof.
  intros [H _] E L. split; rewrite zlen_app; change (zlen [e]) with 1; [|lia].
  rewrite map_app, H. cbn. rewrite E, (seqZ_app 0 (zlen l) 1) by (unfold zlen; lia).
  by f_equal.
Qed.

Lemma insert_event_evolves db e db' : db_ok db → insert_event_row db e = Ok db' →
  er_sequence e = zlen (run_events (er_run e) db) → er_sequence e < EVENT_COUNT_MAX →
  evolves db db' ∧ db' = with_events db (db_events db ++ [e]).
Proof.
  intros K H S L. unfold insert_event_row in H. inv_ok. split; [|done]. split.
  - destruct K as [K1 K2 K3 K4]. split; [done..|]. intros rid. rewrite run_events_snoc.
    case_bool_decide as E; [subst rid|by rewrite app_nil_r].
    apply contiguous_snoc; [done|done|]. lia.
  - done.
  - eauto.
  - intros rid. rewrite run_events_snoc. eauto.
Qed.

Lemma insert_event_ok db rid n text r : db_ok db → find_run db rid = Some r →
  n = zlen (run_events rid db) →
  insert_event_row db {| er_run := rid; er_sequence := n; er_json := text |}
  = Ok (with_events db (db_events db ++ [{| er_run := rid; er_sequence := n; er_json := text |}])).
Proof.
  intros K F ->. unfold insert_event_row. cbn [er_run er_sequence].
  assert (0 <= zlen (run_events rid db)) by (unfold zlen; lia).
  rewrite (proj2 (Z.leb_le _ _)) by done.
  replace (existsb (has_id rid) (db_runs db)) with true.
  2: { symmetry. apply existsb_exists. unfold find_run in F. apply find_some in F as [? ?]. eauto. }
  replace (existsb _ (db_events db)) with false; [done|]. symmetry.
  destruct (existsb _ (db_events db)) eqn:X; [exfalso|done].
  apply existsb_exists in X as (e & Hin & He). breflect.
  destruct (ok_events _ K rid) as [C _].
  assert (M : er_sequence e ∈ map er_sequence (run_events rid db)).
  { apply list_elem_of_fmap_2. apply list_elem_of_In, filter_In. split; [done|].
    by rewrite bool_decide_true. }
  rewrite C in M. apply elem_of_seqZ in M. lia.
Qed.

(** ** Operations evolve the database *)

(** What the other writers may do in between. *)
Definition tame (others : prompt_db → prompt_db) : Prop := ∀ db, db_ok db → evolves db (others db).

Definition op_evolves {A} (m : st prompt_db A) : Prop :=
  ∀ db db' r, db_ok db → m db = (db', r) → evolves db db'.

Lemma create_run_evolves rid session key g others : tame others →
  op_evolves (create_run rid session key g others).
Proof.
  intros T db db' r K H. unfold create_run in H.
  destruct (List.find _ (db_runs db)); [simplify_eq; by apply evolves_refl|].
  destruct (negb _); [simplify_eq; by apply evolves_refl|].
  pose proof (T db K) as E. destruct (List.find _ (db_runs (others db))); [by simplify_eq|].
  destruct (g (others db)); [|by simplify_eq].
  destruct (insert_run _ _) eqn:I; [|by simplify_eq]. simplify_eq.
  eapply evolves_trans; [exact E|]. eapply insert_run_evolves, I. apply E.
Qed.

Lemma request_stop_evolves session rid others : tame others → op_evolves (request_stop session rid others).
Proof.
  intros T db db' r K H. unfold request_stop in H.
  destruct (List.find _ (db_runs db)) as [row|]; [|simplify_eq; by apply evolves_refl].
  destruct (row_to_run row) as [run|]; [|simplify_eq; by apply evolves_refl].
  destruct (is_terminal _); [simplify_eq; by apply evolves_refl|].
  destruct (bool_decide _); [simplify_eq; by apply evolves_refl|].
  pose proof (T db K) as E.
  set (allowed := fun x => bool_decide (x = Starting) || bool_decide (x = Running)) in H.
  pose proof (update_runs_evolves (others db) rid allowed Stopping (ev_ok _ _ E)) as U.
  destruct (update_runs (others db) rid allowed Stopping) as [db1 n]. cbn in U.
  destruct (n =? 1); simplify_eq; [|done]. eapply evolves_trans; [exact E|]. apply U.
  by intros [].
Qed.

Lemma update_status_evolves rid target expected others : tame others →
  (∀ x, expected x = true → is_active x = true) → op_evolves (update_status rid target expected others).
Proof.
  intros T X db db' r K H. unfold update_status in H.
  destruct (match find_run db rid with Some _ => _ | None => _ end); [simplify_eq; by apply evolves_refl|].
  destruct (_ && _); [simplify_eq; by apply evolves_refl|].
  pose proof (T db K) as E.
  pose proof (update_runs_evolves (others db) rid expected target (ev_ok _ _ E) X) as U.
  destruct (update_runs _ _ _ _) as [db1 n]. simplify_eq. by eapply evolves_trans.
Qed.

Lemma update_terminal_evolves rid target others : tame others → op_evolves (update_terminal rid target others).
Proof.
  intros T db db' r K H. unfold update_terminal in H.
  destruct (find_run db rid) as [row|]; [|simplify_eq; by apply evolves_refl].
  destruct (is_terminal _); [simplify_eq; by apply evolves_refl|].
  pose proof (T db K) as E. set (eff := if bool_decide _ then _ else _) in H.
  pose proof (update_runs_evolves (others db) rid is_active eff (ev_ok _ _ E) ltac:(done)) as U.
  destruct (update_runs _ _ _ _) as [db1 n]. cbn in U.
  destruct (negb _); simplify_eq; [done|].
  eapply evolves_trans; [exact E|]. eapply evolves_trans; [exact U|]. apply idle_session_evolves, U.
Qed.

Lemma recover_row_evolves reset db row db' p : db_ok db → recover_row reset db row = Ok (db', p) →
  evolves db db'.
Proof.
  intros K H. unfold recover_row in H. apply bind_error_ok in H as ([db1 st] & H1 & H).
  assert (E : evolves db db1).
  { destruct (derive_terminal_status_from_events db (run_id row)).
    { injection H1 as <- _. by apply evolves_refl. }
    rewrite (next_sequence_length db (run_id row) K) in H1.
    apply bind_error_ok in H1 as (db2 & H2 & H1). injection H1 as <- _.
    destruct (_ <? EVENT_COUNT_MAX) eqn:L; [|injection H2 as <-; by apply evolves_refl]. breflect.
    by apply insert_event_evolves in H2 as [? _]. }
  injection H as <- _. cbn [fst snd]. eapply evolves_trans; [exact E|].
  pose proof (idle_session_evolves db1 (run_session row) (run_id row) reset (ev_ok _ _ E)) as E2.
  eapply evolves_trans; [exact E2|]. apply update_runs_evolves; [apply E2|done].
Qed.

Lemma recover_rows_evolves reset rows : ∀ db db' l, db_ok db → recover_rows reset db rows = Ok (db', l) →
  evolves db db'.
Proof.
  induction rows as [|row rows IH]; intros db db' l K H; cbn in H.
  - injection H as <- _. by apply evolves_refl.
  - apply bind_error_ok in H as ([db1 p] & H1 & H). apply bind_error_ok in H as ([db2 ps] & H2 & H).
    injection H as <- _. pose proof (recover_row_evolves _ _ _ _ _ K H1) as E.
    eapply evolves_trans; [exact E|]. eapply IH, H2. apply E.
Qed.

Lemma recover_evolves reset : op_evolves (recover_prompt_database reset).
Proof.
  intros db db' r K H. unfold recover_prompt_database in H.
  destruct (recover_rows _ _ _) as [[db1 l]|] eqn:R; simplify_eq; [|by apply evolves_refl].
  by eapply recover_rows_evolves.
Qed.

(** *** Retries *)

Lemma run_attempts_plain {A} (op : st prompt_db A) fs e : op_evolves op →
  ∀ db db' r, db_ok db → run_attempts (plain op) fs e tt db = (db', r) → evolves db db'.
Proof.
  intros O. induction fs as [|f fs IH]; intros db db' r K H; cbn [run_attempts] in H;
    destruct (op db) as [db1 r1] eqn:E;
    (assert (P : plain op tt db = (db1, (tt, r1))) by (unfold plain; by rewrite E));
    pose proof (O _ _ _ K E) as E1.
  - rewrite P in H. destruct e; simplify_eq; [done|by apply evolves_refl..].
  - destruct f; [exact (IH _ _ _ K H)|rewrite P in H; destruct r1; [exact (IH _ _ _ K H)|by simplify_eq]|].
    rewrite P in H. destruct r1; [|by simplify_eq]. eapply evolves_trans; [exact E1|].
    exact (IH _ _ _ (ev_ok _ _ E1) H).
Qed.

(** The rows of one append: the table before, and after its event. *)
Definition appended (rid text : pystr) (db : prompt_db) : prompt_db :=
  with_events db (db_events db ++ [{| er_run := rid; er_sequence := zlen (run_events rid db); er_json := text |}]).

(** The memory of [append] between two attempts: nothing was read, or the
    next sequence of the original table. *)
Definition append_memory (rid : pystr) (db0 : prompt_db) (m : option Z) : Prop :=
  m = None ∨ m = Some (zlen (run_events rid db0)).

Lemma appended_evolves rid text db r : db_ok db → find_run db rid = Some r →
  zlen (run_events rid db) < EVENT_COUNT_MAX → evolves db (appended rid text db).
Proof.
  intros K F L. destruct (insert_event_evolves db
    {| er_run := rid; er_sequence := zlen (run_events rid db); er_json := text |} (appended rid text db) K)
    as [E _]; [by eapply insert_event_ok|done|done|done].
Qed.

Lemma find_sequence_none db rid : db_ok db →
  List.find (fun e => er_sequence e =? zlen (run_events rid db)) (run_events rid db) = None.
Proof.
  intros K. destruct (List.find _ _) as [e|] eqn:F; [exfalso|done].
  apply find_some in F as [Hin S]. breflect. destruct (ok_events _ K rid) as [C _].
  assert (M : er_sequence e ∈ map er_sequence (run_events rid db))
    by (by apply list_elem_of_fmap_2, list_elem_of_In).
  rewrite C in M. apply elem_of_seqZ in M. lia.
Qed.

(** One attempt on the original table. *)
Lemma append_first rid text ut dd db m db' m' r : db_ok db → append_memory rid db m →
  append rid text ut dd m db = (db', (m', r)) →
  append_memory rid db m' ∧
  (db' = db ∨ (db' = appended rid text db ∧ evolves db db' ∧ m' = Some (zlen (run_events rid db))
               ∧ r = Ok tt)).
Proof.
  intros K M H. unfold append in H. destruct (find_run db rid) as [run|] eqn:F; [|simplify_eq; by auto].
  destruct (ut && _); [simplify_eq; by auto|]. destruct (dd && _); [simplify_eq; by auto|].
  rewrite (next_sequence_length db rid K) in H.
  assert (S : match m with Some n => n | None => zlen (run_events rid db) end = zlen (run_events rid db))
    by (by destruct M as [-> | ->]). rewrite S in H.
  assert (M' : append_memory rid db (Some (zlen (run_events rid db)))) by by right.
  destruct (EVENT_COUNT_MAX <=? _) eqn:L; [simplify_eq; by auto|]. breflect.
  rewrite (find_sequence_none db rid K) in H.
  rewrite (insert_event_ok db rid _ text run K F eq_refl) in H. simplify_eq. split; [done|right].
  split_and!; [done| |done|done]. by eapply appended_evolves.
Qed.

Lemma run_events_appended rid text db :
  run_events rid (appended rid text db)
  = run_events rid db ++ [{| er_run := rid; er_sequence := zlen (run_events rid db); er_json := text |}].
Proof. unfold appended. rewrite run_events_snoc. cbn. by rewrite bool_decide_true. Qed.

(** Further attempts after a commit that was reported as failed. *)
Lemma append_again rid text ut dd db m' r db' : db_ok db →
  append rid text ut dd (Some (zlen (run_events rid db))) (appended rid text db) = (db', (m', r)) →
  db' = appended rid text db ∧ m' = Some (zlen (run_events rid db)).
Proof.
  intros K H. unfold append in H. destruct (find_run _ rid) as [run|]; [|by simplify_eq].
  destruct (ut && _); [by simplify_eq|]. destruct (dd && _); [by simplify_eq|].
  destruct (EVENT_COUNT_MAX <=? _); [by simplify_eq|].
  rewrite run_events_appended in H.
  assert (F : List.find (fun e => er_sequence e =? zlen (run_events rid db))
    (run_events rid db ++ [{| er_run := rid; er_sequence := zlen (run_events rid db); er_json := text |}])
    = Some {| er_run := rid; er_sequence := zlen (run_events rid db); er_json := text |}).
  { pose proof (find_sequence_none db rid K) as N. generalize dependent (run_events rid db).
    intros l _. set (n := zlen l). intros N. clearbody n. induction l as [|x l IH]; cbn in *; [by rewrite Z.eqb_refl|].
    destruct (er_sequence x =? n); [done|by apply IH]. }
  rewrite F in H. cbn in H. rewrite bool_decide_true in H by done. by simplify_eq.
Qed.

(** The append happens at most once, whatever the failures. *)
Lemma run_attempts_append rid text ut dd fs e : ∀ db m db' r, db_ok db → append_memory rid db m →
  run_attempts (append rid text ut dd) fs e m db = (db', r) →
  db' = db ∨ (db' = appended rid text db ∧ evolves db db').
Proof.
  assert (Again : ∀ fs db db' r, db_ok db →
    run_attempts (append rid text ut dd) fs e (Some (zlen (run_events rid db))) (appended rid text db)
    = (db', r) → db' = appended rid text db).
  { clear fs. induction fs as [|f fs IH]; intros db db' r K H; cbn [run_attempts] in H.
    - destruct e; [|by simplify_eq..]. destruct (append _ _ _ _ _ _) as [db1 [m1 r1]] eqn:E. simplify_eq.
      by apply append_again in E as [-> _].
    - destruct f; [by eapply IH| |];
        destruct (append _ _ _ _ _ _) as [db1 [m1 [a|x]]] eqn:E; apply append_again in E as [-> ->]; try done;
        try (by simplify_eq); by eapply IH. }
  induction fs as [|f fs IH]; intros db m db' r K M H; cbn [run_attempts] in H.
  - destruct e; [|simplify_eq; by left..]. destruct (append _ _ _ _ _ _) as [db1 [m1 r1]] eqn:E. simplify_eq.
    apply append_first in E as [_ [->|(-> & E & _)]]; auto.
  - destruct f; [by eapply IH| |];
      destruct (append _ _ _ _ _ _) as [db1 [m1 [a|x]]] eqn:E; apply append_first in E as [M1 E]; try done.
    + by eapply IH.
    + simplify_eq. destruct E as [->|(-> & E & _)]; auto.
    + destruct E as [->|(-> & E & -> & _)]; [by eapply IH|]. apply Again in H; [|done]. subst. by right.
    + simplify_eq. destruct E as [->|(-> & E & _)]; auto.
Qed.

(** ** The service evolves its database *)

Definition calm {A} (m : st jstate A) : Prop :=
  ∀ s s' r, db_ok (js_db s) → m s = (s', r) → evolves (js_db s) (js_db s').

Lemma calm_local {A} (m : st jstate A) : (∀ s, js_db (m s).1 = js_db s) → calm m.
Proof.
  intros H s s' r K E. specialize (H s). rewrite E in H. cbn in H. rewrite H. by apply evolves_refl.
Qed.

Lemma calm_bind {A B} (m : st jstate A) (k : A → st jstate B) :
  calm m → (∀ a, calm (k a)) → calm (st_bind m k).
Proof.
  intros Hm Hk s s' r K H. unfold st_bind in H. destruct (m s) as [s1 [a|e]] eqn:E.
  - pose proof (Hm _ _ _ K E) as E1. eapply evolves_trans; [exact E1|]. eapply Hk, H. apply E1.
  - simplify_eq. by eapply Hm.
Qed.

Lemma calm_lift {A} (x : res A) : calm (st_lift x).
Proof. by apply calm_local. Qed.
Lemma calm_ret {A} (a : A) : calm (st_ret a).
Proof. by apply calm_local. Qed.
#[local] Hint Resolve calm_lift calm_ret : yinshi.

Lemma calm_plain {A} (op : st prompt_db A) : op_evolves op → calm (db_step (plain op) tt).
Proof.
  intros O s s' r K H. unfold db_step, run_db_operation in H.
  destruct (run_attempts _ _ _ _ _) as [db' r'] eqn:E. simplify_eq. cbn.
  by eapply run_attempts_plain.
Qed.

Lemma calm_query {A} (q : prompt_db → res A) : calm (db_query q).
Proof. apply calm_plain. intros db db' r K H. simplify_eq. by apply evolves_refl. Qed.

Lemma calm_append rid text ut dd : calm (db_step (append rid text ut dd) None).
Proof.
  intros s s' r K H. unfold db_step, run_db_operation in H.
  destruct (run_attempts _ _ _ _ _) as [db' r'] eqn:E. simplify_eq. cbn.
  apply run_attempts_append in E as [->|[-> E]]; [by apply evolves_refl|done|done|by left].
Qed.

Lemma calm_set_terminal_status rid target others : tame others → calm (set_terminal_status rid target others).
Proof.
  intros T. unfold set_terminal_status. destruct (is_active target); [apply calm_lift|].
  apply calm_bind; [by apply calm_plain, update_terminal_evolves|]. intros x. by apply calm_local.
Qed.

Lemma calm_persist_attempts n rid target others : tame others → calm (persist_attempts n rid target others).
Proof.
  intros T. induction n as [|n IH]; intros s s' r K H; cbn [persist_attempts] in H.
  - simplify_eq. by apply evolves_refl.
  - destruct (set_terminal_status _ _ _ s) as [s1 [a|e]] eqn:E;
      pose proof (calm_set_terminal_status _ _ _ T _ _ _ K E) as E1; [by simplify_eq|].
    destruct (_ || _); [by simplify_eq|]. eapply evolves_trans; [exact E1|]. eapply IH, H. apply E1.
Qed.

Lemma calm_persist rid target others : tame others → calm (persist_terminal_status rid target others).
Proof. apply calm_persist_attempts. Qed.

Lemma calm_reconcile_pending rid others : tame others → calm (reconcile_pending rid others).
Proof.
  intros T s s' r K H. unfold reconcile_pending in H.
  destruct (pending_of rid s) as [target|]; [|simplify_eq; by apply evolves_refl].
  revert s s' r K H. apply calm_bind; [by apply calm_persist|]. intros []. apply calm_local.
  intros s. cbn. by destruct (bool_decide _).
Qed.

Lemma calm_for_each {A} (f : A → st jstate unit) l : (∀ a, calm (f a)) → calm (for_each f l).
Proof. intros H. induction l as [|a l IH]; [apply calm_ret|]. apply calm_bind; [apply H|]. by intros []. Qed.

Lemma calm_reconcile_all others : tame others → calm (reconcile_all others).
Proof.
  intros T s s' r. unfold reconcile_all. apply (calm_for_each _ (map fst (js_pending s))).
  intros rid. by apply calm_reconcile_pending.
Qed.

Lemma calm_recover_database others : tame others → calm (recover_database others).
Proof.
  intros T s s' r K H. unfold recover_database in H.
  destruct (js_recovered s); [simplify_eq; by apply evolves_refl|]. revert s s' r K H.
  apply calm_bind; [apply calm_plain, recover_evolves|]. intros l.
  apply calm_bind; [by apply calm_local|]. intros []. apply calm_for_each. intros x.
  by apply calm_set_terminal_status.
Qed.

Lemma calm_start rid session key g others : tame others → calm (start rid session key g others).
Proof.
  intros T. unfold start. repeat (apply calm_bind; [first
    [apply calm_lift|by apply calm_recover_database|by apply calm_reconcile_all|by apply calm_local]|intros []]).
  unfold start_serialized. apply calm_bind; [by apply calm_plain, create_run_evolves|]. intros [run c].
  apply calm_local. intros s. destruct (c || _); [|done]. by destruct (bool_decide _).
Qed.

Lemma calm_active session others : tame others → calm (active session others).
Proof.
  intros T. unfold active. repeat (apply calm_bind; [first
    [apply calm_lift|by apply calm_recover_database|by apply calm_reconcile_all]|intros []]).
  apply calm_query.
Qed.

Lemma calm_events session rid n others : tame others → calm (events session rid n others).
Proof.
  intros T. unfold events. repeat (apply calm_bind; [first
    [apply calm_lift|by apply calm_recover_database|by apply calm_reconcile_pending]|intros []]).
  apply calm_query.
Qed.

Lemma calm_append_event rid event ut dd : calm (append_event rid event ut dd).
Proof.
  unfold append_event. destruct event; try apply calm_lift.
  destruct (dict_get _ l) as [[]|]; try apply calm_lift.
  apply calm_bind; [apply calm_lift|]. intros []. apply calm_append.
Qed.

Lemma calm_append_safely rid event : calm (append_terminal_event_safely rid event).
Proof.
  intros s s' r K H. unfold append_terminal_event_safely in H.
  destruct (append_event _ _ _ _ s) as [s1 [a|e]] eqn:E;
    pose proof (calm_append_event _ _ _ _ _ _ _ K E) as E1; [by simplify_eq|].
  destruct (caught _ _); by simplify_eq.
Qed.

Lemma consume_events_evolves rid src : ∀ final s s' f' r, db_ok (js_db s) →
  consume_events rid src final s = (s', f', r) → evolves (js_db s) (js_db s').
Proof.
  induction src as [|[event|e] src IH]; intros final s s' f' r K H; cbn [consume_events] in H.
  - simplify_eq. by apply evolves_refl.
  - destruct (append_event _ _ _ _ s) as [s1 [a|e]] eqn:E;
      pose proof (calm_append_event _ _ _ _ _ _ _ K E) as E1; [|by simplify_eq].
    eapply evolves_trans; [exact E1|]. eapply IH, H. apply E1.
  - simplify_eq. by apply evolves_refl.
Qed.

Lemma consume_body_evolves rid src others s s' f' r : tame others → db_ok (js_db s) →
  consume_body rid src others s = (s', f', r) → evolves (js_db s) (js_db s').
Proof.
  intros T K H. unfold consume_body in H. destruct (db_step _ _ s) as [s1 x] eqn:E.
  assert (E1 : evolves (js_db s) (js_db s1)).
  { eapply calm_plain, E; [|done]. apply update_status_evolves; [done|by intros []]. }
  destruct x; [|by simplify_eq]. eapply evolves_trans; [exact E1|].
  eapply consume_events_evolves, H. apply E1.
Qed.

Lemma consume_outcome_evolves rid final r s s' f' r' : db_ok (js_db s) →
  consume_outcome rid final r s = (s', f', r') → evolves (js_db s) (js_db s').
Proof.
  intros K H. unfold consume_outcome in H. destruct r as [a|e]; [simplify_eq; by apply evolves_refl|].
  destruct (caught e [PromptRunStoppingError]); [simplify_eq; by apply evolves_refl|].
  destruct (caught e [CancelledError]).
  - destruct (if js_closing s then _ else _) as [st ev].
    destruct (append_terminal_event_safely rid ev s) as [s1 r1] eqn:E. simplify_eq.
    by eapply calm_append_safely.
  - destruct (append_terminal_event_safely rid FAILED_EVENT s) as [s1 r1] eqn:E. simplify_eq.
    by eapply calm_append_safely.
Qed.

Lemma calm_consume rid src others : tame others → calm (consume rid src others).
Proof.
  intros T s s' r K H. unfold consume in H.
  destruct (consume_body rid src others s) as [[s1 f1] r1] eqn:E1.
  pose proof (consume_body_evolves _ _ _ _ _ _ _ T K E1) as V1.
  destruct (consume_outcome rid f1 r1 s1) as [[s2 f2] r2] eqn:E2.
  pose proof (consume_outcome_evolves _ _ _ _ _ _ _ (ev_ok _ _ V1) E2) as V2.
  destruct (persist_terminal_status rid f2 others s2) as [s3 p] eqn:E3.
  pose proof (calm_persist _ _ _ T _ _ _ (ev_ok _ _ V2) E3) as V3.
  assert (V : evolves (js_db s) (js_db s3)) by eauto using evolves_trans.
  destruct p as [[]|e]; [by simplify_eq|]. destruct (caught e [CancelledError]); unfold remember_pending in H; by simplify_eq/=.
Qed.

(** Another task of the service. *)
Definition tame_task (f : jstate → jstate) : Prop :=
  ∀ s, db_ok (js_db s) → evolves (js_db s) (js_db (f s)).

Lemma calm_cancel session rid c task others : tame others → calm task →
  calm (cancel session rid c task others).
Proof.
  intros T TT. unfold cancel. repeat (apply calm_bind; [first
    [apply calm_lift|by apply calm_recover_database|by apply calm_reconcile_pending]|intros []]).
  apply calm_bind; [by apply calm_plain, request_stop_evolves|]. intros [run sc]. cbn [fst snd].
  destruct (negb sc); [apply calm_ret|]. apply calm_bind; [apply calm_lift|]. intros outcome.
  apply calm_bind; [|intros []; apply calm_query].
  destruct outcome; [apply calm_ret..|]. apply calm_bind.
  - intros s s' r K H. destruct (bool_decide _); [|simplify_eq; by apply evolves_refl].
    destruct (task s) as [s1 [a|e]] eqn:E; [|destruct (caught _ _)]; simplify_eq; by eapply TT.
  - intros []. apply calm_bind; [apply calm_append_event|]. intros []. by apply calm_set_terminal_status.
Qed.

Lemma calm_close cleanups : (∀ rid, tame_task (cleanups rid)) → calm (close cleanups).
Proof.
  intros T s s' r K H. unfold close in H. simplify_eq. cbn.
  match goal with |- evolves _ (js_db (fold_left _ _ ?x)) => set (s1 := x) end.
  change (js_db s) with (js_db s1). assert (K1 : db_ok (js_db s1)) by done. clearbody s1. clear K.
  generalize (js_tasks s). intros l. revert s1 K1.
  induction l as [|rid l IH]; intros s1 K1; cbn; [by apply evolves_refl|].
  pose proof (T rid s1 K1) as E. eapply evolves_trans; [exact E|]. apply IH, E.
Qed.

(** Any sequence of the service's operations. *)
Inductive jsteps : jstate → jstate → Prop :=
  | jsteps_refl s : jsteps s s
  | jsteps_start rid session key g others s s1 s2 r : jsteps s s1 → tame others →
      start rid session key g others s1 = (s2, r) → jsteps s s2
  | jsteps_active session others s s1 s2 r : jsteps s s1 → tame others →
      active session others s1 = (s2, r) → jsteps s s2
  | jsteps_events session rid n others s s1 s2 r : jsteps s s1 → tame others →
      events session rid n others s1 = (s2, r) → jsteps s s2
  | jsteps_cancel session rid c task others s s1 s2 r : jsteps s s1 → tame others → calm task →
      cancel session rid c task others s1 = (s2, r) → jsteps s s2
  | jsteps_consume rid src others s s1 s2 r : jsteps s s1 → tame others →
      consume rid src others s1 = (s2, r) → jsteps s s2
  | jsteps_close cleanups s s1 s2 r : jsteps s s1 → (∀ rid, tame_task (cleanups rid)) →
      close cleanups s1 = (s2, r) → jsteps s s2.

Lemma jsteps_evolve s s' : jsteps s s' → db_ok (js_db s) → evolves (js_db s) (js_db s').
Proof.
  intros J K. induction J as [|? ? ? ? ? ? ? ? ? J IH T H|? ? ? ? ? ? J IH T H|? ? ? ? ? ? ? ? J IH T H
    |? ? ? ? ? ? ? ? ? J IH T TT H|? ? ? ? ? ? ? J IH T H|? ? ? ? ? J IH T H];
    [by apply evolves_refl|..]; specialize (IH K); (eapply evolves_trans; [exact IH|]).
  - eapply calm_start; [done|apply IH|exact H].
  - eapply calm_active; [done|apply IH|exact H].
  - eapply calm_events; [done|apply IH|exact H].
  - eapply calm_cancel; [done|done|apply IH|exact H].
  - eapply calm_consume; [done|apply IH|exact H].
  - eapply calm_close; [done|apply IH|exact H].
Qed.

(** ** Pages *)

Lemma order_sorted l a : map er_sequence l = seqZ a (zlen l) → order_by_sequence l = l.
Proof.
  revert a. induction l as [|e l IH]; intros a H; [done|]. rewrite zlen_cons in H.
  rewrite seqZ_cons in H by (unfold zlen; lia). injection H as E H.
  replace (Z.pred (1 + zlen l)) with (zlen l) in H by lia.
  cbn [order_by_sequence fold_right]. fold (order_by_sequence l). rewrite (IH _ H).
  destruct l as [|x l]; [done|]. cbn [insert_by_sequence]. rewrite zlen_cons in H.
  rewrite seqZ_cons in H by (unfold zlen; lia). injection H as E' _.
  by rewrite (proj2 (Z.leb_le _ _)) by lia.
Qed.

Lemma filter_from l a c : map er_sequence l = seqZ a (zlen l) → a <= c →
  List.filter (fun e => c <=? er_sequence e) l = drop (Z.to_nat (c - a)) l.
Proof.
  revert a. induction l as [|e l IH]; intros a H L; [by destruct (Z.to_nat _)|].
  rewrite zlen_cons in H. rewrite seqZ_cons in H by (unfold zlen; lia). injection H as E H.
  replace (Z.pred (1 + zlen l)) with (zlen l) in H by lia. cbn [List.filter]. rewrite E.
  destruct (c <=? a) eqn:C; breflect.
  - replace (Z.to_nat (c - a)) with O by lia. cbn. f_equal.
    assert (G : ∀ b, c <= b → map er_sequence l = seqZ b (zlen l) →
      List.filter (fun e => c <=? er_sequence e) l = l); [|by apply (G (Z.succ a)); [lia|]].
    clear. induction l as [|x l IH]; intros b L H; [done|]. rewrite zlen_cons in H.
    rewrite seqZ_cons in H by (unfold zlen; lia). injection H as E H.
    replace (Z.pred (1 + zlen l)) with (zlen l) in H by lia. cbn. rewrite (proj2 (Z.leb_le _ _)) by lia.
    f_equal. apply (IH (Z.succ b)); [lia|done].
  - rewrite (IH (Z.succ a) H) by lia.
    replace (Z.to_nat (c - a)) with (S (Z.to_nat (c - Z.succ a))) by lia. done.
Qed.

Lemma drop_contiguous l a n : map er_sequence l = seqZ a (zlen l) → (n <= length l)%nat →
  map er_sequence (drop n l) = seqZ (a + Z.of_nat n) (zlen (drop n l)).
Proof.
  revert a l. induction n as [|n IH]; intros a l H L; cbn [drop]; [by rewrite Z.add_0_r|].
  destruct l as [|e l]; [cbn in L; lia|]. rewrite zlen_cons in H.
  rewrite seqZ_cons in H by (unfold zlen; lia). injection H as E H.
  replace (Z.pred (1 + zlen l)) with (zlen l) in H by lia.
  change (drop (S n) (e :: l)) with (drop n l).
  rewrite (IH (Z.succ a) l H) by (cbn in L; lia). f_equal. lia.
Qed.

Lemma take_contiguous l a n : map er_sequence l = seqZ a (zlen l) →
  map er_sequence (take n l) = seqZ a (zlen (take n l)).
Proof.
  revert a l. induction n as [|n IH]; intros a l H; [done|]. destruct l as [|e l]; [done|].
  rewrite zlen_cons in H. rewrite seqZ_cons in H by (unfold zlen; lia). injection H as E H.
  replace (Z.pred (1 + zlen l)) with (zlen l) in H by lia.
  change (take (S n) (e :: l)) with (e :: take n l). rewrite zlen_cons.
  rewrite seqZ_cons by (unfold zlen; lia). cbn [map]. rewrite (IH _ _ H), E.
  f_equal. f_equal. lia.
Qed.

(** The value of a stored event, and when a row can be read back. *)
Definition parsed (e : event_row) : json :=
  match loads_text (er_json e) with Ok v => v | Raise _ => JNull end.
Definition event_size (e : event_row) : Z :=
  match utf8_encode (er_json e) with Ok b => zlen b | Raise _ => 0 end.
Definition readable (e : event_row) : Prop :=
  is_ok (utf8_encode (er_json e)) = true ∧ ∃ l, loads_text (er_json e) = Ok (JObj l).

Definition sum_sizes (l : list event_row) : Z := fold_right (fun e n => event_size e + n) 0 l.

(** One page is a prefix of the rows; it is not empty unless there are none,
    and within the byte limit unless it is one event. *)
Lemma page_loop_spec rows : ∀ cursor bytes first,
  map er_sequence rows = seqZ cursor (zlen rows) → Forall readable rows → 0 <= bytes →
  ∃ k, page_loop rows cursor bytes first = Ok (map parsed (take k rows), cursor + Z.of_nat k)
    ∧ (k <= length rows)%nat
    ∧ (first = true → rows ≠ [] → k ≠ 0%nat)
    ∧ (bytes + sum_sizes (take k rows) <= EVENT_BATCH_BYTES_MAX ∨ k = 0%nat ∨ (first = true ∧ k = 1%nat)).
Proof.
  induction rows as [|e rows IH]; intros cursor bytes first H R B.
  { exists O. cbn. split_and!; [by rewrite Z.add_0_r|lia|done|auto]. }
  rewrite zlen_cons in H. rewrite seqZ_cons in H by (unfold zlen; lia). injection H as E H.
  replace (Z.pred (1 + zlen rows)) with (zlen rows) in H by lia.
  inversion R as [|x l [Hu (fields & Hl)] R']; subst x l.
  cbn [page_loop]. rewrite (proj2 (Z.eqb_eq _ _)) by done. cbn [guard res_bind].
  destruct (utf8_encode (er_json e)) as [b|] eqn:U; [|done]. cbn [res_bind].
  assert (Sz : event_size e = zlen b) by (unfold event_size; by rewrite U).
  assert (0 <= zlen b) by (unfold zlen; lia).
  destruct (negb first && (EVENT_BATCH_BYTES_MAX <? bytes + zlen b)) eqn:F.
  { exists O. cbn. apply andb_true_iff in F as [F _]. breflect.
    split_and!; [by rewrite Z.add_0_r|lia|by subst|auto]. }
  rewrite Hl. cbn [res_bind].
  destruct (IH (cursor + 1) (bytes + zlen b) false H R') as (k & Hk & Hle & _ & Hb); [lia|].
  rewrite Hk. cbn [res_bind fst snd]. exists (S k). split_and!.
  - cbn [take map]. f_equal. f_equal; [|lia]. f_equal. unfold parsed. by rewrite Hl.
  - cbn. lia.
  - done.
  - cbn [take sum_sizes fold_right]. fold (sum_sizes (take k rows)). rewrite Sz.
    destruct Hb as [Hb|[->|[? _]]]; [left; lia| |done].
    destruct first; [by auto|]. cbn [negb andb] in F. breflect. left. change (sum_sizes (take 0 rows)) with 0. lia.
Qed.

Lemma read_events_spec db session rid c r : db_ok db →
  find_run db rid = Some r → run_session r = session → Forall readable (run_events rid db) →
  0 <= c <= zlen (run_events rid db) →
  ∃ k, read_events session rid c db
       = Ok {| pb_run := rid; pb_status := run_status r;
               pb_events := map parsed (take k (drop (Z.to_nat c) (run_events rid db)));
               pb_next := c + Z.of_nat k |}
    ∧ Z.of_nat k <= EVENT_BATCH_MAX ∧ c + Z.of_nat k <= zlen (run_events rid db)
    ∧ (c < zlen (run_events rid db) → 0 < Z.of_nat k)
    ∧ (sum_sizes (take k (drop (Z.to_nat c) (run_events rid db))) <= EVENT_BATCH_BYTES_MAX
       ∨ (k <= 1)%nat).
Proof.
  intros K F S R C. unfold read_events.
  assert (List.find (λ r, has_id rid r && bool_decide (run_session r = session)) (db_runs db) = Some r) as ->.
  { destruct (find_run_in _ _ _ F) as [Hin Hid].
    destruct (List.find _ (db_runs db)) as [r'|] eqn:Fd.
    - apply find_some in Fd as [Hin' Hb]. unfold has_id in Hb. breflect.
      rewrite <- list_elem_of_In in Hin'. pose proof (find_run_unique _ _ _ K Hin' H). congruence.
    - pose proof (find_none _ _ Fd r (proj1 (list_elem_of_In _ _) Hin)) as N. cbn in N.
      unfold has_id in N. by rewrite !bool_decide_true in N. }
  set (l := run_events rid db) in *. destruct (ok_events _ K rid) as [Cn _]. fold l in Cn.
  rewrite (filter_from l 0 c Cn) by lia. rewrite Z.sub_0_r.
  assert (Hd : (Z.to_nat c <= length l)%nat) by (unfold zlen in C; lia).
  pose proof (drop_contiguous l 0 (Z.to_nat c) Cn Hd) as Dn. rewrite (order_sorted _ _ Dn).
  set (rows := drop (Z.to_nat c) l) in *. set (m := Z.to_nat EVENT_BATCH_MAX).
  assert (Tn : map er_sequence (take m rows) = seqZ c (zlen (take m rows))).
  { apply take_contiguous. rewrite Z.add_0_l, Z2Nat.id in Dn by lia. done. }
  destruct (page_loop_spec (take m rows) c 0 true Tn) as (k & -> & Hk & Hne & Hb); [|lia|].
  { apply Forall_take, Forall_drop, R. }
  exists k. cbn [res_bind fst snd]. rewrite length_take in Hk.
  assert (Hm : (length rows = length l - Z.to_nat c)%nat) by apply length_drop.
  replace (take k (take m rows)) with (take k rows) in * by (rewrite take_take; f_equal; lia).
  unfold zlen in *. split_and!; [done|unfold m, EVENT_BATCH_MAX in *; lia|lia| |].
  - intros L. specialize (Hne eq_refl). destruct k; [|lia]. exfalso. apply Hne; [|done].
    destruct rows; [cbn in Hm; lia|]. done.
  - rewrite Z.add_0_l in Hb. destruct Hb as [Hb|[->|[_ ->]]]; [by left|right; lia..].
Qed.

(** A reader that follows the cursor from page to page. *)
Fixpoint follow_pages (fuel : nat) (session rid : pystr) (cursor : Z) (db : prompt_db) : res (list json) :=
  match fuel with
  | O => Ok []
  | S k =>
      let! b := read_events session rid cursor db in
      let! rest := follow_pages k session rid (pb_next b) db in
      Ok (pb_events b ++ rest)
  end.

Lemma follow_pages_spec db session rid r : db_ok db → find_run db rid = Some r →
  run_session r = session → Forall readable (run_events rid db) →
  ∀ fuel c, 0 <= c <= zlen (run_events rid db) → zlen (run_events rid db) - c <= Z.of_nat fuel →
  follow_pages fuel session rid c db = Ok (map parsed (drop (Z.to_nat c) (run_events rid db))).
Proof.
  intros K F S R. induction fuel as [|fuel IH]; intros c C L; cbn [follow_pages].
  { rewrite drop_ge by (unfold zlen in *; lia). done. }
  destruct (read_events_spec db session rid c r K F S R C) as (k & -> & _ & Hle & Hpos & _).
  cbn [res_bind pb_next pb_events]. rewrite IH by lia. cbn [res_bind]. f_equal.
  rewrite <- map_app. f_equal. replace (Z.to_nat (c + Z.of_nat k)) with (Z.to_nat c + k)%nat by lia.
  by rewrite <- drop_drop, take_drop.
Qed.

(** ** Starts *)

Lemma find_key_in db session key r : List.find (has_key session key) (db_runs db) = Some r →
  r ∈ db_runs db ∧ run_name r = (session, key).
Proof.
  intros [Hin H]%find_some. unfold has_key in H. breflect. rewrite list_elem_of_In.
  unfold run_name. by subst.
Qed.

Lemma find_key_unique db r : db_ok db → r ∈ db_runs db →
  List.find (has_key (run_session r) (run_key r)) (db_runs db) = Some r.
Proof.
  intros K Hin. apply ok_keys in K. induction (db_runs db) as [|x l IH]; [by inversion Hin|].
  cbn in *. apply NoDup_cons in K as [N K]. destruct (has_key _ _ x) eqn:E.
  - unfold has_key in E. breflect. apply elem_of_cons in Hin as [->|Hin]; [done|]. exfalso. apply N.
    replace (run_name x) with (run_name r) by (unfold run_name; congruence).
    by apply list_elem_of_fmap_2.
  - apply elem_of_cons in Hin as [->|Hin]; [|by apply IH]. unfold has_key in E.
    by rewrite !bool_decide_true in E.
Qed.

(** A start that returns leaves the row of the run it returns. *)
Lemma create_run_row rid session key g others db db' run c : tame others → db_ok db →
  zlen rid = RESOURCE_ID_LENGTH →
  create_run rid session key g others db = (db', Ok (run, c)) →
  ∃ r, r ∈ db_runs db' ∧ run_name r = (session, key) ∧ run_id r = pr_id run
       ∧ zlen (run_id r) = RESOURCE_ID_LENGTH.
Proof.
  intros T K Hr H. unfold create_run in H.
  assert (Ex : ∀ db0 r, List.find (has_key session key) (db_runs db0) = Some r →
    (let! run := row_to_run r in Ok (run, bool_decide (pr_id run = rid))) = Ok (run, c) →
    ∃ r, r ∈ db_runs db0 ∧ run_name r = (session, key) ∧ run_id r = pr_id run
       ∧ zlen (run_id r) = RESOURCE_ID_LENGTH).
  { intros db0 r F E. apply find_key_in in F as [Hin Hn]. unfold row_to_run in E.
    apply bind_error_ok in E as (x & E & E'). apply bind_error_ok in E as ([] & G & E).
    injection E as <-. injection E' as <- _. exists r. split_and!; [done|done|done|].
    destruct (_ =? _) eqn:Z; [by breflect|done]. }
  destruct (List.find _ (db_runs db)) as [r|] eqn:F1; [simplify_eq; by eapply Ex|].
  destruct (negb _); [done|].
  destruct (List.find _ (db_runs (others db))) as [r|] eqn:F2; [simplify_eq; by eapply Ex|].
  destruct (g (others db)); [|done]. destruct (insert_run _ _) as [db1|] eqn:I.
  - simplify_eq. unfold insert_run in I. inv_ok. cbn.
    eexists. split; [apply elem_of_app; right; by apply list_elem_of_singleton|done].
  - injection H as <- H. destruct (existsb _ _); done.
Qed.

(** ** Recovery *)

Lemma status_of_updated db rid target : (∃ r, find_run db rid = Some r ∧ is_active (run_status r) = true) →
  status_of (update_runs db rid is_active target).1 rid = Some target.
Proof.
  intros (r & F & A). rewrite update_runs_fst. unfold status_of, find_run in *. cbn.
  rewrite find_map_id by apply updated_id. rewrite F. cbn.
  destruct (find_run_in db rid r F) as [_ Hid]. unfold updated, has_id.
  by rewrite bool_decide_true, A.
Qed.

Lemma find_run_idle db session rid reset x : find_run (idle_session db session rid reset) x = find_run db x.
Proof. unfold idle_session. by destruct (_ || _). Qed.

(** Recovering a row always succeeds and settles its run. *)
Lemma recover_row_total reset db row r : db_ok db → find_run db (run_id row) = Some r →
  ∃ db' p, recover_row reset db row = Ok (db', p)
    ∧ map run_id (db_runs db') = map run_id (db_runs db)
    ∧ pr_id p = run_id row ∧ pr_session p = run_session row ∧ is_terminal (pr_status p) = true
    ∧ (is_active (run_status r) = true → status_of db' (run_id row) = Some (pr_status p)).
Proof.
  intros K F. unfold recover_row.
  set (first := match derive_terminal_status_from_events db (run_id row) with Some _ => _ | None => _ end).
  assert (∃ db1 target, first = Ok (db1, target) ∧ db_runs db1 = db_runs db ∧ is_terminal target = true)
    as (db1 & target & -> & Hruns & Ht).
  { subst first. destruct (derive_terminal_status_from_events db (run_id row)) as [d|] eqn:D.
    - eexists _, _. split_and!; [done|done|]. case_bool_decide; [done|].
      unfold derive_terminal_status_from_events in D. induction (reverse _) as [|e l IH]; [done|].
      cbn in D. destruct (event_final_status (er_json e)) as [x|] eqn:E; [|by apply IH].
      injection D as ->. unfold event_final_status in E. destruct (loads_text _) as [[]|]; try done.
      destruct (dict_get _ l0) as [[]|]; try done. unfold TERMINAL_EVENT_FINAL_STATUSES in E.
      repeat case_bool_decide; by simplify_eq.
    - rewrite (next_sequence_length db (run_id row) K). destruct (_ <? EVENT_COUNT_MAX).
      + rewrite (insert_event_ok db (run_id row) _ _ r K F eq_refl). cbn [res_bind]. by eexists _, _.
      + cbn [res_bind]. by eexists _, _. }
  cbn [res_bind fst snd]. eexists _, _. split_and!; [reflexivity| |done|done|done|].
  - rewrite update_runs_fst. cbn [db_runs with_runs]. rewrite map_map.
    replace (db_runs (idle_session _ _ _ _)) with (db_runs db).
    + apply map_ext. intros x. apply updated_id.
    + rewrite <- Hruns. unfold idle_session. by destruct (_ || _).
  - intros A. cbn [pr_status]. apply status_of_updated. exists r. rewrite find_run_idle.
    split; [|done]. unfold find_run in *. by rewrite Hruns.
Qed.

(** Recovering a row changes no other run. *)
Lemma recover_row_other reset db row db1 p rid : recover_row reset db row = Ok (db1, p) →
  rid ≠ run_id row → find_run db1 rid = find_run db rid.
Proof.
  intros E Ne. unfold recover_row in E. apply bind_error_ok in E as ([db3 t] & E3 & E). injection E as <- _.
  assert (Hruns : db_runs db3 = db_runs db).
  { destruct (derive_terminal_status_from_events db (run_id row)); [by injection E3 as <- _|].
    apply bind_error_ok in E3 as (db4 & E4 & E3). injection E3 as <- _.
    destruct (_ <? EVENT_COUNT_MAX); [|by injection E4 as <-].
    unfold insert_event_row in E4. by inv_ok. }
  unfold find_run. cbn [db_runs with_runs fst snd].
  fold (updated (run_id row) is_active t). rewrite find_map_id by apply updated_id.
  replace (db_runs (idle_session _ _ _ _)) with (db_runs db)
    by (rewrite <- Hruns; unfold idle_session; by destruct (_ || _)).
  destruct (List.find _ (db_runs db)) as [r|] eqn:F; [|done]. cbn.
  destruct (find_run_in db rid r F) as [_ Hid]. unfold updated, has_id.
  by rewrite bool_decide_false by congruence.
Qed.

Lemma recover_rows_total reset rows : ∀ db, db_ok db → NoDup (map run_id rows) →
  (∀ row, row ∈ rows → ∃ r, find_run db (run_id row) = Some r ∧ is_active (run_status r) = true) →
  ∃ db' l, recover_rows reset db rows = Ok (db', l)
    ∧ map run_id (db_runs db') = map run_id (db_runs db)
    ∧ map pr_id l = map run_id rows
    ∧ ∀ p, p ∈ l → is_terminal (pr_status p) = true ∧ status_of db' (pr_id p) = Some (pr_status p).
Proof.
  induction rows as [|row rows IH]; intros db K N H; cbn [recover_rows].
  { eexists _, _. split_and!; [done..|]. intros p Hp. by inversion Hp. }
  destruct (H row (list_elem_of_here _ _)) as (r & F & A).
  destruct (recover_row_total reset db row r K F) as (db1 & p & E & Hid & Hp1 & Hp2 & Hp3 & Hs).
  pose proof (recover_row_evolves _ _ _ _ _ K E) as V. rewrite E. cbn [res_bind fst snd].
  cbn in N. apply NoDup_cons in N as [Nr N].
  destruct (IH db1 (ev_ok _ _ V) N) as (db2 & l & E2 & Hid2 & Hl & Hs2).
  { intros row' Hin. destruct (H row' (list_elem_of_further _ _ _ Hin)) as (r' & F' & A').
    exists r'. rewrite (recover_row_other _ _ _ _ _ _ E); [done|].
    intros Eq. apply Nr. rewrite <- Eq. by apply list_elem_of_fmap_2. }
  rewrite E2. cbn [res_bind fst snd]. eexists _, _. split_and!; [done|congruence|by cbn; f_equal|].
  intros q Hq. apply elem_of_cons in Hq as [->|Hq]; [|by apply Hs2].
  split; [done|]. rewrite Hp1. pose proof (recover_rows_evolves reset rows db1 db2 l (ev_ok _ _ V) E2) as V2.
  apply (ev_terminal _ _ V2); [by apply Hs|done].
Qed.

Lemma filter_active_rows db : db_ok db →
  ∀ row, row ∈ List.filter (fun r => is_active (run_status r)) (db_runs db) →
  ∃ r, find_run db (run_id row) = Some r ∧ is_active (run_status r) = true.
Proof.
  intros K row Hin. rewrite list_elem_of_In, filter_In, <- list_elem_of_In in Hin. destruct Hin as [Hin A].
  exists row. split; [by apply find_run_unique|done].
Qed.

Lemma filter_NoDup_map {A B} (f : A → B) (p : A → bool) l : NoDup (map f l) → NoDup (map f (List.filter p l)).
Proof.
  induction l as [|a l IH]; [done|]. cbn. intros [N H]%NoDup_cons. destruct (p a); [|by apply IH].
  cbn. apply NoDup_cons. split; [|by apply IH]. intros Hin. apply N.
  apply list_elem_of_fmap in Hin as (x & -> & Hx). rewrite list_elem_of_In, filter_In in Hx.
  destruct Hx as [Hx _]. apply list_elem_of_fmap_2. by rewrite list_elem_of_In.
Qed.

(** ** Terminal statuses *)

Lemma update_terminal_settles rid target others db db' x : tame others → db_ok db →
  is_terminal target = true → update_terminal rid target others db = (db', Ok x) →
  status_of db' rid = Some x.2 ∧ is_terminal x.2 = true.
Proof.
  intros T K Ht H. unfold update_terminal in H. destruct (find_run db rid) as [row|] eqn:F; [|done].
  destruct (is_terminal (run_status row)) eqn:Tr.
  { simplify_eq. unfold status_of. by rewrite F. }
  set (eff := if bool_decide _ then _ else _) in H.
  assert (He : is_terminal eff = true) by (unfold eff; by destruct (bool_decide _)).
  pose proof (T db K) as E. destruct (ev_runs _ _ E _ _ F) as (r2 & F2 & _).
  destruct (update_runs (others db) rid is_active eff) as [db1 n] eqn:U.
  destruct (negb (n =? 1)) eqn:N.
  - injection H as <- H. rewrite F2 in H. destruct (is_terminal (run_status r2)) eqn:T2; cbn in H; [|done].
    simplify_eq. unfold status_of. by rewrite F2.
  - simplify_eq. cbn [snd]. split; [|done]. unfold status_of. rewrite find_run_idle.
    change db1 with (db1, n).1. rewrite <- U. apply status_of_updated. exists r2. split; [done|].
    (* the row count is one, so the row was active *)
    destruct (is_active (run_status r2)) eqn:A; [done|exfalso]. breflect.
    unfold update_runs in U. injection U as _ U.
    destruct (List.filter _ (db_runs (others db))) as [|y l] eqn:Fl; [by rewrite <- U in N|].
    assert (Hy : y ∈ List.filter (fun r => has_id rid r && is_active (run_status r)) (db_runs (others db)))
      by (rewrite Fl; apply list_elem_of_here).
    rewrite list_elem_of_In, filter_In, <- list_elem_of_In in Hy. destruct Hy as [Hy Hb].
    apply andb_true_iff in Hb as [Hb1 Hb2]. unfold has_id in Hb1. breflect.
    pose proof (find_run_unique _ _ _ (ev_ok _ _ E) Hy Hb1) as F3. rewrite F2 in F3. congruence.
Qed.

Lemma run_attempts_ok {A} (op : st prompt_db A) fs e : op_evolves op → ∀ db db' a, db_ok db →
  run_attempts (plain op) fs e tt db = (db', Ok a) →
  ∃ db0, db_ok db0 ∧ evolves db db0 ∧ op db0 = (db', Ok a).
Proof.
  intros O. induction fs as [|f fs IH]; intros db db' a K H; cbn [run_attempts] in H;
    destruct (op db) as [db1 r1] eqn:E;
    (assert (P : plain op tt db = (db1, (tt, r1))) by (unfold plain; by rewrite E));
    pose proof (O _ _ _ K E) as E1.
  - rewrite P in H. destruct e; simplify_eq. exists db. split_and!; [done|by apply evolves_refl|done].
  - destruct f; [exact (IH _ _ _ K H)|rewrite P in H; destruct r1; [exact (IH _ _ _ K H)|by simplify_eq]|].
    rewrite P in H. destruct r1; [|by simplify_eq].
    destruct (IH _ _ _ (ev_ok _ _ E1) H) as (db0 & K0 & V0 & H0). exists db0.
    split_and!; [done|by eapply evolves_trans|done].
Qed.

Lemma set_terminal_settles rid target others s s' : tame others → db_ok (js_db s) →
  set_terminal_status rid target others s = (s', Ok tt) →
  ∃ x, status_of (js_db s') rid = Some x ∧ is_terminal x = true.
Proof.
  intros T K H. unfold set_terminal_status in H. destruct (is_active target) eqn:A; [done|].
  unfold st_bind, db_step, run_db_operation in H.
  destruct (run_attempts _ _ _ _ _) as [db' [x|e]] eqn:E; [|done]. simplify_eq. cbn.
  apply run_attempts_ok in E as (db0 & K0 & _ & H0); [|by apply update_terminal_evolves|done].
  destruct (update_terminal_settles _ _ _ _ _ _ T K0 ltac:(unfold is_terminal; by rewrite A) H0). eauto.
Qed.

Lemma persist_settles n rid target others : tame others → ∀ s s', db_ok (js_db s) →
  persist_attempts n rid target others s = (s', Ok tt) →
  ∃ x, status_of (js_db s') rid = Some x ∧ is_terminal x = true.
Proof.
  intros T. induction n as [|n IH]; intros s s' K H; cbn [persist_attempts] in H; [done|].
  destruct (set_terminal_status _ _ _ s) as [s1 [[]|e]] eqn:E.
  - simplify_eq. by eapply set_terminal_settles.
  - destruct (_ || _); [done|]. pose proof (calm_set_terminal_status _ _ _ T _ _ _ K E) as V.
    eapply IH, H. apply V.
Qed.

(** ** Appends that return *)

Lemma append_first_ok rid text db m db' m' : db_ok db → append_memory rid db m →
  append rid text false false m db = (db', (m', Ok tt)) → db' = appended rid text db.
Proof.
  intros K M H. pose proof H as H1. apply append_first in H1 as [_ [->|(-> & _)]]; [|done..].
  unfold append in H. destruct (find_run db rid) as [run|] eqn:F; [|done]. cbn [andb] in H.
  rewrite (next_sequence_length db rid K) in H.
  assert (S : match m with Some n => n | None => zlen (run_events rid db) end = zlen (run_events rid db))
    by (by destruct M as [-> | ->]). rewrite S in H.
  destruct (EVENT_COUNT_MAX <=? _); [done|]. rewrite (find_sequence_none db rid K) in H.
  rewrite (insert_event_ok db rid _ text run K F eq_refl) in H. by simplify_eq.
Qed.

Lemma run_attempts_append_ok rid text fs e : ∀ db m db', db_ok db → append_memory rid db m →
  run_attempts (append rid text false false) fs e m db = (db', Ok tt) → db' = appended rid text db.
Proof.
  induction fs as [|f fs IH]; intros db m db' K M H; cbn [run_attempts] in H.
  - destruct e; [|done..]. destruct (append _ _ _ _ _ _) as [db1 [m1 r1]] eqn:E. simplify_eq.
    by eapply append_first_ok.
  - destruct f; [by eapply IH| |];
      destruct (append _ _ _ _ _ _) as [db1 [m1 [[]|x]]] eqn:E; try done.
    + apply append_first in E as [M1 _]; [|done..]. by eapply IH.
    + pose proof (append_first_ok _ _ _ _ _ _ K M E) as ->.
      apply append_first in E as [_ [E|(_ & _ & -> & _)]]; [|..|done|done].
      { exfalso. apply (f_equal (run_events rid)) in E. rewrite run_events_appended in E.
        apply (f_equal length) in E. rewrite length_app in E. cbn in E. lia. }
      clear - K H. revert H. induction fs as [|f fs IH]; intros H; cbn [run_attempts] in H.
      * destruct e; [|done..]. destruct (append _ _ _ _ _ _) as [db1 [m1 r1]] eqn:E. simplify_eq.
        by apply append_again in E as [-> _].
      * destruct f; [by apply IH| |];
          destruct (append _ _ _ _ _ _) as [db1 [m1 [[]|x]]] eqn:E; try done;
          apply append_again in E as [-> ->]; try done; by apply IH.
Qed.

(** ** Properties *)

(** C8. Whatever the service does, with any storage failures and any other
    writers that behave alike: run IDs and idempotency keys stay unique, a
    session has at most one active run, the events of every run are numbered
    without gaps, a terminal status never changes, runs are never lost and
    events are only appended. *)
Theorem journal_evolves (s s' : jstate) :
  db_ok (js_db s) → jsteps s s' → evolves (js_db s) (js_db s').
Proof. intros K J. by apply jsteps_evolve. Qed.

(** C9. Events are journaled exactly once: an append that returns has added
    exactly its event, as the next sequence of its run, however often the
    storage failed before or after a commit; one that raises has added it at
    most once. *)
Theorem append_exactly_once (s s' : jstate) (rid : pystr) (event : json) (r : res unit) :
  db_ok (js_db s) → append_event rid event false false s = (s', r) →
  let row := {| er_run := rid; er_sequence := zlen (run_events rid (js_db s));
                er_json := serialize event |} in
  match r with
  | Ok _ => db_events (js_db s') = db_events (js_db s) ++ [row]
  | Raise _ => db_events (js_db s') = db_events (js_db s)
               ∨ db_events (js_db s') = db_events (js_db s) ++ [row]
  end.
Proof.
  intros K H. cbn zeta. unfold append_event, st_lift in H.
  destruct event as [| | | | | |l]; try (injection H as <- <-; by left).
  destruct (dict_get _ l) as [[]|]; try (injection H as <- <-; by left).
  unfold st_bind in H. destruct (guard _ _ _); [|injection H as <- <-; by left].
  unfold db_step, run_db_operation in H. destruct (run_attempts _ _ _ _ _) as [db' r'] eqn:E.
  injection H as <- <-. destruct r' as [[]|e].
  - apply run_attempts_append_ok in E as ->; [done|done|by left].
  - apply run_attempts_append in E as [->|[-> _]]; [by left|by right|done|by left].
Qed.

(** A reconnecting reader misses nothing: following the cursor from any
    position returns exactly the rest of the run's events, in order. *)
Theorem pages_complete (db : prompt_db) (session rid : pystr) (r : run_row) (c : Z) :
  db_ok db → find_run db rid = Some r → run_session r = session →
  Forall readable (run_events rid db) → 0 <= c <= zlen (run_events rid db) →
  follow_pages (length (run_events rid db)) session rid c db
  = Ok (map parsed (drop (Z.to_nat c) (run_events rid db))).
Proof. intros K F S R C. eapply follow_pages_spec; [done..|]. unfold zlen. lia. Qed.

(** A page holds at most 100 events and 48,000 bytes unless it is a
    single event, makes progress whenever there are events left, and names the
    cursor of the next page. *)
Theorem page_bounds (db : prompt_db) (session rid : pystr) (r : run_row) (c : Z) :
  db_ok db → find_run db rid = Some r → run_session r = session →
  Forall readable (run_events rid db) → 0 <= c <= zlen (run_events rid db) →
  ∃ b k, read_events session rid c db = Ok b
    ∧ pb_events b = map parsed (take k (drop (Z.to_nat c) (run_events rid db)))
    ∧ pb_next b = c + Z.of_nat k ∧ Z.of_nat k <= EVENT_BATCH_MAX
    ∧ (c < zlen (run_events rid db) → c < pb_next b)
    ∧ (sum_sizes (take k (drop (Z.to_nat c) (run_events rid db))) <= EVENT_BATCH_BYTES_MAX ∨ (k <= 1)%nat).
Proof.
  intros K F S R C. destruct (read_events_spec db session rid c r K F S R C) as (k & H & H1 & _ & H2 & H3).
  eexists _, k. split; [exact H|]. cbn [pb_events pb_next]. split_and!; try done. lia.
Qed.

(** Starting a prompt is idempotent: a second start with the same session
    and key, at any later time and with another proposed ID, returns the first
    run and writes nothing. *)
Theorem start_idempotent (db db1 db2 : prompt_db) (rid rid2 session key : pystr)
    (g g2 : prompt_db → res unit) (others others2 : prompt_db → prompt_db) (run : PromptRun) (c : bool) :
  db_ok db → tame others → zlen rid = RESOURCE_ID_LENGTH →
  create_run rid session key g others db = (db1, Ok (run, c)) → evolves db1 db2 →
  ∃ run2, create_run rid2 session key g2 others2 db2
          = (db2, Ok (run2, bool_decide (pr_id run = rid2))) ∧ pr_id run2 = pr_id run.
Proof.
  intros K T L H E.
  destruct (create_run_row _ _ _ _ _ _ _ _ _ T K L H) as (r & Hin & Hn & Hid & Hl).
  pose proof (create_run_evolves rid session key g others T _ _ _ K H) as E1.
  pose proof (find_run_unique db1 (run_id r) r (ev_ok _ _ E1) Hin eq_refl) as F.
  destruct (ev_runs _ _ E _ _ F) as (r2 & F2 & N2). destruct (find_run_in _ _ _ F2) as [Hin2 Hid2].
  pose proof (find_key_unique db2 r2 (ev_ok _ _ E) Hin2) as F3.
  rewrite Hn in N2. unfold run_name in N2. injection N2 as N3 N4. rewrite N3, N4 in F3.
  unfold create_run. rewrite F3. unfold row_to_run.
  rewrite Hid2, Hl. cbn [Z.eqb guard res_bind pr_id]. rewrite Z.eqb_refl. cbn [guard res_bind pr_id].
  exists {| pr_id := run_id r; pr_session := run_session r2; pr_status := run_status r2 |}.
  split; [by rewrite Hid|exact Hid].
Qed.

(** C10. Recovery always succeeds and settles every orphan: no run is active
    afterwards, and the returned runs are exactly those that were, each with
    the terminal status now stored. *)
Theorem recovery_settles (db : prompt_db) (reset : bool) :
  db_ok db →
  ∃ db' l, recover_prompt_database reset db = (db', Ok l)
    ∧ (∀ r, r ∈ db_runs db' → is_active (run_status r) = false)
    ∧ map pr_id l = map run_id (List.filter (fun r => is_active (run_status r)) (db_runs db))
    ∧ (∀ p, p ∈ l → status_of db' (pr_id p) = Some (pr_status p)).
Proof.
  intros K. set (rows := List.filter (fun r => is_active (run_status r)) (db_runs db)).
  destruct (recover_rows_total reset rows db K (filter_NoDup_map _ _ _ (ok_ids _ K))
    (filter_active_rows db K)) as (db' & l & H & Hid & Hl & Hs).
  pose proof (recover_rows_evolves _ _ _ _ _ K H) as V.
  exists db', l. unfold recover_prompt_database. fold rows. rewrite H.
  split_and!; [done| |done|by intros p Hp; apply Hs].
  intros r Hr. destruct (is_active (run_status r)) eqn:A; [exfalso|done].
  assert (Hm : run_id r ∈ map run_id (db_runs db)) by (rewrite <- Hid; by apply list_elem_of_fmap_2).
  apply list_elem_of_fmap in Hm as (r0 & E0 & Hr0).
  pose proof (find_run_unique _ _ _ (ev_ok _ _ V) Hr eq_refl) as F.
  pose proof (find_run_unique _ _ _ K Hr0 (eq_sym E0)) as F0.
  destruct (is_active (run_status r0)) eqn:A0.
  - assert (Hx : run_id r ∈ map pr_id l).
    { rewrite Hl, E0. apply list_elem_of_fmap_2. unfold rows.
      rewrite list_elem_of_In, filter_In, <- list_elem_of_In. done. }
    apply list_elem_of_fmap in Hx as (p & Ep & Hp). destruct (Hs p Hp) as [Tp Sp].
    rewrite <- Ep in Sp. unfold status_of in Sp. rewrite F in Sp. injection Sp as Sp.
    unfold is_terminal in Tp. rewrite <- Sp, A in Tp. done.
  - assert (S0 : status_of db (run_id r) = Some (run_status r0)) by (unfold status_of; by rewrite F0).
    apply (ev_terminal _ _ V) in S0; [|unfold is_terminal; by rewrite A0].
    unfold status_of in S0. rewrite F in S0. injection S0 as S0. congruence.
Qed.

(** A consumer settles its run: when [_consume] ends, in any way but a
    cancellation of its last write, the run has a terminal status or that
    status is pending for the next reader, and the task is unregistered. *)
Theorem consume_settles (s s' : jstate) (rid : pystr) (src : list source_item)
    (others : prompt_db → prompt_db) (r : res unit) :
  db_ok (js_db s) → tame others → consume rid src others s = (s', r) →
  (rid ∉ js_tasks s')
  ∧ ((∃ x, status_of (js_db s') rid = Some x ∧ is_terminal x = true)
     ∨ pending_of rid s' ≠ None
     ∨ ∃ e, r = Raise e ∧ caught e [CancelledError] = true).
Proof.
  intros K T H. unfold consume in H.
  destruct (consume_body rid src others s) as [[s1 f1] r1] eqn:E1.
  pose proof (consume_body_evolves _ _ _ _ _ _ _ T K E1) as V1.
  destruct (consume_outcome rid f1 r1 s1) as [[s2 f2] r2] eqn:E2.
  pose proof (consume_outcome_evolves _ _ _ _ _ _ _ (ev_ok _ _ V1) E2) as V2.
  destruct (persist_terminal_status rid f2 others s2) as [s3 p] eqn:E3.
  assert (N : ∀ l, rid ∉ List.filter (fun t => negb (bool_decide (t = rid))) l).
  { intros l Hin. rewrite list_elem_of_In, filter_In in Hin. destruct Hin as [_ Hb].
    by rewrite bool_decide_true in Hb. }
  destruct p as [[]|e].
  - injection H as <- <-. split; [apply N|left]. cbn.
    by apply (persist_settles _ _ _ _ T _ _ (ev_ok _ _ V2) E3).
  - destruct (caught e [CancelledError]) eqn:C.
    + injection H as <- <-. split; [apply N|]. right. right. eauto.
    + cbn in H. injection H as <- <-. split; [apply N|]. right. left. unfold pending_of. cbn.
      assert (Fd : ∀ l, List.find (fun x : pystr * pstatus => bool_decide (x.1 = rid))
        (drop_pending rid l ++ [(rid, f2)]) = Some (rid, f2)).
      { intros l. induction l as [|[k v] l IH]; cbn; [by rewrite bool_decide_true|].
        case_bool_decide; cbn; [done|]. by rewrite bool_decide_false. }
      by rewrite Fd.
Qed.

(** Cancellation wins over the outcome: a run that is stopping ends
    cancelled, whatever status its consumer reports. *)
Theorem stopping_ends_cancelled (db : prompt_db) (rid : pystr) (row : run_row) (target : pstatus) :
  db_ok db → find_run db rid = Some row → run_status row = Stopping → is_terminal target = true →
  ∃ db', update_terminal rid target (fun d => d) db = (db', Ok (run_session row, Cancelled))
         ∧ status_of db' rid = Some Cancelled.
Proof.
  intros K F S Ht. destruct (update_terminal rid target (fun d => d) db) as [db' r] eqn:U.
  assert (Hr : r = Ok (run_session row, Cancelled)).
  { unfold update_terminal in U. rewrite F, S in U.
    rewrite (bool_decide_true (Stopping = Stopping)) in U by done. cbn -[update_runs] in U.
    destruct (update_runs db rid is_active Cancelled) as [db1 n] eqn:E.
    assert (N : n = 1); [|subst n; by injection U as _ <-].
    unfold update_runs in E. injection E as _ <-. destruct (find_run_in _ _ _ F) as [Hin Hid].
    pose proof (ok_ids _ K) as D. clear - Hin Hid S D.
    induction (db_runs db) as [|x l IH]; [by inversion Hin|]. cbn in *. apply NoDup_cons in D as [N D].
    assert (Z0 : ∀ k, rid ∉ map run_id k →
      List.filter (fun r => has_id rid r && is_active (run_status r)) k = []).
    { clear. induction k as [|y k IH]; [done|]. cbn. rewrite not_elem_of_cons. intros [H1 H2].
      unfold has_id at 1. rewrite bool_decide_false by done. by apply IH. }
    apply elem_of_cons in Hin as [->|Hin].
    - unfold has_id at 1. rewrite bool_decide_true, S by done. cbn. rewrite Z0 by (by rewrite <- Hid). done.
    - assert (has_id rid x = false) as ->; [|by apply IH]. apply bool_decide_false. intros Hx. apply N.
      rewrite Hx, <- Hid. by apply list_elem_of_fmap_2. }
  subst r. exists db'. split; [done|].
  destruct (update_terminal_settles _ _ _ _ _ _ (λ d Kd, evolves_refl d Kd) K Ht U). done.
Qed.

(** ** Witnesses *)

Definition toy_session : pystr := repeat 97 32.
Definition toy_run : pystr := repeat 98 32.
Definition toy_key : pystr := u"00000000-0000-4000-8000-000000000000".
Definition toy_db : prompt_db := {|
  db_sessions := [(toy_session, u"running")];
  db_messages := [{| msg_session := toy_session; msg_role := u"user"; msg_turn := Some toy_run |}];
  db_runs := []; db_events := [] |}.
Definition toy_service : jstate := {|
  js_db := toy_db; js_tasks := []; js_closing := false; js_recovered := false; js_pending := [];
  js_observed := []; js_plans := [] |}.
(** The commit of the run and of the first event is reported as failed. *)
Definition flaky (s : jstate) : jstate := {|
  js_db := js_db s; js_tasks := js_tasks s; js_closing := js_closing s; js_recovered := js_recovered s;
  js_pending := js_pending s; js_observed := js_observed s;
  js_plans := [smooth; {| failures := [FailAfter; FailOpen; FailRollback]; ends := RunsThrough |}] |}.

Definition admit_all (db : prompt_db) : res unit := Ok tt.
Definition quietly (db : prompt_db) : prompt_db := db.
Lemma quietly_tame : tame quietly.
Proof. intros db K. by apply evolves_refl. Qed.

Lemma toy_db_ok : db_ok toy_db.
Proof. split; cbn; [constructor..|intros; lia|]. intros rid. by split; vm_compute. Qed.

Definition toy_started : jstate := (start toy_run toy_session toy_key admit_all quietly toy_service).1.
Definition toy_event (t : string) : json := JObj [(u"type", JStr (u t)); (u"n", JInt 1)].
Definition toy_consumed : jstate :=
  (consume toy_run [SourceEvent (toy_event "message"); SourceEvent (toy_event "result")] quietly
     (flaky toy_started)).1.

Lemma toy_start_steps : jsteps toy_service toy_started.
Proof.
  eapply (jsteps_start toy_run toy_session toy_key admit_all quietly); [constructor|apply quietly_tame|].
  apply surjective_pairing.
Qed.

Lemma toy_started_ok : db_ok (js_db toy_started).
Proof. apply (jsteps_evolve _ _ toy_start_steps toy_db_ok). Qed.

Lemma toy_consume_steps : jsteps (flaky toy_started) toy_consumed.
Proof.
  eapply (jsteps_consume toy_run _ quietly); [constructor|apply quietly_tame|].
  apply surjective_pairing.
Qed.

Lemma journal_evolves_witness :
  length (db_events (js_db toy_consumed)) = 2%nat
  ∧ status_of (js_db toy_consumed) toy_run = Some Completed
  ∧ evolves (js_db toy_started) (js_db toy_consumed).
Proof.
  split; [vm_compute; reflexivity|]. split; [vm_compute; reflexivity|].
  exact (journal_evolves (flaky toy_started) toy_consumed toy_started_ok toy_consume_steps).
Defined.

Lemma append_exactly_once_witness :
  let s := flaky (flaky toy_started) in
  let s' := (append_event toy_run (toy_event "message") false false
    {| js_db := js_db s; js_tasks := []; js_closing := false; js_recovered := true; js_pending := [];
       js_observed := []; js_plans := tail (js_plans s) |}).1 in
  db_events (js_db s') = [{| er_run := toy_run; er_sequence := 0; er_json := serialize (toy_event "message") |}].
Proof.
  cbn zeta. set (s := {| js_db := _ |}).
  assert (H : append_event toy_run (toy_event "message") false false s
    = ((append_event toy_run (toy_event "message") false false s).1, Ok tt)) by (vm_compute; reflexivity).
  exact (append_exactly_once s _ toy_run (toy_event "message") (Ok tt) toy_started_ok H).
Defined.

Lemma toy_consumed_ok : db_ok (js_db toy_consumed).
Proof. apply (jsteps_evolve _ _ toy_consume_steps toy_started_ok). Qed.

Definition toy_row : run_row :=
  {| run_id := toy_run; run_session := toy_session; run_key := toy_key; run_status := Completed |}.

Lemma toy_readable : Forall readable (run_events toy_run (js_db toy_consumed)).
Proof.
  assert (E : run_events toy_run (js_db toy_consumed)
    = [{| er_run := toy_run; er_sequence := 0; er_json := serialize (toy_event "message") |};
       {| er_run := toy_run; er_sequence := 1; er_json := serialize (toy_event "result") |}])
    by (vm_compute; reflexivity).
  rewrite E. repeat constructor; (vm_compute; eauto).
Qed.

Lemma pages_complete_witness :
  follow_pages 2 toy_session toy_run 0 (js_db toy_consumed)
  = Ok [sort_json (toy_event "message"); sort_json (toy_event "result")].
Proof.
  assert (L : length (run_events toy_run (js_db toy_consumed)) = 2%nat) by (vm_compute; reflexivity).
  rewrite <- L at 1.
  rewrite (pages_complete (js_db toy_consumed) toy_session toy_run toy_row 0 toy_consumed_ok
    ltac:(vm_compute; reflexivity) eq_refl toy_readable ltac:(unfold zlen; lia)).
  vm_compute. reflexivity.
Defined.

Lemma page_bounds_witness :
  ∃ b k, read_events toy_session toy_run 1 (js_db toy_consumed) = Ok b ∧ pb_next b = 1 + Z.of_nat k
  ∧ Z.of_nat k <= EVENT_BATCH_MAX.
Proof.
  assert (C : 0 <= 1 <= zlen (run_events toy_run (js_db toy_consumed))) by (vm_compute; split; discriminate).
  destruct (page_bounds (js_db toy_consumed) toy_session toy_run toy_row 1 toy_consumed_ok
    ltac:(vm_compute; reflexivity) eq_refl toy_readable C) as (b & k & H1 & _ & H2 & H3 & _).
  exists b, k. exact (conj H1 (conj H2 H3)).
Defined.

Lemma start_idempotent_witness :
  ∃ run2, create_run (repeat 99 32) toy_session toy_key admit_all quietly (js_db toy_consumed)
          = (js_db toy_consumed, Ok (run2, false)) ∧ pr_id run2 = toy_run.
Proof.
  assert (H : create_run toy_run toy_session toy_key admit_all quietly toy_db
    = (js_db toy_started, Ok ({| pr_id := toy_run; pr_session := toy_session; pr_status := Starting |}, true)))
    by (vm_compute; reflexivity).
  exact (start_idempotent toy_db (js_db toy_started) (js_db toy_consumed) toy_run (repeat 99 32)
    toy_session toy_key admit_all admit_all quietly quietly _ true toy_db_ok quietly_tame eq_refl H
    (jsteps_evolve _ _ toy_consume_steps toy_started_ok)).
Defined.

Lemma recovery_settles_witness :
  ∃ db' l, recover_prompt_database true (js_db toy_started) = (db', Ok l)
    ∧ map pr_id l = [toy_run] ∧ status_of db' toy_run = Some Interrupted.
Proof.
  destruct (recovery_settles (js_db toy_started) true toy_started_ok) as (db' & l & H & _ & Hl & Hs).
  exists db', l. split; [exact H|]. split; [rewrite Hl; vm_compute; reflexivity|].
  assert (E : recover_prompt_database true (js_db toy_started)
    = ((recover_prompt_database true (js_db toy_started)).1,
       Ok [{| pr_id := toy_run; pr_session := toy_session; pr_status := Interrupted |}]))
    by (vm_compute; reflexivity).
  rewrite H in E. apply (f_equal snd) in E. cbn [snd] in E. injection E as ->.
  apply (Hs {| pr_id := toy_run; pr_session := toy_session; pr_status := Interrupted |}).
  apply list_elem_of_here.
Defined.

Lemma consume_settles_witness :
  js_tasks toy_started = [toy_run] ∧ (toy_run ∉ js_tasks toy_consumed).
Proof.
  split; [vm_compute; reflexivity|].
  assert (H : consume toy_run [SourceEvent (toy_event "message"); SourceEvent (toy_event "result")] quietly
     (flaky toy_started) = (toy_consumed, Ok tt)) by (vm_compute; reflexivity).
  exact (proj1 (consume_settles (flaky toy_started) _ _ _ _ _ toy_started_ok quietly_tame H)).
Defined.

Definition toy_stopping : prompt_db := (request_stop toy_session toy_run quietly (js_db toy_started)).1.

Lemma toy_stopping_ok : db_ok toy_stopping.
Proof.
  eapply ev_ok, (request_stop_evolves toy_session toy_run quietly quietly_tame (js_db toy_started)).
  - apply toy_started_ok.
  - apply surjective_pairing.
Qed.

Lemma stopping_ends_cancelled_witness :
  ∃ db', update_terminal toy_run Completed (fun d => d) toy_stopping = (db', Ok (toy_session, Cancelled))
         ∧ status_of db' toy_run = Some Cancelled.
Proof.
  exact (stopping_ends_cancelled toy_stopping toy_run
    {| run_id := toy_run; run_session := toy_session; run_key := toy_key; run_status := Stopping |}
    Completed toy_stopping_ok ltac:(vm_compute; reflexivity) eq_refl eq_refl).
Defined.
