(* ===== verification/TerminalJournal.v ===== *)
(** * The terminal journal

    Models [services/terminal_journal.py]: the bounded in-memory output journal
    of one terminal channel, the splitting of sidecar output into events, the
    reconnect cursor of [events], and the table of channels with its per-user
    limit, its tab owners and the life of each socket.

    Channels and sockets are objects: they live in two heaps and are named by
    their index, so that a channel removed from the table is still the object
    its reader task and its pending cleanup refer to. The code suspends only at
    an [await] that waits for the outside ([_channels_lock] guards blocks
    without a suspension, so acquiring it never suspends): each definition up
    to such a point is one atomic segment, and a handler is its segments with
    the interference of the other tasks in between. The coroutine [start] is a
    thread with a program counter. Arguments are typed, so the code's type
    tests on them always pass. *)

From S2P Require Import Prelude Text Json.

Definition TERMINAL_ID_LENGTH : Z := 32.
Definition OUTPUT_EVENT_BYTES_MAX : Z := 24000.
Definition OUTPUT_BUFFER_BYTES_MAX : Z := 1048576.
Definition OUTPUT_EVENT_COUNT_MAX : Z := 1000.
Definition TERMINALS_PER_USER_MAX : Z := 8.
Definition EVENT_BATCH_BYTES_MAX : Z := 48000.
Definition EVENT_BATCH_COUNT_MAX : Z := 100.

(** A decoded message or event: a [dict] with string keys. *)
Abbreviation dict := (list (pystr * json)).

(** One retained event: its sequence, its value and its serialized size. *)
Record entry := { en_sequence : Z; en_event : dict; en_bytes : Z }.

(** [channel.reader_task] *)
Inductive reader_task := NoReader | ReaderRunning | ReaderDone.
#[export] Instance reader_task_eq_dec : EqDecision reader_task.
Proof. solve_decision. Defined.

(** [_TerminalChannel]; [ch_writer] names its socket. *)
Record channel := {
  ch_id : pystr;
  ch_user : pystr;
  ch_workspace : pystr;
  ch_owner : option pystr;
  ch_writer : nat;
  ch_options : dict;
  ch_events : list entry;
  ch_next : Z;
  ch_bytes : Z;
  ch_closed : bool;
  ch_reader : reader_task;
  ch_activity : Z;
  ch_available : bool;
}.

(** What the code does to a writer: the bytes handed to it and whether it was
    closed. *)
Record socket := { sk_written : list pybytes; sk_closed : bool }.

Record TerminalEventBatch := {
  tb_terminal : pystr;
  tb_events : list dict;
  tb_next : Z;
  tb_closed : bool;
}.

Record TerminalStartResult := {
  sr_terminal : pystr;
  sr_replaced_terminal : option pystr;
  sr_replaced_workspace : option pystr;
}.

(** ** Validation *)

Definition HEX_DIGITS : pystr := u"0123456789abcdef".

Definition validate_resource_id (value : pystr) : res unit :=
  check! guard (zlen value =? TERMINAL_ID_LENGTH) ValueError "must contain exactly 32 characters" in
  guard (forallb (fun c => bool_decide (c ∈ HEX_DIGITS)) value) ValueError
    "must be lowercase hexadecimal".

Definition validate_identity (value : pystr) : res unit :=
  guard (negb (bool_decide (value = [])) && (zlen value <=? 256)) ValueError "has an invalid length".

Definition validate_size (cols rows : Z) : res unit :=
  check! guard ((2 <=? cols) && (cols <=? 500)) ValueError
    "terminal cols must be between 2 and 500" in
  guard ((2 <=? rows) && (rows <=? 500)) ValueError "terminal rows must be between 2 and 500".

(** The settings a journal is created with. *)
Record config := { cf_scrollback : Z; cf_idle : Z }.

Definition init (scrollback_lines idle_seconds : Z) : res config :=
  check! guard ((100 <=? scrollback_lines) && (scrollback_lines <=? 100000)) ValueError
    "terminal scrollback_lines must be between 100 and 100000" in
  check! guard ((60 <=? idle_seconds) && (idle_seconds <=? 86400)) ValueError
    "terminal idle_seconds must be between 60 and 86400" in
  Ok {| cf_scrollback := scrollback_lines; cf_idle := idle_seconds |}.

(** [bool(value)] of a decoded value. *)
Definition truthy (v : json) : bool :=
  match v with
  | JNull => false
  | JBool b => b
  | JInt z => negb (z =? 0)
  | JFloat r => negb (mem_str r [u"0.0"; u"-0.0"])
  | JStr s => negb (bool_decide (s = []))
  | JArr l => match l with [] => false | _ => true end
  | JObj l => match l with [] => false | _ => true end
  end.

(** [message.get(key) == value] for a string [value]. *)
Definition has_str (message : dict) (key value : pystr) : bool :=
  match dict_get key message with Some (JStr s) => bool_decide (s = value) | _ => false end.

Definition READY_KEYS : list pystr := [u"id"; u"type"; u"cwd"; u"pid"; u"replay"].

Definition validate_terminal_ready (message : dict) (workspace_id : pystr) : res unit :=
  check! guard (forallb (fun k => mem_str k READY_KEYS) (dict_keys message)
                && forallb (fun k => mem_str k (dict_keys message)) READY_KEYS)
    ConnectionError "sidecar terminal ready schema is invalid" in
  check! guard (has_str message (u"id") workspace_id && has_str message (u"type") (u"terminal_ready"))
    ConnectionError "sidecar terminal ready identity is invalid" in
  check! guard (match dict_get (u"cwd") message with
                | Some (JStr cwd) => starts_with (u"/") cwd && (zlen cwd <=? 4096)
                | _ => false
                end) ConnectionError "sidecar terminal ready cwd is invalid" in
  check! guard (match dict_get (u"pid") message with Some (JInt pid) => 0 <? pid | _ => false end)
    ConnectionError "sidecar terminal ready pid is invalid" in
  guard (match dict_get (u"replay") message with Some (JStr _) => true | _ => false end)
    ConnectionError "sidecar terminal ready replay is invalid".

(** [json.loads] prints a [float] back as [repr(float(literal))]; that text is
    the parameter [float_repr]. *)
Definition decode_message (float_repr : pystr → pystr) (line : pybytes) : res dict :=
  check! guard (negb (bool_decide (line = [])) && (zlen line <=? 8 * 1024 * 1024)) ValueError
    "sidecar terminal message has an invalid length" in
  let! text := utf8_decode line in
  let! message := loads (fun lit => Ok (JFloat (float_repr lit))) (fun lit => Ok (JFloat lit))
                    dict_of_pairs text in
  match message with
  | JObj d =>
      match dict_get (u"type") d with
      | Some (JStr _) => Ok d
      | _ => raise ValueError "sidecar terminal message must be a typed object"
      end
  | _ => raise ValueError "sidecar terminal message must be a typed object"
  end.

(** ** Output events *)

Definition TERMINAL_DATA (data : pystr) : dict := [(u"type", JStr (u"terminal_data")); (u"data", JStr data)].
Definition DISCONNECTED : dict :=
  [(u"type", JStr (u"error")); (u"error", JStr (u"Terminal runtime disconnected"))].

(** The loop of [_split_terminal_data]; [len(character.encode("utf-8"))] raises
    on a lone surrogate. *)
Fixpoint split_loop (data current : pystr) (current_bytes : Z) (chunks : list dict) :
    res (list dict) :=
  match data with
  | [] =>
      Ok (if negb (bool_decide (current = [])) || bool_decide (length chunks = 0%nat)
          then chunks ++ [TERMINAL_DATA current] else chunks)
  | character :: rest =>
      let! encoded := utf8_encode [character] in
      let character_bytes := zlen encoded in
      if negb (bool_decide (current = [])) && (20000 <? current_bytes + character_bytes)
      then split_loop rest [character] character_bytes (chunks ++ [TERMINAL_DATA current])
      else split_loop rest (current ++ [character]) (current_bytes + character_bytes) chunks
  end.
Definition split_terminal_data (data : pystr) : res (list dict) := split_loop data [] 0 [].

Definition split_event (event : dict) : res (list dict) :=
  match has_str event (u"type") (u"terminal_ready"), dict_get (u"replay") event with
  | true, Some (JStr replay) =>
      let ready_event := dict_set (u"replay") (JStr []) (dict_pop (u"replay") event) in
      if bool_decide (replay = []) then Ok [ready_event]
      else let! replay_events := split_terminal_data replay in Ok (ready_event :: replay_events)
  | _, _ =>
      match has_str event (u"type") (u"terminal_data"), dict_get (u"data") event with
      | true, Some (JStr data) => split_terminal_data data
      | _, _ => Ok [event]
      end
  end.

(** [len(json.dumps(event, separators=(",", ":"), sort_keys=True).encode("utf-8"))] *)
Definition serialized_bytes (event : dict) : res Z :=
  let! encoded := utf8_encode (dumps true true (JObj event)) in Ok (zlen encoded).

(** The eviction loop of [_append_event]. *)
Fixpoint evict (events : list entry) (event_bytes : Z) : res (list entry * Z) :=
  match events with
  | [] =>
      if (OUTPUT_BUFFER_BYTES_MAX <? event_bytes) || (OUTPUT_EVENT_COUNT_MAX <? 0)
      then raise IndexError "pop from empty list" else Ok ([], event_bytes)
  | e :: rest =>
      if (OUTPUT_BUFFER_BYTES_MAX <? event_bytes) || (OUTPUT_EVENT_COUNT_MAX <? zlen (e :: rest))
      then evict rest (event_bytes - en_bytes e) else Ok (e :: rest, event_bytes)
  end.

Definition with_buffer (c : channel) (events : list entry) (next bytes now : Z) : channel := {|
  ch_id := ch_id c; ch_user := ch_user c; ch_workspace := ch_workspace c; ch_owner := ch_owner c;
  ch_writer := ch_writer c; ch_options := ch_options c; ch_events := events; ch_next := next;
  ch_bytes := bytes; ch_closed := ch_closed c; ch_reader := ch_reader c; ch_activity := now;
  ch_available := true |}.
Definition with_status (c : channel) (closed available : bool) (reader : reader_task) (now : Z) :
    channel := {|
  ch_id := ch_id c; ch_user := ch_user c; ch_workspace := ch_workspace c; ch_owner := ch_owner c;
  ch_writer := ch_writer c; ch_options := ch_options c; ch_events := ch_events c; ch_next := ch_next c;
  ch_bytes := ch_bytes c; ch_closed := closed; ch_reader := reader; ch_activity := now;
  ch_available := available |}.

(** [_append_event]: nothing changes when the event is refused. *)
Definition append_event (c : channel) (event : dict) (now : Z) : res channel :=
  let! event_bytes := serialized_bytes event in
  check! guard (event_bytes <=? OUTPUT_EVENT_BYTES_MAX) ValueError
    "terminal event exceeds the byte limit" in
  let new := {| en_sequence := ch_next c; en_event := event; en_bytes := event_bytes |} in
  let! kept := evict (ch_events c ++ [new]) (ch_bytes c + event_bytes) in
  check! guard (0 <=? kept.2) AssertionError "" in
  Ok (with_buffer c kept.1 (ch_next c + 1) kept.2 now).

(** [for event in events: self._append_event(channel, event)]: the events
    before a refused one stay appended. *)
Fixpoint append_events (c : channel) (events : list dict) (now : Z) : channel * res unit :=
  match events with
  | [] => (c, Ok tt)
  | event :: rest =>
      match append_event c event now with
      | Ok c' => append_events c' rest now
      | Raise e => (c, Raise e)
      end
  end.

(** The page of [events]: the loop over the retained events. *)
Fixpoint select_events (l : list entry) (cursor selected_bytes : Z) (selected : list dict) :
    res (list dict * Z) :=
  match l with
  | [] => Ok (selected, cursor)
  | e :: rest =>
      if en_sequence e <? cursor then select_events rest cursor selected_bytes selected
      else if negb (en_sequence e =? cursor)
      then raise RuntimeError "terminal journal sequence is not contiguous"
      else if negb (bool_decide (length selected = 0%nat))
              && (EVENT_BATCH_BYTES_MAX <? selected_bytes + en_bytes e)
      then Ok (selected, cursor)
      else
        let selected := selected ++ [en_event e] in
        if EVENT_BATCH_COUNT_MAX <=? zlen selected then Ok (selected, cursor + 1)
        else select_events rest (cursor + 1) (selected_bytes + en_bytes e) selected
  end.

Definition read_page (terminal_id : pystr) (c : channel) (next_sequence : Z) : res TerminalEventBatch :=
  let earliest_sequence :=
    match ch_events c with e :: _ => en_sequence e | [] => ch_next c end in
  check! guard (negb (next_sequence <? earliest_sequence)) TerminalCursorExpiredError
    "terminal output cursor expired" in
  check! guard (negb (ch_next c <? next_sequence)) ValueError
    "terminal output cursor is ahead of the journal" in
  let! page := select_events (ch_events c) next_sequence 0 [] in
  Ok {| tb_terminal := terminal_id; tb_events := page.1; tb_next := page.2; tb_closed := ch_closed c |}.

(** ** The journal's state *)

(** [ts_owners] holds the keys of [_starting_by_owner]: its events only wake
    the starts that wait for a key to be free. *)
Record tstate := {
  ts_heap : list channel;
  ts_sockets : list socket;
  ts_channels : list (pystr * nat);
  ts_starting : list (pystr * Z);
  ts_owners : list (pystr * pystr);
  ts_replacements : list nat;
  ts_closing : bool;
}.

Definition initial : tstate := {|
  ts_heap := []; ts_sockets := []; ts_channels := []; ts_starting := []; ts_owners := [];
  ts_replacements := []; ts_closing := false |}.

Definition set_heap (s : tstate) (h : list channel) : tstate := {|
  ts_heap := h; ts_sockets := ts_sockets s; ts_channels := ts_channels s;
  ts_starting := ts_starting s; ts_owners := ts_owners s; ts_replacements := ts_replacements s;
  ts_closing := ts_closing s |}.
Definition set_sockets (s : tstate) (l : list socket) : tstate := {|
  ts_heap := ts_heap s; ts_sockets := l; ts_channels := ts_channels s;
  ts_starting := ts_starting s; ts_owners := ts_owners s; ts_replacements := ts_replacements s;
  ts_closing := ts_closing s |}.
Definition set_channels (s : tstate) (l : list (pystr * nat)) : tstate := {|
  ts_heap := ts_heap s; ts_sockets := ts_sockets s; ts_channels := l;
  ts_starting := ts_starting s; ts_owners := ts_owners s; ts_replacements := ts_replacements s;
  ts_closing := ts_closing s |}.
Definition set_starts (s : tstate) (starting : list (pystr * Z)) (owners : list (pystr * pystr)) :
    tstate := {|
  ts_heap := ts_heap s; ts_sockets := ts_sockets s; ts_channels := ts_channels s;
  ts_starting := starting; ts_owners := owners; ts_replacements := ts_replacements s;
  ts_closing := ts_closing s |}.
Definition set_replacements (s : tstate) (l : list nat) : tstate := {|
  ts_heap := ts_heap s; ts_sockets := ts_sockets s; ts_channels := ts_channels s;
  ts_starting := ts_starting s; ts_owners := ts_owners s; ts_replacements := l;
  ts_closing := ts_closing s |}.
Definition set_closing (s : tstate) : tstate := {|
  ts_heap := ts_heap s; ts_sockets := ts_sockets s; ts_channels := ts_channels s;
  ts_starting := ts_starting s; ts_owners := ts_owners s; ts_replacements := ts_replacements s;
  ts_closing := true |}.

(** An assignment to the fields of one object. *)
Definition update_channel (oid : nat) (f : channel → channel) (s : tstate) : tstate :=
  set_heap s (alter f oid (ts_heap s)).
Definition update_socket (sid : nat) (f : socket → socket) (s : tstate) : tstate :=
  set_sockets s (alter f sid (ts_sockets s)).

Definition writer_write (sid : nat) (data : pybytes) : tstate → tstate :=
  update_socket sid (fun k => {| sk_written := sk_written k ++ [data]; sk_closed := sk_closed k |}).
Definition writer_close (sid : nat) : tstate → tstate :=
  update_socket sid (fun k => {| sk_written := sk_written k; sk_closed := true |}).

Definition socket_of (oid : nat) (s : tstate) : nat :=
  match ts_heap s !! oid with Some c => ch_writer c | None => 0%nat end.

(** The interference of the other tasks at an [await]. *)
Definition interfere (f : tstate → tstate) : st tstate unit := fun s => (f s, Ok tt).
Definition modify (f : tstate → tstate) : st tstate unit := fun s => (f s, Ok tt).

(** [try: m except (cs): pass] *)
Definition swallow {A} (r : res A) (cs : list exc_class) : res unit :=
  match r with
  | Ok _ => Ok tt
  | Raise e => if caught e cs then Ok tt else Raise e
  end.

(** ** Atomic segments on one channel *)

(** [channel.closed = True; channel.output_available.set()] *)
Definition mark_closed (oid : nat) : tstate → tstate :=
  update_channel oid (fun c => with_status c true true (ch_reader c) (ch_activity c)).

Definition touch (oid : nat) (now : Z) : tstate → tstate :=
  update_channel oid (fun c => with_status c (ch_closed c) (ch_available c) (ch_reader c) now).

Definition clear_available (oid : nat) : tstate → tstate :=
  update_channel oid (fun c => with_status c (ch_closed c) false (ch_reader c) (ch_activity c)).

(** [_channel]: the object registered under [terminal_id]. *)
Definition find_channel (user_id workspace_id terminal_id : pystr) (allow_closed : bool)
    (s : tstate) : res nat :=
  check! validate_identity user_id in
  check! validate_resource_id workspace_id in
  check! validate_resource_id terminal_id in
  match assoc_get terminal_id (ts_channels s) with
  | None => raise TerminalNotFoundError "terminal not found"
  | Some oid =>
      match ts_heap s !! oid with
      | None => raise TerminalNotFoundError "terminal not found"
      | Some c =>
          check! guard (bool_decide (ch_user c = user_id) && bool_decide (ch_workspace c = workspace_id)
                        && (negb (ch_closed c) || allow_closed))
            TerminalNotFoundError "terminal not found" in
          Ok oid
      end
  end.

(** [(json.dumps(message, separators=(",", ":")) + "\n").encode("utf-8")] *)
Definition encode_line (message : dict) : res pybytes :=
  utf8_encode (dumps true false (JObj message) ++ [10]).

Definition check_open (oid : nat) (s : tstate) : res unit :=
  match ts_heap s !! oid with
  | Some c => guard (negb (ch_closed c)) TerminalNotFoundError "terminal is closed"
  | None => raise TerminalNotFoundError "terminal is closed"
  end.

Definition write_line (oid : nat) (message : dict) : st tstate unit :=
  let^ line := st_lift (encode_line message) in
  fun s => (writer_write (socket_of oid s) line s, Ok tt).

(** What the outside does to one [_send]: the other tasks while it waits for
    [write_lock] and for [drain], the outcome of [drain], and the clock. *)
Record send_env := {
  se_lock : tstate → tstate;
  se_wait : tstate → tstate;
  se_drain : res unit;
  se_now : Z;
}.

Definition send (oid : nat) (message : dict) (x : send_env) : st tstate unit :=
  do^ (fun s => (s, check_open oid s)) in
  do^ interfere (se_lock x) in
  do^ write_line oid message in
  do^ interfere (se_wait x) in
  do^ st_lift (se_drain x) in
  modify (touch oid (se_now x)).

(** ** Handlers of one channel *)

Definition input (user_id workspace_id terminal_id data : pystr) (x : send_env) : st tstate unit :=
  let^ oid := (fun s => (s, find_channel user_id workspace_id terminal_id false s)) in
  do^ st_lift (if bool_decide (data = [])
               then raise ValueError "terminal input has an invalid length"
               else let! encoded := utf8_encode data in
                    guard (zlen encoded <=? 16384) ValueError "terminal input has an invalid length") in
  send oid [(u"type", JStr (u"terminal_input")); (u"id", JStr workspace_id); (u"data", JStr data)] x.

Definition resize (user_id workspace_id terminal_id : pystr) (cols rows : Z) (x : send_env) :
    st tstate unit :=
  do^ st_lift (validate_size cols rows) in
  let^ oid := (fun s => (s, find_channel user_id workspace_id terminal_id false s)) in
  send oid [(u"type", JStr (u"terminal_resize")); (u"id", JStr workspace_id);
            (u"cols", JInt cols); (u"rows", JInt rows)] x.

Definition options_of (oid : nat) (s : tstate) : dict :=
  match ts_heap s !! oid with Some c => ch_options c | None => [] end.

Definition restart (user_id workspace_id terminal_id : pystr) (x : send_env) : st tstate unit :=
  let^ oid := (fun s => (s, find_channel user_id workspace_id terminal_id false s)) in
  let^ options := (fun s => (s, Ok (options_of oid s))) in
  send oid [(u"type", JStr (u"terminal_restart")); (u"id", JStr workspace_id);
            (u"options", JObj options)] x.

Definition page_of (terminal_id : pystr) (oid : nat) (next_sequence : Z) (s : tstate) :
    res TerminalEventBatch :=
  match ts_heap s !! oid with
  | Some c => read_page terminal_id c next_sequence
  | None => raise TerminalNotFoundError "terminal not found"
  end.

(** [events]; [others] is what happens while it waits for output, [now] the
    clock when the page is returned. *)
Definition events (user_id workspace_id terminal_id : pystr) (next_sequence wait_seconds : Z)
    (others : tstate → tstate) (now : Z) : st tstate TerminalEventBatch :=
  do^ st_lift (guard (0 <=? next_sequence) ValueError
                 "next_sequence must be a non-negative integer") in
  do^ st_lift (guard ((0 <=? wait_seconds) && (wait_seconds <=? 10)) ValueError
                 "wait_seconds must be between 0 and 10") in
  let^ oid := (fun s => (s, find_channel user_id workspace_id terminal_id true s)) in
  do^ (fun s =>
         match ts_heap s !! oid with
         | Some c =>
             if (next_sequence =? ch_next c) && negb (ch_closed c) && negb (wait_seconds =? 0)
             then (clear_available oid (others s), Ok tt) else (s, Ok tt)
         | None => (s, Ok tt)
         end) in
  let^ batch := (fun s => (s, page_of terminal_id oid next_sequence s)) in
  do^ modify (touch oid now) in
  st_ret batch.

(** ** The reader task *)

Inductive read_result := ReadLine (line : pybytes) | ReadRaises (e : exn).

(** One turn of the loop of [_read_output]: [true] when it goes on. *)
Definition read_turn (float_repr : pystr → pystr) (c : channel) (r : read_result) (now : Z) :
    channel * res bool :=
  match r with
  | ReadRaises e => (c, Raise e)
  | ReadLine [] =>
      match append_event c DISCONNECTED now with
      | Ok c' => (c', Ok false)
      | Raise e => (c, Raise e)
      end
  | ReadLine line =>
      match decode_message float_repr line with
      | Raise e => (c, Raise e)
      | Ok message =>
          if has_str message (u"type") (u"init_status") then (c, Ok true)
          else match split_event message with
               | Raise e => (c, Raise e)
               | Ok events =>
                   match append_events c events now with
                   | (c', Ok _) => (c', Ok true)
                   | (c', Raise e) => (c', Raise e)
                   end
               end
      end
  end.

Definition READER_CATCHES : list exc_class :=
  [ConnectionError; OSError_; UnicodeDecodeError; ValueError; JSONDecodeError].

(** The turn with the except clause around the loop. *)
Definition read_caught (float_repr : pystr → pystr) (c : channel) (r : read_result) (now : Z) :
    channel * res bool :=
  match read_turn float_repr c r now with
  | (c', Ok go) => (c', Ok go)
  | (c', Raise e) =>
      if caught e READER_CATCHES then
        match append_event c' DISCONNECTED now with
        | Ok c'' => (c'', Ok false)
        | Raise e' => (c', Raise e')
        end
      else (c', Raise e)
  end.

(** The first segment of the finally block. *)
Definition reader_finally (oid : nat) (s : tstate) : tstate :=
  writer_close (socket_of oid s) (mark_closed oid s).
Definition reader_done (oid : nat) : tstate → tstate :=
  update_channel oid (fun c => with_status c (ch_closed c) (ch_available c) ReaderDone (ch_activity c)).

(** One segment of the task: it goes on, or it ends with [Ok] or an exception
    after the finally block has started. *)
Definition read_segment (float_repr : pystr → pystr) (oid : nat) (r : read_result) (now : Z)
    (s : tstate) : tstate * res bool :=
  match ts_heap s !! oid with
  | None => (s, raise RuntimeError "no channel")
  | Some c =>
      let '(c', outcome) := read_caught float_repr c r now in
      let s' := update_channel oid (fun _ => c') s in
      match outcome with
      | Ok true => (s', Ok true)
      | _ => (reader_finally oid s', outcome)
      end
  end.

(** [_read_output] on the results of its reads, with the interference before
    each; [None] while it still waits for a line. [finish] is the wait for the
    socket to close. *)
Fixpoint read_output (float_repr : pystr → pystr) (oid : nat)
    (reads : list ((tstate → tstate) * read_result * Z))
    (finish : (tstate → tstate) * res unit) (s : tstate) : tstate * option (res unit) :=
  match reads with
  | [] => (s, None)
  | (others, r, now) :: rest =>
      match read_segment float_repr oid r now (others s) with
      | (s', Ok true) => read_output float_repr oid rest finish s'
      | (s', outcome) =>
          let s'' := reader_done oid (finish.1 s') in
          (s'', Some (match swallow finish.2 [OSError_], outcome with
                      | Raise e, _ => Raise e
                      | Ok _, Raise e => Raise e
                      | Ok _, Ok _ => Ok tt
                      end))
      end
  end.

(** ** Closing *)

(** The outside of one [_close_channel]: its [_send], the wait for the reader
    task and its outcome, the wait for the socket and its outcome. *)
Record close_env := {
  ce_send : send_env;
  ce_reader : tstate → tstate;
  ce_reader_outcome : res unit;
  ce_wait : tstate → tstate;
  ce_wait_closed : res unit;
}.

Definition workspace_of (oid : nat) (s : tstate) : pystr :=
  match ts_heap s !! oid with Some c => ch_workspace c | None => [] end.
Definition is_closed (oid : nat) (s : tstate) : bool :=
  match ts_heap s !! oid with Some c => ch_closed c | None => true end.
Definition reader_running (oid : nat) (s : tstate) : bool :=
  match ts_heap s !! oid with Some c => bool_decide (ch_reader c = ReaderRunning) | None => false end.

Definition detach_message (workspace_id : pystr) : dict :=
  [(u"type", JStr (u"terminal_detach")); (u"id", JStr workspace_id)].

(** [_close_channel]; a cancelled reader runs its finally block. *)
Definition close_channel (oid : nat) (detach : bool) (x : close_env) : st tstate unit :=
  do^ (fun s =>
         if detach && negb (is_closed oid s) then
           let '(s', r) := send oid (detach_message (workspace_of oid s)) (ce_send x) s in
           (s', swallow r [ConnectionError; OSError_; TerminalNotFoundError])
         else (s, Ok tt)) in
  do^ modify (mark_closed oid) in
  do^ (fun s =>
         if reader_running oid s then
           (reader_done oid (ce_reader x (reader_finally oid s)),
            swallow (ce_reader_outcome x) [CancelledError])
         else (s, Ok tt)) in
  do^ modify (fun s => writer_close (socket_of oid s) s) in
  do^ interfere (ce_wait x) in
  st_lift (swallow (ce_wait_closed x) [OSError_]).

Definition pop_channel (terminal_id : pystr) (s : tstate) : tstate :=
  set_channels s (assoc_pop terminal_id (ts_channels s)).

Definition close (user_id workspace_id terminal_id : pystr) (x : close_env) : st tstate unit :=
  fun s =>
    match find_channel user_id workspace_id terminal_id true s with
    | Raise e => (s, if caught e [TerminalNotFoundError] then Ok tt else Raise e)
    | Ok oid =>
        (do^ close_channel oid true x in modify (pop_channel terminal_id)) s
    end.

(** [for channel in channels: await self._close_channel(channel, detach=True)] *)
Fixpoint close_each (oids : list nat) (xs : nat → close_env) : st tstate unit :=
  match oids with
  | [] => st_ret tt
  | oid :: rest => do^ close_channel oid true (xs oid) in close_each rest xs
  end.

(** [_reap_idle_channels]: the locked block, and the whole. *)
Definition stale (cf : config) (now : Z) (s : tstate) (oid : nat) : bool :=
  match ts_heap s !! oid with Some c => ch_activity c <? now - cf_idle cf | None => false end.
Definition stale_channels (cf : config) (now : Z) (s : tstate) : list nat :=
  List.filter (stale cf now s) (map snd (ts_channels s)).
Definition id_of (s : tstate) (oid : nat) : pystr :=
  match ts_heap s !! oid with Some c => ch_id c | None => [] end.
Definition reap_pop (cf : config) (now : Z) (s : tstate) : tstate :=
  set_channels s (fold_left (fun l oid => assoc_pop (id_of s oid) l) (stale_channels cf now s)
                    (ts_channels s)).
Definition reap_idle_channels (cf : config) (now : Z) (xs : nat → close_env) : st tstate unit :=
  fun s => close_each (stale_channels cf now s) xs (reap_pop cf now s).

(** [close_all]; [cleanup] is the wait for the replacement tasks. *)
Definition detach_all (s : tstate) : tstate := set_channels (set_closing s) [].
Definition close_all (xs : nat → close_env) (cleanup : tstate → tstate) : st tstate unit := fun s =>
  (do^ close_each (map snd (ts_channels s)) xs in
   fun s' => (match ts_replacements s' with [] => s' | _ => cleanup s' end, Ok tt)) (detach_all s).

(** [_close_replaced_channel] and its done callback. [timed_out] holds what the
    cancelled [_close_channel] did when it did not end in time. *)
Definition force_closed (oid : nat) (s : tstate) : tstate :=
  let s' := mark_closed oid s in
  let s' := if reader_running oid s' then reader_finally oid s' else s' in
  writer_close (socket_of oid s') s'.
Definition replacement_close_done (oid : nat) (s : tstate) : tstate :=
  set_replacements s (List.filter (fun r => negb (bool_decide (r = oid))) (ts_replacements s)).
Definition close_replaced_channel (oid : nat) (x : close_env) (timed_out : option (tstate → tstate))
    (s : tstate) : tstate :=
  replacement_close_done oid
    (match timed_out with
     | None => (close_channel oid true x s).1
     | Some partial => force_closed oid (partial s)
     end).

(** ** Starting a terminal *)

Record start_args := {
  sa_user : pystr;
  sa_workspace : pystr;
  sa_socket_path : pystr;
  sa_cwd : pystr;
  sa_cols : Z;
  sa_rows : Z;
  sa_owner : option pystr;
}.

Definition owner_key (a : start_args) : option (pystr * pystr) :=
  match sa_owner a with Some o => Some (sa_user a, o) | None => None end.

(** The checks of [start] before its first suspension. *)
Definition start_checks (a : start_args) : res unit :=
  check! validate_identity (sa_user a) in
  check! validate_resource_id (sa_workspace a) in
  check! (match sa_owner a with Some o => validate_resource_id o | None => Ok tt end) in
  check! guard (negb (bool_decide (sa_socket_path a = []))) ValueError "socket_path must not be empty" in
  check! guard (negb (bool_decide (sa_cwd a = []))) ValueError "cwd must not be empty" in
  validate_size (sa_cols a) (sa_rows a).

(** [_claim_owner_start]; [None] while another start holds the key. *)
Definition claim_owner_start (key : pystr * pystr) (s : tstate) : option tstate :=
  if bool_decide (key ∈ ts_owners s) then None
  else Some (set_starts s (ts_starting s) (ts_owners s ++ [key])).

(** Is the registered object [oid] a channel of [user] that passes [f]? *)
Definition user_channel (user : pystr) (f : channel → bool) (s : tstate) (oid : nat) : bool :=
  match ts_heap s !! oid with Some c => bool_decide (ch_user c = user) && f c | None => false end.

Definition starting_count (user : pystr) (s : tstate) : Z :=
  match assoc_get user (ts_starting s) with Some n => n | None => 0 end.

(** The locked block of [start] that reserves capacity: closed channels of the
    user are forgotten, the channel of the same tab owner is to be replaced. *)
Definition reserve (a : start_args) (s : tstate) : tstate * res (option nat) :=
  let user := sa_user a in
  if ts_closing s then (s, raise RuntimeError "terminal journal is closing")
  else
    let closed_ids := map fst (List.filter (fun kv => user_channel user ch_closed s kv.2) (ts_channels s)) in
    let s1 := set_channels s (fold_left (fun l tid => assoc_pop tid l) closed_ids (ts_channels s)) in
    let replaced :=
      match sa_owner a with
      | Some o =>
          List.find (user_channel user (fun c => bool_decide (ch_owner c = Some o)) s1)
            (map snd (ts_channels s1))
      | None => None
      end in
    let active_count :=
      zlen (List.filter (user_channel user (fun c => negb (ch_closed c)) s1) (map snd (ts_channels s1))) in
    let retained_count := active_count - (match replaced with Some _ => 1 | None => 0 end) in
    let starting := starting_count user s1 in
    if TERMINALS_PER_USER_MAX <=? retained_count + starting
    then (s1, raise TerminalLimitError "terminal limit reached")
    else (set_starts s1 (assoc_set user (starting + 1) (ts_starting s1)) (ts_owners s1), Ok replaced).

Definition attach_options (cf : config) (a : start_args) : dict :=
  [(u"workspaceId", JStr (sa_workspace a)); (u"cwd", JStr (sa_cwd a)); (u"cols", JInt (sa_cols a));
   (u"rows", JInt (sa_rows a)); (u"scrollbackLines", JInt (cf_scrollback cf))].

Definition new_channel (cf : config) (a : start_args) (id : pystr) (sid : nat) (now : Z) : channel := {|
  ch_id := id; ch_user := sa_user a; ch_workspace := sa_workspace a; ch_owner := sa_owner a;
  ch_writer := sid; ch_options := attach_options cf a; ch_events := []; ch_next := 0; ch_bytes := 0;
  ch_closed := false; ch_reader := NoReader; ch_activity := now; ch_available := false |}.

(** [self._connector(socket_path)] returned a new socket. *)
Definition connect (s : tstate) : nat * tstate :=
  (length (ts_sockets s),
   set_sockets s (ts_sockets s ++ [{| sk_written := []; sk_closed := false |}])).

(** The init line of the sidecar is processed, the channel object is made and
    the attach request written. *)
Definition attach (float_repr : pystr → pystr) (cf : config) (a : start_args) (sid : nat)
    (init_line : pybytes) (fresh : pystr) (now : Z) (s : tstate) : tstate * res nat :=
  let checked :=
    check! guard (negb (bool_decide (init_line = []))) ConnectionError
      "sidecar disconnected before terminal attach" in
    let! init_message := decode_message float_repr init_line in
    guard (has_str init_message (u"type") (u"init_status")
           && match dict_get (u"success") init_message with Some v => truthy v | None => false end)
      ConnectionError "sidecar terminal initialization failed" in
  match checked with
  | Raise e => (s, Raise e)
  | Ok _ =>
      let oid := length (ts_heap s) in
      let s1 := set_heap s (ts_heap s ++ [new_channel cf a fresh sid now]) in
      match write_line oid [(u"type", JStr (u"terminal_attach")); (u"id", JStr (sa_workspace a));
                            (u"options", JObj (attach_options cf a))] s1 with
      | (s2, Ok _) => (s2, Ok oid)
      | (s2, Raise e) => (s2, Raise e)
      end
  end.

(** The ready line is checked and split into the channel's first events. *)
Definition receive_ready (float_repr : pystr → pystr) (a : start_args) (oid : nat)
    (ready_line : pybytes) (now : Z) (s : tstate) : tstate * res unit :=
  let checked :=
    check! guard (negb (bool_decide (ready_line = []))) ConnectionError
      "sidecar disconnected before terminal ready" in
    let! ready_message := decode_message float_repr ready_line in
    check! guard (negb (has_str ready_message (u"type") (u"error"))) ConnectionError
      "sidecar terminal attach failed" in
    check! validate_terminal_ready ready_message (sa_workspace a) in
    split_event ready_message in
  match checked, ts_heap s !! oid with
  | Raise e, _ => (s, Raise e)
  | Ok _, None => (s, raise RuntimeError "no channel")
  | Ok ready_events, Some c =>
      let '(c', r) := append_events c ready_events now in
      (update_channel oid (fun _ => c') s, r)
  end.

(** The replaced channel when it is still the registered object. *)
Definition still_registered (replaced : option nat) (s : tstate) : option nat :=
  match replaced with
  | Some r =>
      match assoc_get (id_of s r) (ts_channels s) with
      | Some r' => if bool_decide (r' = r) then Some r else None
      | None => None
      end
  | None => None
  end.

(** The locked block of [start] that registers the channel and starts its
    reader; a replaced channel is closed by a background task. *)
Definition commit (replaced : option nat) (oid : nat) (s : tstate) :
    tstate * res TerminalStartResult :=
  let terminal_id := id_of s oid in
  if ts_closing s then (s, raise RuntimeError "terminal journal is closing")
  else match assoc_get terminal_id (ts_channels s) with
  | Some _ => (s, raise RuntimeError "terminal ID collision")
  | None =>
      let old := still_registered replaced s in
      let s1 := match old with Some r => pop_channel (id_of s r) s | None => s end in
      let s2 := set_channels s1 (assoc_set terminal_id oid (ts_channels s1)) in
      let s3 := update_channel oid
        (fun c => with_status c (ch_closed c) (ch_available c) ReaderRunning (ch_activity c)) s2 in
      let s4 := match old with
                | Some r => set_replacements s3 (ts_replacements s3 ++ [r])
                | None => s3
                end in
      (s4, Ok {| sr_terminal := terminal_id;
                 sr_replaced_terminal := match old with Some r => Some (id_of s r) | None => None end;
                 sr_replaced_workspace := match old with Some r => Some (workspace_of r s) | None => None end |})
  end.

(** [_release_start_state] *)
Definition release_reservation (user : pystr) (s : tstate) : res tstate :=
  let count := starting_count user s in
  check! guard (negb (count <=? 0)) RuntimeError "terminal start reservation is missing" in
  Ok (set_starts s (if count =? 1 then assoc_pop user (ts_starting s)
                    else assoc_set user (count - 1) (ts_starting s)) (ts_owners s)).
Definition release_owner (key : pystr * pystr) (s : tstate) : res tstate :=
  check! guard (bool_decide (key ∈ ts_owners s)) RuntimeError
    "terminal owner start reservation is missing" in
  Ok (set_starts s (ts_starting s)
        (List.filter (fun k => negb (bool_decide (k = key))) (ts_owners s))).
Definition release_start_state (a : start_args) (reservation_held : bool) (s : tstate) :
    tstate * res unit :=
  match (if reservation_held then release_reservation (sa_user a) s else Ok s) with
  | Raise e => (s, Raise e)
  | Ok s1 =>
      match owner_key a with
      | Some key =>
          match release_owner key s1 with
          | Ok s2 => (s2, Ok tt)
          | Raise e => (s1, Raise e)
          end
      | None => (s1, Ok tt)
      end
  end.

(** Where a call of [start] is suspended. *)
Inductive start_pc :=
  | PClaim
  | PReap
  | PReserve (stale : list nat)
  | PConnect (replaced : option nat)
  | PInit (replaced : option nat) (sid : nat)
  | PAttach (replaced : option nat) (sid oid : nat)
  | PReady (replaced : option nat) (sid oid : nat)
  | PDiscard (sid : nat) (e : exn)
  | PRelease (reservation_held : bool) (outcome : res TerminalStartResult)
  | PDone (outcome : res TerminalStartResult).

(** How the suspension ends: the awaited operation returns, it returns a line
    of the sidecar (with the fresh [uuid4] the segment may draw), or it
    raises (a failure, a timeout, a cancellation). *)
Inductive start_input := IRun (now : Z) | ILine (line : pybytes) (fresh : pystr) (now : Z) | IRaise (e : exn).

Definition start_call (a : start_args) : res start_pc :=
  check! start_checks a in
  Ok (match owner_key a with Some _ => PClaim | None => PReap end).

(** An exception before the commit: [_close_uncommitted_writer] closes the
    socket first. *)
Definition discard (sid : nat) (e : exn) (s : tstate) : option (start_pc * tstate) :=
  Some (PDiscard sid e, writer_close sid s).

(** One segment of [start]; [None] when it cannot go on with this input. At
    [PReserve] the stale channels are being closed by [_close_channel], and the
    start goes on when every one of them has been. *)
Definition start_step (float_repr : pystr → pystr) (cf : config) (a : start_args) (pc : start_pc)
    (i : start_input) (s : tstate) : option (start_pc * tstate) :=
  match pc, i with
  | PClaim, IRun _ =>
      match owner_key a with
      | Some key => match claim_owner_start key s with Some s' => Some (PReap, s') | None => None end
      | None => None
      end
  | PClaim, IRaise e => Some (PDone (Raise e), s)
  | PReap, IRun now => Some (PReserve (stale_channels cf now s), reap_pop cf now s)
  | PReserve l, IRun _ =>
      if forallb (fun oid => is_closed oid s) l then
        match reserve a s with
        | (s', Ok replaced) => Some (PConnect replaced, s')
        | (s', Raise e) => Some (PRelease false (Raise e), s')
        end
      else None
  | PReserve _, IRaise e => Some (PRelease false (Raise e), s)
  | PConnect replaced, IRun _ => let '(sid, s') := connect s in Some (PInit replaced sid, s')
  | PConnect _, IRaise e => Some (PRelease true (Raise e), s)
  | PInit replaced sid, ILine line fresh now =>
      match attach float_repr cf a sid line fresh now s with
      | (s', Ok oid) => Some (PAttach replaced sid oid, s')
      | (s', Raise e) => discard sid e s'
      end
  | PInit _ sid, IRaise e => discard sid e s
  | PAttach replaced sid oid, IRun now => Some (PReady replaced sid oid, touch oid now s)
  | PAttach _ sid _, IRaise e => discard sid e s
  | PReady replaced sid oid, ILine line _ now =>
      match receive_ready float_repr a oid line now s with
      | (s', Raise e) => discard sid e s'
      | (s', Ok _) =>
          match commit replaced oid s' with
          | (s'', Ok result) => Some (PRelease true (Ok result), s'')
          | (s'', Raise e) => discard sid e s''
          end
      end
  | PReady _ sid _, IRaise e => discard sid e s
  | PDiscard sid e, IRun _ => Some (PRelease true (Raise e), writer_close sid s)
  | PDiscard _ _, IRaise e => Some (PRelease true (Raise e), s)
  | PRelease held outcome, IRun _ =>
      match release_start_state a held s with
      | (s', Ok _) => Some (PDone outcome, s')
      | (s', Raise e) => Some (PDone (Raise e), s')
      end
  | PRelease held _, IRaise e =>
      if caught e [CancelledError] then Some (PRelease held (Raise e), s) else None
  | _, _ => None
  end.

(** ** The system: every interleaving of the segments *)

Record thread := { th_args : start_args; th_pc : start_pc }.
Record world := { w_state : tstate; w_starts : list thread }.

(** The segments of the other coroutines, on any channel at any time. *)
Inductive tcall :=
  | CWrite (oid : nat) (message : dict)
  | CTouch (oid : nat) (now : Z)
  | CClear (oid : nat)
  | CMark (oid : nat)
  | CRead (oid : nat) (r : read_result) (now : Z)
  | CReaderFinally (oid : nat)
  | CReaderDone (oid : nat)
  | CWriterClose (oid : nat)
  | CPop (terminal_id : pystr)
  | CDetachAll
  | CForceClosed (oid : nat)
  | CReplacementDone (oid : nat).

Definition run_call (float_repr : pystr → pystr) (c : tcall) (s : tstate) : tstate :=
  match c with
  | CWrite oid message => (write_line oid message s).1
  | CTouch oid now => touch oid now s
  | CClear oid => clear_available oid s
  | CMark oid => mark_closed oid s
  | CRead oid r now => (read_segment float_repr oid r now s).1
  | CReaderFinally oid => reader_finally oid s
  | CReaderDone oid => reader_done oid s
  | CWriterClose oid => writer_close (socket_of oid s) s
  | CPop terminal_id => pop_channel terminal_id s
  | CDetachAll => detach_all s
  | CForceClosed oid => force_closed oid s
  | CReplacementDone oid => replacement_close_done oid s
  end.

Inductive wstep (float_repr : pystr → pystr) (cf : config) : world → world → Prop :=
  | step_start_call s ths a pc :
      start_call a = Ok pc →
      wstep float_repr cf {| w_state := s; w_starts := ths |}
        {| w_state := s; w_starts := ths ++ [{| th_args := a; th_pc := pc |}] |}
  | step_start s ths i a pc x pc' s' :
      ths !! i = Some {| th_args := a; th_pc := pc |} →
      start_step float_repr cf a pc x s = Some (pc', s') →
      wstep float_repr cf {| w_state := s; w_starts := ths |}
        {| w_state := s'; w_starts := <[i := {| th_args := a; th_pc := pc' |}]> ths |}
  | step_call s ths c :
      wstep float_repr cf {| w_state := s; w_starts := ths |}
        {| w_state := run_call float_repr c s; w_starts := ths |}.

Inductive wreach (float_repr : pystr → pystr) (cf : config) : world → Prop :=
  | wreach_initial : wreach float_repr cf {| w_state := initial; w_starts := [] |}
  | wreach_step w w' : wreach float_repr cf w → wstep float_repr cf w w' → wreach float_repr cf w'.
