(* ===== verification/TerminalBuffer.v ===== *)
(** * The output buffer of a terminal channel

    The buffer as a bounded window on the history of a channel's output, the
    pages a cursor reads from it, the splitting of output into chunks and the
    serialized size of an output event. *)

From S2P Require Import Prelude Text Json JsonBytes TerminalJournal.

(** ** The buffer of one channel *)

Definition total_bytes (l : list entry) : Z := foldr (fun e n => en_bytes e + n) 0 l.

(** A retained event has its exact size, which is within the limit. *)
Definition entry_ok (e : entry) : Prop :=
  serialized_bytes (en_event e) = Ok (en_bytes e) ∧ 0 <= en_bytes e <= OUTPUT_EVENT_BYTES_MAX.

(** The buffer holds the last events of the history [H] of the channel: the
    sequences are the positions in [H], the byte count is exact, and both
    limits hold. *)
Definition represents (H : list dict) (c : channel) : Prop :=
  ch_next c = zlen H
  ∧ zlen (ch_events c) <= zlen H
  ∧ map en_event (ch_events c) = drop (length H - length (ch_events c)) H
  ∧ map en_sequence (ch_events c) = seqZ (zlen H - zlen (ch_events c)) (zlen (ch_events c))
  ∧ Forall entry_ok (ch_events c)
  ∧ ch_bytes c = total_bytes (ch_events c)
  ∧ ch_bytes c <= OUTPUT_BUFFER_BYTES_MAX
  ∧ zlen (ch_events c) <= OUTPUT_EVENT_COUNT_MAX.

Lemma total_bytes_cons e l : total_bytes (e :: l) = en_bytes e + total_bytes l.
Proof. done. Qed.

Lemma total_bytes_app l k : total_bytes (l ++ k) = total_bytes l + total_bytes k.
Proof.
  induction l as [|e l IH]; [done|]. cbn [app]. rewrite !total_bytes_cons, IH. lia.
Qed.

Lemma total_bytes_nonneg l : Forall entry_ok l → 0 <= total_bytes l.
Proof. induction 1 as [|e l [_ ?] _ IH]; [done|]. rewrite total_bytes_cons. lia. Qed.

(** Eviction keeps a suffix within both limits, and never runs out of events
    while the byte count is exact. *)
Lemma evict_spec l b : Forall entry_ok l → b = total_bytes l →
  ∃ k, evict l b = Ok (drop k l, total_bytes (drop k l))
    ∧ (k <= length l)%nat
    ∧ total_bytes (drop k l) <= OUTPUT_BUFFER_BYTES_MAX
    ∧ zlen (drop k l) <= OUTPUT_EVENT_COUNT_MAX
    ∧ ((k = 0)%nat ∨ OUTPUT_BUFFER_BYTES_MAX < total_bytes (drop (pred k) l)
       ∨ OUTPUT_EVENT_COUNT_MAX < zlen (drop (pred k) l)).
Proof.
  revert b. induction l as [|e l IH]; intros b Hl ->.
  - exists 0%nat. cbn. split_and!; try done; try lia; unfold OUTPUT_BUFFER_BYTES_MAX; lia.
  - cbn [evict]. destruct (_ || _) eqn:E.
    + apply Forall_cons in Hl as [He Hl].
      destruct (IH (total_bytes (e :: l) - en_bytes e) Hl) as (k & -> & Hk & Hb & Hc & Hm).
      { rewrite total_bytes_cons. lia. }
      exists (S k). cbn [drop length]. split_and!; try done; [lia|right].
      destruct k as [|k]; [|by destruct Hm as [?|Hm]]. cbn [pred drop].
      apply orb_true_iff in E as [E|E]; breflect; auto.
    + exists 0%nat. cbn [drop]. breflect. split_and!; try done; [lia|auto].
Qed.

Lemma evict_keeps_last l e b : Forall entry_ok (l ++ [e]) → b = total_bytes (l ++ [e]) →
  ∃ k, evict (l ++ [e]) b = Ok (drop k l ++ [e], total_bytes (drop k l ++ [e]))
    ∧ (k <= length l)%nat
    ∧ total_bytes (drop k l ++ [e]) <= OUTPUT_BUFFER_BYTES_MAX
    ∧ zlen (drop k l ++ [e]) <= OUTPUT_EVENT_COUNT_MAX
    ∧ ((k = 0)%nat ∨ OUTPUT_BUFFER_BYTES_MAX < total_bytes (drop (pred k) l ++ [e])
       ∨ OUTPUT_EVENT_COUNT_MAX < zlen (drop (pred k) l ++ [e])).
Proof.
  intros Hl Hb. destruct (evict_spec _ _ Hl Hb) as (k & E & Hk & H1 & H2 & H3).
  rewrite length_app in Hk. cbn [length] in Hk.
  assert (k <= length l)%nat.
  { destruct (decide (k = S (length l))) as [->|]; [|lia]. destruct H3 as [?|H3]; [done|].
    cbn [pred] in H3. rewrite drop_app_length in H3.
    apply Forall_app in Hl as [_ Hl]. apply Forall_cons in Hl as [[_ He] _].
    unfold OUTPUT_EVENT_BYTES_MAX, OUTPUT_BUFFER_BYTES_MAX, OUTPUT_EVENT_COUNT_MAX in *.
    unfold zlen in H3. cbn in H3. lia. }
  exists k. rewrite !drop_app_le in E, H1, H2, H3 by lia. done.
Qed.

Lemma serialized_nonneg ev n : serialized_bytes ev = Ok n → 0 <= n.
Proof. unfold serialized_bytes. intros H. inv_ok. apply zlen_nonneg. Qed.

Lemma map_drop' {A B} (f : A → B) k l : map f (drop k l) = drop k (map f l).
Proof. revert k. induction l as [|x l IH]; intros [|k]; cbn; auto. Qed.

Lemma seqZ_snoc m n : 0 <= n → seqZ m (n + 1) = seqZ m n ++ [m + n].
Proof. intros. rewrite seqZ_app by lia. by rewrite (seqZ_cons (m + n)) by lia. Qed.

Lemma drop_seqZ k m n : (Z.of_nat k <= n) → drop k (seqZ m n) = seqZ (m + Z.of_nat k) (n - Z.of_nat k).
Proof.
  revert m n. induction k as [|k IH]; intros m n Hk; [by rewrite Z.add_0_r, Z.sub_0_r|].
  rewrite (seqZ_cons m n) by lia. cbn [drop]. rewrite IH by lia.
  by replace (Z.succ m + Z.of_nat k) with (m + Z.of_nat (S k)) by lia;
    replace (Z.pred n - Z.of_nat k) with (n - Z.of_nat (S k)) by lia.
Qed.

(** Appending extends the history; it fails only for an event whose text is
    too large (or has no encoding), leaving the channel as it was. *)
Lemma append_represents H c event now : represents H c →
  match serialized_bytes event with
  | Ok n =>
      if n <=? OUTPUT_EVENT_BYTES_MAX
      then ∃ c', append_event c event now = Ok c' ∧ represents (H ++ [event]) c'
             ∧ c' = with_buffer c (ch_events c') (zlen H + 1) (ch_bytes c') now
      else append_event c event now = raise ValueError "terminal event exceeds the byte limit"
  | Raise e => append_event c event now = Raise e
  end.
Proof.
  intros (Hn & Hle & He & Hs & Hf & Hb & Hmb & Hmc).
  destruct (serialized_bytes event) as [n|e] eqn:En; [|by unfold append_event; rewrite En].
  destruct (n <=? OUTPUT_EVENT_BYTES_MAX) eqn:L; [|by unfold append_event; rewrite En; cbn; rewrite L].
  unfold append_event. rewrite En. cbn [res_bind]. rewrite L. cbn [guard res_bind].
  set (new := {| en_sequence := ch_next c; en_event := event; en_bytes := n |}).
  assert (Hnew : entry_ok new).
  { split; [done|]. cbn [en_bytes new]. apply serialized_nonneg in En. breflect. lia. }
  assert (Hall : Forall entry_ok (ch_events c ++ [new])) by by apply Forall_snoc.
  destruct (evict_keeps_last (ch_events c) new (ch_bytes c + n) Hall) as (k & -> & Hk & H1 & H2 & _).
  { rewrite total_bytes_app, Hb, total_bytes_cons. cbn. lia. }
  cbn [res_bind fst snd].
  assert (Hd : Forall entry_ok (drop k (ch_events c) ++ [new])).
  { apply Forall_snoc. split; [by apply Forall_drop|done]. }
  rewrite (proj2 (Z.leb_le 0 _)) by by apply total_bytes_nonneg.
  cbn [guard res_bind]. eexists. split; [done|]. rewrite Hn. split; [|done].
  assert (Hlen : zlen (drop k (ch_events c)) = zlen (ch_events c) - Z.of_nat k)
    by (unfold zlen; rewrite length_drop; lia).
  unfold represents. cbn [with_buffer ch_next ch_events ch_bytes].
  rewrite !map_app, !zlen_app, !zlen_cons, !zlen_nil, !map_drop', He, Hs.
  rewrite zlen_app, zlen_cons, zlen_nil in H2.
  split_and!; try done; cbn [map].
  - rewrite Hlen, (@zlen_nil entry). lia.
  - rewrite drop_drop. rewrite drop_app_le by (rewrite !length_app, length_drop; cbn; unfold zlen in *; lia).
    f_equal. f_equal. rewrite !length_app, length_drop. cbn. unfold zlen in *. lia.
  - rewrite drop_seqZ by (unfold zlen; lia). rewrite (@zlen_nil entry), !Z.add_0_r,
      (seqZ_snoc _ (zlen (drop k (ch_events c))))
      by apply zlen_nonneg.
    cbn [new en_sequence]. rewrite Hlen, Hn. repeat f_equal; lia.
Qed.

(** ** Pages *)

(** The page loop takes as many events as fit, and at least one. *)
Lemma select_from l cursor b sel :
  map en_sequence l = seqZ cursor (zlen l) → Forall entry_ok l →
  b <= EVENT_BATCH_BYTES_MAX → zlen sel < EVENT_BATCH_COUNT_MAX → (sel = [] → b = 0) →
  ∃ n, select_events l cursor b sel = Ok (sel ++ map en_event (take n l), cursor + Z.of_nat n)
    ∧ (n <= length l)%nat
    ∧ zlen sel + Z.of_nat n <= EVENT_BATCH_COUNT_MAX
    ∧ b + total_bytes (take n l) <= EVENT_BATCH_BYTES_MAX
    ∧ (sel = [] → l ≠ [] → (0 < n)%nat).
Proof.
  revert cursor b sel. induction l as [|e l IH]; intros cursor b sel Hs Hf Hb Hc Hz.
  { exists 0%nat. cbn. rewrite app_nil_r, Z.add_0_r. split_and!; try done; lia. }
  assert (Hpos := zlen_nonneg l). rewrite zlen_cons, seqZ_cons in Hs by lia.
  cbn [map] in Hs. injection Hs as He Hs. apply Forall_cons in Hf as [[_ Hsz] Hf].
  replace (Z.pred (1 + zlen l)) with (zlen l) in Hs by lia.
  cbn [select_events]. rewrite He, Z.ltb_irrefl, Z.eqb_refl. cbn [negb].
  destruct (negb (bool_decide (length sel = 0%nat)) && _) eqn:E.
  { exists 0%nat. cbn [take map]. rewrite app_nil_r, Z.add_0_r. split_and!; try done; cbn; try lia.
    intros ->. done. }
  assert (Hfit : b + en_bytes e <= EVENT_BATCH_BYTES_MAX).
  { apply andb_false_iff in E as [E|E]; breflect; [|lia].
    apply length_zero_iff_nil in E. specialize (Hz E).
    unfold EVENT_BATCH_BYTES_MAX, OUTPUT_EVENT_BYTES_MAX in *. lia. }
  rewrite zlen_app, zlen_cons, zlen_nil. destruct (EVENT_BATCH_COUNT_MAX <=? _) eqn:L; breflect.
  - exists 1%nat. cbn [take map]. rewrite firstn_O, total_bytes_cons. cbn.
    split_and!; try done; lia.
  - destruct (IH (cursor + 1) (b + en_bytes e) (sel ++ [en_event e])) as (n & -> & H1 & H2 & H3 & _);
      try done.
    { rewrite zlen_app, zlen_cons, zlen_nil. lia. }
    { intros Hnil. by apply app_nil in Hnil as [_ ?]. }
    rewrite zlen_app, zlen_cons, zlen_nil in H2. exists (S n). cbn [take map].
    rewrite <- app_assoc, total_bytes_cons. cbn [app length]. split_and!; try done; try lia.
    do 2 f_equal. lia.
Qed.

Lemma select_skip k l cursor b sel :
  Forall (fun e => en_sequence e < cursor) (take k l) →
  select_events l cursor b sel = select_events (drop k l) cursor b sel.
Proof.
  revert l. induction k as [|k IH]; intros l; [done|]. destruct l as [|e l]; [done|].
  cbn [take drop]. intros [He Hl]%Forall_cons. cbn [select_events].
  rewrite (proj2 (Z.ltb_lt _ _)) by done. by apply IH.
Qed.

(** The first retained position of the history. *)
Definition earliest (c : channel) : Z := ch_next c - zlen (ch_events c).

Lemma earliest_head H c : represents H c →
  match ch_events c with e :: _ => en_sequence e | [] => ch_next c end = earliest c.
Proof.
  intros (Hn & _ & _ & Hs & _). unfold earliest. destruct (ch_events c) as [|e l]; [rewrite zlen_nil; lia|].
  pose proof (zlen_nonneg l). rewrite zlen_cons, seqZ_cons in Hs by lia.
  injection Hs as -> _. rewrite zlen_cons. lia.
Qed.

Lemma take_map {A B} (f : A → B) k l : map f (take k l) = take k (map f l).
Proof. revert k. induction l as [|x l IH]; intros [|k]; cbn; auto. by rewrite IH. Qed.

(** A page is a segment of the history that starts at the cursor. *)
Lemma read_page_spec H c tid cursor : represents H c →
  read_page tid c cursor =
    (if cursor <? earliest c then raise TerminalCursorExpiredError "terminal output cursor expired"
     else if zlen H <? cursor then raise ValueError "terminal output cursor is ahead of the journal"
     else read_page tid c cursor)
  ∧ (earliest c <= cursor <= zlen H →
     ∃ b n, read_page tid c cursor = Ok b
       ∧ tb_events b = take n (drop (Z.to_nat cursor) H)
       ∧ tb_next b = cursor + Z.of_nat n
       ∧ cursor + Z.of_nat n <= zlen H
       ∧ Z.of_nat n <= EVENT_BATCH_COUNT_MAX
       ∧ (∃ es, map en_event es = tb_events b ∧ Forall entry_ok es
            ∧ total_bytes es <= EVENT_BATCH_BYTES_MAX)
       ∧ (cursor < zlen H → (0 < n)%nat)
       ∧ tb_closed b = ch_closed c).
Proof.
  intros R. pose proof (earliest_head H c R) as Hd.
  destruct R as (Hn & Hle & He & Hs & Hf & Hb & Hmb & Hmc). split.
  - unfold read_page at 1. rewrite Hd. destruct (cursor <? earliest c) eqn:E; [done|].
    rewrite Hn. destruct (zlen H <? cursor) eqn:E2; [done|]. unfold read_page. by rewrite Hd, E, Hn, E2.
  - intros [H1 H2]. unfold read_page. rewrite Hd, Hn.
    rewrite (proj2 (Z.ltb_ge _ _)) by lia. rewrite (proj2 (Z.ltb_ge _ _)) by lia.
    cbn [negb guard res_bind]. unfold earliest in H1. rewrite Hn in H1.
    set (k := Z.to_nat (cursor - (zlen H - zlen (ch_events c)))).
    assert (Hk : Z.of_nat k = cursor - (zlen H - zlen (ch_events c))) by lia.
    assert (Hkl : (k <= length (ch_events c))%nat) by (unfold zlen in *; lia).
    rewrite (select_skip k).
    2: { apply Forall_forall. intros e Hin. assert (Hin' : en_sequence e ∈ take k (map en_sequence (ch_events c))).
         { rewrite <- take_map. by apply list_elem_of_fmap_2. }
         rewrite Hs in Hin'. apply list_elem_of_lookup in Hin' as [i Hi].
         apply lookup_take_Some in Hi as [Hi Hlt]. apply lookup_seqZ in Hi. lia. }
    destruct (select_from (drop k (ch_events c)) cursor 0 []) as (n & -> & G1 & G2 & G3 & G4); try done.
    { rewrite map_drop', Hs, drop_seqZ by (unfold zlen in *; lia).
      f_equal; [lia|]. unfold zlen. rewrite length_drop. unfold zlen in Hk. lia. }
    { by apply Forall_drop. }
    cbn [res_bind app fst snd]. eexists _, n. split; [done|]. cbn [tb_events tb_next tb_closed].
    rewrite length_drop in G1. rewrite take_map, map_drop', He, drop_drop.
    split_and!; try done; try (unfold zlen in *; cbn [length] in *; lia).
    + do 2 f_equal. unfold zlen in *. lia.
    + exists (take n (drop k (ch_events c))). rewrite take_map, map_drop', He, drop_drop.
      split_and!; [do 2 f_equal; unfold zlen in *; lia|by apply Forall_take, Forall_drop|lia].
    + intros Hlt. apply G4; [done|]. intros Hnil. apply (f_equal length) in Hnil.
      rewrite length_drop in Hnil. unfold zlen in *. cbn in Hnil. lia.
Qed.

(** ** Splitting output *)

(** A text with an encoding, of at most [n] bytes. *)
Definition encodes_within (n : Z) (s : pystr) : Prop :=
  ∃ b, utf8_encode s = Ok b ∧ zlen b <= n.

Lemma utf8_encode_snoc s c b : utf8_encode s = Ok b → is_scalar c = true →
  utf8_encode (s ++ [c]) = Ok (b ++ utf8_char c).
Proof.
  intros Hs Hc. revert b Hs. induction s as [|x s IH]; intros b Hs; cbn [utf8_encode app] in *.
  - injection Hs as <-. rewrite Hc. cbn. by rewrite app_nil_r.
  - inv_ok. cbn [guard res_bind]. rewrite (IH a0 eq_refl). cbn. by rewrite app_assoc.
Qed.

Lemma utf8_encode_one c : is_scalar c = true → utf8_encode [c] = Ok (utf8_char c).
Proof. intros H. cbn. by rewrite H, app_nil_r. Qed.

Lemma split_loop_spec data : ∀ current b chunks,
  forallb is_scalar data = true → utf8_encode current = Ok b → zlen b <= 20000 →
  ∃ new, split_loop data current (zlen b) chunks = Ok (chunks ++ map TERMINAL_DATA new)
    ∧ concat new = current ++ data
    ∧ Forall (encodes_within 20000) new
    ∧ (current ++ data ≠ [] → Forall (fun c => c ≠ []) new).
Proof.
  induction data as [|c data IH]; intros current b chunks Hd Hb Hl; cbn [split_loop forallb] in *.
  - rewrite app_nil_r. destruct (decide (current = [])) as [->|Hc].
    + destruct chunks as [|x chunks]; cbn [length].
      * exists [[]]. split_and!; try done. constructor; [by exists b|done].
      * rewrite (bool_decide_true ([] = [])), bool_decide_false by done. exists []. cbn. by rewrite app_nil_r.
    + rewrite bool_decide_false by done. exists [current]. cbn. rewrite app_nil_r.
      split_and!; try done; [|by repeat constructor]. constructor; [by exists b|done].
  - breflect. rewrite utf8_encode_one by done. cbn [res_bind].
    pose proof (utf8_char_len c) as Hcl.
    destruct (negb (bool_decide (current = [])) && _) eqn:E; breflect.
    + destruct (IH [c] (utf8_char c) (chunks ++ [TERMINAL_DATA current])) as (new & -> & K1 & K2 & K3);
        [done|by apply utf8_encode_one|lia|].
      exists (current :: new). cbn [map concat]. rewrite <- app_assoc, K1. split_and!; try done.
      * constructor; [by exists b|done].
      * intros _. constructor; [done|]. by apply K3.
    + rewrite <- zlen_app.
      destruct (IH (current ++ [c]) (b ++ utf8_char c) chunks) as (new & -> & K1 & K2 & K3);
        [done|by apply utf8_encode_snoc| |].
      { rewrite zlen_app. apply andb_false_iff in E as [E|E]; breflect; [|lia]. subst current.
        injection Hb as <-. rewrite zlen_nil. lia. }
      exists new. rewrite <- app_assoc in K1, K3. by split_and!.
Qed.

Lemma split_loop_error data : ∀ current n chunks,
  forallb is_scalar data = false →
  ∃ e, split_loop data current n chunks = Raise e ∧ exn_class e = UnicodeEncodeError.
Proof.
  induction data as [|c data IH]; intros current n chunks H; [done|]. cbn [split_loop forallb] in *.
  destruct (is_scalar c) eqn:Hc.
  - rewrite utf8_encode_one by done. cbn [res_bind andb] in *. case_match; by apply IH.
  - cbn. rewrite Hc. cbn. eauto.
Qed.

(** ** The size of an output event *)

Lemma terminal_data_text s :
  dumps true true (JObj (TERMINAL_DATA s))
  = 123 :: ((dump_str true (u"data") ++ 58 :: dump_str true s)
            ++ 44 :: dump_str true (u"type") ++ 58 :: dump_str true (u"terminal_data")) ++ [125].
Proof. reflexivity. Qed.

(** An output event is printed in 34 bytes and its escaped text. *)
Lemma terminal_data_bytes s : Forall (fun c => 0 <= c) s →
  serialized_bytes (TERMINAL_DATA s) = Ok (34 + zlen (esc_str true s)).
Proof.
  intros Hs. unfold serialized_bytes. rewrite terminal_data_text, utf8_encode_ascii.
  - cbn [res_bind]. f_equal. unfold dump_str.
    repeat first [rewrite zlen_cons | rewrite zlen_app | rewrite zlen_nil].
    change (zlen (esc_str true (u"data"))) with 4. change (zlen (esc_str true (u"type"))) with 4.
    change (zlen (esc_str true (u"terminal_data"))) with 13. lia.
  - apply ascii_bytes. assert (A : ∀ t, forallb (Z.leb 0) t = true → is_ascii_text (dump_str true t)).
    { intros t Ht. apply dump_str_ascii. apply forallb_Forall in Ht. eapply Forall_impl; [exact Ht|].
      intros x Hx. by apply Z.leb_le in Hx. }
    repeat first [by apply dump_str_ascii | by apply A | constructor; [lia|] | apply Forall_app; split
                 | by constructor].
Qed.

Lemma scalar_nonneg s : forallb is_scalar s = true → Forall (fun c => 0 <= c) s.
Proof.
  intros H. apply forallb_Forall in H. eapply Forall_impl; [exact H|]. intros c Hc.
  unfold is_scalar in Hc. breflect. done.
Qed.

(** Every escape of one byte costs six. *)
Lemma esc_str_controls s n : Forall (fun c => 0 <= c) s →
  n = zlen (List.filter (fun c => (c =? 27)) s) → zlen s + 5 * n <= zlen (esc_str true s).
Proof.
  intros Hs ->. induction Hs as [|c s Hc Hs IH]; [done|]. cbn [esc_str flat_map List.filter].
  fold (esc_str true s). rewrite zlen_app, zlen_cons. destruct (Z.eqb_spec c 27) as [->|N].
  - rewrite zlen_cons. change (zlen (esc_char true 27)) with 6. lia.
  - assert (1 <= zlen (esc_char true c)); [|lia].
    unfold esc_char. repeat case_match; rewrite ?zlen_app; unfold zlen; cbn; lia.
Qed.
