(* ===== verification/TerminalJournalSpec.v ===== *)
(** * Correctness of the terminal journal

    The invariants of every interleaving of the journal's tasks (the per-user
    limit, the unique channel of a tab owner, the exact accounting of
    reservations, the buffers of all channels) and the properties of the
    journal. *)

From S2P Require Import Prelude Text Json JsonBytes TerminalJournal TerminalBuffer.

(** ** What the segments leave alone *)

Definition buffer_ok (c : channel) : Prop := ∃ H, represents H c.

(** A channel later: the same object, perhaps closed, with a sound buffer. *)
Definition channel_later (c c' : channel) : Prop :=
  ch_id c' = ch_id c ∧ ch_user c' = ch_user c ∧ ch_owner c' = ch_owner c
  ∧ (ch_closed c = true → ch_closed c' = true) ∧ (buffer_ok c → buffer_ok c').

(** A step that leaves the reservations alone, registers nothing and keeps
    every object. *)
Definition calm (s s' : tstate) : Prop :=
  (∀ oid c, ts_heap s !! oid = Some c → ∃ c', ts_heap s' !! oid = Some c' ∧ channel_later c c')
  ∧ (Forall buffer_ok (ts_heap s) → Forall buffer_ok (ts_heap s'))
  ∧ sublist (ts_channels s') (ts_channels s)
  ∧ ts_starting s' = ts_starting s ∧ ts_owners s' = ts_owners s.

Lemma channel_later_refl c : channel_later c c.
Proof. by split_and!. Qed.

Lemma channel_later_trans a b c : channel_later a b → channel_later b c → channel_later a c.
Proof.
  intros (? & ? & ? & Ha & Hb) (? & ? & ? & Hc & Hd). split_and!; try congruence; auto.
Qed.

Lemma calm_refl s : calm s s.
Proof. split_and!; try done. intros oid c H. exists c. split; [done|apply channel_later_refl]. Qed.

Lemma calm_trans a b c : calm a b → calm b c → calm a c.
Proof.
  intros (H1 & H2 & H3 & H4 & H5) (K1 & K2 & K3 & K4 & K5). split_and!; try congruence; auto.
  - intros oid x Hx. destruct (H1 _ _ Hx) as (y & Hy & L). destruct (K1 _ _ Hy) as (z & Hz & M).
    exists z. split; [done|by eapply channel_later_trans].
  - by etransitivity.
Qed.

Lemma calm_heap s s' : ts_heap s' = ts_heap s → sublist (ts_channels s') (ts_channels s) →
  ts_starting s' = ts_starting s → ts_owners s' = ts_owners s → calm s s'.
Proof.
  intros H1 H2 H3 H4. unfold calm. rewrite H1. split_and!; try done.
  intros oid c Hc. exists c. split; [done|apply channel_later_refl].
Qed.

(** Rewriting one object is calm when the object is a later one. *)
Lemma calm_update s oid f : (∀ c, ts_heap s !! oid = Some c → channel_later c (f c)) →
  calm s (update_channel oid f s).
Proof.
  intros Hf. unfold calm, update_channel. cbn [set_heap ts_heap ts_channels ts_starting ts_owners].
  split_and!; try done.
  - intros o c Hc. destruct (decide (o = oid)) as [->|N].
    + exists (f c). rewrite list_lookup_alter_eq, Hc. auto.
    + exists c. rewrite list_lookup_alter_ne by done. split; [done|apply channel_later_refl].
  - intros Hb. apply Forall_lookup. intros o c Hc. destruct (decide (o = oid)) as [->|N].
    + rewrite list_lookup_alter_eq in Hc. destruct (ts_heap s !! oid) as [c0|] eqn:E; [|done].
      injection Hc as <-. apply (Hf c0 eq_refl). by eapply Forall_lookup in Hb.
    + rewrite list_lookup_alter_ne in Hc by done. by eapply Forall_lookup in Hb.
Qed.

Lemma with_status_later c closed available reader now :
  (ch_closed c = true → closed = true) → channel_later c (with_status c closed available reader now).
Proof. intros H. by split_and!. Qed.

Lemma calm_status s oid f : (∀ c, ∃ closed available reader now,
    f c = with_status c closed available reader now ∧ (ch_closed c = true → closed = true)) →
  calm s (update_channel oid f s).
Proof.
  intros H. apply calm_update. intros c _. destruct (H c) as (? & ? & ? & ? & -> & ?).
  by apply with_status_later.
Qed.

Lemma append_event_later c event now c' : append_event c event now = Ok c' → channel_later c c'.
Proof.
  intros E. split_and!; unfold append_event in E; try (inv_ok; done).
  intros [H R]. pose proof (append_represents H c event now R) as A.
  unfold append_event in A. destruct (serialized_bytes event); [|by rewrite E in A].
  destruct (a <=? _); [|by rewrite E in A]. destruct A as (c'' & A & R' & _).
  rewrite E in A. injection A as ->. by eexists.
Qed.

Lemma append_events_later events c now : channel_later c (append_events c events now).1.
Proof.
  revert c. induction events as [|e es IH]; intros c; cbn [append_events]; [apply channel_later_refl|].
  destruct (append_event c e now) as [c'|] eqn:E; [|apply channel_later_refl].
  eapply channel_later_trans; [by eapply append_event_later|apply IH].
Qed.

Lemma read_turn_later fr c r now : channel_later c (read_turn fr c r now).1.
Proof.
  unfold read_turn. destruct r as [line|e]; [|apply channel_later_refl].
  destruct line as [|b line].
  - destruct (append_event c DISCONNECTED now) eqn:E; [by eapply append_event_later|apply channel_later_refl].
  - destruct (decode_message _ _) as [m|]; [|apply channel_later_refl].
    destruct (has_str _ _ _); [apply channel_later_refl|].
    destruct (split_event m) as [es|]; [|apply channel_later_refl].
    pose proof (append_events_later es c now) as A. by destruct (append_events c es now) as [? []].
Qed.

Lemma read_caught_later fr c r now : channel_later c (read_caught fr c r now).1.
Proof.
  unfold read_caught. pose proof (read_turn_later fr c r now) as A.
  destruct (read_turn fr c r now) as [c' [go|e]]; [done|]. cbn [fst] in A.
  destruct (caught e _); [|done]. destruct (append_event c' DISCONNECTED now) eqn:E; [|done].
  eapply channel_later_trans; [exact A|by eapply append_event_later].
Qed.

Lemma calm_mark_closed s oid : calm s (mark_closed oid s).
Proof. apply calm_status. intros c. eexists _, _, _, _. split; [done|done]. Qed.

Lemma calm_writer_close s sid : calm s (writer_close sid s).
Proof. by apply calm_heap. Qed.

Lemma calm_reader_finally s oid : calm s (reader_finally oid s).
Proof. eapply calm_trans; [apply calm_mark_closed|apply calm_writer_close]. Qed.

Lemma calm_touch s oid now : calm s (touch oid now s).
Proof. apply calm_status. intros c. eexists _, _, _, _. split; [done|done]. Qed.

Lemma calm_write_line s oid message : calm s (write_line oid message s).1.
Proof.
  unfold write_line, st_bind, st_lift. destruct (encode_line message); [by apply calm_heap|apply calm_refl].
Qed.

Lemma calm_pop s tid : calm s (pop_channel tid s).
Proof. apply calm_heap; try done. apply assoc_pop_sublist. Qed.

Lemma calm_call fr c s : calm s (run_call fr c s).
Proof.
  destruct c; cbn [run_call]; try apply calm_mark_closed; try apply calm_reader_finally;
    try apply calm_touch; try apply calm_write_line; try apply calm_pop; try apply calm_writer_close.
  - apply calm_status. intros c. eexists _, _, _, _. split; [done|done].
  - unfold read_segment. destruct (ts_heap s !! oid) as [c|] eqn:E; [|apply calm_refl].
    pose proof (read_caught_later fr c r now) as L. destruct (read_caught fr c r now) as [c' o].
    cbn [fst] in L.
    assert (A : calm s (update_channel oid (fun _ => c') s)).
    { apply calm_update. intros x Hx. rewrite E in Hx. by injection Hx as <-. }
    destruct o as [[]|]; cbn [fst]; [done|..];
      (eapply calm_trans; [exact A|apply calm_reader_finally]).
  - apply calm_status. intros c. eexists _, _, _, _. split; [done|done].
  - apply calm_heap; try done. apply sublist_nil_l.
  - unfold force_closed. eapply calm_trans; [apply calm_mark_closed|]. cbv zeta.
    destruct (reader_running oid _); [|apply calm_writer_close].
    eapply calm_trans; [apply calm_reader_finally|apply calm_writer_close].
  - by apply calm_heap.
Qed.

(** ** The invariant of every interleaving *)

(** A start between its reservation and its release. *)
Definition holds (pc : start_pc) : bool :=
  match pc with
  | PConnect _ | PInit _ _ | PAttach _ _ _ | PReady _ _ _ | PDiscard _ _ | PRelease true _ => true
  | _ => false
  end.
(** A start whose reservation may still become a registered channel. *)
Definition uncommitted (pc : start_pc) : bool :=
  match pc with PConnect _ | PInit _ _ | PAttach _ _ _ | PReady _ _ _ => true | _ => false end.
(** A start that has claimed its tab owner. *)
Definition claimed (pc : start_pc) : bool :=
  match pc with PClaim | PDone _ => false | _ => true end.
(** The channel a start is going to replace. *)
Definition target (pc : start_pc) : option nat :=
  match pc with
  | PConnect r | PInit r _ | PAttach r _ _ | PReady r _ _ => r
  | _ => None
  end.
Definition made (pc : start_pc) : option nat :=
  match pc with PAttach _ _ oid | PReady _ _ oid => Some oid | _ => None end.

Definition by_user (user : pystr) (f : start_pc → bool) (th : thread) : bool :=
  bool_decide (sa_user (th_args th) = user) && f (th_pc th).
Definition targets (ths : list thread) : list nat := omap (fun th => target (th_pc th)) ths.

Definition registered (s : tstate) : list nat := map snd (ts_channels s).
Definition live (user : pystr) (s : tstate) : nat → bool :=
  user_channel user (fun c => negb (ch_closed c)) s.

(** The live channels of a user that no running start is about to replace. *)
Definition kept (user : pystr) (s : tstate) (ths : list thread) (oid : nat) : bool :=
  live user s oid && negb (bool_decide (oid ∈ targets ths)).

(** The channel [oid] belongs to the tab owner [key]. *)
Definition owned (s : tstate) (key : pystr * pystr) (oid : nat) : Prop :=
  ∃ c, ts_heap s !! oid = Some c ∧ ch_user c = key.1 ∧ ch_owner c = Some key.2.

Record inv (s : tstate) (ths : list thread) : Prop := {
  inv_keys : NoDup (map fst (ts_channels s));
  inv_ids : ∀ tid oid, (tid, oid) ∈ ts_channels s → ∃ c, ts_heap s !! oid = Some c ∧ ch_id c = tid;
  inv_buffers : Forall buffer_ok (ts_heap s);
  inv_made : ∀ th oid, th ∈ ths → made (th_pc th) = Some oid →
    ∃ c, ts_heap s !! oid = Some c ∧ ch_user c = sa_user (th_args th)
      ∧ ch_owner c = sa_owner (th_args th);
  inv_target_user : ∀ th oid, th ∈ ths → target (th_pc th) = Some oid →
    ∃ c, ts_heap s !! oid = Some c ∧ ch_user c = sa_user (th_args th);
  inv_start_keys : NoDup (map fst (ts_starting s));
  inv_starting : ∀ user, starting_count user s = count (by_user user holds) ths;
  inv_claims : ∀ th key, th ∈ ths → claimed (th_pc th) = true → owner_key (th_args th) = Some key →
    key ∈ ts_owners s;
  inv_exclusive : ∀ i j th th' key, ths !! i = Some th → ths !! j = Some th' →
    claimed (th_pc th) = true → claimed (th_pc th') = true →
    owner_key (th_args th) = Some key → owner_key (th_args th') = Some key → i = j;
  inv_limit : ∀ user, count (kept user s ths) (registered s) + count (by_user user uncommitted) ths
    <= TERMINALS_PER_USER_MAX;
  inv_owners : ∀ key oid oid', oid ∈ registered s → oid' ∈ registered s →
    owned s key oid → owned s key oid' → oid = oid';
  inv_targets : ∀ th key oid, th ∈ ths → uncommitted (th_pc th) = true →
    owner_key (th_args th) = Some key → oid ∈ registered s → owned s key oid →
    target (th_pc th) = Some oid;
}.

Lemma registered_elem s oid : oid ∈ registered s ↔ ∃ tid, (tid, oid) ∈ ts_channels s.
Proof.
  unfold registered. rewrite list_elem_of_fmap. split.
  - intros ([tid o] & -> & H). by exists tid.
  - intros (tid & H). by exists (tid, oid).
Qed.

Lemma registered_NoDup s :
  NoDup (map fst (ts_channels s)) →
  (∀ tid oid, (tid, oid) ∈ ts_channels s → ∃ c, ts_heap s !! oid = Some c ∧ ch_id c = tid) →
  NoDup (registered s).
Proof.
  unfold registered. generalize (ts_channels s) as l. induction l as [|[t o] l IH]; [constructor|].
  cbn. intros [Ht Hl]%NoDup_cons Hi. constructor.
  - intros ([t' o'] & -> & Hin)%list_elem_of_fmap. cbn in *.
    destruct (Hi t o') as (c & Hc & <-); [left|]. destruct (Hi t' o') as (c' & Hc' & <-); [by right|].
    rewrite Hc in Hc'. injection Hc' as <-. apply Ht. by apply (list_elem_of_fmap_2 fst _ (ch_id c, o')).
  - apply IH; [done|]. intros t' o' Hin. apply Hi. by right.
Qed.

Lemma owned_later s s' key oid : calm s s' → oid ∈ registered s →
  (∀ tid oid, (tid, oid) ∈ ts_channels s → ∃ c, ts_heap s !! oid = Some c ∧ ch_id c = tid) →
  owned s' key oid → owned s key oid.
Proof.
  intros (H & _) (tid & Hin)%registered_elem Hi (c' & Hc' & Hu & Ho).
  destruct (Hi _ _ Hin) as (c & Hc & _). destruct (H _ _ Hc) as (c'' & Hc'' & _ & Eu & Eo & _).
  rewrite Hc' in Hc''. injection Hc'' as <-. exists c. split_and!; congruence.
Qed.

Lemma live_later user s s' oid : calm s s' → is_Some (ts_heap s !! oid) →
  live user s' oid = true → live user s oid = true.
Proof.
  intros (H & _) [c Hc] Hl. destruct (H _ _ Hc) as (c' & Hc' & _ & Eu & _ & Ecl & _).
  unfold live, user_channel in *. rewrite Hc. rewrite Hc' in Hl. rewrite Eu in Hl.
  apply andb_true_iff in Hl as [-> Hl]. apply negb_true_iff in Hl. cbn.
  destruct (ch_closed c); [|done]. rewrite Ecl in Hl; done.
Qed.

Lemma registered_calm s s' : calm s s' → sublist (registered s') (registered s).
Proof. intros (_ & _ & H & _). by apply sublist_map. Qed.

Lemma heap_registered s oid : oid ∈ registered s →
  (∀ tid oid, (tid, oid) ∈ ts_channels s → ∃ c, ts_heap s !! oid = Some c ∧ ch_id c = tid) →
  is_Some (ts_heap s !! oid).
Proof. intros (tid & H)%registered_elem Hi. destruct (Hi _ _ H) as (c & -> & _). by eexists. Qed.

(** A calm step keeps the invariant. *)
Lemma inv_calm s s' ths : calm s s' → inv s ths → inv s' ths.
Proof.
  intros C I. pose proof C as (C1 & C2 & C3 & C4 & C5). pose proof (registered_calm _ _ C) as CR.
  assert (Hin : ∀ oid, oid ∈ registered s' → oid ∈ registered s)
    by (intros; by eapply elem_of_sublist).
  constructor.
  - eapply sublist_NoDup; [apply (inv_keys _ _ I)|]. by apply sublist_map.
  - intros tid oid H. destruct (inv_ids _ _ I tid oid) as (c & Hc & Hid); [by eapply elem_of_sublist|].
    destruct (C1 _ _ Hc) as (c' & Hc' & Eid & _). exists c'. split; congruence.
  - apply C2, (inv_buffers _ _ I).
  - intros th oid Hth Hm. destruct (inv_made _ _ I th oid Hth Hm) as (c & Hc & Hu & Ho).
    destruct (C1 _ _ Hc) as (c' & Hc' & _ & Eu & Eo & _). exists c'. split_and!; congruence.
  - intros th oid Hth Hm. destruct (inv_target_user _ _ I th oid Hth Hm) as (c & Hc & Hu).
    destruct (C1 _ _ Hc) as (c' & Hc' & _ & Eu & _). exists c'. split; congruence.
  - rewrite C4. apply (inv_start_keys _ _ I).
  - intros user. unfold starting_count. rewrite C4. apply (inv_starting _ _ I).
  - rewrite C5. apply (inv_claims _ _ I).
  - apply (inv_exclusive _ _ I).
  - intros user. etransitivity; [|apply (inv_limit _ _ I user)]. apply Z.add_le_mono_r.
    etransitivity; [|by apply count_sublist]. apply count_le. intros oid Hoid. unfold kept.
    rewrite !andb_true_iff. intros [Hl Hk]. split; [|done]. eapply live_later; [done| |done].
    apply heap_registered; [by apply Hin|apply (inv_ids _ _ I)].
  - intros key oid oid' H1 H2 O1 O2.
    apply (inv_owners _ _ I key); auto; eapply owned_later; eauto; apply (inv_ids _ _ I).
  - intros th key oid Hth Hu Hk Ho Ow. apply (inv_targets _ _ I th key oid); auto.
    eapply owned_later; eauto. apply (inv_ids _ _ I).
Qed.

(** ** Moves of one start *)

Lemma elem_of_insert_list {A} (x y : A) (i : nat) (l : list A) : x ∈ <[i := y]> l → x = y ∨ x ∈ l.
Proof.
  intros (j & Hj)%list_elem_of_lookup. destruct (decide (i = j)) as [->|N].
  - destruct (decide (j < length l)%nat) as [L|L].
    + rewrite list_lookup_insert_eq in Hj by done. injection Hj as ->. by left.
    + rewrite list_insert_ge in Hj by lia. right. by eapply list_elem_of_lookup_2.
  - rewrite list_lookup_insert_ne in Hj by done. right. by eapply list_elem_of_lookup_2.
Qed.

Lemma targets_elem ths oid :
  oid ∈ targets ths ↔ ∃ th, th ∈ ths ∧ target (th_pc th) = Some oid.
Proof. apply list_elem_of_omap. Qed.

Lemma targets_insert ths i th th' oid : ths !! i = Some th →
  oid ∈ targets ths → oid ∈ targets (<[i := th']> ths) ∨ target (th_pc th) = Some oid.
Proof.
  intros Hi (x & (j & Hj)%list_elem_of_lookup & Hx)%targets_elem.
  destruct (decide (i = j)) as [->|N]; [right; congruence|left].
  apply targets_elem. exists x. split; [|done]. apply list_elem_of_lookup. exists j.
  by rewrite list_lookup_insert_ne.
Qed.

Section Moves.
Context (s : tstate) (ths : list thread) (i : nat) (a : start_args) (pc pc' : start_pc).
Hypothesis I : inv s ths.
Hypothesis Hi : ths !! i = Some {| th_args := a; th_pc := pc |}.
Let ths' := <[i := {| th_args := a; th_pc := pc' |}]> ths.

Lemma thread_in : {| th_args := a; th_pc := pc |} ∈ ths.
Proof. by eapply list_elem_of_lookup_2. Qed.

Lemma lookup_moved j th : ths' !! j = Some th →
  (j = i ∧ th = {| th_args := a; th_pc := pc' |}) ∨ (j ≠ i ∧ ths !! j = Some th).
Proof.
  unfold ths'. destruct (decide (i = j)) as [->|N].
  - rewrite list_lookup_insert_eq by by eapply lookup_lt_Some. intros [= <-]. by left.
  - rewrite list_lookup_insert_ne by done. right. by split.
Qed.

Lemma exclusive_moved : (claimed pc' = true → claimed pc = true) →
  ∀ j k th th' key, ths' !! j = Some th → ths' !! k = Some th' →
  claimed (th_pc th) = true → claimed (th_pc th') = true →
  owner_key (th_args th) = Some key → owner_key (th_args th') = Some key → j = k.
Proof.
  intros Hc j k th th' key Hj Hk C1 C2 K1 K2.
  assert (E : ∀ j th, ths' !! j = Some th → claimed (th_pc th) = true →
    owner_key (th_args th) = Some key → ∃ th0, ths !! j = Some th0 ∧ claimed (th_pc th0) = true
      ∧ owner_key (th_args th0) = Some key).
  { intros m x [[-> ->]|[_ Hm]]%lookup_moved C K; [|by exists x].
    exists {| th_args := a; th_pc := pc |}. cbn in *. auto. }
  destruct (E _ _ Hj C1 K1) as (x & Hx & Cx & Kx). destruct (E _ _ Hk C2 K2) as (y & Hy & Cy & Ky).
  by eapply (inv_exclusive _ _ I).
Qed.

Lemma count_moved user f :
  count (by_user user f) ths'
  = count (by_user user f) ths - Z.b2z (bool_decide (sa_user a = user) && f pc)
    + Z.b2z (bool_decide (sa_user a = user) && f pc').
Proof. unfold ths'. by rewrite (count_insert _ _ _ _ _ Hi). Qed.

(** The kept channels grow at most by the channel the start would replace. *)
Lemma kept_moved user s' : (∀ oid, live user s' oid = true → live user s oid = true) →
  NoDup (registered s) → count (kept user s' ths') (registered s) <= count (kept user s ths) (registered s) + 1.
Proof.
  intros Hl Hn.
  apply (count_one_more _ _ (match target pc with Some r => r | None => 0%nat end)); [done|].
  intros oid _. unfold kept. rewrite !andb_true_iff, !negb_true_iff, !bool_decide_eq_false.
  intros [L N]. destruct (decide (oid ∈ targets ths)) as [E|E]; [|left; auto]. right.
  apply (targets_insert _ _ _ {| th_args := a; th_pc := pc' |} _ Hi) in E as [E|E]; [done|].
  cbn in E. by rewrite E.
Qed.

Lemma kept_other user s' : (∀ oid, live user s' oid = true → live user s oid = true) →
  sa_user a ≠ user → count (kept user s' ths') (registered s) <= count (kept user s ths) (registered s).
Proof.
  intros Hl Hu. apply count_le. intros oid _. unfold kept.
  rewrite !andb_true_iff, !negb_true_iff, !bool_decide_eq_false. intros [L N]. split; [auto|].
  intros E. apply (targets_insert _ _ _ {| th_args := a; th_pc := pc' |} _ Hi) in E as [E|E]; [done|].
  destruct (inv_target_user _ _ I _ oid thread_in E) as (c & Hc & Ec). apply Hl in L.
  unfold live, user_channel in L. rewrite Hc in L. breflect. cbn in Ec. congruence.
Qed.

Lemma kept_same user : target pc' = target pc → ∀ oid, kept user s ths' oid = true → kept user s ths oid = true.
Proof.
  intros Ht oid. unfold kept. rewrite !andb_true_iff, !negb_true_iff, !bool_decide_eq_false.
  intros [L N]. split; [done|]. intros (th & (j & Hj)%list_elem_of_lookup & Hth)%targets_elem. apply N, targets_elem.
  destruct (decide (i = j)) as [<-|Nj].
  - exists {| th_args := a; th_pc := pc' |}. split; [|rewrite Hi in Hj; injection Hj as <-; cbn in *; congruence].
    apply list_elem_of_lookup. exists i. unfold ths'. rewrite list_lookup_insert_eq; [done|].
    by eapply lookup_lt_Some.
  - exists th. split; [|done]. apply list_elem_of_lookup. exists j. unfold ths'.
    by rewrite list_lookup_insert_ne.
Qed.

Lemma kept_untargeted user : target pc = None →
  ∀ oid, kept user s ths' oid = true → kept user s ths oid = true.
Proof.
  intros Ht oid. unfold kept. rewrite !andb_true_iff, !negb_true_iff, !bool_decide_eq_false.
  intros [L N]. split; [done|].
  intros [E|E]%(targets_insert _ _ _ {| th_args := a; th_pc := pc' |} _ Hi); [done|]. cbn in E. congruence.
Qed.

Lemma target_moved r : target pc' = Some r → r ∈ targets ths'.
Proof.
  intros Hr. apply targets_elem. exists {| th_args := a; th_pc := pc' |}. split; [|done].
  apply list_elem_of_lookup. exists i. unfold ths'. rewrite list_lookup_insert_eq; [done|].
  by eapply lookup_lt_Some.
Qed.

(** A start moves on, or gives its reservation up. *)
Lemma inv_move :
  holds pc' = holds pc → claimed pc' = claimed pc →
  (uncommitted pc' = uncommitted pc ∧ target pc' = target pc)
    ∨ (uncommitted pc = true ∧ uncommitted pc' = false) →
  (∀ oid, made pc' = Some oid → ∃ c, ts_heap s !! oid = Some c ∧ ch_user c = sa_user a
     ∧ ch_owner c = sa_owner a) →
  inv s ths'.
Proof.
  intros Hh Hc Hu Hm. constructor; try apply I.
  - intros th oid [-> |Hth]%elem_of_insert_list H; [by apply Hm|by apply (inv_made _ _ I)].
  - intros th oid [-> |Hth]%elem_of_insert_list H; [|by apply (inv_target_user _ _ I)].
    cbn in *. apply (inv_target_user _ _ I _ oid thread_in). cbn.
    destruct Hu as [[_ <-]|[_ Hu]]; [done|]. by destruct pc'.
  - intros user. rewrite count_moved, Hh, (inv_starting _ _ I). lia.
  - intros th key [-> |Hth]%elem_of_insert_list C K; [|by apply (inv_claims _ _ I th)].
    cbn in *. rewrite Hc in C. by apply (inv_claims _ _ I _ key thread_in).
  - apply exclusive_moved. by rewrite Hc.
  - intros user. rewrite count_moved. pose proof (inv_limit _ _ I user) as L.
    destruct Hu as [[Hu Ht]|[Hu Hu']].
    + rewrite Hu. pose proof (count_le _ _ (registered s) (fun x _ => kept_same user Ht x)). lia.
    + rewrite Hu, Hu', andb_false_r, andb_true_r. cbn [Z.b2z].
      destruct (bool_decide (sa_user a = user)) eqn:E; cbn [Z.b2z].
      * pose proof (kept_moved user s (fun _ H => H)
          (registered_NoDup _ (inv_keys _ _ I) (inv_ids _ _ I))). lia.
      * breflect. pose proof (kept_other user s (fun _ H => H) E). lia.
  - intros th key oid [-> |Hth]%elem_of_insert_list U K R O; [|by apply (inv_targets _ _ I th key)].
    cbn in *. destruct Hu as [[Hu ->]|[_ Hu]]; [|congruence]. rewrite Hu in U.
    by apply (inv_targets _ _ I _ key oid thread_in).
Qed.
End Moves.

Lemma count_one {A} (f : A → bool) x : count f [x] = Z.b2z (f x).
Proof. rewrite count_cons. change (count f []) with 0. lia. Qed.

Lemma targets_app ths ths' : targets (ths ++ ths') = targets ths ++ targets ths'.
Proof. apply omap_app. Qed.

(** A new call of [start]. *)
Lemma inv_spawn s ths a pc : inv s ths → start_call a = Ok pc →
  inv s (ths ++ [{| th_args := a; th_pc := pc |}]).
Proof.
  intros I Hp. unfold start_call in Hp. inv_ok. set (pc := match _ with Some _ => _ | None => _ end).
  assert (P : holds pc = false ∧ uncommitted pc = false ∧ target pc = None ∧ made pc = None
    ∧ (claimed pc = true → owner_key a = None)) by (unfold pc; by destruct (owner_key a)).
  clearbody pc. destruct P as (Ph & Pu & Pt & Pm & Pc).
  assert (Hin : ∀ th, th ∈ ths ++ [{| th_args := a; th_pc := pc |}] →
    th ∈ ths ∨ th = {| th_args := a; th_pc := pc |}).
  { intros th [?|?%list_elem_of_singleton]%elem_of_app; auto. }
  assert (Hc : ∀ user f, f pc = false →
    count (by_user user f) (ths ++ [{| th_args := a; th_pc := pc |}]) = count (by_user user f) ths).
  { intros user f Hf. rewrite count_app, count_one. unfold by_user at 2. cbn [th_args th_pc].
    rewrite Hf, andb_false_r. cbn. lia. }
  constructor; try apply I.
  - intros th oid [Hth | ->]%Hin H; [by apply (inv_made _ _ I)|]. cbn in H. congruence.
  - intros th oid [Hth | ->]%Hin H; [by apply (inv_target_user _ _ I)|]. cbn in H. congruence.
  - intros user. rewrite Hc by done. apply I.
  - intros th key [Hth | ->]%Hin C K; [by apply (inv_claims _ _ I th)|]. cbn in *.
    rewrite (Pc C) in K. done.
  - intros i j th th' key H1 H2 C1 C2 K1 K2.
    assert (EE : ∀ k x, (ths ++ [{| th_args := a; th_pc := pc |}]) !! k = Some x →
      claimed (th_pc x) = true → owner_key (th_args x) = Some key → ths !! k = Some x).
    { intros k x Hk Cx Kx. apply lookup_app_Some in Hk as [Hk|[_ Hk]]; [done|].
      apply list_elem_of_lookup_2, list_elem_of_singleton in Hk. subst x. cbn in *.
      rewrite (Pc Cx) in Kx. done. }
    by eapply (inv_exclusive _ _ I i j); eauto.
  - intros user. rewrite Hc by done. etransitivity; [|apply (inv_limit _ _ I user)].
    apply Z.add_le_mono_r, count_le. intros oid _. unfold kept. rewrite targets_app. cbn [targets omap list_omap].
    cbn. rewrite Pt, app_nil_r. done.
  - intros th key oid [Hth | ->]%Hin U K; [by apply (inv_targets _ _ I th key)|]. cbn in U. congruence.
Qed.

(** Claiming a tab owner. *)
Lemma inv_claim s s' ths i a key : inv s ths →
  ths !! i = Some {| th_args := a; th_pc := PClaim |} → owner_key a = Some key →
  claim_owner_start key s = Some s' → inv s' (<[i := {| th_args := a; th_pc := PReap |}]> ths).
Proof.
  intros I Hi Hk Hs. unfold claim_owner_start in Hs. case_bool_decide as F; [done|]. injection Hs as <-.
  assert (N : ∀ th, th ∈ ths → claimed (th_pc th) = true → owner_key (th_args th) ≠ Some key).
  { intros th Hth C K. by apply F, (inv_claims _ _ I th key). }
  constructor; try apply I; cbn [set_starts ts_heap ts_owners].
  - intros th oid [-> |Hth]%elem_of_insert_list H; [done|by apply (inv_made _ _ I)].
  - intros th oid [-> |Hth]%elem_of_insert_list H; [done|by apply (inv_target_user _ _ I)].
  - intros user. rewrite (count_moved _ _ _ _ PReap Hi). cbn. rewrite andb_false_r. cbn.
    rewrite Z.sub_0_r, Z.add_0_r. apply (inv_starting _ _ I).
  - intros th key' [-> |Hth]%elem_of_insert_list C K; apply elem_of_app.
    + cbn in K. right. apply list_elem_of_singleton. congruence.
    + left. by apply (inv_claims _ _ I th).
  - intros j k th th' key' Hj Hk' C1 C2 K1 K2.
    apply (lookup_moved ths i a PClaim PReap Hi) in Hj as [[-> ->]|[_ Hj]];
      apply (lookup_moved ths i a PClaim PReap Hi) in Hk' as [[-> ->]|[_ Hk']]; try done.
    + cbn in K1. exfalso. apply (N th'); [by eapply list_elem_of_lookup_2|done|congruence].
    + cbn in K2. exfalso. apply (N th); [by eapply list_elem_of_lookup_2|done|congruence].
    + by eapply (inv_exclusive _ _ I).
  - intros user. rewrite (count_moved _ _ _ _ PReap Hi). cbn. rewrite andb_false_r. cbn.
    pose proof (inv_limit _ _ I user).
    pose proof (count_le _ _ (registered s) (fun x _ => kept_same s ths i a PClaim PReap Hi user eq_refl x)).
    unfold kept, live, user_channel, registered in *. cbn [set_starts ts_heap ts_channels] in *. lia.
  - intros th key' oid [-> |Hth]%elem_of_insert_list U K; [done|].
    apply (inv_targets _ _ I th key' oid Hth U K).
Qed.

(** ** Reserving *)

Definition closed_ids (user : pystr) (s : tstate) : list pystr :=
  map fst (List.filter (fun kv => user_channel user ch_closed s kv.2) (ts_channels s)).
Definition forget_closed (user : pystr) (s : tstate) : tstate :=
  set_channels s (without (closed_ids user s) (ts_channels s)).

Lemma calm_forget user s : calm s (forget_closed user s).
Proof. apply calm_heap; try done. apply without_sublist. Qed.

Lemma forget_closed_spec user s oid :
  oid ∈ registered (forget_closed user s) → user_channel user ch_closed s oid = false.
Proof.
  intros (tid & [Hin Hn]%elem_of_without)%registered_elem.
  destruct (user_channel user ch_closed s oid) eqn:E; [|done]. exfalso. apply Hn.
  apply (list_elem_of_fmap_2 fst _ (tid, oid)), list_elem_of_In, filter_In.
  split; [by apply list_elem_of_In|done].
Qed.

(** The channel of the tab owner that [reserve] finds. *)
Definition found (a : start_args) (s : tstate) : option nat :=
  match sa_owner a with
  | Some o => List.find (user_channel (sa_user a) (fun c => bool_decide (ch_owner c = Some o)) s) (registered s)
  | None => None
  end.
Definition fits (a : start_args) (s : tstate) : bool :=
  negb (TERMINALS_PER_USER_MAX <=?
        count (live (sa_user a) s) (registered s) - (match found a s with Some _ => 1 | None => 0 end)
        + starting_count (sa_user a) s).
Definition book (a : start_args) (s : tstate) : tstate :=
  set_starts s (assoc_set (sa_user a) (starting_count (sa_user a) s + 1) (ts_starting s)) (ts_owners s).

Lemma reserve_eq a s : NoDup (map fst (ts_channels s)) →
  reserve a s =
    (if ts_closing s then (s, raise RuntimeError "terminal journal is closing")
     else if fits a (forget_closed (sa_user a) s)
     then (book a (forget_closed (sa_user a) s), Ok (found a (forget_closed (sa_user a) s)))
     else (forget_closed (sa_user a) s, raise TerminalLimitError "terminal limit reached")).
Proof.
  intros Hn. unfold reserve. destruct (ts_closing s); [done|]. rewrite pops_without by done.
  fold (closed_ids (sa_user a) s). fold (forget_closed (sa_user a) s).
  unfold fits, found, count, live, registered, book. by destruct (TERMINALS_PER_USER_MAX <=? _).
Qed.

Lemma found_owned a s oid : found a s = Some oid →
  ∃ key, owner_key a = Some key ∧ oid ∈ registered s ∧ owned s key oid.
Proof.
  unfold found, owner_key. destruct (sa_owner a) as [o|]; [|done].
  intros [Hin Hu]%find_some. exists (sa_user a, o). split_and!; [done|by apply list_elem_of_In|].
  unfold user_channel in Hu. destruct (ts_heap s !! oid) as [c|] eqn:E; [|done]. breflect.
  by exists c.
Qed.

Lemma owned_found a s key oid : owner_key a = Some key → oid ∈ registered s → owned s key oid →
  is_Some (found a s).
Proof.
  unfold found, owner_key. destruct (sa_owner a) as [o|]; [|done]. intros [= <-] Hin (c & Hc & Hu & Ho).
  destruct (List.find _ (registered s)) eqn:E; [by eexists|]. exfalso.
  pose proof (find_none _ _ E oid (proj1 (list_elem_of_In _ _) Hin)) as Hf.
  unfold user_channel in Hf. rewrite Hc in Hf. cbn in Hu, Ho.
  rewrite !bool_decide_true in Hf by done. done.
Qed.

Lemma holds_uncommitted user ths : count (by_user user uncommitted) ths <= count (by_user user holds) ths.
Proof.
  apply count_le. intros th _. unfold by_user. rewrite !andb_true_iff. intros [H1 H2]. split; [done|].
  by destruct (th_pc th).
Qed.

Lemma starting_book a user s : starting_count user (book a s)
  = starting_count user s + Z.b2z (bool_decide (sa_user a = user)).
Proof.
  unfold book, starting_count. cbn [set_starts ts_starting]. rewrite assoc_get_set.
  case_bool_decide as E; [subst user|]; cbn [Z.b2z]; lia.
Qed.

(** The channel to be replaced is live, so it frees one place. *)
Lemma kept_booked s ths i a l : ths !! i = Some {| th_args := a; th_pc := PReserve l |} →
  (∀ oid, oid ∈ registered s → user_channel (sa_user a) ch_closed s oid = false) →
  count (kept (sa_user a) (book a s) (<[i := {| th_args := a; th_pc := PConnect (found a s) |}]> ths))
    (registered s)
  <= count (live (sa_user a) s) (registered s) - match found a s with Some _ => 1 | None => 0 end.
Proof.
  intros Hi Hopen.
  pose proof (target_moved ths i a _ (PConnect (found a s)) Hi) as Ht. cbn [target] in Ht.
  destruct (found a s) as [r|] eqn:F.
  - apply Z.le_add_le_sub_r, (count_one_less _ _ r).
    + by apply found_owned in F as (_ & _ & ? & _).
    + apply found_owned in F as (key & Hk & Hr & c & Hc & Hu & _). apply Hopen in Hr.
      unfold live, user_channel in *. rewrite Hc in *. unfold owner_key in Hk.
      destruct (sa_owner a); [|done]. injection Hk as <-. cbn in Hu. rewrite bool_decide_true in * by done.
      cbn in Hr |- *. by rewrite Hr.
    + intros x _. unfold kept. rewrite andb_true_iff, negb_true_iff, bool_decide_eq_false.
      intros [L N]. split; [done|]. intros ->. by apply N, Ht.
  - rewrite Z.sub_0_r. apply count_le. intros x _. unfold kept. rewrite andb_true_iff. by intros [].
Qed.

Lemma inv_book s ths i a l : inv s ths → ths !! i = Some {| th_args := a; th_pc := PReserve l |} →
  (∀ oid, oid ∈ registered s → user_channel (sa_user a) ch_closed s oid = false) →
  fits a s = true →
  inv (book a s) (<[i := {| th_args := a; th_pc := PConnect (found a s) |}]> ths).
Proof.
  intros I Hi Hopen Hfit. set (pc' := PConnect (found a s)).
  pose proof (count_moved ths i a _ pc' Hi) as CM. constructor; try apply I.
  - intros th oid [-> |Hth]%elem_of_insert_list H; [done|by apply (inv_made _ _ I)].
  - intros th oid [-> |Hth]%elem_of_insert_list H; [|by apply (inv_target_user _ _ I)].
    cbn in H. apply found_owned in H as (key & Hk & _ & c & Hc & Hu & _). exists c.
    split; [done|]. unfold owner_key in Hk. destruct (sa_owner a); [|done]. by injection Hk as <-.
  - apply assoc_set_keys, I.
  - intros user. rewrite starting_book, CM, (inv_starting _ _ I). cbn. rewrite andb_false_r, andb_true_r.
    cbn. lia.
  - intros th key [-> |Hth]%elem_of_insert_list C K; [|by apply (inv_claims _ _ I th)].
    apply (inv_claims _ _ I _ key (thread_in _ _ _ _ Hi) eq_refl K).
  - by apply (exclusive_moved s ths i a _ pc' I Hi).
  - intros user. rewrite CM. change (uncommitted (PReserve l)) with false. change (uncommitted pc') with true.
    rewrite andb_false_r, andb_true_r. cbn [Z.b2z]. pose proof (inv_limit _ _ I user) as L.
    change (registered (book a s)) with (registered s). case_bool_decide as E; cbn [Z.b2z].
    + subst user. unfold fits in Hfit. breflect. rewrite (inv_starting _ _ I) in Hfit.
      pose proof (holds_uncommitted (sa_user a) ths). pose proof (kept_booked s ths i a l Hi Hopen).
      unfold pc'. lia.
    + change (kept user (book a s)) with (kept user s). pose proof (count_le _ _ (registered s) (fun x _ => kept_untargeted s ths i a _ pc' Hi user eq_refl x)).
      lia.
  - intros th key oid [-> |Hth]%elem_of_insert_list U K R O.
    + cbn in K |- *. destruct (owned_found a s key oid K R O) as [r Hr]. rewrite Hr. f_equal.
      destruct (found_owned _ _ _ Hr) as (key' & Hk' & Hin & Hown). rewrite K in Hk'. injection Hk' as <-.
      by apply (inv_owners _ _ I key).
    + by apply (inv_targets _ _ I th key).
Qed.

(** ** Committing *)

Lemma owned_made s ths th oid key : inv s ths → th ∈ ths → made (th_pc th) = Some oid →
  owned s key oid → owner_key (th_args th) = Some key.
Proof.
  intros I Hth Hm (c & Hc & Hu & Ho). destruct (inv_made _ _ I th oid Hth Hm) as (c' & Hc' & Hu' & Ho').
  rewrite Hc in Hc'. injection Hc' as <-. unfold owner_key. rewrite <- Ho', Ho, <- Hu', Hu.
  by destruct key.
Qed.

Definition register (s : tstate) (oid : nat) : tstate :=
  set_channels s (ts_channels s ++ [(id_of s oid, oid)]).

Lemma registered_register s oid : registered (register s oid) = registered s ++ [oid].
Proof. unfold registered, register. cbn. by rewrite map_app. Qed.

Section Register.
Context (s : tstate) (ths : list thread) (i : nat) (a : start_args).
Context (replaced : option nat) (sid oid : nat) (outcome : res TerminalStartResult).
Let pc := PReady replaced sid oid.
Let pc' := PRelease true outcome.
Let ths' := <[i := {| th_args := a; th_pc := pc' |}]> ths.
Hypothesis I : inv s ths.
Hypothesis Hi : ths !! i = Some {| th_args := a; th_pc := pc |}.
Hypothesis fresh : id_of s oid ∉ map fst (ts_channels s).
Hypothesis gone : ∀ r, replaced = Some r → r ∉ registered s.

(** The new channel takes the place of the reservation. *)
Lemma register_limit user :
  count (kept user (register s oid) ths') (registered (register s oid))
    + count (by_user user uncommitted) ths' <= TERMINALS_PER_USER_MAX.
Proof.
  unfold ths'. rewrite (count_moved ths i a pc pc' Hi). cbn [uncommitted pc pc'].
  rewrite andb_false_r, andb_true_r, registered_register, count_app, count_one.
  change (kept user (register s oid)) with (kept user s). fold ths'.
  assert (K : count (kept user s ths') (registered s) <= count (kept user s ths) (registered s)).
  { apply count_le. intros x Hx. unfold kept. rewrite !andb_true_iff, !negb_true_iff, !bool_decide_eq_false.
    intros [L N]. split; [done|].
    intros [E|E]%(targets_insert _ _ _ {| th_args := a; th_pc := pc' |} _ Hi); [done|].
    by apply (gone x). }
  pose proof (inv_limit _ _ I user) as L.
  destruct (inv_made _ _ I _ oid (thread_in _ _ _ _ Hi) eq_refl) as (c & Hc & Hu & _). cbn in Hu.
  assert (B : Z.b2z (kept user s ths' oid) <= Z.b2z (bool_decide (sa_user a = user))); [|cbn [Z.b2z] in *; lia].
  unfold kept, live, user_channel. rewrite Hc, Hu. case_bool_decide; [|cbn; lia].
  destruct (_ && _); cbn; lia.
Qed.

Lemma register_owners key o o' : o ∈ registered (register s oid) → o' ∈ registered (register s oid) →
  owned s key o → owned s key o' → o = o'.
Proof.
  rewrite registered_register, !elem_of_app, !list_elem_of_singleton.
  assert (N : ∀ x, x ∈ registered s → owned s key x → owned s key oid → False).
  { intros x Hx Ox On. pose proof (owned_made s ths _ oid key I (thread_in _ _ _ _ Hi) eq_refl On) as K.
    apply (gone x); [|done]. by apply (inv_targets _ _ I _ key x (thread_in _ _ _ _ Hi)). }
  intros [H| ->] [H'| ->] O O'; [by apply (inv_owners _ _ I key)|exfalso; eauto|exfalso; eauto|done].
Qed.

Lemma inv_register : inv (register s oid) ths'.
Proof.
  pose proof (thread_in _ _ _ _ Hi) as Hin.
  destruct (inv_made _ _ I _ oid Hin eq_refl) as (c & Hc & Hu & Ho).
  assert (Hid : id_of s oid = ch_id c) by (unfold id_of; by rewrite Hc).
  constructor; try apply I.
  - cbn. rewrite map_app. apply NoDup_app. split_and!; [apply I| |apply NoDup_singleton].
    intros x Hx ->%list_elem_of_singleton. done.
  - intros tid o [H|H%list_elem_of_singleton]%elem_of_app; [by apply (inv_ids _ _ I)|].
    injection H as -> ->. by exists c.
  - intros th o [-> |Hth]%elem_of_insert_list H; [done|by apply (inv_made _ _ I)].
  - intros th o [-> |Hth]%elem_of_insert_list H; [done|by apply (inv_target_user _ _ I)].
  - intros user. unfold ths'. rewrite (count_moved ths i a pc pc' Hi).
    transitivity (count (by_user user holds) ths); [apply (inv_starting _ _ I)|]. cbn [holds pc pc']. lia.
  - intros th key [-> |Hth]%elem_of_insert_list C K; [|by apply (inv_claims _ _ I th)].
    apply (inv_claims _ _ I _ key Hin eq_refl K).
  - by apply (exclusive_moved s ths i a pc pc' I Hi).
  - apply register_limit.
  - apply register_owners.
  - intros th key o (j & Hj)%list_elem_of_lookup U K R O.
    apply (lookup_moved ths i a pc pc' Hi) in Hj as [[_ ->]|[Nj Hj]]; [done|].
    rewrite registered_register in R. apply elem_of_app in R as [R| ->%list_elem_of_singleton].
    + by apply (inv_targets _ _ I th key); [eapply list_elem_of_lookup_2| | | |].
    + exfalso. apply Nj. pose proof (owned_made s ths _ oid key I Hin eq_refl O) as Ka.
      eapply (inv_exclusive _ _ I j i th _ key); eauto. by destruct (th_pc th).
Qed.
End Register.

Lemma calm_registered_sub s s' oid : calm s s' → oid ∈ registered s' → oid ∈ registered s.
Proof. intros C H. eapply elem_of_sublist; [exact H|by apply registered_calm]. Qed.

(** The replaced channel is registered exactly when its entry names it. *)
Lemma still_registered_spec s ths r : inv s ths →
  still_registered (Some r) s = if bool_decide (r ∈ registered s) then Some r else None.
Proof.
  intros I. unfold still_registered. case_bool_decide as E.
  - apply registered_elem in E as (tid & Hin). destruct (inv_ids _ _ I tid r Hin) as (c & Hc & Hid).
    unfold id_of. rewrite Hc, Hid, (assoc_get_elem tid r); [by rewrite bool_decide_true|apply I|done].
  - destruct (assoc_get _ _) as [r'|] eqn:G; [|done]. case_bool_decide as Er; [|done]. subst r'.
    exfalso. apply E, registered_elem. eexists. by apply assoc_get_in.
Qed.

Lemma popped_gone s ths r : inv s ths → r ∉ registered (pop_channel (id_of s r) s).
Proof.
  intros I (tid & H)%registered_elem. cbn in H. rewrite assoc_pop_without in H by apply I.
  apply elem_of_without in H as [H N]. apply N, list_elem_of_singleton.
  destruct (inv_ids _ _ I tid r H) as (c & Hc & Hid). cbn. unfold id_of. by rewrite Hc, Hid.
Qed.

Lemma inv_commit s ths i a replaced sid oid s' result : inv s ths →
  ths !! i = Some {| th_args := a; th_pc := PReady replaced sid oid |} →
  commit replaced oid s = (s', Ok result) →
  inv s' (<[i := {| th_args := a; th_pc := PRelease true (Ok result) |}]> ths).
Proof.
  intros I Hi. unfold commit. destruct (ts_closing s); [done|].
  destruct (assoc_get (id_of s oid) (ts_channels s)) as [o|] eqn:G; [done|]. intros H.
  set (old := still_registered replaced s) in H.
  set (s1 := match old with Some r => pop_channel (id_of s r) s | None => s end) in H.
  assert (C1 : calm s s1) by (unfold s1; destruct old; [apply calm_pop|apply calm_refl]).
  assert (Hheap : ts_heap s1 = ts_heap s) by (unfold s1; by destruct old).
  assert (Hgone : ∀ r, replaced = Some r → r ∉ registered s1).
  { intros r ->. unfold s1, old. rewrite (still_registered_spec s ths r I).
    case_bool_decide as E; [by apply (popped_gone s ths)|done]. }
  assert (Hfresh : id_of s1 oid ∉ map fst (ts_channels s1)).
  { unfold id_of. rewrite Hheap. apply assoc_get_none in G. intros E. apply G.
    destruct C1 as (_ & _ & Hs & _). eapply elem_of_sublist; [exact E|by apply sublist_map]. }
  pose proof (inv_register s1 ths i a replaced sid oid (Ok result) (inv_calm _ _ _ C1 I) Hi Hfresh Hgone) as R.
  assert (Hid : id_of s1 oid = id_of s oid) by (unfold id_of; by rewrite Hheap).
  rewrite assoc_set_fresh in H by by rewrite <- Hid. rewrite <- Hid in H. fold (register s1 oid) in H.
  cbv zeta in H. injection H as <- <-. eapply inv_calm; [|exact R].
  eapply (calm_trans _ (update_channel oid _ (register s1 oid)));
    [apply (calm_status _ _ (fun c => with_status c (ch_closed c) (ch_available c) ReaderRunning (ch_activity c)));
     intros c; eexists _, _, _, _; by split|].
  destruct old; [by apply calm_heap|apply calm_refl].
Qed.

(** ** Releasing *)

Lemma starting_release user user' s : NoDup (map fst (ts_starting s)) → 0 < starting_count user s →
  ∃ s', release_reservation user s = Ok s'
    ∧ s' = set_starts s (ts_starting s') (ts_owners s)
    ∧ NoDup (map fst (ts_starting s'))
    ∧ starting_count user' s' = starting_count user' s - Z.b2z (bool_decide (user = user')).
Proof.
  intros Hn Hp. unfold release_reservation. rewrite (proj2 (Z.leb_gt _ _)) by done.
  cbn [negb guard res_bind]. eexists. split; [done|]. split; [done|].
  cbn [set_starts ts_starting]. destruct (Z.eqb_spec (starting_count user s) 1) as [E|E].
  - rewrite assoc_pop_without by done. split; [by apply without_NoDup|].
    unfold starting_count in *. cbn [set_starts ts_starting]. rewrite assoc_get_without.
    destruct (decide (user = user')) as [<-|N].
    + rewrite !bool_decide_true by done. cbn [Z.b2z]. lia.
    + rewrite !bool_decide_false by congruence. cbn [Z.b2z]. lia.
  - split; [by apply assoc_set_keys|]. unfold starting_count at 1. cbn [set_starts ts_starting].
    rewrite assoc_get_set. case_bool_decide as Eu; [subst user'; cbn [Z.b2z]; lia|].
    unfold starting_count. cbn [Z.b2z]. lia.
Qed.

Section Release.
Context (s : tstate) (ths : list thread) (i : nat) (a : start_args).
Context (held : bool) (outcome outcome' : res TerminalStartResult).
Hypothesis I : inv s ths.
Hypothesis Hi : ths !! i = Some {| th_args := a; th_pc := PRelease held outcome |}.
Let pc' := PDone outcome'.

Lemma release_count : held = true → 0 < starting_count (sa_user a) s.
Proof.
  intros ->. rewrite (inv_starting _ _ I).
  pose proof (count_moved ths i a _ pc' Hi (sa_user a) holds) as C. cbn [holds pc'] in C.
  rewrite bool_decide_true in C by done. cbn in C.
  pose proof (count_nonneg (by_user (sa_user a) holds) (<[i := {| th_args := a; th_pc := pc' |}]> ths)). lia.
Qed.

(** What the release must leave behind. *)
Lemma inv_released starting owners :
  NoDup (map fst starting) →
  (∀ user, starting_count user (set_starts s starting owners)
     = starting_count user s - Z.b2z (bool_decide (sa_user a = user) && held)) →
  (∀ key, key ∈ ts_owners s → owner_key a ≠ Some key → key ∈ owners) →
  inv (set_starts s starting owners) (<[i := {| th_args := a; th_pc := pc' |}]> ths).
Proof.
  intros Hn Hs Ho. constructor; try apply I.
  - intros th o [-> |Hth]%elem_of_insert_list H; [done|by apply (inv_made _ _ I)].
  - intros th o [-> |Hth]%elem_of_insert_list H; [done|by apply (inv_target_user _ _ I)].
  - done.
  - intros user. rewrite Hs, (count_moved ths i a _ pc' Hi), (inv_starting _ _ I).
    cbn [holds pc']. rewrite andb_false_r. cbn [Z.b2z]. destruct held; lia.
  - intros th key (j & Hj)%list_elem_of_lookup C K.
    apply (lookup_moved ths i a _ pc' Hi) in Hj as [[_ ->]|[Nj Hj]]; [done|].
    apply Ho; [by apply (inv_claims _ _ I th); [eapply list_elem_of_lookup_2| |]|].
    intros Ka. apply Nj. by eapply (inv_exclusive _ _ I j i th _ key).
  - by apply (exclusive_moved s ths i a _ pc' I Hi).
  - intros user. rewrite (count_moved ths i a _ pc' Hi). cbn [uncommitted pc']. rewrite andb_false_r.
    cbn [Z.b2z]. pose proof (inv_limit _ _ I user).
    pose proof (count_le _ _ (registered s) (fun x _ => kept_untargeted s ths i a _ pc' Hi user eq_refl x)).
    change (registered (set_starts s starting owners)) with (registered s).
    change (kept user (set_starts s starting owners)) with (kept user s). lia.
  - intros th key o [-> |Hth]%elem_of_insert_list U K; [done|].
    apply (inv_targets _ _ I th key o Hth U K).
Qed.

Lemma release_owner_ok key s1 : owner_key a = Some key → ts_owners s1 = ts_owners s →
  ∃ s2, release_owner key s1 = Ok s2 ∧ s2 = set_starts s1 (ts_starting s1) (ts_owners s2)
    ∧ (∀ k, k ∈ ts_owners s → k ≠ key → k ∈ ts_owners s2).
Proof.
  intros K E. unfold release_owner. rewrite E.
  pose proof (inv_claims _ _ I _ key (thread_in _ _ _ _ Hi) eq_refl K) as Hin.
  rewrite bool_decide_true by done. cbn [guard res_bind]. eexists. split; [done|]. split; [done|].
  intros k Hk N. cbn. apply list_elem_of_In, filter_In. split; [by apply list_elem_of_In|].
  by rewrite bool_decide_false.
Qed.

(** Releasing always succeeds. *)
Lemma inv_release : ∃ s', release_start_state a held s = (s', Ok tt)
  ∧ inv s' (<[i := {| th_args := a; th_pc := pc' |}]> ths).
Proof.
  assert (R : ∃ starting, (if held then release_reservation (sa_user a) s else Ok s)
                = Ok (set_starts s starting (ts_owners s))
              ∧ NoDup (map fst starting)
              ∧ ∀ user owners, starting_count user (set_starts s starting owners)
                  = starting_count user s - Z.b2z (bool_decide (sa_user a = user) && held)).
  { pose proof (inv_start_keys _ _ I) as Hn. pose proof release_count as Hp. destruct held.
    - destruct (starting_release (sa_user a) [] s Hn (Hp eq_refl)) as (s1 & E & E1 & N1 & _).
      exists (ts_starting s1). rewrite E, <- E1. split_and!; try done. intros user owners.
      destruct (starting_release (sa_user a) user s Hn (Hp eq_refl)) as (s2 & E2 & _ & _ & S2).
      rewrite E in E2. injection E2 as <-. by rewrite andb_true_r.
    - exists (ts_starting s). split_and!; try done; [by destruct s|]. intros user owners.
      rewrite andb_false_r. cbn. unfold starting_count. cbn. lia. }
  destruct R as (starting & E & Hn & Hs). unfold release_start_state. rewrite E.
  destruct (owner_key a) as [key|] eqn:K.
  - destruct (release_owner_ok key (set_starts s starting (ts_owners s)) K eq_refl) as (s2 & -> & Es2 & Ho).
    exists s2. split; [done|]. rewrite Es2. apply inv_released; [done|by intros|].
    intros k Hk N. apply Ho; [done|]. congruence.
  - eexists. split; [done|]. apply inv_released; [done|by intros|done].
Qed.
End Release.

(** ** Every step keeps the invariant *)

Lemma new_channel_ok cf a id sid now : buffer_ok (new_channel cf a id sid now).
Proof.
  exists []. unfold represents, OUTPUT_BUFFER_BYTES_MAX, OUTPUT_EVENT_COUNT_MAX. cbn.
  split_and!; try done; lia.
Qed.

Lemma calm_reap cf now s : calm s (reap_pop cf now s).
Proof.
  apply calm_heap; try done. unfold reap_pop. cbn [set_channels ts_channels].
  generalize (stale_channels cf now s) as l. intros l.
  enough (G : ∀ k, sublist (fold_left (fun l oid => assoc_pop (id_of s oid) l) l k) k) by apply G.
  induction l as [|o l IH]; intros k; cbn [fold_left]; [done|].
  etransitivity; [apply IH|apply assoc_pop_sublist].
Qed.

Lemma calm_alloc s c : buffer_ok c → calm s (set_heap s (ts_heap s ++ [c])).
Proof.
  intros Hc. split_and!; try done; cbn.
  - intros oid x Hx. exists x. split; [by apply lookup_app_l_Some|apply channel_later_refl].
  - intros H. by apply Forall_snoc.
Qed.

Lemma attach_spec fr cf a sid line fresh now s :
  calm s (attach fr cf a sid line fresh now s).1
  ∧ ∀ oid, (attach fr cf a sid line fresh now s).2 = Ok oid →
      ∃ c, ts_heap (attach fr cf a sid line fresh now s).1 !! oid = Some c
        ∧ ch_user c = sa_user a ∧ ch_owner c = sa_owner a.
Proof.
  unfold attach. cbv zeta. destruct (res_bind _ _); [|split; [apply calm_refl|done]].
  set (new := new_channel cf a fresh sid now). set (s1 := set_heap s _). set (message := [_; _; _]).
  assert (C : calm s s1) by apply calm_alloc, new_channel_ok.
  pose proof (calm_write_line s1 (length (ts_heap s)) message) as Cw.
  assert (Hh : ts_heap (write_line (length (ts_heap s)) message s1).1 = ts_heap s1)
    by (unfold write_line, st_bind, st_lift; by destruct (encode_line message)).
  destruct (write_line _ message s1) as [s2 [u0|e]]; cbn [fst snd] in *; (split; [by eapply calm_trans|]).
  - intros oid [= <-]. exists new. rewrite Hh. cbn.
    by rewrite lookup_app_r, Nat.sub_diag.
  - done.
Qed.

Lemma calm_receive fr a oid line now s : calm s (receive_ready fr a oid line now s).1.
Proof.
  unfold receive_ready. cbv zeta. destruct (res_bind _ _) as [es|]; [|apply calm_refl].
  destruct (ts_heap s !! oid) as [c|] eqn:E; [|apply calm_refl].
  pose proof (append_events_later es c now) as L. destruct (append_events c es now) as [c' r].
  apply calm_update. intros x Hx. rewrite E in Hx. by injection Hx as <-.
Qed.

Lemma calm_discard s sid e pc s' : discard sid e s = Some (pc, s') → pc = PDiscard sid e ∧ calm s s'.
Proof. intros [= <- <-]. split; [done|apply calm_writer_close]. Qed.

Lemma inv_step_calm s s' ths i a pc pc' : inv s ths → ths !! i = Some {| th_args := a; th_pc := pc |} →
  calm s s' → holds pc' = holds pc → claimed pc' = claimed pc →
  (uncommitted pc' = uncommitted pc ∧ target pc' = target pc)
    ∨ (uncommitted pc = true ∧ uncommitted pc' = false) →
  (∀ oid, made pc' = Some oid → made pc = Some oid ∨ ∃ c, ts_heap s' !! oid = Some c
     ∧ ch_user c = sa_user a ∧ ch_owner c = sa_owner a) →
  inv s' (<[i := {| th_args := a; th_pc := pc' |}]> ths).
Proof.
  intros I Hi C H1 H2 H3 H4. pose proof (inv_calm _ _ _ C I) as I'.
  apply (inv_move s' ths i a pc pc' I' Hi H1 H2 H3). intros oid Hm.
  destruct (H4 oid Hm) as [Hp|H]; [|done]. apply (inv_made _ _ I' _ oid (thread_in _ _ _ _ Hi) Hp).
Qed.

Lemma inv_reserve s ths i a l pc' s' : inv s ths →
  ths !! i = Some {| th_args := a; th_pc := PReserve l |} →
  match reserve a s with
  | (s', Ok replaced) => Some (PConnect replaced, s')
  | (s', Raise e) => Some (PRelease false (Raise e), s')
  end = Some (pc', s') →
  inv s' (<[i := {| th_args := a; th_pc := pc' |}]> ths).
Proof.
  intros I Hi. rewrite reserve_eq by apply I. pose proof (calm_forget (sa_user a) s) as C.
  destruct (ts_closing s).
  { intros [= <- <-]. eapply inv_step_calm; eauto using calm_refl. }
  destruct (fits a _) eqn:F; intros [= <- <-].
  - eapply inv_book; [by eapply inv_calm|done| |done]. intros oid H. by apply forget_closed_spec in H.
  - eapply inv_step_calm; eauto.
Qed.

Lemma inv_start_step fr cf s ths i a pc x pc' s' : inv s ths →
  ths !! i = Some {| th_args := a; th_pc := pc |} →
  start_step fr cf a pc x s = Some (pc', s') →
  inv s' (<[i := {| th_args := a; th_pc := pc' |}]> ths).
Proof.
  intros I Hi H.
  assert (D : ∀ sid e s0, uncommitted pc = true → calm s s0 → discard sid e s0 = Some (pc', s') →
    inv s' (<[i := {| th_args := a; th_pc := pc' |}]> ths)).
  { intros sid e s0 U C0 [-> C]%calm_discard. eapply inv_step_calm; eauto using calm_trans.
    all: by destruct pc. }
  destruct pc, x; cbn [start_step] in H; try done;
    try (injection H as <- <-; eapply inv_step_calm; eauto using calm_refl, calm_reap, calm_touch; done);
    try (eapply D; eauto using calm_refl; done).
  - destruct (owner_key a) as [key|] eqn:K; [|done].
    destruct (claim_owner_start key s) as [s1|] eqn:E; [|done]. injection H as <- <-. by eapply inv_claim.
  - destruct (forallb _ _); [|done]. by eapply inv_reserve.
  - injection H as <- <-. eapply inv_step_calm; eauto. by apply calm_heap.
  - pose proof (attach_spec fr cf a sid line fresh now s) as [C M].
    destruct (attach _ _ _ _ _ _ _ _) as [s1 [oid|e]]; [|by eapply D].
    injection H as <- <-. eapply inv_step_calm; eauto. intros o [= <-]. right. by apply M.
  - pose proof (calm_receive fr a oid line now s) as C.
    destruct (receive_ready _ _ _ _ _ _) as [s1 [u0|e]]; [|by eapply D]. cbn [fst] in C.
    destruct (commit replaced oid s1) as [s2 [result|e]] eqn:Ec.
    + injection H as <- <-. eapply inv_commit; [by eapply inv_calm|done|done].
    + eapply D; [done| |done]. unfold commit in Ec. destruct (ts_closing s1); [by injection Ec as <- <-|].
      destruct (assoc_get _ _); [by injection Ec as <- <-|done].
  - injection H as <- <-. eapply inv_step_calm; eauto. apply calm_writer_close.
  - destruct (inv_release s ths i a reservation_held outcome outcome I Hi) as (s1 & E & I1).
    rewrite E in H. by injection H as <- <-.
  - destruct (caught e _); [|done]. injection H as <- <-. eapply inv_step_calm; eauto using calm_refl; done.
Qed.

Lemma inv_initial : inv initial [].
Proof.
  constructor; cbn; try (intros; by match goal with H : _ ∈ [] |- _ => apply elem_of_nil in H end);
    try constructor; try done.
Qed.

Lemma reachable_inv fr cf w : wreach fr cf w → inv (w_state w) (w_starts w).
Proof.
  induction 1 as [|w w' _ IH St]; [apply inv_initial|]. destruct St; cbn [w_state w_starts] in *.
  - by apply inv_spawn.
  - by eapply inv_start_step.
  - eapply inv_calm; [apply calm_call|done].
Qed.

(** ** Live channels against reservations *)

Lemma count_extra {A} `{EqDecision A} (f g : A → bool) (T l : list A) : NoDup l →
  (∀ x, x ∈ l → f x = true → g x = true ∨ x ∈ T) → count f l <= count g l + zlen T.
Proof.
  intros Hl. revert f. induction T as [|r T IH]; intros f H.
  - rewrite zlen_nil, Z.add_0_r. apply count_le. intros x Hx Hf.
    destruct (H x Hx Hf) as [|E]; [done|by apply elem_of_nil in E].
  - rewrite zlen_cons. pose proof (IH (fun x => g x || bool_decide (x ∈ T))) as IH'.
    assert (count (fun x => g x || bool_decide (x ∈ T)) l <= count g l + zlen T).
    { apply IH'. intros x _ [->|E]%orb_true_iff; [by left|]. apply bool_decide_eq_true in E. by right. }
    assert (count f l <= count (fun x => g x || bool_decide (x ∈ T)) l + 1); [|lia].
    apply (count_one_more _ _ r); [done|]. intros x Hx Hf. rewrite orb_true_iff, bool_decide_eq_true.
    destruct (H x Hx Hf) as [|E]; [by left; left|]. apply elem_of_cons in E as [->|E]; auto.
Qed.

Lemma live_bounded s ths user : inv s ths → count (live user s) (registered s) <= TERMINALS_PER_USER_MAX.
Proof.
  intros I. pose proof (inv_limit _ _ I user) as L.
  set (T := omap (fun th => target (th_pc th)) (List.filter (by_user user uncommitted) ths)).
  assert (HT : zlen T <= count (by_user user uncommitted) ths).
  { unfold count, T. generalize (List.filter (by_user user uncommitted) ths) as l.
    induction l as [|th l IH]; [done|]. cbn [omap list_omap]. rewrite zlen_cons. unfold omap in *.
    destruct (target (th_pc th)); rewrite ?zlen_cons; lia. }
  assert (count (live user s) (registered s) <= count (kept user s ths) (registered s) + zlen T); [|lia].
  apply count_extra; [apply registered_NoDup; apply I|]. intros x Hx Hl. unfold kept.
  rewrite Hl. destruct (decide (x ∈ targets ths)) as [E|E]; [right|left; by rewrite bool_decide_false].
  apply targets_elem in E as (th & Hth & Ht). apply list_elem_of_omap. exists th. split; [|done].
  apply list_elem_of_In, filter_In. split; [by apply list_elem_of_In|].
  destruct (inv_target_user _ _ I th x Hth Ht) as (c & Hc & Hu). unfold live, user_channel in Hl.
  rewrite Hc in Hl. breflect. unfold by_user. rewrite bool_decide_true by congruence. by destruct (th_pc th).
Qed.

(** ** Output that cannot be journaled *)

Lemma forall_repeat {A} (P : A → Prop) x n : P x → Forall P (repeat x n).
Proof. intros H. induction n; cbn; by constructor. Qed.

Lemma esc_char_len c : zlen (esc_char true c) <= 12.
Proof. unfold esc_char. repeat case_match; rewrite ?zlen_app; unfold zlen; cbn; lia. Qed.

Lemma esc_str_len s : zlen (esc_str true s) <= 12 * zlen s.
Proof.
  induction s as [|c s IH]; [done|]. cbn [esc_str flat_map]. fold (esc_str true s).
  rewrite zlen_app, zlen_cons. pose proof (esc_char_len c). lia.
Qed.

Lemma utf8_len_ge s b : utf8_encode s = Ok b → zlen s <= zlen b.
Proof.
  revert b. induction s as [|c s IH]; intros b H; cbn [utf8_encode] in H; inv_ok; [done|].
  rewrite zlen_app, zlen_cons. pose proof (utf8_char_len c). pose proof (IH _ eq_refl). lia.
Qed.

Lemma literals_nonneg t : forallb (Z.leb 0) t = true → Forall (fun c => 0 <= c) t.
Proof.
  intros H. apply forallb_Forall in H. eapply Forall_impl; [exact H|]. intros x Hx. by apply Z.leb_le in Hx.
Qed.

(** The line the sidecar sends for one output message. *)
Definition output_line (text : pystr) : pybytes := dumps true false (JObj (TERMINAL_DATA text)) ++ [10].

Lemma output_line_text s : output_line s =
  (123 :: ((dump_str true (u"type") ++ 58 :: dump_str true (u"terminal_data"))
           ++ 44 :: dump_str true (u"data") ++ 58 :: dump_str true s) ++ [125]) ++ [10].
Proof. reflexivity. Qed.

Lemma output_line_ascii s : Forall (fun c => 0 <= c) s → Forall (fun c => 0 <= c < 128) (output_line s).
Proof.
  intros Hs. rewrite output_line_text. apply Forall_snoc. split; [|lia]. apply ascii_bytes.
  repeat first [by apply dump_str_ascii, literals_nonneg | by apply dump_str_ascii | constructor; [lia|]
               | apply Forall_app; split | by constructor].
Qed.

Lemma decode_output_line fr text : encodes_within 20000 text →
  decode_message fr (output_line text) = Ok (TERMINAL_DATA text).
Proof.
  intros (b & Hb & Hl). pose proof (proj2 (utf8_encode_scalar text) (ex_intro _ b Hb)) as Hs.
  pose proof (scalar_nonneg _ Hs) as Hn. unfold decode_message.
  assert (L : zlen (output_line text) <= 8 * 1024 * 1024).
  { rewrite output_line_text. unfold dump_str.
    repeat first [rewrite zlen_cons | rewrite zlen_app | rewrite zlen_nil].
    change (zlen (esc_str true (u"data"))) with 4. change (zlen (esc_str true (u"type"))) with 4.
    change (zlen (esc_str true (u"terminal_data"))) with 13.
    pose proof (esc_str_len text). pose proof (utf8_len_ge _ _ Hb). lia. }
  rewrite (bool_decide_false (output_line text = [])) by (rewrite output_line_text; done).
  rewrite (proj2 (Z.leb_le _ _) L). cbn [negb andb guard res_bind].
  rewrite (utf8_round_trip (output_line text)) by apply utf8_encode_ascii, output_line_ascii, Hn.
  cbn [res_bind]. unfold output_line.
  rewrite loads_dumps_line; [done|apply dict_of_pairs_nodup| |by right].
  cbn [json_ok TERMINAL_DATA forallb fst snd dict_keys map]. rewrite bool_decide_true.
  - change (str_ok true (u"type")) with true. change (str_ok true (u"data")) with true.
    change (str_ok true (u"terminal_data")) with true. change (str_ok true text) with (forallb is_scalar text). by rewrite Hs.
  - apply NoDup_cons. split; [|apply NoDup_singleton]. rewrite list_elem_of_singleton. done.
Qed.

Lemma split_single text b : utf8_encode text = Ok b → zlen b <= 20000 →
  split_terminal_data text = Ok [TERMINAL_DATA text].
Proof.
  intros Hb Hl. unfold split_terminal_data.
  enough (G : ∀ data current cb, utf8_encode (current ++ data) = Ok cb → zlen cb <= 20000 →
    ∀ c0, utf8_encode current = Ok c0 →
    split_loop data current (zlen c0) [] = Ok [TERMINAL_DATA (current ++ data)]).
  { apply (G text [] b Hb Hl []). done. }
  clear. induction data as [|c data IH]; intros current cb Hcb Hl c0 H0; cbn [split_loop].
  - rewrite app_nil_r. by rewrite orb_true_r.
  - apply utf8_encode_app in Hcb as Hs. destruct Hs as (x & y & Hx & Hy & ->).
    rewrite H0 in Hx. injection Hx as <-. cbn [utf8_encode] in Hy. inv_ok.
    rewrite utf8_encode_one by done. cbn [res_bind]. rewrite !zlen_app in Hl.
    pose proof (zlen_nonneg a0). rewrite (proj2 (Z.ltb_ge 20000 _)) by lia. rewrite andb_false_r.
    rewrite <- zlen_app, (IH (current ++ [c]) (c0 ++ utf8_char c ++ a0)).
    + by rewrite <- app_assoc.
    + by rewrite <- app_assoc.
    + rewrite !zlen_app. lia.
    + by apply utf8_encode_snoc.
Qed.

(** ** Properties *)

(** C12. The buffer of a channel is a bounded window on the history of its
    output: in every reachable state each channel holds the last events of some
    history under their true positions, within 1,000 events and 1 MiB with an
    exact byte count; appending an event of at most 24,000 bytes extends that
    history by exactly this event, and any other event is refused. *)
Theorem terminal_append_refines (fr : pystr → pystr) (cf : config) (w : world) (oid : nat) (c : channel) :
  wreach fr cf w → ts_heap (w_state w) !! oid = Some c →
  ∃ H, represents H c ∧ ∀ event now,
    match serialized_bytes event with
    | Ok n =>
        if n <=? OUTPUT_EVENT_BYTES_MAX
        then ∃ c', append_event c event now = Ok c' ∧ represents (H ++ [event]) c'
        else append_event c event now = raise ValueError "terminal event exceeds the byte limit"
    | Raise e => append_event c event now = Raise e
    end.
Proof.
  intros R Hc. apply reachable_inv in R. pose proof (inv_buffers _ _ R) as B.
  eapply Forall_lookup in B; [|exact Hc]. destruct B as [H B]. exists H. split; [done|].
  intros event now. pose proof (append_represents H c event now B) as A.
  destruct (serialized_bytes event); [|done]. destruct (_ <=? _); [|done].
  destruct A as (c' & ? & ? & _). by exists c'.
Qed.

(** A page of [events] is the segment of the channel's history at the
    cursor: it is never empty when there is something to read, has at most 100
    events and 48,000 bytes and moves the cursor past exactly what it returns;
    a cursor before the retained window is reported as expired and a cursor
    ahead of the journal as an error. *)
Theorem terminal_pages_exact (H : list dict) (c : channel) (tid : pystr) (cursor : Z) :
  represents H c →
  (cursor < earliest c →
   read_page tid c cursor = raise TerminalCursorExpiredError "terminal output cursor expired")
  ∧ (zlen H < cursor →
     read_page tid c cursor = raise ValueError "terminal output cursor is ahead of the journal")
  ∧ (earliest c <= cursor <= zlen H →
     ∃ b n, read_page tid c cursor = Ok b
       ∧ tb_events b = take n (drop (Z.to_nat cursor) H)
       ∧ tb_next b = cursor + Z.of_nat n ∧ tb_next b <= zlen H
       ∧ Z.of_nat n <= EVENT_BATCH_COUNT_MAX
       ∧ (∃ es, map en_event es = tb_events b ∧ Forall entry_ok es
            ∧ total_bytes es <= EVENT_BATCH_BYTES_MAX)
       ∧ (cursor < zlen H → (0 < n)%nat)).
Proof.
  intros R. pose proof (read_page_spec H c tid cursor R) as [E P].
  assert (earliest c <= zlen H).
  { destruct R as (Hn & _). unfold earliest. pose proof (zlen_nonneg (ch_events c)). lia. }
  split_and!.
  - intros L. rewrite E. by rewrite (proj2 (Z.ltb_lt _ _) L).
  - intros L. rewrite E. rewrite (proj2 (Z.ltb_ge _ _)) by lia. by rewrite (proj2 (Z.ltb_lt _ _) L).
  - intros L. destruct (P L) as (b & n & ? & ? & Hn & ? & ? & ? & ? & _). exists b, n.
    split_and!; try done. by rewrite Hn.
Qed.

(** C11. In every interleaving of the journal's tasks a user has at most eight
    live registered terminals, terminal ids are unique, and a tab owner has at
    most one registered terminal. *)
Theorem terminal_table_safe (fr : pystr → pystr) (cf : config) (w : world) :
  wreach fr cf w →
  (∀ user, count (live user (w_state w)) (registered (w_state w)) <= TERMINALS_PER_USER_MAX)
  ∧ NoDup (map fst (ts_channels (w_state w)))
  ∧ (∀ key oid oid', oid ∈ registered (w_state w) → oid' ∈ registered (w_state w) →
       owned (w_state w) key oid → owned (w_state w) key oid' → oid = oid').
Proof.
  intros R%reachable_inv. split; [|split]; [intros user; by eapply live_bounded|apply R|].
  intros key. apply (inv_owners _ _ R).
Qed.

(** Reservations are accounted for exactly: the starting count of a user
    is the number of starts that hold a reservation, and a start that ends,
    whatever its outcome, always finds its reservation and its tab owner to
    release. *)
Theorem terminal_release_succeeds (fr : pystr → pystr) (cf : config) (w : world) :
  wreach fr cf w →
  (∀ user, starting_count user (w_state w) = count (by_user user holds) (w_starts w))
  ∧ (∀ i a held outcome, w_starts w !! i = Some {| th_args := a; th_pc := PRelease held outcome |} →
     ∃ s', release_start_state a held (w_state w) = (s', Ok tt)).
Proof.
  intros R%reachable_inv. split; [apply R|]. intros i a held outcome Hi.
  destruct (inv_release _ _ i a held outcome outcome R Hi) as (s' & E & _). by exists s'.
Qed.

(** Splitting output loses nothing: the chunks of [_split_terminal_data]
    concatenate to the text, each has at most 20,000 bytes and none is empty
    unless the text is; a text with a lone surrogate is refused. *)
Theorem split_reassembles (data : pystr) :
  (∃ chunks, split_terminal_data data = Ok (map TERMINAL_DATA chunks)
     ∧ concat chunks = data ∧ Forall (encodes_within 20000) chunks
     ∧ (data ≠ [] → Forall (fun c => c ≠ []) chunks))
  ∨ (forallb is_scalar data = false
     ∧ ∃ e, split_terminal_data data = Raise e ∧ exn_class e = UnicodeEncodeError).
Proof.
  destruct (forallb is_scalar data) eqn:Hs.
  - left. destruct (split_loop_spec data [] [] [] Hs eq_refl) as (new & E & C & F & N); [by cbn|].
    exists new. cbn in *. done.
  - right. split; [done|]. by apply split_loop_error.
Qed.

(** A single message of terminal output that is within the chunk size but
    rich in escape characters cannot be journaled: every ESC costs six bytes
    once serialized, the event is refused, and the reader task closes the
    terminal with a disconnection error and without the output. *)
Theorem escape_rich_output_closes (fr : pystr → pystr) (s : tstate) (oid : nat) (c : channel)
    (H : list dict) (text : pystr) (now : Z) :
  ts_heap s !! oid = Some c → represents H c → encodes_within 20000 text →
  OUTPUT_EVENT_BYTES_MAX - 34 < zlen text + 5 * count (fun x => x =? 27) text →
  ∃ s' c', read_segment fr oid (ReadLine (output_line text)) now s = (s', Ok false)
    ∧ ts_heap s' !! oid = Some c' ∧ ch_closed c' = true ∧ represents (H ++ [DISCONNECTED]) c'.
Proof.
  intros Hc R We Hn. pose proof We as (b & Hb & Hl).
  pose proof (scalar_nonneg _ (proj2 (utf8_encode_scalar text) (ex_intro _ b Hb))) as Hp.
  pose proof (esc_str_controls text _ Hp eq_refl) as Hesc. fold (count (fun x => x =? 27) text) in Hesc.
  pose proof (append_represents H c DISCONNECTED now R) as A.
  change (serialized_bytes DISCONNECTED) with (Ok 56 : res Z) in A. cbn in A.
  destruct A as (c1 & A & R1 & _).
  assert (T : read_caught fr c (ReadLine (output_line text)) now = (c1, Ok false)).
  { unfold read_caught, read_turn. rewrite decode_output_line by done.
    rewrite output_line_text at 1. cbn [app].
    change (has_str (TERMINAL_DATA text) (u"type") (u"init_status")) with false.
    change (split_event (TERMINAL_DATA text)) with (split_terminal_data text).
    rewrite (split_single text b Hb Hl). cbn [append_events]. unfold append_event at 1.
    rewrite terminal_data_bytes by done. cbn [res_bind]. rewrite (proj2 (Z.leb_gt _ _)) by lia.
    cbn [guard res_bind raise]. change (caught _ READER_CATCHES) with true. cbn. by rewrite A. }
  unfold read_segment. rewrite Hc, T. eexists _, (with_status c1 true true (ch_reader c1) (ch_activity c1)).
  split; [done|]. cbn. rewrite list_lookup_alter_eq, list_lookup_alter_eq, Hc. by split_and!.
Qed.

(** ** Witnesses *)

(** Scripts of steps, for concrete reachable states. *)
Inductive action := ACall (a : start_args) | AStart (i : nat) (x : start_input) | AOp (c : tcall).

Definition run_action (fr : pystr → pystr) (cf : config) (w : world) (act : action) : option world :=
  match act with
  | ACall a =>
      match start_call a with
      | Ok pc => Some {| w_state := w_state w; w_starts := w_starts w ++ [{| th_args := a; th_pc := pc |}] |}
      | Raise _ => None
      end
  | AStart i x =>
      match w_starts w !! i with
      | Some th =>
          match start_step fr cf (th_args th) (th_pc th) x (w_state w) with
          | Some (pc, s) =>
              Some {| w_state := s; w_starts := <[i := {| th_args := th_args th; th_pc := pc |}]> (w_starts w) |}
          | None => None
          end
      | None => None
      end
  | AOp c => Some {| w_state := run_call fr c (w_state w); w_starts := w_starts w |}
  end.

Fixpoint run_actions (fr : pystr → pystr) (cf : config) (w : world) (l : list action) : option world :=
  match l with
  | [] => Some w
  | act :: r => match run_action fr cf w act with Some w' => run_actions fr cf w' r | None => None end
  end.

Lemma run_actions_reach fr cf l : ∀ w w', wreach fr cf w → run_actions fr cf w l = Some w' → wreach fr cf w'.
Proof.
  induction l as [|act l IH]; intros w w' R H; cbn [run_actions] in H; [by injection H as <-|].
  destruct (run_action fr cf w act) as [w1|] eqn:E; [|done]. apply (IH w1); [|done].
  apply (wreach_step _ _ w); [done|]. destruct w as [s ths], act as [a|i x|c]; cbn in E.
  - destruct (start_call a) eqn:C; [|done]. injection E as <-. by constructor.
  - destruct (ths !! i) as [[a pc]|] eqn:L; [|done]. cbn in E.
    destruct (start_step _ _ _ _ _ _) as [[pc' s']|] eqn:S; [|done]. injection E as <-. by econstructor.
  - injection E as <-. constructor.
Qed.

Definition toy_cf : config := {| cf_scrollback := 1000; cf_idle := 600 |}.
Definition toy_id (c : Z) : pystr := repeat c 32.
Definition toy_args (owner : option pystr) : start_args := {|
  sa_user := u"user"; sa_workspace := toy_id 97; sa_socket_path := u"/s"; sa_cwd := u"/w";
  sa_cols := 80; sa_rows := 24; sa_owner := owner |}.
Definition line_of (message : dict) : pybytes :=
  match encode_line message with Ok b => b | Raise _ => [] end.
Definition toy_init : pybytes :=
  line_of [(u"type", JStr (u"init_status")); (u"success", JBool true)].
Definition toy_ready : pybytes :=
  line_of [(u"id", JStr (toy_id 97)); (u"type", JStr (u"terminal_ready")); (u"cwd", JStr (u"/w"));
           (u"pid", JInt 7); (u"replay", JStr (u"hello"))].

(** A whole start from the claim of the tab owner to the commit. *)
Definition toy_start (i : nat) (fresh now : Z) : list action :=
  [ACall (toy_args (Some (toy_id 98))); AStart i (IRun now); AStart i (IRun now); AStart i (IRun now);
   AStart i (IRun now); AStart i (ILine toy_init (toy_id fresh) now); AStart i (IRun now);
   AStart i (ILine toy_ready (toy_id 48) now)].

Definition world_after (l : list action) : world :=
  match run_actions (fun x => x) toy_cf {| w_state := initial; w_starts := [] |} l with
  | Some w => w
  | None => {| w_state := initial; w_starts := [] |}
  end.

(** The same tab starts twice: the second terminal replaces the first. *)
Definition toy_actions : list action :=
  toy_start 0 49 5 ++ [AStart 0 (IRun 5)] ++ toy_start 1 50 6.
Definition toy_world : world := world_after toy_actions.

Lemma toy_world_run :
  run_actions (fun x => x) toy_cf {| w_state := initial; w_starts := [] |} toy_actions = Some toy_world.
Proof. vm_compute. reflexivity. Qed.

Lemma toy_world_reach : wreach (fun x => x) toy_cf toy_world.
Proof. eapply run_actions_reach; [apply wreach_initial|apply toy_world_run]. Qed.

Definition toy_channel : channel :=
  match ts_heap (w_state toy_world) !! 1%nat with
  | Some c => c
  | None => new_channel toy_cf (toy_args None) [] 0 0
  end.
Definition toy_history : list dict :=
  [[(u"id", JStr (toy_id 97)); (u"type", JStr (u"terminal_ready")); (u"cwd", JStr (u"/w"));
    (u"pid", JInt 7); (u"replay", JStr [])]; TERMINAL_DATA (u"hello")].

Definition entry_okb (e : entry) : bool :=
  match serialized_bytes (en_event e) with
  | Ok n => (n =? en_bytes e) && (0 <=? en_bytes e) && (en_bytes e <=? OUTPUT_EVENT_BYTES_MAX)
  | Raise _ => false
  end.

Lemma entry_okb_ok e : entry_okb e = true → entry_ok e.
Proof.
  unfold entry_okb, entry_ok. destruct (serialized_bytes _); [|done]. intros H. breflect. subst. done.
Qed.

Lemma toy_channel_represents : represents toy_history toy_channel.
Proof.
  assert (F : forallb entry_okb (ch_events toy_channel) = true) by (vm_compute; reflexivity).
  split; [vm_compute; reflexivity|]. split; [vm_compute; discriminate|].
  split; [vm_compute; reflexivity|]. split; [vm_compute; reflexivity|].
  split; [apply forallb_Forall in F; eapply Forall_impl; [exact F|apply entry_okb_ok]|].
  split; [vm_compute; reflexivity|]. split; vm_compute; discriminate.
Qed.

Lemma terminal_append_refines_witness :
  ts_heap (w_state toy_world) !! 1%nat = Some toy_channel
  ∧ ∃ H, represents H toy_channel
    ∧ ∃ c', append_event toy_channel (TERMINAL_DATA (u"x")) 9 = Ok c'
        ∧ represents (H ++ [TERMINAL_DATA (u"x")]) c'.
Proof.
  split; [vm_compute; reflexivity|].
  destruct (terminal_append_refines (fun x => x) toy_cf toy_world 1 toy_channel toy_world_reach)
    as (H & R & A); [vm_compute; reflexivity|].
  exists H. split; [done|]. exact (A (TERMINAL_DATA (u"x")) 9).
Defined.

Lemma terminal_pages_exact_witness :
  represents toy_history toy_channel
  ∧ ∃ b n, read_page (toy_id 50) toy_channel 1 = Ok b ∧ tb_events b = take n [TERMINAL_DATA (u"hello")].
Proof.
  split; [apply toy_channel_represents|].
  destruct (terminal_pages_exact toy_history toy_channel (toy_id 50) 1 toy_channel_represents)
    as (_ & _ & P).
  destruct P as (b & n & E & P & _); [split; vm_compute; discriminate|]. exists b, n. split; [exact E|exact P].
Defined.

Lemma terminal_table_safe_witness :
  registered (w_state toy_world) = [1%nat]
  ∧ ts_replacements (w_state toy_world) = [0%nat]
  ∧ count (live (u"user") (w_state toy_world)) (registered (w_state toy_world)) <= TERMINALS_PER_USER_MAX.
Proof.
  split; [vm_compute; reflexivity|]. split; [vm_compute; reflexivity|].
  apply (terminal_table_safe (fun x => x) toy_cf toy_world toy_world_reach).
Defined.

Lemma terminal_release_succeeds_witness :
  starting_count (u"user") (w_state toy_world) = 1
  ∧ starting_count (u"user") (w_state toy_world) = count (by_user (u"user") holds) (w_starts toy_world).
Proof.
  split; [vm_compute; reflexivity|].
  apply (terminal_release_succeeds (fun x => x) toy_cf toy_world toy_world_reach).
Defined.

Lemma escape_rich_output_closes_witness :
  ∃ s' c', read_segment (fun x => x) 1 (ReadLine (output_line (repeat 27 4000))) 9 (w_state toy_world)
             = (s', Ok false)
    ∧ ts_heap s' !! 1%nat = Some c' ∧ ch_closed c' = true
    ∧ represents (toy_history ++ [DISCONNECTED]) c'.
Proof.
  apply (escape_rich_output_closes (fun x => x) (w_state toy_world) 1 toy_channel toy_history (repeat 27 4000) 9).
  - vm_compute. reflexivity.
  - apply toy_channel_represents.
  - exists (repeat 27 4000). split; [apply utf8_encode_ascii, forall_repeat; lia|].
    unfold zlen. rewrite repeat_length. lia.
  - unfold count, zlen, OUTPUT_EVENT_BYTES_MAX.
    assert (F : ∀ n, List.filter (fun x => x =? 27) (repeat 27 n) = repeat 27 n)
      by (intros n; induction n; cbn; congruence).
    rewrite F, repeat_length. lia.
Defined.
