(* ===== verification/ThreadLifecycle.v ===== *)
(** * The delegation lifecycle

    Models [services/thread_lifecycle.py]: the statuses of a delegation, the
    allowed transitions, what a cancellation request leads to, and the
    deterministic idempotency key of a delegation's first prompt run. SHA-1 is
    an interface. *)

From S2P Require Import Prelude Text PromptJournal.

Definition PROVISIONING : pystr := u"provisioning".
Definition QUEUED : pystr := u"queued".
Definition RUNNING : pystr := u"running".
Definition CANCELLING : pystr := u"cancelling".
Definition COMPLETED : pystr := u"completed".
Definition FAILED : pystr := u"failed".
Definition CANCELLED : pystr := u"cancelled".
Definition INTERRUPTED : pystr := u"interrupted".

Definition TERMINAL_DELEGATION_STATUSES : list pystr := [COMPLETED; FAILED; CANCELLED; INTERRUPTED].

Definition is_terminal_delegation_status (status : pystr) : bool :=
  mem_str status TERMINAL_DELEGATION_STATUSES.

(** [_ALLOWED_TRANSITIONS] *)
Definition ALLOWED_TRANSITIONS : list (pystr * list pystr) := [
  (PROVISIONING, [QUEUED; FAILED; CANCELLED]);
  (QUEUED, [RUNNING; FAILED; CANCELLED]);
  (RUNNING, [CANCELLING; COMPLETED; FAILED; INTERRUPTED]);
  (CANCELLING, [COMPLETED; FAILED; CANCELLED; INTERRUPTED])].

Definition can_transition (current target : pystr) : bool :=
  mem_str target (match assoc_get current ALLOWED_TRANSITIONS with Some l => l | None => [] end).

Definition CANCELLATION_TARGETS : list (pystr * pystr) := [
  (PROVISIONING, CANCELLED); (QUEUED, CANCELLED); (RUNNING, CANCELLING); (CANCELLING, CANCELLING);
  (COMPLETED, COMPLETED); (FAILED, FAILED); (CANCELLED, CANCELLED); (INTERRUPTED, INTERRUPTED)].

(** [cancellation_target]: an unknown status raises [KeyError]. *)
Definition cancellation_target (status : pystr) : res pystr :=
  match assoc_get status CANCELLATION_TARGETS with
  | Some target => Ok target
  | None => raise KeyError "status"
  end.

(** ** The idempotency key of the first run *)

Class Sha1 := sha1 : pybytes → pybytes.
Class Sha1Laws `{Sha1} := sha1_digest :
  ∀ m, length (sha1 m) = 20%nat ∧ Forall (fun x => is_byte x = true) (sha1 m).

(** [uuid.NAMESPACE_URL.bytes] *)
Definition NAMESPACE_URL : pybytes := [107; 167; 184; 17; 157; 173; 17; 209; 128; 180; 0; 192; 79; 212; 48; 200].

(** [UUID(bytes=b[:16], version=5).bytes]: the version nibble and the two
    variant bits are overwritten. *)
Definition with_version (b : pybytes) : pybytes :=
  let b := take 16 b in
  <[6%nat := Z.lor (Z.land (nth 6 b 0) 15) 80]> (<[8%nat := Z.lor (Z.land (nth 8 b 0) 63) 128]> b).

Definition uuid5 {S1 : Sha1} (namespace : pybytes) (name : pybytes) : pystr :=
  uuid_str (with_version (sha1 (namespace ++ name))).

Definition initial_run_idempotency_key {S1 : Sha1} (delegation_id : pystr) : res pystr :=
  let normalized := lower (strip delegation_id) in
  check! guard ((zlen normalized =? 32) && forallb is_hex normalized) ValueError
    "delegation_id must be 32 lowercase hexadecimal characters" in
  let! name := utf8_encode (u"yinshi:thread-initial-run:" ++ normalized) in
  Ok (uuid5 NAMESPACE_URL name).

(** ** Lemmas *)

(** How far a status is from the end. *)
Definition rank (status : pystr) : nat :=
  if bool_decide (status = PROVISIONING) then 4
  else if bool_decide (status = QUEUED) then 3
  else if bool_decide (status = RUNNING) then 2
  else if bool_decide (status = CANCELLING) then 1
  else 0.

Definition STATUSES : list pystr :=
  [PROVISIONING; QUEUED; RUNNING; CANCELLING; COMPLETED; FAILED; CANCELLED; INTERRUPTED].

Lemma can_transition_table a b : can_transition a b = true →
  ∃ l, (a, l) ∈ ALLOWED_TRANSITIONS ∧ b ∈ l.
Proof.
  unfold can_transition. rewrite mem_str_spec. destruct (assoc_get a _) as [l|] eqn:E.
  - intros H. exists l. split; [by apply assoc_get_in|done].
  - by intros H%elem_of_nil.
Qed.

(** The table, row by row. *)
Lemma transitions_checked :
  Forall (fun row => Forall (fun b => (rank b < rank row.1)%nat ∧ b ∈ STATUSES) row.2
                     ∧ row.1 ∈ STATUSES ∧ (row.1 ∉ TERMINAL_DELEGATION_STATUSES)) ALLOWED_TRANSITIONS.
Proof. repeat constructor; try (by vm_compute); by apply (bool_decide_unpack _). Qed.

Lemma transition_descends a b : can_transition a b = true →
  (rank b < rank a)%nat ∧ b ∈ STATUSES ∧ is_terminal_delegation_status a = false.
Proof.
  intros (l & Hl & Hb)%can_transition_table. pose proof transitions_checked as T.
  rewrite Forall_forall in T. destruct (T _ Hl) as (F & _ & N). cbn in F, N.
  rewrite Forall_forall in F. destruct (F _ Hb) as [R S]. split_and!; try done.
  unfold is_terminal_delegation_status, mem_str. by apply bool_decide_eq_false.
Qed.

(** A run of the machine. *)
Fixpoint path (a : pystr) (l : list pystr) : Prop :=
  match l with
  | [] => True
  | b :: r => can_transition a b = true ∧ path b r
  end.

Lemma path_bounded a l : path a l → (length l <= rank a)%nat.
Proof.
  revert a. induction l as [|b l IH]; intros a; [cbn; lia|]. cbn [path length].
  intros [H P]. apply transition_descends in H as [R _]. apply IH in P. lia.
Qed.

Fixpoint path_end (a : pystr) (l : list pystr) : pystr :=
  match l with [] => a | b :: r => path_end b r end.

Lemma path_in_statuses a l : a ∈ STATUSES → path a l → path_end a l ∈ STATUSES.
Proof.
  revert a. induction l as [|b l IH]; intros a Ha; [done|]. cbn [path path_end]. intros [H P].
  apply transition_descends in H as (_ & Hb & _). by apply IH.
Qed.

(** Every status is terminal or can go on, and a cancellation is either
    already settled or an allowed transition. *)
Lemma statuses_checked :
  Forall (fun a => (is_terminal_delegation_status a = true ∨ ∃ b, can_transition a b = true)
    ∧ ∃ t, cancellation_target a = Ok t ∧ (t = a ∨ can_transition a t = true)
        ∧ cancellation_target t = Ok t
        ∧ (t = CANCELLING ∨ is_terminal_delegation_status t = true)) STATUSES.
Proof.
  assert (F : Forall (fun a => match cancellation_target a with
    | Ok t => (is_terminal_delegation_status a || existsb (can_transition a) STATUSES)
        && (bool_decide (t = a) || can_transition a t)
        && match cancellation_target t with Ok t' => bool_decide (t' = t) | _ => false end
        && (bool_decide (t = CANCELLING) || is_terminal_delegation_status t) = true
    | _ => False end) STATUSES) by (repeat constructor).
  eapply Forall_impl; [exact F|]. cbn beta. intros a. destruct (cancellation_target a) as [t|]; [|done].
  intros H. breflect. destruct (cancellation_target t) as [t'|] eqn:E; [|done]. breflect. subst t'.
  rewrite !orb_true_iff, ?bool_decide_eq_true in *. split.
  - destruct H as [H|H]; [by left|right]. apply existsb_exists in H as (b & _ & ?). by exists b.
  - exists t. by split_and!.
Qed.

Lemma with_version_bytes b : length b = 20%nat → Forall (fun x => is_byte x = true) b →
  length (with_version b) = 16%nat ∧ Forall (fun x => is_byte x = true) (with_version b).
Proof.
  intros Hl Hb. unfold with_version. rewrite !length_insert, length_take. split; [lia|].
  assert (B : ∀ m v, 0 <= v < 256 → is_byte (Z.lor (Z.land m 63) v) = true
                     ∧ is_byte (Z.lor (Z.land m 15) v) = true).
  { intros m v Hv. assert (L : ∀ k, 0 <= k < 256 → 0 <= Z.lor k v < 256).
    { intros k Hk. split; [apply Z.lor_nonneg; lia|].
      destruct (decide (Z.lor k v = 0)) as [->|N]; [lia|].
      apply Z.log2_lt_cancel. rewrite Z.log2_lor by lia. change (Z.log2 256) with 8.
      assert (S8 : ∀ x, 0 <= x < 256 → Z.log2 x < 8).
      { intros x Hx. destruct (decide (x = 0)) as [->|]; [by cbn|]. apply Z.log2_lt_pow2; lia. }
      by apply Z.max_lub_lt; apply S8. }
    pose proof (Z.land_ones m 6 ltac:(lia)) as L6. pose proof (Z.land_ones m 4 ltac:(lia)) as L4.
    change (Z.ones 6) with 63 in L6. change (Z.ones 4) with 15 in L4.
    pose proof (Z.mod_pos_bound m (2 ^ 6) ltac:(lia)). pose proof (Z.mod_pos_bound m (2 ^ 4) ltac:(lia)).
    pose proof (L (Z.land m 63)). pose proof (L (Z.land m 15)).
    unfold is_byte. rewrite !andb_true_iff, !Z.leb_le. cbn in *. lia. }
  apply Forall_insert; [apply Forall_insert; [by apply Forall_take|]|]; apply B; lia.
Qed.

(** ** Properties *)

(** C15. The delegation machine: from any status a run of allowed transitions
    stays within the eight statuses, and from provisioning it has at most four
    steps; a terminal status allows none and every other status allows one;
    and a cancellation request leads, in one allowed step or none, to a stable
    target that is either cancelling or terminal. *)
Theorem delegation_machine (a : pystr) (l : list pystr) :
  a ∈ STATUSES → path a l →
  path_end a l ∈ STATUSES
  ∧ (a = PROVISIONING → (length l <= 4)%nat)
  ∧ (is_terminal_delegation_status a = true ↔ ∀ b, can_transition a b = false)
  ∧ ∃ t, cancellation_target a = Ok t ∧ (t = a ∨ can_transition a t = true)
      ∧ cancellation_target t = Ok t ∧ (t = CANCELLING ∨ is_terminal_delegation_status t = true).
Proof.
  intros Ha P. pose proof statuses_checked as S. rewrite Forall_forall in S.
  destruct (S _ Ha) as [Hgo Hc]. split; [by apply path_in_statuses|]. split; [|split; [|exact Hc]].
  - intros ->. by apply path_bounded in P.
  - split.
    + intros T b. destruct (can_transition a b) eqn:E; [|done].
      apply transition_descends in E as (_ & _ & E). congruence.
    + intros H. destruct Hgo as [|[b Hb]]; [done|]. by rewrite H in Hb.
Qed.

(** The key of a delegation's first run is always a key the prompt journal
    accepts, and it depends only on the normalized delegation id: repeating the
    start of a delegation reuses the same prompt run. *)
Theorem initial_run_key_accepted {S1 : Sha1} {L1 : Sha1Laws} (delegation_id delegation_id' key : pystr) :
  initial_run_idempotency_key delegation_id = Ok key →
  PromptJournal.validate_idempotency_key key = Ok tt
  ∧ (lower (strip delegation_id') = lower (strip delegation_id) →
     initial_run_idempotency_key delegation_id' = Ok key).
Proof.
  intros H. split.
  - unfold initial_run_idempotency_key in H. inv_ok.
    match goal with |- context [uuid5 _ ?n] => pose proof (sha1_digest (NAMESPACE_URL ++ n)) as [Hl Hb] end.
    destruct (with_version_bytes _ Hl Hb) as [Hl' Hb'].
    unfold PromptJournal.validate_idempotency_key, uuid5. by rewrite uuid_str_canonical.
  - intros E. unfold initial_run_idempotency_key in *. by rewrite E.
Qed.

(** ** Witnesses *)

Lemma delegation_machine_witness :
  path PROVISIONING [QUEUED; RUNNING; CANCELLING; CANCELLED]
  ∧ path_end PROVISIONING [QUEUED; RUNNING; CANCELLING; CANCELLED] ∈ STATUSES.
Proof.
  split; [repeat split; vm_compute; reflexivity|].
  apply (delegation_machine PROVISIONING [QUEUED; RUNNING; CANCELLING; CANCELLED]).
  - left.
  - repeat split; vm_compute; reflexivity.
Defined.

#[local] Instance toy_sha1 : Sha1 := fun _ => repeat 255 20.
Lemma toy_sha1_laws : Sha1Laws.
Proof. intros m. split; [done|]. by apply forallb_Forall. Qed.

Lemma initial_run_key_accepted_witness :
  initial_run_idempotency_key (repeat 65 32) = Ok (u"ffffffff-ffff-5fff-bfff-ffffffffffff")
  ∧ PromptJournal.validate_idempotency_key (u"ffffffff-ffff-5fff-bfff-ffffffffffff") = Ok tt.
Proof.
  split; [vm_compute; reflexivity|].
  apply (@initial_run_key_accepted toy_sha1 toy_sha1_laws (repeat 65 32) (repeat 65 32)).
  vm_compute. reflexivity.
Defined.
