(* ===== verification/Uploads.v ===== *)
(** * Encrypted uploads

    Models [services/encrypted_uploads.py]: the in-memory assembly of an upload
    from chunks, with its limits, its owner checks, its expiry and the wiping
    of the buffers it drops. An upload object is reachable only through the
    manager's dictionary; the buffers of dropped objects are kept in
    [um_dropped] to state what remains of them. Clock readings are inputs, one
    for each call of the clock. *)

From S2P Require Import Prelude Text Crypto.

Definition UPLOAD_BYTES_MAX : Z := 50 * 1024 * 1024.
Definition UPLOAD_BYTES_RESERVED_MAX : Z := 100 * 1024 * 1024.
Definition UPLOAD_COUNT_MAX : Z := 8.
Definition UPLOAD_CHUNK_BYTES_MAX : Z := 24000.
Definition UPLOAD_LIFETIME_SECONDS : Z := 15 * 60.

Record EncryptedUpload := {
  eu_id : pystr;
  eu_purpose : pystr;
  eu_filename : pystr;
  eu_size : Z;
  eu_next_chunk : Z;
}.

Record CompletedEncryptedUpload := { cu_purpose : pystr; cu_filename : pystr; cu_data : pybytes }.

(** [_UploadState] *)
Record upload := {
  up_id : pystr;
  up_user : pystr;
  up_purpose : pystr;
  up_filename : pystr;
  up_size : Z;
  up_sha256 : pystr;
  up_expires : Z;
  up_data : pybytes;
  up_digests : list (Z * pystr);
}.

Record manager := { um_uploads : list (pystr * upload); um_dropped : list pybytes }.
Definition empty_manager : manager := {| um_uploads := []; um_dropped := [] |}.

(** ** Validation *)

Definition HEX_DIGITS : pystr := u"0123456789abcdef".
Definition all_hex (s : pystr) : bool := forallb (fun c => bool_decide (c ∈ HEX_DIGITS)) s.

Definition validate_user_id (user_id : pystr) : res unit :=
  guard (negb (bool_decide (user_id = [])) && (zlen user_id <=? 256)) ValueError
    "encrypted upload user_id is invalid".

Definition validate_upload_id (upload_id : pystr) : res unit :=
  guard ((zlen upload_id =? 32) && all_hex upload_id) ValueError "encrypted upload ID is invalid".

Definition validate_metadata (purpose filename : pystr) (size_bytes : Z) (sha256_hex : pystr) : res unit :=
  check! guard (bool_decide (purpose = u"pi_config")) ValueError
    "encrypted upload purpose is unsupported" in
  check! guard (negb (bool_decide (filename = [])) && (zlen filename <=? 255)
                && bool_decide (filename = strip filename)
                && negb (bool_decide (47 ∈ filename)) && negb (bool_decide (92 ∈ filename))
                && ends_with (u".zip") (lower filename))
    ValueError "encrypted upload filename must be a simple zip name" in
  check! guard ((1 <=? size_bytes) && (size_bytes <=? UPLOAD_BYTES_MAX)) ValueError
    "encrypted upload size is invalid" in
  guard ((zlen sha256_hex =? 64) && all_hex sha256_hex) ValueError
    "encrypted upload SHA-256 is invalid".

Definition public_upload (state : upload) : EncryptedUpload := {|
  eu_id := up_id state; eu_purpose := up_purpose state; eu_filename := up_filename state;
  eu_size := up_size state; eu_next_chunk := zlen (up_digests state) |}.

(** ** Operations *)

(** [state.data[:] = b"\x00" * len(state.data)] *)
Definition wiped (data : pybytes) : pybytes := repeat 0 (length data).

Definition expired (now : Z) (kv : pystr * upload) : bool := up_expires kv.2 <=? now.

(** [_reap_expired] *)
Definition reap_expired (now : Z) (m : manager) : manager := {|
  um_uploads := List.filter (fun kv => negb (expired now kv)) (um_uploads m);
  um_dropped := um_dropped m
    ++ map (fun kv => wiped (up_data kv.2)) (List.filter (expired now) (um_uploads m)) |}.

Definition bytes_of (l : list (pystr * upload)) : Z := foldr (fun kv n => up_size kv.2 + n) 0 l.
Definition reserved_bytes (m : manager) : Z := bytes_of (um_uploads m).

(** [start]; [fresh] is the [uuid4] it draws. *)
Definition start (user_id purpose filename : pystr) (size_bytes : Z) (sha256_hex fresh : pystr)
    (reap_now now : Z) : st manager EncryptedUpload :=
  do^ st_lift (validate_user_id user_id) in
  do^ st_lift (validate_metadata purpose filename size_bytes sha256_hex) in
  fun m0 =>
    let m := reap_expired reap_now m0 in
    if UPLOAD_COUNT_MAX <=? zlen (um_uploads m)
    then (m, raise RuntimeError "encrypted upload count limit reached")
    else if UPLOAD_BYTES_RESERVED_MAX <? reserved_bytes m + size_bytes
    then (m, raise RuntimeError "encrypted upload byte limit reached")
    else match assoc_get fresh (um_uploads m) with
    | Some _ => (m, raise RuntimeError "encrypted upload ID collision")
    | None =>
        let state := {|
          up_id := fresh; up_user := user_id; up_purpose := purpose; up_filename := filename;
          up_size := size_bytes; up_sha256 := sha256_hex; up_expires := now + UPLOAD_LIFETIME_SECONDS;
          up_data := []; up_digests := [] |} in
        ({| um_uploads := assoc_set fresh state (um_uploads m); um_dropped := um_dropped m |},
         Ok (public_upload state))
    end.

Definition owned_upload (user_id upload_id : pystr) (reap_now : Z) : st manager upload :=
  do^ st_lift (validate_user_id user_id) in
  do^ st_lift (validate_upload_id upload_id) in
  fun m0 =>
    let m := reap_expired reap_now m0 in
    match assoc_get upload_id (um_uploads m) with
    | None => (m, raise LookupError "encrypted upload not found")
    | Some state =>
        (m, check! guard (bool_decide (up_user state = user_id)) LookupError
              "encrypted upload not found" in Ok state)
    end.

Definition pop_upload (upload_id : pystr) (dropped : pybytes) (m : manager) : manager := {|
  um_uploads := assoc_pop upload_id (um_uploads m); um_dropped := um_dropped m ++ [dropped] |}.

Section Hashed.
Context {SHA : Sha256}.

(** What [append] decides from the state: the stored chunk for a retry, or the
    extended state. *)
Definition append_chunk (state : upload) (chunk_index : Z) (chunk : pybytes) (now : Z) :
    res (option upload) :=
  let chunk_digest := hexdigest (sha256 chunk) in
  let next_chunk_index := zlen (up_digests state) in
  if chunk_index <? next_chunk_index then
    match up_digests state !! Z.to_nat chunk_index with
    | Some (stored_length, stored_digest) =>
        check! guard ((stored_length =? zlen chunk) && bool_decide (stored_digest = chunk_digest))
          ValueError "encrypted upload retry does not match stored chunk" in
        Ok None
    | None => raise IndexError "list index out of range"
    end
  else
    check! guard (chunk_index =? next_chunk_index) ValueError
      "encrypted upload chunk sequence is not contiguous" in
    check! guard (zlen (up_data state) + zlen chunk <=? up_size state) ValueError
      "encrypted upload exceeds declared size" in
    Ok (Some {|
      up_id := up_id state; up_user := up_user state; up_purpose := up_purpose state;
      up_filename := up_filename state; up_size := up_size state; up_sha256 := up_sha256 state;
      up_expires := now + UPLOAD_LIFETIME_SECONDS; up_data := up_data state ++ chunk;
      up_digests := up_digests state ++ [(zlen chunk, chunk_digest)] |}).

Definition append (user_id upload_id : pystr) (chunk_index : Z) (chunk : pybytes) (reap_now now : Z) :
    st manager EncryptedUpload :=
  let^ state := owned_upload user_id upload_id reap_now in
  do^ st_lift (guard (0 <=? chunk_index) ValueError
                 "encrypted upload chunk_index must be non-negative") in
  do^ st_lift (guard (negb (bool_decide (chunk = [])) && (zlen chunk <=? UPLOAD_CHUNK_BYTES_MAX)) ValueError
                 "encrypted upload chunk has an invalid length") in
  let^ result := st_lift (append_chunk state chunk_index chunk now) in
  match result with
  | None => st_ret (public_upload state)
  | Some state' => fun m =>
      ({| um_uploads := assoc_set upload_id state' (um_uploads m); um_dropped := um_dropped m |},
       Ok (public_upload state'))
  end.

(** [complete]: on a size mismatch the buffer is dropped as it is. *)
Definition complete (user_id upload_id : pystr) (reap_now : Z) : st manager CompletedEncryptedUpload :=
  let^ state := owned_upload user_id upload_id reap_now in
  if negb (zlen (up_data state) =? up_size state) then
    do^ (fun m => (pop_upload upload_id (up_data state) m, Ok tt)) in
    st_lift (raise ValueError "encrypted upload size does not match declaration")
  else
    do^ (fun m => (pop_upload upload_id (wiped (up_data state)) m, Ok tt)) in
    if bool_decide (hexdigest (sha256 (up_data state)) = up_sha256 state)
    then st_ret {| cu_purpose := up_purpose state; cu_filename := up_filename state;
                   cu_data := up_data state |}
    else st_lift (raise ValueError "encrypted upload digest does not match declaration").
End Hashed.

Definition cancel (user_id upload_id : pystr) : st manager unit :=
  do^ st_lift (validate_user_id user_id) in
  do^ st_lift (validate_upload_id upload_id) in
  fun m =>
    match assoc_get upload_id (um_uploads m) with
    | None => (m, Ok tt)
    | Some state =>
        if negb (bool_decide (up_user state = user_id))
        then (m, raise LookupError "encrypted upload not found")
        else (pop_upload upload_id (wiped (up_data state)) m, Ok tt)
    end.

(** ** The invariant *)

Section Spec.
Context {SHA : Sha256}.

Definition chunk_entry (chunk : pybytes) : Z * pystr := (zlen chunk, hexdigest (sha256 chunk)).
Definition chunk_ok (chunk : pybytes) : Prop := chunk ≠ [] ∧ zlen chunk <= UPLOAD_CHUNK_BYTES_MAX.

(** The object holds exactly the chunks [chunks], in order. *)
Definition holds_chunks (state : upload) (chunks : list pybytes) : Prop :=
  up_data state = concat chunks ∧ up_digests state = map chunk_entry chunks ∧ Forall chunk_ok chunks.

Definition upload_ok (kv : pystr * upload) : Prop :=
  up_id kv.2 = kv.1 ∧ 1 <= up_size kv.2 <= UPLOAD_BYTES_MAX
  ∧ zlen (up_data kv.2) <= up_size kv.2 ∧ ∃ chunks, holds_chunks kv.2 chunks.

Record manager_ok (m : manager) : Prop := {
  mo_keys : NoDup (map fst (um_uploads m));
  mo_uploads : Forall upload_ok (um_uploads m);
  mo_count : zlen (um_uploads m) <= UPLOAD_COUNT_MAX;
  mo_bytes : reserved_bytes m <= UPLOAD_BYTES_RESERVED_MAX;
}.

Lemma bytes_of_cons kv l : bytes_of (kv :: l) = up_size kv.2 + bytes_of l.
Proof. done. Qed.

Lemma bytes_of_app l k : bytes_of (l ++ k) = bytes_of l + bytes_of k.
Proof. induction l as [|kv l IH]; [done|]. cbn [app]. rewrite !bytes_of_cons, IH. lia. Qed.

Lemma bytes_of_sublist l k : Forall upload_ok k → sublist l k → bytes_of l <= bytes_of k.
Proof.
  intros Hk Hs. induction Hs as [|kv l k _ IH|kv l k _ IH]; [done|..];
    rewrite ?bytes_of_cons; apply Forall_cons in Hk as [(_ & ? & _) Hk]; specialize (IH Hk); lia.
Qed.

(** Dropping uploads keeps the invariant. *)
Lemma manager_ok_sublist m l d : manager_ok m → sublist l (um_uploads m) →
  manager_ok {| um_uploads := l; um_dropped := d |}.
Proof.
  intros [Hk Hu Hc Hb] Hs. unfold reserved_bytes in Hb. split; unfold reserved_bytes; cbn [um_uploads].
  - eapply sublist_NoDup; [exact Hk|]. by apply sublist_map.
  - rewrite Forall_forall in *. intros kv Hin. apply Hu. by eapply elem_of_sublist.
  - apply sublist_length in Hs. unfold zlen in *. lia.
  - pose proof (bytes_of_sublist _ _ Hu Hs). lia.
Qed.

Lemma reap_sublist now m : sublist (um_uploads (reap_expired now m)) (um_uploads m).
Proof.
  unfold reap_expired. cbn. induction (um_uploads m) as [|kv l IH]; [done|]. cbn.
  destruct (negb _); by constructor.
Qed.

Lemma reap_ok now m : manager_ok m → manager_ok (reap_expired now m).
Proof. intros H. apply (manager_ok_sublist _ _ _ H). apply reap_sublist. Qed.

Lemma pop_ok id d m : manager_ok m → manager_ok (pop_upload id d m).
Proof. intros H. apply (manager_ok_sublist _ _ _ H), assoc_pop_sublist. Qed.

Lemma assoc_set_split {V} (k : pystr) (v w : V) l : assoc_get k l = Some v →
  ∃ a b, l = a ++ (k, v) :: b ∧ assoc_set k w l = a ++ (k, w) :: b.
Proof.
  induction l as [|[k' v'] l IH]; cbn; [done|]. case_bool_decide as E.
  - intros [= ->]. subst. by exists [], l.
  - intros H. destruct (IH H) as (a & b & -> & ->). by exists ((k', v') :: a), b.
Qed.

Lemma append_chunk_spec state chunks i chunk now : holds_chunks state chunks → 0 <= i →
  match append_chunk state i chunk now with
  | Ok None => ∃ c, chunks !! Z.to_nat i = Some c ∧ chunk_entry c = chunk_entry chunk
  | Ok (Some state') => i = zlen chunks ∧ zlen (up_data state) + zlen chunk <= up_size state
      ∧ state' = {| up_id := up_id state; up_user := up_user state; up_purpose := up_purpose state;
           up_filename := up_filename state; up_size := up_size state; up_sha256 := up_sha256 state;
           up_expires := now + UPLOAD_LIFETIME_SECONDS; up_data := up_data state ++ chunk;
           up_digests := up_digests state ++ [chunk_entry chunk] |}
  | Raise e => exn_class e = ValueError
  end.
Proof.
  intros (Hd & Hg & _) Hi. unfold append_chunk.
  assert (Hl : zlen (up_digests state) = zlen chunks) by (rewrite Hg; unfold zlen; by rewrite length_map).
  rewrite Hl. destruct (i <? zlen chunks) eqn:E; breflect.
  - destruct (chunks !! Z.to_nat i) as [c|] eqn:Ec.
    2: { apply lookup_ge_None in Ec. unfold zlen in E. lia. }
    rewrite Hg, list_lookup_fmap, Ec. cbn [fmap option_fmap option_map chunk_entry].
    destruct (_ && _) eqn:T; cbn [guard res_bind raise]; [|done]. breflect.
    exists c. split; [done|]. unfold chunk_entry. by f_equal.
  - destruct (i =? zlen chunks) eqn:E2; cbn [guard res_bind raise]; [|done]. breflect.
    destruct (_ <=? up_size state) eqn:E3; cbn [guard res_bind raise]; [|done]. breflect. done.
Qed.

Lemma owned_spec u id now m : 
  match owned_upload u id now m with
  | (m', Ok state) => m' = reap_expired now m ∧ assoc_get id (um_uploads m') = Some state ∧ up_user state = u
      ∧ validate_user_id u = Ok tt ∧ validate_upload_id id = Ok tt
  | (m', Raise e) => m' = m ∨ m' = reap_expired now m
  end.
Proof.
  unfold owned_upload, st_bind, st_lift. destruct (validate_user_id u) as [[]|]; [|by left].
  destruct (validate_upload_id id) as [[]|]; [|by left].
  destruct (assoc_get id _) as [state|] eqn:E; [|by right].
  case_bool_decide; cbn [guard res_bind raise]; [|by right]. by split_and!.
Qed.

(** The manager's calls; every argument is arbitrary. *)
Inductive call :=
  | CStart (user purpose filename : pystr) (size : Z) (sha fresh : pystr) (reap_now now : Z)
  | CAppend (user id : pystr) (index : Z) (chunk : pybytes) (reap_now now : Z)
  | CComplete (user id : pystr) (reap_now : Z)
  | CCancel (user id : pystr).

Definition run_call (c : call) (m : manager) : manager :=
  match c with
  | CStart u p f size sha fresh rn n => (start u p f size sha fresh rn n m).1
  | CAppend u id i chunk rn n => (append u id i chunk rn n m).1
  | CComplete u id rn => (complete u id rn m).1
  | CCancel u id => (cancel u id m).1
  end.
Definition run_calls (l : list call) (m : manager) : manager := fold_left (fun m c => run_call c m) l m.

Definition caller (c : call) : pystr :=
  match c with CStart u _ _ _ _ _ _ _ | CAppend u _ _ _ _ _ | CComplete u _ _ | CCancel u _ => u end.
Definition call_time (c : call) : Z :=
  match c with
  | CStart _ _ _ _ _ _ rn _ | CAppend _ _ _ _ rn _ | CComplete _ _ rn => rn
  | CCancel _ _ => 0
  end.

Lemma start_ok u p f size sha fresh rn n m : manager_ok m →
  manager_ok (start u p f size sha fresh rn n m).1.
Proof.
  intros Hm. unfold start, st_bind, st_lift. destruct (validate_user_id u) as [[]|]; [|done].
  destruct (validate_metadata p f size sha) as [[]|] eqn:V; [|done].
  pose proof (reap_ok rn m Hm) as Hr. pose proof Hr as [Hk Hu Hc Hb].
  set (r := reap_expired rn m) in *.
  destruct (UPLOAD_COUNT_MAX <=? _) eqn:C1; [exact Hr|].
  destruct (UPLOAD_BYTES_RESERVED_MAX <? _) eqn:C2; [exact Hr|].
  destruct (assoc_get fresh _) eqn:C3; [exact Hr|]. breflect.
  apply assoc_get_none in C3. split; cbn [fst um_uploads]; rewrite assoc_set_fresh by done.
  - rewrite map_app. apply NoDup_app. split_and!; [done| |apply NoDup_singleton].
    intros x Hx ->%list_elem_of_singleton. done.
  - apply Forall_snoc. split; [done|]. unfold validate_metadata in V. inv_ok. breflect.
    split; [done|]. cbn [fst snd up_size up_data]. split; [lia|].
    rewrite zlen_nil. split; [lia|]. exists []. by split_and!.
  - rewrite zlen_app, zlen_cons, zlen_nil. lia.
  - unfold reserved_bytes in *. cbn [um_uploads].
    rewrite bytes_of_app, bytes_of_cons. cbn [snd up_size]. change (bytes_of []) with 0. lia.
Qed.

Lemma append_ok u id i chunk rn n m : manager_ok m → manager_ok (append u id i chunk rn n m).1.
Proof.
  intros Hm. unfold append, st_bind at 1. pose proof (owned_spec u id rn m) as O.
  destruct (owned_upload u id rn m) as [m' [state|e]].
  2: { destruct O as [-> | ->]; [done|by apply reap_ok]. }
  destruct O as (-> & Hs & _). pose proof (reap_ok rn m Hm) as Hr. set (r := reap_expired rn m) in *.
  unfold st_bind, st_lift. destruct (guard (0 <=? i) _ _) as [[]|] eqn:G1; [|done].
  destruct (guard (negb _ && _) _ _) as [[]|] eqn:G2; [|done].
  destruct (append_chunk state i chunk n) as [[state'|]|] eqn:A; [|done..]. cbn [fst].
  destruct (assoc_set_split id state state' _ Hs) as (a & b & E1 & E2).
  pose proof Hr as [Hk Hu Hc Hb]. rewrite E1 in *.
  apply Forall_app in Hu as [Hua Hub]. apply Forall_cons in Hub as [(Hid & Hsz & Hd & chunks & Hch) Hub].
  inv_ok. breflect. pose proof (append_chunk_spec state chunks i chunk n Hch ltac:(lia)) as S.
  rewrite A in S. destruct S as (-> & Hfit & ->). cbn in Hid, Hsz, Hd. destruct Hch as (H1 & H2 & H3).
  split; cbn [um_uploads]; rewrite E2.
  - rewrite map_app in *. done.
  - apply Forall_app. split; [done|]. constructor; [|done].
    unfold upload_ok. cbn [fst snd up_id up_size up_data]. split; [done|]. split; [done|].
    split; [rewrite zlen_app; lia|]. exists (chunks ++ [chunk]).
    cbn [snd] in H1, H2. unfold holds_chunks. cbn [up_data up_digests].
    rewrite concat_app, map_app, H1, H2. cbn [concat map]. rewrite app_nil_r.
    split; [done|]. split; [done|]. by apply Forall_snoc.
  - unfold zlen in *. rewrite length_app in *. done.
  - unfold reserved_bytes in *. cbn [um_uploads].
    rewrite E1, bytes_of_app, bytes_of_cons in Hb. rewrite bytes_of_app, bytes_of_cons. exact Hb.
Qed.

Lemma complete_ok u id rn m : manager_ok m → manager_ok (complete u id rn m).1.
Proof.
  intros Hm. unfold complete, st_bind at 1. pose proof (owned_spec u id rn m) as O.
  destruct (owned_upload u id rn m) as [m' [state|e]].
  2: { destruct O as [-> | ->]; [done|by apply reap_ok]. }
  destruct O as (-> & _). pose proof (reap_ok rn m Hm) as Hr.
  destruct (negb _); [by apply pop_ok|]. unfold st_bind. case_bool_decide; by apply pop_ok.
Qed.

Lemma cancel_ok u id m : manager_ok m → manager_ok (cancel u id m).1.
Proof.
  intros Hm. unfold cancel, st_bind, st_lift. destruct (validate_user_id u) as [[]|]; [|done].
  destruct (validate_upload_id id) as [[]|]; [|done]. destruct (assoc_get id _) as [state|]; [|done].
  destruct (negb _); [done|]. by apply pop_ok.
Qed.

Lemma run_call_ok c m : manager_ok m → manager_ok (run_call c m).
Proof.
  intros Hm. destruct c; [by apply start_ok|by apply append_ok|by apply complete_ok|by apply cancel_ok].
Qed.

Lemma empty_manager_ok : manager_ok empty_manager.
Proof. split; cbn; try constructor; unfold UPLOAD_COUNT_MAX, UPLOAD_BYTES_RESERVED_MAX, zlen; cbn; lia. Qed.

Lemma run_calls_ok l m : manager_ok m → manager_ok (run_calls l m).
Proof. revert m. induction l as [|c l IH]; intros m H; [done|]. by apply IH, run_call_ok. Qed.

(** ** Isolation of owners *)

Lemma filter_get {V} (f : pystr * V → bool) k v l : NoDup (map fst l) →
  assoc_get k l = Some v → f (k, v) = true → assoc_get k (List.filter f l) = Some v.
Proof.
  induction l as [|[k' v'] l IH]; cbn; [done|]. intros [Hk Hl]%NoDup_cons. case_bool_decide as E.
  - intros [= ->] Hf. subst k'. rewrite Hf. cbn. by rewrite bool_decide_true.
  - intros Hg Hf. destruct (f (k', v')); [|by apply IH]. cbn. rewrite bool_decide_false by done. by apply IH.
Qed.

Lemma reap_get now k v m : NoDup (map fst (um_uploads m)) → assoc_get k (um_uploads m) = Some v →
  now < up_expires v → assoc_get k (um_uploads (reap_expired now m)) = Some v.
Proof.
  intros Hn Hg Ht. apply filter_get; [done|done|]. unfold expired. cbn.
  by rewrite (proj2 (Z.leb_gt _ _)).
Qed.

Lemma pop_get id k v d m : NoDup (map fst (um_uploads m)) → assoc_get k (um_uploads m) = Some v →
  k ≠ id → assoc_get k (um_uploads (pop_upload id d m)) = Some v.
Proof.
  intros Hn Hg N. cbn. rewrite assoc_pop_without, assoc_get_without by done. by rewrite bool_decide_false.
Qed.

(** What a call does to the uploads of other users: nothing, as long as they
    have not expired. *)
Lemma run_call_isolated c k v m : manager_ok m → assoc_get k (um_uploads m) = Some v →
  up_user v ≠ caller c → call_time c < up_expires v →
  assoc_get k (um_uploads (run_call c m)) = Some v.
Proof.
  intros Hm Hg Hu Ht. pose proof (mo_keys _ Hm) as Hn.
  destruct c as [u p f size sha fresh rn n|u id i chunk rn n|u id rn|u id]; cbn [run_call caller call_time] in *.
  - pose proof (reap_get rn k v m Hn Hg Ht) as Hr.
    unfold start, st_bind, st_lift. destruct (validate_user_id u) as [[]|]; [|done].
    destruct (validate_metadata _ _ _ _) as [[]|]; [|done].
    destruct (UPLOAD_COUNT_MAX <=? _); [done|]. destruct (UPLOAD_BYTES_RESERVED_MAX <? _); [done|].
    destruct (assoc_get fresh _) eqn:F; [done|]. cbn [fst um_uploads].
    rewrite assoc_get_set. rewrite bool_decide_false; [done|]. intros ->. congruence.
  - unfold append, st_bind at 1. pose proof (owned_spec u id rn m) as O.
    pose proof (reap_get rn k v m Hn Hg Ht) as Hr.
    destruct (owned_upload u id rn m) as [m' [state|e]]; [|by destruct O as [-> | ->]].
    destruct O as (-> & Hs & Hus & _). unfold st_bind, st_lift.
    destruct (guard (0 <=? i) _ _) as [[]|]; [|done]. destruct (guard (negb _ && _) _ _) as [[]|]; [|done].
    destruct (append_chunk state i chunk n) as [[state'|]|]; [|done..]. cbn [fst um_uploads].
    rewrite assoc_get_set, bool_decide_false; [done|]. intros ->. congruence.
  - unfold complete, st_bind at 1. pose proof (owned_spec u id rn m) as O.
    pose proof (reap_get rn k v m Hn Hg Ht) as Hr. pose proof (mo_keys _ (reap_ok rn m Hm)) as Hn'.
    destruct (owned_upload u id rn m) as [m' [state|e]]; [|by destruct O as [-> | ->]].
    destruct O as (-> & Hs & Hus & _). assert (k ≠ id) by (intros ->; congruence).
    destruct (negb _); [by apply pop_get|]. unfold st_bind. case_bool_decide; by apply pop_get.
  - unfold cancel, st_bind, st_lift. destruct (validate_user_id u) as [[]|]; [|done].
    destruct (validate_upload_id id) as [[]|]; [|done]. destruct (assoc_get id _) as [state|] eqn:Hs; [|done].
    case_bool_decide as E; [|done]. cbn [negb]. apply pop_get; [done|done|]. intros ->. congruence.
Qed.

(** ** Delivery of a file *)

(** The client sends chunk after chunk and may repeat any earlier one. *)
Fixpoint in_order (total n : nat) (l : list (nat * Z * Z)) : Prop :=
  match l with
  | [] => n = total
  | (i, _, _) :: r => (i <= n)%nat ∧ (i < total)%nat ∧ in_order total (if (i =? n)%nat then S n else n) r
  end.

Fixpoint feed (cs : list pybytes) (user id : pystr) (l : list (nat * Z * Z)) (m : manager) :
    manager * bool :=
  match l with
  | [] => (m, true)
  | (i, reap_now, now) :: r =>
      match append user id (Z.of_nat i) (nth i cs []) reap_now now m with
      | (m', Ok _) => feed cs user id r m'
      | (m', Raise _) => (m', false)
      end
  end.

(** The upload in progress: the first [n] chunks are stored. *)
Record delivering (cs : list pybytes) (user id : pystr) (base : upload) (t : Z) (n : nat) (m : manager) : Prop := {
  dl_ok : manager_ok m;
  dl_state : ∃ state, assoc_get id (um_uploads m) = Some state ∧ holds_chunks state (take n cs)
    ∧ up_user state = user ∧ up_size state = zlen (concat cs) ∧ up_sha256 state = up_sha256 base
    ∧ up_purpose state = up_purpose base ∧ up_filename state = up_filename base
    ∧ t + UPLOAD_LIFETIME_SECONDS <= up_expires state;
}.

Lemma concat_take_le {A} (cs : list (list A)) n : zlen (concat (take n cs)) <= zlen (concat cs).
Proof.
  revert n. induction cs as [|c cs IH]; intros [|n]; cbn [take concat]; rewrite ?zlen_app, ?zlen_nil;
    try lia; try (pose proof (zlen_nonneg c); pose proof (zlen_nonneg (concat cs)); lia).
  pose proof (IH n). lia.
Qed.

Lemma holds_length state chunks : holds_chunks state chunks → zlen (up_digests state) = zlen chunks.
Proof. intros (_ & -> & _). unfold zlen. by rewrite length_map. Qed.

Lemma deliver_step cs user id base t n m i rn now : Forall chunk_ok cs →
  validate_user_id user = Ok tt → validate_upload_id id = Ok tt →
  delivering cs user id base t n m → (i <= n)%nat → (i < length cs)%nat →
  t <= now → rn < t + UPLOAD_LIFETIME_SECONDS →
  ∃ m' pub, append user id (Z.of_nat i) (nth i cs []) rn now m = (m', Ok pub)
    ∧ delivering cs user id base t (if (i =? n)%nat then S n else n) m'.
Proof.
  intros Hcs Hvu Hvi [Hm (state & Hg & Hh & Hu & Hsz & Hrest)] Hin Hi Hnow Hrn.
  pose proof Hrest as (_ & _ & _ & Hexp).
  assert (Hr : assoc_get id (um_uploads (reap_expired rn m)) = Some state).
  { apply reap_get; [apply Hm|done|lia]. }
  assert (Hc : cs !! i = Some (nth i cs [])).
  { apply lookup_lt_is_Some in Hi as [c Hc]. by rewrite (nth_lookup_Some _ _ _ _ Hc). }
  pose proof (Forall_lookup_1 _ _ _ _ Hcs Hc) as [Hne Hmax]. set (c := nth i cs []) in *.
  assert (Hlen : zlen (take n cs) = Z.of_nat (Nat.min n (length cs))) by (unfold zlen; by rewrite length_take).
  unfold append, owned_upload, st_bind, st_lift. rewrite Hvu, Hvi, Hr.
  rewrite bool_decide_true by done. cbn [guard res_bind]. rewrite (proj2 (Z.leb_le 0 _)) by lia.
  cbn [guard]. rewrite bool_decide_false by done. rewrite (proj2 (Z.leb_le _ _) Hmax). cbn [negb andb guard].
  unfold append_chunk. rewrite (holds_length _ _ Hh), Hlen.
  assert (Hn : n ≠ i ∨ n = i) by lia. destruct Hn as [Hn| ->].
  - rewrite (proj2 (Z.ltb_lt _ _)) by lia. rewrite Nat2Z.id. pose proof Hh as (Hd & Hg2 & Hf).
    rewrite Hg2, list_lookup_fmap, lookup_take_lt, Hc by lia. cbn [fmap option_fmap option_map chunk_entry].
    rewrite Z.eqb_refl, bool_decide_true by done. cbn [andb guard res_bind]. eexists _, _. split; [done|].
    replace (i =? n)%nat with false by (symmetry; apply Nat.eqb_neq; lia).
    split; [by apply reap_ok|]. exists state. exact (conj Hr (conj Hh (conj Hu (conj Hsz Hrest)))).
  - rewrite (proj2 (Z.ltb_ge _ _)) by lia. rewrite (proj2 (Z.eqb_eq _ _)) by lia. cbn [guard res_bind].
    pose proof Hh as (Hd & Hg2 & Hf).
    assert (Ht : take (S i) cs = take i cs ++ [c]) by by apply take_S_r.
    assert (Hfit : zlen (up_data state) + zlen c <= up_size state).
    { rewrite Hd, Hsz, <- (concat_take_le cs (S i)), Ht, concat_app, zlen_app. cbn [concat].
      rewrite app_nil_r. lia. }
    rewrite (proj2 (Z.leb_le _ _) Hfit). cbn [guard res_bind]. rewrite Nat.eqb_refl.
    eexists _, _. split; [done|]. split.
    + pose proof (append_ok user id (Z.of_nat i) c rn now m Hm) as A.
      unfold append, owned_upload, st_bind, st_lift in A. rewrite Hvu, Hvi, Hr in A.
      rewrite bool_decide_true in A by done. cbn [guard res_bind] in A.
      rewrite (proj2 (Z.leb_le 0 _)) in A by lia. cbn [guard] in A.
      rewrite bool_decide_false in A by done. rewrite (proj2 (Z.leb_le _ _) Hmax) in A.
      cbn [negb andb guard] in A. unfold append_chunk in A. rewrite (holds_length _ _ Hh), Hlen in A.
      rewrite (proj2 (Z.ltb_ge _ _)) in A by lia. rewrite (proj2 (Z.eqb_eq _ _)) in A by lia.
      cbn [guard res_bind] in A. rewrite (proj2 (Z.leb_le _ _) Hfit) in A. exact A.
    + eexists. cbn [um_uploads]. rewrite assoc_get_set, bool_decide_true by done. split; [done|].
      cbn [up_user up_size up_sha256 up_purpose up_filename up_expires]. destruct Hrest as (? & ? & ? & _).
      split_and!; try done; [|lia]. unfold holds_chunks. cbn [up_data up_digests].
      rewrite Ht, concat_app, map_app, Hd, Hg2. cbn [concat map]. rewrite app_nil_r. split_and!; try done.
      apply Forall_snoc. split; [done|by split].
Qed.

Lemma feed_delivers cs user id base t l : Forall chunk_ok cs →
  validate_user_id user = Ok tt → validate_upload_id id = Ok tt →
  Forall (fun x => t <= x.2 ∧ x.1.2 < t + UPLOAD_LIFETIME_SECONDS) l →
  ∀ n m, delivering cs user id base t n m → in_order (length cs) n l →
  ∃ m', feed cs user id l m = (m', true) ∧ delivering cs user id base t (length cs) m'.
Proof.
  intros Hcs Hvu Hvi. induction l as [|[[i rn] now] l IH]; intros Ht n m D O; cbn [feed in_order] in *.
  - subst n. by exists m.
  - apply Forall_cons in Ht as [[H1 H2] Ht]. destruct O as (O1 & O2 & O3). cbn in H1, H2.
    destruct (deliver_step cs user id base t n m i rn now Hcs Hvu Hvi D O1 O2 H1 H2) as (m' & pub & -> & D').
    by apply (IH Ht _ _ D').
Qed.

Lemma started u p f cs sha fresh rn t m m1 pub : manager_ok m →
  start u p f (zlen (concat cs)) sha fresh rn t m = (m1, Ok pub) →
  validate_user_id u = Ok tt
  ∧ ∃ base, up_sha256 base = sha ∧ up_purpose base = p ∧ up_filename base = f
      ∧ delivering cs u fresh base t 0 m1.
Proof.
  intros Hm H. pose proof (start_ok u p f (zlen (concat cs)) sha fresh rn t m Hm) as Ho.
  rewrite H in Ho. cbn [fst] in Ho. unfold start, st_bind, st_lift in H.
  destruct (validate_user_id u) as [[]|]; [|done]. split; [done|].
  destruct (validate_metadata _ _ _ _) as [[]|]; [|done].
  destruct (UPLOAD_COUNT_MAX <=? _); [done|]. destruct (UPLOAD_BYTES_RESERVED_MAX <? _); [done|].
  destruct (assoc_get fresh _); [done|]. injection H as <- <-.
  eexists {| up_id := fresh; up_user := u; up_purpose := p; up_filename := f; up_size := zlen (concat cs);
    up_sha256 := sha; up_expires := t + UPLOAD_LIFETIME_SECONDS; up_data := []; up_digests := [] |}.
  do 3 (split; [done|]). split; [exact Ho|]. eexists. cbn [um_uploads].
  rewrite assoc_get_set, bool_decide_true by done. split; [done|]. by split_and!.
Qed.

(** C13. Chunked delivery reassembles the file: a client that starts an upload
    and sends its chunks in order, repeating any chunk it has already sent as
    often as it likes, has every append accepted and gets back from [complete]
    exactly the concatenation of the chunks; the upload is consumed. *)
Theorem upload_round_trip (m : manager) (user purpose filename id : pystr) (cs : list pybytes)
    (reap_now t end_now : Z) (attempts : list (nat * Z * Z)) (m1 : manager) (pub : EncryptedUpload) :
  manager_ok m → Forall chunk_ok cs → validate_upload_id id = Ok tt →
  start user purpose filename (zlen (concat cs)) (hexdigest (sha256 (concat cs))) id reap_now t m = (m1, Ok pub) →
  in_order (length cs) 0 attempts →
  Forall (fun x => t <= x.2 ∧ x.1.2 < t + UPLOAD_LIFETIME_SECONDS) attempts →
  end_now < t + UPLOAD_LIFETIME_SECONDS →
  ∃ m2 m3, feed cs user id attempts m1 = (m2, true)
    ∧ complete user id end_now m2
      = (m3, Ok {| cu_purpose := purpose; cu_filename := filename; cu_data := concat cs |})
    ∧ assoc_get id (um_uploads m3) = None.
Proof.
  intros Hm Hcs Hvi Hs Ho Ht He.
  destruct (started _ _ _ _ _ _ _ _ _ _ _ Hm Hs) as (Hvu & base & Hsha & <- & <- & D).
  destruct (feed_delivers cs user id base t attempts Hcs Hvu Hvi Ht 0 m1 D Ho)
    as (m2 & F & [Hm2 (state & Hg & (Hd & _) & Hu & Hsz & Hsh & Hp & Hf & Hexp)]).
  rewrite take_ge in Hd by done. exists m2.
  unfold complete, owned_upload, st_bind, st_lift. rewrite Hvu, Hvi.
  rewrite (reap_get end_now id state m2) by (apply Hm2 || done || lia).
  rewrite bool_decide_true by done. cbn [guard res_bind]. rewrite Hd, Hsz, Z.eqb_refl. cbn [negb].
  rewrite bool_decide_true by congruence. eexists. split; [done|]. split; [by rewrite Hp, Hf|].
  cbn [fst um_uploads pop_upload]. pose proof (mo_keys _ (reap_ok end_now m2 Hm2)) as Hn.
  rewrite assoc_pop_without, assoc_get_without by done. by rewrite bool_decide_true.
Qed.

(** C14. Limits and isolation: whatever the calls, at most eight uploads of at
    most 100 MiB together are in progress, each holding exactly a sequence of
    accepted chunks within its declared size; and a call of one user neither
    changes nor removes another user's upload before it expires. *)
Theorem uploads_bounded_isolated (calls : list call) (c : call) (k : pystr) (v : upload) :
  manager_ok (run_calls calls empty_manager)
  ∧ (assoc_get k (um_uploads (run_calls calls empty_manager)) = Some v →
     up_user v ≠ caller c → call_time c < up_expires v →
     assoc_get k (um_uploads (run_call c (run_calls calls empty_manager))) = Some v).
Proof.
  pose proof (run_calls_ok calls _ empty_manager_ok) as H. split; [done|]. by apply run_call_isolated.
Qed.

(** A completion that fails on the size drops the plaintext unwiped, unlike
    every other way to drop an upload. *)
Lemma size_mismatch_keeps_plaintext user id now m m' state :
  owned_upload user id now m = (m', Ok state) → zlen (up_data state) ≠ up_size state →
  complete user id now m = (pop_upload id (up_data state) m',
    raise ValueError "encrypted upload size does not match declaration").
Proof.
  intros H N. unfold complete, st_bind. rewrite H. by rewrite (proj2 (Z.eqb_neq _ _) N).
Qed.
End Spec.

(** ** Witnesses *)

#[local] Existing Instance toy_sha256.

Definition toy_id : pystr := repeat 97 32.
Definition toy_chunks : list pybytes := [[1; 2; 3]; [4; 5]].
Definition toy_attempts : list (nat * Z * Z) := [(0%nat, 11, 11); (0%nat, 12, 12); (1%nat, 13, 13); (0%nat, 14, 14)].
Definition toy_started : manager :=
  (start (u"user") (u"pi_config") (u"a.zip") 5 (hexdigest (sha256 [1; 2; 3; 4; 5])) toy_id 10 10 empty_manager).1.

Lemma upload_round_trip_witness :
  manager_ok empty_manager
  ∧ ∃ m2 m3, feed toy_chunks (u"user") toy_id toy_attempts toy_started = (m2, true)
    ∧ complete (u"user") toy_id 15 m2
      = (m3, Ok {| cu_purpose := u"pi_config"; cu_filename := u"a.zip"; cu_data := [1; 2; 3; 4; 5] |})
    ∧ assoc_get toy_id (um_uploads m3) = None.
Proof.
  split; [apply empty_manager_ok|].
  apply (upload_round_trip empty_manager (u"user") (u"pi_config") (u"a.zip") toy_id toy_chunks 10 10 15
           toy_attempts toy_started
           {| eu_id := toy_id; eu_purpose := u"pi_config"; eu_filename := u"a.zip"; eu_size := 5; eu_next_chunk := 0 |}).
  - apply empty_manager_ok.
  - repeat constructor; discriminate.
  - vm_compute. reflexivity.
  - vm_compute. reflexivity.
  - cbn. lia.
  - unfold UPLOAD_LIFETIME_SECONDS. repeat (constructor; [cbn; lia|]). constructor.
  - unfold UPLOAD_LIFETIME_SECONDS. lia.
Defined.

Lemma uploads_bounded_isolated_witness :
  manager_ok (run_calls [CStart (u"user") (u"pi_config") (u"a.zip") 5 (hexdigest (sha256 [])) toy_id 10 10] empty_manager)
  ∧ is_Some (assoc_get toy_id (um_uploads
      (run_call (CCancel (u"other") toy_id)
         (run_calls [CStart (u"user") (u"pi_config") (u"a.zip") 5 (hexdigest (sha256 [])) toy_id 10 10] empty_manager)))).
Proof.
  destruct (uploads_bounded_isolated
    [CStart (u"user") (u"pi_config") (u"a.zip") 5 (hexdigest (sha256 [])) toy_id 10 10]
    (CCancel (u"other") toy_id) toy_id
    {| up_id := toy_id; up_user := u"user"; up_purpose := u"pi_config"; up_filename := u"a.zip"; up_size := 5;
       up_sha256 := hexdigest (sha256 []); up_expires := 910; up_data := []; up_digests := [] |}) as [H1 H2].
  split; [exact H1|]. eexists. apply H2; [vm_compute; reflexivity|vm_compute; discriminate|cbn; lia].
Defined.
