(* ===== verification/RunnerCapabilities.v ===== *)
(** * Runner capabilities

    Models [services/runner_capabilities.py]: the short-lived Ed25519 tokens
    that bind a browser's Noise identity, a runner's Noise identity and a set
    of scopes for five minutes. The keys are the interfaces of [Crypto];
    arguments are typed, so the code's type tests on its arguments always
    pass, while the decoded payload is a JSON value and every test on it is
    written out. *)

From S2P Require Import Prelude Text Json JsonBytes Crypto.

Definition RUNNER_PROTOCOL_VERSION : pystr := u"yinshi-runner-v1".
Definition RUNNER_CAPABILITY_TTL_SECONDS : Z := 300.
Definition RUNNER_FRAME_BYTES_MAX : Z := 65535.
Definition RUNNER_SESSION_BYTES_MIN : Z := 65536.
Definition RUNNER_SESSION_BYTES_MAX : Z := 1073741824.
Definition RUNNER_SCOPES : list pystr :=
  [u"files.read"; u"files.write"; u"pi.configure"; u"provider.configure";
   u"repository.read"; u"repository.write"; u"session.read"; u"session.stream";
   u"session.write"; u"terminal"; u"transfer.read"; u"transfer.write";
   u"worker.health"; u"workspace.read"; u"workspace.write"].

Definition HEADER : list (pystr * json) :=
  [(u"alg", JStr (u"EdDSA")); (u"typ", JStr (u"YINSHI-RUNNER-CAP")); (u"v", JInt 1)].
Definition PAYLOAD_KEYS : list pystr :=
  [u"aud"; u"exp"; u"iat"; u"initiator_key"; u"jti"; u"max_frame_bytes";
   u"max_session_bytes"; u"protocol"; u"runner_id"; u"runner_key"; u"scopes"; u"sub";
   u"transfer_id"; u"v"].

Record VerifiedRunnerCapability := {
  user_id : pystr;
  runner_id : pystr;
  runner_public_key : pystr;
  initiator_public_key : pystr;
  transfer_id : pystr;
  token_id : pystr;
  scopes : list pystr;
  issued_at : Z;
  expires_at : Z;
  max_frame_bytes : Z;
  max_session_bytes : Z;
}.
#[export] Instance capability_eq_dec : EqDecision VerifiedRunnerCapability.
Proof. solve_decision. Defined.

Definition encode_base64url (value : pybytes) : res pystr :=
  check! guard (negb (bool_decide (value = []))) ValueError "value must not be empty" in
  Ok (b64url_encode value).

Definition decode_base64url (value : pystr) : res pybytes :=
  check! guard (negb (bool_decide (value = []))) ValueError "base64url value must not be empty" in
  let! decoded := reraise_as (b64decode (value ++ b64_padding value)) [BinasciiError; ValueError]
    ValueError "value is not valid base64url" in
  let! encoded := encode_base64url decoded in
  check! guard (bool_decide (encoded = value)) ValueError "value is not canonical base64url" in
  Ok decoded.

(** [sorted(strings)] *)
Definition sorted_strs (l : list pystr) : list pystr :=
  map fst (sort_items (map (fun s => (s, tt)) l)).

(** A member of a decoded [scopes] list. *)
Definition nonempty_str (v : json) : option pystr :=
  match v with
  | JStr s => if bool_decide (s = []) then None else Some s
  | _ => None
  end.

Definition validate_scopes (scopes : list json) : res (list pystr) :=
  check! guard (negb (bool_decide (zlen scopes = 0))) ValueError
    "runner capability scopes must not be empty" in
  match mapM nonempty_str scopes with
  | None => raise ValueError "runner capability scopes must be non-empty strings"
  | Some strings =>
      let normalized_scopes := sorted_strs strings in
      check! guard (bool_decide (NoDup normalized_scopes)) ValueError
        "runner capability scopes must not contain duplicates" in
      check! guard (forallb (fun scope => mem_str scope RUNNER_SCOPES) normalized_scopes) ValueError
        "runner capability contains an unsupported scope" in
      Ok normalized_scopes
  end.

(** [try: r except cs: return None] *)
Definition or_none {A B} (r : res A) (cs : list exc_class) (k : A → res (option B)) : res (option B) :=
  match r with
  | Ok a => k a
  | Raise e => if caught e cs then Ok None else Raise e
  end.

(** [if not b: return None] *)
Definition none_unless {B} (b : bool) (k : res (option B)) : res (option B) := if b then k else Ok None.

Notation "'try!' x ':=' m 'except' cs 'in' k" := (or_none m cs (fun x => k))
  (at level 10, x name, m at level 100, cs at level 100, k at level 200) : py_scope.
Notation "'need!' b 'in' k" := (none_unless b k)
  (at level 10, b at level 100, k at level 200) : py_scope.

Definition is_nonempty_str (payload : list (pystr * json)) (k : pystr) : bool :=
  match dict_get k payload with
  | Some v => bool_decide (is_Some (nonempty_str v))
  | None => false
  end.
Definition is_int (payload : list (pystr * json)) (k : pystr) : bool :=
  match dict_get k payload with Some (JInt _) => true | _ => false end.
(** [payload[k]] once the tests above have passed. *)
Definition str_field (payload : list (pystr * json)) (k : pystr) : pystr :=
  match dict_get k payload with Some (JStr s) => s | _ => [] end.
Definition int_field (payload : list (pystr * json)) (k : pystr) : Z :=
  match dict_get k payload with Some (JInt z) => z | _ => 0 end.

(** [header == _HEADER]: Python compares dictionaries without order, and
    numbers across types. *)
Definition header_matches (header : json) : bool :=
  match header with
  | JObj d =>
      has_keys d (dict_keys HEADER) && get_is_str d (u"alg") (u"EdDSA")
      && get_is_str d (u"typ") (u"YINSHI-RUNNER-CAP")
      && match dict_get (u"v") d with Some v => equals_small_int v 1 | None => false end
  | _ => false
  end.

Section Capabilities.
Context {ED : Ed25519} {RAW : Ed25519Raw} {X : X25519} {H : Hkdf} {FL : PyFloat}.

(** [_signing_key]; [secret_key] is the setting of that name. *)
Definition signing_key (secret_key : pystr) : res private_key :=
  let! secret := utf8_encode secret_key in
  check! guard (32 <=? zlen secret) RuntimeError
    "runner capability signing requires a 32-byte session secret" in
  let seed := hkdf_sha256 (u"yinshi-runner-capability-signing-v1")
                (u"Ed25519 runner dispatch capabilities") secret in
  check! guard (zlen seed =? 32) RuntimeError "runner capability signing key derivation failed" in
  Ok (private_from_bytes seed).

Definition runner_capability_signing_public_key (secret_key : pystr) : res pystr :=
  let! key := signing_key secret_key in
  let public := public_bytes_raw (public_of key) in
  check! guard (zlen public =? 32) RuntimeError "runner capability public key must contain 32 bytes" in
  encode_base64url public.

Definition validate_x25519_public_key (value : pystr) : res pystr :=
  check! guard (negb (bool_decide (value = []))) ValueError "key must not be empty" in
  let! key_bytes := decode_base64url value in
  check! guard (zlen key_bytes =? 32) ValueError "key must contain exactly 32 bytes" in
  check! guard (x25519_usable key_bytes) ValueError "key is not a usable X25519 key" in
  Ok value.

Definition capability_payload (claims : VerifiedRunnerCapability) : list (pystr * json) :=
  [(u"aud", JStr (u"yinshi-runner")); (u"exp", JInt (expires_at claims));
   (u"iat", JInt (issued_at claims)); (u"initiator_key", JStr (initiator_public_key claims));
   (u"jti", JStr (token_id claims)); (u"max_frame_bytes", JInt (max_frame_bytes claims));
   (u"max_session_bytes", JInt (max_session_bytes claims));
   (u"protocol", JStr RUNNER_PROTOCOL_VERSION); (u"runner_id", JStr (runner_id claims));
   (u"runner_key", JStr (runner_public_key claims));
   (u"scopes", JArr (map JStr (scopes claims))); (u"sub", JStr (user_id claims));
   (u"transfer_id", JStr (transfer_id claims)); (u"v", JInt 1)].

(** [_encode_base64url(json.dumps(d, ...).encode("utf-8"))] *)
Definition encode_segment (d : list (pystr * json)) : res pystr :=
  let! b := utf8_encode (dumps true true (JObj d)) in encode_base64url b.

(** The claims of a new capability; [uuid_bytes] is the [uuid4] it draws and
    [token_bytes] the sixteen bytes of [secrets.token_urlsafe(16)]. *)
Definition issued_claims (user_id_ runner_id_ runner_public_key_ initiator_public_key_ : pystr)
    (scopes_ : list pystr) (max_session_bytes_ current_time : Z) (uuid_bytes token_bytes : pybytes)
    : res VerifiedRunnerCapability :=
  check! guard (negb (bool_decide (user_id_ = []))) ValueError "user_id must not be empty" in
  check! guard (negb (bool_decide (runner_id_ = []))) ValueError "runner_id must not be empty" in
  let! normalized_runner_key := validate_x25519_public_key runner_public_key_ in
  let! normalized_initiator_key := validate_x25519_public_key initiator_public_key_ in
  let! normalized_scopes := validate_scopes (map JStr scopes_) in
  check! guard ((RUNNER_SESSION_BYTES_MIN <=? max_session_bytes_)
                && (max_session_bytes_ <=? RUNNER_SESSION_BYTES_MAX)) ValueError
    "max_session_bytes is outside the allowed range" in
  check! guard (0 <=? current_time) ValueError "current_time must be a non-negative integer" in
  Ok {|
    user_id := user_id_; runner_id := runner_id_;
    runner_public_key := normalized_runner_key; initiator_public_key := normalized_initiator_key;
    transfer_id := uuid_str uuid_bytes; token_id := b64url_encode token_bytes;
    scopes := normalized_scopes;
    issued_at := current_time; expires_at := current_time + RUNNER_CAPABILITY_TTL_SECONDS;
    max_frame_bytes := RUNNER_FRAME_BYTES_MAX; max_session_bytes := max_session_bytes_ |}.

Definition create_runner_capability (secret_key user_id_ runner_id_ runner_public_key_
    initiator_public_key_ : pystr) (scopes_ : list pystr) (max_session_bytes_ current_time : Z)
    (uuid_bytes token_bytes : pybytes) : res (pystr * VerifiedRunnerCapability) :=
  let! claims := issued_claims user_id_ runner_id_ runner_public_key_ initiator_public_key_ scopes_
                   max_session_bytes_ current_time uuid_bytes token_bytes in
  let! encoded_header := encode_segment HEADER in
  let! encoded_payload := encode_segment (capability_payload claims) in
  let signing_input := encoded_header ++ u"." ++ encoded_payload in
  let! key := signing_key secret_key in
  let! message := ascii_encode signing_input in
  let signature := ed_sign key message in
  check! guard (zlen signature =? 64) RuntimeError
    "runner capability signature must contain 64 bytes" in
  let! encoded_signature := encode_base64url signature in
  Ok (signing_input ++ u"." ++ encoded_signature, claims).

(** The tests of [_parse_verified_payload] up to the scopes. *)
Definition payload_fields_ok (d : list (pystr * json)) (expected_runner_id
    expected_runner_public_key : pystr) (current_time : Z) : bool :=
  has_keys d PAYLOAD_KEYS
  && get_is_str d (u"aud") (u"yinshi-runner")
  && match dict_get (u"v") d with Some v => equals_small_int v 1 | None => false end
  && get_is_str d (u"protocol") RUNNER_PROTOCOL_VERSION
  && get_is_str d (u"runner_id") expected_runner_id
  && get_is_str d (u"runner_key") expected_runner_public_key
  && forallb (is_nonempty_str d) [u"sub"; u"initiator_key"; u"jti"; u"transfer_id"]
  && forallb (is_int d) [u"iat"; u"exp"; u"max_frame_bytes"; u"max_session_bytes"]
  && (int_field d (u"iat") <=? current_time + 30) && (current_time <? int_field d (u"exp"))
  && (int_field d (u"exp") - int_field d (u"iat") =? RUNNER_CAPABILITY_TTL_SECONDS)
  && (int_field d (u"max_frame_bytes") =? RUNNER_FRAME_BYTES_MAX)
  && (RUNNER_SESSION_BYTES_MIN <=? int_field d (u"max_session_bytes"))
  && (int_field d (u"max_session_bytes") <=? RUNNER_SESSION_BYTES_MAX).

Definition parse_verified_payload (payload : json) (expected_runner_id
    expected_runner_public_key : pystr) (current_time : Z) : res (option VerifiedRunnerCapability) :=
  match payload with
  | JObj d =>
      need! payload_fields_ok d expected_runner_id expected_runner_public_key current_time in
      match dict_get (u"scopes") d with
      | Some (JArr scopes_value) =>
          try! initiator_key := validate_x25519_public_key (str_field d (u"initiator_key"))
            except [TypeError; ValueError] in
          try! normalized_scopes := validate_scopes scopes_value except [TypeError; ValueError] in
          need! canonical_uuid (str_field d (u"transfer_id")) in
          try! _ := decode_base64url (str_field d (u"jti")) except [TypeError; ValueError] in
          Ok (Some {|
            user_id := str_field d (u"sub"); runner_id := expected_runner_id;
            runner_public_key := expected_runner_public_key;
            initiator_public_key := initiator_key;
            transfer_id := str_field d (u"transfer_id"); token_id := str_field d (u"jti");
            scopes := normalized_scopes;
            issued_at := int_field d (u"iat"); expires_at := int_field d (u"exp");
            max_frame_bytes := int_field d (u"max_frame_bytes");
            max_session_bytes := int_field d (u"max_session_bytes") |})
      | _ => Ok None
      end
  | _ => Ok None
  end.

Definition json_loads : pybytes → res json := loads_bytes read_float read_constant dict_of_pairs.

Definition verify_runner_capability (token : pystr) (signing_public_key : pybytes)
    (expected_runner_id expected_runner_public_key : pystr) (current_time : Z)
    : res (option VerifiedRunnerCapability) :=
  need! negb (bool_decide (token = [])) && (zlen token <=? 8192) in
  need! (zlen signing_public_key =? 32) in
  need! negb (bool_decide (expected_runner_id = [])) in
  try! normalized_runner_key := validate_x25519_public_key expected_runner_public_key
    except [TypeError; ValueError] in
  match split_on 46 token with
  | [encoded_header; encoded_payload; encoded_signature] =>
      try! header_bytes := decode_base64url encoded_header except [UnicodeDecodeError; ValueError] in
      try! payload_bytes := decode_base64url encoded_payload except [UnicodeDecodeError; ValueError] in
      try! signature := decode_base64url encoded_signature except [UnicodeDecodeError; ValueError] in
      try! header := json_loads header_bytes
        except [UnicodeDecodeError; ValueError; JSONDecodeError] in
      need! header_matches header && (zlen signature =? 64) in
      let! signing_input := ascii_encode (encoded_header ++ u"." ++ encoded_payload) in
      match public_from_bytes signing_public_key with
      | None => Ok None
      | Some public_key =>
          need! ed_verify public_key signature signing_input in
          try! payload := json_loads payload_bytes except [UnicodeDecodeError; JSONDecodeError] in
          need! (0 <=? current_time) in
          parse_verified_payload payload expected_runner_id normalized_runner_key current_time
      end
  | _ => Ok None
  end.
End Capabilities.

(** ** Lemmas *)

Abbreviation all_bytes b := (Forall (fun x => is_byte x = true) b).

Lemma decode_encode b : all_bytes b → b ≠ [] → decode_base64url (b64url_encode b) = Ok b.
Proof.
  intros Hb Hne. unfold decode_base64url, encode_base64url.
  rewrite bool_decide_eq_false_2 by (destruct b as [|x [|y [|z b]]]; done).
  cbn [negb guard res_bind]. rewrite b64decode_encode by done. cbn [reraise_as res_bind].
  rewrite bool_decide_eq_false_2 by done. cbn [negb guard res_bind].
  by rewrite bool_decide_eq_true_2.
Qed.

Lemma decode_ok v b : decode_base64url v = Ok b → v = b64url_encode b ∧ all_bytes b ∧ b ≠ [].
Proof.
  unfold decode_base64url, encode_base64url. intros H.
  destruct (bool_decide (v = [])); [done|]. cbn [negb guard res_bind] in H.
  destruct (b64decode (v ++ b64_padding v)) as [d|e] eqn:E; cbn [reraise_as] in H; [|by case_match].
  cbn [res_bind] in H. destruct (bool_decide (d = [])) eqn:Ed; [done|]. cbn [negb guard res_bind] in H.
  destruct (bool_decide (b64url_encode d = v)) eqn:Ev; [|done]. cbn [guard res_bind] in H. breflect.
  injection H as <-. apply b64decode_ok in E as [Hb _]. done.
Qed.

Lemma encode_base64url_ok b s : encode_base64url b = Ok s ↔ b ≠ [] ∧ s = b64url_encode b.
Proof.
  unfold encode_base64url. case_bool_decide as E; cbn [negb guard res_bind].
  - split; [done|]. by intros [? _].
  - split; [by intros [= <-]|]. by intros [_ ->].
Qed.

Lemma token_chars_no_dot s : Forall (fun c => is_token_char c = true) s → 46 ∉ s.
Proof. rewrite Forall_forall. intros H Hin. by apply H in Hin. Qed.

Lemma token_chars_scalar s : Forall (fun c => is_token_char c = true) s → forallb is_scalar s = true.
Proof.
  intros H. apply forallb_Forall. eapply Forall_impl; [exact H|]. cbn. intros c Hc.
  unfold is_token_char, is_lower, is_upper, is_digit, is_scalar, is_surrogate in *. lia.
Qed.

Lemma ascii_encode_token s t : Forall (fun c => is_token_char c = true) s →
  Forall (fun c => is_token_char c = true) t → ascii_encode (s ++ u"." ++ t) = Ok (s ++ u"." ++ t).
Proof.
  intros Hs Ht. unfold ascii_encode.
  assert (A : ∀ l, Forall (fun c => is_token_char c = true) l →
            forallb (fun c => (0 <=? c) && (c <? 128)) l = true).
  { intros l Hl. apply forallb_Forall. eapply Forall_impl; [exact Hl|]. cbn. intros c Hc.
    unfold is_token_char, is_lower, is_upper, is_digit in *. lia. }
  by rewrite !forallb_app, (A s Hs), (A t Ht).
Qed.

Lemma validate_x25519_ok {X : X25519} v k : validate_x25519_public_key v = Ok k →
  k = v ∧ ∃ b, decode_base64url v = Ok b ∧ zlen b = 32 ∧ x25519_usable b = true.
Proof.
  unfold validate_x25519_public_key. intros H. inv_ok. breflect. split; [done|]. eauto.
Qed.

Lemma validate_x25519_scalar {X : X25519} v k : validate_x25519_public_key v = Ok k → forallb is_scalar v = true.
Proof.
  intros (_ & b & Hb & _)%validate_x25519_ok. apply decode_ok in Hb as (-> & Hb & _).
  by apply token_chars_scalar, b64url_encode_token.
Qed.

Lemma sorted_strs_perm l : sorted_strs l ≡ₚ l.
Proof.
  unfold sorted_strs. rewrite sort_items_perm, map_map. cbn. by rewrite map_id.
Qed.

Lemma sorted_strs_idem l : sorted_strs (sorted_strs l) = sorted_strs l.
Proof.
  unfold sorted_strs. rewrite map_map.
  replace (map (fun x : pystr * () => (x.1, tt)) (sort_items (map (fun s => (s, tt)) l)))
    with (sort_items (map (fun s : pystr => (s, tt)) l)).
  - by rewrite (sort_items_id (sort_items _)) by apply sort_items_sorted.
  - generalize (sort_items (map (fun s : pystr => (s, tt)) l)). intros k.
    induction k as [|[s []] k IH]; [done|]. cbn. by rewrite <- IH.
Qed.

Lemma mapM_nonempty_iff l strings : mapM nonempty_str l = Some strings ↔
  l = map JStr strings ∧ Forall (fun s => s ≠ []) strings.
Proof.
  rewrite mapM_Some. split.
  - induction 1 as [|v s l r Hv Hl [IH1 IH2]]; [done|]. destruct v as [| | | |t| |]; try done.
    cbn in Hv. case_bool_decide; [done|]. injection Hv as ->. split; [by rewrite IH1|by constructor].
  - intros [-> H]. induction H as [|s r Hs Hr IH]; [constructor|]. constructor; [|done].
    cbn. by rewrite bool_decide_eq_false_2.
Qed.

(** What [_validate_scopes] returns: the scopes of the list in order, without
    duplicates and allowed. *)
Lemma validate_scopes_ok l r : validate_scopes l = Ok r →
  ∃ strings, l = map JStr strings ∧ r = sorted_strs strings ∧ r ≠ [] ∧ NoDup r
  ∧ Forall (fun s => s ∈ RUNNER_SCOPES) r.
Proof.
  unfold validate_scopes. intros H. inv_ok. destruct (mapM nonempty_str l) as [strings|] eqn:E; [|done].
  apply mapM_nonempty_iff in E as [-> Hne]. inv_ok. breflect. exists strings. split_and!; try done.
  - intros Hnil. pose proof (sorted_strs_perm strings) as Hp. rewrite Hnil in Hp.
    apply Permutation_nil_l in Hp. by subst.
  - match goal with E : forallb _ _ = true |- _ => apply forallb_Forall in E; eapply Forall_impl; [exact E|] end.
    cbn. intros s. by rewrite mem_str_spec.
Qed.

Lemma validate_scopes_again l r : validate_scopes l = Ok r → validate_scopes (map JStr r) = Ok r.
Proof.
  intros Hv. pose proof (validate_scopes_ok _ _ Hv) as (strings & -> & -> & Hne & Hnd & Hin).
  unfold validate_scopes. rewrite (proj2 (mapM_nonempty_iff _ (sorted_strs strings))).
  2: { split; [done|]. eapply Forall_impl; [exact Hin|]. intros s Hs ->.
       by apply mem_str_spec in Hs. }
  rewrite bool_decide_eq_false_2.
  2: { intros Hz. apply Hne. destruct (sorted_strs strings); [done|]. exfalso. unfold zlen in Hz. cbn in Hz. lia. }
  cbn [negb guard res_bind]. rewrite sorted_strs_idem, bool_decide_eq_true_2 by done. cbn [guard res_bind].
  replace (forallb _ _) with true; [done|]. symmetry. apply forallb_Forall.
  eapply Forall_impl; [exact Hin|]. cbn. intros s. by rewrite mem_str_spec.
Qed.

(** ** The encoded payload *)

Lemma sort_strings l : map sort_json (map JStr l) = map JStr l.
Proof. rewrite map_map. by apply map_ext. Qed.

Lemma payload_sorted c : sort_json (JObj (capability_payload c)) = JObj (capability_payload c).
Proof.
  unfold capability_payload. cbn [sort_json map fst snd]. rewrite sort_strings. reflexivity.
Qed.

(** Claims whose strings have a JSON form of ASCII characters. *)
Definition claims_printable (c : VerifiedRunnerCapability) : Prop :=
  forallb is_scalar (user_id c) = true ∧ forallb is_scalar (runner_id c) = true
  ∧ forallb is_scalar (runner_public_key c) = true ∧ forallb is_scalar (initiator_public_key c) = true
  ∧ forallb is_scalar (transfer_id c) = true ∧ forallb is_scalar (token_id c) = true
  ∧ Forall (fun s => forallb is_scalar s = true) (scopes c)
  ∧ 0 <= issued_at c < 2 ^ 63 ∧ expires_at c = issued_at c + RUNNER_CAPABILITY_TTL_SECONDS
  ∧ max_frame_bytes c = RUNNER_FRAME_BYTES_MAX
  ∧ RUNNER_SESSION_BYTES_MIN <= max_session_bytes c <= RUNNER_SESSION_BYTES_MAX.

Lemma small_int_ok z : 0 <= z < 2 ^ 64 → json_ok true (JInt z) = true.
Proof.
  intros Hz. cbn [json_ok]. apply Z.leb_le. rewrite Z.abs_eq by lia.
  pose proof (nat_repr_len z). unfold INT_MAX_STR_DIGITS.
  pose proof (Z.log2_le_mono z (2 ^ 64) ltac:(lia)) as Hl. rewrite Z.log2_pow2 in Hl by lia. lia.
Qed.

Lemma payload_json_ok c : claims_printable c → json_ok true (JObj (capability_payload c)) = true.
Proof.
  intros (Hu & Hr & Hrk & Hik & Ht & Hj & Hs & Hi & He & Hf & Hm).
  unfold RUNNER_CAPABILITY_TTL_SECONDS, RUNNER_FRAME_BYTES_MAX, RUNNER_SESSION_BYTES_MIN,
    RUNNER_SESSION_BYTES_MAX in *.
  assert (I : ∀ z, 0 <= z < 2 ^ 64 → (zlen (nat_repr (Z.abs z)) <=? INT_MAX_STR_DIGITS) = true).
  { intros z Hz. exact (small_int_ok z Hz). }
  assert (Hsc : forallb (json_ok true) (map JStr (scopes c)) = true).
  { apply forallb_Forall, Forall_map. exact Hs. }
  unfold capability_payload. cbn [json_ok forallb fst snd].
  assert (S : ∀ s, str_ok true s = forallb is_scalar s) by done.
  rewrite !S, Hu, Hr, Hrk, Hik, Ht, Hj, Hsc, !I by lia. reflexivity.
Qed.

Section RoundTrip.
Context {ED : Ed25519} {RAW : Ed25519Raw} {X : X25519} {H : Hkdf} {FL : PyFloat}.

Lemma json_loads_payload c : claims_printable c →
  json_loads (dumps true true (JObj (capability_payload c))) = Ok (JObj (capability_payload c)).
Proof.
  intros Hc. unfold json_loads. rewrite loads_bytes_dumps; [|apply dict_of_pairs_nodup|by apply payload_json_ok].
  cbn [res_bind]. by rewrite payload_sorted.
Qed.

Lemma encode_segment_ok l s : json_ok true (JObj l) = true → encode_segment l = Ok s ↔
  s = b64url_encode (dumps true true (JObj l)).
Proof.
  intros Hok. unfold encode_segment. rewrite utf8_encode_text by by apply dumps_ascii.
  cbn [res_bind]. rewrite encode_base64url_ok. split; [by intros [_ ?]|]. intros ->. split; [|done].
  cbn [dumps]. done.
Qed.

Lemma segment_bytes l : json_ok true (JObj l) = true →
  all_bytes (dumps true true (JObj l)) ∧ dumps true true (JObj l) ≠ [].
Proof.
  intros Hok. split; [|done]. eapply Forall_impl; [by apply (dumps_ascii _ true)|].
  cbn beta. intros c Hc. unfold is_byte. lia.
Qed.

(** The fields of a printed payload pass the tests exactly in its window. *)
Lemma payload_fields_pass c now :
  user_id c ≠ [] → initiator_public_key c ≠ [] → token_id c ≠ [] → transfer_id c ≠ [] →
  claims_printable c →
  payload_fields_ok (capability_payload c) (runner_id c) (runner_public_key c) now
  = (issued_at c - 30 <=? now) && (now <? expires_at c).
Proof.
  intros Hu Hi Hj Ht (_ & _ & _ & _ & _ & _ & _ & _ & He & Hf & Hm). unfold payload_fields_ok.
  change (has_keys (capability_payload c) PAYLOAD_KEYS) with true.
  change (get_is_str (capability_payload c) (u"aud") (u"yinshi-runner")) with true.
  change (get_is_str (capability_payload c) (u"protocol") RUNNER_PROTOCOL_VERSION) with true.
  change (get_is_str (capability_payload c) (u"runner_id") (runner_id c))
    with (bool_decide (runner_id c = runner_id c)).
  change (get_is_str (capability_payload c) (u"runner_key") (runner_public_key c))
    with (bool_decide (runner_public_key c = runner_public_key c)).
  rewrite !(bool_decide_eq_true_2 (_ = _)) by done.
  change (forallb (is_int (capability_payload c)) _) with true.
  change (int_field (capability_payload c) (u"iat")) with (issued_at c).
  change (int_field (capability_payload c) (u"exp")) with (expires_at c).
  change (int_field (capability_payload c) (u"max_frame_bytes")) with (max_frame_bytes c).
  change (int_field (capability_payload c) (u"max_session_bytes")) with (max_session_bytes c).
  assert (N : ∀ k s, dict_get k (capability_payload c) = Some (JStr s) → s ≠ [] →
    is_nonempty_str (capability_payload c) k = true).
  { intros k s Hk Hs. unfold is_nonempty_str. rewrite Hk. apply bool_decide_eq_true_2. cbn.
    rewrite bool_decide_eq_false_2 by done. done. }
  cbn [forallb]. rewrite (N (u"sub") _ eq_refl Hu),
    (N (u"initiator_key") _ eq_refl Hi), (N (u"jti") _ eq_refl Hj), (N (u"transfer_id") _ eq_refl Ht).
  rewrite He in *. cbn [andb dict_get]. change (match dict_get _ _ with Some v => equals_small_int v 1 | None => false end) with true.
  lia.
Qed.

(** The token of issued claims. *)
Definition signed_token (key : private_key) (claims : VerifiedRunnerCapability) : pystr :=
  let input := b64url_encode (dumps true true (JObj HEADER)) ++ u"."
               ++ b64url_encode (dumps true true (JObj (capability_payload claims))) in
  input ++ u"." ++ b64url_encode (ed_sign key input).

(** Claims that have been issued for printable identifiers. *)
Record issued (c : VerifiedRunnerCapability) : Prop := {
  is_printable : claims_printable c;
  is_user : user_id c ≠ [];
  is_runner : runner_id c ≠ [];
  is_runner_key : validate_x25519_public_key (runner_public_key c) = Ok (runner_public_key c);
  is_initiator_key : validate_x25519_public_key (initiator_public_key c) = Ok (initiator_public_key c);
  is_transfer : canonical_uuid (transfer_id c) = true;
  is_token : ∃ b, decode_base64url (token_id c) = Ok b;
  is_scopes : validate_scopes (map JStr (scopes c)) = Ok (scopes c);
}.

Lemma hex_scalar s : forallb is_hex s = true → forallb is_scalar s = true.
Proof.
  rewrite !forallb_Forall. intros H1. eapply Forall_impl; [exact H1|]. cbn. intros c Hc.
  unfold is_hex, is_digit, is_scalar, is_surrogate in *. lia.
Qed.

Lemma uuid_str_scalar b : all_bytes b → forallb is_scalar (uuid_str b) = true.
Proof.
  intros Hb%hexdigest_is_hex%hex_scalar. apply forallb_Forall in Hb. apply forallb_Forall. unfold uuid_str.
  repeat first [apply Forall_app; split | apply Forall_cons; split]; try done;
    repeat first [apply Forall_take | apply Forall_drop]; done.
Qed.

Lemma scope_scalar s : s ∈ RUNNER_SCOPES → forallb is_scalar s = true.
Proof.
  intros Hs. assert (A : forallb (forallb is_scalar) RUNNER_SCOPES = true) by done.
  apply forallb_Forall in A. rewrite Forall_forall in A. auto.
Qed.

Lemma validate_x25519_nonempty v : validate_x25519_public_key v = Ok v → v ≠ [].
Proof. by intros Hv ->. Qed.

Lemma issued_claims_ok user_id_ runner_id_ rkey ikey scopes_ max_bytes now uuid_bytes token_bytes c :
  issued_claims user_id_ runner_id_ rkey ikey scopes_ max_bytes now uuid_bytes token_bytes = Ok c →
  forallb is_scalar user_id_ = true → forallb is_scalar runner_id_ = true → now < 2 ^ 63 →
  length uuid_bytes = 16%nat → all_bytes uuid_bytes → token_bytes ≠ [] → all_bytes token_bytes →
  issued c ∧ user_id c = user_id_ ∧ runner_id c = runner_id_ ∧ runner_public_key c = rkey
  ∧ issued_at c = now.
Proof.
  intros Hc Hu Hr Hnow Hl Hub Htn Htb. unfold issued_claims in Hc. inv_ok. breflect.
  pose proof (validate_x25519_scalar _ _ E1) as Hrk. pose proof (validate_x25519_scalar _ _ E2) as Hik.
  pose proof (validate_x25519_ok _ _ E1) as [-> _]. pose proof (validate_x25519_ok _ _ E2) as [-> _].
  pose proof (validate_scopes_again _ _ E3) as Hs.
  apply validate_scopes_ok in E3 as (strings & _ & _ & _ & _ & Hin).
  split_and!; try done. split; cbn; try done.
  - unfold claims_printable; cbn. split_and!; try done.
    + by apply uuid_str_scalar.
    + by apply token_chars_scalar, b64url_encode_token.
    + eapply Forall_impl; [exact Hin|]. apply scope_scalar.
  - by apply uuid_str_canonical.
  - exists token_bytes. by apply decode_encode.
Qed.

Lemma create_token {EL : Ed25519Laws} secret user_id_ runner_id_ rkey ikey scopes_ max_bytes now
    uuid_bytes token_bytes token c :
  create_runner_capability secret user_id_ runner_id_ rkey ikey scopes_ max_bytes now uuid_bytes token_bytes
    = Ok (token, c) → (∀ c, issued_claims user_id_ runner_id_ rkey ikey scopes_ max_bytes now uuid_bytes
                        token_bytes = Ok c → claims_printable c) →
  issued_claims user_id_ runner_id_ rkey ikey scopes_ max_bytes now uuid_bytes token_bytes = Ok c
  ∧ ∃ key, signing_key secret = Ok key ∧ token = signed_token key c.
Proof.
  intros Hc Hp. unfold create_runner_capability in Hc. inv_ok. specialize (Hp _ eq_refl).
  apply encode_segment_ok in E0 as ->; [|done].
  apply encode_segment_ok in E1 as ->; [|by apply payload_json_ok].
  assert (∀ l, json_ok true (JObj l) = true →
    Forall (fun x => is_token_char x = true) (b64url_encode (dumps true true (JObj l)))) as T.
  { intros l Hl. by apply b64url_encode_token, segment_bytes. }
  rewrite ascii_encode_token in E3 by (apply T; try done; by apply payload_json_ok). injection E3 as <-.
  apply encode_base64url_ok in E5 as [_ ->]. split; [done|]. exists a2. split; [done|].
  reflexivity.
Qed.

Lemma header_ok : json_ok true (JObj HEADER) = true.
Proof. done. Qed.

Lemma header_matches_header :
  json_loads (dumps true true (JObj HEADER)) = Ok (JObj HEADER) ∧ header_matches (JObj HEADER) = true.
Proof.
  split; [|done]. unfold json_loads. rewrite loads_bytes_dumps by (done || apply dict_of_pairs_nodup). done.
Qed.

Lemma parse_issued c now : issued c →
  parse_verified_payload (JObj (capability_payload c)) (runner_id c) (runner_public_key c) now
  = Ok (if (issued_at c - 30 <=? now) && (now <? expires_at c) then Some c else None).
Proof.
  intros [Hp Hu Hr Hrk Hik Ht [b Hb] Hs]. unfold parse_verified_payload.
  rewrite payload_fields_pass; try done.
  2: by apply validate_x25519_nonempty. 2: by intros E; rewrite E in Hb. 2: by intros E; rewrite E in Ht.
  destruct (_ && _); [|done].
  change (dict_get (u"scopes") (capability_payload c)) with (Some (JArr (map JStr (scopes c)))).
  change (str_field (capability_payload c) (u"initiator_key")) with (initiator_public_key c).
  change (str_field (capability_payload c) (u"transfer_id")) with (transfer_id c).
  change (str_field (capability_payload c) (u"jti")) with (token_id c).
  cbn [none_unless]. rewrite Hik. cbn [or_none]. rewrite Hs. cbn [or_none]. rewrite Ht. cbn [none_unless].
  rewrite Hb. cbn [or_none]. by destruct c.
Qed.

Lemma split_segments h p s : Forall (fun c => is_token_char c = true) h →
  Forall (fun c => is_token_char c = true) p → Forall (fun c => is_token_char c = true) s →
  split_on 46 ((h ++ u"." ++ p) ++ u"." ++ s) = [h; p; s].
Proof.
  intros Hh%token_chars_no_dot Hp%token_chars_no_dot Hs%token_chars_no_dot. rewrite <- app_assoc.
  change (h ++ (u"." ++ p) ++ u"." ++ s) with (h ++ 46 :: (p ++ 46 :: s)).
  rewrite !split_on_app by done. by rewrite split_on_plain.
Qed.

Lemma verify_issued {EL : Ed25519Laws} {RL : Ed25519RawLaws} key c now :
  issued c → 0 <= now → zlen (signed_token key c) <= 8192 →
  verify_runner_capability (signed_token key c) (public_bytes_raw (public_of key)) (runner_id c)
    (runner_public_key c) now
  = Ok (if (issued_at c - 30 <=? now) && (now <? expires_at c) then Some c else None).
Proof.
  intros Hi H0 Hlen. pose proof (is_printable c Hi) as Hp.
  destruct (segment_bytes HEADER header_ok) as [Hhb Hhn].
  destruct (segment_bytes (capability_payload c) (payload_json_ok c Hp)) as [Hpb Hpn].
  pose proof (b64url_encode_token _ Hhb) as Hht. pose proof (b64url_encode_token _ Hpb) as Hpt.
  unfold verify_runner_capability, signed_token in *.
  set (h := b64url_encode (dumps true true (JObj HEADER))) in *.
  set (p := b64url_encode (dumps true true (JObj (capability_payload c)))) in *.
  set (sig := ed_sign key (h ++ u"." ++ p)) in *.
  assert (Hsb : all_bytes sig) by apply ed_sign_bytes.
  assert (Hsl : zlen sig = 64) by (unfold zlen, sig; by rewrite ed_sign_length).
  rewrite bool_decide_eq_false_2 by (unfold h; done). rewrite (proj2 (Z.leb_le _ _) Hlen).
  cbn [negb andb none_unless]. unfold zlen at 1. rewrite public_raw_length.
  change (Z.of_nat 32 =? 32) with true. cbn [none_unless].
  rewrite bool_decide_eq_false_2 by apply Hi. cbn [negb none_unless]. rewrite (is_runner_key c Hi).
  cbn [or_none]. rewrite split_segments by (done || by apply b64url_encode_token).
  unfold h, p. rewrite !decode_encode; try done; [|by intros E; rewrite E in Hsl]. cbn [or_none].
  fold h p. destruct header_matches_header as [-> E]. cbn [or_none]. rewrite E, Hsl.
  change (true && (64 =? 64)) with true. cbn [none_unless].
  rewrite ascii_encode_token by done. cbn [res_bind]. rewrite public_from_raw.
  unfold sig. rewrite ed_verify_sign. cbn [none_unless]. rewrite json_loads_payload by done.
  cbn [or_none]. rewrite (proj2 (Z.leb_le 0 now)) by done. cbn [none_unless]. by apply parse_issued.
Qed.

Lemma or_none_some {A B} (m : res A) cs (k : A → res (option B)) b :
  or_none m cs k = Ok (Some b) → ∃ a, m = Ok a ∧ k a = Ok (Some b).
Proof. unfold or_none. destruct m; [eauto|]. by case_match. Qed.

Lemma none_unless_some {B} t (k : res (option B)) b :
  none_unless t k = Ok (Some b) → t = true ∧ k = Ok (Some b).
Proof. by destruct t. Qed.

Lemma nonempty_field d k : is_nonempty_str d k = true → dict_get k d = Some (JStr (str_field d k)).
Proof.
  unfold is_nonempty_str, str_field. destruct (dict_get k d) as [[| | | |s| |]|]; try done;
    intros [? ?]%bool_decide_eq_true_1; done.
Qed.

Lemma int_field_get d k : is_int d k = true → dict_get k d = Some (JInt (int_field d k)).
Proof. unfold is_int, int_field. by destruct (dict_get k d) as [[]|]. Qed.

(** What an accepted payload says of the claims returned for it. *)
Lemma parse_verified_ok payload rid rkey now c :
  parse_verified_payload payload rid rkey now = Ok (Some c) →
  (∃ d, payload = JObj d ∧ has_keys d PAYLOAD_KEYS = true
     ∧ dict_get (u"sub") d = Some (JStr (user_id c)) ∧ dict_get (u"jti") d = Some (JStr (token_id c))
     ∧ dict_get (u"initiator_key") d = Some (JStr (initiator_public_key c))
     ∧ dict_get (u"transfer_id") d = Some (JStr (transfer_id c))
     ∧ dict_get (u"exp") d = Some (JInt (expires_at c)) ∧ dict_get (u"iat") d = Some (JInt (issued_at c))
     ∧ ∃ l, dict_get (u"scopes") d = Some (JArr (map JStr l)) ∧ scopes c = sorted_strs l)
  ∧ runner_id c = rid ∧ runner_public_key c = rkey
  ∧ issued_at c <= now + 30 ∧ now < expires_at c
  ∧ expires_at c = issued_at c + RUNNER_CAPABILITY_TTL_SECONDS
  ∧ max_frame_bytes c = RUNNER_FRAME_BYTES_MAX
  ∧ RUNNER_SESSION_BYTES_MIN <= max_session_bytes c <= RUNNER_SESSION_BYTES_MAX
  ∧ scopes c ≠ [] ∧ NoDup (scopes c) ∧ Forall (fun s => s ∈ RUNNER_SCOPES) (scopes c).
Proof.
  intros Hp. unfold parse_verified_payload in Hp. destruct payload as [| | | | | |d]; try done.
  apply none_unless_some in Hp as [Hf Hp].
  destruct (dict_get (u"scopes") d) as [[| | | | |l|]|] eqn:El; try done.
  apply or_none_some in Hp as (ikey & [-> _]%validate_x25519_ok & Hp).
  apply or_none_some in Hp as (sc & (strings & -> & Hsc)%validate_scopes_ok & Hp).
  apply none_unless_some in Hp as [_ Hp]. apply or_none_some in Hp as (? & _ & Hp).
  unfold payload_fields_ok in Hf.
  set (ex := int_field d (u"exp")) in *. set (ia := int_field d (u"iat")) in *.
  set (mf := int_field d (u"max_frame_bytes")) in *. set (ms := int_field d (u"max_session_bytes")) in *.
  injection Hp as <-. cbn [forallb andb] in Hf. breflect.
  repeat match goal with
  | E : is_nonempty_str _ _ = true |- _ => apply nonempty_field in E
  | E : is_int _ _ = true |- _ => apply int_field_get in E
  end.
  destruct Hsc as (-> & Hne & Hnd & Hin). cbn [user_id runner_id runner_public_key initiator_public_key
    transfer_id token_id scopes issued_at expires_at max_frame_bytes max_session_bytes].
  split; [|split_and!; done || lia]. exists d. split_and!; try done. by exists strings.
Qed.
Lemma get_is_str_some d k v : get_is_str d k v = true → dict_get k d = Some (JStr v).
Proof. unfold get_is_str. intros E. destruct (dict_get k d) as [[]|]; try done. by breflect; subst. Qed.

Lemma nonempty_value d k : is_nonempty_str d k = true → str_field d k ≠ [].
Proof. unfold is_nonempty_str, str_field. by destruct (dict_get k d) as [[| | | |[|]| |]|]. Qed.

(** The payload of a capability with the claims [c]: its fields and their
    values. *)
Record signed_payload (d : list (pystr * json)) (c : VerifiedRunnerCapability) : Prop := {
  pl_keys : has_keys d PAYLOAD_KEYS = true;
  pl_audience : dict_get (u"aud") d = Some (JStr (u"yinshi-runner"));
  pl_version : ∃ v, dict_get (u"v") d = Some v ∧ equals_small_int v 1 = true;
  pl_protocol : dict_get (u"protocol") d = Some (JStr RUNNER_PROTOCOL_VERSION);
  pl_runner : dict_get (u"runner_id") d = Some (JStr (runner_id c));
  pl_runner_key : dict_get (u"runner_key") d = Some (JStr (runner_public_key c));
  pl_user : dict_get (u"sub") d = Some (JStr (user_id c));
  pl_token : dict_get (u"jti") d = Some (JStr (token_id c));
  pl_initiator : dict_get (u"initiator_key") d = Some (JStr (initiator_public_key c));
  pl_transfer : dict_get (u"transfer_id") d = Some (JStr (transfer_id c));
  pl_issued : dict_get (u"iat") d = Some (JInt (issued_at c));
  pl_expires : dict_get (u"exp") d = Some (JInt (expires_at c));
  pl_frame : dict_get (u"max_frame_bytes") d = Some (JInt (max_frame_bytes c));
  pl_session : dict_get (u"max_session_bytes") d = Some (JInt (max_session_bytes c));
  pl_scopes : ∃ l, dict_get (u"scopes") d = Some (JArr (map JStr l)) ∧ scopes c = sorted_strs l;
}.

(** Claims for a runner at a time. *)
Record valid_claims (rid rkey : pystr) (now : Z) (c : VerifiedRunnerCapability) : Prop := {
  vc_runner : runner_id c = rid ∧ runner_public_key c = rkey;
  vc_user : user_id c ≠ [];
  vc_window : 0 <= now ∧ issued_at c - 30 <= now < expires_at c;
  vc_lifetime : expires_at c = issued_at c + RUNNER_CAPABILITY_TTL_SECONDS;
  vc_frame : max_frame_bytes c = RUNNER_FRAME_BYTES_MAX;
  vc_session : RUNNER_SESSION_BYTES_MIN <= max_session_bytes c <= RUNNER_SESSION_BYTES_MAX;
  vc_initiator : validate_x25519_public_key (initiator_public_key c) = Ok (initiator_public_key c);
  vc_transfer : canonical_uuid (transfer_id c) = true;
  vc_token : ∃ b, decode_base64url (token_id c) = Ok b;
  vc_scopes : scopes c ≠ [] ∧ NoDup (scopes c) ∧ Forall (fun x => x ∈ RUNNER_SCOPES) (scopes c);
}.

Lemma parse_verified_claims payload rid rkey now c : 0 <= now → parse_verified_payload payload rid rkey now = Ok (Some c) →
  ∃ d, payload = JObj d ∧ signed_payload d c ∧ valid_claims rid rkey now c.
Proof.
  intros Hnow Hp. pose proof (parse_verified_ok _ _ _ _ _ Hp) as ((d & -> & Hk & H1 & H2 & H3 & H4 & H5 & H6 & H7) & Hr & Hrk & Hi & Hn & He & Hf & Hm & Hs).
  exists d. split; [done|]. unfold parse_verified_payload in Hp. apply none_unless_some in Hp as [Hd Hp].
  destruct (dict_get (u"scopes") d) as [[| | | | |l|]|] eqn:El; try done.
  apply or_none_some in Hp as (ikey & Hv & Hp). pose proof (validate_x25519_ok _ _ Hv) as [-> _].
  apply or_none_some in Hp as (sc & _ & Hp). apply none_unless_some in Hp as [Hu Hp]. apply or_none_some in Hp as (b & Hb & Hp).
  unfold payload_fields_ok in Hd. cbn [forallb andb] in Hd.
  set (mf := int_field d (u"max_frame_bytes")) in *. set (ms := int_field d (u"max_session_bytes")) in *.
  injection Hp as <-. cbn [user_id runner_id runner_public_key initiator_public_key transfer_id token_id scopes issued_at
    expires_at max_frame_bytes max_session_bytes] in *.
  destruct (dict_get (u"v") d) as [v|] eqn:Ev; [|breflect; done]. breflect.
  repeat match goal with
  | E : get_is_str _ _ _ = true |- _ => apply get_is_str_some in E
  | E : is_nonempty_str _ (u"sub") = true |- _ => apply nonempty_value in E
  | E : is_int _ (u"max_frame_bytes") = true |- _ => apply int_field_get in E
  | E : is_int _ (u"max_session_bytes") = true |- _ => apply int_field_get in E
  end.
  split; split; cbn [user_id runner_id runner_public_key initiator_public_key transfer_id token_id scopes issued_at
    expires_at max_frame_bytes max_session_bytes]; try done; try lia; try (by eexists).
  rewrite El. exact H7.
Qed.
End RoundTrip.

(** ** Properties *)

Section Properties.
Context {ED : Ed25519} {RAW : Ed25519Raw} {X : X25519} {HK : Hkdf} {FL : PyFloat}.

(** C16. Round trip: a capability issued for printable identifiers verifies
    under the control plane's public key, for its own runner and from thirty
    seconds before its issue until it expires, and returns the issued claims;
    outside that window it is refused. *)
Theorem capability_round_trip {EL : Ed25519Laws} {RL : Ed25519RawLaws}
    secret user runner rkey ikey scopes_ max_bytes t uuid_bytes token_bytes token c key now :
  create_runner_capability secret user runner rkey ikey scopes_ max_bytes t uuid_bytes token_bytes
    = Ok (token, c) →
  signing_key secret = Ok key →
  forallb is_scalar user = true → forallb is_scalar runner = true → t < 2 ^ 63 →
  length uuid_bytes = 16%nat → all_bytes uuid_bytes → token_bytes ≠ [] → all_bytes token_bytes →
  zlen token <= 8192 → 0 <= now →
  verify_runner_capability token (public_bytes_raw (public_of key)) runner rkey now
    = Ok (if (t - 30 <=? now) && (now <? t + RUNNER_CAPABILITY_TTL_SECONDS) then Some c else None).
Proof.
  intros Hc Hk Hu Hr Ht Hl Hub Htn Htb Hlen Hnow.
  assert (Hi : ∀ c, issued_claims user runner rkey ikey scopes_ max_bytes t uuid_bytes token_bytes = Ok c →
    issued c ∧ user_id c = user ∧ runner_id c = runner ∧ runner_public_key c = rkey ∧ issued_at c = t)
    by (intros; by eapply issued_claims_ok).
  apply create_token in Hc as (Hc & key' & Hk' & ->); [|intros c' Hc'; by apply is_printable, Hi].
  apply Hi in Hc as (Hic & _ & <- & <- & <-). rewrite Hk in Hk'. injection Hk' as <-.
  rewrite verify_issued by done. by destruct (is_printable c Hic) as (_ & _ & _ & _ & _ & _ & _ & _ & <- & _).
Qed.

(** C17. Soundness: whatever token is presented, claims are returned only if it
    is bounded and has three segments, the header is the pinned one, its
    signature verifies over its first two segments under the pinned key, and
    the payload that it signs has exactly the fields of a capability and names
    exactly these claims. They are for the expected runner identity and inside
    their five-minute window, with the one frame limit and a session limit in
    its range; the identifiers and the key of the initiator are well formed;
    and the scopes are the signed ones in order: at least one, distinct, all
    allowed. *)
Theorem verify_runner_capability_sound token pk rid rkey now c :
  verify_runner_capability token pk rid rkey now = Ok (Some c) →
  zlen token <= 8192 ∧ zlen pk = 32 ∧ rid ≠ []
  ∧ ∃ header_text h p s key payload header d,
    token = (h ++ u"." ++ p) ++ u"." ++ b64url_encode s
    ∧ h = b64url_encode header_text ∧ json_loads header_text = Ok header ∧ header_matches header = true
    ∧ zlen s = 64 ∧ public_from_bytes pk = Some key ∧ ed_verify key s (h ++ u"." ++ p) = true
    ∧ p = b64url_encode payload ∧ json_loads payload = Ok (JObj d)
    ∧ signed_payload d c ∧ valid_claims rid rkey now c.
Proof.
  intros Hv. unfold verify_runner_capability in Hv.
  apply none_unless_some in Hv as [Ht Hv]. apply none_unless_some in Hv as [Hpk Hv]. apply none_unless_some in Hv as [Hrid Hv].
  apply or_none_some in Hv as (k & [-> _]%validate_x25519_ok & Hv).
  destruct (split_on 46 token) as [|h [|p [|s [|]]]] eqn:Es; try done.
  apply split_on_concat in Es. cbn in Es. rewrite app_nil_r in Es.
  apply or_none_some in Hv as (hb & (-> & _ & _)%decode_ok & Hv). apply or_none_some in Hv as (pb & (-> & _ & _)%decode_ok & Hv).
  apply or_none_some in Hv as (sb & (-> & _ & _)%decode_ok & Hv). apply or_none_some in Hv as (header & Hh & Hv).
  apply none_unless_some in Hv as [Hm Hv]. unfold ascii_encode in Hv. destruct (forallb _ _); [|done].
  cbn [guard res_bind] in Hv. destruct (public_from_bytes pk) as [key|]; [|done].
  apply none_unless_some in Hv as [Hsig Hv]. apply or_none_some in Hv as (payload & Hpl & Hv).
  apply none_unless_some in Hv as [Hnow%Z.leb_le Hv]. apply (parse_verified_claims _ _ _ _ _ Hnow) in Hv as (d & -> & Hd & Hc).
  breflect. split_and!; [done..|]. exists hb, (b64url_encode hb), (b64url_encode pb), sb, key, pb, header, d.
  split_and!; try done. by rewrite Es, <- !app_assoc.
Qed.
End Properties.

(** ** The hypotheses can hold *)

Definition toy_float : PyFloat := fun lit => lit.
Definition toy_secret : pystr := repeat 115 32.
Definition toy_runner_key : pystr := b64url_encode (repeat 9 32).
Definition toy_browser_key : pystr := b64url_encode (repeat 10 32).
Definition toy_created : res (pystr * VerifiedRunnerCapability) :=
  @create_runner_capability toy_ed25519 toy_ed25519_raw toy_x25519 toy_hkdf toy_secret (u"user-1")
    (u"runner-1") toy_runner_key toy_browser_key [u"terminal"; u"files.read"] 1048576 1000
    (repeat 66 16) (repeat 17 16).
Definition toy_token : pystr := match toy_created with Ok p => p.1 | Raise _ => [] end.
Definition toy_claims : VerifiedRunnerCapability := {|
  user_id := u"user-1"; runner_id := u"runner-1"; runner_public_key := toy_runner_key;
  initiator_public_key := toy_browser_key; transfer_id := uuid_str (repeat 66 16);
  token_id := b64url_encode (repeat 17 16); scopes := [u"files.read"; u"terminal"];
  issued_at := 1000; expires_at := 1300; max_frame_bytes := 65535; max_session_bytes := 1048576 |}.
Definition toy_verified (now : Z) : res (option VerifiedRunnerCapability) :=
  @verify_runner_capability toy_ed25519 toy_ed25519_raw toy_x25519 toy_float toy_token (repeat 5 32)
    (u"runner-1") toy_runner_key now.

Lemma toy_issue : toy_created = Ok (toy_token, toy_claims).
Proof. vm_compute. reflexivity. Qed.

Lemma toy_bytes (x : Z) (n : nat) : is_byte x = true → all_bytes (repeat x n).
Proof. intros Hx. induction n; [constructor|by constructor]. Qed.

Lemma capability_round_trip_witness : toy_verified 1299 = Ok (Some toy_claims) ∧ toy_verified 1300 = Ok None.
Proof.
  assert (H : ∀ now, 0 <= now →
    toy_verified now = Ok (if (970 <=? now) && (now <? 1300) then Some toy_claims else None)).
  { intros now Hnow. apply (capability_round_trip (FL := toy_float) (EL := toy_ed25519_laws) (RL := toy_ed25519_raw_laws)
      toy_secret (u"user-1") (u"runner-1") toy_runner_key toy_browser_key [u"terminal"; u"files.read"]
      1048576 1000 (repeat 66 16) (repeat 17 16) toy_token toy_claims tt now toy_issue).
    - reflexivity.
    - reflexivity.
    - reflexivity.
    - lia.
    - reflexivity.
    - by apply toy_bytes.
    - done.
    - by apply toy_bytes.
    - apply Z.leb_le. vm_compute. reflexivity.
    - exact Hnow. }
  split; [exact (H 1299 ltac:(lia))|exact (H 1300 ltac:(lia))].
Defined.

Lemma verify_runner_capability_sound_witness :
  toy_verified 1299 = Ok (Some toy_claims) ∧ 970 <= 1299 < 1300 ∧ NoDup [u"files.read"; u"terminal"].
Proof.
  assert (E : toy_verified 1299 = Ok (Some toy_claims)) by (vm_compute; reflexivity). split; [exact E|].
  destruct (verify_runner_capability_sound (ED := toy_ed25519) (RAW := toy_ed25519_raw) (X := toy_x25519)
    (FL := toy_float) toy_token (repeat 5 32) (u"runner-1") toy_runner_key 1299 toy_claims E)
    as (_ & _ & _ & ? & ? & ? & ? & ? & ? & ? & ? & _ & _ & _ & _ & _ & _ & _ & _ & _ & _ & [_ _ [_ Hw] _ _ _ _ _ _ (_ & Hn & _)]).
  split; [exact Hw|exact Hn].
Defined.
