(* ===== verification/RunnerNoise.v ===== *)
(** * The runner's Noise channel

    Models [services/runner_noise.py] (the responder of the two-message IK
    handshake) and [services/runner_noise_session.py] (the durable store of
    consumed capabilities and the capability-bound session). The Noise library
    and X25519 are an interface; key files and the file that holds the store
    are not modelled. A method that mutates its object is a function from the
    object to the new object and a result, which a raise keeps. *)

From S2P Require Import Prelude Text Json JsonBytes Crypto RunnerCapabilities.

Definition X25519_KEY_LENGTH : Z := 32.
Definition NOISE_IK_FIRST_MESSAGE_MIN_LENGTH : Z := 96.
Definition NOISE_IK_SECOND_MESSAGE_MIN_LENGTH : Z := 48.
Definition NOISE_MESSAGE_MAX_LENGTH : Z := 65535.
Definition RUNNER_NOISE_PROLOGUE : pybytes := u"yinshi-runner-v1".
Definition MESSAGES_BEFORE_REHANDSHAKE : Z := 1048576.

(** A [NoiseConnection] for [Noise_IK_25519_ChaChaPoly_SHA256] set as
    responder, and the X25519 public key of a private one. *)
Class Noise := {
  noise_conn : Type;
  noise_start : pybytes → pybytes → noise_conn;
  noise_read : noise_conn → pybytes → noise_conn * res pybytes;
  noise_remote_static : noise_conn → pybytes;
  noise_write : noise_conn → pybytes → noise_conn * res pybytes;
  noise_encrypt : noise_conn → pybytes → noise_conn * res pybytes;
  noise_decrypt : noise_conn → pybytes → noise_conn * res pybytes;
  x25519_public : pybytes → pybytes;
}.
(** A transport message is its plaintext and a tag of sixteen bytes. *)
Class NoiseLaws `{Noise} := {
  noise_encrypt_length : ∀ c p c' m, noise_encrypt c p = (c', Ok m) → zlen m = zlen p + 16;
  noise_decrypt_length : ∀ c m c' p, noise_decrypt c m = (c', Ok p) → zlen p = zlen m - 16;
}.

(** The classes the responder turns into [ValueError]. *)
Definition READ_ERRORS : list exc_class :=
  [InvalidTag; NoiseHandshakeError; NoiseInvalidMessage; NoiseMaxNonceError; NoiseValidationError;
   NoiseValueError].
Definition WRITE_ERRORS : list exc_class :=
  [NoiseHandshakeError; NoiseInvalidMessage; NoiseMaxNonceError; NoiseValidationError; NoiseValueError].
Definition ENCRYPT_ERRORS : list exc_class := [NoiseMaxNonceError; NoiseValidationError; NoiseValueError].
Definition DECRYPT_ERRORS : list exc_class :=
  [InvalidTag; NoiseInvalidMessage; NoiseMaxNonceError; NoiseValidationError; NoiseValueError].

Section Responder.
Context {N : Noise}.

(** ** [NoiseIkResponder] *)

Record responder := {
  rs_connection : noise_conn;
  rs_first_message_read : bool;
  rs_handshake_complete : bool;
  rs_initiator : option pybytes;
}.

Definition new_responder (static_private_key prologue : pybytes) : res responder :=
  check! guard (zlen static_private_key =? X25519_KEY_LENGTH) ValueError
    "static_private_key must contain exactly 32 bytes" in
  check! guard (zlen prologue <=? NOISE_MESSAGE_MAX_LENGTH) ValueError "prologue is too large" in
  Ok {| rs_connection := noise_start static_private_key prologue; rs_first_message_read := false;
        rs_handshake_complete := false; rs_initiator := None |}.

Definition initiator_static_public_key (r : responder) : res pybytes :=
  match rs_initiator r with
  | None => raise RuntimeError "Noise IK initiator identity is not authenticated"
  | Some k => Ok k
  end.

Definition with_connection (c : noise_conn) (r : responder) : responder := {|
  rs_connection := c; rs_first_message_read := rs_first_message_read r;
  rs_handshake_complete := rs_handshake_complete r; rs_initiator := rs_initiator r |}.

Definition read_handshake_message (message : pybytes) : st responder pybytes := fun r =>
  if rs_first_message_read r then (r, raise RuntimeError "Noise IK initiator message was already read")
  else if negb ((NOISE_IK_FIRST_MESSAGE_MIN_LENGTH <=? zlen message)
                && (zlen message <=? NOISE_MESSAGE_MAX_LENGTH))
  then (r, raise ValueError "Noise IK initiator message has an invalid length")
  else
    let '(c, payload) := noise_read (rs_connection r) message in
    let r := with_connection c r in
    match reraise_as payload READ_ERRORS ValueError "Noise IK initiator message failed authentication" with
    | Raise e => (r, Raise e)
    | Ok payload =>
        let remote_static := noise_remote_static c in
        if negb (zlen remote_static =? X25519_KEY_LENGTH)
        then (r, raise ValueError "Noise IK initiator public key must contain exactly 32 bytes")
        else ({| rs_connection := c; rs_first_message_read := true;
                 rs_handshake_complete := rs_handshake_complete r;
                 rs_initiator := Some remote_static |}, Ok payload)
    end.

Definition write_handshake_message (payload : pybytes) : st responder pybytes := fun r =>
  if negb (rs_first_message_read r) || rs_handshake_complete r
  then (r, raise RuntimeError "Noise IK responder is not ready to finish the handshake")
  else if NOISE_MESSAGE_MAX_LENGTH - NOISE_IK_SECOND_MESSAGE_MIN_LENGTH <? zlen payload
  then (r, raise ValueError "Noise IK responder payload is too large")
  else
    let '(c, message) := noise_write (rs_connection r) payload in
    let r := with_connection c r in
    match reraise_as message WRITE_ERRORS ValueError "Noise IK responder message could not be created" with
    | Raise e => (r, Raise e)
    | Ok message =>
        if negb ((NOISE_IK_SECOND_MESSAGE_MIN_LENGTH <=? zlen message)
                 && (zlen message <=? NOISE_MESSAGE_MAX_LENGTH))
        then (r, raise RuntimeError "Noise IK responder produced an invalid message")
        else ({| rs_connection := c; rs_first_message_read := rs_first_message_read r;
                 rs_handshake_complete := true; rs_initiator := rs_initiator r |}, Ok message)
    end.

Definition responder_encrypt (plaintext : pybytes) : st responder pybytes := fun r =>
  if negb (rs_handshake_complete r) then (r, raise RuntimeError "Noise IK transport is not ready")
  else if NOISE_MESSAGE_MAX_LENGTH - 16 <? zlen plaintext
  then (r, raise ValueError "Noise transport plaintext is too large")
  else
    let '(c, m) := noise_encrypt (rs_connection r) plaintext in
    (with_connection c r, reraise_as m ENCRYPT_ERRORS ValueError "Noise transport encryption failed").

Definition responder_decrypt (ciphertext : pybytes) : st responder pybytes := fun r =>
  if negb (rs_handshake_complete r) then (r, raise RuntimeError "Noise IK transport is not ready")
  else if negb ((16 <=? zlen ciphertext) && (zlen ciphertext <=? NOISE_MESSAGE_MAX_LENGTH))
  then (r, raise ValueError "Noise transport ciphertext has an invalid length")
  else
    let '(c, m) := noise_decrypt (rs_connection r) ciphertext in
    (with_connection c r,
     reraise_as m DECRYPT_ERRORS ValueError "Noise transport ciphertext failed authentication").
End Responder.
Arguments responder : clear implicits.

(** ** [RunnerCapabilityReplayStore] *)

(** The rows of [consumed_runner_capabilities]. *)
Record consumed := { cs_token_id : pystr; cs_expires_at : Z; cs_consumed_at : Z }.
Abbreviation replay_store := (list consumed).

(** What SQLite does to one transaction besides its statements: nothing, an
    error before the commit (closing the connection rolls back), or an error
    of the commit, after which the rows may be durable or not. *)
Inductive store_fault := NoFault | FailBefore | FailCommit (durable : bool).

(** [PRIMARY KEY (token_id)] and [CHECK (expires_at > consumed_at)]. *)
Definition insert_consumed (row : consumed) (rows : replay_store) : res replay_store :=
  check! guard (cs_consumed_at row <? cs_expires_at row) IntegrityError "CHECK constraint failed" in
  check! guard (negb (existsb (fun r => bool_decide (cs_token_id r = cs_token_id row)) rows))
    IntegrityError "UNIQUE constraint failed" in
  Ok (rows ++ [row]).

Definition consume (token_id : pystr) (expires_at current_time : Z) (fault : store_fault)
    : st replay_store bool := fun rows =>
  if bool_decide (token_id = []) then (rows, raise ValueError "token_id must not be empty")
  else if 128 <? zlen token_id then (rows, raise ValueError "token_id is too large")
  else if expires_at <=? current_time
  then (rows, raise ValueError "capability must be unexpired when consumed")
  else match fault with
  | FailBefore => (rows, raise SqliteError "disk I/O error")
  | _ =>
      let kept := List.filter (fun r => negb (cs_expires_at r <=? current_time)) rows in
      let row := {| cs_token_id := token_id; cs_expires_at := expires_at;
                    cs_consumed_at := current_time |} in
      match insert_consumed row kept with
      | Raise e => if caught e [IntegrityError] then (rows, Ok false) else (rows, Raise e)
      | Ok inserted =>
          match fault with
          | FailCommit durable =>
              (if durable then inserted else rows, raise SqliteError "disk I/O error")
          | _ => (inserted, Ok true)
          end
      end
  end.

(** ** [RunnerNoiseSession] *)

Section Session.
Context {ED : Ed25519} {RAW : Ed25519Raw} {X : X25519} {FL : PyFloat} {N : Noise}.

Record noise_session := {
  ns_runner_id : pystr;
  ns_runner_public_key : pystr;
  ns_signing_public_key : pybytes;
  ns_responder : responder N;
  ns_capability : option VerifiedRunnerCapability;
  ns_failed : bool;
  ns_messages_sent : Z;
  ns_messages_received : Z;
  ns_ciphertext_bytes : Z;
}.

Definition new_noise_session (runner_id_ : pystr) (runner_static_private_key
    capability_signing_public_key : pybytes) : res noise_session :=
  check! guard (negb (bool_decide (runner_id_ = []))) ValueError "runner_id must not be empty" in
  check! guard (zlen runner_static_private_key =? X25519_KEY_LENGTH) ValueError
    "runner_static_private_key must contain exactly 32 bytes" in
  check! guard (zlen capability_signing_public_key =? 32) ValueError
    "capability_signing_public_key must contain exactly 32 bytes" in
  let! r := new_responder runner_static_private_key RUNNER_NOISE_PROLOGUE in
  Ok {| ns_runner_id := runner_id_;
        ns_runner_public_key := b64url_encode (x25519_public runner_static_private_key);
        ns_signing_public_key := capability_signing_public_key; ns_responder := r;
        ns_capability := None; ns_failed := false; ns_messages_sent := 0;
        ns_messages_received := 0; ns_ciphertext_bytes := 0 |}.

Definition with_responder (r : responder N) (s : noise_session) : noise_session := {|
  ns_runner_id := ns_runner_id s; ns_runner_public_key := ns_runner_public_key s;
  ns_signing_public_key := ns_signing_public_key s; ns_responder := r;
  ns_capability := ns_capability s; ns_failed := ns_failed s;
  ns_messages_sent := ns_messages_sent s; ns_messages_received := ns_messages_received s;
  ns_ciphertext_bytes := ns_ciphertext_bytes s |}.
Definition with_capability (c : VerifiedRunnerCapability) (s : noise_session) : noise_session := {|
  ns_runner_id := ns_runner_id s; ns_runner_public_key := ns_runner_public_key s;
  ns_signing_public_key := ns_signing_public_key s; ns_responder := ns_responder s;
  ns_capability := Some c; ns_failed := ns_failed s;
  ns_messages_sent := ns_messages_sent s; ns_messages_received := ns_messages_received s;
  ns_ciphertext_bytes := ns_ciphertext_bytes s |}.
Definition fail_session (s : noise_session) : noise_session := {|
  ns_runner_id := ns_runner_id s; ns_runner_public_key := ns_runner_public_key s;
  ns_signing_public_key := ns_signing_public_key s; ns_responder := ns_responder s;
  ns_capability := ns_capability s; ns_failed := true;
  ns_messages_sent := ns_messages_sent s; ns_messages_received := ns_messages_received s;
  ns_ciphertext_bytes := ns_ciphertext_bytes s |}.
Definition count_traffic (bytes sent received : Z) (s : noise_session) : noise_session := {|
  ns_runner_id := ns_runner_id s; ns_runner_public_key := ns_runner_public_key s;
  ns_signing_public_key := ns_signing_public_key s; ns_responder := ns_responder s;
  ns_capability := ns_capability s; ns_failed := ns_failed s;
  ns_messages_sent := ns_messages_sent s + sent;
  ns_messages_received := ns_messages_received s + received;
  ns_ciphertext_bytes := ns_ciphertext_bytes s + bytes |}.

(** [token_bytes.decode("ascii")] *)
Definition ascii_decode (b : pybytes) : res pystr :=
  check! guard (forallb (fun c => c <? 128) b) UnicodeDecodeError "ordinal not in range(128)" in Ok b.

(** The authority a first message proves: the decrypted token verifies for
    this runner and names the initiator the handshake authenticated. *)
Definition authenticated_capability (s : noise_session) (token_bytes : pybytes) (current_time : Z)
    : res VerifiedRunnerCapability :=
  let! token := ascii_decode token_bytes in
  let! claims := verify_runner_capability token (ns_signing_public_key s) (ns_runner_id s)
                   (ns_runner_public_key s) current_time in
  match claims with
  | None => raise ValueError "Runner capability is invalid or expired"
  | Some verified =>
      let! initiator := initiator_static_public_key (ns_responder s) in
      check! guard (bool_decide (b64url_encode initiator = initiator_public_key verified)) ValueError
        "Runner capability initiator identity does not match" in
      Ok verified
  end.

Definition response_payload (verified : VerifiedRunnerCapability) : res pybytes :=
  ascii_encode (dumps true true (JObj [(u"protocol", JStr RUNNER_PROTOCOL_VERSION);
                                       (u"transfer_id", JStr (transfer_id verified))])).

(** The body of the [try] of [accept_handshake]. *)
Definition handshake_body (message : pybytes) (current_time : Z) (fault : store_fault)
    : st (noise_session * replay_store) pybytes := fun '(s, store) =>
  let '(r, token_bytes) := read_handshake_message message (ns_responder s) in
  let s := with_responder r s in
  match token_bytes with
  | Raise e => ((s, store), Raise e)
  | Ok token_bytes =>
  match authenticated_capability s token_bytes current_time with
  | Raise e => ((s, store), Raise e)
  | Ok verified =>
  let '(store, consumed) := consume (token_id verified) (expires_at verified) current_time fault store in
  match consumed with
  | Raise e => ((s, store), Raise e)
  | Ok false => ((s, store), raise ValueError "Runner capability has already been consumed")
  | Ok true =>
  match response_payload verified with
  | Raise e => ((s, store), Raise e)
  | Ok payload =>
  let '(r, response) := write_handshake_message payload (ns_responder s) in
  let s := with_responder r s in
  match response with
  | Raise e => ((s, store), Raise e)
  | Ok response => ((with_capability verified s, store), Ok response)
  end end end end end.

Definition accept_handshake (message : pybytes) (current_time : Z) (fault : store_fault)
    : st (noise_session * replay_store) pybytes := fun '(s, store) =>
  if ns_failed s || bool_decide (is_Some (ns_capability s))
  then ((s, store), raise RuntimeError "Runner Noise session cannot accept another handshake")
  else if current_time <? 0
  then ((s, store), raise ValueError "current_time must be a non-negative integer")
  else match handshake_body message current_time fault (s, store) with
  | ((s, store), Raise e) =>
      ((if caught e [UnicodeDecodeError; ValueError] then fail_session s else s, store), Raise e)
  | ok => ok
  end.

Definition require_transport (s : noise_session) : res VerifiedRunnerCapability :=
  check! guard (negb (ns_failed s)) RuntimeError "Runner Noise transport failed and cannot be reused" in
  match ns_capability s with
  | None => raise RuntimeError "Runner Noise transport is not ready"
  | Some c => Ok c
  end.

Definition require_session_capacity (s : noise_session) (capability : VerifiedRunnerCapability)
    (ciphertext_length : Z) : res unit :=
  check! guard ((16 <=? ciphertext_length) && (ciphertext_length <=? max_frame_bytes capability)) ValueError
    "Runner Noise ciphertext exceeds the frame limit" in
  guard (ns_ciphertext_bytes s + ciphertext_length <=? max_session_bytes capability) ValueError
    "Runner Noise session exceeds the byte limit".

Definition session_encrypt (plaintext : pybytes) : st noise_session pybytes := fun s =>
  match (let! capability := require_transport s in
         check! guard (ns_messages_sent s <? MESSAGES_BEFORE_REHANDSHAKE) RuntimeError
           "Runner Noise transport requires a fresh handshake" in
         require_session_capacity s capability (zlen plaintext + 16)) with
  | Raise e => (s, Raise e)
  | Ok _ =>
      let '(r, ciphertext) := responder_encrypt plaintext (ns_responder s) in
      let s := with_responder r s in
      match ciphertext with
      | Raise e => (fail_session s, Raise e)
      | Ok m => (count_traffic (zlen m) 1 0 s, Ok m)
      end
  end.

Definition session_decrypt (ciphertext : pybytes) : st noise_session pybytes := fun s =>
  match (let! capability := require_transport s in
         check! guard (ns_messages_received s <? MESSAGES_BEFORE_REHANDSHAKE) RuntimeError
           "Runner Noise transport requires a fresh handshake" in
         require_session_capacity s capability (zlen ciphertext)) with
  | Raise e => (s, Raise e)
  | Ok _ =>
      let '(r, plaintext) := responder_decrypt ciphertext (ns_responder s) in
      let s := with_responder r s in
      match plaintext with
      | Raise e => (fail_session s, Raise e)
      | Ok p => (count_traffic (zlen ciphertext) 0 1 s, Ok p)
      end
  end.
End Session.

(** ** The replay store *)

(** A consumption keeps every row that has not expired. *)
Lemma consume_keeps token exp now fault rows r : r ∈ rows → now < cs_expires_at r →
  r ∈ (consume token exp now fault rows).1.
Proof.
  intros Hr Hnow. unfold consume, insert_consumed.
  assert (r ∈ List.filter (fun r => negb (cs_expires_at r <=? now)) rows).
  { apply list_elem_of_In, List.filter_In. split; [by apply list_elem_of_In|]. lia. }
  repeat (case_match; try done); simplify_eq/=; try done; unfold guard in *;
    repeat case_match; simplify_eq/=; rewrite ?elem_of_app; auto; by case_match.
Qed.

Lemma consume_ok token exp now fault rows rows' : consume token exp now fault rows = (rows', Ok true) →
  now < exp ∧ {| cs_token_id := token; cs_expires_at := exp; cs_consumed_at := now |} ∈ rows'
  ∧ ∀ r, r ∈ rows → cs_token_id r = token → cs_expires_at r <= now.
Proof.
  unfold consume, insert_consumed. intros H.
  destruct (bool_decide (token = [])); [done|]. destruct (128 <? zlen token); [done|].
  destruct (exp <=? now) eqn:He; [done|]. apply Z.leb_gt in He.
  destruct fault; [|done|].
  all: cbn [cs_consumed_at cs_expires_at cs_token_id] in H; rewrite (proj2 (Z.ltb_lt _ _) He) in H;
    cbn [guard res_bind] in H; destruct (existsb _ _) eqn:Ex; cbn [negb guard res_bind] in H; try done.
  injection H as <-. split; [done|]. split; [apply elem_of_app; right; by apply list_elem_of_singleton|].
  intros r Hr Ht. destruct (Z.le_gt_cases (cs_expires_at r) now) as [|Hgt]; [done|]. exfalso.
  rewrite <- not_true_iff_false in Ex. apply Ex, existsb_exists. exists r. split.
  - apply List.filter_In. split; [by apply list_elem_of_In|]. lia.
  - by apply bool_decide_eq_true_2.
Qed.

Section Properties.
Context {ED : Ed25519} {RAW : Ed25519Raw} {X : X25519} {FL : PyFloat} {N : Noise}.

(** ** The handshake *)

Lemma accept_handshake_ok message now fault s store s' store' response :
  accept_handshake message now fault (s, store) = ((s', store'), Ok response) →
  ∃ c token_bytes r, ns_capability s' = Some c ∧ ns_failed s' = false ∧ ns_failed s = false
  ∧ ns_capability s = None
  ∧ consume (token_id c) (expires_at c) now fault store = (store', Ok true)
  ∧ authenticated_capability (with_responder r s) token_bytes now = Ok c
  ∧ s' = with_capability c (with_responder (ns_responder s') s).
Proof.
  intros Ha. unfold accept_handshake in Ha.
  destruct (ns_failed s) eqn:Hf; [done|]. cbn [orb] in Ha.
  destruct (bool_decide (is_Some (ns_capability s))) eqn:Hc; [done|]. apply bool_decide_eq_false in Hc.
  assert (Hnone : ns_capability s = None) by (destruct (ns_capability s); [by destruct Hc|done]).
  destruct (now <? 0); [done|]. unfold handshake_body in Ha.
  destruct (read_handshake_message message (ns_responder s)) as [r [token_bytes|e]]; [|done].
  destruct (authenticated_capability (with_responder r s) token_bytes now) as [c|e] eqn:Eau; [|done].
  destruct (consume _ _ _ _ _) as [rows [[]|e]] eqn:Eco; [| done|done].
  destruct (response_payload c) as [payload|e]; [|done].
  destruct (write_handshake_message payload _) as [r' [resp|e]]; [|done].
  injection Ha as <- <- <-. exists c, token_bytes, r. split_and!; try done.
Qed.

Lemma accept_handshake_store message now fault s store :
  (accept_handshake message now fault (s, store)).1.2 = store
  ∨ ∃ c, (accept_handshake message now fault (s, store)).1.2
         = (consume (token_id c) (expires_at c) now fault store).1.
Proof.
  unfold accept_handshake, handshake_body. destruct (_ || _); [by left|]. destruct (now <? 0); [by left|].
  destruct (read_handshake_message _ _) as [r [token_bytes|e]]; [|by left].
  destruct (authenticated_capability _ _ _) as [c|e]; [|by left]. right. exists c.
  destruct (consume _ _ _ _ _) as [rows [[]|e]] eqn:Eco; try done.
  destruct (response_payload c) as [payload|e]; [|done].
  by destruct (write_handshake_message payload _) as [r' [resp|e]].
Qed.

(** Handshakes of any sessions, one after the other, over one store. *)
Record attempt := {
  at_session : noise_session;
  at_message : pybytes;
  at_now : Z;
  at_fault : store_fault;
}.

Definition run_attempt (a : attempt) (store : replay_store) : replay_store * option VerifiedRunnerCapability :=
  let '((s, store), r) := accept_handshake (at_message a) (at_now a) (at_fault a) (at_session a, store) in
  (store, match r with Ok _ => ns_capability s | Raise _ => None end).

Fixpoint run_attempts (l : list attempt) (store : replay_store) : list (option VerifiedRunnerCapability) :=
  match l with
  | [] => []
  | a :: r => let '(store, c) := run_attempt a store in c :: run_attempts r store
  end.

Lemma run_attempt_ok a store store' c : run_attempt a store = (store', Some c) →
  consume (token_id c) (expires_at c) (at_now a) (at_fault a) store = (store', Ok true).
Proof.
  unfold run_attempt. destruct (accept_handshake _ _ _ _) as [[s' st'] [resp|e]] eqn:E; [|done].
  apply accept_handshake_ok in E as (c' & _ & _ & -> & _ & _ & _ & Hco & _). by intros [= <- <-].
Qed.

Lemma run_attempt_keeps a store r : r ∈ store → at_now a < cs_expires_at r → r ∈ (run_attempt a store).1.
Proof.
  intros Hr Hnow. pose proof (accept_handshake_store (at_message a) (at_now a) (at_fault a) (at_session a) store) as H.
  unfold run_attempt. destruct (accept_handshake _ _ _ _) as [[s' st'] o]. cbn in *.
  destruct H as [->|[c ->]]; [done|]. by apply consume_keeps.
Qed.

(** Once a token with a given expiry is in the store, no later handshake
    accepts it again. *)
Lemma consumed_blocks l store tok exp :
  StronglySorted (fun a b => at_now a <= at_now b) l →
  (∀ a, a ∈ l → at_now a < exp → ∃ r, r ∈ store ∧ cs_token_id r = tok ∧ cs_expires_at r = exp) →
  ∀ j c, run_attempts l store !! j = Some (Some c) → token_id c = tok → expires_at c = exp → False.
Proof.
  intros Hs. revert store. induction Hs as [|a l Hs IH Ha]; intros store Hrow j c Hj Ht He; [done|].
  cbn [run_attempts] in Hj. destruct (run_attempt a store) as [store' o] eqn:Er.
  destruct j as [|j]; cbn in Hj.
  - injection Hj as ->. apply run_attempt_ok, consume_ok in Er as (Hnow & _ & Hno).
    destruct (Hrow a (list_elem_of_here _ _)) as (r & Hr & Hrt & Hre); [by rewrite <- He|].
    specialize (Hno r Hr). rewrite Hrt, Ht, Hre in Hno. specialize (Hno eq_refl). lia.
  - eapply (IH store'); try done. intros b Hb Hnb.
    destruct (Hrow b (list_elem_of_further _ _ _ Hb) Hnb) as (r & Hr & Hrt & Hre). exists r. split_and!; try done.
    pose proof (run_attempt_keeps a store r Hr) as Hk. rewrite Er in Hk. apply Hk.
    rewrite Forall_forall in Ha. specialize (Ha b Hb). lia.
Qed.

Lemma run_attempts_once l store i j c d :
  StronglySorted (fun a b => at_now a <= at_now b) l → (i < j)%nat →
  run_attempts l store !! i = Some (Some c) → run_attempts l store !! j = Some (Some d) →
  token_id c = token_id d → expires_at c = expires_at d → False.
Proof.
  intros Hs. revert store i j. induction Hs as [|a l Hs IH Ha]; intros store i j Hij Hi Hj Ht He; [done|].
  cbn [run_attempts] in *. destruct (run_attempt a store) as [store' o] eqn:Er.
  destruct j as [|j]; [lia|]. cbn in Hj. destruct i as [|i]; cbn in Hi.
  - injection Hi as ->. eapply (consumed_blocks l store' (token_id c) (expires_at c)); eauto.
    intros b _ _. apply run_attempt_ok, consume_ok in Er as (_ & Hin & _). by eexists.
  - eapply (IH store' i j); eauto. lia.
Qed.

(** ** The life of one session *)

Inductive noise_op :=
  | Handshake (message : pybytes) (current_time : Z) (fault : store_fault) (store : replay_store)
  | Encrypt (plaintext : pybytes)
  | Decrypt (ciphertext : pybytes).

Definition run_noise_op (op : noise_op) : st noise_session pybytes := fun s =>
  match op with
  | Handshake message now fault store =>
      let '((s, _), r) := accept_handshake message now fault (s, store) in (s, r)
  | Encrypt plaintext => session_encrypt plaintext s
  | Decrypt ciphertext => session_decrypt ciphertext s
  end.

(** The ciphertext an operation let through. *)
Definition traffic (op : noise_op) (r : res pybytes) : Z :=
  match op, r with
  | Encrypt _, Ok m => zlen m
  | Decrypt m, Ok _ => zlen m
  | _, _ => 0
  end.

Fixpoint run_noise_ops (ops : list noise_op) (s : noise_session) : noise_session * Z :=
  match ops with
  | [] => (s, 0)
  | op :: rest =>
      let '(s, r) := run_noise_op op s in
      let '(s', n) := run_noise_ops rest s in (s', traffic op r + n)
  end.

(** The capability was proved by one of the handshakes, to the runner the
    session was made for. *)
Definition proved (s : noise_session) (ops : list noise_op) (c : VerifiedRunnerCapability) : Prop :=
  ∃ message now fault store token, Handshake message now fault store ∈ ops
  ∧ verify_runner_capability token (ns_signing_public_key s) (ns_runner_id s) (ns_runner_public_key s) now
    = Ok (Some c).

Record session_ok (s0 : noise_session) (ops : list noise_op) (n : Z) (s : noise_session) : Prop := {
  so_id : ns_runner_id s = ns_runner_id s0;
  so_key : ns_runner_public_key s = ns_runner_public_key s0;
  so_signing : ns_signing_public_key s = ns_signing_public_key s0;
  so_bytes : ns_ciphertext_bytes s = n;
  so_nonneg : 0 <= n;
  so_sent : 0 <= ns_messages_sent s <= MESSAGES_BEFORE_REHANDSHAKE;
  so_received : 0 <= ns_messages_received s <= MESSAGES_BEFORE_REHANDSHAKE;
  so_capability :
    match ns_capability s with
    | None => n = 0
    | Some c => proved s0 ops c ∧ n <= max_session_bytes c ∧ max_session_bytes c <= RUNNER_SESSION_BYTES_MAX
    end;
}.

Lemma authenticated_ok s token_bytes now c : authenticated_capability s token_bytes now = Ok c →
  ∃ token, verify_runner_capability token (ns_signing_public_key s) (ns_runner_id s)
             (ns_runner_public_key s) now = Ok (Some c).
Proof.
  unfold authenticated_capability. intros H. inv_ok. destruct a0 as [v|]; [|done]. inv_ok. eauto.
Qed.

Lemma verified_limits token pk rid rkey now c :
  verify_runner_capability token pk rid rkey now = Ok (Some c) →
  0 <= max_session_bytes c <= RUNNER_SESSION_BYTES_MAX ∧ max_frame_bytes c = RUNNER_FRAME_BYTES_MAX.
Proof.
  intros Hv. unfold verify_runner_capability in Hv.
  do 3 apply none_unless_some in Hv as [_ Hv]. apply or_none_some in Hv as (k & _ & Hv).
  destruct (split_on 46 token) as [|h [|p [|x [|]]]]; try done.
  do 4 apply or_none_some in Hv as (? & _ & Hv). apply none_unless_some in Hv as [_ Hv].
  destruct (ascii_encode _); [|done]. cbn [res_bind] in Hv. destruct (public_from_bytes pk); [|done].
  apply none_unless_some in Hv as [_ Hv]. apply or_none_some in Hv as (payload & _ & Hv).
  apply none_unless_some in Hv as [_ Hv]. apply parse_verified_ok in Hv.
  unfold RUNNER_SESSION_BYTES_MIN in Hv. intuition lia.
Qed.

Lemma proved_weaken s ops op c : proved s ops c → proved s (ops ++ [op]) c.
Proof.
  intros (m & now & f & st & t & Hin & Hv). exists m, now, f, st, t. split; [|done].
  apply elem_of_app. by left.
Qed.

(** An operation that changes neither the counters nor the capability. *)
Lemma session_ok_quiet s0 ops op n s s' : session_ok s0 ops n s →
  ns_runner_id s' = ns_runner_id s → ns_runner_public_key s' = ns_runner_public_key s →
  ns_signing_public_key s' = ns_signing_public_key s →
  ns_ciphertext_bytes s' = ns_ciphertext_bytes s → ns_messages_sent s' = ns_messages_sent s →
  ns_messages_received s' = ns_messages_received s → ns_capability s' = ns_capability s →
  session_ok s0 (ops ++ [op]) (n + 0) s'.
Proof.
  intros [] H1 H2 H3 H4 H5 H6 H7. rewrite Z.add_0_r.
  split; rewrite ?H1, ?H2, ?H3, ?H4, ?H5, ?H6, ?H7; try done.
  destruct (ns_capability s) as [c|]; [|done]. destruct so_capability0 as (Hp & Hn & Hm).
  split; [by apply proved_weaken|done].
Qed.

Lemma accept_handshake_raise message now fault s store s' store' e :
  accept_handshake message now fault (s, store) = ((s', store'), Raise e) →
  ns_runner_id s' = ns_runner_id s ∧ ns_runner_public_key s' = ns_runner_public_key s
  ∧ ns_signing_public_key s' = ns_signing_public_key s ∧ ns_ciphertext_bytes s' = ns_ciphertext_bytes s
  ∧ ns_messages_sent s' = ns_messages_sent s ∧ ns_messages_received s' = ns_messages_received s
  ∧ ns_capability s' = ns_capability s ∧ (ns_failed s = true → ns_failed s' = true).
Proof.
  unfold accept_handshake, handshake_body. intros Ha.
  destruct (_ || _) eqn:Hf; [by injection Ha as <- <- <-|]. destruct (now <? 0); [by injection Ha as <- <- <-|].
  apply orb_false_iff in Hf as [Hf _].
  destruct (read_handshake_message _ _) as [r [token_bytes|x]].
  2: { destruct (caught _ _); injection Ha as <- <- <-; by split_and!. }
  destruct (authenticated_capability _ _ _) as [c|x].
  2: { destruct (caught _ _); injection Ha as <- <- <-; by split_and!. }
  destruct (consume _ _ _ _ _) as [rows [[]|x]].
  2-3: unfold raise in Ha; destruct (caught _ _); injection Ha as <- <- <-; by split_and!.
  destruct (response_payload c) as [payload|x].
  2: { destruct (caught _ _); injection Ha as <- <- <-; by split_and!. }
  destruct (write_handshake_message payload _) as [r' [resp|x]]; [done|].
  destruct (caught _ _); injection Ha as <- <- <-; by split_and!.
Qed.

Lemma transport_ok s c : require_transport s = Ok c → ns_capability s = Some c ∧ ns_failed s = false.
Proof.
  unfold require_transport. destruct (ns_failed s); [done|]. destruct (ns_capability s); [|done]. by intros [= <-].
Qed.

Lemma capacity_ok s c len a : require_session_capacity s c len = Ok a →
  16 <= len <= max_frame_bytes c ∧ ns_ciphertext_bytes s + len <= max_session_bytes c.
Proof. unfold require_session_capacity. intros H. inv_ok. breflect. lia. Qed.

Lemma responder_encrypt_length {NL : NoiseLaws} p r r' m : responder_encrypt p r = (r', Ok m) → zlen m = zlen p + 16.
Proof.
  unfold responder_encrypt. repeat case_match; try done. intros [= _ Hm].
  match goal with E : noise_encrypt _ _ = (_, ?x) |- _ => destruct x; cbn in Hm; [|by case_match] end.
  injection Hm as ->. by eapply noise_encrypt_length.
Qed.

Lemma session_ok_step {NL : NoiseLaws} s0 ops op n s s' r : session_ok s0 ops n s →
  run_noise_op op s = (s', r) → session_ok s0 (ops ++ [op]) (n + traffic op r) s'.
Proof.
  intros Hok Hr. destruct op as [message now fault store|plaintext|ciphertext]; cbn [run_noise_op] in Hr.
  - destruct (accept_handshake message now fault (s, store)) as [[s1 store'] [resp|e]] eqn:Ea;
      injection Hr as <- <-; cbn [traffic].
    + apply accept_handshake_ok in Ea as (c & tb & r & Hc & _ & _ & Hnone & _ & Hau & ->).
      destruct Hok. rewrite Hnone in so_capability0. subst n. rewrite so_capability0 in *.
      apply authenticated_ok in Hau as [token Hv]. cbn in Hv. rewrite so_id0, so_key0, so_signing0 in Hv.
      pose proof (verified_limits _ _ _ _ _ _ Hv) as [Hlim _].
      split; cbn; try done. split_and!; try lia. exists message, now, fault, store, token.
      split; [apply elem_of_app; right; by apply list_elem_of_singleton|done].
    + apply accept_handshake_raise in Ea as (? & ? & ? & ? & ? & ? & ? & _). by eapply session_ok_quiet.
  - unfold session_encrypt in Hr. destruct (require_transport s) as [c|e] eqn:Et; cbn [res_bind] in Hr.
    2: { injection Hr as <- <-. by eapply session_ok_quiet. }
    destruct (ns_messages_sent s <? _) eqn:Hs; cbn [guard res_bind] in Hr.
    2: { injection Hr as <- <-. by eapply session_ok_quiet. }
    destruct (require_session_capacity s c _) as [[]|e] eqn:Ec.
    2: { injection Hr as <- <-. by eapply session_ok_quiet. }
    destruct (responder_encrypt plaintext _) as [r' [m|e]] eqn:Er; injection Hr as <- <-; cbn [traffic].
    2: by eapply session_ok_quiet.
    apply responder_encrypt_length in Er. apply transport_ok in Et as [Hcap _]. apply capacity_ok in Ec as [Hl Hb].
    breflect. destruct Hok. rewrite Hcap in so_capability0. destruct so_capability0 as (Hp & Hn & Hm).
    split; cbn; rewrite ?Hcap; try done; try lia. split_and!; [by apply proved_weaken|lia|done].
  - unfold session_decrypt in Hr. destruct (require_transport s) as [c|e] eqn:Et; cbn [res_bind] in Hr.
    2: { injection Hr as <- <-. by eapply session_ok_quiet. }
    destruct (ns_messages_received s <? _) eqn:Hs; cbn [guard res_bind] in Hr.
    2: { injection Hr as <- <-. by eapply session_ok_quiet. }
    destruct (require_session_capacity s c _) as [[]|e] eqn:Ec.
    2: { injection Hr as <- <-. by eapply session_ok_quiet. }
    destruct (responder_decrypt ciphertext _) as [r' [p|e]] eqn:Er; injection Hr as <- <-; cbn [traffic].
    2: by eapply session_ok_quiet.
    apply transport_ok in Et as [Hcap _]. apply capacity_ok in Ec as [Hl Hb].
    breflect. destruct Hok. rewrite Hcap in so_capability0. destruct so_capability0 as (Hp & Hn & Hm).
    split; cbn; rewrite ?Hcap; try done; try lia. split_and!; [by apply proved_weaken|lia|done].
Qed.

Lemma run_noise_ops_ok {NL : NoiseLaws} s0 done n s ops s' m : session_ok s0 done n s →
  run_noise_ops ops s = (s', m) → session_ok s0 (done ++ ops) (n + m) s'.
Proof.
  revert done n s m. induction ops as [|op ops IH]; intros done n s m Hok Hr; cbn [run_noise_ops] in Hr.
  - injection Hr as <- <-. by rewrite Z.add_0_r, app_nil_r.
  - destruct (run_noise_op op s) as [s1 r] eqn:E. destruct (run_noise_ops ops s1) as [s2 k] eqn:E2.
    injection Hr as <- <-. rewrite cons_middle, app_assoc, Z.add_assoc. eapply IH; [|exact E2].
    by eapply session_ok_step.
Qed.

Lemma new_session_ok runner key signing s : new_noise_session runner key signing = Ok s → session_ok s [] 0 s.
Proof. unfold new_noise_session. intros H. inv_ok. split; cbn; try done; unfold MESSAGES_BEFORE_REHANDSHAKE; lia. Qed.

(** A failed session answers nothing and stays as it is. *)
Lemma failed_session op s : ns_failed s = true →
  ∃ m, run_noise_op op s = (s, raise RuntimeError m).
Proof.
  intros Hf. destruct op; cbn [run_noise_op];
    unfold accept_handshake, session_encrypt, session_decrypt, require_transport; rewrite Hf; cbn; eauto.
Qed.

(** C18. A capability is consumed at most once: among handshakes of any
    sessions over one store, in order of time and under any storage fault, no
    two accept the same token identifier with the same expiry. *)
Theorem capability_consumed_once (l : list attempt) (store : replay_store) i j c d :
  StronglySorted (fun a b => at_now a <= at_now b) l →
  run_attempts l store !! i = Some (Some c) → run_attempts l store !! j = Some (Some d) →
  token_id c = token_id d → expires_at c = expires_at d → i = j.
Proof.
  intros Hs Hi Hj Ht He. destruct (Nat.lt_trichotomy i j) as [H|[H|H]]; [|done|]; exfalso.
  - by eapply (run_attempts_once l store i j).
  - by eapply (run_attempts_once l store j i).
Qed.

End Properties.

(** ** The hypotheses can hold *)

Definition toy_noise : Noise := {|
  noise_conn := unit; noise_start := fun _ _ => tt;
  noise_read := fun c m => (c, Ok (drop 96 m)); noise_remote_static := fun _ => repeat 10 32;
  noise_write := fun c p => (c, Ok (repeat 0 48 ++ p));
  noise_encrypt := fun c p => (c, Ok (p ++ repeat 1 16));
  noise_decrypt := fun c m => (c, if zlen m <? 16 then raise InvalidTag ""
                                  else Ok (take (length m - 16) m));
  x25519_public := fun _ => repeat 9 32 |}.
Lemma toy_noise_laws : @NoiseLaws toy_noise.
Proof.
  split; cbn.
  - intros c0 p c m [= _ <-]. rewrite zlen_app. done.
  - intros c0 m c p H. destruct (Z.ltb_spec (zlen m) 16); [done|]. injection H as _ <-.
    unfold zlen in *. rewrite length_take. lia.
Qed.

Definition toy_session : res (@noise_session toy_noise) :=
  @new_noise_session toy_noise (u"runner-1") (repeat 8 32) (repeat 5 32).
Definition toy_hello : pybytes := repeat 0 96 ++ toy_token.
Definition toy_attempt (now : Z) : list (@attempt toy_noise) :=
  match toy_session with
  | Ok s => [{| at_session := s; at_message := toy_hello; at_now := now; at_fault := NoFault |}]
  | Raise _ => []
  end.
Definition toy_attempts : list (option VerifiedRunnerCapability) :=
  @run_attempts toy_ed25519 toy_ed25519_raw toy_x25519 toy_float toy_noise (toy_attempt 1000 ++ toy_attempt 1200) [].

Lemma toy_attempts_run : toy_attempts = [Some toy_claims; None].
Proof. vm_compute. reflexivity. Qed.

Lemma capability_consumed_once_witness :
  toy_attempts !! 0%nat = Some (Some toy_claims) ∧ ∀ j d, toy_attempts !! j = Some (Some d) →
  token_id toy_claims = token_id d → expires_at toy_claims = expires_at d → 0%nat = j.
Proof.
  assert (E : toy_attempts !! 0%nat = Some (Some toy_claims)) by by rewrite toy_attempts_run.
  split; [exact E|]. intros j d.
  apply (capability_consumed_once (ED := toy_ed25519) (RAW := toy_ed25519_raw) (X := toy_x25519) (FL := toy_float)
    (toy_attempt 1000 ++ toy_attempt 1200) [] 0 j toy_claims d); [|exact E].
  repeat constructor; cbn; lia.
Defined.

Definition toy_ops : list noise_op :=
  [Handshake toy_hello 1000 NoFault []; Decrypt (repeat 4 100); Encrypt (repeat 4 50); Decrypt (repeat 4 3)].
Definition toy_run : res (@noise_session toy_noise * Z) :=
  let! s := toy_session in
  Ok (@run_noise_ops toy_ed25519 toy_ed25519_raw toy_x25519 toy_float toy_noise toy_ops s).

Lemma toy_run_bytes : match toy_run with Ok p => p.2 | Raise _ => 0 end = 166.
Proof. vm_compute. reflexivity. Qed.

