(* ===== verification/WorkerRuntime.v ===== *)
(** * The worker dispatcher

    Models [worker_runtime.py]: the in-process adapter that validates one
    normalized request, calls the worker application and bounds its answer.
    The application behind ASGI (FastAPI, its routes and the HTTP client) is
    an interface over a world of its own; a principal is named by the user it
    acts for. *)

From S2P Require Import Prelude Text Json JsonBytes.

Definition WORKER_RESPONSE_BYTES_MAX : Z := 1048576.
Definition WORKER_PATH_LENGTH_MAX : Z := 2048.
Definition WORKER_METHODS : list pystr := [u"DELETE"; u"GET"; u"PATCH"; u"POST"; u"PUT"].

(** [str.isalnum] needs the Unicode database; on ASCII it is known. *)
Class Unicode := alnum_char : Z → bool.
Class UnicodeLaws `{Unicode} := alnum_ascii :
  ∀ c, 0 <= c < 128 → alnum_char c = is_lower c || is_upper c || is_digit c.

(** An [httpx.Response]. *)
Record http_response := {
  hr_status_code : Z;
  hr_content : pybytes;
  hr_content_type : option pystr;
}.

Abbreviation query := (list (pystr * pystr)).

(** One [client.request] on the application, as the given user. *)
Class WorkerApp := {
  app_world : Type;
  app_request : pystr → pystr → pystr → json → query → app_world → app_world * res http_response;
}.

Record WorkerHttpResponse := {
  status_code : Z;
  response_body : json;
  content_type : option pystr;
}.

(** A dispatcher is the principal it was made for. *)
Record dispatcher := { dp_user_id : pystr }.

Section Dispatcher.
Context {UD : Unicode} {FL : PyFloat}.

Definition validate_query_item (kv : pystr * pystr) : res unit :=
  check! guard (negb (bool_decide (kv.1 = [])) && (zlen kv.1 <=? 64)) ValueError
    "worker request query key is invalid" in
  let letters := List.filter (fun c => negb (c =? 95)) kv.1 in
  check! guard (negb (bool_decide (letters = [])) && forallb alnum_char letters) ValueError
    "worker request query key is invalid" in
  guard (zlen kv.2 <=? 2048) ValueError "worker request query value is invalid".

Fixpoint validate_query_items (q : query) : res unit :=
  match q with
  | [] => Ok tt
  | kv :: r => check! validate_query_item kv in validate_query_items r
  end.

Definition validate_query (q : query) : res query :=
  check! guard (zlen q <=? 16) ValueError "worker request query must be a bounded object" in
  check! validate_query_items q in
  Ok q.

Definition validate_method (method : pystr) : res pystr :=
  check! guard (mem_str method WORKER_METHODS) ValueError "worker request method is not allowed" in
  Ok method.

Definition validate_path (path : pystr) : res pystr :=
  check! guard (negb (bool_decide (path = [])) && (zlen path <=? WORKER_PATH_LENGTH_MAX)) ValueError
    "worker request path has an invalid length" in
  check! guard (starts_with (u"/") path && negb (starts_with (u"//") path)) ValueError
    "worker request path must be a relative application path" in
  check! guard (forallb (fun c => negb (existsb (Z.eqb c) [63; 35; 92; 0])) path) ValueError
    "worker request path must be normalized" in
  check! guard (forallb (fun segment => negb (mem_str segment [[]; u"."; u".."])) (tail (split_on 47 path)))
    ValueError "worker request path must be normalized" in
  Ok path.

(** [content_type.split(";", maxsplit=1)[0].strip().lower()] *)
Definition normalize_content_type (ct : pystr) : pystr :=
  lower (strip (hd [] (split_on 59 ct))).

(** The response as [request] returns it. *)
Definition bounded_response (response : http_response) : res WorkerHttpResponse :=
  check! guard (zlen (hr_content response) <=? WORKER_RESPONSE_BYTES_MAX) RuntimeError
    "worker response exceeded the size limit" in
  let ct := option_map normalize_content_type (hr_content_type response) in
  if hr_status_code response =? 204 then
    check! guard (bool_decide (hr_content response = [])) RuntimeError
      "worker 204 response included a body" in
    Ok {| status_code := 204; response_body := JNull; content_type := ct |}
  else
    check! guard (bool_decide (ct = Some (u"application/json"))) RuntimeError
      "worker response must use application/json" in
    let! body := reraise_as (loads_bytes read_float read_constant dict_of_pairs (hr_content response))
      [JSONDecodeError] RuntimeError "worker response contained invalid JSON" in
    Ok {| status_code := hr_status_code response; response_body := body; content_type := ct |}.

(** The checks before the application is called. *)
Definition validate_request (method path : pystr) (body : json) (q : query) : res query :=
  let! normalized_method := validate_method method in
  let! _ := validate_path path in
  check! guard (negb (mem_str normalized_method [u"GET"; u"DELETE"]
                      && match body with JNull => false | _ => true end)) ValueError
    "worker request body must be null" in
  validate_query q.

Definition request {A : WorkerApp} (d : dispatcher) (method path : pystr) (body : json) (q : query)
    : st app_world WorkerHttpResponse := fun w =>
  match validate_request method path body q with
  | Raise e => (w, Raise e)
  | Ok q =>
      let '(w, response) := app_request (dp_user_id d) method path body q w in
      (w, let! response := response in bounded_response response)
  end.
End Dispatcher.
