(* ===== verification/RunnerRoutes.v ===== *)
(** * Runner RPC requests and routes

    Models the first half of [services/runner_rpc.py]: the exact shape of a
    decrypted request, the scope each worker route needs, the query contracts
    of the routes and the restriction of repository imports. The route table
    is written with the sources' own patterns ([Regex]).

    [datetime.fromisoformat] accepts different texts in different versions of
    Python, and [urlsplit] checks a host with the Unicode database and
    [ipaddress]: those checks are interfaces. The rest of [urlsplit] is
    modelled. *)

From S2P Require Import Prelude Text Json JsonBytes Regex RunnerCapabilities WorkerRuntime.

Definition REQUEST_KEYS_V1 : list pystr :=
  [u"body"; u"method"; u"path"; u"request_id"; u"sequence"; u"type"; u"v"].
Definition REQUEST_KEYS_V2 : list pystr := REQUEST_KEYS_V1 ++ [u"query"].
Definition REQUEST_KEYS_V2_PUSH : list pystr := REQUEST_KEYS_V2 ++ [u"response_mode"].
Definition REQUEST_BYTES_MAX : Z := 2 * 1024 * 1024.

(** ** The patterns *)

Definition RESOURCE_ID : regex := Rep is_hex 32 32.
Definition lit (s : string) : regex := Lit (u s).

Definition REPOSITORY_MEMBER_PATH : regex := cats [lit "/api/repos/"; RESOURCE_ID].
Definition WORKSPACE_COLLECTION_PATH : regex := cats [lit "/api/repos/"; RESOURCE_ID; lit "/workspaces"].
Definition WORKSPACE_MEMBER_PATH : regex := cats [lit "/api/workspaces/"; RESOURCE_ID].
Definition SESSION_COLLECTION_PATH : regex := cats [lit "/api/workspaces/"; RESOURCE_ID; lit "/sessions"].
Definition SESSION_MEMBER_PATH : regex := cats [lit "/api/sessions/"; RESOURCE_ID].
Definition SESSION_READ_PATH : regex :=
  cats [lit "/api/sessions/"; RESOURCE_ID; lit "/"; words ["messages"; "tree"]%string].
Definition THREAD_READ_PATH : regex :=
  cats [lit "/api/threads/"; RESOURCE_ID;
        Opt (Cat (lit "/") (words ["tree"; "children"; "limits"; "result"]%string))].
Definition THREAD_WRITE_PATH : regex :=
  cats [lit "/api/threads/"; RESOURCE_ID; lit "/"; words ["children"; "cancel"; "retry"; "report"]%string].
Definition SESSION_HISTORY_PAGE_PATH : regex :=
  cats [lit "/api/sessions/"; RESOURCE_ID; lit "/messages/page"].
Definition SESSION_HISTORY_BUNDLE_PATH : regex :=
  cats [lit "/api/sessions/"; RESOURCE_ID; lit "/messages/bundle"].
Definition SESSION_HISTORY_FIELD_PATH : regex :=
  cats [lit "/api/sessions/"; RESOURCE_ID; lit "/messages/"; RESOURCE_ID; lit "/field"].
Definition SESSION_HISTORY_CURSOR_PATTERN : regex := Rep is_token_char 1 128.
Definition SESSION_HISTORY_CURSOR_VERSION : Z := 1.
(** [0|[1-9][0-9]{0,n}] *)
Definition natural_pattern (n : nat) : regex :=
  Alt (lit "0") (Cat (Rep (fun c => (49 <=? c) && (c <=? 57)) 1 1) (Rep is_digit 0 n)).
Definition SESSION_HISTORY_OFFSET_PATTERN : regex := natural_pattern 9.
Definition SESSION_HISTORY_OFFSET_MAX : Z := 1000000000.
Definition SESSION_HISTORY_SNAPSHOT_PATTERN : regex := natural_pattern 18.
Definition SESSION_HISTORY_SNAPSHOT_MAX : Z := 9007199254740991.
Definition SESSION_HISTORY_ACTIVE_RUN_PATTERN : regex := Alt (lit "none") RESOURCE_ID.
Definition PROMPT_RUN_COLLECTION_PATH : regex := cats [lit "/api/sessions/"; RESOURCE_ID; lit "/runs"].
Definition PROMPT_RUN_ACTIVE_PATH : regex := cats [lit "/api/sessions/"; RESOURCE_ID; lit "/runs/active"].
Definition PROMPT_RUN_EVENTS_PATH : regex :=
  cats [lit "/api/sessions/"; RESOURCE_ID; lit "/runs/"; RESOURCE_ID; lit "/events/"; Rep is_digit 1 6].
Definition PROMPT_RUN_CANCEL_PATH : regex :=
  cats [lit "/api/sessions/"; RESOURCE_ID; lit "/runs/"; RESOURCE_ID; lit "/cancel"].
Definition WORKSPACE_FILE_READ_PATH : regex :=
  cats [lit "/api/workspaces/"; RESOURCE_ID; lit "/files/"; words ["changed"; "diff"; "preview"; "tree"]%string].
Definition WORKSPACE_FILE_WRITE_PATH : regex :=
  cats [lit "/api/workspaces/"; RESOURCE_ID; lit "/files/content"].
Definition TERMINAL_COLLECTION_PATH : regex := cats [lit "/api/workspaces/"; RESOURCE_ID; lit "/terminals"].
Definition TERMINAL_MEMBER_PATH : regex :=
  cats [lit "/api/workspaces/"; RESOURCE_ID; lit "/terminals/"; RESOURCE_ID].
Definition TERMINAL_ACTION_PATH : regex :=
  cats [lit "/api/workspaces/"; RESOURCE_ID; lit "/terminals/"; RESOURCE_ID; lit "/";
        words ["input"; "resize"; "restart"]%string].
Definition TERMINAL_EVENTS_PATH : regex :=
  cats [lit "/api/workspaces/"; RESOURCE_ID; lit "/terminals/"; RESOURCE_ID; lit "/events/"; Rep is_digit 1 10].
Definition PROVIDER_CONNECTION_COLLECTION_PATH : pystr := u"/api/settings/connections".
Definition PROVIDER_CONNECTION_MEMBER_PATH : regex := cats [lit "/api/settings/connections/"; RESOURCE_ID].
(** [[a-z0-9-]{1,64}] *)
Definition PROVIDER_NAME : regex := Rep (fun c => is_lower c || is_digit c || (c =? 45)) 1 64.
Definition PROVIDER_AUTH_START_PATH : regex := cats [lit "/auth/providers/"; PROVIDER_NAME; lit "/start"].
Definition PROVIDER_AUTH_CALLBACK_PATH : regex := cats [lit "/auth/providers/"; PROVIDER_NAME; lit "/callback"].
Definition PI_CONFIG_COLLECTION_PATH : pystr := u"/api/settings/pi-config".
Definition PI_UPLOAD_COLLECTION_PATH : pystr := u"/api/settings/pi-config/uploads".
Definition PI_UPLOAD_CHUNK_PATH : regex :=
  cats [lit "/api/settings/pi-config/uploads/"; RESOURCE_ID; lit "/chunks/"; Rep is_digit 1 5].
Definition PI_UPLOAD_COMPLETE_PATH : regex :=
  cats [lit "/api/settings/pi-config/uploads/"; RESOURCE_ID; lit "/complete"].
Definition PI_UPLOAD_MEMBER_PATH : regex := cats [lit "/api/settings/pi-config/uploads/"; RESOURCE_ID].

(** ** A request *)

(** [dict] construction that refuses a repeated key. *)
Fixpoint without_duplicates (result pairs : list (pystr * json)) : res (list (pystr * json)) :=
  match pairs with
  | [] => Ok result
  | kv :: r =>
      check! guard (negb (mem_str kv.1 (dict_keys result))) ValueError
        "Runner RPC JSON object keys must be unique" in
      without_duplicates (result ++ [kv]) r
  end.
Definition json_object_without_duplicates (pairs : list (pystr * json)) : res json :=
  let! result := without_duplicates [] pairs in Ok (JObj result).

(** The version keeps the number the client wrote: [True] and [1.0] are
    [1]. *)
Record RunnerRpcRequest := {
  rq_version : json;
  rq_sequence : Z;
  rq_request_id : pystr;
  rq_method : pystr;
  rq_path : pystr;
  rq_body : json;
  rq_query : query;
  rq_push : bool;
}.

(** [p in s] *)
Fixpoint contains (p s : pystr) : bool :=
  starts_with p s || match s with [] => false | _ :: t => contains p t end.

Section Requests.
Context {UD : Unicode} {FL : PyFloat}.

(** One member of the query object. *)
Definition parse_query_item (kv : pystr * json) : res (pystr * pystr) :=
  check! guard (negb (bool_decide (kv.1 = [])) && (zlen kv.1 <=? 64)) ValueError
    "Runner RPC query key is invalid" in
  let letters := List.filter (fun c => negb (c =? 95)) kv.1 in
  check! guard (negb (bool_decide (letters = [])) && forallb alnum_char letters) ValueError
    "Runner RPC query key is invalid" in
  match kv.2 with
  | JStr value =>
      check! guard (zlen value <=? 2048) ValueError "Runner RPC query value is invalid" in
      Ok (kv.1, value)
  | _ => raise ValueError "Runner RPC query value is invalid"
  end.

Definition parse_query (v : json) : res query :=
  match v with
  | JObj l =>
      check! guard (zlen l <=? 16) ValueError "Runner RPC query must be a bounded object" in
      mapM_res parse_query_item l
  | _ => raise ValueError "Runner RPC query must be a bounded object"
  end.

Definition valid_shape (payload : list (pystr * json)) : bool :=
  match dict_get (u"v") payload with
  | Some version =>
      (equals_small_int version 1 && has_keys payload REQUEST_KEYS_V1)
      || (equals_small_int version 2
          && (has_keys payload REQUEST_KEYS_V2 || has_keys payload REQUEST_KEYS_V2_PUSH))
  | None => false
  end.

Definition normalized_path (path : pystr) : bool :=
  starts_with (u"/") path
  && negb (contains (u"?") path || contains (u"#") path || contains (u"..") path
           || contains (u"\") path || contains [0] path).

(** The fields of a payload whose shape is right. *)
Definition request_of_payload (payload : list (pystr * json)) (expected_sequence : Z) : res RunnerRpcRequest :=
  let response_mode := dict_get (u"response_mode") payload in
  check! guard (match response_mode with
                | None => true | Some (JStr m) => bool_decide (m = u"push") | Some _ => false
                end) ValueError "Runner RPC response_mode is unsupported" in
  check! guard (get_is_str payload (u"type") (u"request")) ValueError
    "Runner RPC request has an unsupported type" in
  check! guard (match dict_get (u"sequence") payload with
                | Some (JInt z) => z =? expected_sequence | _ => false
                end) ValueError "Runner RPC request sequence is out of order" in
  match dict_get (u"request_id") payload with
  | Some (JStr request_id) =>
      check! guard (canonical_uuid request_id) ValueError "Runner RPC request_id must be canonical" in
      match dict_get (u"method") payload, dict_get (u"path") payload with
      | Some (JStr method), Some (JStr path) =>
          check! guard (negb (bool_decide (method = []))) ValueError "Runner RPC method must not be empty" in
          check! guard (normalized_path path) ValueError "Runner RPC path must be normalized" in
          let! q := parse_query (default (JObj []) (dict_get (u"query") payload)) in
          Ok {| rq_version := default JNull (dict_get (u"v") payload);
                rq_sequence := expected_sequence; rq_request_id := request_id; rq_method := method;
                rq_path := path; rq_body := default JNull (dict_get (u"body") payload);
                rq_query := q; rq_push := bool_decide (is_Some response_mode) |}
      | _, _ => raise ValueError "Runner RPC path must be absolute"
      end
  | _ => raise ValueError "Runner RPC request_id must not be empty"
  end.

Definition parse_request (plaintext : pybytes) (expected_sequence : Z) : res RunnerRpcRequest :=
  check! guard (negb (bool_decide (plaintext = [])) && (zlen plaintext <=? REQUEST_BYTES_MAX)) ValueError
    "Runner RPC request has an invalid length" in
  let! payload := reraise_as
    (loads_bytes read_float read_constant json_object_without_duplicates plaintext)
    [UnicodeDecodeError; JSONDecodeError] ValueError "Runner RPC request is not valid UTF-8 JSON" in
  match payload with
  | JObj d =>
      check! guard (valid_shape d) ValueError "Runner RPC request has an invalid shape or version" in
      request_of_payload d expected_sequence
  | _ => raise ValueError "Runner RPC request has an invalid shape"
  end.
End Requests.

(** ** The scope of a route *)

Section Scopes.
Variables method path : pystr.
Definition is_method (m : string) : bool := bool_decide (method = u m).
Definition at_path (p : pystr) : bool := bool_decide (path = p).
Definition matches (r : regex) : bool := fullmatch r path.

(** The routes of [_required_scope] in the order it tries them, as a list of
    conditions and scopes. *)
Definition routes : list (bool * string) :=
  [ (is_method "GET" && at_path (u"/health"), "worker.health");
    (is_method "GET" && (at_path (u"/api/repos") || matches REPOSITORY_MEMBER_PATH), "repository.read");
    ((is_method "POST" || is_method "PATCH" || is_method "DELETE")
     && (at_path (u"/api/repos") || matches REPOSITORY_MEMBER_PATH), "repository.write");
    (is_method "GET" && matches WORKSPACE_COLLECTION_PATH, "workspace.read");
    (is_method "POST" && matches WORKSPACE_COLLECTION_PATH, "workspace.write");
    ((is_method "PATCH" || is_method "DELETE") && matches WORKSPACE_MEMBER_PATH, "workspace.write");
    (is_method "GET"
     && (matches SESSION_COLLECTION_PATH || matches SESSION_MEMBER_PATH || matches SESSION_READ_PATH
         || matches THREAD_READ_PATH || matches SESSION_HISTORY_PAGE_PATH
         || matches SESSION_HISTORY_BUNDLE_PATH || matches SESSION_HISTORY_FIELD_PATH), "session.read");
    (is_method "POST" && (matches SESSION_COLLECTION_PATH || matches THREAD_WRITE_PATH), "session.write");
    (is_method "PATCH" && matches SESSION_MEMBER_PATH, "session.write");
    (is_method "POST" && (matches PROMPT_RUN_COLLECTION_PATH || matches PROMPT_RUN_CANCEL_PATH),
     "session.stream");
    (is_method "GET" && (matches PROMPT_RUN_ACTIVE_PATH || matches PROMPT_RUN_EVENTS_PATH),
     "session.stream");
    (is_method "GET" && matches WORKSPACE_FILE_READ_PATH, "files.read");
    (is_method "PUT" && matches WORKSPACE_FILE_WRITE_PATH, "files.write");
    (is_method "POST" && (matches TERMINAL_COLLECTION_PATH || matches TERMINAL_ACTION_PATH), "terminal");
    (is_method "GET" && matches TERMINAL_EVENTS_PATH, "terminal");
    (is_method "DELETE" && matches TERMINAL_MEMBER_PATH, "terminal");
    ((is_method "GET" || is_method "POST") && at_path PROVIDER_CONNECTION_COLLECTION_PATH,
     "provider.configure");
    (is_method "DELETE" && matches PROVIDER_CONNECTION_MEMBER_PATH, "provider.configure");
    (is_method "GET" && at_path (u"/api/catalog"), "provider.configure");
    (is_method "POST" && matches PROVIDER_AUTH_START_PATH, "provider.configure");
    ((is_method "GET" || is_method "POST") && matches PROVIDER_AUTH_CALLBACK_PATH, "provider.configure");
    ((is_method "GET" || is_method "DELETE") && at_path PI_CONFIG_COLLECTION_PATH, "pi.configure");
    (is_method "GET" && (at_path (u"/api/settings/pi-config/commands")
                         || at_path (u"/api/settings/pi-release-notes")), "pi.configure");
    (is_method "POST" && (at_path (u"/api/settings/pi-config/github")
                          || at_path (u"/api/settings/pi-config/sync")), "pi.configure");
    (is_method "PATCH" && at_path (u"/api/settings/pi-config/categories"), "pi.configure");
    (is_method "POST" && (at_path PI_UPLOAD_COLLECTION_PATH || matches PI_UPLOAD_CHUNK_PATH
                          || matches PI_UPLOAD_COMPLETE_PATH), "pi.configure");
    (is_method "DELETE" && matches PI_UPLOAD_MEMBER_PATH, "pi.configure") ]%string.

Definition required_scope : res pystr :=
  match find (fun route => fst route) routes with
  | Some route => Ok (u (snd route))
  | None => raise ValueError "Runner RPC method or path is not allowed"
  end.
End Scopes.

(** ** The query contracts *)

(** [datetime.fromisoformat(text)] raises no [ValueError]. *)
Class PyDatetime := fromisoformat_ok : pystr → bool.

(** [s.replace(old, new)] for one character. *)
Definition replace_char (old : Z) (new : pystr) (s : pystr) : pystr :=
  flat_map (fun c => if c =? old then new else [c]) s.

Definition bad_cursor {A} : res A := raise ValueError "Runner message history cursor is invalid".

(** [set(query) == keys] *)
Definition query_keys (q : query) (keys : list pystr) : bool :=
  forallb (fun k => mem_str k keys) (map fst q) && forallb (fun k => mem_str k (map fst q)) keys.
(** [query[k]] of a key known to be there. *)
Definition query_value (q : query) (k : pystr) : pystr := default [] (assoc_get k q).

(** Tuples of a string and bytes compare lexicographically. *)
Definition cursor_ltb (a b : pystr * pybytes) : bool :=
  str_ltb a.1 b.1 || (bool_decide (a.1 = b.1) && str_ltb a.2 b.2).

Section Queries.
Context {DT : PyDatetime}.

Definition validate_history_cursor (cursor : pystr) : res (pystr * pybytes) :=
  if negb (fullmatch SESSION_HISTORY_CURSOR_PATTERN cursor) then bad_cursor
  else
    let! raw := reraise_as
      (b64decode (replace_char 95 (u"/") (replace_char 45 (u"+") cursor) ++ b64_padding cursor))
      [BinasciiError; ValueError] ValueError "Runner message history cursor is invalid" in
    if negb (bool_decide (b64url_encode raw = cursor)) || (zlen raw <? 19) then bad_cursor
    else
      let version := nth 0 raw 0 in
      let created_at_length := nth 1 raw 0 in
      if negb (version =? SESSION_HISTORY_CURSOR_VERSION)
         || negb ((1 <=? created_at_length) && (created_at_length <=? 64))
         || negb (zlen raw =? 2 + created_at_length + 16)
      then bad_cursor
      else
        let! created_at := reraise_as (utf8_decode (take (Z.to_nat created_at_length) (drop 2 raw)))
          [UnicodeDecodeError; ValueError] ValueError "Runner message history cursor is invalid" in
        if negb (fromisoformat_ok (replace_char 90 (u"+00:00") created_at)) then bad_cursor
        else Ok (created_at, drop (length raw - 16) raw).

Definition natural_upto (pattern : regex) (maximum : Z) (s : pystr) : bool :=
  fullmatch pattern s && (dec_value s <=? maximum).

Definition validate_bundle_query (q : query) : res unit :=
  check! guard (query_keys q [u"cursor"; u"through"; u"snapshot"; u"snapshot_count"; u"snapshot_tail";
                              u"active_run_id"]) ValueError
    "Runner message history bundle query is invalid" in
  let! cursor := validate_history_cursor (query_value q (u"cursor")) in
  let! through := validate_history_cursor (query_value q (u"through")) in
  let! _ := validate_history_cursor (query_value q (u"snapshot_tail")) in
  let snapshot := query_value q (u"snapshot") in
  check! guard (natural_upto SESSION_HISTORY_SNAPSHOT_PATTERN SESSION_HISTORY_SNAPSHOT_MAX snapshot
                && (1 <=? dec_value snapshot)) ValueError
    "Runner message history bundle snapshot is invalid" in
  check! guard (natural_upto SESSION_HISTORY_SNAPSHOT_PATTERN SESSION_HISTORY_SNAPSHOT_MAX
                  (query_value q (u"snapshot_count"))) ValueError
    "Runner message history bundle snapshot count is invalid" in
  check! guard (fullmatch SESSION_HISTORY_ACTIVE_RUN_PATTERN (query_value q (u"active_run_id"))) ValueError
    "Runner message history bundle active run is invalid" in
  guard (cursor_ltb cursor through) ValueError "Runner message history bundle cursor order is invalid".

Definition validate_field_query (q : query) : res unit :=
  check! guard (query_keys q [u"name"; u"offset"]) ValueError
    "Runner message history field query is invalid" in
  check! guard (mem_str (query_value q (u"name")) [u"content"; u"full_message"]) ValueError
    "Runner message history field name is invalid" in
  guard (natural_upto SESSION_HISTORY_OFFSET_PATTERN SESSION_HISTORY_OFFSET_MAX (query_value q (u"offset")))
    ValueError "Runner message history field offset is invalid".

Definition validate_route_query (method path : pystr) (q : query) : res unit :=
  if is_method method "GET" && matches path SESSION_HISTORY_PAGE_PATH then
    if bool_decide (q = []) then Ok tt
    else
      check! guard (query_keys q [u"cursor"]) ValueError "Runner message history page query is invalid" in
      let! _ := validate_history_cursor (query_value q (u"cursor")) in
      Ok tt
  else if is_method method "GET" && matches path SESSION_HISTORY_BUNDLE_PATH then
    if bool_decide (q = []) then Ok tt else validate_bundle_query q
  else if is_method method "GET" && matches path SESSION_HISTORY_FIELD_PATH then validate_field_query q
  else if is_method method "GET" && matches path PROVIDER_AUTH_CALLBACK_PATH then
    check! guard (query_keys q [u"flow_id"]) ValueError
      "Runner provider callback requires one flow_id query value" in
    guard (canonical_uuid (query_value q (u"flow_id"))) ValueError
      "Runner provider callback flow_id must be canonical"
  else if ends_with (u"/files/content") path || ends_with (u"/files/diff") path
          || ends_with (u"/files/preview") path then
    guard (query_keys q [u"path"] && negb (bool_decide (query_value q (u"path") = []))) ValueError
      "Runner file request requires one path query value"
  else guard (bool_decide (q = [])) ValueError "Runner RPC route does not accept query values".
End Queries.

(** ** Repository imports *)

(** The host checks of [urlsplit] (balanced IP literals are valid, Unicode
    normalisation creates no separator) raise no [ValueError]. *)
Class PyUrl := netloc_ok : pystr → bool.

Record split_result := {
  sr_scheme : pystr;
  sr_netloc : pystr;
  sr_path : pystr;
  sr_query : pystr;
  sr_fragment : pystr;
}.

(** The characters up to the first one of the class, and the rest. *)
Fixpoint span_until (stop : Z → bool) (s : pystr) : pystr * pystr :=
  match s with
  | [] => ([], [])
  | c :: t => if stop c then ([], s) else let '(a, b) := span_until stop t in (c :: a, b)
  end.

(** [s.partition(c)], without the separator. *)
Definition partition_char (c : Z) (s : pystr) : pystr * pystr :=
  let '(a, b) := span_until (Z.eqb c) s in (a, tail b).
(** [s.rpartition(c)[2]] *)
Definition after_last (c : Z) (s : pystr) : pystr := reverse (span_until (Z.eqb c) (reverse s)).1.

Definition is_letter (c : Z) : bool := is_lower c || is_upper c.
Definition scheme_char (c : Z) : bool :=
  is_letter c || is_digit c || (c =? 43) || (c =? 45) || (c =? 46).

Fixpoint lstrip_controls (s : pystr) : pystr :=
  match s with
  | c :: t => if (0 <=? c) && (c <=? 32) then lstrip_controls t else s
  | [] => []
  end.

(** The scheme in lower case and what follows its colon, if there is one. *)
Definition split_scheme (url : pystr) : pystr * pystr :=
  let '(prefix, rest) := span_until (Z.eqb 58) url in
  match rest, prefix with
  | _ :: rest', c :: _ =>
      if is_letter c && forallb scheme_char prefix then (lower prefix, rest') else ([], url)
  | _, _ => ([], url)
  end.

Definition urlsplit {U : PyUrl} (url : pystr) : res split_result :=
  let url := List.filter (fun c => negb (existsb (Z.eqb c) [9; 13; 10])) (lstrip_controls url) in
  let '(scheme, url) := split_scheme url in
  let '(netloc, url) :=
    if starts_with (u"//") url
    then span_until (fun c => existsb (Z.eqb c) [47; 63; 35]) (drop 2 url) else ([], url) in
  let opens := bool_decide (91 ∈ netloc) in
  let closes := bool_decide (93 ∈ netloc) in
  check! guard (eqb opens closes) ValueError "Invalid IPv6 URL" in
  let '(url, fragment) := partition_char 35 url in
  let '(url, query) := partition_char 63 url in
  check! guard (netloc_ok netloc) ValueError "netloc contains invalid characters" in
  Ok {| sr_scheme := scheme; sr_netloc := netloc; sr_path := url; sr_query := query;
        sr_fragment := fragment |}.

(** [parsed_url.hostname] is not empty: the host part up to a port or an IP
    literal. *)
Definition has_hostname (r : split_result) : bool :=
  let hostinfo := after_last 64 (sr_netloc r) in
  let hostname := if bool_decide (91 ∈ hostinfo)
                  then (partition_char 93 (partition_char 91 hostinfo).2).1
                  else (partition_char 58 hostinfo).1 in
  negb (bool_decide (hostname = [])).
(** [parsed_url.username] or [parsed_url.password] is not [None]: both exist
    only with user information. *)
Definition has_userinfo (r : split_result) : bool := bool_decide (64 ∈ sr_netloc r).

Definition validate_repository_import {U : PyUrl} (method path : pystr) (body : json) : res unit :=
  if negb (is_method method "POST") || negb (at_path path (u"/api/repos")) then Ok tt
  else match body with
  | JObj body =>
      check! guard (match dict_get (u"local_path") body with None | Some JNull => true | Some _ => false end)
        ValueError "Runner repository import cannot accept a local path" in
      match dict_get (u"remote_url") body with
      | Some (JStr remote_url) =>
          check! guard (negb (bool_decide (remote_url = []))) ValueError
            "Runner repository import requires a remote URL" in
          let! parsed_url := urlsplit remote_url in
          guard (bool_decide (sr_scheme parsed_url = u"https") && has_hostname parsed_url
                 && negb (has_userinfo parsed_url) && bool_decide (sr_query parsed_url = [])
                 && bool_decide (sr_fragment parsed_url = [])) ValueError
            "Runner repository import requires a credential-free HTTPS URL"
      | _ => raise ValueError "Runner repository import requires a remote URL"
      end
  | _ => raise ValueError "Runner repository import body must be an object"
  end.

(** ** Routed paths are worker paths *)

Definition path_char (c : Z) : bool := is_lower c || is_digit c || (c =? 45) || (c =? 47).

Lemma after_segments s :
  (after true s = Some false → Forall (fun x => x ≠ []) (split_on 47 s))
  ∧ (after false s = Some false → Forall (fun x => x ≠ []) (tail (split_on 47 s))).
Proof.
  induction s as [|c s [IH1 IH2]]; [split; [done|constructor]|]. cbn [after split_on].
  destruct (c =? 47); [by split|].
  destruct (split_on 47 s) as [|x xs] eqn:E; [by destruct (split_on_nonempty 47 s)|].
  split; intros H; [constructor; [done|]|]; by apply IH2.
Qed.

Lemma split_on_chars (P : Z → Prop) sep s : Forall P s → Forall (Forall P) (split_on sep s).
Proof.
  induction 1 as [|c s Hc Hs IH]; cbn [split_on]; [by repeat constructor|].
  destruct (c =? sep); [by constructor|]. destruct (split_on sep s) as [|x xs]; [by repeat constructor|].
  apply Forall_cons in IH as [? ?]. by repeat constructor.
Qed.

(** A path of plain characters without an empty segment is a worker path. *)
Lemma plain_path_valid path : Forall (fun c => path_char c = true) path → after false path = Some false →
  starts_with (u"/") path = true → zlen path <= WORKER_PATH_LENGTH_MAX → validate_path path = Ok path.
Proof.
  intros Hc Ha Hs Hl. unfold validate_path. destruct path as [|c path]; [done|].
  assert (c = 47) as ->.
  { change (u"/") with [47] in Hs. cbn [starts_with] in Hs. by apply andb_true_iff in Hs as [<-%Z.eqb_eq _]. }
  rewrite bool_decide_eq_false_2, (proj2 (Z.leb_le _ _) Hl), Hs by done. cbn [negb andb guard res_bind].
  replace (starts_with (u"//") (47 :: path)) with false.
  2: { destruct path as [|d path]; [done|]. cbn [after Z.eqb Pos.eqb] in Ha. change (u"//") with [47; 47].
       cbn [starts_with].
       destruct (Z.eqb_spec d 47) as [->|Hd]; [done|]. symmetry. apply andb_false_iff. right.
       by rewrite (proj2 (Z.eqb_neq 47 d)) by done. }
  cbn [negb andb guard res_bind].
  replace (forallb _ (47 :: path)) with true.
  2: { symmetry. apply forallb_Forall. eapply Forall_impl; [exact Hc|]. cbn. intros d Hd.
       unfold path_char, is_lower, is_digit in Hd. lia. }
  cbn [guard res_bind]. replace (forallb _ (tail _)) with true; [done|]. symmetry. apply forallb_Forall.
  pose proof (proj2 (after_segments (47 :: path)) Ha) as H1.
  pose proof (split_on_chars _ 47 _ Hc) as H2.
  assert (H3 : Forall (Forall (fun c => path_char c = true)) (tail (split_on 47 (47 :: path)))).
  { destruct (split_on 47 (47 :: path)); [done|]. by apply Forall_cons in H2 as [_ ?]. }
  eapply Forall_and_impl; [exact H1|exact H3|]. intros x Hx Hp. apply negb_true_iff, bool_decide_eq_false.
  rewrite !elem_of_cons, elem_of_nil. intros [->|[->|[->|[]]]]; [done| |];
    apply Forall_cons in Hp as [Hp _]; done.
Qed.

Definition path_regex_ok (r : regex) : Prop :=
  regex_ok r = true ∧ chars_in path_char r ∧ after_regex r false = Some false ∧ (max_len r <= 2048)%nat
  ∧ ∃ t r', r = Cat (Lit (47 :: t)) r'.

Lemma path_regex_valid r path : path_regex_ok r → fullmatch r path = true → validate_path path = Ok path.
Proof.
  intros (Hok & Hc & Ha & Hm & t & r' & Hr) Hf. apply fullmatch_lang in Hf; [|done].
  apply plain_path_valid.
  - by eapply chars_in_lang.
  - by eapply after_regex_lang.
  - subst r. destruct Hf as (s1 & s2 & -> & -> & _). done.
  - apply max_len_lang in Hf. unfold WORKER_PATH_LENGTH_MAX, zlen. lia.
Qed.

(** Proves [path_regex_ok] of a pattern of the table. *)
Ltac path_regex :=
  split; [reflexivity|]; split;
  [ cbn [cats words alts foldr map chars_in Opt Eps lit RESOURCE_ID];
    repeat split; try reflexivity; intros c Hc;
    unfold path_char, is_hex, is_lower, is_digit in *; lia
  | split; [vm_compute; reflexivity|]; split; [vm_compute; lia|]; by eexists _, _ ].

Lemma table_regexes_ok : Forall path_regex_ok
  [REPOSITORY_MEMBER_PATH; WORKSPACE_COLLECTION_PATH; WORKSPACE_MEMBER_PATH; SESSION_COLLECTION_PATH;
   SESSION_MEMBER_PATH; SESSION_READ_PATH; THREAD_READ_PATH; THREAD_WRITE_PATH; SESSION_HISTORY_PAGE_PATH;
   SESSION_HISTORY_BUNDLE_PATH; SESSION_HISTORY_FIELD_PATH; PROMPT_RUN_COLLECTION_PATH;
   PROMPT_RUN_ACTIVE_PATH; PROMPT_RUN_EVENTS_PATH; PROMPT_RUN_CANCEL_PATH; WORKSPACE_FILE_READ_PATH;
   WORKSPACE_FILE_WRITE_PATH; TERMINAL_COLLECTION_PATH; TERMINAL_MEMBER_PATH; TERMINAL_ACTION_PATH;
   TERMINAL_EVENTS_PATH; PROVIDER_CONNECTION_MEMBER_PATH; PROVIDER_AUTH_START_PATH;
   PROVIDER_AUTH_CALLBACK_PATH; PI_UPLOAD_CHUNK_PATH; PI_UPLOAD_COMPLETE_PATH; PI_UPLOAD_MEMBER_PATH].
Proof. repeat (apply Forall_cons; split; [path_regex|]). constructor. Qed.

(** The literal routes. *)
Definition literal_paths : list pystr :=
  [u"/health"; u"/api/repos"; PROVIDER_CONNECTION_COLLECTION_PATH; u"/api/catalog"; PI_CONFIG_COLLECTION_PATH;
   u"/api/settings/pi-config/commands"; u"/api/settings/pi-release-notes"; u"/api/settings/pi-config/github";
   u"/api/settings/pi-config/sync"; u"/api/settings/pi-config/categories"; PI_UPLOAD_COLLECTION_PATH].

Lemma literal_path_valid p : p ∈ literal_paths → validate_path p = Ok p.
Proof.
  intros Hp. assert (A : forallb (fun p => match validate_path p with
    | Ok q => bool_decide (q = p) | Raise _ => false end) literal_paths = true) by (vm_compute; reflexivity).
  apply forallb_Forall in A. rewrite Forall_forall in A. specialize (A p Hp). cbn beta in A.
  destruct (validate_path p); [|done]. by apply bool_decide_eq_true in A as ->.
Qed.

Section RouteFacts.
Variables method path : pystr.

(** The condition of a route names its methods and its paths. *)
Definition route_ok (route : bool * string) : Prop :=
  fst route = true → u (snd route) ∈ RUNNER_SCOPES ∧ mem_str method WORKER_METHODS = true
  ∧ validate_path path = Ok path
  ∧ (ends_with (u".read") (u (snd route)) = true → method = u"GET")
  ∧ (method = u"GET" → ends_with (u".write") (u (snd route)) = false).

Lemma at_path_valid p : p ∈ literal_paths → at_path path p = true → validate_path path = Ok path.
Proof. unfold at_path. intros Hp ->%bool_decide_eq_true. by apply literal_path_valid. Qed.

Lemma matches_valid r : path_regex_ok r → matches path r = true → validate_path path = Ok path.
Proof. apply path_regex_valid. Qed.

Lemma is_method_eq m : is_method method m = true → method = u m.
Proof. unfold is_method. by intros ?%bool_decide_eq_true. Qed.

(** One route of the table: its methods, then its paths. *)
Ltac route_facts T A B :=
  intros Hr; apply andb_true_iff in Hr as [Hm Hp];
  repeat match goal with E : _ || _ = true |- _ => apply orb_true_iff in E as [E|E] end;
  apply is_method_eq in Hm;
  (split; [by apply mem_str_spec|]);
  (split; [rewrite Hm; reflexivity|]);
  (split;
   [ first [ refine (A _ Hp (T _ _)); repeat first [apply list_elem_of_here | apply list_elem_of_further]
           | refine (B _ Hp _); by apply mem_str_spec ]
   | split; [first [intros _; exact Hm | intros Hd; discriminate Hd]
            |first [intros _; reflexivity | intros Hg; rewrite Hm in Hg; discriminate Hg]]]).

Lemma routes_ok : Forall route_ok (routes method path).
Proof.
  pose proof table_regexes_ok as T. rewrite Forall_forall in T.
  assert (A : ∀ r, matches path r = true → path_regex_ok r → validate_path path = Ok path)
    by (intros r H1 H2; by eapply matches_valid).
  assert (B : ∀ p, at_path path p = true → p ∈ literal_paths → validate_path path = Ok path)
    by (intros p H1 H2; by eapply at_path_valid).
  unfold routes. repeat (apply Forall_cons; split; [unfold route_ok; cbn [fst snd]; route_facts T A B|]).
  constructor.
Qed.

(** A route with a scope: its method and path are the worker's, reading scopes
    are for [GET] only and no [GET] needs a writing scope. *)
Lemma required_scope_ok scope : required_scope method path = Ok scope →
  scope ∈ RUNNER_SCOPES ∧ validate_method method = Ok method ∧ validate_path path = Ok path
  ∧ (ends_with (u".read") scope = true → method = u"GET")
  ∧ (method = u"GET" → ends_with (u".write") scope = false).
Proof.
  unfold required_scope. destruct (find _ _) as [route|] eqn:E; [|done]. intros [= <-].
  apply find_some in E as [Hin Hc]. pose proof routes_ok as H. rewrite Forall_forall in H.
  destruct (H route (proj2 (list_elem_of_In _ _) Hin) Hc) as (H1 & H2 & H3 & H4 & H5). split_and!; try done.
  unfold validate_method. by rewrite H2.
Qed.
End RouteFacts.

(** ** Requests *)

Section RequestFacts.
Context {UD : Unicode} {FL : PyFloat}.

Lemma parse_query_item_valid kv p : parse_query_item kv = Ok p → validate_query_item p = Ok tt.
Proof.
  unfold parse_query_item, validate_query_item. intros H. inv_ok.
  destruct (kv.2) as [| | | |value| |]; try done. inv_ok. cbn [fst snd].
  repeat match goal with E : ?b = true |- context [?b] => rewrite E end. done.
Qed.

Lemma parse_query_valid v q : parse_query v = Ok q → validate_query q = Ok q.
Proof.
  unfold parse_query, validate_query. destruct v as [| | | | | |l]; try done. intros H. inv_ok.
  apply mapM_res_ok in H. pose proof (Forall2_length _ _ _ H) as Hl.
  match goal with E : (zlen l <=? 16) = true |- _ => unfold zlen in E; rewrite Hl in E end.
  unfold zlen. match goal with E : (_ <=? 16) = true |- _ => rewrite E end. cbn [guard res_bind].
  replace (validate_query_items q) with (Ok tt); [done|]. clear -H. symmetry.
  induction H as [|kv p l q Hp Hl IH]; [done|]. cbn [validate_query_items].
  by rewrite (parse_query_item_valid _ _ Hp).
Qed.

Lemma parse_request_ok p n r : parse_request p n = Ok r →
  rq_sequence r = n ∧ canonical_uuid (rq_request_id r) = true ∧ rq_method r ≠ []
  ∧ normalized_path (rq_path r) = true ∧ validate_query (rq_query r) = Ok (rq_query r).
Proof.
  unfold parse_request, request_of_payload. intros H. inv_ok.
  match goal with E : match ?x with _ => _ end = Ok r |- _ => destruct x; try done end. inv_ok.
  repeat match goal with E : match ?x with _ => _ end = Ok r |- _ => destruct x eqn:?; try done; inv_ok end.
  breflect. cbn. split_and!; try done. by eapply parse_query_valid.
Qed.
End RequestFacts.

(** ** Cursors *)

Lemma replace_char_one old new s : replace_char old [new] s = map (fun c => if c =? old then new else c) s.
Proof.
  unfold replace_char. induction s as [|c s IH]; [done|]. cbn [flat_map map]. rewrite IH. by destruct (c =? old).
Qed.

(** The standard alphabet of a URL-safe text. *)
Definition standard_char (c : Z) : Z :=
  let d := if c =? 45 then 43 else c in if d =? 95 then 47 else d.

Lemma standard_value c : b64_value (standard_char c) = b64_value c.
Proof.
  unfold standard_char. destruct (Z.eqb_spec c 45) as [->|H1]; [done|].
  destruct (Z.eqb_spec c 95) as [->|H2]; done.
Qed.

Lemma standard_text s : replace_char 95 (u"/") (replace_char 45 (u"+") s) = map standard_char s.
Proof.
  change (u"/") with [47]. change (u"+") with [43]. rewrite !replace_char_one, map_map. done.
Qed.

Lemma decode_standard b : Forall (fun x => is_byte x = true) b →
  b64decode (map standard_char (b64url_encode b) ++ b64_padding (b64url_encode b)) = Ok b.
Proof.
  intros Hb. replace (b64_padding (b64url_encode b)) with (b64_padding (map standard_char (b64url_encode b))).
  2: { unfold b64_padding, zlen. by rewrite length_map. }
  apply b64decode_padded.
  - apply Forall_map. eapply Forall_impl; [by apply b64url_encode_token|]. cbn. intros c Hc Hs.
    assert (c = 61 ∨ c ≠ 61) as [->|N] by lia; [done|]. unfold standard_char in Hs.
    repeat case_match; breflect; lia.
  - unfold zlen. rewrite length_map. apply b64url_encode_len.
  - rewrite (b64_data_map _ (length (b64url_encode b))); [by apply b64_data_encode|apply standard_value|done].
Qed.

(** The bytes of a cursor: a version, the length and the UTF-8 text of a
    timestamp, and a sixteen-byte identifier. *)
Definition cursor_bytes (text : pybytes) (id : pybytes) : pybytes :=
  SESSION_HISTORY_CURSOR_VERSION :: zlen text :: text ++ id.

Section CursorFacts.
Context {DT : PyDatetime}.

Lemma fullmatch_cursor s : fullmatch SESSION_HISTORY_CURSOR_PATTERN s = true ↔
  1 <= zlen s <= 128 ∧ Forall (fun c => is_token_char c = true) s.
Proof.
  rewrite fullmatch_lang by done. cbn [lang SESSION_HISTORY_CURSOR_PATTERN]. unfold zlen. intuition lia.
Qed.

Lemma cursor_accepted cursor created_at id : validate_history_cursor cursor = Ok (created_at, id) →
  ∃ text, cursor = b64url_encode (cursor_bytes text id) ∧ utf8_encode created_at = Ok text
  ∧ 1 <= zlen text <= 64 ∧ zlen id = 16 ∧ fromisoformat_ok (replace_char 90 (u"+00:00") created_at) = true.
Proof.
  unfold validate_history_cursor. intros H. destruct (fullmatch _ cursor); [|done]. cbn [negb] in H.
  destruct (b64decode _) as [raw|e] eqn:Ed; cbn [reraise_as] in H; [|by case_match]. cbn [res_bind] in H.
  destruct (bool_decide (b64url_encode raw = cursor)) eqn:Ec; [|done]. cbn [negb orb] in H.
  destruct (zlen raw <? 19) eqn:El; [done|]. breflect.
  destruct raw as [|v [|n rest]]; [done..|]. cbn [nth] in H.
  destruct (v =? SESSION_HISTORY_CURSOR_VERSION) eqn:Ev; [|done]. cbn [negb orb] in H.
  destruct ((1 <=? n) && (n <=? 64)) eqn:En; [|done]. cbn [negb orb] in H.
  destruct (zlen (v :: n :: rest) =? 2 + n + 16) eqn:Er; [|done]. cbn [negb drop] in H. breflect.
  destruct (utf8_decode _) as [t|e] eqn:Eu; cbn [reraise_as] in H; [|by case_match]. cbn [res_bind] in H.
  destruct (fromisoformat_ok _) eqn:Ei; [|done]. injection H as <- <-.
  repeat rewrite zlen_cons in *. set (k := Z.to_nat n) in *.
  assert (Hk : Z.of_nat k = n) by (unfold k; lia).
  assert (Hr : length rest = (k + 16)%nat) by (unfold zlen in *; lia).
  exists (take k rest).
  replace (length rest - 14)%nat with (S (S k)) by lia.
  change (drop (S (S k)) (v :: n :: rest)) with (drop k rest).
  apply b64decode_ok in Ed as [Hb _]. do 2 apply Forall_cons in Hb as [_ Hb].
  split_and!; try done.
  2: { apply (utf8_decode_encode (length (take k rest))); [done|by apply Forall_take|exact Eu]. }
  - rewrite <- Ec, Ev. unfold cursor_bytes, zlen. rewrite length_take, take_drop.
    by replace (Z.of_nat (k `min` length rest)) with n by lia.
  - unfold zlen. rewrite length_take. lia.
  - unfold zlen. rewrite length_take. lia.
  - unfold zlen. rewrite length_drop. lia.
Qed.

Lemma cursor_complete text created_at id : utf8_decode text = Ok created_at →
  Forall (fun x => is_byte x = true) text → Forall (fun x => is_byte x = true) id →
  1 <= zlen text <= 64 → zlen id = 16 → fromisoformat_ok (replace_char 90 (u"+00:00") created_at) = true →
  validate_history_cursor (b64url_encode (cursor_bytes text id)) = Ok (created_at, id).
Proof.
  intros Hu Hbt Hbi Ht Hi Hf. set (raw := cursor_bytes text id).
  assert (Hraw : Forall (fun x => is_byte x = true) raw).
  { unfold raw, cursor_bytes. constructor; [done|]. constructor; [unfold is_byte; lia|]. by apply Forall_app. }
  assert (Hlen : zlen raw = 2 + zlen text + 16).
  { unfold raw, cursor_bytes. rewrite !zlen_cons, zlen_app. lia. }
  unfold validate_history_cursor. rewrite (proj2 (fullmatch_cursor _)).
  2: { split; [|by apply b64url_encode_token]. pose proof (b64url_encode_length raw).
       assert (1 <= zlen (b64url_encode raw)); [|lia]. unfold raw, cursor_bytes.
       destruct (text ++ id); cbn [b64url_encode]; unfold zlen; cbn [length]; lia. }
  cbn [negb]. rewrite standard_text, decode_standard by done. cbn [reraise_as res_bind].
  rewrite bool_decide_eq_true_2 by done. rewrite (proj2 (Z.ltb_ge _ _)) by lia. cbn [negb orb].
  change (nth 0 raw 0) with SESSION_HISTORY_CURSOR_VERSION. change (nth 1 raw 0) with (zlen text).
  rewrite Z.eqb_refl, (proj2 (Z.leb_le _ _) (proj1 Ht)), (proj2 (Z.leb_le _ _) (proj2 Ht)).
  rewrite (proj2 (Z.eqb_eq _ _) Hlen). cbn [negb orb andb].
  change (drop 2 raw) with (text ++ id). unfold zlen at 1. rewrite Nat2Z.id, take_app_length.
  rewrite Hu. cbn [reraise_as res_bind]. rewrite Hf. cbn [negb].
  replace (length raw - 16)%nat with (S (S (length text))) by (unfold zlen in *; lia).
  unfold raw, cursor_bytes. cbn [drop]. by rewrite drop_app_length.
Qed.
End CursorFacts.

(** ** Imports *)

Lemma span_until_spec stop s : s = (span_until stop s).1 ++ (span_until stop s).2
  ∧ (∀ c t, (span_until stop s).2 = c :: t → stop c = true).
Proof.
  induction s as [|c s [IH1 IH2]]; [done|]. cbn [span_until].
  destruct (stop c) eqn:Hc; cbn [fst snd]; [split; [done|]; by intros ? ? [= <- _]|].
  destruct (span_until stop s) as [a b]. cbn [fst snd] in *. split; [by rewrite IH1|done].
Qed.

(** A URL without the characters [urlsplit] ignores. *)
Definition cleaned (url : pystr) : pystr :=
  List.filter (fun c => negb (existsb (Z.eqb c) [9; 13; 10])) (lstrip_controls url).

Lemma split_scheme_ok url scheme rest : split_scheme url = (scheme, rest) → scheme ≠ [] →
  ∃ prefix, url = prefix ++ 58 :: rest ∧ lower prefix = scheme.
Proof.
  unfold split_scheme. pose proof (span_until_spec (Z.eqb 58) url) as [Hu Hs].
  destruct (span_until (Z.eqb 58) url) as [prefix r]. cbn [fst snd] in *.
  destruct r as [|c r]; [by intros [= <- <-]|]. specialize (Hs c r eq_refl). apply Z.eqb_eq in Hs. subst c.
  destruct prefix as [|p prefix]; [by intros [= <- <-]|]. destruct (_ && _); [|by intros [= <- <-]].
  intros [= <- <-] _. by exists (p :: prefix).
Qed.

Lemma urlsplit_ok {U : PyUrl} url r : urlsplit url = Ok r → sr_scheme r ≠ [] → has_hostname r = true →
  ∃ prefix rest, cleaned url = prefix ++ u"://" ++ sr_netloc r ++ rest ∧ lower prefix = sr_scheme r
  ∧ sr_netloc r ≠ [] ∧ (∀ c t, rest = c :: t → c = 47 ∨ c = 63 ∨ c = 35).
Proof.
  unfold urlsplit. fold (cleaned url). intros H Hs Hh.
  destruct (split_scheme (cleaned url)) as [scheme url1] eqn:E1.
  destruct (if starts_with (u"//") url1 then _ else _) as [netloc url2] eqn:E2.
  destruct (eqb _ _); [|done]. cbn [guard res_bind] in H.
  destruct (partition_char 35 url2) as [url3 fragment]. destruct (partition_char 63 url3) as [url4 q].
  destruct (netloc_ok netloc); [|done]. injection H as <-. cbn [sr_scheme sr_netloc] in *.
  assert (Hne : netloc ≠ []) by (by intros ->).
  apply split_scheme_ok in E1 as (prefix & Hu & Hp); [|done]. exists prefix, url2.
  destruct (starts_with (u"//") url1) eqn:Hd; [|congruence].
  assert (∃ t, url1 = 47 :: 47 :: t) as [t ->].
  { change (u"//") with [47; 47] in Hd. destruct url1 as [|a [|b t]]; cbn [starts_with] in Hd; try done; breflect.
    - done.
    - subst. eauto. }
  change (drop 2 (47 :: 47 :: t)) with t in E2. pose proof (span_until_spec (fun c => existsb (Z.eqb c) [47; 63; 35]) t) as [Ht Hst].
  rewrite E2 in Ht, Hst. cbn [fst snd] in Ht, Hst. split_and!; try done.
  - rewrite Hu, Ht. change (u"://") with [58; 47; 47]. done.
  - intros c rest Hc. specialize (Hst c rest Hc). cbn in Hst. lia.
Qed.

(** ** Properties *)

Section Properties.
Context {UD : Unicode} {FL : PyFloat} {DT : PyDatetime}.

(** A parsed request with a routed scope carries the expected sequence
    number, needs an allowed scope, reads only with [GET] under a reading scope
    and never writes with [GET]; and the worker dispatcher accepts its method,
    path and query: all it can still refuse is a body of a [GET] or
    [DELETE]. *)
Theorem routed_request_valid (plaintext : pybytes) n r scope :
  parse_request plaintext n = Ok r → required_scope (rq_method r) (rq_path r) = Ok scope →
  rq_sequence r = n ∧ canonical_uuid (rq_request_id r) = true ∧ scope ∈ RUNNER_SCOPES
  ∧ (ends_with (u".read") scope = true → rq_method r = u"GET")
  ∧ (rq_method r = u"GET" → ends_with (u".write") scope = false)
  ∧ validate_request (rq_method r) (rq_path r) (rq_body r) (rq_query r)
    = if mem_str (rq_method r) [u"GET"; u"DELETE"] && match rq_body r with JNull => false | _ => true end
      then raise ValueError "worker request body must be null" else Ok (rq_query r).
Proof.
  intros Hp Hs. apply parse_request_ok in Hp as (Hn & Hid & _ & _ & Hq).
  apply required_scope_ok in Hs as (Hin & Hm & Hpath & Hread & Hwrite). split_and!; try done.
  unfold validate_request. rewrite Hm, Hpath. cbn [res_bind]. by destruct (_ && _); cbn [negb guard res_bind].
Qed.

(** The history cursors the runner accepts are exactly the URL-safe
    encodings of a version byte, a timestamp of 1 to 64 UTF-8 bytes with its
    length, and a sixteen-byte identifier; it reads back the timestamp and the
    identifier. *)
Theorem history_cursor_iff (cursor created_at : pystr) (id : pybytes) :
  Forall (fun x => is_byte x = true) id →
  validate_history_cursor cursor = Ok (created_at, id) ↔
  ∃ text, utf8_encode created_at = Ok text ∧ cursor = b64url_encode (cursor_bytes text id)
    ∧ 1 <= zlen text <= 64 ∧ zlen id = 16
    ∧ fromisoformat_ok (replace_char 90 (u"+00:00") created_at) = true.
Proof.
  intros Hid. split.
  { intros H. apply cursor_accepted in H as (text & Hc & Hu & H). by exists text. }
  intros (text & Hu & -> & Ht & Hi & Hf).
  apply cursor_complete; try done; [by apply utf8_round_trip|by eapply utf8_encode_bytes].
Qed.
End Properties.

(** A repository import the runner lets through names, after the characters
    [urlsplit] drops, an [https] URL whose authority is not empty and holds no
    user information, and no local path. *)
Theorem repository_import_restricted {U : PyUrl} body :
  validate_repository_import (u"POST") (u"/api/repos") body = Ok tt →
  ∃ d url prefix netloc rest, body = JObj d ∧ dict_get (u"remote_url") d = Some (JStr url)
  ∧ (dict_get (u"local_path") d = None ∨ dict_get (u"local_path") d = Some JNull)
  ∧ cleaned url = prefix ++ u"://" ++ netloc ++ rest ∧ lower prefix = u"https"
  ∧ netloc ≠ [] ∧ (64 ∉ netloc) ∧ (∀ c t, rest = c :: t → c = 47 ∨ c = 63 ∨ c = 35).
Proof.
  unfold validate_repository_import. change (is_method (u"POST") "POST") with true.
  change (at_path (u"/api/repos") (u"/api/repos")) with true. cbn [negb orb].
  destruct body as [| | | | | |d]; try done. intros H. inv_ok.
  destruct (dict_get (u"remote_url") d) as [[| | | |url| |]|] eqn:Er; try done. inv_ok. breflect.
  match goal with E : urlsplit url = Ok ?r |- _ => rename E into Eu; rename r into sr end.
  match goal with E : has_userinfo sr = false |- _ => apply bool_decide_eq_false in E; rename E into Hno end.
  match goal with E : sr_scheme sr = _ |- _ => rename E into Hs end.
  destruct (urlsplit_ok url sr Eu) as (prefix & rest & Hc & Hp & Hne & Hr); [by rewrite Hs|done|].
  exists d, url, prefix, (sr_netloc sr), rest. split_and!; try done; [|by rewrite Hp].
  destruct (dict_get (u"local_path") d) as [[]|]; auto; done.
Qed.

(** ** The hypotheses can hold *)

Definition toy_unicode : Unicode := fun c => is_lower c || is_upper c || is_digit c.
Definition toy_datetime : PyDatetime := fun s => bool_decide (s = u"2026-01-01T00:00:00+00:00").
Definition toy_url : PyUrl := fun _ => true.

Definition toy_rid : pystr := repeat 97 32.
Definition toy_request_payload (sequence : Z) (method path : pystr) (q : list (pystr * json)) : list (pystr * json) :=
  [(u"body", JNull); (u"method", JStr method); (u"path", JStr path); (u"query", JObj q);
   (u"request_id", JStr (uuid_str (repeat 66 16))); (u"sequence", JInt sequence);
   (u"type", JStr (u"request")); (u"v", JInt 2)].
Definition toy_request_bytes (sequence : Z) (method path : pystr) (q : list (pystr * json)) : pybytes :=
  dumps true true (JObj (toy_request_payload sequence method path q)).
Definition toy_page : pystr := u"/api/sessions/" ++ toy_rid ++ u"/messages/page".
Definition toy_parsed : res RunnerRpcRequest :=
  @parse_request toy_unicode toy_float (toy_request_bytes 0 (u"GET") toy_page [(u"cursor", JStr (u"x"))]) 0.
Definition toy_rpc_request : RunnerRpcRequest := {|
  rq_version := JInt 2; rq_sequence := 0; rq_request_id := uuid_str (repeat 66 16); rq_method := u"GET";
  rq_path := toy_page; rq_body := JNull; rq_query := [(u"cursor", u"x")]; rq_push := false |}.

Lemma toy_parses : toy_parsed = Ok toy_rpc_request.
Proof. vm_compute. reflexivity. Qed.
Lemma toy_scope : required_scope (u"GET") toy_page = Ok (u"session.read").
Proof. vm_compute. reflexivity. Qed.

Lemma routed_request_valid_witness :
  toy_parsed = Ok toy_rpc_request
  ∧ @validate_request toy_unicode (u"GET") toy_page JNull [(u"cursor", u"x")] = Ok [(u"cursor", u"x")].
Proof.
  split; [exact toy_parses|].
  destruct (routed_request_valid (UD := toy_unicode) (FL := toy_float)
    (toy_request_bytes 0 (u"GET") toy_page [(u"cursor", JStr (u"x"))]) 0 toy_rpc_request (u"session.read")
    toy_parses toy_scope) as (_ & _ & _ & _ & _ & H). exact H.
Defined.

Definition toy_cursor : pystr :=
  b64url_encode (cursor_bytes (u"2026-01-01T00:00:00Z") (repeat 7 16)).

Lemma history_cursor_iff_witness :
  @validate_history_cursor toy_datetime toy_cursor = Ok (u"2026-01-01T00:00:00Z", repeat 7 16).
Proof.
  apply (history_cursor_iff (DT := toy_datetime) toy_cursor (u"2026-01-01T00:00:00Z") (repeat 7 16)).
  - by apply toy_bytes.
  - exists (u"2026-01-01T00:00:00Z"). split; [reflexivity|]. split; [reflexivity|].
    split; [vm_compute; split; discriminate|]. split; [reflexivity|]. vm_compute. reflexivity.
Defined.

Definition toy_import : json := JObj [(u"remote_url", JStr (u"https://example.com/repo.git"))].

Lemma repository_import_restricted_witness :
  @validate_repository_import toy_url (u"POST") (u"/api/repos") toy_import = Ok tt
  ∧ ∃ d url prefix netloc rest, toy_import = JObj d ∧ dict_get (u"remote_url") d = Some (JStr url)
  ∧ (dict_get (u"local_path") d = None ∨ dict_get (u"local_path") d = Some JNull)
  ∧ cleaned url = prefix ++ u"://" ++ netloc ++ rest ∧ lower prefix = u"https"
  ∧ netloc ≠ [] ∧ (64 ∉ netloc) ∧ (∀ c t, rest = c :: t → c = 47 ∨ c = 63 ∨ c = 35).
Proof.
  assert (E : @validate_repository_import toy_url (u"POST") (u"/api/repos") toy_import = Ok tt) by reflexivity.
  split; [exact E|]. exact (repository_import_restricted (U := toy_url) toy_import E).
Defined.
