(* ===== verification/RunnerRpc.v ===== *)
(** * The encrypted RPC session

    Models [EncryptedRunnerRpcSession] of [services/runner_rpc.py] with the
    fragment header of [services/runner_rpc_transport.py]: one capability
    handshake, then ordered requests, whole or in fragments, dispatched to the
    worker with the scopes of the capability, and responses that are pulled or
    pushed in fragments.

    The agent runs the frames of one transfer one after the other, so
    [handle_frame] is one function of the session, the replay store and the
    worker's world; between two frames the rest of the system may change the
    store and the world at will. *)

From S2P Require Import Prelude Text Json JsonBytes Regex Crypto RunnerCapabilities RunnerNoise WorkerRuntime RunnerRoutes.

Definition NOISE_CIPHERTEXT_BYTES_MAX : Z := 65535.
Definition NOISE_TAG_BYTES : Z := 16.
Definition TRANSPORT_HEADER_SIZE : Z := 17.
Definition TRANSPORT_MAGIC : pybytes := u"YRP1".
Definition TRANSPORT_REQUEST : Z := 1.
Definition TRANSPORT_ACK : Z := 2.
Definition TRANSPORT_RESPONSE : Z := 3.
Definition TRANSPORT_PULL : Z := 4.
Definition TRANSPORT_PAYLOAD_BYTES_MAX : Z :=
  NOISE_CIPHERTEXT_BYTES_MAX - NOISE_TAG_BYTES - TRANSPORT_HEADER_SIZE.
Definition RESPONSE_BYTES_MAX : Z := 10 * 1024 * 1024.
Definition NOISE_PLAINTEXT_BYTES_MAX : Z := NOISE_CIPHERTEXT_BYTES_MAX - NOISE_TAG_BYTES.

(** [struct.Struct(">4sBIII")] *)
Definition be32 (n : Z) : pybytes :=
  [n / 16777216 mod 256; n / 65536 mod 256; n / 256 mod 256; n mod 256].
Definition pack (kind index count total : Z) : pybytes :=
  TRANSPORT_MAGIC ++ kind :: be32 index ++ be32 count ++ be32 total.
Definition int_of_be (b : pybytes) : Z := fold_left (fun a x => a * 256 + x) b 0.
(** The fields of the first seventeen bytes of a frame. *)
Definition unpack (frame : pybytes) : pybytes * Z * Z * Z * Z :=
  (take 4 frame, nth 4 frame 0, int_of_be (take 4 (drop 5 frame)), int_of_be (take 4 (drop 9 frame)),
   int_of_be (take 4 (drop 13 frame))).

Definition fragment_count (total : Z) : res Z :=
  check! guard (1 <=? total) ValueError "Runner RPC transport total must be positive" in
  Ok (Z.max 1 ((total + TRANSPORT_PAYLOAD_BYTES_MAX - 1) / TRANSPORT_PAYLOAD_BYTES_MAX)).

Definition bad_fragment {A} : res A := raise ValueError "Runner RPC transport fragment is invalid".

Definition validate_fragment (index count total payload_length total_limit : Z) : res unit :=
  if (total <? 1) || (total_limit <? total) then bad_fragment
  else
    let! expected := fragment_count total in
    if negb (count =? expected) then bad_fragment
    else if count <=? index then bad_fragment
    else if negb (payload_length =? Z.min TRANSPORT_PAYLOAD_BYTES_MAX (total - index * TRANSPORT_PAYLOAD_BYTES_MAX))
    then bad_fragment
    else Ok tt.

(** [data[start:end]] for offsets that are not negative. *)
Definition slice (start end_ : Z) (data : pybytes) : pybytes :=
  take (Z.to_nat (end_ - start)) (drop (Z.to_nat start) data).
(** [buffer[start:start + len(payload)] = payload] inside the buffer. *)
Definition splice (start : Z) (payload buffer : pybytes) : pybytes :=
  take (Z.to_nat start) buffer ++ payload ++ drop (Z.to_nat start + length payload) buffer.

Definition fragment_payload (data : pybytes) (index : Z) : pybytes :=
  let start := index * TRANSPORT_PAYLOAD_BYTES_MAX in
  slice start (Z.min (zlen data) (start + TRANSPORT_PAYLOAD_BYTES_MAX)) data.
Definition pack_response_fragment (response : pybytes) (index count : Z) : pybytes :=
  pack TRANSPORT_RESPONSE index count (zlen response) ++ fragment_payload response index.

Section Rpc.
Context {ED : Ed25519} {RAW : Ed25519Raw} {X : X25519} {FL : PyFloat} {N : Noise}
  {UD : Unicode} {DT : PyDatetime} {URL : PyUrl} {A : WorkerApp}.

(** The request and response buffers with their positions. *)
Record buffers := {
  bf_request : option pybytes;
  bf_request_count : Z;
  bf_next_request : Z;
  bf_response : option pybytes;
  bf_response_count : Z;
  bf_next_response : Z;
}.
Definition no_buffers : buffers := {|
  bf_request := None; bf_request_count := 0; bf_next_request := 0;
  bf_response := None; bf_response_count := 0; bf_next_response := 0 |}.

(** [rp_factory] is the callable that makes the dispatcher of a user. *)
Record rpc_session := {
  rp_transfer_id : pystr;
  rp_noise : noise_session;
  rp_factory : option (pystr → res dispatcher);
  rp_dispatcher : option dispatcher;
  rp_established : bool;
  rp_failed : bool;
  rp_next_sequence : Z;
  rp_buffers : buffers;
}.

Definition new_rpc_session (transfer_id_ : pystr) (noise : noise_session)
    (factory : option (pystr → res dispatcher)) : res rpc_session :=
  check! guard (negb (bool_decide (transfer_id_ = []))) ValueError "transfer_id must not be empty" in
  check! guard (canonical_uuid transfer_id_) ValueError "transfer_id must be canonical" in
  Ok {| rp_transfer_id := transfer_id_; rp_noise := noise; rp_factory := factory; rp_dispatcher := None;
        rp_established := false; rp_failed := false; rp_next_sequence := 0; rp_buffers := no_buffers |}.

Definition with_noise (n : noise_session) (s : rpc_session) : rpc_session := {|
  rp_transfer_id := rp_transfer_id s; rp_noise := n; rp_factory := rp_factory s;
  rp_dispatcher := rp_dispatcher s; rp_established := rp_established s; rp_failed := rp_failed s;
  rp_next_sequence := rp_next_sequence s; rp_buffers := rp_buffers s |}.
Definition with_buffers (b : buffers) (s : rpc_session) : rpc_session := {|
  rp_transfer_id := rp_transfer_id s; rp_noise := rp_noise s; rp_factory := rp_factory s;
  rp_dispatcher := rp_dispatcher s; rp_established := rp_established s; rp_failed := rp_failed s;
  rp_next_sequence := rp_next_sequence s; rp_buffers := b |}.
Definition next_sequence (s : rpc_session) : rpc_session := {|
  rp_transfer_id := rp_transfer_id s; rp_noise := rp_noise s; rp_factory := rp_factory s;
  rp_dispatcher := rp_dispatcher s; rp_established := rp_established s; rp_failed := rp_failed s;
  rp_next_sequence := rp_next_sequence s + 1; rp_buffers := rp_buffers s |}.
Definition establish (d : option dispatcher) (s : rpc_session) : rpc_session := {|
  rp_transfer_id := rp_transfer_id s; rp_noise := rp_noise s; rp_factory := rp_factory s;
  rp_dispatcher := d; rp_established := true; rp_failed := rp_failed s;
  rp_next_sequence := rp_next_sequence s; rp_buffers := rp_buffers s |}.
(** [self._failed = True] *)
Definition fail_rpc (s : rpc_session) : rpc_session := {|
  rp_transfer_id := rp_transfer_id s; rp_noise := rp_noise s; rp_factory := rp_factory s;
  rp_dispatcher := rp_dispatcher s; rp_established := rp_established s; rp_failed := true;
  rp_next_sequence := rp_next_sequence s; rp_buffers := rp_buffers s |}.

Definition with_request (data : option pybytes) (count next : Z) (b : buffers) : buffers := {|
  bf_request := data; bf_request_count := count; bf_next_request := next;
  bf_response := bf_response b; bf_response_count := bf_response_count b;
  bf_next_response := bf_next_response b |}.
Definition with_response (data : option pybytes) (count next : Z) (b : buffers) : buffers := {|
  bf_request := bf_request b; bf_request_count := bf_request_count b;
  bf_next_request := bf_next_request b;
  bf_response := data; bf_response_count := count; bf_next_response := next |}.

(** ** The handshake *)

Definition dispatcher_for (s : rpc_session) (capability : VerifiedRunnerCapability) : res (option dispatcher) :=
  check! guard (bool_decide (transfer_id capability = rp_transfer_id s)) ValueError
    "Runner capability transfer_id does not match relay routing" in
  match rp_factory s with
  | None => Ok (rp_dispatcher s)
  | Some factory =>
      let! d := factory (user_id capability) in
      check! guard (bool_decide (dp_user_id d = user_id capability)) ValueError
        "Runner worker tenant does not match capability identity" in
      Ok (Some d)
  end.

Definition rpc_accept_handshake (message : pybytes) (current_time : Z) (fault : store_fault)
    : st (rpc_session * replay_store) pybytes := fun '(s, store) =>
  let '((n, store), response) := accept_handshake message current_time fault (rp_noise s, store) in
  let s := with_noise n s in
  match (let! response := response in
         match ns_capability n with
         | None => raise RuntimeError "Runner Noise capability is not authenticated"
         | Some capability => let! d := dispatcher_for s capability in Ok (d, response)
         end) with
  | Ok (d, response) => ((establish d s, store), Ok response)
  | Raise e => ((if caught e [TypeError; ValueError] then fail_rpc s else s, store), Raise e)
  end.

(** ** Dispatch *)

Definition granted_scopes (s : rpc_session) : list pystr :=
  match ns_capability (rp_noise s) with Some c => scopes c | None => [] end.

(** [_dispatch] up to the call of the worker: [None] for the health route. *)
Definition authorize (s : rpc_session) (r : RunnerRpcRequest) : res (option dispatcher) :=
  let! required := required_scope (rq_method r) (rq_path r) in
  check! guard (mem_str required (granted_scopes s)) ValueError "Runner capability does not allow the scope" in
  if at_path (rq_path r) (u"/health") then
    check! guard (match rq_body r with JNull => bool_decide (rq_query r = []) | _ => false end) ValueError
      "Runner health request body and query must be empty" in
    Ok None
  else
    match rp_dispatcher s with
    | None => raise ValueError "Runner worker dispatcher is unavailable"
    | Some d =>
        check! validate_route_query (rq_method r) (rq_path r) (rq_query r) in
        check! validate_repository_import (rq_method r) (rq_path r) (rq_body r) in
        Ok (Some d)
    end.

Definition dispatch (s : rpc_session) (r : RunnerRpcRequest) : st app_world (Z * json) := fun w =>
  match authorize s r with
  | Raise e => (w, Raise e)
  | Ok None => (w, Ok (200, JObj [(u"protocol", JStr RUNNER_PROTOCOL_VERSION); (u"status", JStr (u"ok"))]))
  | Ok (Some d) =>
      let '(w, response) := request d (rq_method r) (rq_path r) (rq_body r) (rq_query r) w in
      (w, let! response := response in Ok (status_code response, response_body response))
  end.

Definition response_json (r : RunnerRpcRequest) (status : Z) (body : json) : json :=
  JObj [(u"body", body); (u"request_id", JStr (rq_request_id r)); (u"sequence", JInt (rq_sequence r));
        (u"status", JInt status); (u"type", JStr (u"response")); (u"v", rq_version r)].

Definition parse_dispatched (plaintext : pybytes) (expected : Z) : res RunnerRpcRequest :=
  let! r := parse_request plaintext expected in
  check! guard (negb (rq_push r)
                || (is_method (rq_method r) "GET" && matches (rq_path r) SESSION_HISTORY_BUNDLE_PATH)) ValueError
    "Runner RPC push response is limited to history bundles" in
  Ok r.

Definition dispatch_payload (plaintext : pybytes)
    : st (rpc_session * app_world) (pybytes * RunnerRpcRequest) := fun '(s, w) =>
  match parse_dispatched plaintext (rp_next_sequence s) with
  | Raise e => ((s, w), Raise e)
  | Ok r =>
      let '(w, result) := dispatch s r w in
      match (let! result := result in
             utf8_encode (dumps true true (response_json r result.1 result.2))) with
      | Raise e => ((s, w), Raise e)
      | Ok response => ((next_sequence s, w), Ok (response, r))
      end
  end.

(** ** Responses *)

Definition begin_framed_response (response : pybytes) : st rpc_session pybytes := fun s =>
  match (check! guard (zlen response <=? RESPONSE_BYTES_MAX) ValueError
           "Runner RPC response exceeded transport limit" in
         fragment_count (zlen response)) with
  | Raise e => (s, Raise e)
  | Ok count =>
      let first := pack_response_fragment response 0 count in
      (if 1 <? count then with_buffers (with_response (Some response) count 1 (rp_buffers s)) s else s,
       Ok first)
  end.

Definition response_frames (response : pybytes) (r : RunnerRpcRequest) (force_framed : bool)
    : st rpc_session (list pybytes) := fun s =>
  if RESPONSE_BYTES_MAX <? zlen response
  then (s, raise ValueError "Runner RPC response exceeded transport limit")
  else if negb force_framed && (zlen response <=? NOISE_PLAINTEXT_BYTES_MAX) then (s, Ok [response])
  else if negb (rq_push r) then
    let '(s, first) := begin_framed_response response s in (s, let! first := first in Ok [first])
  else
    (s, let! count := fragment_count (zlen response) in
        Ok (map (fun index => pack_response_fragment response index count) (seqZ 0 count))).

Definition accept_response_pull (index count total : Z) (payload : pybytes) : st rpc_session pybytes := fun s =>
  let b := rp_buffers s in
  match bf_request b, bf_response b with
  | None, Some response =>
      if negb (bool_decide (payload = [])) || negb (index =? bf_next_response b)
         || negb (count =? bf_response_count b) || negb (total =? zlen response)
      then (s, bad_fragment)
      else
        let fragment := pack_response_fragment response index count in
        let next := bf_next_response b + 1 in
        (with_buffers (if next =? count then with_response None 0 0 b
                       else with_response (Some response) (bf_response_count b) next b) s,
         Ok fragment)
  | _, _ => (s, bad_fragment)
  end.

(** ** Requests in fragments *)

(** The buffer a fragment goes to: a first fragment opens a zeroed one. *)
Definition open_request (b : buffers) (index count total : Z) : res (pybytes * Z * Z) :=
  match bf_request b with
  | None => if index =? 0 then Ok (repeat 0 (Z.to_nat total), count, 0) else bad_fragment
  | Some data => Ok (data, bf_request_count b, bf_next_request b)
  end.

Definition accept_request_fragment (index count total : Z) (payload : pybytes)
    : st (rpc_session * app_world) (list pybytes) := fun '(s, w) =>
  let b := rp_buffers s in
  match (check! guard (negb (bool_decide (is_Some (bf_response b)))) ValueError
           "Runner RPC transport fragment is invalid" in
         check! validate_fragment index count total (zlen payload) REQUEST_BYTES_MAX in
         open_request b index count total) with
  | Raise e => ((s, w), Raise e)
  | Ok (data, expected_count, next) =>
      let s := with_buffers (with_request (Some data) expected_count next b) s in
      if negb (count =? expected_count) || negb (total =? zlen data) || negb (index =? next)
      then ((s, w), bad_fragment)
      else
        let data := splice (index * TRANSPORT_PAYLOAD_BYTES_MAX) payload data in
        if next + 1 <? count
        then ((with_buffers (with_request (Some data) expected_count (next + 1) b) s, w),
              Ok [pack TRANSPORT_ACK index count total])
        else
          let s := with_buffers (with_request None 0 0 b) s in
          let '((s, w), dispatched) := dispatch_payload data (s, w) in
          match dispatched with
          | Raise e => ((s, w), Raise e)
          | Ok (response, r) => let '(s, frames) := response_frames response r true s in ((s, w), frames)
          end
  end.

(** ** Frames *)

Definition handle_transport_frame (frame : pybytes) : st (rpc_session * app_world) (list pybytes) := fun '(s, w) =>
  if zlen frame <? TRANSPORT_HEADER_SIZE then ((s, w), bad_fragment)
  else
    let '(magic, kind, index, count, total) := unpack frame in
    let payload := drop 17 frame in
    if negb (bool_decide (magic = TRANSPORT_MAGIC)) then ((s, w), bad_fragment)
    else if kind =? TRANSPORT_REQUEST then accept_request_fragment index count total payload (s, w)
    else if kind =? TRANSPORT_PULL then
      let '(s, fragment) := accept_response_pull index count total payload s in
      ((s, w), let! fragment := fragment in Ok [fragment])
    else ((s, w), bad_fragment).

(** A decrypted frame: a fragment or a whole request. *)
Definition handle_plaintext (plaintext : pybytes) : st (rpc_session * app_world) (list pybytes) := fun '(s, w) =>
  if starts_with TRANSPORT_MAGIC plaintext then handle_transport_frame plaintext (s, w)
  else if bool_decide (is_Some (bf_request (rp_buffers s))) || bool_decide (is_Some (bf_response (rp_buffers s)))
  then ((s, w), bad_fragment)
  else
    let '((s, w), dispatched) := dispatch_payload plaintext (s, w) in
    match dispatched with
    | Raise e => ((s, w), Raise e)
    | Ok (response, r) => let '(s, frames) := response_frames response r false s in ((s, w), frames)
    end.

(** [tuple(encrypt(response) for response in responses)] *)
Fixpoint encrypt_all (responses : list pybytes) : st noise_session (list pybytes) := fun n =>
  match responses with
  | [] => (n, Ok [])
  | p :: rest =>
      let '(n, m) := session_encrypt p n in
      match m with
      | Raise e => (n, Raise e)
      | Ok m => let '(n, ms) := encrypt_all rest n in (n, let! ms := ms in Ok (m :: ms))
      end
  end.

(** The body of the [try] of [handle_frame]. *)
Definition frame_body (ciphertext : pybytes) : st (rpc_session * app_world) (list pybytes) := fun '(s, w) =>
  let '(n, plaintext) := session_decrypt ciphertext (rp_noise s) in
  let s := with_noise n s in
  match plaintext with
  | Raise e => ((s, w), Raise e)
  | Ok plaintext =>
      let '((s, w), responses) := handle_plaintext plaintext (s, w) in
      match responses with
      | Raise e => ((s, w), Raise e)
      | Ok responses =>
          let '(n, frames) := encrypt_all responses (rp_noise s) in ((with_noise n s, w), frames)
      end
  end.

Record rpc_world := { wd_session : rpc_session; wd_store : replay_store; wd_app : app_world }.

Definition handle_frame (ciphertext : pybytes) (current_time : Z) (fault : store_fault)
    : st rpc_world (list pybytes) := fun wd =>
  let s := wd_session wd in
  if rp_failed s then (wd, raise RuntimeError "Runner RPC session failed and cannot be reused")
  else if current_time <? 0 then (wd, raise ValueError "current_time must be a non-negative integer")
  else if negb (rp_established s) then
    let '((s, store), response) := rpc_accept_handshake ciphertext current_time fault (s, wd_store wd) in
    ({| wd_session := s; wd_store := store; wd_app := wd_app wd |}, let! response := response in Ok [response])
  else
    let '((s, w), responses) := frame_body ciphertext (s, wd_app wd) in
    ({| wd_session := match responses with
                      | Raise e => if caught e [TypeError; ValueError]
                                   then with_buffers no_buffers (fail_rpc s) else s
                      | Ok _ => s
                      end;
        wd_store := wd_store wd; wd_app := w |}, responses).
End Rpc.
Arguments rpc_session : clear implicits.
Arguments rpc_session {_}.
