(* ===== verification/RunnerRpcSpec.v ===== *)
(** * The RPC session is correct

    The proofs about [RunnerRpc]: fragments carry a request and a response
    unchanged (a client that fragments and pulls sees what a direct dispatch
    returns), every call of the worker is one the capability authorises, the
    buffers stay bounded and a failed session is final. *)

From S2P Require Import Prelude Text Json JsonBytes Regex Crypto RunnerCapabilities RunnerNoise WorkerRuntime RunnerRoutes RunnerRpc.

(** ** Headers *)

Lemma int_of_be32 n : 0 <= n < 2 ^ 32 → int_of_be (be32 n) = n.
Proof. intros Hn. unfold int_of_be, be32. cbn [fold_left]. zdm. Qed.

Lemma unpack_pack kind index count total payload :
  0 <= index < 2 ^ 32 → 0 <= count < 2 ^ 32 → 0 <= total < 2 ^ 32 →
  unpack (pack kind index count total ++ payload) = (TRANSPORT_MAGIC, kind, index, count, total).
Proof.
  intros Hi Hc Ht. rewrite <- (int_of_be32 index), <- (int_of_be32 count), <- (int_of_be32 total) at 2 by done.
  reflexivity.
Qed.

Lemma drop_pack kind index count total payload : drop 17 (pack kind index count total ++ payload) = payload.
Proof. reflexivity. Qed.

Lemma pack_length kind index count total payload :
  zlen (pack kind index count total ++ payload) = 17 + zlen payload.
Proof. rewrite zlen_app. reflexivity. Qed.

Lemma pack_magic kind index count total payload :
  starts_with TRANSPORT_MAGIC (pack kind index count total ++ payload) = true.
Proof. reflexivity. Qed.

(** ** Fragments *)

(** The size of a full fragment as a number of bytes of a list, sealed so that
    nothing computes it in unary. *)
Definition M_def : nat := Z.to_nat TRANSPORT_PAYLOAD_BYTES_MAX.
Definition M_aux : seal M_def. Proof. by eexists. Qed.
Definition M : nat := M_aux.(unseal).
Lemma M_eq : Z.of_nat M = TRANSPORT_PAYLOAD_BYTES_MAX.
Proof. unfold M. rewrite M_aux.(seal_eq). by apply Z2Nat.id. Qed.
Lemma M_pos : 0 < TRANSPORT_PAYLOAD_BYTES_MAX.
Proof. done. Qed.

Lemma fragment_take data k : (k * M <= length data)%nat →
  fragment_payload data (Z.of_nat k) = take M (drop (k * M) data).
Proof.
  intros Hk. pose proof M_pos. pose proof M_eq as HM. unfold fragment_payload, slice. rewrite <- HM.
  replace (Z.to_nat (Z.of_nat k * Z.of_nat M)) with (k * M)%nat by lia.
  destruct (Z.le_ge_cases (zlen data) (Z.of_nat k * Z.of_nat M + Z.of_nat M)) as [Hl|Hl].
  - rewrite Z.min_l by done. rewrite !take_ge; [done| |]; rewrite length_drop; unfold zlen in *; lia.
  - rewrite Z.min_r by done. do 2 f_equal. lia.
Qed.

Lemma fragment_count_eq total n : fragment_count total = Ok n →
  1 <= total ∧ 1 <= n ∧ (n - 1) * TRANSPORT_PAYLOAD_BYTES_MAX < total <= n * TRANSPORT_PAYLOAD_BYTES_MAX.
Proof.
  unfold fragment_count. intros H. inv_ok. breflect. pose proof M_pos.
  generalize dependent TRANSPORT_PAYLOAD_BYTES_MAX. intros m Hm. split; [done|].
  assert (1 <= (total + m - 1) / m) by (apply Z.div_le_lower_bound; lia).
  rewrite Z.max_r by done. split; [done|]. zdm.
Qed.

(** What a receiver holds after [k] fragments. *)
Definition received (data : pybytes) (k : nat) : pybytes :=
  take (k * M) data ++ repeat 0 (length data - k * M).

Lemma received_zero data : received data 0 = repeat 0 (length data).
Proof. unfold received. rewrite Nat.mul_0_l, Nat.sub_0_r. done. Qed.

Lemma received_all data k : (length data <= k * M)%nat → received data k = data.
Proof.
  intros H. unfold received. rewrite take_ge by done. replace (length data - k * M)%nat with 0%nat by lia.
  apply app_nil_r.
Qed.

Lemma received_length data k : length (received data k) = length data.
Proof. unfold received. rewrite length_app, length_take, repeat_length. lia. Qed.

Lemma drop_repeat {B} (x : B) f n : drop f (repeat x n) = repeat x (n - f).
Proof. revert n. induction f as [|f IH]; intros [|n]; cbn; auto. Qed.

Lemma fragment_length data k : (k * M <= length data)%nat →
  length (fragment_payload data (Z.of_nat k)) = (M `min` (length data - k * M))%nat.
Proof. intros Hk. rewrite fragment_take by done. by rewrite length_take, length_drop. Qed.

Lemma splice_received data k : (k * M <= length data)%nat →
  splice (Z.of_nat k * TRANSPORT_PAYLOAD_BYTES_MAX) (fragment_payload data (Z.of_nat k)) (received data k)
  = received data (S k).
Proof.
  intros Hk. unfold splice, received. rewrite fragment_length, fragment_take, <- M_eq by done.
  replace (Z.to_nat (Z.of_nat k * Z.of_nat M)) with (k * M)%nat by lia.
  assert (La : (k * M)%nat = length (take (k * M) data)) by (rewrite length_take; lia).
  rewrite (take_app_length' _ _ (k * M)), drop_app_add', drop_repeat by done.
  rewrite app_assoc, take_take_drop. do 2 f_equal; [f_equal; lia|]. rewrite Nat.mul_succ_l. lia.
Qed.

(** The fragments of [data], in order, make it up. *)
Lemma concat_fragments data k : (k * M <= length data)%nat →
  concat (map (fragment_payload data) (seqZ 0 (Z.of_nat k + 1))) = take (S k * M) data.
Proof.
  induction k as [|k IH]; intros Hk.
  - change (seqZ 0 (Z.of_nat 0 + 1)) with [Z.of_nat 0]. cbn [map concat]. rewrite app_nil_r, fragment_take by lia.
    rewrite Nat.mul_0_l, Nat.mul_1_l. done.
  - replace (Z.of_nat (S k) + 1) with ((Z.of_nat k + 1) + 1) by lia.
    rewrite seqZ_app, map_app, concat_app by lia. rewrite IH by (rewrite Nat.mul_succ_l in Hk; lia).
    change (seqZ (0 + (Z.of_nat k + 1)) 1) with [0 + (Z.of_nat k + 1)]. cbn [map concat]. rewrite app_nil_r.
    replace (0 + (Z.of_nat k + 1)) with (Z.of_nat (S k)) by lia. rewrite fragment_take, take_take_drop by done.
    by replace (S (S k) * M)%nat with (S k * M + M)%nat by lia.
Qed.

Lemma fragments_complete data n : fragment_count (zlen data) = Ok n →
  concat (map (fragment_payload data) (seqZ 0 n)) = data.
Proof.
  intros Hn. apply fragment_count_eq in Hn as (H1 & Hn & Hl). rewrite <- M_eq in Hl.
  assert (∃ k, n = Z.of_nat k + 1) as [k ->] by (exists (Z.to_nat (n - 1)); lia). unfold zlen in *.
  rewrite concat_fragments by lia. apply take_ge. lia.
Qed.

(** ** A client of one established session

    What a browser does with its plaintext frames: send the fragments of a
    request in order and keep the answer to the last one, then pull the
    fragments of the response it has not been given. *)

Section Exchange.
Context {ED : Ed25519} {RAW : Ed25519Raw} {X : X25519} {FL : PyFloat} {N : Noise}
  {UD : Unicode} {DT : PyDatetime} {URL : PyUrl} {A : WorkerApp}.
Implicit Types (s : rpc_session) (w : app_world).

Definition request_frame (data : pybytes) (count index : Z) : pybytes :=
  pack TRANSPORT_REQUEST index count (zlen data) ++ fragment_payload data index.
Definition pull_frame (count total index : Z) : pybytes := pack TRANSPORT_PULL index count total ++ [].

Fixpoint send_all (frames : list pybytes) : st (rpc_session * app_world) (list pybytes) := fun sw =>
  match frames with
  | [] => (sw, Ok [])
  | [frame] => handle_plaintext frame sw
  | frame :: rest =>
      let '(sw, answer) := handle_plaintext frame sw in
      match answer with Ok _ => send_all rest sw | Raise e => (sw, Raise e) end
  end.

Fixpoint pull_all (frames : list pybytes) : st (rpc_session * app_world) (list pybytes) := fun sw =>
  match frames with
  | [] => (sw, Ok [])
  | frame :: rest =>
      let '(sw, answer) := handle_plaintext frame sw in
      match answer with
      | Raise e => (sw, Raise e)
      | Ok fragments => let '(sw, more) := pull_all rest sw in (sw, let! more := more in Ok (fragments ++ more))
      end
  end.

(** The response the fragments carry, behind their headers. *)
Definition reassemble (fragments : list pybytes) : pybytes := concat (map (drop 17) fragments).

Definition collect (frames : list pybytes) : st (rpc_session * app_world) pybytes := fun sw =>
  match frames with
  | [] => (sw, raise ValueError "no response")
  | first :: _ =>
      let '(_, _, _, count, total) := unpack first in
      let '(sw, rest) := pull_all (map (pull_frame count total) (seqZ (zlen frames) (count - zlen frames))) sw in
      (sw, let! rest := rest in Ok (reassemble (frames ++ rest)))
  end.

Definition exchange (data : pybytes) : st (rpc_session * app_world) pybytes := fun sw =>
  match fragment_count (zlen data) with
  | Raise e => (sw, Raise e)
  | Ok count =>
      let '(sw, answer) := send_all (map (request_frame data count) (seqZ 0 count)) sw in
      match answer with Raise e => (sw, Raise e) | Ok frames => collect frames sw end
  end.

(** *** Sending *)

Lemma validate_fragment_ok data k n limit : fragment_count (zlen data) = Ok n → zlen data <= limit →
  (Z.of_nat k < n) →
  validate_fragment (Z.of_nat k) n (zlen data) (zlen (fragment_payload data (Z.of_nat k))) limit = Ok tt.
Proof.
  intros Hn Hl Hk. pose proof Hn as Hc. apply fragment_count_eq in Hc as (H1 & H2 & H3).
  pose proof M_eq as HM. unfold validate_fragment.
  rewrite (proj2 (Z.ltb_ge _ _)), (proj2 (Z.ltb_ge limit _)) by lia. cbn [orb]. rewrite Hn. cbn [res_bind].
  rewrite Z.eqb_refl, (proj2 (Z.leb_gt _ _)) by lia. cbn [negb].
  assert (Hkm : (k * M <= length data)%nat) by (unfold zlen in *; nia).
  replace (zlen (fragment_payload data (Z.of_nat k)) =? _) with true; [done|]. symmetry. apply Z.eqb_eq.
  unfold zlen at 1. rewrite fragment_length, <- HM by done. unfold zlen in *. lia.
Qed.

(** The session after [k] fragments of [data]. *)
Definition sending s (data : pybytes) (n : Z) (k : nat) : rpc_session :=
  match k with
  | O => s
  | S _ => with_buffers (with_request (Some (received data k)) n (Z.of_nat k) no_buffers) s
  end.

Definition idle s : Prop := rp_buffers s = no_buffers.

Lemma idle_with s : idle s → with_buffers no_buffers s = s.
Proof. unfold idle, with_buffers. intros H. rewrite <- H. by destruct s. Qed.

Lemma open_sending s data n k : idle s → fragment_count (zlen data) = Ok n → Z.of_nat k < n →
  open_request (rp_buffers (sending s data n k)) (Z.of_nat k) n (zlen data)
  = Ok (received data k, n, Z.of_nat k)
  ∧ bf_response (rp_buffers (sending s data n k)) = None.
Proof.
  intros Hi Hn Hk. destruct k as [|k]; [|done]. cbn [sending]. rewrite Hi. split; [|done].
  rewrite received_zero. unfold open_request, zlen. rewrite Nat2Z.id. reflexivity.
Qed.

(** Where the next fragment leads. *)
Lemma accept_next s w data n k : idle s → fragment_count (zlen data) = Ok n → zlen data <= REQUEST_BYTES_MAX →
  Z.of_nat k < n →
  accept_request_fragment (Z.of_nat k) n (zlen data) (fragment_payload data (Z.of_nat k)) (sending s data n k, w)
  = if Z.of_nat k + 1 <? n
    then ((sending s data n (S k), w), Ok [pack TRANSPORT_ACK (Z.of_nat k) n (zlen data)])
    else let '((s, w), dispatched) := dispatch_payload data (s, w) in
         match dispatched with
         | Raise e => ((s, w), Raise e)
         | Ok (response, r) => let '(s, frames) := response_frames response r true s in ((s, w), frames)
         end.
Proof.
  intros Hi Hn Hl Hk. unfold accept_request_fragment.
  destruct (open_sending s data n k Hi Hn Hk) as [Ho Hr]. rewrite Hr.
  rewrite bool_decide_eq_false_2 by (intros [? ?]; done). cbn [negb guard res_bind].
  rewrite (validate_fragment_ok data k n) by done. cbn [res_bind]. rewrite Ho.
  rewrite Z.eqb_refl. unfold zlen at 1. unfold zlen at 1. rewrite received_length, !Z.eqb_refl. cbn [negb orb].
  assert (Hkm : (k * M <= length data)%nat).
  { apply fragment_count_eq in Hn as (_ & _ & Hn). rewrite <- M_eq in Hn. unfold zlen in *. nia. }
  rewrite splice_received by done.
  assert (Hb : ∀ d c i, with_buffers (with_request d c i (rp_buffers (sending s data n k))) 
      (with_buffers (with_request (Some (received data k)) n (Z.of_nat k) (rp_buffers (sending s data n k)))
         (sending s data n k)) = with_buffers (with_request d c i no_buffers) s).
  { intros d c i. destruct k; cbn [sending]; [by rewrite Hi|done]. }
  rewrite !Hb. destruct (Z.of_nat k + 1 <? n) eqn:E.
  - cbn [sending]. by replace (Z.of_nat (S k)) with (Z.of_nat k + 1) by lia.
  - rewrite received_all.
    2: { apply fragment_count_eq in Hn as (_ & _ & Hn). rewrite <- M_eq in Hn. breflect. unfold zlen in *. nia. }
    change (with_request None 0 0 no_buffers) with no_buffers. by rewrite idle_with.
Qed.

Lemma small_counts (data : pybytes) n limit : fragment_count (zlen data) = Ok n → zlen data <= limit → limit < 2 ^ 32 →
  0 <= n < 2 ^ 32 ∧ 0 <= zlen (data : pybytes) < 2 ^ 32.
Proof.
  intros (H1 & H2 & H3)%fragment_count_eq Hl Hm. pose proof M_pos.
  assert (n - 1 < zlen data) by nia. lia.
Qed.

Lemma handle_request_frame s w data n k : fragment_count (zlen data) = Ok n → zlen data <= REQUEST_BYTES_MAX →
  Z.of_nat k < n →
  handle_plaintext (request_frame data n (Z.of_nat k)) (s, w)
  = accept_request_fragment (Z.of_nat k) n (zlen data) (fragment_payload data (Z.of_nat k)) (s, w).
Proof.
  intros Hn Hl Hk. destruct (small_counts data n REQUEST_BYTES_MAX Hn Hl) as [Hc Ht]; [done|].
  unfold handle_plaintext, handle_transport_frame, request_frame. rewrite pack_magic, pack_length, drop_pack.
  rewrite (proj2 (Z.ltb_ge _ _)) by (pose proof (zlen_nonneg (fragment_payload data (Z.of_nat k)));
    unfold TRANSPORT_HEADER_SIZE; lia).
  rewrite unpack_pack by lia. rewrite bool_decide_eq_true_2 by done. done.
Qed.

Lemma send_requests s w data n k : idle s → fragment_count (zlen data) = Ok n → zlen data <= REQUEST_BYTES_MAX →
  Z.of_nat k < n →
  send_all (map (request_frame data n) (seqZ (Z.of_nat k) (n - Z.of_nat k))) (sending s data n k, w)
  = let '((s, w), dispatched) := dispatch_payload data (s, w) in
    match dispatched with
    | Raise e => ((s, w), Raise e)
    | Ok (response, r) => let '(s, frames) := response_frames response r true s in ((s, w), frames)
    end.
Proof.
  intros Hi Hn Hl. remember (Z.to_nat (n - Z.of_nat k) - 1)%nat as j eqn:Hj. revert k Hj.
  induction j as [|j IH]; intros k Hj Hk.
  - replace (n - Z.of_nat k) with 1 by lia. rewrite seqZ_cons by lia. cbn [Z.pred map].
    change (seqZ _ (Z.pred 1)) with (@nil Z). cbn [map send_all].
    rewrite handle_request_frame, accept_next by done. by rewrite (proj2 (Z.ltb_ge _ _)) by lia.
  - rewrite seqZ_cons by lia. replace (Z.succ (Z.of_nat k)) with (Z.of_nat (S k)) by lia.
    replace (Z.pred (n - Z.of_nat k)) with (n - Z.of_nat (S k)) by lia. cbn [map].
    specialize (IH (S k) ltac:(lia) ltac:(lia)).
    destruct (map (request_frame data n) (seqZ (Z.of_nat (S k)) (n - Z.of_nat (S k)))) as [|f fs] eqn:E.
    { exfalso. apply map_eq_nil in E. rewrite seqZ_cons in E by lia. done. }
    cbn [send_all] in *. rewrite handle_request_frame, accept_next by (done || lia).
    rewrite (proj2 (Z.ltb_lt _ _)) by lia. exact IH.
Qed.

(** *** Pulling *)

(** The session that will give fragment [k] of a response next. *)
Definition pulling s (response : pybytes) (n : Z) (k : Z) : rpc_session :=
  if k <? n then with_buffers (with_response (Some response) n k no_buffers) s else s.

Lemma pull_next s w response n k : idle s → fragment_count (zlen response) = Ok n →
  zlen response <= RESPONSE_BYTES_MAX → 1 <= k < n →
  handle_plaintext (pull_frame n (zlen response) k) (pulling s response n k, w)
  = ((pulling s response n (k + 1), w), Ok [pack_response_fragment response k n]).
Proof.
  intros Hi Hn Hl Hk. destruct (small_counts response n RESPONSE_BYTES_MAX Hn Hl) as [Hc Ht]; [done|].
  unfold handle_plaintext, handle_transport_frame, pull_frame. rewrite pack_magic, pack_length, drop_pack.
  rewrite (proj2 (Z.ltb_ge _ _)) by done. rewrite unpack_pack by lia. rewrite bool_decide_eq_true_2 by done.
  cbn [negb]. change (TRANSPORT_PULL =? TRANSPORT_REQUEST) with false.
  change (TRANSPORT_PULL =? TRANSPORT_PULL) with true. cbv iota.
  unfold accept_response_pull, pulling. rewrite (proj2 (Z.ltb_lt k n)) by lia.
  cbn [rp_buffers with_buffers with_response no_buffers bf_request bf_response bf_next_response bf_response_count].
  rewrite bool_decide_eq_true_2, !Z.eqb_refl by done. cbn [negb orb].
  destruct (Z.eqb_spec (k + 1) n) as [E|E].
  - rewrite (proj2 (Z.ltb_ge _ _)) by lia. cbn [res_bind]. do 3 f_equal. exact (idle_with s Hi).
  - rewrite (proj2 (Z.ltb_lt _ _)) by lia. done.
Qed.

Lemma pull_rest s w response n k : idle s → fragment_count (zlen response) = Ok n →
  zlen response <= RESPONSE_BYTES_MAX → 1 <= k <= n →
  pull_all (map (pull_frame n (zlen response)) (seqZ k (n - k))) (pulling s response n k, w)
  = ((s, w), Ok (map (fun i => pack_response_fragment response i n) (seqZ k (n - k)))).
Proof.
  intros Hi Hn Hl. remember (Z.to_nat (n - k)) as j eqn:Hj. revert k Hj.
  induction j as [|j IH]; intros k Hj Hk.
  - replace (n - k) with 0 by lia. change (seqZ k 0) with (@nil Z). cbn [map pull_all].
    unfold pulling. by rewrite (proj2 (Z.ltb_ge _ _)) by lia.
  - rewrite seqZ_cons by lia. replace (Z.succ k) with (k + 1) by lia.
    replace (Z.pred (n - k)) with (n - (k + 1)) by lia. cbn [map pull_all].
    rewrite pull_next by (done || lia). rewrite IH by lia. done.
Qed.

Lemma reassemble_all response n : fragment_count (zlen response) = Ok n →
  reassemble (map (fun i => pack_response_fragment response i n) (seqZ 0 n)) = response.
Proof.
  intros Hn. unfold reassemble. rewrite map_map.
  rewrite (map_ext _ (fragment_payload response)) by (intros; apply drop_pack). by apply fragments_complete.
Qed.

Lemma unpack_response response i n : fragment_count (zlen response) = Ok n → zlen response <= RESPONSE_BYTES_MAX →
  0 <= i < n → unpack (pack_response_fragment response i n)
  = (TRANSPORT_MAGIC, TRANSPORT_RESPONSE, i, n, zlen response).
Proof.
  intros Hn Hl Hi. destruct (small_counts response n RESPONSE_BYTES_MAX Hn Hl) as [Hc Ht]; [done|].
  apply unpack_pack; lia.
Qed.

(** Whatever way a response is framed, the client collects it. *)
Lemma collect_response s w response r : idle s → 1 <= zlen response <= RESPONSE_BYTES_MAX →
  (let '(s, frames) := response_frames response r true s in
   match frames with Raise e => ((s, w), Raise e) | Ok frames => collect frames (s, w) end)
  = ((s, w), Ok response).
Proof.
  intros Hi Hl. unfold response_frames, begin_framed_response.
  rewrite (proj2 (Z.ltb_ge _ _)), (proj2 (Z.leb_le (zlen response) RESPONSE_BYTES_MAX)) by lia.
  cbn [negb andb guard res_bind].
  destruct (fragment_count (zlen response)) as [n|e] eqn:Hn.
  2: { exfalso. unfold fragment_count in Hn. by rewrite (proj2 (Z.leb_le 1 _)) in Hn by lia. }
  pose proof Hn as Hcount. apply fragment_count_eq in Hcount as (_ & H1 & _).
  assert (Hseq : seqZ 0 n = 0 :: seqZ 1 (n - 1)) by (rewrite seqZ_cons by lia; do 2 f_equal; lia).
  pose proof (reassemble_all response n Hn) as Hall. rewrite Hseq in Hall.
  destruct (rq_push r); cbn [negb res_bind].
  - unfold collect. rewrite Hseq. cbn [map]. rewrite (unpack_response response 0 n Hn) by lia.
    assert (Hlen : zlen (pack_response_fragment response 0 n
                         :: map (fun i => pack_response_fragment response i n) (seqZ 1 (n - 1))) = n).
    { rewrite zlen_cons. unfold zlen. rewrite length_map, length_seqZ. lia. }
    rewrite Hlen, Z.sub_diag. change (seqZ n 0) with (@nil Z). cbn [map pull_all res_bind].
    rewrite app_nil_r. cbn [map] in Hall. by rewrite Hall.
  - unfold collect. rewrite (unpack_response response 0 n Hn) by lia. change (zlen [_]) with 1.
    assert (Hp : (if 1 <? n then with_buffers (with_response (Some response) n 1 (rp_buffers s)) s else s)
                 = pulling s response n 1) by (unfold pulling; by rewrite Hi).
    rewrite Hp, pull_rest by lia || done. cbn [res_bind app]. cbn [map] in Hall. by rewrite Hall.
Qed.

Lemma response_nonempty r status body b :
  utf8_encode (dumps true true (response_json r status body)) = Ok b → 1 <= zlen b.
Proof.
  intros H. destruct b as [|x b]; [|unfold zlen; cbn [length]; lia].
  exfalso. unfold response_json in H. cbn [dumps utf8_encode] in H. inv_ok. done.
Qed.

Lemma dispatch_payload_idle data s w s' w' x : dispatch_payload data (s, w) = ((s', w'), x) →
  rp_buffers s' = rp_buffers s ∧ (∀ response r, x = Ok (response, r) → 1 <= zlen response).
Proof.
  unfold dispatch_payload. destruct (parse_dispatched _ _) as [r|e]; [|by intros [= <- <- <-]].
  destruct (dispatch s r w) as [w1 [[status body]|e]]; cbn [res_bind fst snd]; [|by intros [= <- <- <-]].
  destruct (utf8_encode _) as [b|e] eqn:E; intros [= <- <- <-]; split; try done.
  intros ? ? [= <- <-]. by eapply response_nonempty.
Qed.

(** C20. Fragmentation is transparent: for a session with empty buffers, a
    client that sends a request of 1 to 2 MiB bytes in fragments and then
    collects the response, pushed or pulled, leaves the session and the worker
    as a direct dispatch of the request would, and ends with exactly its
    response or its exception. *)
Theorem fragmented_exchange s w data : rp_buffers s = no_buffers → 1 <= zlen data <= REQUEST_BYTES_MAX →
  exchange data (s, w)
  = let '((s', w'), dispatched) := dispatch_payload data (s, w) in
    ((s', w'),
     let! p := dispatched in
     check! guard (zlen p.1 <=? RESPONSE_BYTES_MAX) ValueError "Runner RPC response exceeded transport limit" in
     Ok p.1).
Proof.
  intros Hi Hl. unfold exchange. destruct (fragment_count (zlen data)) as [n|e] eqn:Hn.
  2: { exfalso. unfold fragment_count in Hn. by rewrite (proj2 (Z.leb_le 1 _)) in Hn by lia. }
  assert (0 < n) by (apply fragment_count_eq in Hn; lia).
  pose proof (send_requests s w data n 0 Hi Hn (proj2 Hl) ltac:(done)) as Hs.
  change (Z.of_nat 0) with 0 in Hs. rewrite Z.sub_0_r in Hs. cbn [sending] in Hs. rewrite Hs.
  destruct (dispatch_payload data (s, w)) as [[s' w'] [[response r]|e]] eqn:E; [|done].
  apply dispatch_payload_idle in E as [Hb Hr]. specialize (Hr _ _ eq_refl). cbn [res_bind fst].
  destruct (zlen response <=? RESPONSE_BYTES_MAX) eqn:El; cbn [guard res_bind].
  - breflect. pose proof (collect_response s' w' response r ltac:(unfold idle; congruence) (conj Hr El)) as Hc.
    destruct (response_frames response r true s') as [s2 [frames|e]]; exact Hc.
  - breflect. unfold response_frames. by rewrite (proj2 (Z.ltb_lt _ _)) by done.
Qed.
End Exchange.

(** ** Every reachable session *)

Section Safety.
Context {ED : Ed25519} {RAW : Ed25519Raw} {X : X25519} {FL : PyFloat} {N : Noise}
  {UD : Unicode} {DT : PyDatetime} {URL : PyUrl} {A : WorkerApp}.
Implicit Types (s : rpc_session) (w : app_world).

(** *** The Noise session keeps its identity and its capability *)

Definition same_authority (n n' : noise_session) : Prop :=
  ns_runner_id n' = ns_runner_id n ∧ ns_runner_public_key n' = ns_runner_public_key n
  ∧ ns_signing_public_key n' = ns_signing_public_key n ∧ ns_capability n' = ns_capability n.

Lemma same_refl n : same_authority n n.
Proof. done. Qed.
Lemma same_trans n1 n2 n3 : same_authority n1 n2 → same_authority n2 n3 → same_authority n1 n3.
Proof. intros (? & ? & ? & ?) (? & ? & ? & ?). split_and!; congruence. Qed.

Lemma decrypt_same m n : same_authority n (session_decrypt m n).1.
Proof.
  unfold session_decrypt. destruct (res_bind _ _) as [[]|e]; [|done].
  by destruct (responder_decrypt m _) as [r [p|e]].
Qed.

Lemma encrypt_same p n : same_authority n (session_encrypt p n).1.
Proof.
  unfold session_encrypt. destruct (res_bind _ _) as [[]|e]; [|done].
  by destruct (responder_encrypt p _) as [r [m|e]].
Qed.

Lemma encrypt_all_same ps n : same_authority n (encrypt_all ps n).1.
Proof.
  revert n. induction ps as [|p ps IH]; intros n; [done|]. cbn [encrypt_all].
  pose proof (encrypt_same p n) as H. destruct (session_encrypt p n) as [n1 [m|e]]; [|done]. cbn [fst] in H.
  specialize (IH n1). destruct (encrypt_all ps n1) as [n2 ms]. by eapply same_trans.
Qed.

(** *** Buffers *)

Definition request_ok (b : buffers) : Prop :=
  match bf_request b with
  | None => True
  | Some data => bf_response b = None ∧ fragment_count (zlen data) = Ok (bf_request_count b)
      ∧ zlen data <= REQUEST_BYTES_MAX ∧ 1 <= bf_next_request b < bf_request_count b
  end.
Definition response_ok (b : buffers) : Prop :=
  match bf_response b with
  | None => True
  | Some response => bf_request b = None ∧ fragment_count (zlen response) = Ok (bf_response_count b)
      ∧ zlen response <= RESPONSE_BYTES_MAX ∧ 1 <= bf_next_response b < bf_response_count b
  end.
Definition buffers_ok (b : buffers) : Prop := request_ok b ∧ response_ok b.

Lemma no_buffers_ok : buffers_ok no_buffers.
Proof. done. Qed.

Lemma validate_fragment_inv index count total len limit : validate_fragment index count total len limit = Ok tt →
  1 <= total <= limit ∧ fragment_count total = Ok count ∧ index < count
  ∧ len = Z.min TRANSPORT_PAYLOAD_BYTES_MAX (total - index * TRANSPORT_PAYLOAD_BYTES_MAX).
Proof.
  unfold validate_fragment, bad_fragment. intros H. destruct (_ || _) eqn:E; [done|].
  destruct (fragment_count total) as [n|e]; [|done]. cbn [res_bind] in H.
  destruct (count =? n) eqn:E1; [|done]. cbn [negb] in H. destruct (count <=? index) eqn:E2; [done|].
  destruct (len =? _) eqn:E3; [|done]. breflect. subst. split_and!; try lia; done.
Qed.

Lemma splice_length start payload data : 0 <= start → start + zlen payload <= zlen data →
  zlen (splice start payload data) = zlen data.
Proof.
  intros H0 H1. unfold splice. rewrite !zlen_app. unfold zlen in *. rewrite length_take, length_drop. lia.
Qed.

(** A session operation that keeps the authority and the dispatcher. *)
Record stays (s s' : rpc_session) : Prop := {
  st_noise : rp_noise s' = rp_noise s;
  st_transfer : rp_transfer_id s' = rp_transfer_id s;
  st_dispatcher : rp_dispatcher s' = rp_dispatcher s;
  st_established : rp_established s' = rp_established s;
}.
Lemma stays_refl s : stays s s.
Proof. done. Qed.
Lemma stays_trans s1 s2 s3 : stays s1 s2 → stays s2 s3 → stays s1 s3.
Proof. intros [] []. split; congruence. Qed.
Lemma stays_buffers b s : stays s (with_buffers b s).
Proof. done. Qed.

(** The worker is called at most once, as the session's dispatcher, for a
    request the session's scopes and the routes allow. *)
Definition worker_call s w w' : Prop :=
  ∃ r d required q, rq_sequence r = rp_next_sequence s ∧ rp_dispatcher s = Some d
  ∧ required_scope (rq_method r) (rq_path r) = Ok required ∧ required ∈ granted_scopes s
  ∧ validate_route_query (rq_method r) (rq_path r) (rq_query r) = Ok tt
  ∧ validate_repository_import (rq_method r) (rq_path r) (rq_body r) = Ok tt
  ∧ validate_request (rq_method r) (rq_path r) (rq_body r) (rq_query r) = Ok q
  ∧ w' = (app_request (dp_user_id d) (rq_method r) (rq_path r) (rq_body r) q w).1.

Lemma worker_call_stays s s' w w' : stays s s' → rp_next_sequence s' = rp_next_sequence s →
  worker_call s' w w' → worker_call s w w'.
Proof.
  intros [Hn _ Hd _] Hs (r & d & sc & q & H1 & H2 & H3 & H4 & H5). exists r, d, sc, q.
  unfold granted_scopes in *. rewrite Hn, Hd, Hs in *. done.
Qed.

Lemma authorize_ok s r d : authorize s r = Ok (Some d) → ∃ required,
  rp_dispatcher s = Some d ∧ required_scope (rq_method r) (rq_path r) = Ok required
  ∧ required ∈ granted_scopes s ∧ validate_route_query (rq_method r) (rq_path r) (rq_query r) = Ok tt
  ∧ validate_repository_import (rq_method r) (rq_path r) (rq_body r) = Ok tt.
Proof.
  unfold authorize. intros H. destruct (required_scope _ _) as [sc|e]; [|done]. cbn [res_bind] in H.
  destruct (mem_str sc (granted_scopes s)) eqn:Em; [|done]. cbn [guard res_bind] in H. apply mem_str_spec in Em.
  destruct (at_path _ _); [by inv_ok|]. destruct (rp_dispatcher s) as [d'|]; [|done].
  destruct (validate_route_query _ _ _) as [[]|e]; [|done]. cbn [res_bind] in H.
  destruct (validate_repository_import _ _ _) as [[]|e]; [|done]. injection H as ->. by exists sc.
Qed.

Lemma dispatch_call s r w w' x : dispatch s r w = (w', x) → rq_sequence r = rp_next_sequence s →
  w' = w ∨ worker_call s w w'.
Proof.
  unfold dispatch. intros H Hr. destruct (authorize s r) as [[d|]|e] eqn:Ea; [|by left; injection H|by left; injection H].
  apply authorize_ok in Ea as (sc & Hd & Hs & Hin & Hq & Hi). unfold request in H.
  destruct (validate_request _ _ _ _) as [q|e] eqn:Ev; [|left; by injection H].
  destruct (app_request _ _ _ _ _ _) as [w1 resp] eqn:Eq. injection H as <- _. right.
  exists r, d, sc, q. split_and!; try done. by rewrite Eq.
Qed.

(** *** Dispatching *)

Lemma parse_dispatched_ok p n r : parse_dispatched p n = Ok r → parse_request p n = Ok r.
Proof. unfold parse_dispatched. intros H. by inv_ok. Qed.

Lemma dispatch_payload_spec data s w s' w' x : dispatch_payload data (s, w) = ((s', w'), x) →
  stays s s' ∧ rp_buffers s' = rp_buffers s ∧ (w' = w ∨ worker_call s w w')
  ∧ rp_next_sequence s' = rp_next_sequence s + (if is_ok x then 1 else 0).
Proof.
  unfold dispatch_payload. destruct (parse_dispatched _ _) as [r|e] eqn:Ep.
  2: { intros [= <- <- <-]. split_and!; [done|done|by left|cbn; lia]. }
  apply parse_dispatched_ok, parse_request_ok in Ep as (Hseq & _).
  destruct (dispatch s r w) as [w1 o] eqn:Ed. apply dispatch_call in Ed; [|done].
  destruct (res_bind o _) as [b|e]; intros [= <- <- <-]; split_and!; try done; cbn; lia.
Qed.

Lemma response_frames_spec response r force s s' x : response_frames response r force s = (s', x) →
  bf_request (rp_buffers s) = None → buffers_ok (rp_buffers s) →
  stays s s' ∧ rp_next_sequence s' = rp_next_sequence s ∧ buffers_ok (rp_buffers s').
Proof.
  unfold response_frames, begin_framed_response. intros H Hn Hb.
  destruct (RESPONSE_BYTES_MAX <? zlen response) eqn:El; [by injection H as <- _|].
  destruct (_ && _); [by injection H as <- _|]. destruct (negb (rq_push r)); [|by injection H as <- _].
  rewrite (proj2 (Z.leb_le _ _)) in H by lia. cbn [guard res_bind] in H.
  destruct (fragment_count _) as [n|e] eqn:En; [|by injection H as <- _].
  destruct (1 <? n) eqn:E1; injection H as <- _; [|done]. split_and!; [done|done|].
  split; unfold request_ok, response_ok; cbn; rewrite Hn; [done|]. split_and!; try done; lia.
Qed.

Lemma accept_pull_spec i c t p s s' x : accept_response_pull i c t p s = (s', x) → buffers_ok (rp_buffers s) →
  stays s s' ∧ rp_next_sequence s' = rp_next_sequence s ∧ buffers_ok (rp_buffers s').
Proof.
  unfold accept_response_pull. intros H Hb.
  destruct (bf_request (rp_buffers s)) eqn:Eq; [by injection H as <- _|].
  destruct (bf_response (rp_buffers s)) as [resp|] eqn:Er; [|by injection H as <- _].
  destruct (_ || _) eqn:E; [by injection H as <- _|]. breflect. injection H as <- _.
  destruct Hb as [_ Hb]. unfold response_ok in Hb. rewrite Er in Hb. destruct Hb as (_ & Hc & Hl & Hn).
  split_and!; [done|done|]. cbn [rp_buffers with_buffers]. destruct (Z.eqb_spec (bf_next_response (rp_buffers s) + 1) c).
  - split; unfold request_ok, response_ok; cbn; by rewrite ?Eq.
  - split; unfold request_ok, response_ok; cbn; rewrite Eq; [done|]. split_and!; try done; lia.
Qed.

(** What one plaintext frame does. *)
Record frame_effect s w s' w' : Prop := {
  fe_stays : stays s s';
  fe_buffers : buffers_ok (rp_buffers s');
  fe_call : w' = w ∨ worker_call s w w';
  fe_next : rp_next_sequence s <= rp_next_sequence s' <= rp_next_sequence s + 1;
}.

Lemma effect_same s w b : buffers_ok b → frame_effect s w (with_buffers b s) w.
Proof. intros Hb. split; [done|done|by left|cbn; lia]. Qed.

Lemma effect_refl s w : buffers_ok (rp_buffers s) → frame_effect s w s w.
Proof. intros Hb. split; [done|done|by left|lia]. Qed.

(** Dispatching a whole payload and framing its response. *)
Lemma effect_dispatch data force s w s' w' x b :
  (let '((s1, w1), dispatched) := dispatch_payload data (with_buffers b s, w) in
   match dispatched with
   | Raise e => ((s1, w1), Raise e)
   | Ok (response, r) => let '(s2, frames) := response_frames response r force s1 in ((s2, w1), frames)
   end) = ((s', w'), x) →
  bf_request b = None → buffers_ok b → frame_effect s w s' w'.
Proof.
  intros H Hn Hb. destruct (dispatch_payload data _) as [[s1 w1] d] eqn:Ed.
  apply dispatch_payload_spec in Ed as (Hs & Hbuf & Hc & Hq).
  assert (Hc' : w1 = w ∨ worker_call s w w1).
  { destruct Hc as [->|Hc]; [by left|right]. by eapply worker_call_stays. }
  destruct d as [[response r]|e].
  - destruct (response_frames response r force s1) as [s2 frames] eqn:Er. injection H as <- <- _.
    apply response_frames_spec in Er as (Hs2 & Hq2 & Hb2); [|by rewrite Hbuf|by rewrite Hbuf].
    split; [|done|done|cbn in *; lia].
    eapply stays_trans; [apply (stays_buffers b)|]. by eapply stays_trans.
  - injection H as <- <- _. split; [|by rewrite Hbuf|done|cbn in *; lia].
    eapply stays_trans; [apply (stays_buffers b)|exact Hs].
Qed.

Lemma with_same_request b data count next :
  bf_request b = Some data → bf_request_count b = count → bf_next_request b = next →
  with_request (Some data) count next b = b.
Proof. intros <- <- <-. by destruct b. Qed.

Lemma open_request_inv b i c t data n next : open_request b i c t = Ok (data, n, next) →
  (bf_request b = None ∧ i = 0 ∧ data = repeat 0 (Z.to_nat t) ∧ n = c ∧ next = 0)
  ∨ (bf_request b = Some data ∧ n = bf_request_count b ∧ next = bf_next_request b).
Proof.
  unfold open_request. destruct (bf_request b) as [d|]; [intros [= <- <- <-]; by right|].
  destruct (Z.eqb_spec i 0) as [->|]; [|done]. intros [= <- <- <-]. by left.
Qed.

Lemma effect_fragment i c t p s w s' w' x : accept_request_fragment i c t p (s, w) = ((s', w'), x) →
  buffers_ok (rp_buffers s) → frame_effect s w s' w'.
Proof.
  unfold accept_request_fragment. intros H Hb.
  destruct (bf_response (rp_buffers s)) as [resp|] eqn:Er.
  { rewrite bool_decide_eq_true_2 in H by by eexists. injection H as <- <- _. by apply effect_refl. }
  rewrite bool_decide_eq_false_2 in H by (intros [? ?]; done). cbn [negb guard res_bind] in H.
  destruct (validate_fragment _ _ _ _ _) as [[]|e] eqn:Ev; cbn [res_bind] in H.
  2: { injection H as <- <- _. by apply effect_refl. }
  apply validate_fragment_inv in Ev as (Ht & Hc & Hi & Hlen).
  destruct (open_request _ _ _ _) as [[[data n] next]|e] eqn:Eo; [|injection H as <- <- _; by apply effect_refl].
  assert (Hd : 1 <= zlen data ∧ zlen data <= REQUEST_BYTES_MAX ∧ fragment_count (zlen data) = Ok n ∧ 0 <= next < n
    ∧ ((negb (c =? n) || negb (t =? zlen data) || negb (i =? next)) = true →
       with_request (Some data) n next (rp_buffers s) = rp_buffers s)).
  { apply open_request_inv in Eo as [(Eq & -> & -> & -> & ->)|(Eq & -> & ->)].
    - assert (Hz : zlen (repeat 0 (Z.to_nat t)) = t) by (unfold zlen; rewrite repeat_length; lia).
      rewrite Hz, !Z.eqb_refl. split_and!; try lia; done.
    - destruct Hb as [Hb _]. unfold request_ok in Hb. rewrite Eq in Hb. destruct Hb as (_ & Hf & Hm & Hn).
      split_and!; try lia; try done; [by apply fragment_count_eq in Hf as [? _]|].
      intros _. by apply with_same_request. }
  destruct Hd as (Hd1 & Hd2 & Hd3 & Hd4 & Hd5). destruct (_ || _) eqn:E.
  { injection H as <- <- _. specialize (Hd5 eq_refl). rewrite Hd5. by apply effect_same. }
  breflect. subst c t next. destruct (i + 1 <? n) eqn:En.
  - injection H as <- <- _. apply (effect_same s w). pose proof M_pos.
    assert (Hz : zlen (splice (i * TRANSPORT_PAYLOAD_BYTES_MAX) p data) = zlen data) by (apply splice_length; nia).
    split; unfold request_ok, response_ok; cbn; rewrite Er; [|done]. rewrite Hz. split_and!; try done; lia.
  - eapply (effect_dispatch _ true s w s' w' x); [exact H|done|].
    split; unfold request_ok, response_ok; cbn; [done|by rewrite Er].
Qed.

Lemma effect_plaintext p s w s' w' x : handle_plaintext p (s, w) = ((s', w'), x) →
  buffers_ok (rp_buffers s) → frame_effect s w s' w'.
Proof.
  unfold handle_plaintext, handle_transport_frame. intros H Hb. destruct (starts_with TRANSPORT_MAGIC p).
  - destruct (zlen p <? _); [injection H as <- <- _; by apply effect_refl|].
    destruct (unpack p) as [[[[magic kind] i] c] t].
    destruct (negb _); [injection H as <- <- _; by apply effect_refl|].
    destruct (kind =? TRANSPORT_REQUEST); [by eapply effect_fragment|].
    destruct (kind =? TRANSPORT_PULL); [|injection H as <- <- _; by apply effect_refl].
    destruct (accept_response_pull _ _ _ _ _) as [s1 f] eqn:Ep. injection H as <- <- _.
    apply accept_pull_spec in Ep as (Hs & Hq & Hb'); [|done]. split; [done|done|by left|lia].
  - destruct (bool_decide _ || _) eqn:E; [injection H as <- <- _; by apply effect_refl|].
    apply orb_false_iff in E as [Eq _]. apply bool_decide_eq_false in Eq.
    assert (Hn : bf_request (rp_buffers s) = None) by (destruct (bf_request (rp_buffers s)); [by destruct Eq|done]).
    apply (effect_dispatch p false s w s' w' x (rp_buffers s)); [|done|done].
    replace (with_buffers (rp_buffers s) s) with s by by destruct s. exact H.
Qed.
(** *** The invariant *)

(** The wire identity of a session: what its Noise session was made for. *)
Record wire_identity := { id_runner : pystr; id_key : pystr; id_signing : pybytes }.
Definition identity_of (n : noise_session) : wire_identity :=
  {| id_runner := ns_runner_id n; id_key := ns_runner_public_key n; id_signing := ns_signing_public_key n |}.

(** A capability signed for that identity. *)
Definition signed (i : wire_identity) (c : VerifiedRunnerCapability) : Prop :=
  ∃ token now, verify_runner_capability token (id_signing i) (id_runner i) (id_key i) now = Ok (Some c).

Record rpc_ok (i : wire_identity) s : Prop := {
  ro_identity : identity_of (rp_noise s) = i;
  ro_buffers : buffers_ok (rp_buffers s);
  ro_sequence : 0 <= rp_next_sequence s;
  ro_signed : ∀ c, ns_capability (rp_noise s) = Some c → signed i c;
  ro_open : if rp_established s
            then ∃ c, ns_capability (rp_noise s) = Some c ∧ transfer_id c = rp_transfer_id s
              ∧ ∀ d, rp_dispatcher s = Some d → dp_user_id d = user_id c
            else rp_dispatcher s = None ∧ rp_buffers s = no_buffers ∧ rp_next_sequence s = 0;
}.

Lemma same_identity n n' : same_authority n n' → identity_of n' = identity_of n.
Proof. intros (H1 & H2 & H3 & _). unfold identity_of. congruence. Qed.

Lemma new_rpc_ok t n f s runner key signing : new_noise_session runner key signing = Ok n →
  new_rpc_session t n f = Ok s → rpc_ok (identity_of n) s.
Proof.
  intros Hn Hs. unfold new_rpc_session in Hs. inv_ok.
  assert (ns_capability n = None) as Hc by (unfold new_noise_session in Hn; by inv_ok).
  split; cbn; try done. by rewrite Hc.
Qed.

(** A step that keeps authority and dispatcher. *)
Lemma rpc_ok_stays i s s' : rpc_ok i s → same_authority (rp_noise s) (rp_noise s') →
  rp_transfer_id s' = rp_transfer_id s → rp_dispatcher s' = rp_dispatcher s →
  rp_established s' = rp_established s → buffers_ok (rp_buffers s') → rp_next_sequence s <= rp_next_sequence s' →
  (rp_established s = false → rp_buffers s' = no_buffers ∧ rp_next_sequence s' = 0) → rpc_ok i s'.
Proof.
  intros [] Hsame Ht Hd He Hb Hq Hu. pose proof (same_identity _ _ Hsame). destruct Hsame as (_ & _ & _ & Hc).
  split; [congruence|done|lia|by rewrite Hc|]. rewrite He, Hc, Ht, Hd. destruct (rp_established s); [done|].
  destruct Hu; [done|]. tauto.
Qed.

Lemma handshake_sequence m now fault s store s' store' r :
  rpc_accept_handshake m now fault (s, store) = ((s', store'), r) →
  rp_next_sequence s' = rp_next_sequence s ∧ rp_transfer_id s' = rp_transfer_id s.
Proof.
  unfold rpc_accept_handshake. intros H. destruct (accept_handshake _ _ _ _) as [[n st] resp].
  destruct (res_bind _ _) as [[d x]|e]; [by injection H as <- _ _|]. destruct (caught _ _); by injection H as <- _ _.
Qed.

Lemma handshake_ok i m now fault s store s' store' r : rpc_accept_handshake m now fault (s, store) = ((s', store'), r) →
  rpc_ok i s → rp_established s = false →
  rpc_ok i s' ∧ (∀ e, r = Raise e → caught e [TypeError; ValueError] = true →
                 rp_failed s' = true ∧ rp_buffers s' = no_buffers).
Proof.
  unfold rpc_accept_handshake. intros H Hok He. pose proof (ro_open _ _ Hok) as Ho. rewrite He in Ho.
  destruct Ho as (Hd & Hb & Hq). destruct (accept_handshake _ _ _ _) as [[n st] [resp|e]] eqn:Ea; cbn [res_bind] in H.
  - apply accept_handshake_ok in Ea as (c & tb & r' & Hc & _ & _ & _ & _ & Hau & Hn).
    apply authenticated_ok in Hau as [token Hv].
    assert (Hid : identity_of n = i) by (rewrite Hn; apply Hok).
    assert (Hsig : signed i c) by (exists token, now; destruct Hok as [<- _ _ _ _]; exact Hv).
    rewrite Hc in H. clear Hn Hv. unfold dispatcher_for in H.
    assert (Hx : ∀ b, rpc_ok i (if (b : bool) then fail_rpc (with_noise n s) else with_noise n s)).
    { intros b. destruct b; split; cbn; rewrite ?He, ?Hb; try done; try lia; intros c0; rewrite Hc; by intros [= <-]. }
    destruct (res_bind (res_bind _ _) _) as [[d' resp']|e] eqn:Ed.
    2: { destruct (caught e [TypeError; ValueError]) eqn:Ecau; injection H as <- <- <-.
         - split; [apply (Hx true)|intros; split; [done|exact Hb]].
         - split; [apply (Hx false)|intros e' [= <-]; congruence]. }
    injection H as <- <- <-. split; [|done]. split; cbn; try done; [apply Hok|apply Hok| |].
    { intros c0. rewrite Hc. by intros [= <-]. }
    exists c. inv_ok. breflect. cbn in *. split_and!; try done.
    destruct (rp_factory s) as [factory|]; inv_ok; breflect; intros d0 Hd0; congruence.
  - apply accept_handshake_raise in Ea as (H1 & H2 & H3 & _ & _ & _ & H4 & _).
    assert (Hsame : same_authority (rp_noise s) n) by done.
    assert (Hx : ∀ b, rpc_ok i (if (b : bool) then fail_rpc (with_noise n s) else with_noise n s)).
    { intros b. destruct b; eapply rpc_ok_stays; cbn; try done; apply Hok. }
    destruct (caught e [TypeError; ValueError]) eqn:Ecau; injection H as <- <- <-.
    + split; [apply (Hx true)|intros; split; [done|exact Hb]].
    + split; [apply (Hx false)|intros e' [= <-]; congruence].
Qed.

Lemma frame_body_ok i m s w s' w' r : frame_body m (s, w) = ((s', w'), r) → rpc_ok i s → rp_established s = true →
  rpc_ok i s' ∧ (rp_established s' = true ∧ rp_transfer_id s' = rp_transfer_id s) ∧ (w' = w ∨ worker_call s w w')
  ∧ rp_next_sequence s <= rp_next_sequence s' <= rp_next_sequence s + 1.
Proof.
  unfold frame_body. intros H Hok He. pose proof (decrypt_same m (rp_noise s)) as Hd.
  destruct (session_decrypt m (rp_noise s)) as [n p]. cbn [fst] in Hd.
  assert (Hn : rpc_ok i (with_noise n s)).
  { eapply rpc_ok_stays; cbn; try done; try lia; [apply Hok|congruence]. }
  assert (Hcall : ∀ v, worker_call (with_noise n s) w v → worker_call s w v).
  { intros v (q & d & sc & qs & H1 & H2 & H3 & H4 & H5). exists q, d, sc, qs. unfold granted_scopes in *.
    cbn in *. destruct Hd as (_ & _ & _ & Hc). by rewrite Hc in H4. }
  destruct p as [p|e]; [|injection H as <- <- _; split_and!; try done; [by left|cbn; lia..]].
  destruct (handle_plaintext p _) as [[s1 w1] rs] eqn:Ep.
  apply effect_plaintext in Ep as [[Hst1 Hst2 Hst3 Hst4] Hb Hc Hq]; [|apply Hn].
  change (rp_next_sequence (with_noise n s)) with (rp_next_sequence s) in Hq.
  assert (Hw : w1 = w ∨ worker_call s w w1) by (destruct Hc; auto).
  assert (H1 : rpc_ok i s1).
  { apply (rpc_ok_stays i (with_noise n s)); try done; [by rewrite Hst1|cbn; lia|]. cbn. congruence. }
  assert (He1 : rp_established s1 = true ∧ rp_transfer_id s1 = rp_transfer_id s) by (by rewrite Hst4, Hst2).
  destruct rs as [rs|e]; [|injection H as <- <- _; split_and!; try apply He1; try lia; done].
  pose proof (encrypt_all_same rs (rp_noise s1)) as Hs. destruct (encrypt_all rs _) as [n2 frames].
  injection H as <- <- _. split_and!; try apply He1; try done; [|cbn in *; lia..].
  apply (rpc_ok_stays i s1); cbn; try done; try apply H1; try lia. destruct He1. congruence.
Qed.

Lemma rpc_ok_failed i s : rpc_ok i s → rp_established s = true → rpc_ok i (with_buffers no_buffers (fail_rpc s)).
Proof. intros H He. eapply rpc_ok_stays; cbn; try done. congruence. Qed.

(** One frame keeps the invariant, calls the worker at most once, and an
    exception that fails the session empties its buffers. *)
Lemma handle_frame_ok i m now fault wd wd' r : handle_frame m now fault wd = (wd', r) → rpc_ok i (wd_session wd) →
  rpc_ok i (wd_session wd') ∧ rp_transfer_id (wd_session wd') = rp_transfer_id (wd_session wd)
  ∧ (wd_app wd' = wd_app wd ∨ worker_call (wd_session wd) (wd_app wd) (wd_app wd'))
  ∧ rp_next_sequence (wd_session wd) <= rp_next_sequence (wd_session wd') <= rp_next_sequence (wd_session wd) + 1
  ∧ (∀ e, r = Raise e → caught e [TypeError; ValueError] = true → 0 <= now → rp_failed (wd_session wd) = false →
     rp_failed (wd_session wd') = true ∧ rp_buffers (wd_session wd') = no_buffers).
Proof.
  unfold handle_frame. intros H Hok. destruct (rp_failed (wd_session wd)) eqn:Hf.
  { injection H as <- <-. split_and!; try done; try lia. by left. }
  destruct (now <? 0) eqn:Hnow. { injection H as <- <-. breflect. split_and!; try done; try lia. by left. }
  destruct (rp_established (wd_session wd)) eqn:He; cbn [negb] in H.
  - destruct (frame_body m _) as [[s1 w1] rs] eqn:Eb.
    apply (frame_body_ok i) in Eb as (H1 & [He1 Ht1] & Hw & Hq); try done.
    destruct rs as [rs|e]; [injection H as <- <-; cbn [wd_session wd_app]; split_and!; try done; lia|].
    destruct (caught e [TypeError; ValueError]) eqn:Ec; injection H as <- <-; cbn [wd_session wd_app].
    + split_and!; try done; [by apply rpc_ok_failed|cbn; lia..].
    + split_and!; try done; try lia. intros e' [= <-]. congruence.
  - destruct (rpc_accept_handshake _ _ _ _) as [[s1 st] resp] eqn:Ea.
    pose proof (ro_open _ _ Hok) as Ho. rewrite He in Ho. destruct Ho as (_ & _ & Hq).
    pose proof (handshake_sequence _ _ _ _ _ _ _ _ Ea) as [Hq1 Ht1].
    apply (handshake_ok i) in Ea as [H1 Hx]; try done. injection H as <- <-. cbn [wd_session wd_app].
    split_and!; try done; try lia; [by left|]. intros e Hr Hc _ _. destruct resp; [done|]. injection Hr as ->. by eapply Hx.
Qed.

(** *** Reachable sessions *)

(** A relayed transfer: a new session, then frames in any order; between two
    frames anything may happen to the store and to the worker. *)
Inductive rpc_reachable (i : wire_identity) (transfer : pystr) : rpc_world → Prop :=
  | rpc_start runner key signing n f s store w :
      new_noise_session runner key signing = Ok n → identity_of n = i →
      new_rpc_session transfer n f = Ok s →
      rpc_reachable i transfer {| wd_session := s; wd_store := store; wd_app := w |}
  | rpc_frame wd m now fault :
      rpc_reachable i transfer wd → rpc_reachable i transfer (handle_frame m now fault wd).1
  | rpc_interference wd store w :
      rpc_reachable i transfer wd →
      rpc_reachable i transfer {| wd_session := wd_session wd; wd_store := store; wd_app := w |}.

Lemma rpc_reachable_ok i t wd : rpc_reachable i t wd → rpc_ok i (wd_session wd) ∧ rp_transfer_id (wd_session wd) = t.
Proof.
  induction 1 as [runner key signing n f s store w Hn <- Hs|wd m now fault _ [IH <-]|wd store w _ IH]; [| |done].
  - split; [by eapply new_rpc_ok|]. unfold new_rpc_session in Hs. by inv_ok.
  - destruct (handle_frame m now fault wd) as [wd' r] eqn:E. by apply (handle_frame_ok i) in E as (H & Ht & _).
Qed.

(** C21. No frame of a relayed transfer calls the worker beyond its signed
    authority: in every reachable session a frame advances the sequence by at
    most one and calls the worker at most once, as the user a capability signed
    for this runner and this transfer names, for the next sequence number,
    within the scopes the capability grants and after every check of the route,
    the import and the request. *)
Theorem rpc_calls_authorized i t wd m now fault wd' r :
  rpc_reachable i t wd → handle_frame m now fault wd = (wd', r) →
  0 <= rp_next_sequence (wd_session wd) <= rp_next_sequence (wd_session wd')
  ∧ rp_next_sequence (wd_session wd') <= rp_next_sequence (wd_session wd) + 1
  ∧ (wd_app wd' = wd_app wd
     ∨ ∃ c q required arguments, signed i c ∧ transfer_id c = t
       ∧ rq_sequence q = rp_next_sequence (wd_session wd)
       ∧ required_scope (rq_method q) (rq_path q) = Ok required ∧ required ∈ scopes c
       ∧ validate_route_query (rq_method q) (rq_path q) (rq_query q) = Ok tt
       ∧ validate_repository_import (rq_method q) (rq_path q) (rq_body q) = Ok tt
       ∧ validate_request (rq_method q) (rq_path q) (rq_body q) (rq_query q) = Ok arguments
       ∧ wd_app wd' = (app_request (user_id c) (rq_method q) (rq_path q) (rq_body q) arguments (wd_app wd)).1).
Proof.
  intros Hr H. apply rpc_reachable_ok in Hr as [Hok <-]. apply (handle_frame_ok i) in H as (_ & _ & Hc & Hq & _); [|done].
  destruct Hok as [_ _ Hs Hsig Ho]. split_and!; try lia.
  destruct Hc as [Hc|(q & d & sc & arguments & Hq1 & Hd & Hsc & Hin & Hrest)]; [by left|right].
  unfold granted_scopes in Hin. destruct (rp_established (wd_session wd)).
  - destruct Ho as (c & Hcap & Ht & Hu). rewrite Hcap in Hin. rewrite (Hu d Hd) in Hrest.
    exists c, q, sc, arguments. split_and!; try done; auto; apply Hrest.
  - destruct Ho as (Hnone & _). congruence.
Qed.

(** The buffers of a reachable session are bounded: it holds a request
    of at most 2 MiB or a response of at most 10 MiB, never both, with at least
    one fragment still due, and none at all before the handshake. *)
Theorem rpc_buffers_bounded i t wd : rpc_reachable i t wd →
  let b := rp_buffers (wd_session wd) in
  (bf_request b = None ∨ bf_response b = None)
  ∧ (∀ data, bf_request b = Some data →
      zlen data <= REQUEST_BYTES_MAX ∧ 1 <= bf_next_request b < bf_request_count b
      ∧ fragment_count (zlen data) = Ok (bf_request_count b))
  ∧ (∀ data, bf_response b = Some data →
      zlen data <= RESPONSE_BYTES_MAX ∧ 1 <= bf_next_response b < bf_response_count b
      ∧ fragment_count (zlen data) = Ok (bf_response_count b))
  ∧ (rp_established (wd_session wd) = false → b = no_buffers).
Proof.
  intros Hr b. apply rpc_reachable_ok in Hr as [[_ [Hq Hp] _ _ Ho] _]. subst b.
  unfold request_ok, response_ok in *. split_and!.
  - destruct (bf_request _); [|by left]. right. apply Hq.
  - intros data E. rewrite E in Hq. tauto.
  - intros data E. rewrite E in Hp. tauto.
  - intros E. rewrite E in Ho. tauto.
Qed.

(** A failure is final: when a frame of a reachable session raises a
    [ValueError] or [TypeError], the session is failed, its buffers are empty,
    and every later frame is refused with a [RuntimeError] and changes
    nothing. *)
Theorem rpc_failure_final i t wd m now fault wd' e : rpc_reachable i t wd →
  rp_failed (wd_session wd) = false → 0 <= now →
  handle_frame m now fault wd = (wd', Raise e) → caught e [TypeError; ValueError] = true →
  rp_failed (wd_session wd') = true ∧ rp_buffers (wd_session wd') = no_buffers
  ∧ ∀ m' now' fault' store app,
      let later := {| wd_session := wd_session wd'; wd_store := store; wd_app := app |} in
      handle_frame m' now' fault' later
      = (later, raise RuntimeError "Runner RPC session failed and cannot be reused").
Proof.
  intros Hr Hf Hn H Hc. apply rpc_reachable_ok in Hr as [Hok _].
  apply (handle_frame_ok i) in H as (_ & _ & _ & _ & Hx); [|done].
  destruct (Hx e eq_refl Hc Hn Hf) as [Hf' Hb]. split_and!; try done.
  intros. unfold handle_frame. subst later. cbn [wd_session]. by rewrite Hf'.
Qed.
End Safety.

(** ** The hypotheses can hold *)

(** A worker that records its calls and answers an empty object. *)
Definition toy_app : WorkerApp := {|
  app_world := list (pystr * pystr * pystr);
  app_request := fun user method path _ _ log =>
    (log ++ [(user, method, path)],
     Ok {| hr_status_code := 200; hr_content := u"{}"; hr_content_type := Some (u"application/json") |}) |}.

Definition toy_new_rpc : res (@rpc_session toy_noise) :=
  let! n := toy_session in
  new_rpc_session (transfer_id toy_claims) n (Some (fun user => Ok {| dp_user_id := user |})).
Definition toy_wd : res (@rpc_world toy_noise toy_app) :=
  let! s := toy_new_rpc in
  Ok (@Build_rpc_world toy_noise toy_app s [] []).
Abbreviation toy_frame m :=
  (@handle_frame toy_ed25519 toy_ed25519_raw toy_x25519 toy_float toy_noise toy_unicode toy_datetime toy_url toy_app
    m 1000 NoFault).
Definition toy_terminals : pystr := u"/api/workspaces/" ++ toy_rid ++ u"/terminals".
(** A request of the transfer, as the toy cipher carries it. *)
Definition toy_message (sequence : Z) (method : pystr) : pybytes :=
  toy_request_bytes sequence method toy_terminals [] ++ repeat 1 16.
Definition toy_identity : wire_identity :=
  {| id_runner := u"runner-1"; id_key := toy_runner_key; id_signing := repeat 5 32 |}.
Abbreviation toy_reachable := (@rpc_reachable toy_ed25519 toy_ed25519_raw toy_x25519 toy_float toy_noise
  toy_unicode toy_datetime toy_url toy_app toy_identity (transfer_id toy_claims)).

(** The world after the handshake. *)
Definition toy_established : res (@rpc_world toy_noise toy_app) := let! wd := toy_wd in Ok (toy_frame toy_hello wd).1.

Lemma toy_start wd : toy_wd = Ok wd → toy_reachable wd.
Proof.
  unfold toy_wd. destruct toy_new_rpc as [s|e] eqn:E; [|discriminate]. cbn [res_bind]. intros [= <-].
  unfold toy_new_rpc in E. destruct toy_session as [n|e] eqn:En; [|discriminate]. cbn [res_bind] in E.
  eapply rpc_start; [exact En| |exact E]. clear E. unfold toy_session, new_noise_session in En. inv_ok.
  vm_compute. reflexivity.
Qed.

Lemma toy_reached wd : toy_established = Ok wd → toy_reachable wd.
Proof.
  unfold toy_established. destruct toy_wd as [wd0|e] eqn:E; [|discriminate]. cbn [res_bind]. intros [= <-].
  apply rpc_frame. by apply toy_start.
Qed.

(** The two frames the witnesses send: a request in scope and one whose
    sequence number is wrong. *)
Definition toy_sent (m : pybytes) : res (@rpc_world toy_noise toy_app * res (list pybytes)) :=
  let! wd := toy_established in Ok (toy_frame m wd).
Definition toy_log (m : pybytes) : res (list (pystr * pystr * pystr)) := let! p := toy_sent m in Ok (wd_app p.1).
Definition toy_failed (m : pybytes) : bool :=
  match toy_established, toy_sent m with
  | Ok wd, Ok (_, Raise e) => negb (rp_failed (wd_session wd)) && caught e [TypeError; ValueError]
  | _, _ => false
  end.
Lemma toy_log_eq : toy_log (toy_message 0 (u"POST")) = Ok [(u"user-1", u"POST", toy_terminals)].
Proof. vm_compute. reflexivity. Qed.
Lemma toy_failed_eq : toy_failed (toy_message 7 (u"POST")) = true.
Proof. vm_compute. reflexivity. Qed.

Lemma rpc_calls_authorized_witness : ∃ wd wd' r,
  toy_established = Ok wd ∧ toy_frame (toy_message 0 (u"POST")) wd = (wd', r)
  ∧ Ok (wd_app wd') = toy_log (toy_message 0 (u"POST"))
  ∧ rp_next_sequence (wd_session wd') <= rp_next_sequence (wd_session wd) + 1.
Proof.
  generalize (toy_message 0 (u"POST")). intros m. unfold toy_log, toy_sent.
  destruct toy_established as [wd|e] eqn:E; [|exfalso; revert E; vm_compute; discriminate].
  cbn [res_bind]. destruct (toy_frame m wd) as [wd' r] eqn:Ef. exists wd, wd', r.
  split; [reflexivity|]. split; [exact Ef|]. split; [reflexivity|].
  apply (rpc_calls_authorized (ED := toy_ed25519) (RAW := toy_ed25519_raw) (X := toy_x25519) (FL := toy_float)
    (N := toy_noise) (UD := toy_unicode) (DT := toy_datetime) (URL := toy_url) (A := toy_app)
    toy_identity (transfer_id toy_claims) wd m 1000 NoFault wd' r);
    [by apply toy_reached|exact Ef].
Defined.

Lemma rpc_buffers_bounded_witness : ∃ wd, toy_established = Ok wd
  ∧ (bf_request (rp_buffers (wd_session wd)) = None ∨ bf_response (rp_buffers (wd_session wd)) = None).
Proof.
  destruct toy_established as [wd|e] eqn:E; [|exfalso; revert E; vm_compute; discriminate]. exists wd. split; [reflexivity|].
  apply (rpc_buffers_bounded (ED := toy_ed25519) (RAW := toy_ed25519_raw) (X := toy_x25519) (FL := toy_float)
    (N := toy_noise) (UD := toy_unicode) (DT := toy_datetime) (URL := toy_url) (A := toy_app)
    toy_identity (transfer_id toy_claims) wd). by apply toy_reached.
Defined.

Lemma rpc_failure_final_witness : ∃ wd wd' e, toy_established = Ok wd
  ∧ toy_frame (toy_message 7 (u"POST")) wd = (wd', Raise e) ∧ rp_failed (wd_session wd') = true.
Proof.
  pose proof toy_failed_eq as Ha. revert Ha. generalize (toy_message 7 (u"POST")). intros m. unfold toy_failed, toy_sent.
  destruct toy_established as [wd|e] eqn:E; [|discriminate]. cbn [res_bind].
  destruct (toy_frame m wd) as [wd' [l|e]] eqn:Ef; [discriminate|]. intros Ha.
  apply andb_prop in Ha as [Hf Hc]. apply negb_true_iff in Hf. exists wd, wd', e.
  split; [reflexivity|]. split; [exact Ef|].
  apply (rpc_failure_final (ED := toy_ed25519) (RAW := toy_ed25519_raw) (X := toy_x25519) (FL := toy_float)
    (N := toy_noise) (UD := toy_unicode) (DT := toy_datetime) (URL := toy_url) (A := toy_app)
    toy_identity (transfer_id toy_claims) wd m 1000 NoFault wd' e);
    [by apply toy_reached|exact Hf|discriminate|exact Ef|exact Hc].
Defined.

Definition toy_request : pybytes := toy_request_bytes 0 (u"POST") toy_terminals [].
Definition toy_response : pybytes := dumps true true (JObj
  [(u"body", JObj []); (u"request_id", JStr (uuid_str (repeat 66 16))); (u"sequence", JInt 0);
   (u"status", JInt 200); (u"type", JStr (u"response")); (u"v", JInt 2)]).
Definition toy_direct : res (buffers * list (pystr * pystr * pystr) * res pybytes) :=
  let! wd := toy_established in
  let '((_, log), x) := @dispatch_payload toy_float toy_noise toy_unicode toy_datetime toy_url toy_app
                          toy_request (wd_session wd, []) in
  Ok (rp_buffers (wd_session wd), log, let! p := x in Ok p.1).
Lemma toy_direct_eq :
  toy_direct = Ok (no_buffers, [(u"user-1", u"POST", toy_terminals)], Ok toy_response)
  ∧ zlen toy_response <= RESPONSE_BYTES_MAX ∧ 1 <= zlen toy_request <= REQUEST_BYTES_MAX.
Proof. split_and!; vm_compute; try discriminate. reflexivity. Qed.

Lemma fragmented_exchange_witness : ∃ wd s', toy_established = Ok wd ∧
  @exchange toy_float toy_noise toy_unicode toy_datetime toy_url toy_app toy_request (wd_session wd, [])
  = ((s', [(u"user-1", u"POST", toy_terminals)]), Ok toy_response).
Proof.
  destruct toy_direct_eq as (Hd & Hl & Hr). unfold toy_direct in Hd.
  destruct toy_established as [wd|e] eqn:E; [|discriminate Hd]. cbn [res_bind] in Hd.
  pose proof (fragmented_exchange (FL := toy_float)
    (N := toy_noise) (UD := toy_unicode) (DT := toy_datetime) (URL := toy_url) (A := toy_app)
    (wd_session wd) [] toy_request) as H.
  destruct (dispatch_payload toy_request _) as [[s' log] x]. exists wd, s'. split; [reflexivity|].
  assert (log = [(u"user-1", u"POST", toy_terminals)]) as -> by congruence.
  assert (Hx : (let! p := x in Ok p.1) = Ok toy_response) by congruence.
  refine (eq_trans (H _ Hr) _); [congruence|]. destruct x as [p|e]; [|discriminate Hx]. cbn [res_bind] in *.
  injection Hx as ->. rewrite (proj2 (Z.leb_le _ _) Hl). reflexivity.
Defined.
