(* ===== verification/RunnerRelay.v ===== *)
(** * The relay between browsers and runners

    Models [services/runner_relay.py]: the grants by which the control plane
    admits a browser to a runner once, and [RunnerRelayBroker], which routes
    ciphertext between one outbound socket of every runner and its clients.

    A method of the broker is a program: critical sections under the broker's
    lock, none of which awaits, and awaits in between, each of which may raise
    any exception. A machine interleaves the programs of all calls at their
    awaits. A send under [send_lock] is one await: the lock keeps the frames of
    two sends apart, and in the model a send is not divided. *)

From S2P Require Import Prelude Text Crypto RunnerCapabilities RunnerNoise.

Definition RELAY_FRAME_BYTES_MAX : Z := 65535.
Definition RELAY_QUEUE_FRAMES_MAX : Z := 16.
Definition RUNNER_SESSIONS_MAX : Z := 32.
Definition RETIRED_TRANSFERS_MAX : Z := 128.
Definition RETIRED_TRANSFER_TTL_SECONDS : Z := 300.
Definition RUNNER_PREFIX_LENGTH : Z := 16.
Definition CLOSE_ALREADY_SENT_ERROR : string :=
  let quote := Ascii.ascii_of_nat 34 in
  String.append "Cannot call " (String quote (String.append "send"
    (String quote " once a close message has been sent."))).

(** [uuid.UUID(s).bytes] for canonical text. *)
Definition hex_digit_value (c : Z) : Z := if c <? 97 then c - 48 else c - 87.
Fixpoint unhex (s : pystr) : pybytes :=
  match s with
  | a :: b :: r => hex_digit_value a * 16 + hex_digit_value b :: unhex r
  | _ => []
  end.
Definition uuid_bytes (s : pystr) : pybytes := unhex (uuid_groups s).

(** [_require_transfer_id]; a value that is not a UUID at all raises
    [ValueError] with another message. *)
Definition require_transfer_id (s : pystr) : res unit :=
  check! guard (negb (bool_decide (s = []))) ValueError "transfer_id must not be empty" in
  guard (canonical_uuid s) ValueError "transfer_id must be canonical".

(** ** Grants *)

Record RunnerTransferGrant := {
  gr_transfer : pystr;
  gr_runner : pystr;
  gr_expires : Z;
  gr_max_bytes : Z;
}.

(** A row of [runner_transfer_grants], and what a claim reads of one of
    [user_runners]. *)
Record grant_row := {
  gw_transfer : pystr;
  gw_user : pystr;
  gw_runner : pystr;
  gw_hash : pystr;
  gw_expires : Z;
  gw_max_bytes : Z;
  gw_claimed : option Z;
}.
Record runner_row := { rr_id : pystr; rr_revoked : bool; rr_has_token : bool }.

(** [_capability_hash] *)
Definition capability_hash {SHA : Sha256} (capability : pystr) : res pystr :=
  check! guard (negb (bool_decide (capability = []))) ValueError "capability must not be empty" in
  check! guard (zlen capability <=? 8192) ValueError "capability is too large" in
  let! b := ascii_encode capability in
  Ok (hexdigest (sha256 b)).

(** The statements of [store_runner_transfer_grant], with the constraints on
    the new row; the user and the runner of a capability are rows of their
    tables. *)
Definition insert_grant (g : grant_row) (rows : list grant_row) : res (list grant_row) :=
  check! guard (negb (existsb (fun r => bool_decide (gw_transfer r = gw_transfer g)) rows))
    IntegrityError "UNIQUE constraint failed" in
  check! guard (negb (existsb (fun r => bool_decide (gw_hash r = gw_hash g)) rows))
    IntegrityError "UNIQUE constraint failed" in
  Ok (rows ++ [g]).

Definition store_runner_transfer_grant {SHA : Sha256} (capability : pystr) (c : VerifiedRunnerCapability)
    (fault : store_fault) : st (list grant_row) unit := fun rows =>
  match (let! h := capability_hash capability in
         insert_grant {| gw_transfer := transfer_id c; gw_user := user_id c; gw_runner := runner_id c;
                         gw_hash := h; gw_expires := expires_at c;
                         gw_max_bytes := max_session_bytes c; gw_claimed := None |}
           (List.filter (fun r => negb (gw_expires r <=? issued_at c)) rows)) with
  | Raise e => (rows, Raise e)
  | Ok rows' =>
      match fault with
      | NoFault => (rows', Ok tt)
      | FailBefore => (rows, raise SqliteError "disk I/O error")
      | FailCommit durable => (if durable then rows' else rows, raise SqliteError "disk I/O error")
      end
  end.

Definition find_grant (t : pystr) (rows : list grant_row) : option grant_row :=
  List.find (fun r => bool_decide (gw_transfer r = t)) rows.
Definition find_runner (r : pystr) (runners : list runner_row) : option runner_row :=
  List.find (fun x => bool_decide (rr_id x = r)) runners.

(** The row that the join of a claim selects. *)
Definition select_grant (t : pystr) (runners : list runner_row) (rows : list grant_row) :
    option (grant_row * runner_row) :=
  match find_grant t rows with
  | None => None
  | Some g => match find_runner (gw_runner g) runners with
              | None => None
              | Some r => Some (g, r)
              end
  end.

Definition check_grant (h : pystr) (now : Z) (x : option (grant_row * runner_row)) : res grant_row :=
  match x with
  | None => raise RunnerRelayAuthorizationError "Runner relay grant was not found"
  | Some (g, r) =>
      check! guard (negb (gw_expires g <=? now)) RunnerRelayAuthorizationError
        "Runner relay grant has expired" in
      check! guard (negb (bool_decide (is_Some (gw_claimed g)))) RunnerRelayAuthorizationError
        "Runner relay grant was already claimed" in
      check! guard (negb (rr_revoked r) && rr_has_token r) RunnerRelayAuthorizationError
        "Runner relay grant was revoked" in
      check! guard (bool_decide (gw_hash g = h)) RunnerRelayAuthorizationError
        "Runner relay capability does not match" in
      Ok g
  end.

(** [UPDATE ... SET claimed_at = ? WHERE transfer_id = ? AND claimed_at IS NULL]
    and its row count. *)
Definition claimable (t : pystr) (g : grant_row) : bool :=
  bool_decide (gw_transfer g = t) && negb (bool_decide (is_Some (gw_claimed g))).
Definition set_claimed (t : pystr) (now : Z) (g : grant_row) : grant_row :=
  if claimable t g
  then {| gw_transfer := gw_transfer g; gw_user := gw_user g; gw_runner := gw_runner g;
          gw_hash := gw_hash g; gw_expires := gw_expires g; gw_max_bytes := gw_max_bytes g;
          gw_claimed := Some now |}
  else g.

(** One transaction; the rows are read and written under [BEGIN IMMEDIATE]. *)
Definition claim_runner_transfer_grant {SHA : Sha256} (t capability : pystr) (now : Z)
    (runners : list runner_row) (fault : store_fault) : st (list grant_row) RunnerTransferGrant := fun rows =>
  match (check! require_transfer_id t in
         let! h := capability_hash capability in
         check! guard (0 <=? now) ValueError "current_time must be a non-negative integer" in
         check! guard (match fault with FailBefore => false | _ => true end) SqliteError "disk I/O error" in
         let! g := check_grant h now (select_grant t runners rows) in
         check! guard (count (claimable t) rows =? 1) RunnerRelayAuthorizationError
           "Runner relay grant was already claimed" in
         Ok g) with
  | Raise e => (rows, Raise e)
  | Ok g =>
      let claimed := map (set_claimed t now) rows in
      match fault with
      | FailCommit durable => (if durable then claimed else rows, raise SqliteError "disk I/O error")
      | _ => (claimed, Ok {| gr_transfer := t; gr_runner := gw_runner g; gr_expires := gw_expires g;
                             gr_max_bytes := gw_max_bytes g |})
      end
  end.

(** ** Programs *)

(** A socket of a runner or of a client: the two endpoints accept different
    sockets. *)
Inductive socket := RunnerSocket (w : nat) | ClientSocket (w : nat).
#[export] Instance socket_eq_dec : EqDecision socket.
Proof. solve_decision. Defined.

(** ** The broker's state *)

(** [_ClientConnection]; clients are objects on a heap, for the sender of a
    client keeps its queue when the client is detached. *)
Record client := {
  cn_ws : nat;
  cn_grant : RunnerTransferGrant;
  cn_queue : list pybytes;
  cn_bytes : Z;
}.

(** [_RunnerConnection] with its identity; [_RunnerMaintenance] with the
    future of its acknowledgement, which is its own. *)
Record connection := {
  rn_id : nat;
  rn_ws : nat;
  rn_ready : bool;
  rn_sessions : gset pystr;
  rn_retired : list (pystr * Z);
}.
Record maintenance := { mt_job : pystr; mt_ack : nat }.

(** What the broker does, in order: a runner's registration, the ciphertext
    accepted from a runner for a client or from a client for its runner, what
    a sender takes from a queue, and what is sent on sockets. *)
Inductive event :=
  | Registered (runner : pystr) (w : nat)
  | Queued (runner : pystr) (c : nat) (b : pybytes)
  | Accepted (c : nat) (b : pybytes)
  | Taken (c : nat) (b : pybytes)
  | SentText (s : socket) (m : pystr)
  | SentBytes (s : socket) (b : pybytes)
  | Closed (s : socket) (code : Z) (reason : pystr).

Record broker := {
  bk_runners : gmap pystr connection;
  bk_maintenance : gmap pystr maintenance;
  bk_clients : gmap pystr nat;
  bk_objects : list client;
  bk_connections : nat;
  bk_acks : list bool;
  bk_clock : nat;
  bk_log : list event;
}.

Definition empty_broker : broker := {|
  bk_runners := ∅; bk_maintenance := ∅; bk_clients := ∅; bk_objects := []; bk_connections := 0;
  bk_acks := []; bk_clock := 0; bk_log := [] |}.

Definition with_runners (x : gmap pystr connection) (s : broker) : broker := {|
  bk_runners := x; bk_maintenance := bk_maintenance s; bk_clients := bk_clients s;
  bk_objects := bk_objects s; bk_connections := bk_connections s; bk_acks := bk_acks s;
  bk_clock := bk_clock s; bk_log := bk_log s |}.
Definition with_maintenance (x : gmap pystr maintenance) (s : broker) : broker := {|
  bk_runners := bk_runners s; bk_maintenance := x; bk_clients := bk_clients s;
  bk_objects := bk_objects s; bk_connections := bk_connections s; bk_acks := bk_acks s;
  bk_clock := bk_clock s; bk_log := bk_log s |}.
Definition with_clients (x : gmap pystr nat) (o : list client) (s : broker) : broker := {|
  bk_runners := bk_runners s; bk_maintenance := bk_maintenance s; bk_clients := x;
  bk_objects := o; bk_connections := bk_connections s; bk_acks := bk_acks s;
  bk_clock := bk_clock s; bk_log := bk_log s |}.
Definition with_acks (x : list bool) (s : broker) : broker := {|
  bk_runners := bk_runners s; bk_maintenance := bk_maintenance s; bk_clients := bk_clients s;
  bk_objects := bk_objects s; bk_connections := bk_connections s; bk_acks := x;
  bk_clock := bk_clock s; bk_log := bk_log s |}.
Definition tick (n : nat) (s : broker) : broker := {|
  bk_runners := bk_runners s; bk_maintenance := bk_maintenance s; bk_clients := bk_clients s;
  bk_objects := bk_objects s; bk_connections := bk_connections s; bk_acks := bk_acks s;
  bk_clock := bk_clock s + n; bk_log := bk_log s |}.
Definition new_connection (s : broker) : broker := {|
  bk_runners := bk_runners s; bk_maintenance := bk_maintenance s; bk_clients := bk_clients s;
  bk_objects := bk_objects s; bk_connections := S (bk_connections s); bk_acks := bk_acks s;
  bk_clock := bk_clock s; bk_log := bk_log s |}.
Definition note (e : event) (s : broker) : broker := {|
  bk_runners := bk_runners s; bk_maintenance := bk_maintenance s; bk_clients := bk_clients s;
  bk_objects := bk_objects s; bk_connections := bk_connections s; bk_acks := bk_acks s;
  bk_clock := bk_clock s; bk_log := bk_log s ++ [e] |}.

Definition with_sessions (x : gset pystr) (retired : list (pystr * Z)) (r : connection) : connection := {|
  rn_id := rn_id r; rn_ws := rn_ws r; rn_ready := rn_ready r; rn_sessions := x; rn_retired := retired |}.
Definition with_queue (q : list pybytes) (n : Z) (c : client) : client := {|
  cn_ws := cn_ws c; cn_grant := cn_grant c; cn_queue := q; cn_bytes := n |}.

Definition update_object (i : nat) (f : client → client) (s : broker) : broker :=
  with_clients (bk_clients s) (alter f i (bk_objects s)) s.
Definition put_runner (rid : pystr) (r : connection) (s : broker) : broker :=
  with_runners (<[rid := r]> (bk_runners s)) s.

(** An await: a send or a close on a socket, [asyncio.wait_for] of an
    acknowledgement, or [queue.get()] of a client. *)
Inductive await :=
  | SendText (s : socket) (m : pystr)
  | SendBytes (s : socket) (b : pybytes)
  | CloseSocket (s : socket) (code : Z) (reason : pystr)
  | WaitAck (f : nat)
  | GetFrame (c : nat).

(** A method returns nothing; [Ok true] is for a loop that goes round again. *)
Inductive prog :=
  | Done (r : res bool)
  | Locked {X : Type} (m : st broker X) (k : res X → prog)
  | Await (a : await) (k : res pybytes → prog).

Fixpoint prog_bind (p : prog) (k : res bool → prog) : prog :=
  match p with
  | Done r => k r
  | Locked m f => Locked m (fun x => prog_bind (f x) k)
  | Await a f => Await a (fun x => prog_bind (f x) k)
  end.

Definition skip : prog := Done (Ok false).
Definition lift {X} (r : res X) (k : X → prog) : prog :=
  match r with Ok x => k x | Raise e => Done (Raise e) end.
Definition locked {X} (m : st broker X) (k : X → prog) : prog := Locked m (fun r => lift r k).
Definition seq (p q : prog) : prog := prog_bind p (fun r => lift r (fun _ => q)).
(** [try: p except BaseException as e: h; raise], then [q] *)
Definition on_error (p h q : prog) : prog :=
  prog_bind p (fun r => match r with
                        | Ok _ => q
                        | Raise e => prog_bind h (fun r => lift r (fun _ => Done (Raise e)))
                        end).
Notation "'do!' p 'in' q" := (seq p q) (at level 10, p at level 100, q at level 200) : py_scope.
Notation "'lock!' x ':=' m 'in' q" := (locked m (fun x => q))
  (at level 10, x name, m at level 100, q at level 200) : py_scope.

Definition send_text (w : nat) (m : pystr) : prog :=
  Await (SendText (RunnerSocket w) m) (fun r => lift r (fun _ => skip)).
Definition send_bytes (w : nat) (b : pybytes) : prog :=
  Await (SendBytes (RunnerSocket w) b) (fun r => lift r (fun _ => skip)).

(** [_close_websocket] *)
Definition close_websocket (w : socket) (code : Z) (reason : pystr) : prog :=
  Await (CloseSocket w code reason) (fun r =>
    match r with
    | Ok _ => skip
    | Raise e => if caught e [RuntimeError] && bool_decide (exn_msg e = CLOSE_ALREADY_SENT_ERROR)
                 then skip else Done (Raise e)
    end).
Fixpoint close_all (ws : list nat) (code : Z) (reason : pystr) : prog :=
  match ws with
  | [] => skip
  | w :: r => do! close_websocket (ClientSocket w) code reason in close_all r code reason
  end.

(** A control message with its two string fields. *)
Definition quoted (s : pystr) : pystr := 34 :: s ++ [34].
Definition control_message (key value type : pystr) : pystr :=
  123 :: quoted key ++ 58 :: quoted value ++ 44 :: quoted (u"type") ++ 58 :: quoted type ++ [125].

(** ** Queues, budgets and retired transfers *)

(** [_close_client_queue] *)
Fixpoint close_queue (q : list pybytes) : list pybytes :=
  if zlen q <? RELAY_QUEUE_FRAMES_MAX then q ++ [[]]
  else match q with [] => [] | _ :: r => close_queue r end.

(** [_record_bytes] *)
Definition record_bytes (n : Z) (c : client) : res client :=
  check! guard (1 <=? n) ValueError "Relay ciphertext byte count must be positive" in
  check! guard (cn_bytes c + n <=? gr_max_bytes (cn_grant c)) RunnerRelayAuthorizationError
    "Runner relay session exceeded byte limit" in
  Ok (with_queue (cn_queue c) (cn_bytes c + n) c).

(** [_prune_retired_transfers], and the loop that ends [_retire_transfer]. *)
Fixpoint prune_retired (now : Z) (l : list (pystr * Z)) : list (pystr * Z) :=
  match l with
  | [] => []
  | (t, at_) :: r => if now - at_ <=? RETIRED_TRANSFER_TTL_SECONDS then l else prune_retired now r
  end.
Fixpoint cap_retired (l : list (pystr * Z)) : list (pystr * Z) :=
  if zlen l <=? RETIRED_TRANSFERS_MAX then l
  else match l with [] => [] | _ :: r => cap_retired r end.
Definition retire_transfer (now : Z) (t : pystr) (l : list (pystr * Z)) : list (pystr * Z) :=
  cap_retired (assoc_pop t (prune_retired now l) ++ [(t, now)]).

Section Relay.
(** The readings of [time.monotonic], and the order in which Python iterates
    over a set. *)
Context (clock : nat → Z) (set_order : gset pystr → list pystr).

(** [runner.sessions.discard(t)] and [_retire_transfer(runner, t)] *)
Definition end_session (rid t : pystr) (s : broker) : broker :=
  match bk_runners s !! rid with
  | None => s
  | Some r => put_runner rid (with_sessions (rn_sessions r ∖ {[t]})
                (retire_transfer (clock (bk_clock s)) t (rn_retired r)) r) (tick 1 s)
  end.

(** [self._clients.pop(t, None)] with [_close_client_queue]; the socket of the
    client. *)
Definition pop_client (t : pystr) (s : broker) : broker * list nat :=
  match bk_clients s !! t with
  | None => (s, [])
  | Some i =>
      (with_clients (delete t (bk_clients s))
         (alter (fun c => with_queue (close_queue (cn_queue c)) (cn_bytes c) c) i (bk_objects s)) s,
       match bk_objects s !! i with Some c => [cn_ws c] | None => [] end)
  end.
Fixpoint pop_clients (ts : list pystr) (s : broker) : broker * list nat :=
  match ts with
  | [] => (s, [])
  | t :: r => let '(s1, w) := pop_client t s in
              let '(s2, ws) := pop_clients r s1 in (s2, w ++ ws)
  end.

(** ** Runners *)

Record registering := {
  rg_previous : option nat;
  rg_closing : list nat;
  rg_candidate : nat;
  rg_job : option pystr;
}.

(** The critical section of [register_runner]. *)
Definition register_section (rid : pystr) (w : nat) (durable : option pystr) : st broker registering := fun s =>
  let previous := bk_runners s !! rid in
  let '(s, closing) := match previous with
                       | Some p => pop_clients (set_order (rn_sessions p)) s
                       | None => (s, [])
                       end in
  let id := bk_connections s in
  let s := put_runner rid {| rn_id := id; rn_ws := w; rn_ready := false; rn_sessions := ∅;
                             rn_retired := [] |} (note (Registered rid w) (new_connection s)) in
  let result job := Ok {| rg_previous := option_map rn_ws previous; rg_closing := closing;
                          rg_candidate := id; rg_job := job |} in
  match bk_maintenance s !! rid, durable with
  | Some m, _ => (s, result (Some (mt_job m)))
  | None, None => (s, result None)
  | None, Some job =>
      (with_maintenance (<[rid := {| mt_job := job; mt_ack := length (bk_acks s) |}]> (bk_maintenance s))
         (with_acks (bk_acks s ++ [false]) s), result (Some job))
  end.

(** [if self._runners.get(runner_id) is candidate: del ...] and [... .ready = True] *)
Definition is_candidate (rid : pystr) (id : nat) (s : broker) : bool :=
  match bk_runners s !! rid with Some r => (rn_id r =? id)%nat | None => false end.
Definition forget_candidate (rid : pystr) (id : nat) : st broker unit := fun s =>
  (if is_candidate rid id s then with_runners (delete rid (bk_runners s)) s else s, Ok tt).
Definition ready_candidate (rid : pystr) (id : nat) : st broker unit := fun s =>
  (match bk_runners s !! rid with
   | Some r => if (rn_id r =? id)%nat
               then put_runner rid {| rn_id := rn_id r; rn_ws := rn_ws r; rn_ready := true;
                                      rn_sessions := rn_sessions r; rn_retired := rn_retired r |} s
               else s
   | None => s
   end, Ok tt).

Definition require_runner_id (rid : pystr) : res unit :=
  guard (negb (bool_decide (rid = []))) ValueError "runner_id must not be empty".

(** [register_runner]; [durable] is what [_get_running_operation] returns, as
    a job id, or raises. *)
Definition register_runner (rid : pystr) (w : nat) (durable : res (option pystr)) : prog :=
  lift (require_runner_id rid) (fun _ =>
  lift durable (fun job =>
  lock! g := register_section rid w job in
  on_error
    (do! match rg_previous g with
         | Some p => close_websocket (RunnerSocket p) 4001 (u"Runner connection replaced")
         | None => skip
         end in
     do! close_all (rg_closing g) 4002 (u"Runner connection replaced") in
     match rg_job g with
     | Some j => send_text w (control_message (u"job_id") j (u"quiesce"))
     | None => skip
     end)
    (lock! _ := forget_candidate rid (rg_candidate g) in skip)
    (lock! _ := ready_candidate rid (rg_candidate g) in skip))).

(** [is_runner_connected] *)
Definition is_runner_connected (rid : pystr) (s : broker) : res bool :=
  check! require_runner_id rid in
  Ok (match bk_runners s !! rid with Some r => rn_ready r | None => false end).

(** [unregister_runner] *)
Definition unregister_section (rid : pystr) (w : nat) : st broker (list nat) := fun s =>
  match bk_runners s !! rid with
  | None => (s, Ok [])
  | Some r =>
      if (rn_ws r =? w)%nat then
        let '(s, closing) := pop_clients (set_order (rn_sessions r))
                               (with_runners (delete rid (bk_runners s)) s) in
        (s, Ok closing)
      else (s, Ok [])
  end.
Definition unregister_runner (rid : pystr) (w : nat) : prog :=
  lock! closing := unregister_section rid w in
  close_all closing 4002 (u"Runner disconnected").

(** [disconnect_runner] *)
Definition disconnect_section (rid : pystr) : st broker (option (nat * list nat)) := fun s =>
  let runner := bk_runners s !! rid in
  let s := with_maintenance (delete rid (bk_maintenance s)) (with_runners (delete rid (bk_runners s)) s) in
  match runner with
  | None => (s, Ok None)
  | Some r => let '(s, closing) := pop_clients (set_order (rn_sessions r)) s in
              (s, Ok (Some (rn_ws r, closing)))
  end.
Definition disconnect_runner (rid : pystr) : prog :=
  lock! x := disconnect_section rid in
  match x with
  | None => skip
  | Some (w, closing) =>
      do! close_websocket (RunnerSocket w) 4003 (u"Runner revoked") in
      close_all closing 4003 (u"Runner revoked")
  end.

(** ** Maintenance *)

(** The loop of [quiesce_runner] over the sessions of the runner. *)
Fixpoint end_sessions (rid : pystr) (ts : list pystr) (s : broker) : broker * list nat :=
  match ts with
  | [] => (s, [])
  | t :: r => let '(s1, w) := pop_client t s in
              let '(s2, ws) := end_sessions rid r (end_session rid t s1) in (s2, w ++ ws)
  end.

Record quiescing := { qs_ws : nat; qs_closing : list nat; qs_ack : nat }.

(** The critical section of [quiesce_runner]; [None] when the runner has
    already acknowledged the job. *)
Definition quiesce_section (rid job : pystr) : st broker (option quiescing) := fun s =>
  match bk_runners s !! rid with
  | None => (s, raise RunnerRelayAuthorizationError "Runner is not connected")
  | Some r =>
      let go ack s :=
        let '(s, closing) := end_sessions rid (set_order (rn_sessions r)) s in
        (s, Ok (Some {| qs_ws := rn_ws r; qs_closing := closing; qs_ack := ack |})) in
      match bk_maintenance s !! rid with
      | Some m =>
          if bool_decide (mt_job m = job) then
            if default false (bk_acks s !! mt_ack m) then (s, Ok None) else go (mt_ack m) s
          else (s, raise RunnerRelayAuthorizationError "Runner maintenance is already active")
      | None =>
          let ack := length (bk_acks s) in
          go ack (with_maintenance (<[rid := {| mt_job := job; mt_ack := ack |}]> (bk_maintenance s))
                    (with_acks (bk_acks s ++ [false]) s))
      end
  end.

(** [if current is maintenance: del self._maintenance[runner_id]] *)
Definition forget_maintenance (rid : pystr) (ack : nat) : st broker unit := fun s =>
  (match bk_maintenance s !! rid with
   | Some m => if (mt_ack m =? ack)%nat then with_maintenance (delete rid (bk_maintenance s)) s else s
   | None => s
   end, Ok tt).

(** [quiesce_runner], with a timeout in seconds. *)
Definition quiesce_runner (rid job : pystr) (timeout : Z) : prog :=
  lift (require_runner_id rid) (fun _ =>
  lift (require_transfer_id job) (fun _ =>
  lift (guard ((0 <? timeout) && (timeout <=? 300)) ValueError "timeout_seconds must be between 0 and 300") (fun _ =>
  lock! x := quiesce_section rid job in
  match x with
  | None => skip
  | Some q =>
      do! close_all (qs_closing q) 4006 (u"Runner entered maintenance") in
      on_error
        (do! send_text (qs_ws q) (control_message (u"job_id") job (u"quiesce")) in
         Await (WaitAck (qs_ack q)) (fun r => lift r (fun _ => skip)))
        (lock! _ := forget_maintenance rid (qs_ack q) in skip)
        skip
  end))).

(** [runner_quiesced] *)
Definition quiesced_section (rid job : pystr) : st broker unit := fun s =>
  match bk_maintenance s !! rid with
  | Some m =>
      if bool_decide (mt_job m = job)
      then (with_acks (<[mt_ack m := true]> (bk_acks s)) s, Ok tt)
      else (s, raise RunnerRelayAuthorizationError "Runner maintenance acknowledgement mismatched")
  | None => (s, raise RunnerRelayAuthorizationError "Runner maintenance acknowledgement mismatched")
  end.
Definition runner_quiesced (rid job : pystr) : prog :=
  lift (require_transfer_id job) (fun _ => lock! _ := quiesced_section rid job in skip).

(** [release_maintenance] *)
Definition release_section (rid job : pystr) : st broker unit := fun s =>
  match bk_maintenance s !! rid with
  | Some m =>
      if bool_decide (mt_job m = job) then
        if default false (bk_acks s !! mt_ack m)
        then (with_maintenance (delete rid (bk_maintenance s)) s, Ok tt)
        else (s, raise RunnerRelayAuthorizationError "Runner maintenance is not quiesced")
      else (s, raise RunnerRelayAuthorizationError "Runner maintenance release mismatched")
  | None => (s, raise RunnerRelayAuthorizationError "Runner maintenance release mismatched")
  end.
Definition release_maintenance (rid job : pystr) : prog :=
  lift (require_runner_id rid) (fun _ =>
  lift (require_transfer_id job) (fun _ => lock! _ := release_section rid job in skip)).

(** ** Clients *)

(** [detach_client] *)
Definition detach_section (t : pystr) (w : nat) : st broker (option nat) := fun s =>
  match bk_clients s !! t with
  | None => (s, Ok None)
  | Some i =>
      match bk_objects s !! i with
      | None => (s, Ok None)
      | Some c =>
          if (cn_ws c =? w)%nat then
            let s := (pop_client t s).1 in
            let rid := gr_runner (cn_grant c) in
            (end_session rid t s, Ok (option_map rn_ws (bk_runners s !! rid)))
          else (s, Ok None)
      end
  end.
Definition detach_client (t : pystr) (w : nat) : prog :=
  lift (require_transfer_id t) (fun _ =>
  lock! x := detach_section t w in
  match x with
  | None => skip
  | Some rw => send_text rw (control_message (u"transfer_id") t (u"close"))
  end).

(** [attach_client] *)
Definition attach_section (g : RunnerTransferGrant) (w : nat) : st broker nat := fun s =>
  match bk_runners s !! gr_runner g with
  | None => (s, raise RunnerRelayAuthorizationError "Runner is not connected")
  | Some r =>
      match (check! guard (rn_ready r) RunnerRelayAuthorizationError "Runner is not connected" in
             check! guard (negb (bool_decide (is_Some (bk_maintenance s !! gr_runner g))))
               RunnerRelayAuthorizationError "Runner maintenance is active" in
             check! guard (negb (RUNNER_SESSIONS_MAX <=? Z.of_nat (size (rn_sessions r))))
               RunnerRelayAuthorizationError "Runner session limit was reached" in
             guard (negb (bool_decide (is_Some (bk_clients s !! gr_transfer g))))
               RunnerRelayAuthorizationError "Runner relay client is already attached") with
      | Raise e => (s, Raise e)
      | Ok _ =>
          let s := put_runner (gr_runner g)
                     (with_sessions ({[gr_transfer g]} ∪ rn_sessions r) (rn_retired r) r) s in
          (with_clients (<[gr_transfer g := length (bk_objects s)]> (bk_clients s))
             (bk_objects s ++ [{| cn_ws := w; cn_grant := g; cn_queue := []; cn_bytes := 0 |}]) s,
           Ok (rn_ws r))
      end
  end.
Definition attach_client (g : RunnerTransferGrant) (w : nat) : prog :=
  lock! rw := attach_section g w in
  on_error (send_text rw (control_message (u"transfer_id") (gr_transfer g) (u"open")))
    (detach_client (gr_transfer g) w) skip.

(** [client_frame] *)
Definition client_section (t : pystr) (ciphertext : pybytes) : st broker (nat * pybytes) := fun s =>
  match bk_clients s !! t ≫= (fun i => c ← bk_objects s !! i; Some (i, c)) with
  | None => (s, raise RunnerRelayAuthorizationError "Runner relay client is not attached")
  | Some (i, c) =>
      match bk_runners s !! gr_runner (cn_grant c) with
      | None => (s, raise RunnerRelayAuthorizationError "Runner is not connected")
      | Some r =>
          match record_bytes (zlen ciphertext) c with
          | Raise e => (s, Raise e)
          | Ok c' => (note (Accepted i ciphertext) (update_object i (fun _ => c') s),
                      Ok (rn_ws r, uuid_bytes t ++ ciphertext))
          end
      end
  end.
Definition client_frame (t : pystr) (ciphertext : pybytes) : prog :=
  lift (require_transfer_id t) (fun _ =>
  lift (guard ((1 <=? zlen ciphertext) && (zlen ciphertext <=? RELAY_FRAME_BYTES_MAX)) ValueError
          "Relay ciphertext frame has an invalid length") (fun _ =>
  lock! x := client_section t ciphertext in send_bytes x.1 x.2)).

(** [runner_closed_transfer] *)
Definition closed_section (rid t : pystr) : st broker (list nat) := fun s =>
  match bk_runners s !! rid with
  | None => (s, raise RunnerRelayAuthorizationError "Runner relay transfer is not attached")
  | Some _ =>
      match bk_clients s !! t ≫= (fun i => bk_objects s !! i) with
      | None => (s, Ok [])
      | Some c =>
          if bool_decide (gr_runner (cn_grant c) = rid) then
            let '(s, closing) := pop_client t s in (end_session rid t s, Ok closing)
          else (s, raise RunnerRelayAuthorizationError "Runner relay transfer is not attached")
      end
  end.
Definition runner_closed_transfer (rid t : pystr) : prog :=
  lift (require_transfer_id t) (fun _ =>
  lock! closing := closed_section rid t in
  close_all closing 4004 (u"Runner rejected transfer")).

(** [_is_retired_transfer] *)
Definition is_retired (rid t : pystr) : st broker bool := fun s =>
  match bk_runners s !! rid with
  | None => (s, Ok false)
  | Some r =>
      let l := prune_retired (clock (bk_clock s)) (rn_retired r) in
      (put_runner rid (with_sessions (rn_sessions r) l r) (tick 1 s), Ok (bool_decide (t ∈ map fst l)))
  end.

(** [runner_frame]: the frame is queued, or its client is dropped, or it is
    late and ignored. *)
Definition frame_section (rid t : pystr) (ciphertext : pybytes) : st broker (option (nat * list nat * pystr)) := fun s =>
  match bk_runners s !! rid with
  | None => (s, raise RunnerRelayAuthorizationError "Runner relay frame has no attached client")
  | Some r =>
      let late := (let^ retired := is_retired rid t in
                   if retired then st_ret None
                   else st_lift (raise RunnerRelayAuthorizationError
                                   "Runner relay frame has no attached client")) in
      let drop_client reason :=
        let '(s, closing) := pop_client t s in
        (end_session rid t s, Ok (Some (rn_ws r, closing, reason))) in
      match bk_clients s !! t ≫= (fun i => c ← bk_objects s !! i; Some (i, c)) with
      | None => late s
      | Some (i, c) =>
          if negb (bool_decide (gr_runner (cn_grant c) = rid)) then late s
          else if gr_max_bytes (cn_grant c) <? cn_bytes c + zlen ciphertext
          then drop_client (u"Runner relay session exceeded byte limit")
          else if RELAY_QUEUE_FRAMES_MAX <=? zlen (cn_queue c)
          then drop_client (u"Runner relay client exceeded backpressure")
          else match record_bytes (zlen ciphertext) c with
               | Raise e => (s, Raise e)
               | Ok c' =>
                   (note (Queued rid i ciphertext)
                      (update_object i (fun _ => with_queue (cn_queue c ++ [ciphertext]) (cn_bytes c') c) s),
                    Ok None)
               end
      end
  end.
Definition runner_frame (rid : pystr) (framed : pybytes) : prog :=
  lift (guard ((RUNNER_PREFIX_LENGTH <? zlen framed)
               && (zlen framed <=? RUNNER_PREFIX_LENGTH + RELAY_FRAME_BYTES_MAX)) ValueError
          "Runner relay frame has an invalid length") (fun _ =>
  let t := uuid_str (take 16 framed) in
  lock! x := frame_section rid t (drop 16 framed) in
  match x with
  | None => skip
  | Some (w, closing, reason) =>
      do! send_text w (control_message (u"transfer_id") t (u"close")) in
      close_all closing 4005 reason
  end).

(** One round of [send_client_frames]. *)
Definition sender_section (t : pystr) : st broker (option (nat * nat)) := fun s =>
  (s, Ok (i ← bk_clients s !! t; c ← bk_objects s !! i; Some (i, cn_ws c))).
Definition send_client_frame (t : pystr) : prog :=
  lock! x := sender_section t in
  match x with
  | None => skip
  | Some (i, w) =>
      Await (GetFrame i) (fun r => lift r (fun ciphertext =>
        if bool_decide (ciphertext = []) then skip
        else Await (SendBytes (ClientSocket w) ciphertext) (fun r => lift r (fun _ => Done (Ok true)))))
  end.
Definition send_client_frames (t : pystr) : prog :=
  lift (require_transfer_id t) (fun _ => send_client_frame t).

(** ** The machine *)

Inductive method :=
  | RegisterRunner (rid : pystr) (w : nat) (durable : res (option pystr))
  | UnregisterRunner (rid : pystr) (w : nat)
  | DisconnectRunner (rid : pystr)
  | QuiesceRunner (rid job : pystr) (timeout : Z)
  | RunnerQuiesced (rid job : pystr)
  | ReleaseMaintenance (rid job : pystr)
  | AttachClient (g : RunnerTransferGrant) (w : nat)
  | DetachClient (t : pystr) (w : nat)
  | ClientFrame (t : pystr) (ciphertext : pybytes)
  | RunnerClosedTransfer (rid t : pystr)
  | RunnerFrame (rid : pystr) (framed : pybytes)
  | SendClientFrames (t : pystr).

Definition body (m : method) : prog :=
  match m with
  | RegisterRunner rid w durable => register_runner rid w durable
  | UnregisterRunner rid w => unregister_runner rid w
  | DisconnectRunner rid => disconnect_runner rid
  | QuiesceRunner rid job timeout => quiesce_runner rid job timeout
  | RunnerQuiesced rid job => runner_quiesced rid job
  | ReleaseMaintenance rid job => release_maintenance rid job
  | AttachClient g w => attach_client g w
  | DetachClient t w => detach_client t w
  | ClientFrame t ciphertext => client_frame t ciphertext
  | RunnerClosedTransfer rid t => runner_closed_transfer rid t
  | RunnerFrame rid framed => runner_frame rid framed
  | SendClientFrames t => send_client_frames t
  end.

(** [queue.get_nowait()] *)
Definition take_frame (i : nat) (s : broker) : option (pybytes * broker) :=
  match bk_objects s !! i with
  | Some c =>
      match cn_queue c with
      | b :: q => Some (b, (if bool_decide (b = []) then fun s => s else note (Taken i b))
                             (update_object i (fun c => with_queue q (cn_bytes c) c) s))
      | [] => None
      end
  | None => None
  end.

(** What an await does before it suspends. *)
Definition issue (a : await) (s : broker) : broker :=
  match a with
  | SendText w m => note (SentText w m) s
  | SendBytes w b => note (SentBytes w b) s
  | CloseSocket w code reason => note (Closed w code reason) s
  | WaitAck _ | GetFrame _ => s
  end.

(** A program runs to the await where it suspends, or to its end. *)
Fixpoint run (p : prog) (s : broker) : broker * prog :=
  match p with
  | Done r => (s, Done r)
  | Locked m k => let '(s', r) := m s in run (k r) s'
  | Await a k =>
      match a with
      | GetFrame i => match take_frame i s with
                      | Some (b, s') => run (k (Ok b)) s'
                      | None => (s, Await a k)
                      end
      | WaitAck f => if default false (bk_acks s !! f) then run (k (Ok [])) s else (s, Await a k)
      | _ => (issue a s, Await a k)
      end
  end.

(** What the await of a suspended program ends with: it returns, which for an
    acknowledgement or a queue it may only when there is one, or it raises. *)
Definition resumed (p : prog) (r : option exn) (s : broker) : broker * prog :=
  match p with
  | Await a k =>
      match r, a with
      | Some e, _ => run (k (Raise e)) s
      | None, (GetFrame _ | WaitAck _) => run p s
      | None, _ => run (k (Ok [])) s
      end
  | _ => (s, p)
  end.

(** A task; [send_client_frames] goes round its loop. *)
Record task := { tk_method : method; tk_prog : prog }.
Definition advance (m : method) (x : broker * prog) : broker * task :=
  let '(s, p) := match m, x with
                 | SendClientFrames t, (s, Done (Ok true)) => run (send_client_frame t) s
                 | _, x => x
                 end in
  (s, {| tk_method := m; tk_prog := p |}).

Record machine := { mc_broker : broker; mc_tasks : list task }.

Inductive action := Call (m : method) | Resume (i : nat) (r : option exn).

Definition act (m : machine) (a : action) : machine :=
  match a with
  | Call f =>
      let '(s, tk) := advance f (run (body f) (mc_broker m)) in
      {| mc_broker := s; mc_tasks := mc_tasks m ++ [tk] |}
  | Resume i r =>
      match mc_tasks m !! i with
      | None => m
      | Some tk =>
          let '(s, tk') := advance (tk_method tk) (resumed (tk_prog tk) r (mc_broker m)) in
          {| mc_broker := s; mc_tasks := <[i := tk']> (mc_tasks m) |}
      end
  end.

Definition acts (l : list action) : machine :=
  fold_left act l {| mc_broker := empty_broker; mc_tasks := [] |}.
End Relay.
