(* ===== verification/RunnerRelayInvariant.v ===== *)
(** * What holds in every state of the relay

    Over the machine of [RunnerRelay]: the broker's tables agree and are
    bounded, and every client's queue agrees with the log. The tasks are
    handled by rely and guarantee: each program is safe against what the
    other tasks may do at its awaits, and does no more to them. [relay_acts_ok]
    puts the tasks together. *)

From S2P Require Import Prelude Text Crypto RunnerCapabilities RunnerNoise RunnerRelay.

(** ** What the log says *)

Definition queued_of (i : nat) (e : event) : option pybytes :=
  match e with Queued _ j b => if (j =? i)%nat then Some b else None | _ => None end.
Definition taken_of (i : nat) (e : event) : option pybytes :=
  match e with Taken j b => if (j =? i)%nat then Some b else None | _ => None end.
Definition accepted_of (i : nat) (e : event) : option pybytes :=
  match e with Accepted j b => if (j =? i)%nat then Some b else None | _ => None end.
Definition sent_of (w : socket) (e : event) : option pybytes :=
  match e with SentBytes w' b => if bool_decide (w' = w) then Some b else None | _ => None end.

Definition queued (i : nat) (l : list event) : list pybytes := omap (queued_of i) l.
Definition taken (i : nat) (l : list event) : list pybytes := omap (taken_of i) l.
Definition accepted (i : nat) (l : list event) : list pybytes := omap (accepted_of i) l.
Definition sent (w : socket) (l : list event) : list pybytes := omap (sent_of w) l.

(** The bytes of both directions that a client has used. *)
Definition total (l : list pybytes) : Z := foldr (fun b n => zlen b + n) 0 l.
Definition traffic (i : nat) (l : list event) : Z := total (queued i l) + total (accepted i l).

Lemma total_app l k : total (l ++ k) = total l + total k.
Proof. induction l as [|b l IH]; [done|]. cbn [app total foldr]. fold (total (l ++ k)) (total l). lia. Qed.

(** ** Invariants *)

Definition grant_of (s : broker) (i : nat) : option RunnerTransferGrant := cn_grant <$> bk_objects s !! i.

(** The three tables agree and are bounded; a runner in maintenance, and one
    whose registration is not over, has no sessions. *)
Record consistent (s : broker) : Prop := {
  c_client : ∀ t i, bk_clients s !! t = Some i → ∃ g r, grant_of s i = Some g ∧ gr_transfer g = t
    ∧ bk_runners s !! gr_runner g = Some r ∧ t ∈ rn_sessions r;
  c_session : ∀ rid r t, bk_runners s !! rid = Some r → t ∈ rn_sessions r →
    ∃ i g, bk_clients s !! t = Some i ∧ grant_of s i = Some g ∧ gr_runner g = rid;
  c_bound : ∀ rid r, bk_runners s !! rid = Some r → Z.of_nat (size (rn_sessions r)) <= RUNNER_SESSIONS_MAX
    ∧ zlen (rn_retired r) <= RETIRED_TRANSFERS_MAX;
  c_fence : ∀ rid r, is_Some (bk_maintenance s !! rid) → bk_runners s !! rid = Some r → rn_sessions r = ∅;
  c_unready : ∀ rid r, bk_runners s !! rid = Some r → rn_ready r = false → rn_sessions r = ∅;
}.

(** The connection has not been made ready. *)
Definition unready (id : nat) (s : broker) : Prop :=
  ∀ rid r, bk_runners s !! rid = Some r → rn_id r = id → rn_ready r = false.

Definition nonempty (b : pybytes) : bool := negb (bool_decide (b = [])).

(** A client's queue between what was queued and what was taken. *)
Record flow_ok (l : list event) (i : nat) (attached : Prop) (c : client) : Prop := {
  f_bytes : cn_bytes c = traffic i l;
  f_budget : cn_bytes c <= Z.max 0 (gr_max_bytes (cn_grant c));
  f_queue : zlen (cn_queue c) <= RELAY_QUEUE_FRAMES_MAX;
  f_frames : Forall (fun b => nonempty b = true) (queued i l);
  f_order : sublist (taken i l ++ List.filter nonempty (cn_queue c)) (queued i l);
  f_attached : attached → queued i l = taken i l ++ cn_queue c;
  f_sent : sent (ClientSocket (cn_ws c)) l = taken i l;
}.

Record flows (s : broker) : Prop := {
  w_client : ∀ i c, bk_objects s !! i = Some c →
    flow_ok (bk_log s) i (bk_clients s !! gr_transfer (cn_grant c) = Some i) c;
  w_socket : ∀ i j c d, bk_objects s !! i = Some c → bk_objects s !! j = Some d → cn_ws c = cn_ws d → i = j;
  w_object : ∀ t i, bk_clients s !! t = Some i → ∃ g, grant_of s i = Some g ∧ gr_transfer g = t;
  w_queued : ∀ rid i b, Queued rid i b ∈ bk_log s → ∃ g, grant_of s i = Some g ∧ gr_runner g = rid;
  w_taken : ∀ i b, Taken i b ∈ bk_log s → is_Some (grant_of s i);
  w_accepted : ∀ i b, Accepted i b ∈ bk_log s → is_Some (grant_of s i);
  w_sent : ∀ w b, SentBytes (ClientSocket w) b ∈ bk_log s → ∃ i c, bk_objects s !! i = Some c ∧ cn_ws c = w;
  w_forwarded : ∀ w x, SentBytes (RunnerSocket w) x ∈ bk_log s → ∃ i g b, grant_of s i = Some g
    ∧ Accepted i b ∈ bk_log s ∧ x = uuid_bytes (gr_transfer g) ++ b ∧ Registered (gr_runner g) w ∈ bk_log s;
  w_runner : ∀ rid r, bk_runners s !! rid = Some r →
    Registered rid (rn_ws r) ∈ bk_log s ∧ (rn_id r < bk_connections s)%nat;
}.

Record ok (s : broker) : Prop := { ok_tables : consistent s; ok_flows : flows s }.

Lemma empty_ok : ok empty_broker.
Proof.
  split; split; cbn; intros *; rewrite ?lookup_empty, ?lookup_nil; try done; intros H;
    try (by apply elem_of_nil in H); by apply is_Some_None in H.
Qed.

(** ** Rely and guarantee

    What the other tasks leave of a task's knowledge, and what a task leaves
    of theirs: objects keep their socket and grant, the log grows, and a
    connection is made ready only by the task that owns it. *)
Record grows (s s' : broker) : Prop := {
  g_objects : ∀ i c, bk_objects s !! i = Some c →
    ∃ c', bk_objects s' !! i = Some c' ∧ cn_ws c' = cn_ws c ∧ cn_grant c' = cn_grant c;
  g_log : ∃ l, bk_log s' = bk_log s ++ l;
  g_connections : (bk_connections s <= bk_connections s')%nat;
}.
#[export] Instance grows_preorder : PreOrder grows.
Proof.
  split.
  - intros s. split; [eauto|exists []; by rewrite app_nil_r|done].
  - intros s1 s2 s3 [A1 [l1 A2] A3] [B1 [l2 B2] B3]. split.
    + intros i c Hi. destruct (A1 i c Hi) as (c2 & H2 & E1 & E2). destruct (B1 i c2 H2) as (c3 & H3 & E3 & E4).
      exists c3. split_and!; [done|congruence|congruence].
    + exists (l1 ++ l2). by rewrite B2, A2, app_assoc.
    + lia.
Qed.

Record rely (own : option nat) (s s' : broker) : Prop := {
  rl_grows : grows s s';
  rl_own : ∀ id, own = Some id → unready id s → unready id s';
}.
Record guar (own : option nat) (s s' : broker) : Prop := {
  gu_grows : grows s s';
  gu_others : ∀ id, own ≠ Some id → unready id s → unready id s';
  gu_objects : ∀ i c', bk_objects s' !! i = Some c' → ∃ c, bk_objects s !! i = Some c ∧ cn_ws c' = cn_ws c;
}.
#[export] Instance rely_preorder own : PreOrder (rely own).
Proof.
  split; [by split|]. intros s1 s2 s3 [A1 A2] [B1 B2]. split; [by transitivity s2|]. intros id E H. eauto.
Qed.
#[export] Instance guar_preorder own : PreOrder (guar own).
Proof.
  split; [split; [done|done|eauto]|]. intros s1 s2 s3 [A1 A2 A3] [B1 B2 B3].
  split; [by transitivity s2|intros id E H; eauto|]. intros i c Hi. destruct (B3 i c Hi) as (c2 & H2 & ->).
  by apply A3.
Qed.

Lemma grant_grows s s' i g : grows s s' → grant_of s i = Some g → grant_of s' i = Some g.
Proof.
  intros [H _ _]. unfold grant_of. destruct (bk_objects s !! i) as [c|] eqn:E; [|done]. cbn.
  destruct (H i c E) as (c' & -> & _ & E'). cbn. congruence.
Qed.

(** A task that owns nothing may come to own a connection created meanwhile. *)
Definition owns (own own' : option nat) (s s' : broker) : Prop :=
  own' = own
  ∨ ∃ id, own = None ∧ own' = Some id ∧ (bk_connections s <= id < bk_connections s')%nat.

Lemma owns_trans o1 o2 o3 s1 s2 s3 : owns o1 o2 s1 s2 → owns o2 o3 s2 s3 → grows s1 s2 → grows s2 s3 →
  owns o1 o3 s1 s3.
Proof.
  intros [->|(id & -> & -> & H)] [->|(id' & E & -> & H')] [_ _ G1] [_ _ G2]; [by left|right..|done].
  - exists id'. split_and!; [done|done|lia|lia].
  - exists id. split_and!; [done|done|lia|lia].
Qed.

Lemma guar_owned own own' a b s s1 s2 : owns own own' a b → guar own s s1 → guar own' s1 s2 → guar own' s s2.
Proof.
  intros Ho [G1 U1 O1] H2. transitivity s1; [|done]. split; [done| |done]. intros id N H.
  destruct Ho as [->|(id' & -> & -> & _)]; by apply U1.
Qed.

(** ** Safe programs

    [safe Q p own s]: run from [s], with any resumptions from states that the
    other tasks may reach, [p] keeps the invariants and ends with [Q]. *)
Definition sends (a : await) : bool :=
  match a with SendText _ _ | SendBytes _ _ | CloseSocket _ _ _ => true | _ => false end.

Definition sending (p : prog) : Prop := match p with Await a _ => sends a = true | _ => False end.

Section Safe.
Context (Q : res bool → option nat → broker → Prop).

(** The await of a suspended program ends; a sender sends at once what it
    takes. *)
Definition resumes (safe : prog → option nat → broker → Prop) (a : await) (k : res pybytes → prog)
    (own : option nat) (s : broker) : Prop :=
  (∀ e, safe (k (Raise e)) own s)
  ∧ match a with
    | GetFrame i => ∀ b s', take_frame i s = Some (b, s') →
        guar own s s' ∧ safe (k (Ok b)) own s' ∧ (ok s' ∨ sending (k (Ok b)))
    | _ => safe (k (Ok [])) own s
    end.

Fixpoint safe (p : prog) (own : option nat) (s : broker) : Prop :=
  match p with
  | Done r => Q r own s
  | Locked m k => ok (m s).1 ∧ guar own s (m s).1
      ∧ ∃ own', owns own own' s (m s).1 ∧ safe (k (m s).2) own' (m s).1
  | Await a k =>
      ok (issue a s) ∧ guar own s (issue a s)
      ∧ ∀ s', ok s' → rely own (issue a s) s' → resumes safe a k own s'
  end.

(** A program that [run] has brought to an await or to its end. *)
Definition pending (p : prog) (own : option nat) (s : broker) : Prop :=
  match p with
  | Done r => Q r own s
  | Locked _ _ => False
  | Await a k => ∀ s', ok s' → rely own s s' → resumes safe a k own s'
  end.

Lemma run_safe p own s : ok s → safe p own s →
  ok (run p s).1 ∧ ∃ own', owns own own' s (run p s).1 ∧ guar own' s (run p s).1
  ∧ pending (run p s).2 own' (run p s).1.
Proof.
  revert own s. induction p as [r|X m k IH|a k IH]; intros own s Hs Hp; cbn [safe] in Hp; cbn [run].
  - split; [done|]. exists own. split_and!; [by left|done|done].
  - destruct Hp as (H1 & H2 & o & H3 & H4). destruct (m s) as [s1 r]. cbn [fst snd] in *.
    destruct (IH r o s1 H1 H4) as (A & o' & B & C & D). split; [done|]. exists o'.
    assert (T : owns own o' s (run (k r) s1).1) by (apply (owns_trans own o o' s s1); [done|done|apply H2|apply C]).
    split_and!; [done|exact (guar_owned _ _ _ _ _ _ _ T H2 C)|done].
  - destruct Hp as (H1 & H2 & H3).
    assert (Hsend : ok (issue a s) ∧ ∃ own', owns own own' s (issue a s) ∧ guar own' s (issue a s)
                    ∧ pending (Await a k) own' (issue a s)).
    { split; [done|]. exists own. split_and!; [by left|done|done]. }
    destruct a as [w m|w b|w c r|f|i]; try exact Hsend; cbn [issue] in *.
    + destruct (default false _); [|exact Hsend]. destruct (H3 s Hs ltac:(done)) as [_ H].
      by apply IH.
    + destruct (take_frame i s) as [[b s1]|] eqn:Et; [|exact Hsend].
      destruct (H3 s Hs ltac:(done)) as [_ H]. specialize (H b s1 Et).
      destruct H as (K1 & K2 & [K3|K3]).
      * destruct (IH (Ok b) own s1 K3 K2) as (A & o' & B & C & D).
        split; [done|]. exists o'.
        assert (T : owns own o' s (run (k (Ok b)) s1).1)
          by (apply (owns_trans own own o' s s1); [by left|done|apply K1|apply C]).
        split_and!; [done|exact (guar_owned _ _ _ _ _ _ _ T K1 C)|done].
      * destruct (k (Ok b)) as [|X m k'|a k']; try done. cbn [safe] in K2. destruct K2 as (A & B & C).
        destruct a; try done; cbn [run fst snd]; (split; [done|]; exists own;
          split_and!; [by left|by transitivity s1|exact C]).
Qed.
End Safe.

Lemma resumed_safe Q p r own s : ok s → pending Q p own s →
  ok (resumed p r s).1 ∧ ∃ own', owns own own' s (resumed p r s).1 ∧ guar own' s (resumed p r s).1
  ∧ pending Q (resumed p r s).2 own' (resumed p r s).1.
Proof.
  intros Hs Hp. assert (Hid : ∀ q, pending Q q own s → ok (s, q).1 ∧ ∃ own', owns own own' s (s, q).1
    ∧ guar own' s (s, q).1 ∧ pending Q (s, q).2 own' (s, q).1).
  { intros q Hq. split; [done|]. exists own. split_and!; [by left|done|done]. }
  destruct p as [x|X m k|a k]; [by apply Hid|by apply Hid|]. cbn [resumed].
  destruct (Hp s Hs ltac:(done)) as [He Hk]. destruct r as [e|].
  { apply run_safe; [done|apply He]. }
  destruct a as [w m|w b|w c x|f|i]; try (apply run_safe; [done|exact Hk]); apply run_safe; try done;
    cbn [safe issue]; (split_and!; [done|done|exact Hp]).
Qed.

Lemma pending_stable Q p own s s' :
  (∀ r s1 s2, Q r own s1 → ok s2 → rely own s1 s2 → Q r own s2) →
  ok s' → rely own s s' → pending Q p own s → pending Q p own s'.
Proof.
  intros HQ Hs' R. destruct p as [r|X m k|a k]; cbn [pending]; [by eauto|done|].
  intros H s2 H2 R2. apply H; [done|by transitivity s'].
Qed.

Lemma safe_bind Q p k own s : safe (fun r o s' => safe Q (k r) o s') p own s → safe Q (prog_bind p k) own s.
Proof.
  revert own s. induction p as [r|X m f IH|a f IH]; intros own s Hp; cbn [safe prog_bind] in *; [done| |].
  - destruct Hp as (H1 & H2 & o & H3 & H4). split_and!; [done|done|]. exists o. split; [done|by apply IH].
  - destruct Hp as (H1 & H2 & H3). split_and!; [done|done|]. intros s' Hs' R. specialize (H3 s' Hs' R) as [He Hk].
    split; [intros e; by apply IH|]. destruct a as [w m|w b|w c x|g|i]; try by apply IH.
    intros b s2 Ht. destruct (Hk b s2 Ht) as (K1 & K2 & K3). split_and!; [done|by apply IH|].
    destruct K3 as [K3|K3]; [by left|right]. by destruct (f (Ok b)).
Qed.

(** ** Rules for the programs *)

Lemma rely_of_guar own s s' : guar None s s' → rely own s s'.
Proof. intros [G U _]. split; [done|]. intros id _. by apply U. Qed.
Lemma guar_any own s s' : guar None s s' → guar own s s'.
Proof. intros [G U O]. split; [done| |done]. intros id _. by apply U. Qed.

(** Ends in a good state the others may have reached, and owns what it did. *)
Definition after (own : option nat) (s : broker) : res bool → option nat → broker → Prop :=
  fun _ o s' => o = own ∧ ok s' ∧ rely own s s'.

(** A program that touches nothing it could own. *)
Definition calm (p : prog) : Prop := ∀ own s, ok s → safe (after own s) p own s.

Lemma safe_weaken Q Q' p own s : (∀ r o s', Q' r o s' → Q r o s') → safe Q' p own s → safe Q p own s.
Proof.
  intros HQ. revert own s. induction p as [r|X m f IH|a f IH]; intros own s Hp; cbn [safe] in *; [by apply HQ| |].
  - destruct Hp as (H1 & H2 & o & H3 & H4). split_and!; [done|done|]. exists o. split; [done|by apply IH].
  - destruct Hp as (H1 & H2 & H3). split_and!; [done|done|]. intros s' Hs' R. specialize (H3 s' Hs' R) as [He Hk].
    split; [intros e; by apply IH|]. destruct a as [w m|w b|w c x|g|i]; try by apply IH.
    intros b s2 Ht. destruct (Hk b s2 Ht) as (K1 & K2 & K3). split_and!; [done|by apply IH|done].
Qed.

Lemma calm_done r : calm (Done r).
Proof. by intros own s Hs. Qed.

Lemma calm_prog_bind p k : calm p → (∀ r, calm (k r)) → calm (prog_bind p k).
Proof.
  intros Hp Hk own s Hs. apply safe_bind. eapply safe_weaken; [|by apply Hp].
  intros r o s' (-> & Hs' & R). eapply safe_weaken; [|by apply Hk].
  intros r' o s2 (-> & H2 & R2). split_and!; [done|done|by transitivity s'].
Qed.

Lemma calm_lifted {X} (r : res X) k : (∀ x, calm (k x)) → calm (lift r k).
Proof. intros H. destruct r; [apply H|apply calm_done]. Qed.

Lemma calm_seq p q : calm p → calm q → calm (seq p q).
Proof. intros Hp Hq. apply calm_prog_bind; [done|]. intros r. by apply calm_lifted. Qed.

Lemma calm_on_error p h q : calm p → calm h → calm q → calm (on_error p h q).
Proof.
  intros Hp Hh Hq. apply calm_prog_bind; [done|]. intros [b|e]; [done|]. apply calm_prog_bind; [done|].
  intros r. apply calm_lifted. intros ?. apply calm_done.
Qed.

(** A critical section that keeps the invariants and makes nothing ready. *)
Definition section_ok {X} (m : st broker X) : Prop := ∀ s, ok s → ok (m s).1 ∧ guar None s (m s).1.

Lemma calm_locked {X} (m : st broker X) k : section_ok m → (∀ x, calm (k x)) → calm (locked m k).
Proof.
  intros Hm Hk own s Hs. destruct (Hm s Hs) as [H1 H2]. cbn [locked safe].
  split_and!; [done|by apply guar_any|]. exists own. split; [by left|].
  eapply safe_weaken; [|apply (calm_lifted _ _ Hk own _ H1)].
  intros r o s' (-> & Hs' & R). split_and!; [done|done|]. transitivity (m s).1; [by apply rely_of_guar|done].
Qed.

(** ** Events *)

(** An event that is neither about a queue nor on a client's socket. *)
Definition quiet (e : event) : Prop :=
  match e with
  | Queued _ _ _ | Accepted _ _ | Taken _ _ | SentBytes (ClientSocket _) _ => False
  | _ => True
  end.

Lemma omap_snoc {A B} (f : A → option B) l x : f x = None → omap f (l ++ [x]) = omap f l.
Proof. intros H. rewrite omap_app. cbn. rewrite H. apply app_nil_r. Qed.

Lemma omap_none {A B} (f : A → option B) l : (∀ x, x ∈ l → f x = None) → omap f l = [].
Proof.
  induction l as [|x l IH]; [done|]. intros H. cbn. rewrite (H x) by left. apply IH. intros y Hy. apply H. by right.
Qed.

Definition quiet_for (i : nat) (w : nat) (e : event) : Prop :=
  queued_of i e = None ∧ taken_of i e = None ∧ accepted_of i e = None ∧ sent_of (ClientSocket w) e = None.

Lemma quiet_all i w e : quiet e → quiet_for i w e.
Proof. by destruct e as [| | | | |[]|]. Qed.

Lemma flow_quiet e l i P c : quiet_for i (cn_ws c) e → flow_ok l i P c → flow_ok (l ++ [e]) i P c.
Proof.
  intros (H1 & H2 & H3 & H4) [F1 F2 F3 F4 F5 F6 F7].
  assert (E1 : queued i (l ++ [e]) = queued i l) by (by apply omap_snoc).
  assert (E2 : taken i (l ++ [e]) = taken i l) by (by apply omap_snoc).
  split; rewrite ?E1, ?E2; try done.
  - rewrite F1. unfold traffic. rewrite E1. f_equal. f_equal. symmetry. by apply omap_snoc.
  - rewrite <- F7. by apply omap_snoc.
Qed.

Lemma note_tables e s : consistent s → consistent (note e s).
Proof. by intros []. Qed.

Lemma note_grows e s : grows s (note e s).
Proof. split; [eauto|by exists [e]|done]. Qed.
Lemma note_guar e s : guar None s (note e s).
Proof. split; [apply note_grows|done|eauto]. Qed.

Lemma in_snoc (x y : event) l : x ∈ l ++ [y] ↔ x ∈ l ∨ x = y.
Proof. by rewrite elem_of_app, list_elem_of_singleton. Qed.

Lemma note_flows e s : flows s → quiet e →
  (∀ w x, e = SentBytes (RunnerSocket w) x → ∃ i g b, grant_of s i = Some g ∧ Accepted i b ∈ bk_log s
     ∧ x = uuid_bytes (gr_transfer g) ++ b ∧ Registered (gr_runner g) w ∈ bk_log s) →
  flows (note e s).
Proof.
  intros [F1 F2 F3 F4 F5 F6 F7 F8 F9] He Hx. split; cbn [note bk_objects bk_clients bk_log bk_runners bk_connections].
  - intros i c Hi. apply flow_quiet; [by apply quiet_all|by apply F1].
  - done.
  - done.
  - intros rid i b [H| <-]%in_snoc; [by apply (F4 rid i b)|done].
  - intros i b [H| <-]%in_snoc; [by apply (F5 i b)|done].
  - intros i b [H| <-]%in_snoc; [by apply (F6 i b)|done].
  - intros w b [H| <-]%in_snoc; [by apply (F7 w b)|done].
  - intros w x H. assert (Hg : ∃ i g b, grant_of s i = Some g ∧ Accepted i b ∈ bk_log s
      ∧ x = uuid_bytes (gr_transfer g) ++ b ∧ Registered (gr_runner g) w ∈ bk_log s).
    { apply in_snoc in H as [H|H]; [by apply F8|by apply Hx]. }
    destruct Hg as (i & g & b & G1 & G2 & G3 & G4). exists i, g, b. rewrite !in_snoc. tauto.
  - intros rid r Hr. destruct (F9 rid r Hr) as [G1 G2]. rewrite in_snoc. tauto.
Qed.

Lemma note_ok e s : ok s → quiet e → (∀ w x, e ≠ SentBytes (RunnerSocket w) x) → ok (note e s).
Proof.
  intros [H1 H2] He Hn. split; [by apply note_tables|]. apply note_flows; [done|done|].
  intros w x ->. by destruct (Hn w x).
Qed.

(** An await that sends no bytes. *)
Lemma calm_await a k : match a with SendBytes _ _ | GetFrame _ => False | _ => True end →
  (∀ r, calm (k r)) → calm (Await a k).
Proof.
  intros Ha Hk own s Hs. assert (H : ok (issue a s) ∧ guar None s (issue a s)).
  { destruct a; try done; cbn [issue]; (split; [by apply note_ok|apply note_guar]). }
  destruct H as [H1 H2]. split_and!; [done|by apply guar_any|]. intros s' Hs' R.
  assert (Hk' : ∀ r, safe (after own s) (k r) own s').
  { intros r. eapply safe_weaken; [|by apply Hk]. intros r' o s2 (-> & G2 & R2). split_and!; [done|done|].
    transitivity s'; [|done]. transitivity (issue a s); [by apply rely_of_guar|done]. }
  split; [intros e; apply Hk'|]. by destruct a; try apply Hk'.
Qed.

Lemma calm_send_text w m : calm (send_text w m).
Proof. apply calm_await; [done|]. intros r. apply calm_lifted. intros ?. apply calm_done. Qed.

Lemma calm_close_websocket w code reason : calm (close_websocket w code reason).
Proof.
  apply calm_await; [done|]. intros [b|e]; [apply calm_done|]. destruct (_ && _); apply calm_done.
Qed.

Lemma calm_close_all ws code reason : calm (close_all ws code reason).
Proof.
  induction ws as [|w ws IH]; cbn [close_all]; [apply calm_done|]. apply calm_seq; [apply calm_close_websocket|done].
Qed.

Create HintDb relay discriminated.
#[export] Hint Resolve calm_done calm_lifted calm_seq calm_on_error calm_locked calm_send_text calm_close_websocket
  calm_close_all : relay.

(** ** Dropping clients and sessions *)

(** Clients are dropped, runners removed or their sessions ended, and nothing
    else happens. *)
Record shrinks (s s' : broker) : Prop := {
  sh_log : bk_log s' = bk_log s;
  sh_connections : bk_connections s' = bk_connections s;
  sh_runners : ∀ rid r, bk_runners s' !! rid = Some r → ∃ r0, bk_runners s !! rid = Some r0
    ∧ rn_ws r = rn_ws r0 ∧ rn_id r = rn_id r0 ∧ rn_ready r = rn_ready r0;
  sh_clients : ∀ t i, bk_clients s' !! t = Some i → bk_clients s !! t = Some i;
  sh_objects : ∀ i, (fun c => (cn_ws c, cn_grant c)) <$> bk_objects s' !! i
                    = (fun c => (cn_ws c, cn_grant c)) <$> bk_objects s !! i;
  sh_flow : ∀ i c c', bk_objects s !! i = Some c → bk_objects s' !! i = Some c' →
    flow_ok (bk_log s) i (bk_clients s !! gr_transfer (cn_grant c) = Some i) c →
    flow_ok (bk_log s) i (bk_clients s' !! gr_transfer (cn_grant c) = Some i) c';
}.

Lemma shrinks_object s s' i c' : shrinks s s' → bk_objects s' !! i = Some c' →
  ∃ c, bk_objects s !! i = Some c ∧ cn_ws c' = cn_ws c ∧ cn_grant c' = cn_grant c.
Proof.
  intros H Hi. pose proof (sh_objects _ _ H i) as E. rewrite Hi in E.
  destruct (bk_objects s !! i) as [c|]; [|done]. injection E as E1 E2. by exists c.
Qed.

Lemma shrinks_grant s s' i : shrinks s s' → grant_of s' i = grant_of s i.
Proof.
  intros H. pose proof (sh_objects _ _ H i) as E. unfold grant_of.
  destruct (bk_objects s !! i), (bk_objects s' !! i); try done. cbn in *. congruence.
Qed.

#[local] Instance shrinks_preorder : PreOrder shrinks.
Proof.
  split.
  - intros s. split; try done; [eauto|]. intros i c c' H1 H2 H. by simplify_eq.
  - intros s1 s2 s3 A B. split.
    + etransitivity; [apply B|apply A].
    + etransitivity; [apply B|apply A].
    + intros rid r Hr. destruct (sh_runners _ _ B rid r Hr) as (r1 & Hr1 & E1 & E2 & E3).
      destruct (sh_runners _ _ A rid r1 Hr1) as (r0 & Hr0 & E4 & E5 & E6). exists r0.
      split_and!; [done|congruence..].
    + intros t i H. by apply A, B.
    + intros i. by rewrite (sh_objects _ _ B), (sh_objects _ _ A).
    + intros i c c' Hc Hc' H. pose proof (sh_objects _ _ A i) as E. rewrite Hc in E.
      destruct (bk_objects s2 !! i) as [c2|] eqn:E2; [|done]. cbn in E. injection E as _ Eg.
      pose proof (sh_flow _ _ A i c c2 Hc E2 H) as H2. rewrite <- Eg in H2.
      pose proof (sh_flow _ _ B i c2 c' E2 Hc') as H3. rewrite (sh_log _ _ A) in H3.
      rewrite <- Eg. by apply H3.
Qed.

Lemma shrinks_guar s s' : shrinks s s' → guar None s s'.
Proof.
  intros H. split; [split| |].
  - intros i c Hi. pose proof (sh_objects _ _ H i) as E. rewrite Hi in E.
    destruct (bk_objects s' !! i) as [c'|]; [|done]. injection E as E1 E2. by exists c'.
  - exists []. by rewrite (sh_log _ _ H), app_nil_r.
  - by rewrite (sh_connections _ _ H).
  - intros id _ U rid r Hr E. destruct (sh_runners _ _ H rid r Hr) as (r0 & Hr0 & _ & E2 & E3).
    rewrite E3. apply (U rid r0 Hr0). congruence.
  - intros i c' Hi. destruct (shrinks_object _ _ _ _ H Hi) as (c & Hc & E & _). by exists c.
Qed.

Lemma shrinks_flows s s' : flows s → shrinks s s' → flows s'.
Proof.
  intros [F1 F2 F3 F4 F5 F6 F7 F8 F9] H. pose proof (shrinks_grant s s') as G.
  split; rewrite ?(sh_log _ _ H).
  - intros i c' Hi. destruct (shrinks_object _ _ _ _ H Hi) as (c & Hc & _ & E). rewrite E.
    apply (sh_flow _ _ H i c); [done|done|by apply F1].
  - intros i j c d Hi Hj E. destruct (shrinks_object _ _ _ _ H Hi) as (c0 & Hc0 & E1 & _).
    destruct (shrinks_object _ _ _ _ H Hj) as (d0 & Hd0 & E2 & _). apply (F2 i j c0 d0); congruence.
  - intros t i Hi. rewrite G by done. by apply F3, H.
  - intros rid i b Hi. rewrite G by done. by apply (F4 rid i b).
  - intros i b Hi. rewrite G by done. by apply (F5 i b).
  - intros i b Hi. rewrite G by done. by apply (F6 i b).
  - intros w b Hw. destruct (F7 w b Hw) as (i & c & Hi & E). pose proof (sh_objects _ _ H i) as Eo.
    rewrite Hi in Eo. destruct (bk_objects s' !! i) as [c'|] eqn:Ei; [|done]. injection Eo as E1 _.
    exists i, c'. split; [done|congruence].
  - intros w x Hw. destruct (F8 w x Hw) as (i & g & b & K). exists i, g, b. by rewrite G.
  - intros rid r Hr. destruct (sh_runners _ _ H rid r Hr) as (r0 & Hr0 & E1 & E2 & _).
    rewrite E1, E2, (sh_connections _ _ H). by apply F9.
Qed.

Lemma close_queue_ok q : zlen (close_queue q) <= RELAY_QUEUE_FRAMES_MAX
  ∧ sublist (List.filter nonempty (close_queue q)) (List.filter nonempty q).
Proof.
  induction q as [|b q [IH1 IH2]]; [by split|]. cbn [close_queue].
  destruct (zlen (b :: q) <? RELAY_QUEUE_FRAMES_MAX) eqn:E.
  - apply Z.ltb_lt in E. split; [rewrite zlen_app; change (zlen [[]]) with 1; lia|].
    rewrite List.filter_app. cbn. by rewrite app_nil_r.
  - split; [done|]. cbn [List.filter]. destruct (nonempty b); [by constructor|done].
Qed.

Lemma pop_client_shrinks t s : flows s → shrinks s (pop_client t s).1.
Proof.
  intros F. unfold pop_client. destruct (bk_clients s !! t) as [i|] eqn:Ht; [|done]. cbn [fst].
  destruct (w_object _ F t i Ht) as (g & Hg & Eg). split; cbn [with_clients bk_log bk_connections bk_runners bk_clients bk_objects]; try done.
  - eauto.
  - intros t' j Hj. by apply lookup_delete_Some in Hj as [_ Hj].
  - intros j. destruct (decide (j = i)) as [->|N]; [|by rewrite list_lookup_alter_ne].
    rewrite list_lookup_alter_eq. by destruct (bk_objects s !! i).
  - intros j c c' Hc Hc' K. destruct (decide (j = i)) as [->|N].
    + rewrite list_lookup_alter_eq, Hc in Hc'. injection Hc' as <-. destruct K as [K1 K2 K3 K4 K5 K6 K7].
      destruct (close_queue_ok (cn_queue c)) as [Q1 Q2].
      split; cbn [with_queue cn_bytes cn_queue cn_grant cn_ws]; try done.
      * transitivity (taken i (bk_log s) ++ List.filter nonempty (cn_queue c)); [by apply sublist_app|done].
      * intros Hd. unfold grant_of in Hg. rewrite Hc in Hg. injection Hg as <-. rewrite Eg, lookup_delete_eq in Hd. done.
    + rewrite list_lookup_alter_ne, Hc in Hc' by done. injection Hc' as <-. destruct K as [K1 K2 K3 K4 K5 K6 K7].
      split; try done. intros [_ Hd]%lookup_delete_Some. by apply K6.
Qed.

Lemma pop_clients_shrinks ts s : flows s → shrinks s (pop_clients ts s).1.
Proof.
  revert s. induction ts as [|t ts IH]; intros s F; [done|]. cbn [pop_clients].
  pose proof (pop_client_shrinks t s F) as H. destruct (pop_client t s) as [s1 w]. cbn [fst] in H.
  specialize (IH s1 (shrinks_flows _ _ F H)). destruct (pop_clients ts s1) as [s2 ws]. by transitivity s1.
Qed.

(** The tables after clients are popped. *)
Definition same_runners (s s' : broker) : Prop :=
  bk_runners s' = bk_runners s ∧ bk_maintenance s' = bk_maintenance s ∧ bk_acks s' = bk_acks s.

Lemma pop_client_tables t s : same_runners s (pop_client t s).1
  ∧ ∀ t', bk_clients (pop_client t s).1 !! t' = if decide (t' = t) then None else bk_clients s !! t'.
Proof.
  unfold pop_client. destruct (bk_clients s !! t) as [i|] eqn:Ht; cbn [fst]; (split; [done|]); intros t'.
  - cbn. case_decide; [subst; apply lookup_delete_eq|by apply lookup_delete_ne].
  - case_decide; [by subst|done].
Qed.

Lemma pop_clients_tables ts s : same_runners s (pop_clients ts s).1
  ∧ ∀ t', bk_clients (pop_clients ts s).1 !! t' = if decide (t' ∈ ts) then None else bk_clients s !! t'.
Proof.
  revert s. induction ts as [|t ts IH]; intros s; cbn [pop_clients].
  - split; [done|]. intros t'. rewrite decide_False by apply not_elem_of_nil. done.
  - destruct (pop_client_tables t s) as [(A1 & A2 & A3) A4]. destruct (pop_client t s) as [s1 w].
    destruct (IH s1) as [(B1 & B2 & B3) B4]. destruct (pop_clients ts s1) as [s2 ws]. cbn [fst] in *.
    split; [split_and!; congruence|]. intros t'. rewrite B4, A4.
    destruct (decide (t' ∈ ts)); [by rewrite decide_True by by right|].
    destruct (decide (t' = t)) as [->|N]; [by rewrite decide_True by by left|].
    rewrite decide_False; [done|]. rewrite elem_of_cons. tauto.
Qed.

Lemma cap_retired_bound l : zlen (cap_retired l) <= RETIRED_TRANSFERS_MAX.
Proof.
  induction l as [|x l IH]; [done|]. cbn [cap_retired].
  destruct (zlen (x :: l) <=? RETIRED_TRANSFERS_MAX) eqn:E; [by apply Z.leb_le|done].
Qed.

Lemma prune_retired_bound now l : zlen (prune_retired now l) <= zlen l.
Proof.
  induction l as [|[t at_] l IH]; [done|]. cbn [prune_retired]. case_match; [done|]. rewrite zlen_cons. lia.
Qed.

(** One runner is gone, or has no sessions left, and the clients of its
    sessions are gone. *)
Lemma consistent_drop s s' (rid : pystr) (ts : list pystr) : consistent s → (∀ i, grant_of s' i = grant_of s i) →
  (∀ rid', rid' ≠ rid → bk_runners s' !! rid' = bk_runners s !! rid') →
  (∀ r, bk_runners s' !! rid = Some r → rn_sessions r = ∅ ∧ zlen (rn_retired r) <= RETIRED_TRANSFERS_MAX) →
  (∀ t, t ∈ ts ↔ ∃ r, bk_runners s !! rid = Some r ∧ t ∈ rn_sessions r) →
  (∀ t, bk_clients s' !! t = if decide (t ∈ ts) then None else bk_clients s !! t) →
  (∀ rid', rid' ≠ rid → is_Some (bk_maintenance s' !! rid') → is_Some (bk_maintenance s !! rid')) →
  consistent s'.
Proof.
  intros [C1 C2 C3 C4 C5] G R N T K M.
  assert (Hr : ∀ rid' r, bk_runners s' !! rid' = Some r → rn_sessions r = ∅ ∧ zlen (rn_retired r) <= RETIRED_TRANSFERS_MAX
                ∨ rid' ≠ rid ∧ bk_runners s !! rid' = Some r).
  { intros rid' r Hr. destruct (decide (rid' = rid)) as [->|Ne]; [left; by apply N|right].
    by rewrite <- (R rid' Ne). }
  split.
  - intros t i Hi. rewrite K in Hi. case_decide as Ht; [done|]. destruct (C1 t i Hi) as (g & r & Hg & Et & Hr' & Hs).
    exists g, r. rewrite G. split_and!; [done|done| |done].
    rewrite R; [done|]. intros E. apply Ht, T. exists r. by rewrite <- E.
  - intros rid' r t Hr' Hs. destruct (Hr rid' r Hr') as [[E _]|[Ne Hr0]]; [by rewrite E in Hs|].
    destruct (C2 rid' r t Hr0 Hs) as (i & g & Hi & Hg & E). exists i, g. rewrite G, K.
    split_and!; [|done|done]. rewrite decide_False; [done|]. intros (r1 & Hr1 & Hs1)%T. apply Ne.
    destruct (C2 rid r1 t Hr1 Hs1) as (i' & g' & Hi' & Hg' & E'). congruence.
  - intros rid' r Hr'. destruct (Hr rid' r Hr') as [[E ?]|[_ Hr0]]; [|by apply (C3 rid')].
    rewrite E, size_empty. done.
  - intros rid' r Hm Hr'. destruct (Hr rid' r Hr') as [[E _]|[Ne Hr0]]; [done|].
    apply (C4 rid'); [by apply M|done].
  - intros rid' r Hr' Hu. destruct (Hr rid' r Hr') as [[E _]|[Ne Hr0]]; [done|by apply (C5 rid')].
Qed.

(** One session ends, with its client. *)
Lemma consistent_end s s' t i g r r' : consistent s → (∀ j, grant_of s' j = grant_of s j) →
  bk_clients s !! t = Some i → grant_of s i = Some g → bk_runners s !! gr_runner g = Some r →
  bk_runners s' = <[gr_runner g := r']> (bk_runners s) → rn_sessions r' = rn_sessions r ∖ {[t]} →
  rn_ready r' = rn_ready r → zlen (rn_retired r') <= RETIRED_TRANSFERS_MAX →
  (∀ t', bk_clients s' !! t' = if decide (t' = t) then None else bk_clients s !! t') →
  bk_maintenance s' = bk_maintenance s → consistent s'.
Proof.
  intros [C1 C2 C3 C4 C5] G Ht Hg Hr R S Y N K M. split; rewrite ?R, ?M.
  - intros t' j Hj. rewrite K in Hj. case_decide as E; [done|]. destruct (C1 t' j Hj) as (g' & r0 & Hg' & Et & Hr0 & Hs).
    exists g'. destruct (decide (gr_runner g' = gr_runner g)) as [Eg|Eg].
    + exists r'. rewrite G, Eg, lookup_insert_eq, S. split_and!; [done|done|done|].
      apply elem_of_difference. split; [congruence|set_solver].
    + exists r0. rewrite G, lookup_insert_ne by done. by split_and!.
  - intros rid r0 t' Hr0 Hs. assert (Hs' : ∃ r1, bk_runners s !! rid = Some r1 ∧ t' ∈ rn_sessions r1 ∧ (rid = gr_runner g → t' ≠ t)).
    { apply lookup_insert_Some in Hr0 as [[<- <-]|[Ne Hr0]]; [|by exists r0].
      exists r. rewrite S in Hs. set_solver. }
    destruct Hs' as (r1 & Hr1 & Hs1 & Hne). destruct (C2 rid r1 t' Hr1 Hs1) as (j & g' & Hj & Hg' & E).
    exists j, g'. rewrite G, K. split_and!; [|done|done]. rewrite decide_False; [done|]. intros ->.
    simplify_eq. by apply Hne.
  - intros rid r0 [[<- <-]|[Ne Hr0]]%lookup_insert_Some; [|by apply (C3 rid)].
    split; [|done]. destruct (C3 _ _ Hr) as [B _]. rewrite S.
    pose proof (subseteq_size (rn_sessions r ∖ {[t]}) (rn_sessions r) ltac:(set_solver)). lia.
  - intros rid r0 Hm [[<- <-]|[Ne Hr0]]%lookup_insert_Some; [|by apply (C4 rid)].
    rewrite S, (C4 _ _ Hm Hr). set_solver.
  - intros rid r0 [[<- <-]|[Ne Hr0]]%lookup_insert_Some Hu; [|by apply (C5 rid)].
    rewrite S, (C5 _ _ Hr); [set_solver|congruence].
Qed.

Section Relay.
Context (clock : nat → Z) (set_order : gset pystr → list pystr).
Hypothesis ORDER : ∀ X, set_order X ≡ₚ elements X.

Lemma in_order t X : t ∈ set_order X ↔ t ∈ X.
Proof. by rewrite ORDER, elem_of_elements. Qed.

Lemma end_session_shrinks rid t s : shrinks s (end_session clock rid t s).
Proof.
  unfold end_session. destruct (bk_runners s !! rid) as [r|] eqn:Hr; [|done]. split; try done.
  - intros rid' r'. cbn. intros [[<- <-]|[Ne H]]%lookup_insert_Some; [by exists r|by exists r'].
  - intros i c c' H1 H2 H. cbn in *. by simplify_eq.
Qed.

(** The tables after sessions of one runner end. *)
Lemma end_session_tables rid t s : bk_clients (end_session clock rid t s) = bk_clients s
  ∧ bk_maintenance (end_session clock rid t s) = bk_maintenance s
  ∧ bk_runners (end_session clock rid t s) = match bk_runners s !! rid with
      | Some r => <[rid := with_sessions (rn_sessions r ∖ {[t]})
                     (retire_transfer (clock (bk_clock s)) t (rn_retired r)) r]> (bk_runners s)
      | None => bk_runners s
      end.
Proof. unfold end_session. by destruct (bk_runners s !! rid). Qed.

Lemma retire_bound now t l : zlen (retire_transfer now t l) <= RETIRED_TRANSFERS_MAX.
Proof. apply cap_retired_bound. Qed.

Lemma end_sessions_shrinks rid ts s : flows s → shrinks s (end_sessions clock rid ts s).1.
Proof.
  revert s. induction ts as [|t ts IH]; intros s F; [done|]. cbn [end_sessions].
  pose proof (pop_client_shrinks t s F) as H. destruct (pop_client t s) as [s1 w]. cbn [fst] in H.
  pose proof (end_session_shrinks rid t s1) as H1.
  specialize (IH _ (shrinks_flows _ _ (shrinks_flows _ _ F H) H1)).
  destruct (end_sessions _ _ _ _) as [s2 ws]. cbn [fst] in *. transitivity s1; [done|].
  by transitivity (end_session clock rid t s1).
Qed.

Lemma end_sessions_tables rid ts s r : bk_runners s !! rid = Some r → zlen (rn_retired r) <= RETIRED_TRANSFERS_MAX →
  let s' := (end_sessions clock rid ts s).1 in
  bk_maintenance s' = bk_maintenance s
  ∧ (∀ rid', rid' ≠ rid → bk_runners s' !! rid' = bk_runners s !! rid')
  ∧ (∀ t, bk_clients s' !! t = if decide (t ∈ ts) then None else bk_clients s !! t)
  ∧ ∃ r', bk_runners s' !! rid = Some r' ∧ (∀ t, t ∈ rn_sessions r' ↔ t ∈ rn_sessions r ∧ t ∉ ts)
          ∧ zlen (rn_retired r') <= RETIRED_TRANSFERS_MAX.
Proof.
  revert s r. induction ts as [|t ts IH]; intros s r Hr Hb; cbn zeta; cbn [end_sessions].
  - split_and!; [done|done|intros t; by rewrite decide_False by apply not_elem_of_nil|].
    exists r. split_and!; [done| |done]. intros t. rewrite elem_of_nil. tauto.
  - destruct (pop_client_tables t s) as [(A1 & A2 & A3) A4]. destruct (pop_client t s) as [s1 w].
    destruct (end_session_tables rid t s1) as (B1 & B2 & B3). cbn [fst] in *. rewrite A1, Hr in B3.
    edestruct (IH (end_session clock rid t s1)) as (K1 & K2 & K3 & r' & K4 & K5 & K6);
      [rewrite B3; apply lookup_insert_eq|apply retire_bound|].
    destruct (end_sessions _ _ _ _) as [s2 ws]. cbn [fst] in *. split_and!.
    + congruence.
    + intros rid' Ne. rewrite K2, B3, lookup_insert_ne by done. done.
    + intros t'. rewrite K3, B1, A4. destruct (decide (t' ∈ ts)); [by rewrite decide_True by by right|].
      destruct (decide (t' = t)) as [->|N]; [by rewrite decide_True by by left|].
      rewrite decide_False; [done|]. rewrite elem_of_cons. tauto.
    + exists r'. split_and!; [done| |done]. intros t'. rewrite K5. cbn [with_sessions rn_sessions].
      rewrite elem_of_difference, elem_of_singleton, not_elem_of_cons. tauto.
Qed.

(** *** Runners *)

Lemma register_id_unready s : flows s → unready (bk_connections s) s.
Proof. intros F rid r Hr E. destruct (w_runner _ F rid r Hr) as [_ H]. lia. Qed.

Lemma sessions_listed s rid r : bk_runners s !! rid = Some r → ∀ t, t ∈ set_order (rn_sessions r) ↔
  ∃ r0, bk_runners s !! rid = Some r0 ∧ t ∈ rn_sessions r0.
Proof. intros Hr t. rewrite in_order. split; [eauto|]. intros (r0 & H & ?). by simplify_eq. Qed.

(** Popping the clients of a runner's sessions before the runner changes. *)
Definition popped (rid : pystr) (s s' : broker) : Prop :=
  shrinks s s' ∧ same_runners s s' ∧
  ∃ ts : list pystr, (∀ t, t ∈ ts ↔ ∃ r, bk_runners s !! rid = Some r ∧ t ∈ rn_sessions r)
        ∧ ∀ t, bk_clients s' !! t = if decide (t ∈ ts) then None else bk_clients s !! t.

Lemma popped_sessions rid r s : flows s → bk_runners s !! rid = Some r →
  popped rid s (pop_clients (set_order (rn_sessions r)) s).1.
Proof.
  intros F Hr. destruct (pop_clients_tables (set_order (rn_sessions r)) s) as [A B].
  split_and!; [by apply pop_clients_shrinks|exact A|].
  exists (set_order (rn_sessions r)). split; [by apply sessions_listed|done].
Qed.

Lemma popped_none rid s : bk_runners s !! rid = None → popped rid s s.
Proof.
  intros Hr. split_and!; [done|done|]. exists []. split.
  - intros t. rewrite elem_of_nil. split; [done|]. intros (r & H & _). congruence.
  - intros t. by rewrite decide_False by apply not_elem_of_nil.
Qed.

(** Registration: the new connection is owned by its task. *)
Lemma flows_register rid id w s s1 : flows s → shrinks s s1 → bk_runners s1 = bk_runners s →
  id = bk_connections s →
  flows (put_runner rid {| rn_id := id; rn_ws := w; rn_ready := false; rn_sessions := ∅; rn_retired := [] |}
           (note (Registered rid w) (new_connection s1))).
Proof.
  intros F Sh R ->. pose proof (shrinks_flows _ _ F Sh) as F1.
  assert (F2 : flows (note (Registered rid w) s1)) by (by apply note_flows).
  destruct F2 as [G1 G2 G3 G4 G5 G6 G7 G8 G9]. split; try done. cbn. intros rid' r.
  intros [[<- <-]|[Ne Hr]]%lookup_insert_Some; cbn.
  - rewrite in_snoc, (sh_connections _ _ Sh). split; [by right|lia].
  - destruct (G9 rid' r Hr) as [A B]. cbn in *. split; [done|lia].
Qed.

Lemma popped_grant rid s s' i : popped rid s s' → grant_of s' i = grant_of s i.
Proof. intros [H _]. by apply shrinks_grant. Qed.

(** A section that pops the clients of a runner and replaces or removes it. *)
Lemma popped_consistent rid s s1 s' : consistent s → popped rid s s1 →
  bk_clients s' = bk_clients s1 → bk_objects s' = bk_objects s1 →
  (∀ rid', rid' ≠ rid → bk_runners s' !! rid' = bk_runners s !! rid') →
  (∀ r, bk_runners s' !! rid = Some r → rn_sessions r = ∅ ∧ zlen (rn_retired r) <= RETIRED_TRANSFERS_MAX) →
  (∀ rid', rid' ≠ rid → is_Some (bk_maintenance s' !! rid') → is_Some (bk_maintenance s !! rid')) →
  consistent s'.
Proof.
  intros C P Ec Eo R N M. assert (G : ∀ i, grant_of s1 i = grant_of s i) by (intros i; by apply (popped_grant rid)).
  destruct P as (Sh & _ & ts & T & K).
  apply (consistent_drop s s' rid ts); try done.
  - intros i. unfold grant_of. rewrite Eo. by apply G.
  - intros t. by rewrite Ec.
Qed.

Lemma shrinks_weaken s s1 s' : shrinks s s1 → bk_log s' = bk_log s1 → bk_connections s' = bk_connections s1 →
  bk_clients s' = bk_clients s1 → bk_objects s' = bk_objects s1 →
  (∀ rid r, bk_runners s' !! rid = Some r → bk_runners s1 !! rid = Some r) → shrinks s s'.
Proof.
  intros Sh El En Ec Eo R. transitivity s1; [done|]. split; rewrite ?Ec, ?Eo; try done.
  - intros rid r Hr. exists r. split_and!; [by apply R|done..].
  - intros i c c' H1 H2 H. by simplify_eq.
Qed.

Lemma register_section_ok rid w job s : ok s →
  ok (register_section set_order rid w job s).1 ∧ guar None s (register_section set_order rid w job s).1
  ∧ ∃ g, (register_section set_order rid w job s).2 = Ok g ∧ rg_candidate g = bk_connections s
    ∧ (bk_connections s < bk_connections (register_section set_order rid w job s).1)%nat
    ∧ unready (bk_connections s) (register_section set_order rid w job s).1.
Proof.
  intros [C F]. unfold register_section.
  assert (P : ∃ s1 cl, match bk_runners s !! rid with
                       | Some p => pop_clients (set_order (rn_sessions p)) s
                       | None => (s, []) end = (s1, cl) ∧ popped rid s s1).
  { destruct (bk_runners s !! rid) as [r|] eqn:Hr; [|exists s, []; by split; [|apply popped_none]].
    pose proof (popped_sessions rid r s F Hr) as P. destruct (pop_clients _ s) as [s1 cl]. by exists s1, cl. }
  destruct P as (s1 & cl & -> & P). pose proof P as (Sh & (R & M & A) & _).
  rewrite (sh_connections _ _ Sh). set (id := bk_connections s).
  set (c := {| rn_id := id; rn_ws := w; rn_ready := false; rn_sessions := ∅; rn_retired := [] |}).
  set (s2 := put_runner rid c (note (Registered rid w) (new_connection s1))).
  assert (F2 : flows s2) by (by apply (flows_register rid id w s s1)).
  assert (U : ∀ j, unready j s → unready j s2).
  { intros j H rid' r. cbn. rewrite R. intros [[<- <-]|[Ne Hr]]%lookup_insert_Some; [done|]. by apply (H rid'). }
  assert (G2 : guar None s s2).
  { split; [|by intros j _; apply U|apply (gu_objects _ _ _ (shrinks_guar _ _ Sh))]. destruct (gu_grows _ _ _ (shrinks_guar _ _ Sh)) as [A1 [l A2] A3].
    split; [done| |cbn; rewrite (sh_connections _ _ Sh); lia]. exists (l ++ [Registered rid w]). cbn. by rewrite A2, app_assoc. }
  assert (C2 : ∀ m, (∀ rid', rid' ≠ rid → is_Some (m !! rid') → is_Some (bk_maintenance s !! rid')) →
             ∀ a, consistent (with_maintenance m (with_acks a s2))).
  { intros m Hm a. apply (popped_consistent rid s s1); try done; cbn.
    - intros rid' N. by rewrite R, lookup_insert_ne.
    - intros r. rewrite lookup_insert_eq. intros [= <-]. done. }
  assert (Hlt : (id < bk_connections s2)%nat) by (cbn; rewrite (sh_connections _ _ Sh); unfold id; lia).
  assert (Uid : unready id s2) by (by apply U, register_id_unready).
  destruct (bk_maintenance s2 !! rid) as [m|] eqn:Em; [|destruct job as [j|]]; cbn [fst snd].
  - split_and!; [split; [|done]| |eexists; split_and!; [done|done|exact Hlt|done]].
    + apply (C2 (bk_maintenance s2)) with (a := bk_acks s2). cbn. by rewrite M.
    + exact G2.
  - split_and!; [split; [|by destruct F2]| |eexists; split_and!; [done|done|exact Hlt|done]].
    + apply C2. intros rid' N. rewrite lookup_insert_ne by done. cbn. by rewrite M.
    + destruct G2 as [[] ? ?]. by split.
  - split_and!; [split; [|done]| |eexists; split_and!; [done|done|exact Hlt|done]].
    + apply (C2 (bk_maintenance s2)) with (a := bk_acks s2). cbn. by rewrite M.
    + exact G2.
Qed.

Lemma forget_candidate_ok rid id s : ok s → unready id s → ok (forget_candidate rid id s).1
  ∧ guar None s (forget_candidate rid id s).1.
Proof.
  intros [C F] U. unfold forget_candidate, is_candidate. cbn [fst].
  destruct (bk_runners s !! rid) as [r|] eqn:Hr; [|done]. destruct (Nat.eqb_spec (rn_id r) id) as [E|E]; [|done].
  assert (Hs : rn_sessions r = ∅) by (by apply (c_unready _ C rid), (U rid)).
  assert (P : popped rid s s).
  { split_and!; [done|done|]. exists []. split; [|intros t; by rewrite decide_False by apply not_elem_of_nil].
    intros t. rewrite elem_of_nil. split; [done|]. intros (r' & H & Ht). simplify_eq. by rewrite Hs in Ht. }
  assert (Sh : shrinks s (with_runners (delete rid (bk_runners s)) s)).
  { apply (shrinks_weaken s s); try done. intros rid' r' H. cbn in H. by apply lookup_delete_Some in H as [_ H]. }
  split; [split; [|by apply (shrinks_flows s)]|by apply shrinks_guar].
  apply (popped_consistent rid s s); try done; cbn.
  - intros rid' N. by apply lookup_delete_ne.
  - intros r'. by rewrite lookup_delete_eq.
Qed.

Lemma ready_candidate_ok rid id s : ok s → ok (ready_candidate rid id s).1
  ∧ guar (Some id) s (ready_candidate rid id s).1.
Proof.
  intros [C F]. unfold ready_candidate. cbn [fst]. destruct (bk_runners s !! rid) as [r|] eqn:Hr; [|done].
  destruct (Nat.eqb_spec (rn_id r) id) as [E|E]; [|done].
  set (r' := {| rn_id := rn_id r; rn_ws := rn_ws r; rn_ready := true; rn_sessions := rn_sessions r;
                rn_retired := rn_retired r |}).
  assert (L : ∀ rid2 r2, bk_runners (put_runner rid r' s) !! rid2 = Some r2 → ∃ r1, bk_runners s !! rid2 = Some r1
    ∧ rn_ws r2 = rn_ws r1 ∧ rn_id r2 = rn_id r1 ∧ rn_sessions r2 = rn_sessions r1 ∧ rn_retired r2 = rn_retired r1
    ∧ (rn_ready r2 = rn_ready r1 ∨ rn_id r2 = id ∧ rn_ready r2 = true)).
  { cbn. intros rid2 r2 [[<- <-]|[Ne H]]%lookup_insert_Some; [exists r|exists r2; split_and!; try done; by left].
    split_and!; try done. right. by split. }
  split; [split|].
  - destruct C as [C1 C2 C3 C4 C5]. split.
    + intros t i Hi. destruct (C1 t i Hi) as (g & r1 & K1 & K2 & K3 & K4). exists g. cbn.
      destruct (decide (gr_runner g = rid)) as [E2|N]; [|exists r1; by rewrite lookup_insert_ne].
      exists r'. rewrite E2, lookup_insert_eq. rewrite E2, Hr in K3. injection K3 as <-. by split_and!.
    + intros rid2 r2 t Hr2 Ht. destruct (L _ _ Hr2) as (r1 & H1 & _ & _ & E1 & _). rewrite E1 in Ht. by apply (C2 rid2 r1).
    + intros rid2 r2 Hr2. destruct (L _ _ Hr2) as (r1 & H1 & _ & _ & -> & -> & _). by apply (C3 rid2).
    + intros rid2 r2 Hm Hr2. destruct (L _ _ Hr2) as (r1 & H1 & _ & _ & -> & _). by apply (C4 rid2).
    + intros rid2 r2 Hr2 Hu. destruct (L _ _ Hr2) as (r1 & H1 & _ & _ & -> & _ & [E2|[_ E2]]); [|congruence].
      apply (C5 rid2); [done|congruence].
  - destruct F as [F1 F2 F3 F4 F5 F6 F7 F8 F9]. split; try done. intros rid2 r2 Hr2.
    destruct (L _ _ Hr2) as (r1 & H1 & -> & -> & _). by apply F9.
  - split; [split; [eauto|exists []; by rewrite app_nil_r|done]| |cbn; eauto]. intros j N U rid2 r2 Hr2 Ej.
    destruct (L _ _ Hr2) as (r1 & H1 & _ & E2 & _ & _ & [E3|[E3 _]]); [|congruence].
    rewrite E3. apply (U rid2); [done|congruence].
Qed.

Definition ends : res bool → option nat → broker → Prop := fun _ _ _ => True.

Lemma calm_safe p s : calm p → ok s → safe ends p None s.
Proof. intros Hp Hs. eapply safe_weaken; [|by apply Hp]. by intros. Qed.

Lemma register_safe rid w durable s : ok s → safe ends (register_runner set_order rid w durable) None s.
Proof.
  intros Hs. unfold register_runner. destruct (require_runner_id rid); [|done]. destruct durable as [job|e]; [|done].
  destruct (register_section_ok rid w job s Hs) as (H1 & H2 & g & Hg & Ec & Hn & U).
  cbn [lift locked safe]. rewrite Hg. split_and!; [done|done|].
  exists (Some (rg_candidate g)). split; [right; exists (rg_candidate g); rewrite Ec; split_and!; [done|done|done|exact Hn]|].
  rewrite <- Ec in U. set (s1 := (register_section set_order rid w job s).1) in *.
  apply safe_bind. eapply safe_weaken; [|apply (calm_seq _ _) with (s := s1); [..|done]].
  - intros [b|e] o s2 (-> & Hs2 & R).
    + destruct (ready_candidate_ok rid (rg_candidate g) s2 Hs2) as [A B].
      split_and!; [done|done|]. exists (Some (rg_candidate g)). split; [by left|exact I].
    + pose proof (rl_own _ _ _ R _ eq_refl U) as U2.
      destruct (forget_candidate_ok rid (rg_candidate g) s2 Hs2 U2) as [A B].
      split_and!; [done|by apply guar_any|]. exists (Some (rg_candidate g)). split; [by left|exact I].
  - destruct (rg_previous g); eauto with relay.
  - apply calm_seq; [eauto with relay|]. destruct (rg_job g); eauto with relay.
Qed.

(** *** Sections that only drop sessions *)

Lemma unchanged s : ok s → ok s ∧ guar None s s.
Proof. intros H. by split. Qed.

Lemma unregister_section_ok rid w : section_ok (unregister_section set_order rid w).
Proof.
  intros s Hs. pose proof Hs as [C F]. unfold unregister_section. destruct (bk_runners s !! rid) as [r|] eqn:Hr; [|by apply unchanged].
  destruct (rn_ws r =? w)%nat; [|by apply unchanged].
  set (s0 := with_runners (delete rid (bk_runners s)) s).
  assert (Sh0 : shrinks s s0).
  { apply (shrinks_weaken s s); try done. intros rid' r' H. cbn in H. by apply lookup_delete_Some in H as [_ H]. }
  pose proof (shrinks_flows _ _ F Sh0) as F0.
  pose proof (pop_clients_shrinks (set_order (rn_sessions r)) s0 F0) as Sh.
  destruct (pop_clients_tables (set_order (rn_sessions r)) s0) as [(R & M & A) K].
  destruct (pop_clients _ s0) as [s1 cl]. cbn [fst] in *.
  assert (Sh1 : shrinks s s1) by (by transitivity s0).
  split; [split; [|by apply (shrinks_flows s)]|by apply shrinks_guar].
  apply (consistent_drop s s1 rid (set_order (rn_sessions r))); try done.
  - intros i. by apply shrinks_grant.
  - intros rid' N. rewrite R. by apply lookup_delete_ne.
  - intros r'. rewrite R. cbn. by rewrite lookup_delete_eq.
  - by apply sessions_listed.
  - intros rid' _. by rewrite M.
Qed.

Lemma disconnect_section_ok rid : section_ok (disconnect_section set_order rid).
Proof.
  intros s [C F]. unfold disconnect_section.
  set (s0 := with_maintenance (delete rid (bk_maintenance s)) (with_runners (delete rid (bk_runners s)) s)).
  assert (Sh0 : shrinks s s0).
  { apply (shrinks_weaken s s); try done. intros rid' r' H. cbn in H. by apply lookup_delete_Some in H as [_ H]. }
  pose proof (shrinks_flows _ _ F Sh0) as F0.
  assert (Hm : ∀ rid', rid' ≠ rid → is_Some (delete rid (bk_maintenance s) !! rid') → is_Some (bk_maintenance s !! rid')).
  { intros rid' N. by rewrite lookup_delete_ne. }
  destruct (bk_runners s !! rid) as [r|] eqn:Hr.
  - pose proof (pop_clients_shrinks (set_order (rn_sessions r)) s0 F0) as Sh.
    destruct (pop_clients_tables (set_order (rn_sessions r)) s0) as [(R & M & A) K].
    destruct (pop_clients _ s0) as [s1 cl]. cbn [fst] in *.
    assert (Sh1 : shrinks s s1) by (by transitivity s0).
    split; [split; [|by apply (shrinks_flows s)]|by apply shrinks_guar].
    apply (consistent_drop s s1 rid (set_order (rn_sessions r))); try done.
    + intros i. by apply shrinks_grant.
    + intros rid' N. rewrite R. by apply lookup_delete_ne.
    + intros r'. rewrite R. cbn. by rewrite lookup_delete_eq.
    + by apply sessions_listed.
    + intros rid' N. rewrite M. by apply Hm.
  - split; [split; [|done]|by apply shrinks_guar].
    apply (popped_consistent rid s s); try done; [by apply popped_none|..]; cbn.
    + intros rid' N. by apply lookup_delete_ne.
    + intros r'. by rewrite lookup_delete_eq.
Qed.

(** Changes of the maintenance table that fence no runner with sessions. *)
Lemma maintenance_ok s m a : ok s →
  (∀ rid r, is_Some (m !! rid) → bk_runners s !! rid = Some r → rn_sessions r = ∅) →
  ok (with_maintenance m (with_acks a s)) ∧ guar None s (with_maintenance m (with_acks a s)).
Proof.
  intros [[C1 C2 C3 C4 C5] F] H. split; [split; [by split|by destruct F]|].
  split; [split; [eauto|exists []; by rewrite app_nil_r|done]|done|cbn; eauto].
Qed.

Lemma forget_maintenance_ok rid ack : section_ok (forget_maintenance rid ack).
Proof.
  intros s Hs. unfold forget_maintenance. cbn [fst]. destruct (bk_maintenance s !! rid); [|by apply unchanged].
  destruct (_ =? _)%nat; [|by apply unchanged]. apply (maintenance_ok s _ (bk_acks s) Hs).
  intros rid' r Hm. apply (c_fence _ (ok_tables _ Hs)). destruct Hm as [x Hx].
  apply lookup_delete_Some in Hx as [_ Hx]. by exists x.
Qed.

Lemma release_section_ok rid job : section_ok (release_section rid job).
Proof.
  intros s Hs. unfold release_section. destruct (bk_maintenance s !! rid); [|by apply unchanged].
  case_bool_decide; [|by apply unchanged]. destruct (default false _); [|by apply unchanged].
  apply (maintenance_ok s _ (bk_acks s) Hs).
  intros rid' r Hm. apply (c_fence _ (ok_tables _ Hs)). destruct Hm as [x Hx].
  apply lookup_delete_Some in Hx as [_ Hx]. by exists x.
Qed.

Lemma quiesced_section_ok rid job : section_ok (quiesced_section rid job).
Proof.
  intros s Hs. unfold quiesced_section. destruct (bk_maintenance s !! rid) as [m|]; [|by apply unchanged].
  case_bool_decide; [|by apply unchanged]. apply (maintenance_ok s (bk_maintenance s) _ Hs). apply Hs.
Qed.

Lemma quiesce_section_ok rid job : section_ok (quiesce_section clock set_order rid job).
Proof.
  intros s Hs. unfold quiesce_section. destruct (bk_runners s !! rid) as [r|] eqn:Hr; [|by apply unchanged].
  assert (Hgo : ∀ m a, (∀ rid', rid' ≠ rid → is_Some (m !! rid') → is_Some (bk_maintenance s !! rid')) →
    let s' := (end_sessions clock rid (set_order (rn_sessions r)) (with_maintenance m (with_acks a s))).1 in
    ok s' ∧ guar None s s').
  { intros m a Hm s'. destruct Hs as [C F]. set (s0 := with_maintenance m (with_acks a s)) in *.
    assert (Sh0 : shrinks s s0) by (by apply (shrinks_weaken s s)).
    assert (Sh : shrinks s s') by (transitivity s0; [done|by apply end_sessions_shrinks, (shrinks_flows s)]).
    split; [split; [|by apply (shrinks_flows s)]|by apply shrinks_guar].
    destruct (end_sessions_tables rid (set_order (rn_sessions r)) s0 r) as (K1 & K2 & K3 & r' & K4 & K5 & K6);
      [done|by apply (proj2 (c_bound _ C rid r Hr))|]. fold s' in K1, K2, K3, K4.
    apply (consistent_drop s s' rid (set_order (rn_sessions r))); try done.
    - intros i. by apply shrinks_grant.
    - rewrite K4. intros r2 [= <-]. split; [|done]. apply set_eq. intros t. rewrite K5, in_order. set_solver.
    - by apply sessions_listed.
    - intros rid' N. rewrite K1. by apply Hm. }
  destruct (bk_maintenance s !! rid) as [m|] eqn:Hm.
  - case_bool_decide; [|by apply unchanged]. destruct (default false _); [by apply unchanged|].
    specialize (Hgo (bk_maintenance s) (bk_acks s) ltac:(done)).
    replace (with_maintenance (bk_maintenance s) (with_acks (bk_acks s) s)) with s in Hgo by (by destruct s).
    by destruct (end_sessions _ _ _ _).
  - specialize (Hgo (<[rid := {| mt_job := job; mt_ack := length (bk_acks s) |}]> (bk_maintenance s))
      (bk_acks s ++ [false])).
    destruct (end_sessions _ _ _ _). apply Hgo. intros rid' N. by rewrite lookup_insert_ne.
Qed.

(** *** Clients *)

Lemma end_client_ok t i c s : ok s → bk_clients s !! t = Some i → bk_objects s !! i = Some c →
  let s' := end_session clock (gr_runner (cn_grant c)) t (pop_client t s).1 in ok s' ∧ guar None s s'.
Proof.
  intros [C F] Ht Hi. pose proof (pop_client_shrinks t s F) as Sh1.
  destruct (pop_client_tables t s) as [(R & M & A) K]. destruct (pop_client t s) as [s1 w]. cbn [fst] in *.
  set (rid := gr_runner (cn_grant c)). pose proof (end_session_shrinks rid t s1) as Sh2.
  destruct (end_session_tables rid t s1) as (B1 & B2 & B3).
  assert (Sh : shrinks s (end_session clock rid t s1)) by (by transitivity s1).
  destruct (c_client _ C t i Ht) as (g & r & Hg & Eg & Hr & Hs). unfold grant_of in Hg. rewrite Hi in Hg.
  injection Hg as <-. fold rid in Hr. rewrite R, Hr in B3.
  split; [split; [|by apply (shrinks_flows s)]|by apply shrinks_guar].
  assert (G : grant_of s i = Some (cn_grant c)) by (unfold grant_of; by rewrite Hi).
  apply (consistent_end s _ t i (cn_grant c) r _ C (fun j => shrinks_grant _ _ j Sh) Ht G Hr B3).
  - done.
  - done.
  - apply retire_bound.
  - intros t'. rewrite B1. apply K.
  - congruence.
Qed.

Lemma detach_section_ok t w : section_ok (detach_section clock t w).
Proof.
  intros s Hs. unfold detach_section. destruct (bk_clients s !! t) as [i|] eqn:Ht; [|by apply unchanged].
  destruct (bk_objects s !! i) as [c|] eqn:Hi; [|by apply unchanged].
  destruct (cn_ws c =? w)%nat; [|by apply unchanged]. by apply (end_client_ok t i c).
Qed.

Lemma closed_section_ok rid t : section_ok (closed_section clock rid t).
Proof.
  intros s Hs. unfold closed_section. destruct (bk_runners s !! rid) as [r|]; [|by apply unchanged].
  destruct (bk_clients s !! t) as [i|] eqn:Ht; [|by apply unchanged]. cbn [mbind option_bind].
  destruct (bk_objects s !! i) as [c|] eqn:Hi; [|by apply unchanged].
  case_bool_decide as E; [|by apply unchanged]. pose proof (end_client_ok t i c s Hs Ht Hi) as H. rewrite E in H.
  by destruct (pop_client t s).
Qed.

Lemma sender_section_ok t : section_ok (sender_section t).
Proof. intros s Hs. by apply unchanged. Qed.

Lemma is_retired_ok rid t : section_ok (is_retired clock rid t).
Proof.
  intros s Hs. unfold is_retired. destruct (bk_runners s !! rid) as [r|] eqn:Hr; [|by apply unchanged].
  cbn [fst]. destruct Hs as [C F]. set (l := prune_retired _ _). set (s' := put_runner _ _ _).
  assert (Sh : shrinks s s').
  { split; try done.
    - cbn. intros rid' r' [[<- <-]|[Ne H]]%lookup_insert_Some; [by exists r|by exists r'].
    - intros i c c' H1 H2 H. cbn in *. by simplify_eq. }
  split; [split; [|by apply (shrinks_flows s)]|by apply shrinks_guar].
  assert (L : ∀ rid2 r2, bk_runners s' !! rid2 = Some r2 → ∃ r1, bk_runners s !! rid2 = Some r1
    ∧ rn_sessions r2 = rn_sessions r1 ∧ rn_ready r2 = rn_ready r1 ∧ zlen (rn_retired r2) <= zlen (rn_retired r1)).
  { intros rid2 r2 H2. cbn in H2. apply lookup_insert_Some in H2 as [[<- <-]|[Ne H]]; [exists r|exists r2; split_and!; [done..|lia]].
    split_and!; [done|done|done|]. apply prune_retired_bound. }
  destruct C as [C1 C2 C3 C4 C5]. split.
  - intros t' i Hi. destruct (C1 t' i Hi) as (g & r1 & K1 & K2 & K3 & K4). exists g. cbn.
    destruct (decide (gr_runner g = rid)) as [E|N]; [|by exists r1; rewrite lookup_insert_ne].
    eexists. rewrite E, lookup_insert_eq. rewrite E, Hr in K3. injection K3 as <-.
    split_and!; [exact K1|exact K2|reflexivity|exact K4].
  - intros rid2 r2 t' Hr2 Ht. destruct (L _ _ Hr2) as (r1 & H1 & E1 & _). rewrite E1 in Ht. by apply (C2 rid2 r1).
  - intros rid2 r2 Hr2. destruct (L _ _ Hr2) as (r1 & H1 & -> & _ & B). destruct (C3 rid2 r1 H1). split; [done|lia].
  - intros rid2 r2 Hm Hr2. destruct (L _ _ Hr2) as (r1 & H1 & -> & _). by apply (C4 rid2).
  - intros rid2 r2 Hr2 Hu. destruct (L _ _ Hr2) as (r1 & H1 & -> & E2 & _). apply (C5 rid2); [done|congruence].
Qed.

(** A new client on a socket that has none. *)
Definition fresh_socket (w : nat) (s : broker) : Prop := ∀ i c, bk_objects s !! i = Some c → cn_ws c ≠ w.

Lemma attach_flows g w s r : flows s → fresh_socket w s → bk_clients s !! gr_transfer g = None →
  bk_runners s !! gr_runner g = Some r →
  flows (with_clients (<[gr_transfer g := length (bk_objects s)]> (bk_clients s))
           (bk_objects s ++ [{| cn_ws := w; cn_grant := g; cn_queue := []; cn_bytes := 0 |}])
           (put_runner (gr_runner g) (with_sessions ({[gr_transfer g]} ∪ rn_sessions r) (rn_retired r) r) s)).
Proof.
  intros [F1 F2 F3 F4 F5 F6 F7 F8 F9] Hw Hn Hr. set (n := length (bk_objects s)).
  set (c := {| cn_ws := w; cn_grant := g; cn_queue := []; cn_bytes := 0 |}).
  assert (Ho : ∀ i d, (bk_objects s ++ [c]) !! i = Some d → bk_objects s !! i = Some d ∨ i = n ∧ d = c).
  { intros i d [H|[Hl H]]%lookup_app_Some; [by left|right]. apply list_lookup_singleton_Some in H as [H <-].
    split; [unfold n; lia|done]. }
  assert (Hold : ∀ i d, bk_objects s !! i = Some d → (bk_objects s ++ [c]) !! i = Some d).
  { intros i d H. by apply lookup_app_l_Some. }
  assert (Hnew : (bk_objects s ++ [c]) !! n = Some c) by (unfold n; by rewrite lookup_app_r, Nat.sub_diag).
  assert (Hlt : ∀ i d, bk_objects s !! i = Some d → (i < n)%nat) by (intros i d H; by apply lookup_lt_Some in H).
  assert (Hlg : ∀ i x, grant_of s i = Some x → (i < n)%nat).
  { intros i x. unfold grant_of. destruct (bk_objects s !! i) eqn:E; [|done]. intros _. by apply (Hlt _ _ E). }
  assert (Hg : ∀ i x, grant_of s i = Some x → cn_grant <$> (bk_objects s ++ [c]) !! i = Some x).
  { intros i x. unfold grant_of. destruct (bk_objects s !! i) as [d|] eqn:E; [|done]. by rewrite (Hold _ _ E). }
  split; unfold grant_of; cbn [with_clients bk_objects bk_clients bk_log bk_runners bk_connections put_runner with_runners].
  - intros i d [Hi|[-> ->]]%Ho.
    + pose proof (F1 i d Hi) as [K1 K2 K3 K4 K5 K6 K7]. split; try done.
      intros [[_ E]|[_ E]]%lookup_insert_Some; [|by apply K6]. pose proof (Hlt _ _ Hi). unfold n in *. lia.
    + assert (Q : queued n (bk_log s) = []).
      { apply omap_none. intros e He. destruct e as [|rid j b| | | | |]; try done. cbn.
        destruct (Nat.eqb_spec j n) as [->|]; [|done]. destruct (F4 _ _ _ He) as (x & Hx & _). apply Hlg in Hx. lia. }
      assert (T : taken n (bk_log s) = []).
      { apply omap_none. intros e He. destruct e as [| | |j b| | |]; try done. cbn.
        destruct (Nat.eqb_spec j n) as [->|]; [|done]. destruct (F5 _ _ He) as (x & Hx). apply Hlg in Hx. lia. }
      assert (A : accepted n (bk_log s) = []).
      { apply omap_none. intros e He. destruct e as [| |j b| | | |]; try done. cbn.
        destruct (Nat.eqb_spec j n) as [->|]; [|done]. destruct (F6 _ _ He) as (x & Hx). apply Hlg in Hx. lia. }
      split; cbn [cn_bytes cn_grant cn_queue cn_ws]; unfold traffic; rewrite ?Q, ?T, ?A; try done; [apply Z.le_max_l|].
      apply omap_none. intros e He. destruct e as [| | | | |sk b|]; try done. cbn.
      case_bool_decide as E; [|done]. subst. destruct (F7 _ _ He) as (i & d & Hi & Ed). by destruct (Hw i d Hi).
  - intros i j d e Hi Hj E. apply Ho in Hi as [Hi|[-> ->]], Hj as [Hj|[-> ->]].
    + by apply (F2 i j d e).
    + by destruct (Hw i d Hi).
    + by destruct (Hw j e Hj).
    + done.
  - intros t i [[<- <-]|[_ Hi]]%lookup_insert_Some; [exists g; by rewrite Hnew|].
    destruct (F3 t i Hi) as (x & Hx & E). exists x. split; [by apply Hg|done].
  - intros rid i b H. destruct (F4 rid i b H) as (x & Hx & E). exists x. split; [by apply Hg|done].
  - intros i b H. destruct (F5 i b H) as [x Hx]. exists x. by apply Hg.
  - intros i b H. destruct (F6 i b H) as [x Hx]. exists x. by apply Hg.
  - intros v b H. destruct (F7 v b H) as (i & d & Hi & E). exists i, d. split; [by apply Hold|done].
  - intros v x H. destruct (F8 v x H) as (i & y & b & K1 & K2 & K3). exists i, y, b. split; [by apply Hg|done].
  - intros rid r' [[<- <-]|[_ H]]%lookup_insert_Some; [by apply (F9 _ r)|by apply F9].
Qed.

Lemma attach_section_ok g w s : ok s → fresh_socket w s →
  let s' := (attach_section g w s).1 in
  ok s' ∧ grows s s' ∧ (∀ id, unready id s → unready id s')
  ∧ (∀ i c, bk_objects s' !! i = Some c → (∃ c0, bk_objects s !! i = Some c0 ∧ cn_ws c = cn_ws c0) ∨ cn_ws c = w).
Proof.
  intros Hs Hw. cbn zeta.
  assert (Hid : ok s ∧ grows s s ∧ (∀ id, unready id s → unready id s)
    ∧ (∀ i c, bk_objects s !! i = Some c → (∃ c0, bk_objects s !! i = Some c0 ∧ cn_ws c = cn_ws c0) ∨ cn_ws c = w))
    by (split_and!; eauto; done).
  unfold attach_section. destruct (bk_runners s !! gr_runner g) as [r|] eqn:Hr; [|exact Hid].
  destruct (check! _ in _) as [u|] eqn:Ec; [|exact Hid]. clear Hid. cbn [fst].
  assert (Ey : rn_ready r = true) by (by destruct (rn_ready r)).
  destruct (rn_ready r) in Ec; [cbn in Ec|done].
  destruct (bk_maintenance s !! gr_runner g) as [m|] eqn:Em; cbn in Ec; [done|].
  destruct (Z.leb_spec RUNNER_SESSIONS_MAX (Z.of_nat (size (rn_sessions r)))) as [|Eb]; [done|].
  destruct (bk_clients s !! gr_transfer g) as [j|] eqn:Et; [done|]. clear Ec.
  destruct Hs as [C F]. set (s' := with_clients _ _ _).
  assert (F' : flows s') by exact (attach_flows g w s r F Hw Et Hr).
  assert (Hg : ∀ i x, grant_of s i = Some x → grant_of s' i = Some x).
  { intros i x. unfold grant_of. destruct (bk_objects s !! i) as [d|] eqn:E; [|done].
    unfold s'. cbn. by rewrite (lookup_app_l_Some _ _ _ _ E). }
  assert (Hn : grant_of s' (length (bk_objects s)) = Some g).
  { unfold grant_of, s'. cbn. by rewrite lookup_app_r, Nat.sub_diag. }
  assert (Hnew : gr_transfer g ∉ rn_sessions r).
  { intros Ht. destruct (c_session _ C _ r _ Hr Ht) as (i & x & Hi & _). congruence. }
  split_and!; [split; [|done]|..].
  - destruct C as [C1 C2 C3 C4 C5]. split.
    + intros t i. unfold s'. cbn [with_clients bk_clients]. intros [[<- <-]|[Ne Hi]]%lookup_insert_Some.
      { exists g. eexists. split_and!; [exact Hn|done|apply lookup_insert_eq|]. cbn. set_solver. }
      destruct (C1 t i Hi) as (x & r1 & H1 & H2 & H3 & H4). exists x.
      destruct (decide (gr_runner x = gr_runner g)) as [E|N].
      * eexists. rewrite E. split_and!; [by apply Hg|done|apply lookup_insert_eq|]. cbn.
        rewrite E in H3. simplify_eq. set_solver.
      * exists r1. split_and!; [by apply Hg|done| |done]. unfold s'. cbn. by rewrite lookup_insert_ne.
    + intros rid r1 t. unfold s'. cbn [with_clients bk_clients bk_runners put_runner with_runners].
      intros H1 Ht. destruct (decide (t = gr_transfer g)) as [->|Nt].
      { apply lookup_insert_Some in H1 as [[<- <-]|[Ne H1]].
        - exists (length (bk_objects s)), g. rewrite lookup_insert_eq. by split_and!.
        - destruct (C2 rid r1 _ H1 Ht) as (i & x & Hi & _). congruence. }
      assert (Hold : ∃ r0, bk_runners s !! rid = Some r0 ∧ t ∈ rn_sessions r0).
      { apply lookup_insert_Some in H1 as [[<- <-]|[Ne H1]]; [exists r|by exists r1].
        split; [done|]. cbn in Ht. set_solver. }
      destruct Hold as (r0 & H0 & Ht0). destruct (C2 rid r0 t H0 Ht0) as (i & x & Hi & Hx & E).
      exists i, x. rewrite lookup_insert_ne by done. split_and!; [done|by apply Hg|done].
    + intros rid r1. unfold s'. cbn. intros [[<- <-]|[Ne H1]]%lookup_insert_Some; [|by apply (C3 rid)].
      destruct (C3 _ r Hr) as [B1 B2]. cbn. split; [|done].
      rewrite size_union, size_singleton by set_solver. lia.
    + intros rid r1 Hm. unfold s'. cbn. intros [[<- <-]|[Ne H1]]%lookup_insert_Some; [|by apply (C4 rid)].
      cbn in Hm. rewrite Em in Hm. by apply is_Some_None in Hm.
    + intros rid r1. unfold s'. cbn. intros [[<- <-]|[Ne H1]]%lookup_insert_Some; [|by apply (C5 rid)].
      cbn. congruence.
  - split; [|by exists []; rewrite app_nil_r|done]. intros i c Hi. exists c. split_and!; [|done|done].
    unfold s'. cbn. by apply lookup_app_l_Some.
  - intros id U rid r1. unfold s'. cbn. intros [[<- <-]|[Ne H1]]%lookup_insert_Some; [|by apply (U rid)]. cbn.
    by apply (U (gr_runner g)).
  - intros i c. unfold s'. cbn. intros [H|[Hl H]]%lookup_app_Some; [left; by exists c|right].
    by apply list_lookup_singleton_Some in H as [_ <-].
Qed.

(** *** Frames *)

Definition about (i : nat) (c : client) (e : event) : Prop :=
  match e with
  | Queued rid j _ => j = i ∧ rid = gr_runner (cn_grant c)
  | Accepted j _ | Taken j _ => j = i
  | SentBytes w _ => w = ClientSocket (cn_ws c)
  | _ => False
  end.

(** One client and the log change, as they do when a frame passes. *)
Record passes (s s' : broker) (i : nat) (c c' : client) (es : list event) : Prop := {
  p_client : bk_objects s !! i = Some c;
  p_same : cn_ws c' = cn_ws c ∧ cn_grant c' = cn_grant c;
  p_objects : bk_objects s' = alter (fun _ => c') i (bk_objects s);
  p_tables : same_runners s s' ∧ bk_clients s' = bk_clients s ∧ bk_connections s' = bk_connections s;
  p_log : bk_log s' = bk_log s ++ es;
  p_about : Forall (about i c) es;
}.

Lemma passes_object s s' i c c' es j d : passes s s' i c c' es → bk_objects s' !! j = Some d →
  j = i ∧ d = c' ∨ j ≠ i ∧ bk_objects s !! j = Some d.
Proof.
  intros P. rewrite (p_objects _ _ _ _ _ _ P). destruct (decide (j = i)) as [->|N].
  - rewrite list_lookup_alter_eq, (p_client _ _ _ _ _ _ P). intros [= <-]. by left.
  - rewrite list_lookup_alter_ne by done. by right.
Qed.

Lemma passes_kept s s' i c c' es j : passes s s' i c c' es →
  (fun d => (cn_ws d, cn_grant d)) <$> bk_objects s' !! j = (fun d => (cn_ws d, cn_grant d)) <$> bk_objects s !! j.
Proof.
  intros P. rewrite (p_objects _ _ _ _ _ _ P). destruct (decide (j = i)) as [->|N]; [|by rewrite list_lookup_alter_ne].
  rewrite list_lookup_alter_eq, (p_client _ _ _ _ _ _ P). destruct (p_same _ _ _ _ _ _ P) as [E1 E2].
  cbn. by rewrite E1, E2.
Qed.

Lemma passes_grant s s' i c c' es j : passes s s' i c c' es → grant_of s' j = grant_of s j.
Proof.
  intros P. pose proof (passes_kept _ _ _ _ _ _ j P) as E. unfold grant_of.
  destruct (bk_objects s !! j), (bk_objects s' !! j); try done. cbn in *. congruence.
Qed.

Lemma passes_guar s s' i c c' es : passes s s' i c c' es → guar None s s'.
Proof.
  intros P. destruct (p_tables _ _ _ _ _ _ P) as ((R & _ & _) & _ & N). split; [split| |].
  - intros j d Hj. pose proof (passes_kept _ _ _ _ _ _ j P) as E. rewrite Hj in E.
    destruct (bk_objects s' !! j) as [d'|]; [|done]. injection E as E1 E2. by exists d'.
  - exists es. by apply (p_log _ _ _ _ _ _ P).
  - by rewrite N.
  - intros id _ U rid r. rewrite R. by apply U.
  - intros j d Hj. pose proof (passes_kept _ _ _ _ _ _ j P) as E. rewrite Hj in E.
    destruct (bk_objects s !! j) as [d'|]; [|done]. injection E as E1 E2. by exists d'.
Qed.

Lemma passes_consistent s s' i c c' es : consistent s → passes s s' i c c' es → consistent s'.
Proof.
  intros [C1 C2 C3 C4 C5] P. destruct (p_tables _ _ _ _ _ _ P) as ((R & M & _) & K & N).
  split; rewrite ?R, ?M, ?K; try done.
  - intros t j Hj. rewrite (passes_grant _ _ _ _ _ _ j P). by apply C1.
  - intros rid r t Hr Ht. destruct (C2 rid r t Hr Ht) as (j & g & H). exists j, g.
    by rewrite (passes_grant _ _ _ _ _ _ j P).
Qed.

Lemma flow_quiet_app es l i P c : Forall (quiet_for i (cn_ws c)) es → flow_ok l i P c → flow_ok (l ++ es) i P c.
Proof.
  intros H. revert l. induction H as [|e es He _ IH]; intros l F; [by rewrite app_nil_r|].
  rewrite cons_middle, app_assoc. by apply IH, flow_quiet.
Qed.

Lemma passes_flows s s' i c c' es : flows s → passes s s' i c c' es →
  flow_ok (bk_log s ++ es) i (bk_clients s !! gr_transfer (cn_grant c) = Some i) c' → flows s'.
Proof.
  intros F P W.
  assert (G : ∀ j, grant_of s' j = grant_of s j) by (intros j; by apply (passes_grant s s' i c c' es)).
  pose proof (p_client _ _ _ _ _ _ P) as Hc. pose proof (p_about _ _ _ _ _ _ P) as A. rewrite Forall_forall in A.
  destruct (p_same _ _ _ _ _ _ P) as [Ew Eg]. destruct (p_tables _ _ _ _ _ _ P) as ((R & M & _) & K & N).
  assert (Hi : grant_of s i = Some (cn_grant c)) by (unfold grant_of; by rewrite Hc).
  destruct F as [F1 F2 F3 F4 F5 F6 F7 F8 F9].
  split; rewrite ?(p_log _ _ _ _ _ _ P), ?R, ?K, ?N.
  - intros j d Hj. apply (passes_object _ _ _ _ _ _ _ _ P) in Hj as [[-> ->]|[Nj Hj]].
    + by rewrite Eg.
    + apply flow_quiet_app; [|by apply F1]. rewrite Forall_forall. intros e He. specialize (A e He).
      destruct e as [|rid k b|k b|k b| |w b|]; try done; cbn in A; unfold quiet_for; cbn.
      * destruct A as [-> _]. rewrite (proj2 (Nat.eqb_neq i j)) by congruence. done.
      * subst k. rewrite (proj2 (Nat.eqb_neq i j)) by congruence. done.
      * subst k. rewrite (proj2 (Nat.eqb_neq i j)) by congruence. done.
      * subst w. split_and!; [done..|]. case_bool_decide as E; [|done]. injection E as E.
        destruct Nj. by apply (F2 j i d c).
  - intros j k d e Hj Hk E.
    apply (passes_object _ _ _ _ _ _ _ _ P) in Hj as [[-> ->]|[Nj Hj]];
      apply (passes_object _ _ _ _ _ _ _ _ P) in Hk as [[-> ->]|[Nk Hk]].
    + done.
    + apply (F2 i k c e); congruence.
    + apply (F2 j i d c); congruence.
    + by apply (F2 j k d e).
  - intros t j Hj. rewrite G. by apply F3.
  - intros rid j b [H|H]%elem_of_app; rewrite G; [by apply (F4 rid j b)|].
    destruct (A _ H) as [-> ->]. by exists (cn_grant c).
  - intros j b [H|H]%elem_of_app; rewrite G; [by apply (F5 j b)|]. pose proof (A _ H) as E. cbn in E. subst j. by exists (cn_grant c).
  - intros j b [H|H]%elem_of_app; rewrite G; [by apply (F6 j b)|]. pose proof (A _ H) as E. cbn in E. subst j. by exists (cn_grant c).
  - intros w b H. assert (Hw : ∃ j d, bk_objects s !! j = Some d ∧ cn_ws d = w).
    { apply elem_of_app in H as [H|H]; [by apply (F7 w b)|]. pose proof (A _ H) as [= ->]. by exists i, c. }
    destruct Hw as (j & d & Hj & E). pose proof (passes_kept _ _ _ _ _ _ j P) as E2. rewrite Hj in E2.
    destruct (bk_objects s' !! j) as [d'|] eqn:Ej; [|done]. injection E2 as E2 _. exists j, d'. split; [done|congruence].
  - intros w x [H|H]%elem_of_app; [|by pose proof (A _ H)]. destruct (F8 w x H) as (j & g & b & H1 & H2 & H3 & H4).
    exists j, g, b. rewrite G, !elem_of_app. tauto.
  - intros rid r Hr. destruct (F9 rid r Hr) as [H1 H2]. rewrite elem_of_app. tauto.
Qed.

Lemma passes_ok s s' i c c' es : ok s → passes s s' i c c' es →
  flow_ok (bk_log s ++ es) i (bk_clients s !! gr_transfer (cn_grant c) = Some i) c' → ok s' ∧ guar None s s'.
Proof.
  intros [C F] P W. split; [split; [by apply (passes_consistent s s' i c c' es)|by apply (passes_flows s s' i c c' es)]|].
  by apply (passes_guar s s' i c c' es).
Qed.

(** What each of the three events does to a client's flow. *)
Lemma omap_snoc_some {A B} (f : A → option B) l x y : f x = Some y → omap f (l ++ [x]) = omap f l ++ [y].
Proof. intros H. rewrite omap_app. cbn. by rewrite H. Qed.

Lemma total_snoc l b : total (l ++ [b]) = total l + zlen b.
Proof. rewrite total_app. cbn [total foldr]. lia. Qed.

Lemma flow_accepted l i P c b : flow_ok l i P c → cn_bytes c + zlen b <= gr_max_bytes (cn_grant c) →
  flow_ok (l ++ [Accepted i b]) i P (with_queue (cn_queue c) (cn_bytes c + zlen b) c).
Proof.
  intros [F1 F2 F3 F4 F5 F6 F7] B.
  assert (E1 : queued i (l ++ [Accepted i b]) = queued i l) by (by apply omap_snoc).
  assert (E2 : taken i (l ++ [Accepted i b]) = taken i l) by (by apply omap_snoc).
  assert (E3 : accepted i (l ++ [Accepted i b]) = accepted i l ++ [b])
    by (apply omap_snoc_some; cbn; by rewrite Nat.eqb_refl).
  split; cbn [with_queue cn_bytes cn_grant cn_queue cn_ws]; unfold traffic; rewrite ?E1, ?E2, ?E3, ?total_snoc; try done.
  - unfold traffic in F1. lia.
  - lia.
  - rewrite <- F7. by apply omap_snoc.
Qed.

Lemma flow_queued l rid i (P : Prop) c b : P → flow_ok l i P c → b ≠ [] →
  cn_bytes c + zlen b <= gr_max_bytes (cn_grant c) → zlen (cn_queue c) < RELAY_QUEUE_FRAMES_MAX →
  flow_ok (l ++ [Queued rid i b]) i P (with_queue (cn_queue c ++ [b]) (cn_bytes c + zlen b) c).
Proof.
  intros HP [F1 F2 F3 F4 F5 F6 F7] Nb B Q.
  assert (E1 : queued i (l ++ [Queued rid i b]) = queued i l ++ [b])
    by (apply omap_snoc_some; cbn; by rewrite Nat.eqb_refl).
  assert (E2 : taken i (l ++ [Queued rid i b]) = taken i l) by (by apply omap_snoc).
  assert (E3 : accepted i (l ++ [Queued rid i b]) = accepted i l) by (by apply omap_snoc).
  assert (Hb : nonempty b = true) by (unfold nonempty; by rewrite bool_decide_eq_false_2).
  split; cbn [with_queue cn_bytes cn_grant cn_queue cn_ws]; unfold traffic;
    rewrite ?E1, ?E2, ?E3, ?total_snoc, ?List.filter_app, ?app_assoc; try done.
  - unfold traffic in F1. lia.
  - lia.
  - rewrite zlen_app. change (zlen [b]) with 1. lia.
  - by apply Forall_snoc.
  - apply sublist_app; [done|]. cbn. by rewrite Hb.
  - intros _. by rewrite <- F6.
  - rewrite <- F7. by apply omap_snoc.
Qed.

Lemma flow_taken l i P c b q : flow_ok l i P c → cn_queue c = b :: q → b ≠ [] →
  flow_ok (l ++ [Taken i b; SentBytes (ClientSocket (cn_ws c)) b]) i P (with_queue q (cn_bytes c) c).
Proof.
  intros [F1 F2 F3 F4 F5 F6 F7] E Nb. rewrite E in *.
  set (es := [Taken i b; SentBytes (ClientSocket (cn_ws c)) b]).
  assert (E1 : queued i (l ++ es) = queued i l) by (unfold queued; rewrite omap_app; apply app_nil_r).
  assert (E2 : taken i (l ++ es) = taken i l ++ [b]) by (unfold taken; rewrite omap_app; cbn; by rewrite Nat.eqb_refl).
  assert (E3 : accepted i (l ++ es) = accepted i l) by (unfold accepted; rewrite omap_app; apply app_nil_r).
  assert (Hb : nonempty b = true) by (unfold nonempty; by rewrite bool_decide_eq_false_2).
  rewrite zlen_cons in F3. cbn [List.filter] in F5. rewrite Hb in F5.
  split; cbn [with_queue cn_bytes cn_grant cn_queue cn_ws]; unfold traffic; rewrite ?E1, ?E2, ?E3; try done.
  - lia.
  - by rewrite <- app_assoc.
  - intros H. rewrite <- app_assoc. by apply F6.
  - unfold sent. rewrite omap_app. cbn. rewrite bool_decide_eq_true_2 by done. f_equal. apply F7.
Qed.

(** The end of a queue is taken only after its client is gone. *)
Lemma flow_ended l i P c q : flow_ok l i P c → cn_queue c = [] :: q →
  flow_ok l i P (with_queue q (cn_bytes c) c).
Proof.
  intros [F1 F2 F3 F4 F5 F6 F7] E. rewrite E in *. rewrite zlen_cons in F3.
  split; cbn [with_queue cn_bytes cn_grant cn_queue cn_ws]; try done; [lia|].
  intros H. apply F6 in H. rewrite H in F4. apply Forall_app in F4 as [_ F4]. by inversion F4.
Qed.

Lemma update_passes s i c c' e : bk_objects s !! i = Some c → cn_ws c' = cn_ws c → cn_grant c' = cn_grant c →
  about i c e → passes s (note e (update_object i (fun _ => c') s)) i c c' [e].
Proof. intros. split; try done. by constructor. Qed.

Lemma record_bytes_ok n c c' : record_bytes n c = Ok c' →
  c' = with_queue (cn_queue c) (cn_bytes c + n) c ∧ cn_bytes c + n <= gr_max_bytes (cn_grant c).
Proof. unfold record_bytes. intros H. inv_ok. breflect. done. Qed.

Lemma client_section_ok t b s : ok s → ok (client_section t b s).1 ∧ guar None s (client_section t b s).1
  ∧ ∀ w x, (client_section t b s).2 = Ok (w, x) →
    let s' := (client_section t b s).1 in ∃ i g b, grant_of s' i = Some g ∧ Accepted i b ∈ bk_log s'
    ∧ x = uuid_bytes (gr_transfer g) ++ b ∧ Registered (gr_runner g) w ∈ bk_log s'.
Proof.
  intros Hs. assert (Hid : ∀ e : exn, ok s ∧ guar None s s ∧ ∀ w x, Raise e = Ok (w, x) →
    ∃ i g b, grant_of s i = Some g ∧ Accepted i b ∈ bk_log s ∧ x = uuid_bytes (gr_transfer g) ++ b
    ∧ Registered (gr_runner g) w ∈ bk_log s) by (by intros e).
  unfold client_section. destruct (bk_clients s !! t) as [i|] eqn:Ht; [|apply Hid]. cbn [mbind option_bind].
  destruct (bk_objects s !! i) as [c|] eqn:Hi; [|apply Hid]. cbn [mbind option_bind].
  destruct (bk_runners s !! _) as [r|] eqn:Hr; [|apply Hid].
  destruct (record_bytes _ c) as [c'|e] eqn:Hc; [|apply Hid]. apply record_bytes_ok in Hc as [-> B].
  cbn [fst snd]. pose proof (ok_flows _ Hs) as F. set (c' := with_queue _ _ _).
  destruct (passes_ok s (note (Accepted i b) (update_object i (fun _ => c') s)) i c c' [Accepted i b] Hs) as [A G].
  { by apply update_passes. }
  { apply flow_accepted; [by apply (w_client _ F)|done]. }
  split_and!; [done|done|]. cbn zeta. intros w x [= <- <-]. destruct (w_object _ F t i Ht) as (g & Hg & E).
  assert (Eg : g = cn_grant c) by (unfold grant_of in Hg; rewrite Hi in Hg; by injection Hg).
  exists i, g, b. split_and!.
  - apply (grant_grows s); [apply G|done].
  - cbn. rewrite in_snoc. by right.
  - by rewrite E.
  - cbn. rewrite in_snoc. left. rewrite Eg. by apply (w_runner _ F).
Qed.

Lemma is_retired_late rid t : section_ok (let^ retired := is_retired clock rid t in
  if retired then st_ret None
  else st_lift (raise RunnerRelayAuthorizationError "Runner relay frame has no attached client")
       : st broker (option (nat * list nat * pystr))).
Proof.
  intros s Hs. pose proof (is_retired_ok rid t s Hs) as H. unfold st_bind.
  destruct (is_retired clock rid t s) as [s' [[]|e]]; done.
Qed.

Lemma frame_section_ok rid t b : b ≠ [] → section_ok (frame_section clock rid t b).
Proof.
  intros Nb s Hs. unfold frame_section. destruct (bk_runners s !! rid) as [r|] eqn:Hr; [|by apply unchanged].
  destruct (bk_clients s !! t) as [i|] eqn:Ht; [|by apply is_retired_late]. cbn [mbind option_bind].
  destruct (bk_objects s !! i) as [c|] eqn:Hi; [|by apply is_retired_late]. cbn [mbind option_bind].
  case_bool_decide as E; [|by apply is_retired_late]. cbn [negb].
  pose proof (end_client_ok t i c s Hs Ht Hi) as Hend. rewrite E in Hend.
  destruct (_ <? _); [by destruct (pop_client t s)|]. destruct (Z.leb_spec RELAY_QUEUE_FRAMES_MAX (zlen (cn_queue c))) as [|Q];
    [by destruct (pop_client t s)|].
  destruct (record_bytes _ c) as [c'|e] eqn:Hc; [|by apply unchanged]. apply record_bytes_ok in Hc as [-> B].
  cbn [fst with_queue cn_bytes]. pose proof (ok_flows _ Hs) as F. set (c' := with_queue _ _ _).
  apply (passes_ok s _ i c c' [Queued rid i b] Hs); [by apply update_passes|].
  destruct (w_object _ F t i Ht) as (g & Hg & Eg). unfold grant_of in Hg. rewrite Hi in Hg. injection Hg as <-.
  apply flow_queued; [by rewrite Eg|by apply (w_client _ F)|done|done|done].
Qed.

Lemma calm_client_frame t b : calm (client_frame t b).
Proof.
  apply calm_lifted. intros _. apply calm_lifted. intros _. intros own s Hs.
  destruct (client_section_ok t b s Hs) as (A & G & K). cbn [locked safe].
  split_and!; [done|by apply guar_any|]. exists own. split; [by left|].
  pose proof (rely_of_guar own _ _ G) as R. set (s1 := (client_section t b s).1) in *.
  destruct (client_section t b s).2 as [[w x]|e]; [|by split_and!].
  destruct (K w x eq_refl) as (i & g & b0 & H1 & H2 & H3 & H4). cbn [lift send_bytes safe issue fst snd].
  assert (A2 : ok (note (SentBytes (RunnerSocket w) x) s1)).
  { destruct A as [C F]. split; [by apply note_tables|]. apply note_flows; [done|done|].
    intros w' x' [= <- <-]. by exists i, g, b0. }
  split_and!; [done|apply guar_any, note_guar|]. intros s' Hs' R'.
  assert (D : after own s (Ok false) own s').
  { split_and!; [done|done|]. transitivity s1; [done|]. transitivity (note (SentBytes (RunnerSocket w) x) s1); [|done].
    apply rely_of_guar, note_guar. }
  split; [by intros e|exact D].
Qed.

(** A sender takes a frame and at once sends it, or ends. *)
Lemma take_passes i s c b q : bk_objects s !! i = Some c → cn_queue c = b :: q → ∃ s',
  take_frame i s = Some (b, s')
  ∧ passes s s' i c (with_queue q (cn_bytes c) c) (if bool_decide (b = []) then [] else [Taken i b]).
Proof.
  intros Hi Hq. unfold take_frame. rewrite Hi, Hq. eexists. split; [done|].
  assert (E : alter (fun c => with_queue q (cn_bytes c) c) i (bk_objects s)
              = alter (fun _ => with_queue q (cn_bytes c) c) i (bk_objects s)).
  { apply list_alter_ext; [|done]. intros d Hd. by simplify_eq. }
  case_bool_decide; (split; [done|done|exact E|done|cbn; by rewrite ?app_nil_r|by repeat constructor]).
Qed.

Lemma take_inv i s b s' : take_frame i s = Some (b, s') → ∃ c q, bk_objects s !! i = Some c ∧ cn_queue c = b :: q
  ∧ passes s s' i c (with_queue q (cn_bytes c) c) (if bool_decide (b = []) then [] else [Taken i b]).
Proof.
  intros H. pose proof H as H0. unfold take_frame in H0. destruct (bk_objects s !! i) as [c|] eqn:Hi; [|done].
  destruct (cn_queue c) as [|b0 q] eqn:Hq; [done|]. injection H0 as <- _.
  destruct (take_passes i s c b0 q Hi Hq) as (s2 & E & P). exists c, q. rewrite E in H. injection H as ->. done.
Qed.

Lemma passes_note s s' i c c' es e : passes s s' i c c' es → about i c e → passes s (note e s') i c c' (es ++ [e]).
Proof.
  intros [P1 P2 P3 P4 P5 P6] A. split; try done.
  - cbn. by rewrite P5, app_assoc.
  - by apply Forall_snoc.
Qed.

Lemma calm_send_client_frame t : calm (send_client_frame t).
Proof.
  intros own s Hs. unfold send_client_frame. cbn [locked safe sender_section fst snd].
  split_and!; [done|done|]. exists own. split; [by left|].
  assert (Hx : ∀ i w, (i0 ← bk_clients s !! t; c ← bk_objects s !! i0; Some (i0, cn_ws c)) = Some (i, w) →
    ∃ c, bk_objects s !! i = Some c ∧ cn_ws c = w).
  { intros i w. destruct (bk_clients s !! t) as [j|]; [|done]. cbn. destruct (bk_objects s !! j) as [c|] eqn:Ej; [|done].
    cbn. intros [= <- <-]. by exists c. }
  cbn [lift]. destruct (_ ≫= _) as [[i w]|]; [|by split_and!].
  destruct (Hx i w eq_refl) as (c & Hc & Hw). clear Hx. cbn [safe issue]. split_and!; [done|done|].
  intros s' Hs' R. split; [by intros e|]. intros b s2 Ht.
  destruct (take_inv i s' b s2 Ht) as (d & q & Hd & Hq & P).
  assert (Ew : cn_ws d = w).
  { destruct (g_objects _ _ (rl_grows _ _ _ R) i c Hc) as (c2 & H2 & E & _). congruence. }
  pose proof (w_client _ (ok_flows _ Hs') i d Hd) as W. pose proof (passes_guar _ _ _ _ _ _ P) as G.
  split; [by apply guar_any|]. cbn [lift]. case_bool_decide as Eb.
  - subst b. assert (A : ok s2).
    { apply (passes_ok s' s2 i d _ [] Hs' P). rewrite app_nil_r. by apply flow_ended. }
    split; [|by left]. split_and!; [done|done|]. transitivity s'; [done|by apply rely_of_guar].
  - pose proof (passes_note _ _ _ _ _ _ (SentBytes (ClientSocket w) b) P) as P2.
    destruct (passes_ok s' (note (SentBytes (ClientSocket w) b) s2) i d _ _ Hs' (P2 ltac:(cbn; by rewrite Ew))) as [A G2].
    { rewrite <- Ew. by apply flow_taken. }
    split; [|by right]. cbn [safe issue]. split_and!; [done|apply guar_any, note_guar|].
    intros s3 Hs3 R3. assert (R0 : rely own s s3).
    { transitivity s'; [done|]. transitivity (note (SentBytes (ClientSocket w) b) s2); [by apply rely_of_guar|done]. }
    split; [by intros e|]. by split_and!.
Qed.
#[local] Hint Resolve calm_client_frame calm_send_client_frame unregister_section_ok disconnect_section_ok
  forget_maintenance_ok release_section_ok quiesced_section_ok quiesce_section_ok detach_section_ok closed_section_ok
  : relay.

Lemma calm_quiesce_runner rid job timeout : calm (quiesce_runner clock set_order rid job timeout).
Proof.
  apply calm_lifted. intros _. apply calm_lifted. intros _. apply calm_lifted. intros _.
  apply calm_locked; [eauto with relay|]. intros [q|]; [|apply calm_done].
  apply calm_seq; [eauto with relay|]. apply calm_on_error; [|apply calm_locked; eauto with relay|eauto with relay].
  apply calm_seq; [eauto with relay|]. apply calm_await; [done|]. intros r. by apply calm_lifted.
Qed.

Lemma calm_runner_frame rid framed : calm (runner_frame clock rid framed).
Proof.
  unfold runner_frame. destruct (guard _ _ _) as [u|e] eqn:Hg; [|apply calm_done]. cbn [lift]. inv_ok. breflect.
  apply calm_locked; [apply frame_section_ok|].
  - intros E. apply (f_equal length) in E. rewrite length_drop in E. unfold zlen, RUNNER_PREFIX_LENGTH in *. cbn in E. lia.
  - intros [[[w ws] reason]|]; eauto with relay.
Qed.

Lemma calm_detach_client t w : calm (detach_client clock t w).
Proof.
  apply calm_lifted. intros _. apply calm_locked; [eauto with relay|]. intros [rw|]; eauto with relay.
Qed.

(** Every method but [attach_client] and [register_runner] owns nothing. *)
Definition attaches (m : method) : bool := match m with AttachClient _ _ => true | _ => false end.

Lemma body_safe m s : ok s → attaches m = false → safe (fun _ _ _ => True) (body clock set_order m) None s.
Proof.
  intros Hs Hm. destruct m as [rid w j|rid w|rid|rid job n|rid job|rid job|g w|t w|t b|rid t|rid b|t]; try done;
    cbn [body]; [by apply register_safe|..];
    (eapply safe_weaken; [|match goal with |- safe _ ?p _ _ => assert (H : calm p); [|by apply H] end]; [done|]).
  - apply calm_locked; eauto with relay.
  - apply calm_locked; [eauto with relay|]. intros [[w ws]|]; eauto with relay.
  - apply calm_quiesce_runner.
  - apply calm_lifted. intros _. apply calm_locked; eauto with relay.
  - apply calm_lifted. intros _. apply calm_lifted. intros _. apply calm_locked; eauto with relay.
  - apply calm_detach_client.
  - apply calm_client_frame.
  - apply calm_lifted. intros _. apply calm_locked; eauto with relay.
  - apply calm_runner_frame.
  - apply calm_lifted. eauto with relay.
Qed.

(** ** The machine *)

(** Each task owns at most one connection that is not ready yet, and no two
    tasks own the same. *)
Record owned (s : broker) (ts : list task) (O : list (option nat)) : Prop := {
  o_length : length O = length ts;
  o_known : ∀ i id, O !! i = Some (Some id) → (id < bk_connections s)%nat;
  o_once : ∀ i j id, O !! i = Some (Some id) → O !! j = Some (Some id) → i = j;
  o_pending : ∀ i tk o, ts !! i = Some tk → O !! i = Some o → pending ends (tk_prog tk) o s;
}.

Record machine_ok (ws : list nat) (m : machine) : Prop := {
  m_ok : ok (mc_broker m);
  m_sockets : ∀ i c, bk_objects (mc_broker m) !! i = Some c → cn_ws c ∈ ws;
  m_owned : ∃ O, owned (mc_broker m) (mc_tasks m) O;
}.

(** What one task does, as the others see it; a client may be attached on the
    socket [w]. *)
Record moves (o w : option nat) (s s' : broker) (p' : prog) : Prop := {
  v_ok : ok s';
  v_own : ∃ o', owns o o' s s' ∧ (∀ id, o' ≠ Some id → unready id s → unready id s') ∧ pending ends p' o' s';
  v_grows : grows s s';
  v_objects : ∀ i c, bk_objects s' !! i = Some c →
    (∃ c0, bk_objects s !! i = Some c0 ∧ cn_ws c = cn_ws c0) ∨ w = Some (cn_ws c);
}.

Lemma owned_step s s' ts O i tk tk' o w : ok s → owned s ts O → ts !! i = Some tk → O !! i = Some o →
  moves o w s s' (tk_prog tk') → ∃ O', owned s' (<[i := tk']> ts) O'.
Proof.
  intros Hs [L K N P] Ht Ho [A (o' & B & U & D) G _]. exists (<[i := o']> O). pose proof (g_connections _ _ G) as Gc.
  pose proof (lookup_lt_Some _ _ _ Ho) as Hl.
  assert (Hsplit : ∀ j x, <[i := o']> O !! j = Some x → j = i ∧ x = o' ∨ j ≠ i ∧ O !! j = Some x).
  { intros j x [(<- & -> & _)|[Ne Hj]]%list_lookup_insert_Some; [by left|by right]. }
  assert (Hfresh : ∀ j id, j ≠ i → O !! j = Some (Some id) → o' ≠ Some id).
  { intros j id Ne Hj E. destruct B as [->|(id' & -> & -> & B)].
    - subst o. by destruct Ne; apply (N j i id).
    - injection E as ->. specialize (K j id Hj). lia. }
  split.
  - by rewrite !length_insert.
  - intros j id [[-> E]|[Ne Hj]]%Hsplit.
    + destruct B as [->|(id' & -> & -> & B)]; [|injection E as ->; lia]. subst o. specialize (K i id Ho). lia.
    + specialize (K j id Hj). lia.
  - intros j k id [[-> E]|[Nj Hj]]%Hsplit [[-> E2]|[Nk Hk]]%Hsplit; [done|..|by apply (N j k id)].
    + by destruct (Hfresh k id Nk Hk).
    + by destruct (Hfresh j id Nj Hj).
  - intros j tk2 x [(<- & -> & _)|[Nj Hj]]%list_lookup_insert_Some [[E ->]|[Nk Hk]]%Hsplit; try done.
    apply (pending_stable ends _ x s s'); [done|done| |by apply (P j)].
    split; [done|]. intros id ->. by apply U, (Hfresh j).
Qed.

Lemma moves_run o w s p : ok s → safe ends p o s → moves o w s (run p s).1 (run p s).2.
Proof.
  intros Hs Hp. destruct (run_safe ends p o s Hs Hp) as (A & o' & B & C & D).
  split; [done|by exists o'; split_and!; [done|apply C|done]|apply C|]. intros i c Hi. left. by apply (gu_objects _ _ _ C).
Qed.

Lemma moves_resumed o w s p r : ok s → pending ends p o s → moves o w s (resumed p r s).1 (resumed p r s).2.
Proof.
  intros Hs Hp. destruct (resumed_safe ends p r o s Hs Hp) as (A & o' & B & C & D).
  split; [done|by exists o'; split_and!; [done|apply C|done]|apply C|]. intros i c Hi. left. by apply (gu_objects _ _ _ C).
Qed.

Lemma moves_then o w s s1 p1 p : moves o w s s1 p1 → calm p → moves o w s (run p s1).1 (run p s1).2.
Proof.
  intros [A (o1 & B & U & D) G V] Hp. assert (Hp' : safe ends p o1 s1) by (eapply safe_weaken; [done|by apply Hp]).
  destruct (run_safe ends p o1 s1 A Hp') as (A2 & o2 & B2 & [C2 U2 V2] & D2).
  split; [done| |by transitivity s1|].
  - exists o2. split_and!; [by apply (owns_trans o o1 o2 s s1)| |done]. intros id Nid H. apply U2; [done|].
    apply U; [|done]. destruct B2 as [->|(id' & -> & -> & _)]; [done|by intros [=]].
  - intros i c Hi. destruct (V2 i c Hi) as (c1 & H1 & ->). by apply V.
Qed.

(** [send_client_frames] goes round. *)
Lemma moves_advance f o w s x : moves o w s x.1 x.2 → moves o w s (advance f x).1 (tk_prog (advance f x).2).
Proof.
  destruct x as [s1 p1]. cbn [fst snd]. intros H. unfold advance. destruct f; try exact H.
  destruct p1 as [[[]|]| |]; try exact H. pose proof (moves_then o w s s1 _ _ H (calm_send_client_frame t)) as H2.
  by destruct (run _ s1).
Qed.

Lemma moves_attach g w s : ok s → fresh_socket w s →
  moves None (Some w) s (run (attach_client clock g w) s).1 (run (attach_client clock g w) s).2.
Proof.
  intros Hs Hw. destruct (attach_section_ok g w s Hs Hw) as (A & G & U & S). unfold attach_client, locked. cbn [run].
  destruct (attach_section g w s) as [s1 r]. cbn [fst] in *.
  apply (moves_then None (Some w) s s1 skip).
  - split; [done|exists None; split_and!; [by left|by intros id _; apply U|done]|done|].
    intros i c Hi. destruct (S i c Hi) as [H| ->]; [by left|by right].
  - apply calm_lifted. intros rw. apply calm_on_error; [eauto with relay|apply calm_detach_client|apply calm_done].
Qed.

(** The sockets on which clients were attached. *)
Definition socket_of (a : action) : option nat :=
  match a with Call (AttachClient _ w) => Some w | _ => None end.
Definition sockets (l : list action) : list nat := omap socket_of l.

Lemma moves_call f s : ok s → (∀ w, socket_of (Call f) = Some w → fresh_socket w s) →
  moves None (socket_of (Call f)) s (run (body clock set_order f) s).1 (run (body clock set_order f) s).2.
Proof.
  intros Hs Hw. destruct (attaches f) eqn:Ef.
  - destruct f; try done. by apply moves_attach, Hw.
  - by apply moves_run, body_safe.
Qed.

Lemma machine_step ws w m i tk tk' o s' O :
  machine_ok ws m → owned (mc_broker m) (mc_tasks m) O → mc_tasks m !! i = Some tk → O !! i = Some o →
  moves o w (mc_broker m) s' (tk_prog tk') →
  machine_ok (ws ++ option_list w) {| mc_broker := s'; mc_tasks := <[i := tk']> (mc_tasks m) |}.
Proof.
  intros [A W _] HO Ht Ho M. split; [apply M| |by apply (owned_step (mc_broker m) s' (mc_tasks m) O i tk tk' o w)].
  cbn. intros j c Hj. rewrite elem_of_app.
  destruct (v_objects _ _ _ _ _ M j c Hj) as [(c0 & H0 & ->)| ->]; [left; by apply (W j)|right; by left].
Qed.

(** A call starts as a task that has done nothing. *)
Lemma machine_start ws m f : machine_ok ws m →
  let m' := {| mc_broker := mc_broker m; mc_tasks := mc_tasks m ++ [{| tk_method := f; tk_prog := skip |}] |} in
  machine_ok ws m' ∧ ∃ O, owned (mc_broker m) (mc_tasks m') O ∧ O !! length (mc_tasks m) = Some None.
Proof.
  intros [A W (O & [L K N P])]. cbn zeta.
  assert (HO : owned (mc_broker m) (mc_tasks m ++ [{| tk_method := f; tk_prog := skip |}]) (O ++ [None])
               ∧ (O ++ [None]) !! length (mc_tasks m) = Some None).
  { assert (Hold : ∀ i id, (O ++ [None]) !! i = Some (Some id) → O !! i = Some (Some id)).
    { intros i id [H|[_ H]]%lookup_app_Some; [done|]. by apply list_lookup_singleton_Some in H as [_ H]. }
    split; [|by rewrite <- L, lookup_app_r, Nat.sub_diag]. split.
    - by rewrite !length_app, L.
    - intros i id H%Hold. by apply (K i).
    - intros i j id H1%Hold H2%Hold. by apply (N i j id).
    - intros i tk o [Hi|[_ Hi]]%lookup_app_Some Ho.
      + apply (P i tk o Hi). apply lookup_app_Some in Ho as [Ho|[Hle _]]; [done|].
        apply lookup_lt_Some in Hi. lia.
      + by apply list_lookup_singleton_Some in Hi as [_ <-]. }
  split; [split; [done|done|exists (O ++ [None]); apply HO]|exists (O ++ [None]); exact HO].
Qed.

Lemma relay_act_ok ws m a : machine_ok ws m → (∀ w, socket_of a = Some w → w ∉ ws) →
  machine_ok (ws ++ option_list (socket_of a)) (act clock set_order m a).
Proof.
  intros M Hw. pose proof (m_ok _ _ M) as Hs. destruct a as [f|i r].
  - destruct (machine_start ws m f M) as [M' (O & HO & Hn)]. cbn zeta in *.
    set (m' := {| mc_broker := mc_broker m; mc_tasks := _ |}) in *.
    assert (H : moves None (socket_of (Call f)) (mc_broker m) (run (body clock set_order f) (mc_broker m)).1
                  (run (body clock set_order f) (mc_broker m)).2).
    { apply moves_call; [done|]. intros w E j c Hj Ew. apply (Hw w E). rewrite <- Ew. by apply (m_sockets _ _ M j). }
    apply (moves_advance f) in H. cbn [act]. destruct (advance f _) as [s' tk']. cbn [fst snd] in *.
    assert (Ht : mc_tasks m' !! length (mc_tasks m) = Some {| tk_method := f; tk_prog := skip |})
      by (unfold m'; cbn; by rewrite lookup_app_r, Nat.sub_diag).
    pose proof (machine_step ws _ m' _ _ tk' None s' O M' HO Ht Hn H) as R.
    unfold m' in R. cbn [mc_tasks] in R. rewrite insert_app_r_alt, Nat.sub_diag in R by done. exact R.
  - cbn [socket_of option_list act]. destruct (mc_tasks m !! i) as [tk|] eqn:Ht; [|by rewrite app_nil_r].
    destruct (m_owned _ _ M) as (O & HO).
    destruct (lookup_lt_is_Some_2 O i) as [o Ho]; [rewrite (o_length _ _ _ HO); by eapply lookup_lt_Some|].
    pose proof (moves_resumed o None _ _ r Hs (o_pending _ _ _ HO i tk o Ht Ho)) as H.
    apply (moves_advance (tk_method tk)) in H. destruct (advance _ _) as [s' tk']. cbn [fst snd] in *.
    exact (machine_step ws None m i tk tk' o s' O M HO Ht Ho H).
Qed.

Lemma relay_acts_ok l : NoDup (sockets l) → machine_ok (sockets l) (acts clock set_order l).
Proof.
  induction l as [|a l IH] using rev_ind; intros H.
  - split; [apply empty_ok|done|]. exists []. split; try done; intros i *; by rewrite lookup_nil.
  - unfold sockets in *. rewrite omap_app in *. cbn [omap list_omap] in *.
    assert (E : match socket_of a with Some y => [y] | None => [] end = option_list (socket_of a)) by (by destruct (socket_of a)).
    rewrite E in *. apply NoDup_app in H as (H1 & H2 & _). unfold acts. rewrite fold_left_app.
    apply relay_act_ok; [by apply IH|]. intros w Ew Hin. apply (H2 w Hin). rewrite Ew. by left.
Qed.
End Relay.
