(* ===== verification/RunnerRelaySpec.v ===== *)
(** * The relay is bounded, ordered and isolated

    The claims about [RunnerRelay]: the tables of the broker, what a client
    receives and what a runner receives in every state that any interleaving
    of calls reaches, and how often a grant is claimed. *)

From S2P Require Import Prelude Text Crypto RunnerCapabilities RunnerNoise RunnerRelay RunnerRelayInvariant.

(** ** Delivery *)

(** Queues are bounded as well, whether their client is attached or not. *)
Definition queues_bounded (s : broker) : Prop :=
  ∀ i c, bk_objects s !! i = Some c → zlen (cn_queue c) <= RELAY_QUEUE_FRAMES_MAX.

(** C29. In every state that calls of [RunnerRelayBroker] reach, interleaved at
    their awaits in any order and with any awaits raising: the runners, their
    sessions and the clients agree exactly, a runner has at most 32 sessions
    and 128 retired transfers, a client at most 16 queued frames, and no client
    is attached to a runner that is in maintenance or not ready. *)
Theorem relay_tables_bounded clock set_order :
  (∀ X, set_order X ≡ₚ elements X) → ∀ l, NoDup (sockets l) →
  consistent (mc_broker (acts clock set_order l)) ∧ queues_bounded (mc_broker (acts clock set_order l)).
Proof.
  intros O l N. destruct (relay_acts_ok clock set_order O l N) as [[C F] _ _]. split; [done|].
  intros i c Hi. apply (f_queue _ _ _ _ (w_client _ F i c Hi)).
Qed.

(** What is delivered to a client, against what its runner sent. *)
Definition delivers (s : broker) : Prop :=
  ∀ i c, bk_objects s !! i = Some c →
    let delivered := sent (ClientSocket (cn_ws c)) (bk_log s) in
    sublist delivered (queued i (bk_log s))
    ∧ (bk_clients s !! gr_transfer (cn_grant c) = Some i → queued i (bk_log s) = delivered ++ cn_queue c)
    ∧ Forall (fun b => b ≠ []) delivered.

(** C30. The bytes sent on a client's socket are the frames that its runner
    sent for it, once each and in order: while the client is attached, they
    and the frames still queued are all of them; when it is dropped, frames
    may be lost but never reordered, repeated or made up, and the marker that
    ends the queue is never sent. *)
Theorem relay_delivers_in_order clock set_order :
  (∀ X, set_order X ≡ₚ elements X) → ∀ l, NoDup (sockets l) → delivers (mc_broker (acts clock set_order l)).
Proof.
  intros O l N. destruct (relay_acts_ok clock set_order O l N) as [[C F] _ _].
  intros i c Hi. cbn zeta. destruct (w_client _ F i c Hi) as [F1 F2 F3 F4 F5 F6 F7]. rewrite F7.
  assert (S : sublist (taken i (bk_log (mc_broker (acts clock set_order l)))) (queued i (bk_log (mc_broker (acts clock set_order l)))))
    by (etransitivity; [|exact F5]; by apply sublist_inserts_r).
  split_and!; [done|done|]. rewrite Forall_forall in *. intros b Hb E.
  specialize (F4 b (elem_of_sublist _ _ _ Hb S)). subst b. done.
Qed.

(** Ciphertext goes only between a client and the runner of its grant, within
    the grant's budget. *)
Record isolated (s : broker) : Prop := {
  is_client : ∀ w b, SentBytes (ClientSocket w) b ∈ bk_log s → ∃ i c, bk_objects s !! i = Some c ∧ cn_ws c = w
    ∧ Queued (gr_runner (cn_grant c)) i b ∈ bk_log s;
  is_queued : ∀ rid i b, Queued rid i b ∈ bk_log s →
    ∃ c, bk_objects s !! i = Some c ∧ gr_runner (cn_grant c) = rid;
  is_runner : ∀ w x, SentBytes (RunnerSocket w) x ∈ bk_log s → ∃ i c b, bk_objects s !! i = Some c
    ∧ Accepted i b ∈ bk_log s ∧ x = uuid_bytes (gr_transfer (cn_grant c)) ++ b
    ∧ Registered (gr_runner (cn_grant c)) w ∈ bk_log s;
  is_budget : ∀ i c, bk_objects s !! i = Some c →
    traffic i (bk_log s) <= Z.max 0 (gr_max_bytes (cn_grant c));
}.

Lemma grant_object s i g : grant_of s i = Some g → ∃ c, bk_objects s !! i = Some c ∧ cn_grant c = g.
Proof. unfold grant_of. destruct (bk_objects s !! i) as [c|]; [|done]. intros [= <-]. by exists c. Qed.

(** C31. Ciphertext that a client's socket is sent was sent for that client by
    the runner of its grant; ciphertext that a runner's socket is sent is a
    frame accepted from a client whose grant names the runner registered on
    that socket, behind that client's transfer id; and the frames of both
    directions together stay within the grant's byte limit. *)
Theorem relay_isolated clock set_order :
  (∀ X, set_order X ≡ₚ elements X) → ∀ l, NoDup (sockets l) → isolated (mc_broker (acts clock set_order l)).
Proof.
  intros O l N. destruct (relay_acts_ok clock set_order O l N) as [[C F] _ _].
  set (s := mc_broker (acts clock set_order l)) in *.
  assert (Q : ∀ rid i b, Queued rid i b ∈ bk_log s → ∃ c, bk_objects s !! i = Some c ∧ gr_runner (cn_grant c) = rid).
  { intros rid i b H. destruct (w_queued _ F rid i b H) as (g & Hg & E).
    destruct (grant_object _ _ _ Hg) as (c & Hc & <-). by exists c. }
  split; [|done|..].
  - intros w b H. destruct (w_sent _ F w b H) as (i & c & Hi & E). exists i, c. split_and!; [done|done|].
    pose proof (w_client _ F i c Hi) as W. assert (Hs : b ∈ sent (ClientSocket (cn_ws c)) (bk_log s)).
    { apply list_elem_of_omap. eexists. split; [exact H|]. cbn. by rewrite E, bool_decide_eq_true_2. }
    rewrite (f_sent _ _ _ _ W) in Hs.
    assert (Hq : b ∈ queued i (bk_log s)).
    { apply (elem_of_sublist _ _ _ Hs). etransitivity; [|exact (f_order _ _ _ _ W)]. by apply sublist_inserts_r. }
    apply list_elem_of_omap in Hq as (e & He & Eq). destruct e as [|rid j b'| | | | |]; try done. cbn in Eq.
    destruct (Nat.eqb_spec j i) as [->|]; [|done]. injection Eq as ->.
    destruct (Q _ _ _ He) as (c' & Hc' & <-). by simplify_eq.
  - intros w x H. destruct (w_forwarded _ F w x H) as (i & g & b & Hg & A & E & R).
    destruct (grant_object _ _ _ Hg) as (c & Hc & <-). by exists i, c, b.
  - intros i c Hi. destruct (w_client _ F i c Hi) as [F1 F2 _ _ _ _ _]. lia.
Qed.

(** ** Grants *)

Inductive grant_call :=
  | StoreGrant (capability : pystr) (c : VerifiedRunnerCapability) (fault : store_fault)
  | ClaimGrant (t capability : pystr) (now : Z) (runners : list runner_row) (fault : store_fault).

Definition grant_result := res (option RunnerTransferGrant).

Definition grant_step {SHA : Sha256} (a : grant_call) (rows : list grant_row) : list grant_row * grant_result :=
  match a with
  | StoreGrant cap c fault =>
      let '(rows, r) := store_runner_transfer_grant cap c fault rows in (rows, let! _ := r in Ok None)
  | ClaimGrant t cap now runners fault =>
      let '(rows, r) := claim_runner_transfer_grant t cap now runners fault rows in
      (rows, let! g := r in Ok (Some g))
  end.

Fixpoint grant_calls {SHA : Sha256} (l : list grant_call) (rows : list grant_row) : list (grant_call * grant_result) :=
  match l with
  | [] => []
  | a :: r => (a, (grant_step a rows).2) :: grant_calls r (grant_step a rows).1
  end.

(** A claim that returns, and a store that may have kept its row. *)
Definition claims (t : pystr) (x : grant_call * grant_result) : bool :=
  match x with (ClaimGrant t' _ _ _ _, Ok _) => bool_decide (t' = t) | _ => false end.
Definition stores (t : pystr) (x : grant_call * grant_result) : bool :=
  match x with
  | (StoreGrant _ c _, Ok _) | (StoreGrant _ c (FailCommit true), _) => bool_decide (transfer_id c = t)
  | _ => false
  end.

(** The row that a store of the capability makes. *)
Definition stored_row {SHA : Sha256} (cap : pystr) (c : VerifiedRunnerCapability) (g : grant_row) : Prop :=
  capability_hash cap = Ok (gw_hash g) ∧ gw_transfer g = transfer_id c ∧ gw_runner g = runner_id c
  ∧ gw_expires g = expires_at c ∧ gw_max_bytes g = max_session_bytes c.

Section Grants.
Context {SHA : Sha256}.

Lemma store_ok cap c fault rows rows' r : store_runner_transfer_grant cap c fault rows = (rows', r) →
  rows' = rows ∨ ∃ h, capability_hash cap = Ok h
    ∧ rows' = List.filter (fun r => negb (gw_expires r <=? issued_at c)) rows
              ++ [{| gw_transfer := transfer_id c; gw_user := user_id c; gw_runner := runner_id c; gw_hash := h;
                     gw_expires := expires_at c; gw_max_bytes := max_session_bytes c; gw_claimed := None |}]
    ∧ stores (transfer_id c) (StoreGrant cap c fault, let! _ := r in Ok None) = true.
Proof.
  unfold store_runner_transfer_grant. destruct (capability_hash cap) as [h|e]; cbn [res_bind]; [|intros [= <- _]; by left].
  unfold insert_grant. destruct (guard _ _ _) as [u|e]; cbn [res_bind]; [|intros [= <- _]; by left].
  destruct (guard _ _ _) as [u'|e]; cbn [res_bind]; [|intros [= <- _]; by left].
  destruct fault as [| |[]]; intros [= <- <-]; try (by left); right; exists h; (split_and!; [done|done|]);
    cbn; by rewrite bool_decide_eq_true_2.
Qed.

Lemma claim_ok t cap now runners fault rows rows' r : claim_runner_transfer_grant t cap now runners fault rows = (rows', r) →
  rows' = rows ∧ (∃ e, r = Raise e)
  ∨ rows' = map (set_claimed t now) rows
    ∧ ∀ g, r = Ok g → ∃ row run h, row ∈ rows ∧ gw_transfer row = t ∧ gw_claimed row = None ∧ now < gw_expires row
        ∧ capability_hash cap = Ok h ∧ gw_hash row = h ∧ count (claimable t) rows = 1
        ∧ run ∈ runners ∧ rr_id run = gw_runner row ∧ rr_revoked run = false ∧ rr_has_token run = true
        ∧ g = {| gr_transfer := t; gr_runner := gw_runner row; gr_expires := gw_expires row;
                 gr_max_bytes := gw_max_bytes row |}.
Proof.
  unfold claim_runner_transfer_grant. destruct (check! _ in _) as [row|e] eqn:E; [|intros [= <- <-]; left; by eauto].
  apply bind_error_ok in E as (u & _ & E). apply bind_error_ok in E as (h & Eh & E).
  apply bind_error_ok in E as (u1 & _ & E). apply bind_error_ok in E as (u2 & _ & E).
  apply bind_error_ok in E as (row' & Er & E). apply bind_error_ok in E as (u3 & Ec & E). injection E as ->.
  inv_ok. breflect. unfold check_grant, select_grant in Er. destruct (find_grant t rows) as [g0|] eqn:Ef; [|done].
  destruct (find_runner _ runners) as [run|] eqn:En; [|done]. inv_ok. breflect.
  apply find_some in Ef as [Ef1 Ef2]. apply find_some in En as [En1 En2].
  apply bool_decide_eq_true in Ef2, En2.
  assert (K : ∃ row0 run0 h0, row0 ∈ rows ∧ gw_transfer row0 = t ∧ gw_claimed row0 = None ∧ now < gw_expires row0
        ∧ capability_hash cap = Ok h0 ∧ gw_hash row0 = h0 ∧ count (claimable t) rows = 1
        ∧ run0 ∈ runners ∧ rr_id run0 = gw_runner row0 ∧ rr_revoked run0 = false ∧ rr_has_token run0 = true
        ∧ {| gr_transfer := t; gr_runner := gw_runner row; gr_expires := gw_expires row;
             gr_max_bytes := gw_max_bytes row |} = {| gr_transfer := t; gr_runner := gw_runner row0;
             gr_expires := gw_expires row0; gr_max_bytes := gw_max_bytes row0 |}).
  { exists row, run, h. split_and!; try done; try (by apply list_elem_of_In); by apply eq_None_not_Some. }
  destruct fault as [| |[]]; intros [= <- <-]; try (right; split; [done|]; intros g [= <-]; exact K); left; by eauto.
Qed.

Lemma claimable_filter t f rows : count (claimable t) (List.filter f rows) <= count (claimable t) rows.
Proof.
  induction rows as [|g rows IH]; [done|]. cbn [List.filter]. destruct (f g); rewrite !count_cons; [lia|].
  destruct (claimable t g); cbn [Z.b2z]; lia.
Qed.

Lemma claimable_claimed t t' now rows : count (claimable t) (map (set_claimed t' now) rows) <= count (claimable t) rows
  ∧ count (claimable t) (map (set_claimed t now) rows) = 0.
Proof.
  assert (H : ∀ g u, claimable t (set_claimed u now g) = claimable t g && negb (claimable u g)).
  { intros g u. unfold set_claimed. destruct (claimable u g) eqn:E; [|by rewrite andb_true_r].
    rewrite andb_false_r. unfold claimable. cbn. by rewrite andb_false_r. }
  induction rows as [|g rows [IH1 IH2]]; [done|]. cbn [map]. rewrite !count_cons, !H, IH2. split.
  - destruct (claimable t g), (claimable t' g); cbn [andb negb Z.b2z]; lia.
  - by destruct (claimable t g).
Qed.

Lemma claims_bounded t l rows :
  count (claims t) (grant_calls l rows) <= count (claimable t) rows + count (stores t) (grant_calls l rows).
Proof.
  revert rows. induction l as [|a l IH]; intros rows; cbn [grant_calls]; [apply Z.add_nonneg_nonneg; apply count_nonneg|].
  rewrite !count_cons. specialize (IH (grant_step a rows).1). destruct a as [cap c fault|t' cap now runners fault]; cbn [grant_step] in *.
  - destruct (store_runner_transfer_grant _ _ _ _) as [rows' r] eqn:E. cbn [fst snd claims] in *.
    destruct (store_ok _ _ _ _ _ _ E) as [->|(h & _ & -> & S)].
    + destruct (stores t _); cbn [Z.b2z]; lia.
    + rewrite count_app, count_cons in IH. change (count (claimable t) []) with 0 in IH.
      pose proof (claimable_filter t (fun r => negb (gw_expires r <=? issued_at c)) rows).
      assert (Z.b2z (claimable t {| gw_transfer := transfer_id c; gw_user := user_id c; gw_runner := runner_id c; gw_hash := h;
                     gw_expires := expires_at c; gw_max_bytes := max_session_bytes c; gw_claimed := None |})
              <= Z.b2z (stores t (StoreGrant cap c fault, let! _ := r in Ok None))).
      { unfold claimable. cbn [gw_transfer gw_claimed]. case_bool_decide as Et; [subst t; by rewrite S|].
        destruct (stores t _); cbn; lia. }
      change (Z.b2z false) with 0. rewrite Z.add_0_l, Z.add_assoc. etransitivity; [exact IH|]. rewrite Z.add_0_r.
      apply Z.add_le_mono_r, Z.add_le_mono; done.
  - destruct (claim_runner_transfer_grant _ _ _ _ _ _) as [rows' r] eqn:E. cbn [fst snd stores] in *.
    destruct (claim_ok _ _ _ _ _ _ _ _ E) as [[-> [e ->]]|[-> K]].
    + cbn. lia.
    + destruct (claimable_claimed t t' now rows) as [B Z0]. destruct r as [g|e]; cbn [res_bind claims]; [|cbn; lia].
      case_bool_decide as Et; cbn [Z.b2z]; [|lia]. subst t'. rewrite Z0 in IH.
      destruct (K g eq_refl) as (row & run & h & _ & _ & _ & _ & _ & _ & K7 & _). lia.
Qed.

Fixpoint grant_rows (l : list grant_call) (rows : list grant_row) : list grant_row :=
  match l with [] => rows | a :: r => grant_rows r (grant_step a rows).1 end.

Lemma rows_stored l rows row : row ∈ grant_rows l rows →
  (∃ old, old ∈ rows ∧ gw_transfer old = gw_transfer row ∧ gw_runner old = gw_runner row ∧ gw_hash old = gw_hash row
    ∧ gw_expires old = gw_expires row ∧ gw_max_bytes old = gw_max_bytes row)
  ∨ ∃ cap c fault, StoreGrant cap c fault ∈ l ∧ stored_row cap c row.
Proof.
  revert rows. induction l as [|a l IH]; intros rows H; cbn [grant_rows] in H; [left; by exists row|].
  destruct (IH _ H) as [(old & Ho & E1 & E2 & E3 & E4 & E5)|(cap & c & fault & Hc & S)];
    [|right; exists cap, c, fault; split; [by right|done]].
  set (P := (∃ old, old ∈ rows ∧ _) ∨ _). assert (Hold : old ∈ rows → P) by (intros Hr; left; exists old; by split_and!).
  destruct a as [cap c fault|t' cap now runners fault]; cbn [grant_step] in Ho.
  - destruct (store_runner_transfer_grant _ _ _ _) as [rows' r] eqn:E. cbn [fst] in Ho.
    destruct (store_ok _ _ _ _ _ _ E) as [->|(h & Eh & -> & _)]; [by apply Hold|].
    apply elem_of_app in Ho as [Ho|Ho]; [apply Hold; by apply list_elem_of_In, filter_In in Ho as [Ho%list_elem_of_In _]|].
    apply list_elem_of_singleton in Ho. subst old. right. exists cap, c, fault. split; [by left|].
    cbn in *. unfold stored_row. rewrite Eh. split_and!; congruence.
  - destruct (claim_runner_transfer_grant _ _ _ _ _ _) as [rows' r] eqn:E. cbn [fst] in Ho.
    destruct (claim_ok _ _ _ _ _ _ _ _ E) as [[-> _]|[-> _]]; [by apply Hold|].
    apply list_elem_of_fmap in Ho as (o2 & -> & Ho). left. exists o2. unfold set_claimed in *. by destruct (claimable t' o2).
Qed.
End Grants.

(** C32. A claim returns at most once for every grant that was stored, over any
    sequence of stores and claims whose commits may fail. A claim that returns
    was made before the expiry, with a capability whose hash is that of one
    stored for that transfer, while the capability's runner was registered and not
    revoked, and it returns the capability's runner, expiry and byte limit. *)
Theorem grant_claimed_once {SHA : Sha256} (l : list grant_call) (t : pystr) :
  count (claims t) (grant_calls l []) <= count (stores t) (grant_calls l [])
  ∧ ∀ cap now runners fault g, (claim_runner_transfer_grant t cap now runners fault (grant_rows l [])).2 = Ok g →
      ∃ cap' c fault' run, StoreGrant cap' c fault' ∈ l ∧ capability_hash cap' = capability_hash cap
        ∧ transfer_id c = t ∧ now < expires_at c
        ∧ g = {| gr_transfer := t; gr_runner := runner_id c; gr_expires := expires_at c;
                 gr_max_bytes := max_session_bytes c |}
        ∧ run ∈ runners ∧ rr_id run = runner_id c ∧ rr_revoked run = false ∧ rr_has_token run = true.
Proof.
  split; [apply (claims_bounded t l [])|]. intros cap now runners fault g.
  destruct (claim_runner_transfer_grant _ _ _ _ _ _) as [rows' r] eqn:E. cbn [snd]. intros ->.
  destruct (claim_ok _ _ _ _ _ _ _ _ E) as [[_ [e H]]|[_ K]]; [done|].
  destruct (K g eq_refl) as (row & run & h & H1 & H2 & H3 & H4 & H5 & H6 & _ & H8 & H9 & H10 & H11 & ->).
  destruct (rows_stored l [] row H1) as [(old & Ho & _)|(cap' & c & fault' & Hc & S1 & S2 & S3 & S4 & S5)];
    [by apply elem_of_nil in Ho|].
  exists cap', c, fault', run. split_and!; try done; congruence.
Qed.

(** ** Witnesses *)

#[local] Abbreviation demo_transfer := (uuid_str (seqZ 1 16)).
#[local] Abbreviation demo_grant := {| gr_transfer := demo_transfer; gr_runner := u"runner"; gr_expires := 100; gr_max_bytes := 4 |}.
(** A runner and a client exchange three frames; a fourth is over the budget
    and ends the session, and a fifth is late. *)
#[local] Abbreviation demo_calls := [
  Call (RegisterRunner (u"runner") 0 (Ok None)); Call (AttachClient demo_grant 7); Resume 1 None;
  Call (SendClientFrames demo_transfer); Call (RunnerFrame (u"runner") (seqZ 1 16 ++ [9])); Resume 2 None;
  Call (ClientFrame demo_transfer [5; 6]); Call (RunnerFrame (u"runner") (seqZ 1 16 ++ [8])); Resume 2 None].
#[local] Abbreviation demo_rest := [
  Call (RunnerFrame (u"runner") (seqZ 1 16 ++ [7])); Call (RunnerFrame (u"runner") (seqZ 1 16 ++ [7]))].
#[local] Abbreviation demo_state l := (mc_broker (acts Z.of_nat elements l)).

Lemma demo_order : ∀ X : gset pystr, elements X ≡ₚ elements X.
Proof. done. Qed.
Lemma demo_sockets : NoDup (sockets demo_calls).
Proof. by vm_compute; apply NoDup_singleton. Qed.
Lemma demo_rest_sockets : NoDup (sockets (demo_calls ++ demo_rest)).
Proof. by vm_compute; apply NoDup_singleton. Qed.
Lemma demo_attached : bk_clients (demo_state demo_calls) !! demo_transfer = Some 0%nat.
Proof. by vm_compute. Qed.
Lemma demo_sent : sent (ClientSocket 7) (bk_log (demo_state demo_calls)) = [[9]; [8]].
Proof. by vm_compute. Qed.
Lemma demo_forwarded : sent (RunnerSocket 0) (bk_log (demo_state demo_calls)) = [seqZ 1 16 ++ [5; 6]].
Proof. by vm_compute. Qed.
Lemma demo_dropped : bk_clients (demo_state (demo_calls ++ demo_rest)) !! demo_transfer = None
  ∧ tk_prog <$> mc_tasks (acts Z.of_nat elements (demo_calls ++ demo_rest)) !! 7%nat = Some skip
  ∧ traffic 0 (bk_log (demo_state (demo_calls ++ demo_rest))) = 4.
Proof. by vm_compute. Qed.

Lemma relay_tables_bounded_witness : bk_clients (demo_state demo_calls) !! demo_transfer = Some 0%nat
  ∧ consistent (demo_state demo_calls) ∧ queues_bounded (demo_state demo_calls).
Proof.
  split; [exact demo_attached|]. exact (relay_tables_bounded Z.of_nat elements demo_order demo_calls demo_sockets).
Defined.

Lemma relay_delivers_in_order_witness : sent (ClientSocket 7) (bk_log (demo_state demo_calls)) = [[9]; [8]]
  ∧ delivers (demo_state demo_calls).
Proof.
  split; [exact demo_sent|]. exact (relay_delivers_in_order Z.of_nat elements demo_order demo_calls demo_sockets).
Defined.

Lemma relay_isolated_witness : traffic 0 (bk_log (demo_state (demo_calls ++ demo_rest))) = 4
  ∧ isolated (demo_state (demo_calls ++ demo_rest)).
Proof.
  split; [apply demo_dropped|].
  exact (relay_isolated Z.of_nat elements demo_order (demo_calls ++ demo_rest) demo_rest_sockets).
Defined.

(** A hash for the witness; the capability is stored, claimed and claimed
    again. *)
#[local] Abbreviation demo_hash := (fun m => m : pybytes).
#[local] Abbreviation demo_capability := {| user_id := u"user"; runner_id := u"runner"; runner_public_key := [];
  initiator_public_key := []; transfer_id := demo_transfer; token_id := u"token"; scopes := []; issued_at := 10;
  expires_at := 100; max_frame_bytes := 1; max_session_bytes := 4 |}.
#[local] Abbreviation demo_runners := [{| rr_id := u"runner"; rr_revoked := false; rr_has_token := true |}].
#[local] Abbreviation demo_grants := [StoreGrant (u"text") demo_capability NoFault].

Lemma demo_claim : (@claim_runner_transfer_grant demo_hash demo_transfer (u"text") 20 demo_runners NoFault
                      (@grant_rows demo_hash demo_grants [])).2 = Ok demo_grant.
Proof. by vm_compute. Qed.
Lemma demo_claims : count (claims demo_transfer) (@grant_calls demo_hash (demo_grants
  ++ [ClaimGrant demo_transfer (u"text") 20 demo_runners NoFault;
      ClaimGrant demo_transfer (u"text") 20 demo_runners NoFault]) []) = 1.
Proof. by vm_compute. Qed.

Lemma grant_claimed_once_witness : count (claims demo_transfer) (@grant_calls demo_hash (demo_grants
    ++ [ClaimGrant demo_transfer (u"text") 20 demo_runners NoFault;
        ClaimGrant demo_transfer (u"text") 20 demo_runners NoFault]) []) = 1
  ∧ ∃ cap' c fault' run, StoreGrant cap' c fault' ∈ demo_grants
        ∧ @capability_hash demo_hash cap' = @capability_hash demo_hash (u"text")
        ∧ transfer_id c = demo_transfer ∧ 20 < expires_at c
        ∧ demo_grant = {| gr_transfer := demo_transfer; gr_runner := runner_id c; gr_expires := expires_at c;
                          gr_max_bytes := max_session_bytes c |}
        ∧ run ∈ demo_runners ∧ rr_id run = runner_id c ∧ rr_revoked run = false ∧ rr_has_token run = true.
Proof.
  split; [exact demo_claims|].
  exact (proj2 (@grant_claimed_once demo_hash demo_grants demo_transfer) (u"text") 20 demo_runners NoFault demo_grant demo_claim).
Defined.
