(* ===== verification/Transactions.v ===== *)
(** * Transactions on a shared database, and calls that interleave at them

    What [services/managed_backups.py], [services/runners.py] and
    [services/managed_runners.py] do with the control database: [UPDATE] and
    [DELETE] on the rows of a table, a transaction that commits or leaves the
    tables as they were, and calls made of several transactions. A call is a
    program whose atomic steps are its statements and transactions; other
    calls of other threads run between any two steps. *)

From S2P Require Import Prelude RunnerNoise.

(** ** Rows *)

(** [UPDATE ... SET f WHERE p], whose row count is [count p], and
    [DELETE ... WHERE p]. *)
Definition update {A} (p : A → bool) (f : A → A) (l : list A) : list A := map (fun x => if p x then f x else x) l.
Definition delete_rows {A} (p : A → bool) (l : list A) : list A := List.filter (fun x => negb (p x)) l.

(** A transaction returns with new tables to commit, or without when it
    rolls back. *)
Definition transaction {S A} (fault : store_fault) (body : S → res (option S * A)) : st S A := fun t =>
  match fault with
  | FailBefore => (t, raise SqliteError "disk I/O error")
  | _ =>
      match body t with
      | Raise e => (t, Raise e)
      | Ok (None, a) => (t, Ok a)
      | Ok (Some t', a) =>
          match fault with
          | FailCommit durable => (if durable then t' else t, raise SqliteError "disk I/O error")
          | _ => (t', Ok a)
          end
      end
  end.

(** ** Programs *)

(** A step from the state [s] leaves [f s] and goes on with [k s]. *)
Inductive prog (S A : Type) :=
  | Done (r : res A)
  | Atomic (f : S → S) (k : S → prog S A).
Arguments Done {S A} r.
Arguments Atomic {S A} f k.

Fixpoint prog_bind {S A B} (p : prog S A) (k : A → prog S B) : prog S B :=
  match p with
  | Done (Ok a) => k a
  | Done (Raise e) => Done (Raise e)
  | Atomic f p' => Atomic f (fun s => prog_bind (p' s) k)
  end.

Notation "'let*' x ':=' m 'in' k" := (prog_bind m (fun x => k))
  (at level 10, x name, m at level 100, k at level 200).
Notation "'do*' m 'in' k" := (prog_bind m (fun _ => k))
  (at level 10, m at level 100, k at level 200).

(** Python code between statements, a [SELECT], and a transaction. *)
Definition pure {S A} (r : res A) : prog S A := Done r.
Definition select {S A} (f : S → A) : prog S A := Atomic id (fun s => Done (Ok (f s))).
Definition atomically {S A} (m : st S A) : prog S A := Atomic (fun s => (m s).1) (fun s => Done (m s).2).

(** Whether a call has returned. *)
Definition returned {S A} (p : prog S A) : bool := match p with Done _ => true | Atomic _ _ => false end.

(** A call without others in between. *)
Fixpoint alone {S A} (p : prog S A) (s : S) : S * res A :=
  match p with
  | Done r => (s, r)
  | Atomic f p' => alone (p' s) (f s)
  end.

Lemma alone_bind {S A B} (p : prog S A) (k : A → prog S B) s :
  alone (prog_bind p k) s = let '(s', r) := alone p s in match r with Ok a => alone (k a) s' | Raise e => (s', Raise e) end.
Proof.
  revert s. induction p as [[a|e]|f p' IH]; intros s; [done|done|]. apply IH.
Qed.

(** ** Threads *)

Section Threads.
Context {S C A : Type} (body : C → prog S A).

(** The database, and the calls that have not returned with the rest of their
    programs. *)
Record threads := { th_state : S; th_calls : list (C * prog S A) }.

(** A call starts, takes a step, or dies with its connection. *)
Inductive event := Start (c : C) | Step (i : nat) | Kill (i : nat).

(** The other events find nothing to do. *)
Definition happen (e : event) (m : threads) : threads :=
  match e with
  | Start c => {| th_state := th_state m; th_calls := th_calls m ++ [(c, body c)] |}
  | Step i =>
      match th_calls m !! i with
      | Some (c, Atomic f k) =>
          {| th_state := f (th_state m); th_calls := <[i := (c, k (th_state m))]> (th_calls m) |}
      | _ => m
      end
  | Kill i =>
      match th_calls m !! i with
      | Some (c, Atomic _ _) =>
          {| th_state := th_state m; th_calls := <[i := (c, Done (raise SqliteError "connection closed"))]> (th_calls m) |}
      | _ => m
      end
  end.
Definition happens (l : list event) (m : threads) : threads := fold_left (fun m e => happen e m) l m.

Lemma happens_app l k m : happens (l ++ k) m = happens k (happens l m).
Proof. apply fold_left_app. Qed.

(** ** What a program guarantees

    Every step, from a state with the invariant [I], keeps [I] and is a [G];
    the result is a [Q]. *)
Fixpoint ensures {B} (I : S → Prop) (G : S → S → Prop) (Q : res B → Prop) (p : prog S B) : Prop :=
  match p with
  | Done r => Q r
  | Atomic f k => ∀ s, I s → I (f s) ∧ G s (f s) ∧ ensures I G Q (k s)
  end.

Lemma ensures_weaken {B} (I : S → Prop) G G' (Q Q' : res B → Prop) p : (∀ s s', I s → G s s' → G' s s') → (∀ r, Q r → Q' r) →
  ensures I G Q p → ensures I G' Q' p.
Proof.
  intros HG HQ. induction p as [r|f k IH]; [apply HQ|]. cbn. intros H s Hs. destruct (H s Hs) as (H1 & H2 & H3).
  split_and!; [done|by apply HG|by apply IH].
Qed.

Lemma ensures_bind {B D} I G (Q : res B → Prop) (R : res D → Prop) p k :
  ensures I G Q p → (∀ a, Q (Ok a) → ensures I G R (k a)) → (∀ e, Q (Raise e) → R (Raise e)) →
  ensures I G R (prog_bind p k).
Proof.
  intros Hp Hk He. induction p as [[a|e]|f p' IH]; [by apply Hk|by apply He|]. cbn. intros s Hs.
  destruct (Hp s Hs) as (H1 & H2 & H3). split_and!; [done|done|by apply IH].
Qed.

Lemma ensures_pure {B} I G (Q : res B → Prop) r : Q r → ensures I G Q (pure r).
Proof. done. Qed.

Lemma ensures_select {B} I G (f : S → B) : (∀ s, I s → G s s) →
  ensures I G (fun r => ∃ s, I s ∧ r = Ok (f s)) (select f).
Proof. intros H s Hs. cbn. split_and!; [done|by apply H|by exists s]. Qed.

Lemma ensures_atomically {B} I G (Q : res B → Prop) (m : st S B) :
  (∀ s, I s → I (m s).1 ∧ G s (m s).1 ∧ Q (m s).2) → ensures I G Q (atomically m).
Proof. intros H s Hs. by apply H. Qed.

(** A transaction that keeps [I], by [G], whatever its commit does. *)
Lemma ensures_transaction {B} I G (Q : res B → Prop) fault (t : S → res (option S * B)) :
  (∀ s, I s → G s s) → (∀ e, Q (Raise e)) →
  (∀ s s' b, I s → t s = Ok (Some s', b) → I s' ∧ G s s' ∧ Q (Ok b)) →
  (∀ s b, I s → t s = Ok (None, b) → Q (Ok b)) →
  ensures I G Q (atomically (transaction fault t)).
Proof.
  intros Hr He Hs Hn. apply ensures_atomically. intros s HI. unfold transaction.
  destruct (t s) as [[[s'|] b]|e] eqn:E.
  - destruct (Hs s s' b HI E) as (H1 & H2 & H3). destruct fault as [| |[]]; cbn; split_and!; auto; apply He.
  - pose proof (Hn s b HI E). destruct fault as [| |d]; cbn; split_and!; auto; apply He.
  - destruct fault as [| |d]; cbn; split_and!; auto; apply He.
Qed.

(** In every interleaving of calls that ensure it, the invariant is kept and
    every state follows from those before by steps of [G]. *)
Lemma threads_ensure (I : S → Prop) (G : S → S → Prop) (L : C → Prop) `{!Reflexive G, !Transitive G} l m :
  (∀ c, L c → ensures I G (fun _ => True) (body c)) →
  I (th_state m) → Forall (fun cp => ensures I G (fun _ => True) cp.2) (th_calls m) →
  (∀ c, Start c ∈ l → L c) →
  I (th_state (happens l m)) ∧ G (th_state m) (th_state (happens l m))
  ∧ Forall (fun cp => ensures I G (fun _ => True) cp.2) (th_calls (happens l m)).
Proof.
  intros Hb. revert m. induction l as [|e l IH]; intros m HI HF HL; [done|]. cbn [happens fold_left].
  assert (H : I (th_state (happen e m)) ∧ G (th_state m) (th_state (happen e m))
              ∧ Forall (fun cp => ensures I G (fun _ => True) cp.2) (th_calls (happen e m))).
  { destruct e as [c|i|i]; cbn [happen].
    - split_and!; [done|done|]. apply Forall_app. split; [done|]. apply Forall_singleton, Hb, HL. by left.
    - destruct (th_calls m !! i) as [[c [r|f k]]|] eqn:E; [done| |done].
      destruct (Forall_lookup_1 _ _ _ _ HF E (th_state m) HI) as (H1 & H2 & H3). split_and!; [done|done|by apply Forall_insert].
    - destruct (th_calls m !! i) as [[c [r|f k]]|] eqn:E; [done| |done]. split_and!; [done|done|by apply Forall_insert]. }
  destruct H as (H1 & H2 & H3). destruct (IH (happen e m) H1 H3) as (H4 & H5 & H6).
  { intros c Hc. apply HL. by right. }
  split_and!; [done|by transitivity (th_state (happen e m))|done].
Qed.

(** What holds of the rest of every program, with the invariant. *)
Lemma threads_calls (I : S → Prop) (W : C → prog S A → Prop) (L : C → Prop) l m :
  (∀ c, L c → W c (body c)) → (∀ c e, W c (Done (Raise e))) →
  (∀ c f k s, W c (Atomic f k) → I s → I (f s) ∧ W c (k s)) →
  I (th_state m) → Forall (fun cp => W cp.1 cp.2) (th_calls m) → (∀ c, Start c ∈ l → L c) →
  I (th_state (happens l m)) ∧ Forall (fun cp => W cp.1 cp.2) (th_calls (happens l m)).
Proof.
  intros Hb He Hs. revert m. induction l as [|e l IH]; intros m HI HF HL; [done|]. cbn [happens fold_left].
  assert (H : I (th_state (happen e m)) ∧ Forall (fun cp => W cp.1 cp.2) (th_calls (happen e m))).
  { destruct e as [c|i|i]; cbn [happen].
    - split; [done|]. apply Forall_app. split; [done|]. apply Forall_singleton, Hb, HL. by left.
    - destruct (th_calls m !! i) as [[c [r|f k]]|] eqn:E; [done| |done].
      destruct (Hs c f k (th_state m) (Forall_lookup_1 _ _ _ _ HF E) HI) as [H1 H2]. split; [done|by apply Forall_insert].
    - destruct (th_calls m !! i) as [[c [r|f k]]|] eqn:E; [done| |done]. split; [done|]. apply Forall_insert; [done|apply He]. }
  destruct H as (H1 & H2). apply (IH (happen e m) H1 H2). intros c Hc. apply HL. by right.
Qed.
End Threads.
Arguments threads : clear implicits.
Arguments event : clear implicits.

(** ** Lemmas on rows *)

Lemma guard_ok b c m x : guard b c m = Ok x → b = true.
Proof. by destruct b. Qed.

Lemma NoDup_map_eq {A B} (f : A → B) l x y : NoDup (map f l) → x ∈ l → y ∈ l → f x = f y → x = y.
Proof.
  induction l as [|z l IH]; [by intros _ ?%elem_of_nil|]. cbn. intros [Hz Hl]%NoDup_cons [->|Hx]%elem_of_cons [->|Hy]%elem_of_cons E.
  - done.
  - destruct Hz. rewrite E. by apply list_elem_of_fmap_2.
  - destruct Hz. rewrite <- E. by apply list_elem_of_fmap_2.
  - by apply IH.
Qed.

Lemma in_update {A} (p : A → bool) f (l : list A) y : y ∈ update p f l ↔ ∃ x, x ∈ l ∧ y = if p x then f x else x.
Proof. unfold update. rewrite list_elem_of_fmap. naive_solver. Qed.

Lemma in_delete {A} (p : A → bool) (l : list A) x : x ∈ delete_rows p l ↔ x ∈ l ∧ p x = false.
Proof.
  unfold delete_rows. rewrite !list_elem_of_In, filter_In. by rewrite negb_true_iff.
Qed.

Lemma map_update {A B} (p : A → bool) f (g : A → B) l : (∀ x, g (f x) = g x) → map g (update p f l) = map g l.
Proof. intros H. unfold update. rewrite map_map. apply map_ext. intros x. by destruct (p x). Qed.

Lemma NoDup_delete {A B} (p : A → bool) (g : A → B) l : NoDup (map g l) → NoDup (map g (delete_rows p l)).
Proof.
  intros H. eapply sublist_NoDup; [exact H|]. apply fmap_sublist. clear H. unfold delete_rows.
  induction l as [|x l IH]; [constructor|]. cbn [List.filter]. destruct (negb (p x)); by constructor.
Qed.

Lemma find_in {A} (p : A → bool) l x : List.find p l = Some x → x ∈ l ∧ p x = true.
Proof. intros H. apply find_some in H as [H1 H2]. split; [by apply list_elem_of_In|done]. Qed.

Lemma find_none_in {A} (p : A → bool) l x : List.find p l = None → x ∈ l → p x = false.
Proof. intros H Hx. by apply (find_none p l H), list_elem_of_In. Qed.

Lemma existsb_none {A B} `{EqDecision B} (h : A → B) l y : existsb (fun x => bool_decide (h x = y)) l = false →
  ∀ x, x ∈ l → h x ≠ y.
Proof.
  intros He x Hx E. apply not_true_iff_false in He. apply He, existsb_exists. exists x.
  by rewrite <- list_elem_of_In, bool_decide_eq_true_2.
Qed.

Lemma NoDup_snoc {A B} (h : A → B) l x : NoDup (map h l) → (∀ y, y ∈ l → h y ≠ h x) → NoDup (map h (l ++ [x])).
Proof.
  intros Hn Hx. rewrite map_app. apply NoDup_app. split_and!; [done| |apply NoDup_singleton].
  intros y (z & -> & Hz)%list_elem_of_fmap E%list_elem_of_singleton. by apply (Hx z).
Qed.

Lemma count_pos {A} (p : A → bool) l : count p l ≠ 0 → ∃ x, x ∈ l ∧ p x = true.
Proof.
  intros H. unfold count in H. destruct (List.filter p l) as [|x r] eqn:E; [done|]. exists x.
  assert (Hx : x ∈ List.filter p l) by (rewrite E; by left). apply list_elem_of_In, filter_In in Hx as [Hx Hp].
  split; [by apply list_elem_of_In|done].
Qed.

Lemma update_none {A} (f : A → A) l : update (fun _ => false) f l = l.
Proof. unfold update. apply map_id. Qed.
