(* ===== verification/ManagedBackups.v ===== *)
(** * The catalog of managed backups

    Models [services/managed_backups.py] and
    [services/managed_operation_failures.py]: archives and the operations that
    create, restore and delete them, in tables of the control database. Each
    operation holds an expiring lease; every function is one transaction.

    A row is a record; a transaction that raises or rolls back leaves the
    tables as they were, and its commit may fail with the rows durable or not.
    [_timestamp] writes times of whole seconds as texts of one width, which
    SQLite compares in the order of the times: a time is its second here, and
    [None] an argument that is not an aware [datetime]. Text arguments have no
    lone surrogates and integers fit 64 bits. *)

From S2P Require Import Prelude Text RunnerNoise Transactions.

(** ** Tables *)

Inductive archive_status := ArchiveCreating | ArchiveUploaded | ArchiveReady | ArchiveFailed | ArchiveDeleting
  | ArchiveDeleted.
Inductive operation_status := OperationRunning | OperationFailed.
Inductive operation_kind := CreateOperation | RestoreOperation | DeleteOperation.
Inductive failure_class := RestoreFailed | DeletionFailed.
Inductive runtime_status := RuntimeProvisioning | RuntimeReady | RuntimeFailed | RuntimeDeleting.
#[export] Instance archive_status_eq_dec : EqDecision archive_status.
Proof. solve_decision. Defined.
#[export] Instance operation_status_eq_dec : EqDecision operation_status.
Proof. solve_decision. Defined.
#[export] Instance operation_kind_eq_dec : EqDecision operation_kind.
Proof. solve_decision. Defined.
#[export] Instance failure_class_eq_dec : EqDecision failure_class.
Proof. solve_decision. Defined.
#[export] Instance runtime_status_eq_dec : EqDecision runtime_status.
Proof. solve_decision. Defined.

(** [managed_backup_archives] and [ManagedBackupArchive] *)
Record archive := {
  ar_id : pystr;
  ar_user : pystr;
  ar_generation : Z;
  ar_status : archive_status;
  ar_object_key : pystr;
  ar_object_version : option pystr;
  ar_size : option Z;
  ar_sha256 : option pystr;
  ar_wrapped_key : pybytes;
  ar_key_id : pystr;
  ar_owner_digest : pystr;
  ar_created : Z;
  ar_completed : option Z;
  ar_error : option pystr;
}.

(** [managed_backup_operations] and [ManagedBackupOperation] *)
Record operation := {
  op_user : pystr;
  op_job : pystr;
  op_archive : pystr;
  op_kind : operation_kind;
  op_status : operation_status;
  op_generation : Z;
  op_phase : pystr;
  op_lease_owner : option pystr;
  op_lease_token : option pystr;
  op_lease_expires : option Z;
  op_attempts : Z;
  op_next_attempt : option Z;
  op_source_runner : option pystr;
  op_source_sprite : option pystr;
  op_source_lost : bool;
  op_candidate_runner : option pystr;
  op_candidate_sprite : option pystr;
  op_activation : option Z;
  op_started : Z;
  op_updated : Z;
  op_error : option pystr;
  op_failure : option failure_class;
}.

(** [managed_runtimes]; the functions here read it, [ManagedRunners] writes it. *)
Record runtime := {
  rt_user : pystr;
  rt_runner : pystr;
  rt_sprite : pystr;
  rt_status : runtime_status;
  rt_generation : Z;
  rt_artifact : pystr;
  rt_created : Z;
  rt_updated : Z;
  rt_error : option pystr;
}.
#[export] Instance runtime_eq_dec : EqDecision runtime.
Proof. solve_decision. Defined.

Record tables := {
  tb_archives : list archive;
  tb_operations : list operation;
  tb_runtimes : list runtime;
}.
Definition empty_tables : tables := {| tb_archives := []; tb_operations := []; tb_runtimes := [] |}.

Definition with_archives (x : list archive) (t : tables) : tables :=
  {| tb_archives := x; tb_operations := tb_operations t; tb_runtimes := tb_runtimes t |}.
Definition with_operations (x : list operation) (t : tables) : tables :=
  {| tb_archives := tb_archives t; tb_operations := x; tb_runtimes := tb_runtimes t |}.
Definition with_runtimes (x : list runtime) (t : tables) : tables :=
  {| tb_archives := tb_archives t; tb_operations := tb_operations t; tb_runtimes := x |}.

(** One [UPDATE] or [DELETE] of operations and [rowcount == 1]. *)
Definition write_operations (fault : store_fault) (p : operation → bool) (f : list operation → list operation) :
    st tables bool :=
  transaction fault (fun t => Ok (Some (with_operations (f (tb_operations t)) t), count p (tb_operations t) =? 1)).

(** ** Checks of arguments *)

Definition timestamp (now : option Z) : res Z :=
  match now with Some t => Ok t | None => raise ValueError "now must be a timezone-aware datetime" end.
Definition require_user_id (user : pystr) : res pystr :=
  let normalized := strip user in
  check! guard (negb (bool_decide (normalized = []))) ValueError "user_id must not be empty" in
  Ok normalized.
Definition require_bounded (limit : Z) (name : string) (s : pystr) : res unit :=
  guard (negb (bool_decide (s = [])) && (zlen s <=? limit)) ValueError (name +:+ " must be bounded non-empty text").
Definition require_text (name : string) (s : pystr) : res unit :=
  guard (negb (bool_decide (s = []))) ValueError (name +:+ " must not be empty").
Definition require_generation (n : Z) : res unit :=
  guard (0 <? n) ValueError "runtime_generation must be a positive integer".
Definition require_size (n : Z) : res unit := guard (0 <? n) ValueError "size_bytes must be a positive integer".
Definition require_digest (name : string) (s : pystr) : res unit :=
  guard ((zlen s =? 64) && forallb is_hex s) ValueError (name +:+ " must be 64 lowercase hexadecimal characters").
Definition require_lease_times (now expiry : option Z) : res (Z * Z) :=
  let! n := timestamp now in
  let! e := timestamp expiry in
  check! guard (n <? e) ValueError "lease_expires_at must be after now" in
  Ok (n, e).

(** ** Rows *)

Definition running (o : operation) : bool := bool_decide (op_status o = OperationRunning).
Definition is_kind (k : operation_kind) (o : operation) : bool := bool_decide (op_kind o = k).
Definition is_job (job : pystr) (o : operation) : bool := bool_decide (op_job o = job).
Definition of_user (user : pystr) (o : operation) : bool := bool_decide (op_user o = user).
Definition in_phase (phase : pystr) (o : operation) : bool := bool_decide (op_phase o = phase).
(** [lease_expires_at > ?] and [lease_expires_at IS NULL OR lease_expires_at <= ?] *)
Definition unexpired (now : Z) (o : operation) : bool :=
  match op_lease_expires o with Some e => now <? e | None => false end.
Definition expired (now : Z) (o : operation) : bool :=
  match op_lease_expires o with Some e => e <=? now | None => true end.
(** [job_id = ? AND lease_token = ? AND status = 'running' AND
    runtime_generation = ? AND lease_expires_at > ?] *)
Definition leased (job token : pystr) (generation now : Z) (o : operation) : bool :=
  is_job job o && bool_decide (op_lease_token o = Some token) && running o && (op_generation o =? generation)
  && unexpired now o.
Definition candidate (runner sprite : pystr) (o : operation) : bool :=
  bool_decide (op_candidate_runner o = Some runner) && bool_decide (op_candidate_sprite o = Some sprite).

Definition set_lease (owner token : option pystr) (expires : Z) (attempts now : Z) (o : operation) : operation := {|
  op_user := op_user o; op_job := op_job o; op_archive := op_archive o; op_kind := op_kind o; op_status := op_status o;
  op_generation := op_generation o; op_phase := op_phase o; op_lease_owner := owner; op_lease_token := token;
  op_lease_expires := Some expires; op_attempts := attempts; op_next_attempt := op_next_attempt o;
  op_source_runner := op_source_runner o; op_source_sprite := op_source_sprite o; op_source_lost := op_source_lost o;
  op_candidate_runner := op_candidate_runner o; op_candidate_sprite := op_candidate_sprite o;
  op_activation := op_activation o; op_started := op_started o; op_updated := now; op_error := op_error o;
  op_failure := op_failure o |}.
Definition set_phase (phase : pystr) (runner sprite : option pystr) (activation : option Z) (now : Z) (o : operation) :
    operation := {|
  op_user := op_user o; op_job := op_job o; op_archive := op_archive o; op_kind := op_kind o; op_status := op_status o;
  op_generation := op_generation o; op_phase := phase; op_lease_owner := op_lease_owner o;
  op_lease_token := op_lease_token o; op_lease_expires := op_lease_expires o; op_attempts := op_attempts o;
  op_next_attempt := op_next_attempt o; op_source_runner := op_source_runner o;
  op_source_sprite := op_source_sprite o; op_source_lost := op_source_lost o; op_candidate_runner := runner;
  op_candidate_sprite := sprite; op_activation := activation; op_started := op_started o; op_updated := now;
  op_error := op_error o; op_failure := op_failure o |}.
Definition set_failed (failure : option failure_class) (error : pystr) (now : Z) (o : operation) : operation := {|
  op_user := op_user o; op_job := op_job o; op_archive := op_archive o; op_kind := op_kind o;
  op_status := OperationFailed; op_generation := op_generation o; op_phase := op_phase o;
  op_lease_owner := op_lease_owner o; op_lease_token := op_lease_token o; op_lease_expires := op_lease_expires o;
  op_attempts := op_attempts o; op_next_attempt := op_next_attempt o; op_source_runner := op_source_runner o;
  op_source_sprite := op_source_sprite o; op_source_lost := op_source_lost o;
  op_candidate_runner := op_candidate_runner o; op_candidate_sprite := op_candidate_sprite o;
  op_activation := op_activation o; op_started := op_started o; op_updated := now; op_error := Some error;
  op_failure := failure |}.
(** The row that a start inserts, with the defaults of its columns. *)
Definition new_operation (user job archive : pystr) (kind : operation_kind) (generation : Z)
    (runner sprite : option pystr) (lost : bool) (now : Z) : operation := {|
  op_user := user; op_job := job; op_archive := archive; op_kind := kind; op_status := OperationRunning;
  op_generation := generation; op_phase := u"claimed"; op_lease_owner := None; op_lease_token := None;
  op_lease_expires := None; op_attempts := 0; op_next_attempt := None; op_source_runner := runner;
  op_source_sprite := sprite; op_source_lost := lost; op_candidate_runner := None; op_candidate_sprite := None;
  op_activation := None; op_started := now; op_updated := now; op_error := None; op_failure := None |}.

Definition set_object (status : archive_status) (version : option pystr) (size : option Z) (sha256 : option pystr)
    (key : pybytes) (completed : option Z) (a : archive) : archive := {|
  ar_id := ar_id a; ar_user := ar_user a; ar_generation := ar_generation a; ar_status := status;
  ar_object_key := ar_object_key a; ar_object_version := version; ar_size := size; ar_sha256 := sha256;
  ar_wrapped_key := key; ar_key_id := ar_key_id a; ar_owner_digest := ar_owner_digest a; ar_created := ar_created a;
  ar_completed := completed; ar_error := None |}.
Definition set_archive_status (status : archive_status) (completed : option Z) (error : option pystr) (a : archive) :
    archive := {|
  ar_id := ar_id a; ar_user := ar_user a; ar_generation := ar_generation a; ar_status := status;
  ar_object_key := ar_object_key a; ar_object_version := ar_object_version a; ar_size := ar_size a;
  ar_sha256 := ar_sha256 a; ar_wrapped_key := ar_wrapped_key a; ar_key_id := ar_key_id a;
  ar_owner_digest := ar_owner_digest a; ar_created := ar_created a; ar_completed := completed; ar_error := error |}.

Definition find_archive (id : pystr) (t : tables) : option archive :=
  List.find (fun a => bool_decide (ar_id a = id)) (tb_archives t).
Definition find_runtime (user : pystr) (t : tables) : option runtime :=
  List.find (fun r => bool_decide (rt_user r = user)) (tb_runtimes t).

(** ** Leases *)

(** [ORDER BY started_at, job_id LIMIT 1] *)
Definition before (a b : operation) : bool :=
  (op_started a <? op_started b) || ((op_started a =? op_started b) && str_ltb (op_job a) (op_job b)).
Fixpoint least (l : list operation) : option operation :=
  match l with
  | [] => None
  | o :: r => match least r with
              | Some o' => if before o' o then Some o' else Some o
              | None => Some o
              end
  end.

Definition due (now : Z) (o : operation) : bool :=
  running o && match op_next_attempt o with Some n => n <=? now | None => true end && expired now o.

Definition claim_due_managed_backup_operation (worker token : pystr) (now expiry : option Z) (fault : store_fault) :
    st tables (option operation) :=
  do^ st_lift (require_bounded 128 "worker_id" worker) in
  do^ st_lift (require_bounded 128 "lease_token" token) in
  let^ times := st_lift (require_lease_times now expiry) in
  let '(n, e) := times in
  transaction fault (fun t =>
    match least (List.filter (due n) (tb_operations t)) with
    | None => Ok (None, None)
    | Some o =>
        let mine x := is_job (op_job o) x && running x && expired n x in
        if negb (count mine (tb_operations t) =? 1) then Ok (None, None)
        else
          let ops := update mine (fun x => set_lease (Some worker) (Some token) e (op_attempts x + 1) n x)
                       (tb_operations t) in
          match List.find (is_job (op_job o)) ops with
          | None => raise AssertionError EmptyString
          | Some claimed => Ok (Some (with_operations ops t), Some claimed)
          end
    end).

Definition renew_managed_backup_operation_lease (job worker token : pystr) (generation : Z) (now expiry : option Z)
    (fault : store_fault) : st tables bool :=
  do^ st_lift (require_bounded 128 "job_id" job) in
  do^ st_lift (require_bounded 128 "worker_id" worker) in
  do^ st_lift (require_bounded 128 "lease_token" token) in
  do^ st_lift (require_generation generation) in
  let^ times := st_lift (require_lease_times now expiry) in
  let '(n, e) := times in
  let mine o := leased job token generation n o && bool_decide (op_lease_owner o = Some worker) in
  write_operations fault mine
    (update mine (fun o => set_lease (op_lease_owner o) (op_lease_token o) e (op_attempts o) n o)).

(** ** Restores and phases *)

Definition record_managed_backup_candidate (job token : pystr) (generation : Z) (runner sprite : pystr)
    (now : option Z) (fault : store_fault) : st tables bool :=
  do^ st_lift (require_bounded 128 "job_id" job) in
  do^ st_lift (require_bounded 128 "lease_token" token) in
  do^ st_lift (require_bounded 128 "candidate_runner_id" runner) in
  do^ st_lift (require_bounded 128 "candidate_sprite_id" sprite) in
  do^ st_lift (require_generation generation) in
  let^ n := st_lift (timestamp now) in
  let mine o := leased job token generation n o && is_kind RestoreOperation o
                && (in_phase (u"claimed") o || (in_phase (u"candidate_provisioning") o && candidate runner sprite o)) in
  write_operations fault mine
    (update mine (fun o => set_phase (u"candidate_provisioning") (Some runner) (Some sprite) (op_activation o) n o)).

Definition clear_managed_backup_candidate (job token : pystr) (generation : Z) (runner sprite : pystr)
    (now : option Z) (fault : store_fault) : st tables bool :=
  do^ st_lift (require_bounded 128 "job_id" job) in
  do^ st_lift (require_bounded 128 "lease_token" token) in
  do^ st_lift (require_bounded 128 "candidate_runner_id" runner) in
  do^ st_lift (require_bounded 128 "candidate_sprite_id" sprite) in
  do^ st_lift (require_generation generation) in
  let^ n := st_lift (timestamp now) in
  let mine o := leased job token generation n o && is_kind RestoreOperation o
                && in_phase (u"candidate_provisioning") o && candidate runner sprite o in
  write_operations fault mine (update mine (fun o => set_phase (u"claimed") None None (op_activation o) n o)).

Definition advance_managed_backup_operation (job token : pystr) (generation : Z) (expected next : pystr)
    (now : option Z) (fault : store_fault) : st tables bool :=
  do^ st_lift (require_bounded 128 "job_id" job) in
  do^ st_lift (require_bounded 128 "lease_token" token) in
  do^ st_lift (require_bounded 128 "expected_phase" expected) in
  do^ st_lift (require_bounded 128 "next_phase" next) in
  do^ st_lift (require_generation generation) in
  let^ n := st_lift (timestamp now) in
  let mine o := leased job token generation n o && in_phase expected o in
  write_operations fault mine
    (update mine (fun o => set_phase next (op_candidate_runner o) (op_candidate_sprite o) (op_activation o) n o)).

Definition complete_managed_backup_restore (job token : pystr) (generation : Z) (now : option Z)
    (fault : store_fault) : st tables bool :=
  do^ st_lift (require_bounded 128 "job_id" job) in
  do^ st_lift (require_bounded 128 "lease_token" token) in
  do^ st_lift (require_generation generation) in
  let^ n := st_lift (timestamp now) in
  let mine o := leased job token generation n o && is_kind RestoreOperation o && in_phase (u"activated") o in
  write_operations fault mine (delete_rows mine).

(** What [activate_managed_restore_candidate] of [services/managed_runners.py]
    writes of these tables. *)
Definition activated (user job token : pystr) (generation now : Z) (o : operation) : bool :=
  of_user user o && leased job token generation now o && is_kind RestoreOperation o.
Definition activate_operation (generation now : Z) (o : operation) : operation :=
  set_phase (u"activated") (op_candidate_runner o) (op_candidate_sprite o) (Some (generation + 1)) now o.

(** [fail_managed_backup_operation]; [IS] compares NULL with NULL, and the
    message of a row that is written is bounded by a constraint. *)
Definition fail_managed_backup_operation (job : pystr) (generation : Z) (owner token : option pystr)
    (failure : failure_class) (error : pystr) (now : option Z) (fault : store_fault) : st tables bool :=
  let^ n := st_lift (timestamp now) in
  let mine o := is_job job o && (op_generation o =? generation) && running o
                && bool_decide (op_lease_owner o = owner) && bool_decide (op_lease_token o = token) in
  transaction fault (fun t =>
    check! guard ((count mine (tb_operations t) =? 0) || (zlen error <=? 1000)) IntegrityError
      "CHECK constraint failed" in
    Ok (Some (with_operations (update mine (set_failed (Some failure) error n) (tb_operations t)) t),
        count mine (tb_operations t) =? 1)).

(** ** Starts *)

(** [_retire_failed_managed_operation], inside the transaction of a start. *)
Definition retire_failed_managed_operation (user : pystr) (t : tables) : res tables :=
  match List.find (of_user user) (tb_operations t) with
  | None => Ok t
  | Some o =>
      if running o then raise ManagedBackupConflictError "Managed backup operation is already active"
      else
        let t := with_operations (delete_rows (of_user user) (tb_operations t)) t in
        if is_kind DeleteOperation o then
          let stuck a := bool_decide (ar_id a = op_archive o) && bool_decide (ar_user a = user)
                         && bool_decide (ar_status a = ArchiveDeleting) in
          Ok (with_archives (update stuck (fun a => set_archive_status ArchiveReady (ar_completed a) (ar_error a) a)
                               (tb_archives t)) t)
        else Ok t
  end.

(** [INSERT INTO managed_backup_operations]: the primary key, the unique job
    and the reference to the archive. *)
Definition insert_operation (o : operation) (t : tables) : res tables :=
  check! guard (negb (existsb (of_user (op_user o)) (tb_operations t))) IntegrityError "UNIQUE constraint failed" in
  check! guard (negb (existsb (is_job (op_job o)) (tb_operations t))) IntegrityError "UNIQUE constraint failed" in
  check! guard (bool_decide (is_Some (find_archive (op_archive o) t))) IntegrityError
    "FOREIGN KEY constraint failed" in
  Ok (with_operations (tb_operations t ++ [o]) t).
Definition insert_archive (a : archive) (t : tables) : res tables :=
  check! guard (negb (existsb (fun x => bool_decide (ar_id x = ar_id a)) (tb_archives t))) IntegrityError
    "UNIQUE constraint failed" in
  check! guard (negb (existsb (fun x => bool_decide (ar_object_key x = ar_object_key a)) (tb_archives t)))
    IntegrityError "UNIQUE constraint failed" in
  Ok (with_archives (tb_archives t ++ [a]) t).

Definition start_managed_backup_creation (user : pystr) (generation : Z) (archive_id job object_key : pystr)
    (wrapped_key : pybytes) (key_id owner_digest : pystr) (now : option Z) (fault : store_fault) :
    st tables (archive * operation) :=
  let^ user := st_lift (require_user_id user) in
  do^ st_lift (require_generation generation) in
  do^ st_lift (require_bounded 128 "archive_id" archive_id) in
  do^ st_lift (require_bounded 128 "job_id" job) in
  do^ st_lift (require_bounded 1024 "object_key" object_key) in
  do^ st_lift (require_bounded 128 "key_id" key_id) in
  do^ st_lift (guard (negb (bool_decide (wrapped_key = []))) ValueError "wrapped_key must be non-empty bytes") in
  do^ st_lift (require_digest "owner_digest" owner_digest) in
  let^ n := st_lift (timestamp now) in
  transaction fault (fun t =>
    let! t := retire_failed_managed_operation user t in
    match find_runtime user t with
    | None => raise ManagedBackupConflictError "Managed runtime is not ready for backup"
    | Some rt =>
        check! guard ((rt_generation rt =? generation) && bool_decide (rt_status rt = RuntimeReady))
          ManagedBackupConflictError "Managed runtime is not ready for backup" in
        let a := {| ar_id := archive_id; ar_user := user; ar_generation := generation;
                    ar_status := ArchiveCreating; ar_object_key := object_key; ar_object_version := None;
                    ar_size := None; ar_sha256 := None; ar_wrapped_key := wrapped_key; ar_key_id := key_id;
                    ar_owner_digest := owner_digest; ar_created := n; ar_completed := None; ar_error := None |} in
        let! t := insert_archive a t in
        let o := new_operation user job archive_id CreateOperation generation (Some (rt_runner rt))
                   (Some (rt_sprite rt)) false n in
        let! t := insert_operation o t in
        Ok (Some t, (a, o))
    end).

(** [_start_managed_backup_restore]: for [start_managed_backup_restore] the
    source is not lost, for [start_managed_source_loss_restore] it is. *)
Definition ready_archive (archive_id user : pystr) (a : archive) : bool :=
  bool_decide (ar_id a = archive_id) && bool_decide (ar_user a = user) && bool_decide (ar_status a = ArchiveReady)
  && bool_decide (is_Some (ar_object_version a)).

Definition start_restore (lost : bool) (user archive_id : pystr) (generation : Z) (job : pystr) (now : option Z)
    (fault : store_fault) : st tables (archive * operation) :=
  let^ user := st_lift (require_user_id user) in
  do^ st_lift (require_text "archive_id" archive_id) in
  do^ st_lift (require_text "job_id" job) in
  do^ st_lift (require_generation generation) in
  let^ n := st_lift (timestamp now) in
  transaction fault (fun t => reraise_as (
    let! t := retire_failed_managed_operation user t in
    match find_runtime user t with
    | None => raise ManagedBackupConflictError "managed runtime generation changed"
    | Some rt =>
        check! guard (bool_decide (rt_status rt = RuntimeReady) && (rt_generation rt =? generation))
          ManagedBackupConflictError "managed runtime generation changed" in
        match List.find (ready_archive archive_id user) (tb_archives t) with
        | None => raise ManagedBackupConflictError "managed backup archive is not ready"
        | Some a =>
            let o := new_operation user job archive_id RestoreOperation generation (Some (rt_runner rt))
                       (Some (rt_sprite rt)) lost n in
            let! t := insert_operation o t in
            Ok (Some t, (a, o))
        end
    end) [IntegrityError] ManagedBackupConflictError "managed backup operation is active").
Definition start_managed_backup_restore := start_restore false.
Definition start_managed_source_loss_restore := start_restore true.

Definition start_managed_backup_deletion (user archive_id : pystr) (generation : Z) (job : pystr) (now : option Z)
    (fault : store_fault) : st tables (archive * operation) :=
  let^ user := st_lift (require_user_id user) in
  do^ st_lift (require_text "archive_id" archive_id) in
  do^ st_lift (require_text "job_id" job) in
  do^ st_lift (require_generation generation) in
  let^ n := st_lift (timestamp now) in
  transaction fault (fun t => reraise_as (
    let! t := retire_failed_managed_operation user t in
    check! guard (count (ready_archive archive_id user) (tb_archives t) =? 1) ManagedBackupConflictError
      "managed backup archive is not ready" in
    let t := with_archives (update (ready_archive archive_id user)
               (fun a => set_archive_status ArchiveDeleting (ar_completed a) (ar_error a) a) (tb_archives t)) t in
    let o := new_operation user job archive_id DeleteOperation generation None None false n in
    let! t := insert_operation o t in
    match find_archive archive_id t with
    | None => raise AssertionError EmptyString
    | Some a => Ok (Some t, (a, o))
    end) [IntegrityError] ManagedBackupConflictError "managed backup operation is active").

(** ** Creations and deletions *)

(** A read of the leased operation of a job, as the transactions begin. *)
Definition select_leased (user : option pystr) (kind : operation_kind) (job token : pystr) (generation n : Z)
    (t : tables) : option operation :=
  List.find (fun o => match user with Some u => of_user u o | None => true end && leased job token generation n o
                      && is_kind kind o) (tb_operations t).

(** The archive of a user that a transaction of an operation writes. *)
Definition owned_archive (id user : pystr) (generation : Z) (statuses : list archive_status) (a : archive) : bool :=
  bool_decide (ar_id a = id) && bool_decide (ar_user a = user) && (ar_generation a =? generation)
  && bool_decide (ar_status a ∈ statuses).

Definition record_managed_backup_upload_intent (job token : pystr) (generation size : Z) (sha256 : pystr)
    (now : option Z) (fault : store_fault) : st tables bool :=
  do^ st_lift (require_bounded 128 "job_id" job) in
  do^ st_lift (require_bounded 128 "lease_token" token) in
  do^ st_lift (require_generation generation) in
  do^ st_lift (require_size size) in
  do^ st_lift (require_digest "sha256" sha256) in
  let^ n := st_lift (timestamp now) in
  transaction fault (fun t =>
    let mine o := leased job token generation n o && is_kind CreateOperation o && in_phase (u"claimed") o in
    match List.find mine (tb_operations t) with
    | None => Ok (None, false)
    | Some o =>
        let its a := bool_decide (ar_id a = op_archive o) && bool_decide (ar_status a = ArchiveCreating)
                     && (ar_generation a =? generation) && bool_decide (ar_object_version a = None) in
        if negb ((count its (tb_archives t) =? 1) && (count mine (tb_operations t) =? 1)) then Ok (None, false)
        else
          let archives := update its (fun a => set_object (ar_status a) (ar_object_version a) (Some size)
                                         (Some sha256) (ar_wrapped_key a) (ar_completed a) a) (tb_archives t) in
          let operations := update mine (fun o => set_phase (u"object_uploading") (op_candidate_runner o)
                                            (op_candidate_sprite o) (op_activation o) n o) (tb_operations t) in
          Ok (Some (with_archives archives (with_operations operations t)), true)
    end).

Definition require_version (version : pystr) : bool :=
  negb (bool_decide (version = [])) && (zlen version <=? 1024).

Definition record_managed_backup_upload (user job token : pystr) (generation size : Z) (sha256 version : pystr)
    (now : option Z) (fault : store_fault) : st tables bool :=
  let^ user := st_lift (require_user_id user) in
  do^ st_lift (require_text "job_id" job) in
  do^ st_lift (require_text "lease_token" token) in
  do^ st_lift (require_generation generation) in
  do^ st_lift (require_size size) in
  do^ st_lift (require_digest "sha256" sha256) in
  do^ st_lift (guard (require_version version) ValueError "object_version must be bounded non-empty text") in
  let^ n := st_lift (timestamp now) in
  transaction fault (fun t =>
    match select_leased (Some user) CreateOperation job token generation n t with
    | None => Ok (None, false)
    | Some o =>
        let its := owned_archive (op_archive o) user generation [ArchiveCreating] in
        let uploaded a := set_object ArchiveUploaded (Some version) (Some size) (Some sha256) (ar_wrapped_key a)
                            (Some n) a in
        Ok (Some (with_archives (update its uploaded (tb_archives t)) t), count its (tb_archives t) =? 1)
    end).

(** An object version that is not text of a valid length is an answer, not an
    error, here. *)
Definition complete_managed_backup_creation (user job : pystr) (token : option pystr) (generation size : Z)
    (sha256 : pystr) (version : option pystr) (now : option Z) (fault : store_fault) : st tables bool :=
  let^ user := st_lift (require_user_id user) in
  do^ st_lift (require_text "job_id" job) in
  let token := default [] token in
  do^ st_lift (require_text "lease_token" token) in
  do^ st_lift (require_generation generation) in
  do^ st_lift (require_size size) in
  do^ st_lift (require_digest "sha256" sha256) in
  let version := default [] version in
  if negb (require_version version) then st_ret false
  else
    let^ n := st_lift (timestamp now) in
    transaction fault (fun t =>
      match select_leased (Some user) CreateOperation job token generation n t, find_runtime user t with
      | Some o, Some rt =>
          if negb ((rt_generation rt =? generation) && bool_decide (rt_status rt = RuntimeReady))
          then Ok (None, false)
          else
            let its := owned_archive (op_archive o) user generation [ArchiveCreating; ArchiveUploaded] in
            if negb (count its (tb_archives t) =? 1) then Ok (None, false)
            else
              let complete a := set_object ArchiveReady (Some version) (Some size) (Some sha256) (ar_wrapped_key a)
                                  (Some n) a in
              Ok (Some (with_archives (update its complete (tb_archives t))
                          (with_operations (delete_rows (fun o => of_user user o && is_job job o)
                                              (tb_operations t)) t)), true)
      | _, _ => Ok (None, false)
      end).

Definition complete_managed_backup_deletion (user job token : pystr) (generation : Z) (now : option Z)
    (fault : store_fault) : st tables bool :=
  let^ user := st_lift (require_user_id user) in
  do^ st_lift (require_text "job_id" job) in
  do^ st_lift (require_text "lease_token" token) in
  do^ st_lift (require_generation generation) in
  let^ n := st_lift (timestamp now) in
  transaction fault (fun t =>
    match select_leased (Some user) DeleteOperation job token generation n t with
    | None => Ok (None, false)
    | Some o =>
        let its a := bool_decide (ar_id a = op_archive o) && bool_decide (ar_user a = user)
                     && bool_decide (ar_status a = ArchiveDeleting) in
        if negb (count its (tb_archives t) =? 1) then Ok (None, false)
        else Ok (Some (with_archives (update its (set_object ArchiveDeleted None None None [] (Some n))
                                        (tb_archives t))
                         (with_operations (delete_rows (fun o => of_user user o && is_job job o)
                                             (tb_operations t)) t)), true)
    end).

Definition fail_managed_backup_creation (user job : pystr) (generation : Z) (error_code : pystr) (now : option Z)
    (fault : store_fault) : st tables bool :=
  let^ user := st_lift (require_user_id user) in
  do^ st_lift (require_text "job_id" job) in
  do^ st_lift (require_generation generation) in
  do^ st_lift (guard (negb (bool_decide (error_code = [])) && (zlen error_code <=? 100)
                      && forallb (fun c => ((97 <=? c) && (c <=? 122)) || (c =? 95)) error_code)
                 ValueError "error_code must be bounded lowercase identifier text") in
  let^ n := st_lift (timestamp now) in
  transaction fault (fun t =>
    let mine o := of_user user o && is_job job o && is_kind CreateOperation o && running o
                  && (op_generation o =? generation) in
    match List.find mine (tb_operations t) with
    | None => Ok (None, false)
    | Some o =>
        let its := owned_archive (op_archive o) user generation [ArchiveCreating] in
        if negb (count its (tb_archives t) =? 1) then Ok (None, false)
        else Ok (Some (with_archives (update its (set_archive_status ArchiveFailed (Some n) (Some error_code))
                                        (tb_archives t))
                         (with_operations (update (fun o => of_user user o && is_job job o && running o)
                                             (fun o => set_failed (op_failure o) error_code n o)
                                             (tb_operations t)) t)), true)
    end).

(** ** Reads *)

Definition newer (a b : archive) : Prop := ar_created b < ar_created a
  ∨ ar_created a = ar_created b ∧ str_ltb (ar_id a) (ar_id b) = false.
#[export] Instance newer_dec : RelDecision newer.
Proof. intros a b. unfold newer. apply _. Defined.
Definition older (a b : archive) : Prop := ar_created a < ar_created b
  ∨ ar_created a = ar_created b ∧ str_ltb (ar_id b) (ar_id a) = false.
#[export] Instance older_dec : RelDecision older.
Proof. intros a b. unfold older. apply _. Defined.

Definition list_managed_backup_retention_candidates (cutoff : option Z) (limit : Z) (t : tables) : res (list archive) :=
  match cutoff with
  | None => raise ValueError "cutoff must not be empty"
  | Some c =>
      check! guard ((1 <=? limit) && (limit <=? 100)) ValueError "limit must be between 1 and 100" in
      let old a := bool_decide (ar_status a = ArchiveReady) && (ar_created a <? c)
                   && bool_decide (is_Some (ar_object_version a))
                   && negb (existsb (fun o => bool_decide (op_archive o = ar_id a) && running o) (tb_operations t)) in
      Ok (take (Z.to_nat limit) (merge_sort older (List.filter old (tb_archives t))))
  end.

Definition list_managed_backup_archives (user : pystr) (limit : Z) (t : tables) : res (list archive) :=
  let! user := require_user_id user in
  check! guard ((1 <=? limit) && (limit <=? 100)) ValueError "limit must be between 1 and 100" in
  Ok (take (Z.to_nat limit) (merge_sort newer (List.filter (fun a => bool_decide (ar_user a = user)) (tb_archives t)))).

Definition get_managed_backup_operation (user job : pystr) (t : tables) : res (option operation) :=
  let! user := require_user_id user in
  check! require_text "job_id" job in
  Ok (List.find (fun o => of_user user o && is_job job o) (tb_operations t)).

Definition managed_backup_operation_is_running (user : pystr) (t : tables) : res bool :=
  let! user := require_user_id user in
  Ok (existsb (fun o => of_user user o && running o) (tb_operations t)).

Definition get_running_managed_backup_operation_for_runner (runner : pystr) (t : tables) : res (option operation) :=
  check! require_bounded 128 "runner_id" runner in
  Ok (List.find (fun o => bool_decide (op_source_runner o = Some runner) && running o) (tb_operations t)).

Definition get_managed_backup_archive (user archive_id : pystr) (t : tables) : res (option archive) :=
  let! user := require_user_id user in
  check! require_text "archive_id" archive_id in
  Ok (List.find (fun a => bool_decide (ar_user a = user) && bool_decide (ar_id a = archive_id)) (tb_archives t)).
