(* ===== verification/ManagedBackupsSpec.v ===== *)
(** * The catalog of managed backups keeps its promises

    Over every sequence of the functions of [ManagedBackups], with changes of
    the runtimes and failing commits in between: an account has one operation,
    which agrees with its archive; archives follow a lifecycle in which the
    object and the key of a finished archive never change; and while a lease
    is current no other worker has any effect on its operation. *)

From S2P Require Import Prelude Text RunnerNoise Transactions ManagedBackups.

(** ** Calls *)

Inductive call :=
  | ClaimDue (worker token : pystr) (now expiry : option Z)
  | RenewLease (job worker token : pystr) (generation : Z) (now expiry : option Z)
  | RecordCandidate (job token : pystr) (generation : Z) (runner sprite : pystr) (now : option Z)
  | ClearCandidate (job token : pystr) (generation : Z) (runner sprite : pystr) (now : option Z)
  | Advance (job token : pystr) (generation : Z) (expected next : pystr) (now : option Z)
  | CompleteRestore (job token : pystr) (generation : Z) (now : option Z)
  | FailOperation (job : pystr) (generation : Z) (owner token : option pystr) (failure : failure_class)
      (error : pystr) (now : option Z)
  | StartCreation (user : pystr) (generation : Z) (archive_id job object_key : pystr) (wrapped_key : pybytes)
      (key_id owner_digest : pystr) (now : option Z)
  | StartRestore (lost : bool) (user archive_id : pystr) (generation : Z) (job : pystr) (now : option Z)
  | StartDeletion (user archive_id : pystr) (generation : Z) (job : pystr) (now : option Z)
  | UploadIntent (job token : pystr) (generation size : Z) (sha256 : pystr) (now : option Z)
  | RecordUpload (user job token : pystr) (generation size : Z) (sha256 version : pystr) (now : option Z)
  | CompleteCreation (user job : pystr) (token : option pystr) (generation size : Z) (sha256 : pystr)
      (version : option pystr) (now : option Z)
  | CompleteDeletion (user job token : pystr) (generation : Z) (now : option Z)
  | FailCreation (user job : pystr) (generation : Z) (error_code : pystr) (now : option Z)
  | Activate (user job token : pystr) (generation : Z) (now : option Z) (runtimes : list runtime)
  | ChangeRuntimes (runtimes : list runtime).

(** What a call answers: whether it wrote, and the operation it claimed. *)
Inductive answer := Wrote (b : bool) | Claimed (o : option operation) | Started.

Definition answering {A} (f : A → answer) (m : st tables A) : st tables answer := fun t =>
  let '(t', r) := m t in (t', let! a := r in Ok (f a)).

Definition exec (c : call) (fault : store_fault) : st tables answer :=
  match c with
  | ClaimDue worker token now expiry =>
      answering Claimed (claim_due_managed_backup_operation worker token now expiry fault)
  | RenewLease job worker token g now expiry =>
      answering Wrote (renew_managed_backup_operation_lease job worker token g now expiry fault)
  | RecordCandidate job token g runner sprite now =>
      answering Wrote (record_managed_backup_candidate job token g runner sprite now fault)
  | ClearCandidate job token g runner sprite now =>
      answering Wrote (clear_managed_backup_candidate job token g runner sprite now fault)
  | Advance job token g expected next now =>
      answering Wrote (advance_managed_backup_operation job token g expected next now fault)
  | CompleteRestore job token g now => answering Wrote (complete_managed_backup_restore job token g now fault)
  | FailOperation job g owner token failure error now =>
      answering Wrote (fail_managed_backup_operation job g owner token failure error now fault)
  | StartCreation user g archive_id job object_key wrapped_key key_id owner_digest now =>
      answering (fun _ => Started)
        (start_managed_backup_creation user g archive_id job object_key wrapped_key key_id owner_digest now fault)
  | StartRestore lost user archive_id g job now =>
      answering (fun _ => Started) (start_restore lost user archive_id g job now fault)
  | StartDeletion user archive_id g job now =>
      answering (fun _ => Started) (start_managed_backup_deletion user archive_id g job now fault)
  | UploadIntent job token g size sha256 now =>
      answering Wrote (record_managed_backup_upload_intent job token g size sha256 now fault)
  | RecordUpload user job token g size sha256 version now =>
      answering Wrote (record_managed_backup_upload user job token g size sha256 version now fault)
  | CompleteCreation user job token g size sha256 version now =>
      answering Wrote (complete_managed_backup_creation user job token g size sha256 version now fault)
  | CompleteDeletion user job token g now =>
      answering Wrote (complete_managed_backup_deletion user job token g now fault)
  | FailCreation user job g error_code now =>
      answering Wrote (fail_managed_backup_creation user job g error_code now fault)
  | Activate user job token g now runtimes =>
      answering Wrote (let^ n := st_lift (timestamp now) in
        transaction fault (fun t =>
          if count (activated user job token g n) (tb_operations t) =? 1 then
            Ok (Some (with_runtimes runtimes (with_operations
                  (update (activated user job token g n) (activate_operation g n) (tb_operations t)) t)), true)
          else Ok (None, false)))
  | ChangeRuntimes runtimes => fun t => (with_runtimes runtimes t, Ok Started)
  end.

Fixpoint exec_all (l : list (call * store_fault)) (t : tables) : tables :=
  match l with [] => t | (c, fault) :: r => exec_all r (exec c fault t).1 end.

(** ** Soundness of the tables *)

(** What the status of an operation says of its archive. *)
Definition fits (o : operation) (a : archive) : Prop :=
  match op_kind o, op_status o with
  | CreateOperation, OperationRunning =>
      ar_status a ∈ [ArchiveCreating; ArchiveUploaded] ∧ ar_generation a = op_generation o
  | CreateOperation, OperationFailed => ar_status a ∈ [ArchiveCreating; ArchiveUploaded; ArchiveFailed]
  | RestoreOperation, _ => ar_status a = ArchiveReady
  | DeleteOperation, _ => ar_status a = ArchiveDeleting
  end.

(** What the status of an archive says of its object and key. *)
Definition object_ok (a : archive) : Prop :=
  match ar_status a with
  | ArchiveCreating | ArchiveFailed => ar_object_version a = None ∧ ar_wrapped_key a ≠ []
  | ArchiveUploaded | ArchiveReady | ArchiveDeleting =>
      is_Some (ar_object_version a) ∧ is_Some (ar_size a) ∧ is_Some (ar_sha256 a) ∧ ar_wrapped_key a ≠ []
  | ArchiveDeleted =>
      ar_object_version a = None ∧ ar_size a = None ∧ ar_sha256 a = None ∧ ar_wrapped_key a = []
  end.

Record sound (t : tables) : Prop := {
  s_users : NoDup (map op_user (tb_operations t));
  s_jobs : NoDup (map op_job (tb_operations t));
  s_ids : NoDup (map ar_id (tb_archives t));
  s_keys : NoDup (map ar_object_key (tb_archives t));
  s_fits : ∀ o, o ∈ tb_operations t →
    ∃ a, a ∈ tb_archives t ∧ ar_id a = op_archive o ∧ ar_user a = op_user o ∧ fits o a;
  s_deleting : ∀ a, a ∈ tb_archives t → ar_status a = ArchiveDeleting →
    ∃ o, o ∈ tb_operations t ∧ op_archive o = ar_id a ∧ op_kind o = DeleteOperation;
  s_object : ∀ a, a ∈ tb_archives t → object_ok a;
}.

Lemma empty_sound : sound empty_tables.
Proof. split; cbn; try apply NoDup_nil_2; intros *; by intros ?%elem_of_nil. Qed.

(** Two operations never share an archive. *)
Lemma one_operation t o1 o2 : sound t → o1 ∈ tb_operations t → o2 ∈ tb_operations t →
  op_archive o1 = op_archive o2 → o1 = o2.
Proof.
  intros S H1 H2 E. destruct (s_fits _ S o1 H1) as (a1 & A1 & B1 & C1 & _).
  destruct (s_fits _ S o2 H2) as (a2 & A2 & B2 & C2 & _).
  assert (a1 = a2) as -> by (apply (NoDup_map_eq ar_id (tb_archives t)); [apply S|done|done|congruence]).
  apply (NoDup_map_eq op_user (tb_operations t)); [apply S|done|done|congruence].
Qed.

(** ** Steps that keep the tables sound *)

(** Rows change in place. *)
Lemma sound_map t ops ars p f q g : sound t →
  ops = update p f (tb_operations t) → ars = update q g (tb_archives t) →
  (∀ o, op_user (f o) = op_user o ∧ op_job (f o) = op_job o ∧ op_archive (f o) = op_archive o ∧ op_kind (f o) = op_kind o) →
  (∀ a, ar_id (g a) = ar_id a ∧ ar_user (g a) = ar_user a ∧ ar_object_key (g a) = ar_object_key a) →
  (∀ o a, o ∈ tb_operations t → a ∈ tb_archives t → ar_id a = op_archive o → fits o a →
     fits (if p o then f o else o) (if q a then g a else a)) →
  (∀ a, a ∈ tb_archives t → q a = true → object_ok a → object_ok (g a)) →
  (∀ a, a ∈ tb_archives t → q a = true → ar_status (g a) = ArchiveDeleting → ar_status a = ArchiveDeleting) →
  sound (with_archives ars (with_operations ops t)).
Proof.
  intros [S1 S2 S3 S4 S5 S6 S7] -> -> Hf Hg Hfit Hob Hdel. split; cbn.
  - rewrite map_update; [done|]. intros o. apply Hf.
  - rewrite map_update; [done|]. intros o. apply Hf.
  - rewrite map_update; [done|]. intros a. apply Hg.
  - rewrite map_update; [done|]. intros a. apply Hg.
  - intros o' (o & Ho & ->)%in_update. destruct (S5 o Ho) as (a & Ha & E1 & E2 & F).
    exists (if q a then g a else a). split_and!; [apply in_update; by exists a|..|by apply Hfit].
    + pose proof (proj1 (Hg a)). pose proof (proj1 (proj2 (proj2 (Hf o)))). destruct (q a), (p o); congruence.
    + pose proof (proj1 (proj2 (Hg a))). pose proof (proj1 (Hf o)). destruct (q a), (p o); congruence.
  - intros a' (a & Ha & ->)%in_update Hd.
    assert (Hd0 : ar_status a = ArchiveDeleting) by (destruct (q a) eqn:E; [by apply Hdel|done]).
    destruct (S6 a Ha Hd0) as (o & Ho & E1 & E2). exists (if p o then f o else o). split_and!.
    + apply in_update. by exists o.
    + destruct (Hf o) as (_ & _ & E3 & _), (Hg a) as (E4 & _). destruct (p o), (q a); congruence.
    + destruct (Hf o) as (_ & _ & _ & E3). destruct (p o); congruence.
  - intros a' (a & Ha & ->)%in_update. destruct (q a) eqn:E; [apply Hob; [done|done|]|]; by apply S7.
Qed.

(** An operation ends. *)
Lemma sound_delete t ops ars d q g : sound t →
  ops = delete_rows d (tb_operations t) → ars = update q g (tb_archives t) →
  (∀ a, ar_id (g a) = ar_id a ∧ ar_user (g a) = ar_user a ∧ ar_object_key (g a) = ar_object_key a) →
  (∀ o a, o ∈ tb_operations t → d o = false → a ∈ tb_archives t → ar_id a = op_archive o → q a = false) →
  (∀ a, a ∈ tb_archives t → q a = true → object_ok a → object_ok (g a) ∧ ar_status (g a) ≠ ArchiveDeleting) →
  (∀ o a, o ∈ tb_operations t → d o = true → op_kind o = DeleteOperation → a ∈ tb_archives t →
     ar_id a = op_archive o → q a = true) →
  sound (with_archives ars (with_operations ops t)).
Proof.
  intros [S1 S2 S3 S4 S5 S6 S7] -> -> Hg Hfit Hob Hdel. split; cbn.
  - by apply NoDup_delete.
  - by apply NoDup_delete.
  - rewrite map_update; [done|]. intros a. apply Hg.
  - rewrite map_update; [done|]. intros a. apply Hg.
  - intros o [Ho Hd]%in_delete. destruct (S5 o Ho) as (a & Ha & E1 & E2 & F).
    exists a. split_and!; try done. apply in_update. exists a. by rewrite (Hfit o a).
  - intros a' (a & Ha & ->)%in_update Hd. destruct (q a) eqn:Eq.
    { by destruct (Hob a Ha Eq (S7 a Ha)) as [_ []]. }
    destruct (S6 a Ha Hd) as (o & Ho & E1 & E2). exists o. split_and!; try done. apply in_delete. split; [done|].
    destruct (d o) eqn:Ed; [|done]. rewrite (Hdel o a) in Eq; done.
  - intros a' (a & Ha & ->)%in_update. destruct (q a) eqn:E; [|by apply S7]. apply (Hob a Ha E (S7 a Ha)).
Qed.

(** An operation starts, on an archive that fits it. *)
Lemma insert_keys t o t' : insert_operation o t = Ok t' → t' = with_operations (tb_operations t ++ [o]) t
  ∧ (∀ x, x ∈ tb_operations t → op_user x ≠ op_user o) ∧ (∀ x, x ∈ tb_operations t → op_job x ≠ op_job o).
Proof.
  intros H. unfold insert_operation in H. inv_ok. breflect. split_and!; [done|by apply existsb_none..].
Qed.

Lemma sound_insert t o t' : sound t → insert_operation o t = Ok t' →
  (∃ a, a ∈ tb_archives t ∧ ar_id a = op_archive o ∧ ar_user a = op_user o ∧ fits o a) → sound t'.
Proof.
  intros [S1 S2 S3 S4 S5 S6 S7] (-> & Hu & Hj)%insert_keys Ha. split; cbn; try done; [by apply NoDup_snoc..| |].
  - intros o' [Ho|Ho]%elem_of_app; [by apply S5|]. apply list_elem_of_singleton in Ho. by subst.
  - intros a Hin Hd. destruct (S6 a Hin Hd) as (o' & Ho & E). exists o'. split; [apply elem_of_app; by left|done].
Qed.

(** A deletion starts, and its archive with it. *)
Lemma sound_deletion t user id o a t2 : sound t → a ∈ tb_archives t → ready_archive id user a = true →
  insert_operation o (with_archives (update (ready_archive id user)
    (fun a => set_archive_status ArchiveDeleting (ar_completed a) (ar_error a) a) (tb_archives t)) t) = Ok t2 →
  op_archive o = id → op_user o = user → op_kind o = DeleteOperation → sound t2.
Proof.
  intros [S1 S2 S3 S4 S5 S6 S7] Ha Hr (-> & Hu & Hj)%insert_keys E1 E2 Hk. cbn in Hu, Hj.
  assert (Hq : ∀ b, ready_archive id user b = true → ar_id b = id ∧ ar_user b = user ∧ ar_status b = ArchiveReady)
    by (intros b H; unfold ready_archive in H; by breflect).
  split; cbn.
  - by apply NoDup_snoc.
  - by apply NoDup_snoc.
  - by rewrite map_update.
  - by rewrite map_update.
  - intros o' [Ho|Ho]%elem_of_app.
    + destruct (S5 o' Ho) as (b & Hb & F1 & F2 & F). exists b. split_and!; try done. apply in_update. exists b.
      destruct (ready_archive id user b) eqn:Er; [|done]. destruct (Hq b Er) as (_ & E & _).
      destruct (Hu o' Ho). congruence.
    + apply list_elem_of_singleton in Ho. subst o'. exists (set_archive_status ArchiveDeleting (ar_completed a) (ar_error a) a).
      destruct (Hq a Hr) as (F1 & F2 & _). unfold fits. rewrite Hk. cbn. split_and!; [|congruence..|done].
      apply in_update. exists a. by rewrite Hr.
  - intros b (b0 & Hb & ->)%in_update Hd. destruct (ready_archive id user b0) eqn:Er.
    + exists o. destruct (Hq b0 Er) as (F1 & _). split_and!; [apply elem_of_app; right; by left|by cbn; congruence|done].
    + destruct (S6 b0 Hb Hd) as (o' & Ho & E). exists o'. split; [apply elem_of_app; by left|done].
  - intros b (b0 & Hb & ->)%in_update. specialize (S7 b0 Hb). destruct (ready_archive id user b0) eqn:Er; [|done].
    destruct (Hq b0 Er) as (_ & _ & E). unfold object_ok in *. cbn. by rewrite E in S7.
Qed.

(** ** What a call can do

    The tables that a call may commit. *)

(** The lease in whose name a call writes, and its time. *)
Definition lease_of (c : call) : option (pystr * pystr) :=
  match c with
  | RenewLease job _ token _ _ _ | RecordCandidate job token _ _ _ _ | ClearCandidate job token _ _ _ _
  | Advance job token _ _ _ _ | CompleteRestore job token _ _ | UploadIntent job token _ _ _ _
  | RecordUpload _ job token _ _ _ _ _ | CompleteDeletion _ job token _ _
  | Activate _ job token _ _ _ => Some (job, token)
  | CompleteCreation _ job token _ _ _ _ _ => Some (job, default [] token)
  | _ => None
  end.
Definition now_of (c : call) : option Z :=
  match c with
  | ClaimDue _ _ now _ | RenewLease _ _ _ _ now _ | RecordCandidate _ _ _ _ _ now | ClearCandidate _ _ _ _ _ now
  | Advance _ _ _ _ _ now | CompleteRestore _ _ _ now | FailOperation _ _ _ _ _ _ now
  | StartCreation _ _ _ _ _ _ _ _ now | StartRestore _ _ _ _ _ now | StartDeletion _ _ _ _ now
  | UploadIntent _ _ _ _ _ now | RecordUpload _ _ _ _ _ _ _ now | CompleteCreation _ _ _ _ _ _ _ now
  | CompleteDeletion _ _ _ _ now | FailCreation _ _ _ _ now | Activate _ _ _ _ now _ => now
  | ChangeRuntimes _ => None
  end.
(** The expiry to which a call may move a lease. *)
Definition expiry_of (c : call) : option Z :=
  match c with ClaimDue _ _ _ expiry | RenewLease _ _ _ _ _ expiry => expiry | _ => None end.

(** An operation is written in place: its lease time or phase, not what it is. *)
Record touches (c : call) (f : operation → operation) : Prop := {
  tc_core : ∀ o, op_user (f o) = op_user o ∧ op_job (f o) = op_job o ∧ op_archive (f o) = op_archive o
    ∧ op_kind (f o) = op_kind o ∧ op_status (f o) = op_status o ∧ op_generation (f o) = op_generation o;
  tc_token : ∀ o, op_lease_token (f o) = op_lease_token o;
  tc_expiry : ∀ o, op_lease_expires (f o) = op_lease_expires o
    ∨ is_Some (expiry_of c) ∧ op_lease_expires (f o) = expiry_of c;
}.

Definition by_lease (c : call) (n : Z) (p : operation → bool) : Prop :=
  now_of c = Some n ∧ ∃ job token g, lease_of c = Some (job, token) ∧ ∀ o, p o = true → leased job token g n o = true.

(** The operation of a start, on its archive. *)
Definition starts (c : call) (o : operation) : Prop :=
  ∃ n, now_of c = Some n ∧ match c with
  | StartCreation _ g id job _ _ _ _ _ => op_kind o = CreateOperation ∧ op_job o = job ∧ op_archive o = id ∧ op_generation o = g
  | StartRestore _ _ id g job _ => op_kind o = RestoreOperation ∧ op_job o = job ∧ op_archive o = id
  | StartDeletion _ id g job _ => op_kind o = DeleteOperation ∧ op_job o = job ∧ op_archive o = id
  | _ => False
  end ∧ op_status o = OperationRunning.

Definition same_archive (g : archive → archive) : Prop := ∀ a, ar_id (g a) = ar_id a ∧ ar_user (g a) = ar_user a
  ∧ ar_object_key (g a) = ar_object_key a ∧ ar_generation (g a) = ar_generation a ∧ ar_key_id (g a) = ar_key_id a
  ∧ ar_owner_digest (g a) = ar_owner_digest a ∧ ar_created (g a) = ar_created a.

Definition archive_of (o : operation) (statuses : list archive_status) (q : archive → bool) : Prop :=
  ∀ a, q a = true → ar_id a = op_archive o ∧ ar_status a ∈ statuses.

(** The runtime of an operation when it starts. *)
Definition on_ready (t : tables) (o : operation) : Prop :=
  ∃ r, r ∈ tb_runtimes t ∧ rt_user r = op_user o ∧ rt_status r = RuntimeReady ∧ rt_generation r = op_generation o.

(** The operation of a kind that works on an archive, which runs under the
    token of a lease that is current at [n]. *)
Definition current_lease (t : tables) (kind : operation_kind) (user job token : pystr) (g n : Z) (a : archive) : Prop :=
  ∃ o e, o ∈ tb_operations t ∧ op_kind o = kind ∧ op_user o = user ∧ op_job o = job ∧ op_archive o = ar_id a
    ∧ op_generation o = g ∧ op_status o = OperationRunning ∧ op_lease_token o = Some token
    ∧ op_lease_expires o = Some e ∧ n < e.

Definition ready_at (t : tables) (user : pystr) (g : Z) : Prop :=
  ∃ r, r ∈ tb_runtimes t ∧ rt_user r = user ∧ rt_status r = RuntimeReady ∧ rt_generation r = g.
Definition none_running (t : tables) (user : pystr) : Prop :=
  ∀ o, o ∈ tb_operations t → op_user o = user → op_status o = OperationFailed.
Definition starts_for (c : call) (user : pystr) : Prop :=
  match c with
  | StartCreation user' _ _ _ _ _ _ _ _ | StartRestore _ user' _ _ _ _ | StartDeletion user' _ _ _ _ => strip user' = user
  | _ => False
  end.

(** What one call may make of an archive, what it writes into it, and what it
    asks of the tables to do so. *)
Inductive archive_step (t : tables) : call → archive → archive → Prop :=
  | Unwritten c a : archive_step t c a a
  | IntentRecorded user job token g size sha n a :
      current_lease t CreateOperation user job token g n a → ar_generation a = g →
      ar_status a = ArchiveCreating → ar_object_version a = None →
      archive_step t (UploadIntent job token g size sha (Some n)) a
        (set_object ArchiveCreating None (Some size) (Some sha) (ar_wrapped_key a) (ar_completed a) a)
  | UploadRecorded user job token g size sha version n a :
      current_lease t CreateOperation (strip user) job token g n a → ar_user a = strip user → ar_generation a = g →
      ar_status a = ArchiveCreating →
      archive_step t (RecordUpload user job token g size sha version (Some n)) a
        (set_object ArchiveUploaded (Some version) (Some size) (Some sha) (ar_wrapped_key a) (Some n) a)
  | CreationCompleted user job token g size sha version n a :
      current_lease t CreateOperation (strip user) job (default [] token) g n a → ready_at t (strip user) g →
      ar_user a = strip user → ar_generation a = g →
      ar_status a = ArchiveCreating ∨ ar_status a = ArchiveUploaded →
      archive_step t (CompleteCreation user job token g size sha (Some version) (Some n)) a
        (set_object ArchiveReady (Some version) (Some size) (Some sha) (ar_wrapped_key a) (Some n) a)
  | CreationFailed user job g code n a :
      (∃ o, o ∈ tb_operations t ∧ op_kind o = CreateOperation ∧ op_user o = strip user ∧ op_job o = job
        ∧ op_archive o = ar_id a ∧ op_generation o = g ∧ op_status o = OperationRunning) →
      ar_user a = strip user → ar_generation a = g → ar_status a = ArchiveCreating →
      archive_step t (FailCreation user job g code (Some n)) a
        (set_archive_status ArchiveFailed (Some n) (Some code) a)
  | DeletionStarted user g job n a :
      none_running t (strip user) → ar_user a = strip user → ar_status a = ArchiveReady → is_Some (ar_object_version a) →
      archive_step t (StartDeletion user (ar_id a) g job (Some n)) a
        (set_archive_status ArchiveDeleting (ar_completed a) (ar_error a) a)
  | DeletionRetired c a :
      starts_for c (ar_user a) → none_running t (ar_user a) →
      (∃ o, o ∈ tb_operations t ∧ op_kind o = DeleteOperation ∧ op_user o = ar_user a ∧ op_archive o = ar_id a) →
      ar_status a = ArchiveDeleting →
      archive_step t c a (set_archive_status ArchiveReady (ar_completed a) (ar_error a) a)
  | DeletionCompleted user job token g n a :
      current_lease t DeleteOperation (strip user) job token g n a → ar_user a = strip user →
      ar_status a = ArchiveDeleting →
      archive_step t (CompleteDeletion user job token g (Some n)) a (set_object ArchiveDeleted None None None [] (Some n) a).

(** The archive that a call creates. *)
Definition created_by (c : call) (b : archive) : Prop :=
  match c with
  | StartCreation user g id _ key wrapped key_id digest (Some n) =>
      b = {| ar_id := id; ar_user := strip user; ar_generation := g; ar_status := ArchiveCreating; ar_object_key := key;
             ar_object_version := None; ar_size := None; ar_sha256 := None; ar_wrapped_key := wrapped; ar_key_id := key_id;
             ar_owner_digest := digest; ar_created := n; ar_completed := None; ar_error := None |}
  | _ => False
  end.

Inductive effect (t : tables) : call → tables → answer → Prop :=
  | Claims worker token n e o claimed :
      o ∈ tb_operations t → n < e → running o = true → expired n o = true → op_job claimed = op_job o →
      effect t (ClaimDue worker token (Some n) (Some e))
        (with_operations (update (fun x => is_job (op_job o) x && running x && expired n x)
           (fun x => set_lease (Some worker) (Some token) e (op_attempts x + 1) n x) (tb_operations t)) t)
        (Claimed (Some claimed))
  | Touches c n p f b : by_lease c n p → touches c f → (b = true → ∃ o, o ∈ tb_operations t ∧ p o = true) →
      effect t c (with_operations (update p f (tb_operations t)) t) (Wrote b)
  | Activates c n p f rts b : (∃ user job token g now, c = Activate user job token g now rts) → by_lease c n p → touches c f → (b = true → ∃ o, o ∈ tb_operations t ∧ p o = true) →
      effect t c (with_runtimes rts (with_operations (update p f (tb_operations t)) t)) (Wrote b)
  | Restored c n p b : by_lease c n p → (∀ o, p o = true → op_kind o = RestoreOperation) →
      (b = true → ∃ o, o ∈ tb_operations t ∧ p o = true) →
      effect t c (with_operations (delete_rows p (tb_operations t)) t) (Wrote b)
  | Fails job g owner token failure error n p b :
      (∀ o, p o = true → op_job o = job ∧ running o = true ∧ op_lease_token o = token) →
      (b = true → ∃ o, o ∈ tb_operations t ∧ p o = true) →
      effect t (FailOperation job g owner token failure error (Some n))
        (with_operations (update p (set_failed (Some failure) error n) (tb_operations t)) t) (Wrote b)
  | Uploads c n o p f q g b :
      by_lease c n p → touches c f → o ∈ tb_operations t → op_kind o = CreateOperation → p o = true →
      archive_of o [ArchiveCreating] q → same_archive g →
      (∀ a, q a = true → ar_wrapped_key (g a) = ar_wrapped_key a
         ∧ (ar_status (g a) = ArchiveCreating ∧ ar_object_version (g a) = ar_object_version a
            ∨ ar_status (g a) = ArchiveUploaded ∧ is_Some (ar_object_version (g a)) ∧ is_Some (ar_size (g a))
              ∧ is_Some (ar_sha256 (g a)))) →
      (∀ a, q a = true → archive_step t c a (g a)) →
      effect t c (with_archives (update q g (tb_archives t)) (with_operations (update p f (tb_operations t)) t)) (Wrote b)
  | Completes c n o p q g :
      by_lease c n p → o ∈ tb_operations t → op_kind o = CreateOperation → p o = true →
      archive_of o [ArchiveCreating; ArchiveUploaded] q → same_archive g →
      (∀ a, q a = true → ar_wrapped_key (g a) = ar_wrapped_key a ∧ ar_status (g a) = ArchiveReady
         ∧ is_Some (ar_object_version (g a)) ∧ is_Some (ar_size (g a)) ∧ is_Some (ar_sha256 (g a))) →
      (∀ a, q a = true → archive_step t c a (g a)) →
      effect t c (with_archives (update q g (tb_archives t))
        (with_operations (delete_rows (fun x => of_user (op_user o) x && is_job (op_job o) x) (tb_operations t)) t)) (Wrote true)
  | Deletes c n o p :
      by_lease c n p → o ∈ tb_operations t → op_kind o = DeleteOperation → p o = true →
      (∀ a, ar_id a = op_archive o → ar_user a = op_user o → ar_status a = ArchiveDeleting →
         archive_step t c a (set_object ArchiveDeleted None None None [] (Some n) a)) →
      effect t c (with_archives (update (fun a => bool_decide (ar_id a = op_archive o) && bool_decide (ar_user a = op_user o)
          && bool_decide (ar_status a = ArchiveDeleting)) (set_object ArchiveDeleted None None None [] (Some n)) (tb_archives t))
        (with_operations (delete_rows (fun x => of_user (op_user o) x && is_job (op_job o) x) (tb_operations t)) t)) (Wrote true)
  | FailsCreation user job gen code n o q g :
      o ∈ tb_operations t → op_kind o = CreateOperation → op_job o = job → running o = true →
      archive_of o [ArchiveCreating] q → (∃ a, a ∈ tb_archives t ∧ q a = true) →
      g = set_archive_status ArchiveFailed (Some n) (Some code) →
      (∀ a, q a = true → archive_step t (FailCreation user job gen code (Some n)) a (g a)) →
      effect t (FailCreation user job gen code (Some n)) (with_archives (update q g (tb_archives t))
        (with_operations (update (fun x => of_user (op_user o) x && is_job job x && running x)
           (fun x => set_failed (op_failure x) code n x) (tb_operations t)) t)) (Wrote true)
  | StartsCreation c user t1 a t2 o t3 :
      retire_failed_managed_operation user t = Ok t1 → insert_archive a t1 = Ok t2 → insert_operation o t2 = Ok t3 →
      starts c o → op_archive o = ar_id a → op_user o = user → ar_user a = user → op_generation o = ar_generation a →
      ar_status a = ArchiveCreating → object_ok a → op_kind o = CreateOperation → on_ready t o →
      created_by c a → starts_for c user → effect t c t3 Started
  | StartsRestore c user t1 a o t2 :
      retire_failed_managed_operation user t = Ok t1 → a ∈ tb_archives t1 → insert_operation o t1 = Ok t2 →
      starts c o → op_archive o = ar_id a → op_user o = user → ar_user a = user → ar_status a = ArchiveReady →
      op_kind o = RestoreOperation → on_ready t o → starts_for c user → effect t c t2 Started
  | StartsDeletion c user id t1 a t2 o :
      retire_failed_managed_operation user t = Ok t1 → a ∈ tb_archives t1 → ready_archive id user a = true →
      insert_operation o (with_archives (update (ready_archive id user)
        (fun a => set_archive_status ArchiveDeleting (ar_completed a) (ar_error a) a) (tb_archives t1)) t1) = Ok t2 →
      starts c o → op_archive o = id → op_user o = user → op_kind o = DeleteOperation →
      (∃ g job n user', c = StartDeletion user' id g job (Some n) ∧ strip user' = user) → effect t c t2 Started
  | Changes rts : effect t (ChangeRuntimes rts) (with_runtimes rts t) Started.

(** What comes of a call: nothing, or an effect that is answered unless the
    commit raised. *)
Definition idle (a : answer) : Prop := a = Wrote false ∨ a = Claimed None.

Definition outcome {A} (h : A → answer) (P : tables → answer → Prop) (m : st tables A) (t : tables) : Prop :=
  (m t).1 = t ∧ (∀ a, (m t).2 = Ok a → idle (h a))
  ∨ ∃ a, P (m t).1 a ∧ ((∃ x, (m t).2 = Ok x ∧ a = h x) ∨ ∃ e, (m t).2 = Raise e).

Lemma outcome_lift {A B} h P (r : res B) (k : B → st tables A) t :
  (∀ x, r = Ok x → outcome h P (k x) t) → outcome h P (st_bind (st_lift r) k) t.
Proof. intros H. unfold outcome, st_bind, st_lift. destruct r as [x|e]; [by apply H|by left]. Qed.

Lemma outcome_transaction {A} h (P : tables → answer → Prop) fault (body : tables → res (option tables * A)) t :
  (∀ t' a, body t = Ok (Some t', a) → P t' (h a)) → (∀ a, body t = Ok (None, a) → idle (h a)) →
  outcome h P (transaction fault body) t.
Proof.
  intros H1 H2. unfold outcome, transaction. destruct fault as [| |d]; [|by left|].
  - destruct (body t) as [[[t'|] a]|e] eqn:E; cbn; [right|left; by split; [|intros ? [= <-]; apply H2]|by left].
    exists (h a). split; [by apply H1|left; by exists a].
  - destruct (body t) as [[[t'|] a]|e] eqn:E; cbn; [|left; by split; [|intros ? [= <-]; apply H2]|by left].
    destruct d; [right|by left]. exists (h a). split; [by apply H1|right; by eexists].
Qed.

(** One write of operations, by lease. *)
Lemma outcome_touches c n fault p f t : by_lease c n p → touches c f →
  outcome Wrote (effect t c) (write_operations fault p (update p f)) t.
Proof.
  intros Hp Hf. apply outcome_transaction; [|done]. intros t' a [= <- <-]. apply (Touches t c n); [done|done|].
  intros [= E]%Z.eqb_eq. apply count_pos. lia.
Qed.

Lemma leased_parts job token g n o : leased job token g n o = true → op_job o = job ∧ op_lease_token o = Some token
  ∧ running o = true ∧ op_generation o = g ∧ unexpired n o = true.
Proof. unfold leased, is_job. intros H. breflect. done. Qed.

Lemma least_in l o : least l = Some o → o ∈ l.
Proof.
  revert o. induction l as [|x l IH]; intros o; [done|]. cbn [least]. destruct (least l) as [y|].
  - destruct (before y x); intros [= <-]; [right; by apply IH|by left].
  - intros [= <-]. by left.
Qed.

Ltac lifts := repeat (apply outcome_lift; let x := fresh "x" in let E := fresh "E" in intros x E).

Lemma claims_effect worker token now expiry fault t :
  outcome Claimed (effect t (ClaimDue worker token now expiry)) (claim_due_managed_backup_operation worker token now expiry fault) t.
Proof.
  unfold claim_due_managed_backup_operation. lifts. destruct x1 as [n e]. unfold require_lease_times in E1.
  destruct now as [n'|]; [|done]. destruct expiry as [e'|]; [|done]. cbn in E1. inv_ok. breflect. simplify_eq.
  apply outcome_transaction.
  - intros t' x2. destruct (least _) as [o|] eqn:El; [|done]. destruct (negb _); [done|].
    destruct (List.find _ _) as [claimed|] eqn:Ec; [|done]. intros [= <- <-].
    apply least_in, list_elem_of_In, filter_In in El as [Ho Hd]. apply list_elem_of_In in Ho.
    unfold due in Hd. breflect. apply find_in in Ec as [_ Hj]. unfold is_job in Hj. breflect. by apply Claims.
  - intros x2. destruct (least _) as [o|]; [|by intros [= <-]; right]. destruct (negb _); [by intros [= <-]; right|].
    by destruct (List.find _ _).
Qed.

Lemma timestamp_ok now n : timestamp now = Ok n → now = Some n.
Proof. by destruct now; intros [= ->]. Qed.

Ltac leases := split; [done|eexists _, _, _; split; [reflexivity|]; intros ?o ?H; breflect; eassumption].
Ltac touched := split; [intros ?; split_and!; reflexivity|intros ?; reflexivity|intros ?; left; reflexivity].

Lemma renew_effect job worker token g now expiry fault t : outcome Wrote (effect t (RenewLease job worker token g now expiry))
  (renew_managed_backup_operation_lease job worker token g now expiry fault) t.
Proof.
  unfold renew_managed_backup_operation_lease. lifts. destruct x3 as [n e]. unfold require_lease_times in E3.
  destruct now as [n'|]; [|done]. destruct expiry as [e'|]; [|done]. cbn in E3. inv_ok. breflect. simplify_eq.
  apply (outcome_touches _ n); [leases|]. split; [intros ?; by split_and!|done|intros ?; right; by split].
Qed.

Lemma record_candidate_effect job token g runner sprite now fault t :
  outcome Wrote (effect t (RecordCandidate job token g runner sprite now))
    (record_managed_backup_candidate job token g runner sprite now fault) t.
Proof.
  unfold record_managed_backup_candidate. lifts. apply timestamp_ok in E4 as ->.
  apply (outcome_touches _ x4); [leases|touched].
Qed.

Lemma clear_candidate_effect job token g runner sprite now fault t :
  outcome Wrote (effect t (ClearCandidate job token g runner sprite now))
    (clear_managed_backup_candidate job token g runner sprite now fault) t.
Proof.
  unfold clear_managed_backup_candidate. lifts. apply timestamp_ok in E4 as ->.
  apply (outcome_touches _ x4); [leases|touched].
Qed.

Lemma advance_effect job token g expected next now fault t :
  outcome Wrote (effect t (Advance job token g expected next now))
    (advance_managed_backup_operation job token g expected next now fault) t.
Proof.
  unfold advance_managed_backup_operation. lifts. apply timestamp_ok in E4 as ->.
  apply (outcome_touches _ x4); [leases|touched].
Qed.

Lemma complete_restore_effect job token g now fault t : outcome Wrote (effect t (CompleteRestore job token g now))
  (complete_managed_backup_restore job token g now fault) t.
Proof.
  unfold complete_managed_backup_restore. lifts. apply timestamp_ok in E2 as ->.
  apply outcome_transaction; [|done]. intros t' b [= <- <-]. apply (Restored t _ x2); [leases|..].
  - unfold is_kind. intros o H. by breflect.
  - intros [= E3]%Z.eqb_eq. apply count_pos. lia.
Qed.

Lemma fail_operation_effect job g owner token failure error now fault t :
  outcome Wrote (effect t (FailOperation job g owner token failure error now))
    (fail_managed_backup_operation job g owner token failure error now fault) t.
Proof.
  unfold fail_managed_backup_operation. lifts. apply timestamp_ok in E as ->.
  apply outcome_transaction; intros *; destruct (guard _ _ _); try done. intros [= <- <-]. apply Fails.
  - unfold is_job. intros o H. by breflect.
  - intros [= E3]%Z.eqb_eq. apply count_pos. lia.
Qed.

Lemma require_user_ok user u : require_user_id user = Ok u → strip user = u.
Proof. unfold require_user_id. by destruct (guard _ _ _); intros [= <-]. Qed.

Lemma current_leased t kind job token g n o a : o ∈ tb_operations t → leased job token g n o = true → op_kind o = kind →
  ar_id a = op_archive o → current_lease t kind (op_user o) job token g n a.
Proof.
  unfold leased, is_job, running, unexpired. intros Ho Hl Hk Ea. destruct (op_lease_expires o) as [e|] eqn:Ee; breflect; [|done].
  exists o, e. by split_and!.
Qed.

Lemma upload_intent_effect job token g size sha now fault t : outcome Wrote (effect t (UploadIntent job token g size sha now))
  (record_managed_backup_upload_intent job token g size sha now fault) t.
Proof.
  unfold record_managed_backup_upload_intent. lifts. apply timestamp_ok in E4 as ->.
  apply outcome_transaction; intros *; (destruct (List.find _ _) as [o|] eqn:Eo; [|by intros [= <-]; left]);
    (destruct (negb _); [by intros [= <-]; left|]); [|done]. apply find_in in Eo as [Ho Hm].
  intros [= <- <-]. eapply (Uploads t _ x4 o); [leases|touched|done| |exact Hm|..].
  - unfold is_kind in Hm. by breflect.
  - intros a. cbn. intros H. breflect. split; [done|]. apply list_elem_of_singleton. assumption.
  - intros a. by split_and!.
  - intros a H. breflect. split; [done|]. left. by split.
  - intros a H. cbn beta in H |- *. unfold is_kind in Hm. breflect.
    match goal with E1 : ar_status a = _, E2 : ar_object_version a = _ |- _ => rewrite E1, E2 end.
    eapply IntentRecorded; [by eapply current_leased|done..].
Qed.

Lemma select_leased_in user kind job token g n t o : select_leased (Some user) kind job token g n t = Some o →
  o ∈ tb_operations t ∧ leased job token g n o = true ∧ op_kind o = kind ∧ op_user o = user.
Proof.
  unfold select_leased, of_user, is_kind. intros [Ho H]%find_in. by breflect.
Qed.

Lemma owned_archive_of o user g statuses : archive_of o statuses (owned_archive (op_archive o) user g statuses).
Proof. intros a. unfold owned_archive. intros H. by breflect. Qed.

Lemma record_upload_effect user job token g size sha version now fault t :
  outcome Wrote (effect t (RecordUpload user job token g size sha version now))
    (record_managed_backup_upload user job token g size sha version now fault) t.
Proof.
  unfold record_managed_backup_upload. lifts. apply timestamp_ok in E6 as ->.
  apply outcome_transaction; intros *; (destruct (select_leased _ _ _ _ _ _ _) as [o|] eqn:Eo; [|by intros [= <-]; left]); [|done].
  apply select_leased_in in Eo as (Ho & Hl & Hk & Hu). intros [= <- <-].
  replace (with_archives _ t) with (with_archives (update (owned_archive (op_archive o) x g [ArchiveCreating])
     (fun a => set_object ArchiveUploaded (Some version) (Some size) (Some sha) (ar_wrapped_key a) (Some x6) a) (tb_archives t))
     (with_operations (update (leased job token g x6) (fun o => o) (tb_operations t)) t)).
  - eapply (Uploads t _ x6 o); [leases|touched|done|done|exact Hl|apply owned_archive_of|intros a; by split_and!|..].
    + intros a _. split; [done|]. right. by split_and!.
    + intros a H. unfold owned_archive in H. apply require_user_ok in E as <-. breflect.
      apply UploadRecorded; [|done|done|by apply list_elem_of_singleton].
      rewrite <- Hu. by apply current_leased.
  - unfold with_archives, with_operations. cbn. f_equal. unfold update. clear Ho. induction (tb_operations t) as [|y l IH]; [done|].
    cbn. rewrite IH. by destruct (leased _ _ _ _ y).
Qed.

Lemma leased_job job token g n o : leased job token g n o = true → op_job o = job.
Proof. intros H. by apply leased_parts in H as (-> & _). Qed.

Lemma complete_creation_effect user job token g size sha version now fault t :
  outcome Wrote (effect t (CompleteCreation user job token g size sha version now))
    (complete_managed_backup_creation user job token g size sha version now fault) t.
Proof.
  unfold complete_managed_backup_creation. lifts. destruct version as [version|]; cbn [default]; [|left; split; [done|]; intros ? [= <-]; by left].
  destruct (negb _); [left; split; [done|]; intros ? [= <-]; by left|].
  lifts. apply timestamp_ok in E5 as ->.
  apply outcome_transaction; intros *; (destruct (select_leased _ _ _ _ _ _ _) as [o|] eqn:Eo; [|by intros [= <-]; left]);
    (destruct (find_runtime _ _) as [rt|] eqn:Er; [|by intros [= <-]; left]);
    (destruct (negb _) eqn:Eg; [by intros [= <-]; left|]);
    (destruct (count _ _ =? 1); cbn [negb]; [|by intros [= <-]; left]); [|done].
  apply find_in in Er as [Hr Eu]. apply negb_false_iff in Eg. breflect.
  apply select_leased_in in Eo as (Ho & Hl & Hk & Hu). intros [= <- <-]. subst x. pose proof (leased_job _ _ _ _ _ Hl). subst job.
  eapply (Completes t _ x5 o (leased (op_job o) (default [] token) g x5));
    [leases|done|done|exact Hl|apply owned_archive_of|intros a; by split_and!|intros a _; by split_and!|].
  intros a Hq. apply require_user_ok in E as E'. unfold owned_archive in Hq. breflect.
  apply CreationCompleted; [rewrite E'; by apply current_leased| |congruence|done|].
  - exists rt. split_and!; [done|congruence|done..].
  - match goal with H : ar_status a ∈ _ |- _ => apply elem_of_cons in H as [?|?%list_elem_of_singleton] end; [by left|by right].
Qed.

Lemma complete_deletion_effect user job token g now fault t : outcome Wrote (effect t (CompleteDeletion user job token g now))
  (complete_managed_backup_deletion user job token g now fault) t.
Proof.
  unfold complete_managed_backup_deletion. lifts. apply timestamp_ok in E3 as ->.
  apply outcome_transaction; intros *; (destruct (select_leased _ _ _ _ _ _ _) as [o|] eqn:Eo; [|by intros [= <-]; left]);
    (destruct (negb _); [by intros [= <-]; left|]); [|done].
  apply select_leased_in in Eo as (Ho & Hl & Hk & Hu). intros [= <- <-]. subst x. pose proof (leased_job _ _ _ _ _ Hl). subst job.
  eapply (Deletes t _ x3 o (leased (op_job o) token g x3)); [leases|done|done|exact Hl|].
  intros a Ea Eu Es. apply require_user_ok in E. apply DeletionCompleted; [rewrite E; by apply current_leased|congruence|done].
Qed.

Lemma fail_creation_effect user job g code now fault t : outcome Wrote (effect t (FailCreation user job g code now))
  (fail_managed_backup_creation user job g code now fault) t.
Proof.
  unfold fail_managed_backup_creation. lifts. apply timestamp_ok in E3 as ->.
  apply outcome_transaction; intros *; (destruct (List.find _ _) as [o|] eqn:Eo; [|by intros [= <-]; left]);
    match goal with |- context [count ?p ?l =? 1] => destruct (Z.eqb_spec (count p l) 1) as [En|En] end;
    cbn [negb]; [|by intros [= <-]; left|done|by intros [= <-]; left].
  apply find_in in Eo as [Ho Hm]. unfold of_user, is_job, is_kind in Hm. breflect. intros [= <- <-]. subst x.
  eapply (FailsCreation t _ _ _ _ x3 o); [done|done|done|done|apply owned_archive_of|apply count_pos; lia|done|].
  intros a Hq. apply require_user_ok in E. unfold running in *. unfold owned_archive in Hq. breflect.
  apply CreationFailed; [exists o; by split_and!|congruence|done|by apply list_elem_of_singleton].
Qed.

Lemma retire_runtimes user t t1 : retire_failed_managed_operation user t = Ok t1 → tb_runtimes t1 = tb_runtimes t.
Proof.
  unfold retire_failed_managed_operation. destruct (List.find _ _) as [o|]; [|by intros [= <-]].
  destruct (running o); [done|]. by destruct (is_kind _ _); intros [= <-].
Qed.

Lemma ready_runtime user t t1 rt g o : retire_failed_managed_operation user t = Ok t1 → find_runtime user t1 = Some rt →
  op_user o = user → op_generation o = g → rt_generation rt = g → rt_status rt = RuntimeReady → on_ready t o.
Proof.
  intros R%retire_runtimes [Hi Hu]%find_in <- <- Eg Es. breflect. exists rt. rewrite <- R. by split_and!.
Qed.

Lemma start_creation_effect user g id job key wrapped key_id digest now fault t :
  outcome (fun _ => Started) (effect t (StartCreation user g id job key wrapped key_id digest now))
    (start_managed_backup_creation user g id job key wrapped key_id digest now fault) t.
Proof.
  unfold start_managed_backup_creation. lifts. apply timestamp_ok in E7 as ->.
  apply outcome_transaction.
  - intros t' y Hb. apply bind_error_ok in Hb as (t1 & R & Hb). destruct (find_runtime x t1) as [rt|] eqn:Ert; [|done].
    apply bind_error_ok in Hb as (u & Hg & Hb). apply guard_ok in Hg. breflect. apply bind_error_ok in Hb as (t2 & Ia & Hb).
    apply bind_error_ok in Hb as (t3 & Io & Hb). injection Hb as <- _.
    eapply (StartsCreation t _ x t1 _ t2 _ t3 R Ia Io); try done.
    + by exists x7.
    + cbn. split; [done|]. inv_ok. by breflect.
    + by apply (ready_runtime x t t1 rt g).
    + cbn. by rewrite (require_user_ok _ _ E).
    + by apply require_user_ok.
  - intros y Hb. apply bind_error_ok in Hb as (t1 & R & Hb). destruct (find_runtime x t1) as [rt|]; [|done].
    apply bind_error_ok in Hb as (u & _ & Hb). apply bind_error_ok in Hb as (t2 & Ia & Hb).
    apply bind_error_ok in Hb as (t3 & Io & Hb). done.
Qed.

Lemma start_restore_effect lost user id g job now fault t :
  outcome (fun _ => Started) (effect t (StartRestore lost user id g job now)) (start_restore lost user id g job now fault) t.
Proof.
  unfold start_restore. lifts. apply timestamp_ok in E3 as ->.
  apply outcome_transaction.
  - intros t' y Hb%reraise_ok. apply bind_error_ok in Hb as (t1 & R & Hb). destruct (find_runtime x t1) as [rt|] eqn:Ert; [|done].
    apply bind_error_ok in Hb as (u & Hg & Hb). apply guard_ok in Hg. breflect. destruct (List.find _ _) as [ar|] eqn:Ea; [|done].
    apply bind_error_ok in Hb as (t2 & Io & Hb). injection Hb as <- _.
    apply find_in in Ea as [Ha Hr]. unfold ready_archive in Hr. breflect.
    eapply (StartsRestore t _ x t1 ar _ t2 R Ha Io); try done; [by exists x3|by apply (ready_runtime x t t1 rt g)|by apply require_user_ok].
  - intros y Hb%reraise_ok. apply bind_error_ok in Hb as (t1 & R & Hb). destruct (find_runtime x t1) as [rt|]; [|done].
    apply bind_error_ok in Hb as (u & _ & Hb). destruct (List.find _ _) as [ar|] eqn:Ea; [|done].
    apply bind_error_ok in Hb as (t2 & Io & Hb). done.
Qed.

Lemma start_deletion_effect user id g job now fault t :
  outcome (fun _ => Started) (effect t (StartDeletion user id g job now)) (start_managed_backup_deletion user id g job now fault) t.
Proof.
  unfold start_managed_backup_deletion. lifts. apply timestamp_ok in E3 as ->.
  apply outcome_transaction.
  - intros t' y Hb%reraise_ok. apply bind_error_ok in Hb as (t1 & R & Hb). apply bind_error_ok in Hb as (u & Hc & Hb).
    apply bind_error_ok in Hb as (t2 & Io & Hb). destruct (find_archive id t2); [|done]. injection Hb as <- _.
    destruct (count_pos (ready_archive id x) (tb_archives t1)) as (ar & Ha & Hr).
    { destruct (Z.eqb_spec (count (ready_archive id x) (tb_archives t1)) 1) as [->|]; done. }
    eapply (StartsDeletion t _ x id t1 ar t2 _ R Ha Hr Io); try done; [by exists x3|].
    exists g, job, x3, user. split; [done|by apply require_user_ok].
  - intros y Hb%reraise_ok. apply bind_error_ok in Hb as (t1 & R & Hb). apply bind_error_ok in Hb as (u & Hc & Hb).
    apply bind_error_ok in Hb as (t2 & Io & Hb). by destruct (find_archive id t2).
Qed.

Lemma activate_effect user job token g now rts fault t :
  outcome Wrote (effect t (Activate user job token g now rts)) (let^ n := st_lift (timestamp now) in
    transaction fault (fun t =>
      if count (activated user job token g n) (tb_operations t) =? 1 then
        Ok (Some (with_runtimes rts (with_operations
              (update (activated user job token g n) (activate_operation g n) (tb_operations t)) t)), true)
      else Ok (None, false))) t.
Proof.
  lifts. apply timestamp_ok in E as ->. apply outcome_transaction; intros *;
    (destruct (Z.eqb_spec (count (activated user job token g x) (tb_operations t)) 1) as [En|]; [|by intros [= <-]; left]); [|done].
  intros [= <- <-]. apply (Activates t _ x); [by eexists _, _, _, _, _| |touched|intros _; apply count_pos; lia].
  split; [done|]. eexists _, _, _. split; [reflexivity|]. unfold activated. intros o H. by breflect.
Qed.

Lemma outcome_exec {A} (h : A → answer) P (m : st tables A) t : outcome h P m t → outcome id P (answering h m) t.
Proof.
  unfold outcome, answering. destruct (m t) as [t' [x|e]]; cbn.
  - intros [[-> H]|(a & HP & [(y & [= <-] & ->)|[e [=]]])].
    + left. split; [done|]. intros a [= <-]. by apply H.
    + right. exists (h x). split; [done|]. left. by exists (h x).
  - intros [[-> H]|(a & HP & H)]; [by left|right]. exists a. split; [done|]. right. by exists e.
Qed.

(** Every call does nothing, or has one of the effects and says so unless its
    commit raised. *)
Lemma exec_effect c fault t : outcome id (effect t c) (exec c fault) t.
Proof.
  destruct c; cbn [exec]; try apply outcome_exec.
  - apply claims_effect.
  - apply renew_effect.
  - apply record_candidate_effect.
  - apply clear_candidate_effect.
  - apply advance_effect.
  - apply complete_restore_effect.
  - apply fail_operation_effect.
  - apply start_creation_effect.
  - apply start_restore_effect.
  - apply start_deletion_effect.
  - apply upload_intent_effect.
  - apply record_upload_effect.
  - apply complete_creation_effect.
  - apply complete_deletion_effect.
  - apply fail_creation_effect.
  - apply activate_effect.
  - right. exists Started. split; [apply Changes|left; by exists Started].
Qed.

Lemma exec_tables c fault t : (exec c fault t).1 = t ∨ ∃ a, effect t c (exec c fault t).1 a.
Proof. destruct (exec_effect c fault t) as [[-> _]|(a & H & _)]; [by left|right; by exists a]. Qed.

(** ** Soundness is kept *)

Lemma its_archive t o a : sound t → o ∈ tb_operations t → a ∈ tb_archives t → ar_id a = op_archive o →
  ar_user a = op_user o ∧ fits o a.
Proof.
  intros S Ho Ha E. destruct (s_fits _ S o Ho) as (b & Hb & E1 & E2 & F).
  assert (a = b) as -> by (apply (NoDup_map_eq ar_id (tb_archives t)); [apply S|done|done|congruence]). done.
Qed.

Lemma same_user t o1 o2 : sound t → o1 ∈ tb_operations t → o2 ∈ tb_operations t → op_user o1 = op_user o2 → o1 = o2.
Proof. intros S H1 H2 E. by apply (NoDup_map_eq op_user (tb_operations t)); [apply S|..]. Qed.
Lemma same_job t o1 o2 : sound t → o1 ∈ tb_operations t → o2 ∈ tb_operations t → op_job o1 = op_job o2 → o1 = o2.
Proof. intros S H1 H2 E. by apply (NoDup_map_eq op_job (tb_operations t)); [apply S|..]. Qed.

Lemma with_same t : with_archives (tb_archives t) (with_operations (tb_operations t) t) = t.
Proof. by destruct t. Qed.

Lemma retire_sound user t t1 : sound t → retire_failed_managed_operation user t = Ok t1 → sound t1.
Proof.
  intros S. unfold retire_failed_managed_operation. destruct (List.find _ _) as [o|] eqn:Eo; [|by intros [= <-]].
  apply find_in in Eo as [Ho Hu]. unfold of_user in Hu. breflect. destruct (running o); [done|].
  assert (Hone : ∀ o', o' ∈ tb_operations t → of_user user o' = true → o' = o).
  { intros o' Ho' H. unfold of_user in H. breflect. apply (same_user t); [done|done|done|congruence]. }
  assert (Hnot : ∀ o', o' ∈ tb_operations t → of_user user o' = false → o' ≠ o).
  { intros o' _ H ->. unfold of_user in H. by breflect. }
  destruct (is_kind DeleteOperation o) eqn:Ek; unfold is_kind in Ek; breflect; intros [= <-].
  - set (stuck := fun a => _ && _ && _).
    assert (Hq : ∀ a, stuck a = true → ar_id a = op_archive o ∧ ar_status a = ArchiveDeleting)
      by (intros a; unfold stuck; intros H; by breflect).
    apply (sound_delete t _ _ (of_user user) stuck (fun a => set_archive_status ArchiveReady (ar_completed a) (ar_error a) a));
      [done|done|done|intros a; by split_and!|..].
    + intros o' a Ho' Hd Ha E. destruct (stuck a) eqn:Es; [|done]. destruct (Hq a Es) as [E2 _].
      destruct (Hnot o' Ho' Hd). apply (one_operation t); [done|done|done|congruence].
    + intros a Ha Es. destruct (Hq a Es) as [_ E]. unfold object_ok. cbn. by rewrite E.
    + intros o' a Ho' Hd _ Ha E. rewrite (Hone o' Ho' Hd) in E. destruct (its_archive t o a S Ho Ha E) as [E2 F].
      unfold fits in F. rewrite Ek in F. unfold stuck. by rewrite E, E2, Hu, F, !bool_decide_eq_true_2.
  - pose proof (sound_delete t _ _ (of_user user) (fun _ => false) id S eq_refl eq_refl) as H.
    rewrite update_none in H. replace (with_operations _ t) with (with_archives (tb_archives t)
      (with_operations (delete_rows (of_user user) (tb_operations t)) t)) by (by destruct t).
    apply H; try done. intros o' a Ho' Hd Ek'. by rewrite (Hone o' Ho' Hd) in Ek'.
Qed.

Lemma touches_fits c f o a : touches c f → fits o a → fits (f o) a.
Proof. intros [H _ _]. destruct (H o) as (_ & _ & _ & E1 & E2 & E3). unfold fits. by rewrite E1, E2, E3. Qed.

Lemma insert_archive_sound t a t' : sound t → insert_archive a t = Ok t' → object_ok a → ar_status a = ArchiveCreating →
  sound t' ∧ a ∈ tb_archives t'.
Proof.
  intros [S1 S2 S3 S4 S5 S6 S7] H Ho Hst. unfold insert_archive in H. inv_ok. breflect.
  split; [split|]; cbn.
  - done.
  - done.
  - by apply NoDup_snoc, existsb_none.
  - by apply NoDup_snoc, existsb_none.
  - intros o Hin. destruct (S5 o Hin) as (b & Hb & E). exists b. split; [apply elem_of_app; by left|done].
  - intros b [Hb|Hb]%elem_of_app Hd; [by apply S6|]. apply list_elem_of_singleton in Hb. subst b. congruence.
  - intros b [Hb|Hb]%elem_of_app; [by apply S7|]. apply list_elem_of_singleton in Hb. by subst b.
  - apply elem_of_app. right. by left.
Qed.

(** An archive that an operation writes is not another's. *)
Lemma only_its t o o' a : sound t → o ∈ tb_operations t → o' ∈ tb_operations t → ar_id a = op_archive o →
  ar_id a = op_archive o' → o' = o.
Proof. intros S Ho Ho' E E'. apply (one_operation t); [done|done|done|congruence]. Qed.

Lemma by_lease_running c n p o : by_lease c n p → p o = true → running o = true ∧ unexpired n o = true
  ∧ ∃ job token, lease_of c = Some (job, token) ∧ op_job o = job ∧ op_lease_token o = Some token.
Proof.
  intros (_ & job & token & g & E & H) Hp. apply H, leased_parts in Hp as (E1 & E2 & E3 & _ & E4).
  split_and!; [done|done|by exists job, token].
Qed.

Lemma deletes_object a n : object_ok (set_object ArchiveDeleted None None None [] (Some n) a).
Proof. by split_and!. Qed.

Lemma uploads_sound t c n o p f q g : sound t → by_lease c n p → touches c f → o ∈ tb_operations t →
  op_kind o = CreateOperation → p o = true → archive_of o [ArchiveCreating] q → same_archive g →
  (∀ a, q a = true → ar_wrapped_key (g a) = ar_wrapped_key a
     ∧ (ar_status (g a) = ArchiveCreating ∧ ar_object_version (g a) = ar_object_version a
        ∨ ar_status (g a) = ArchiveUploaded ∧ is_Some (ar_object_version (g a)) ∧ is_Some (ar_size (g a))
          ∧ is_Some (ar_sha256 (g a)))) →
  sound (with_archives (update q g (tb_archives t)) (with_operations (update p f (tb_operations t)) t)).
Proof.
  intros S Hp Hf Ho Hk Hpo Hq Hg Hs.
  apply (sound_map t _ _ p f q g S eq_refl eq_refl).
  - intros o'. destruct (tc_core _ _ Hf o') as (? & ? & ? & ? & _). by split_and!.
  - intros a. by destruct (Hg a) as (? & ? & ? & _).
  - intros o' a Ho' Ha E F. destruct (q a) eqn:Eq.
    + destruct (Hq a Eq) as [E' _]. rewrite (only_its t o o' a S Ho Ho' E' E) in *. rewrite Hpo.
      apply (touches_fits _ _ _ _ Hf). unfold fits in *. rewrite Hk in *.
      destruct (by_lease_running _ _ _ _ Hp Hpo) as (Er & _). unfold running in Er. breflect. rewrite Er in *.
      destruct (Hg a) as (_ & _ & _ & -> & _), F as [_ F]. split; [|done].
      destruct (Hs a Eq) as [_ [[-> _]|[-> _]]]; set_solver.
    + destruct (p o'); [by eapply touches_fits|done].
  - intros a Ha Eq Hob. destruct (Hs a Eq) as [Ew Hx], (Hq a Eq) as [_ Es%list_elem_of_singleton].
    unfold object_ok in *. rewrite Es in Hob. destruct Hob as [H1 H2].
    destruct Hx as [[-> ->]|(-> & H3 & H4 & H5)]; rewrite Ew; by split_and!.
  - intros a Ha Eq E. destruct (Hs a Eq) as [_ [[E' _]|[E' _]]]; congruence.
Qed.

Lemma completes_sound t o q g : sound t → o ∈ tb_operations t → op_kind o = CreateOperation →
  archive_of o [ArchiveCreating; ArchiveUploaded] q → same_archive g →
  (∀ a, q a = true → ar_wrapped_key (g a) = ar_wrapped_key a ∧ ar_status (g a) = ArchiveReady
     ∧ is_Some (ar_object_version (g a)) ∧ is_Some (ar_size (g a)) ∧ is_Some (ar_sha256 (g a))) →
  sound (with_archives (update q g (tb_archives t))
    (with_operations (delete_rows (fun x => of_user (op_user o) x && is_job (op_job o) x) (tb_operations t)) t)).
Proof.
  intros S Ho Hk Hq Hg Hs.
  apply (sound_delete t _ _ _ q g S eq_refl eq_refl).
  - intros a. by destruct (Hg a) as (? & ? & ? & _).
  - intros o' a Ho' Hd Ha E. destruct (q a) eqn:Eq; [|done]. destruct (Hq a Eq) as [E' _].
    rewrite (only_its t o o' a S Ho Ho' E' E) in Hd. unfold of_user, is_job in Hd.
    by rewrite !bool_decide_eq_true_2 in Hd.
  - intros a Ha Eq Hob. destruct (Hs a Eq) as (Ew & Es & H1 & H2 & H3), (Hq a Eq) as [_ Es'].
    unfold object_ok in *. rewrite Es, Ew. split; [|done]. split_and!; try done.
    apply elem_of_cons in Es' as [Es'|Es'%list_elem_of_singleton]; rewrite Es' in Hob; tauto.
  - intros o' a Ho' Hd Ek Ha E. unfold of_user, is_job in Hd. breflect.
    rewrite (same_job t o' o S Ho' Ho) in Ek by done. congruence.
Qed.

Lemma deletes_sound t o n : sound t → o ∈ tb_operations t → op_kind o = DeleteOperation →
  sound (with_archives (update (fun a => bool_decide (ar_id a = op_archive o) && bool_decide (ar_user a = op_user o)
      && bool_decide (ar_status a = ArchiveDeleting)) (set_object ArchiveDeleted None None None [] (Some n)) (tb_archives t))
    (with_operations (delete_rows (fun x => of_user (op_user o) x && is_job (op_job o) x) (tb_operations t)) t)).
Proof.
  intros S Ho Hk.
  apply (sound_delete t _ _ _ _ _ S eq_refl eq_refl).
  - by intros a.
  - intros o' a Ho' Hd Ha E. apply not_true_iff_false. intros Eq. breflect.
    rewrite (only_its t o o' a S Ho Ho') in Hd by done. unfold of_user, is_job in Hd.
    by rewrite !bool_decide_eq_true_2 in Hd.
  - intros a Ha Eq Hob. split; [apply deletes_object|done].
  - intros o' a Ho' Hd Ek Ha E. unfold of_user, is_job in Hd. breflect.
    rewrite (same_job t o' o S Ho' Ho) in E by done. destruct (its_archive t o a S Ho Ha E) as [E2 F].
    unfold fits in F. rewrite Hk in F. by rewrite E, E2, F, !bool_decide_eq_true_2.
Qed.

Lemma fails_creation_sound t o q n code : sound t → o ∈ tb_operations t → op_kind o = CreateOperation →
  running o = true → archive_of o [ArchiveCreating] q →
  sound (with_archives (update q (set_archive_status ArchiveFailed (Some n) (Some code)) (tb_archives t))
    (with_operations (update (fun x => of_user (op_user o) x && is_job (op_job o) x && running x)
       (fun x => set_failed (op_failure x) code n x) (tb_operations t)) t)).
Proof.
  intros S Ho Hk Hr Hq.
  apply (sound_map t _ _ _ _ q _ S eq_refl eq_refl); try done.
  - intros o' a Ho' Ha E F. destruct (q a) eqn:Eq.
    + destruct (Hq a Eq) as [E' _]. rewrite (only_its t o o' a S Ho Ho' E' E) in *.
      unfold of_user, is_job. rewrite Hr, !bool_decide_eq_true_2 by done. unfold fits. cbn. rewrite Hk. set_solver.
    + destruct (_ && _) eqn:Ep; [|done]. unfold of_user, is_job in Ep. breflect.
      assert (o' = o) as -> by (by apply (same_user t)). unfold running in Hr. breflect. unfold fits in *. cbn.
      rewrite Hk, ?Hr in *. destruct F as [F _]. set_solver.
  - intros a Ha Eq Hob. destruct (Hq a Eq) as [_ Es%list_elem_of_singleton]. unfold object_ok in *. cbn.
    by rewrite Es in Hob.
Qed.

Lemma touches_sound t c p f : sound t → touches c f → sound (with_operations (update p f (tb_operations t)) t).
Proof.
  intros S Hf. pose proof (sound_map t _ (tb_archives t) p f (fun _ => false) id S eq_refl) as H. rewrite update_none in H.
  apply H; try done; intros o *.
  - destruct (tc_core _ _ Hf o) as (? & ? & ? & ? & _). by split_and!.
  - intros _ _ _ F. destruct (p o); [by eapply touches_fits|done].
Qed.

Lemma runtimes_sound rts t : sound t → sound (with_runtimes rts t).
Proof. by intros []. Qed.

Lemma effect_sound t c t' x : sound t → effect t c t' x → sound t'.
Proof.
  intros S H. destruct H as [worker token n e o claimed Ho Hn Hr Hx Hc|c n p f b Hp Hf _|c n p f rts b Hact Hp Hf _|c n p b Hp Hk _
    |job gen owner token failure error n p b Hp _|c n o p f q g b Hp Hf Ho Hk Hpo Hq Hg Hs|c n o p q g Hp Ho Hk Hpo Hq Hg Hs
    |c n o p Hp Ho Hk Hpo|user job gen code n o q g Ho Hk Hj Hr Hq _ Hg|c user t1 a t2 o t3 R Ia Io Hst E1 E2 E3 E4 E5 Hob Hk
    |c user t1 a o t2 R Ha Io Hst E1 E2 E3 E4 Hk Hrt|c user id t1 a t2 o R Ha Hra Io Hst E1 E2 Hk|rts].
  - pose proof (sound_map t _ (tb_archives t) (fun x => is_job (op_job o) x && running x && expired n x)
      (fun x => set_lease (Some worker) (Some token) e (op_attempts x + 1) n x) (fun _ => false) id S eq_refl) as H.
    rewrite update_none in H. apply H; try done. intros o' a _ _ _ F. by destruct (_ && _).
  - by apply (touches_sound t c).
  - apply runtimes_sound. by apply (touches_sound t c).
  - pose proof (sound_delete t _ (tb_archives t) p (fun _ => false) id S eq_refl) as H. rewrite update_none in H.
    apply H; try done. intros o a _ Hpo E. apply Hk in Hpo. congruence.
  - pose proof (sound_map t _ (tb_archives t) p (set_failed (Some failure) error n) (fun _ => false) id S eq_refl) as H.
    rewrite update_none in H. apply H; try done. intros o a _ _ _ F. destruct (p o) eqn:Epo; [|done].
    destruct (Hp o Epo) as (_ & Er & _). unfold running in Er. breflect. unfold fits in *. cbn. rewrite Er in F.
    destruct (op_kind o); [|done|done]. destruct F as [F _]. set_solver.
  - by apply (uploads_sound t c n o).
  - by apply completes_sound.
  - by apply deletes_sound.
  - subst g job. by apply fails_creation_sound.
  - pose proof (retire_sound user t t1 S R) as S1. destruct (insert_archive_sound t1 a t2 S1 Ia Hob E5) as [S2 Ha].
    apply (sound_insert t2 o t3 S2 Io). exists a. split_and!; [done|congruence|congruence|].
    destruct Hst as (n & _ & _ & Hrun). unfold fits. rewrite Hk, Hrun, E5, E4. split; [by left|done].
  - pose proof (retire_sound user t t1 S R) as S1. apply (sound_insert t1 o t2 S1 Io). exists a.
    split_and!; [done|congruence|congruence|]. unfold fits. rewrite Hk. by destruct (op_status o).
  - by apply (sound_deletion t1 user id o a t2 (retire_sound user t t1 S R)).
  - by destruct S.
Qed.

Lemma exec_sound c fault t : sound t → sound (exec c fault t).1.
Proof. intros S. destruct (exec_tables c fault t) as [->|[a H]]; [done|by apply (effect_sound t c _ a)]. Qed.

Lemma exec_all_app l k t : exec_all (l ++ k) t = exec_all k (exec_all l t).
Proof. revert t. induction l as [|[c fault] l IH]; intros t; [done|]. apply IH. Qed.

Lemma exec_all_sound l t : sound t → sound (exec_all l t).
Proof. revert t. induction l as [|[c fault] l IH]; intros t S; [done|]. by apply IH, exec_sound. Qed.

(** C33. In every state that calls reach, whichever commits fail: a user has
    one operation and a job names one; ids and object keys of archives are
    unique; every operation has an archive of its user in the status that its
    kind and status say; an archive is being deleted exactly while a deletion
    of it is recorded; and an archive has its object's version, size and
    digest when it is ready, and no key or object data once it is deleted. *)
Theorem backup_catalog_sound l : sound (exec_all l empty_tables).
Proof. apply exec_all_sound, empty_sound. Qed.

(** ** The lifecycle of an archive *)

Definition same_identity (a b : archive) : Prop := ar_id b = ar_id a ∧ ar_user b = ar_user a
  ∧ ar_generation b = ar_generation a ∧ ar_object_key b = ar_object_key a ∧ ar_key_id b = ar_key_id a
  ∧ ar_owner_digest b = ar_owner_digest a ∧ ar_created b = ar_created a.
Definition same_object (a b : archive) : Prop := ar_object_version b = ar_object_version a ∧ ar_size b = ar_size a
  ∧ ar_sha256 b = ar_sha256 a ∧ ar_wrapped_key b = ar_wrapped_key a.

Definition finished (s : archive_status) : Prop := s = ArchiveFailed ∨ s = ArchiveDeleted.
Definition available (s : archive_status) : Prop := s = ArchiveReady ∨ s = ArchiveDeleting.

Record evolves (a b : archive) : Prop := {
  ev_identity : same_identity a b;
  ev_final : finished (ar_status a) → b = a;
  ev_key : ar_status b = ArchiveDeleted ∨ ar_wrapped_key b = ar_wrapped_key a;
  ev_uploaded : ar_status a = ArchiveUploaded → ar_status b ≠ ArchiveCreating ∧ ar_status b ≠ ArchiveFailed;
  ev_ready : available (ar_status a) →
    ar_status b = ArchiveDeleted ∨ available (ar_status b) ∧ same_object a b;
}.

#[local] Instance evolves_preorder : PreOrder evolves.
Proof.
  split.
  - intros a. split; [by split_and!|done|by right|by intros ->|intros H; right; split; [done|by split_and!]].
  - intros a b c [(I1 & I2 & I3 & I4 & I5 & I6 & I7) F1 K1 U1 R1] [(J1 & J2 & J3 & J4 & J5 & J6 & J7) F2 K2 U2 R2].
    destruct (decide (ar_status b = ArchiveDeleted)) as [Ed|Nd].
    { rewrite F2 in * by (by right). by split. }
    destruct K1 as [K1|K1]; [done|]. split; [split_and!; congruence|..].
    + intros H. rewrite F1 in * by done. by apply F2.
    + destruct K2 as [K2|K2]; [by left|right; congruence].
    + intros H. destruct (U1 H) as [N1 N2]. destruct (ar_status b) eqn:Eb; try done; [by apply U2|..];
        (destruct R2 as [->|[[->| ->] _]]; [|done..]); unfold available; tauto.
    + intros H. destruct (R1 H) as [E|[Hb (A1 & A2 & A3 & A4)]]; [done|].
      destruct (R2 Hb) as [E|[Hc (B1 & B2 & B3 & B4)]]; [by left|right]. split; [done|split_and!; congruence].
Qed.

(** What a step makes of an archive, whichever call makes it. *)
Lemma step_evolves t c a b : archive_step t c a b → evolves a b.
Proof.
  intros [c' a'|user job token g size sha n a' L E Es Ev|user job token g size sha version n a' L Eu E Es
    |user job token g size sha version n a' L Hr Eu E Es|user job g code n a' Ho Eu E Es|user g job n a' N Eu Es Hv
    |c' a' Hc N Ho Es|user job token g n a' L Eu Es].
  1: done.
  all: split; cbn; [by split_and!|rewrite ?Es; intros [|]; try done; destruct Es; congruence|try (by right); try (by left)|..].
  all: try (rewrite Es; first [done|intros [|]; done]).
  all: try (intros _; first [by left|right; split; [by right|by split_and!]|right; split; [by left|by split_and!]]).
  - done.
  - intros [|]; destruct Es; congruence.
Qed.

(** A call steps every archive, and loses none; what it adds it creates, when
    nothing of the account runs and its runtime is ready. *)
Definition follows (t : tables) (c : call) (t' : tables) : Prop :=
  ∃ kept new, tb_archives t' = kept ++ new ∧ Forall2 (archive_step t c) (tb_archives t) kept
    ∧ (new = [] ∨ ∃ b, new = [b] ∧ created_by c b ∧ none_running t (ar_user b) ∧ ready_at t (ar_user b) (ar_generation b)).

Lemma steps_update t c (q : archive → bool) g l :
  (∀ a, q a = true → archive_step t c a (g a)) → Forall2 (archive_step t c) l (update q g l).
Proof.
  intros H. unfold update. induction l as [|a l IH]; constructor; [|done].
  destruct (q a) eqn:E; [by apply H|constructor].
Qed.

Lemma follows_update t c t' q g : tb_archives t' = update q g (tb_archives t) →
  (∀ a, q a = true → archive_step t c a (g a)) → follows t c t'.
Proof. intros E H. exists (update q g (tb_archives t)), []. rewrite E, app_nil_r. split_and!; [done|by apply steps_update|by left]. Qed.

Lemma follows_same t c t' : tb_archives t' = tb_archives t → follows t c t'.
Proof. intros E. apply (follows_update t c t' (fun _ => false) id); [by rewrite update_none|done]. Qed.

Definition back (a : archive) : archive := set_archive_status ArchiveReady (ar_completed a) (ar_error a) a.

(** What a start does first: the user has no operation left, and a deletion
    that failed gives its archive back. *)
Lemma retire_follows user t t1 c : sound t → retire_failed_managed_operation user t = Ok t1 → starts_for c user →
  none_running t user ∧ ∃ q, tb_archives t1 = update q back (tb_archives t) ∧
    ∀ a, q a = true → ar_status a = ArchiveDeleting ∧ archive_step t c a (back a).
Proof.
  unfold retire_failed_managed_operation. intros S H Hc. destruct (List.find (of_user user) (tb_operations t)) as [o|] eqn:Eo.
  2:{ injection H as <-. split; [|exists (fun _ => false); by rewrite update_none].
      intros o Ho E. pose proof (find_none_in _ _ o Eo Ho) as Hf. unfold of_user in Hf. by breflect. }
  apply find_in in Eo as [Ho Hu]. unfold of_user in Hu. destruct (running o) eqn:Er; [done|]. unfold running in Er. breflect.
  assert (N : none_running t user).
  { intros o' Ho' E. rewrite (same_user t o' o S Ho' Ho) by congruence. by destruct (op_status o). }
  split; [done|]. destruct (is_kind DeleteOperation o) eqn:Ek; injection H as <-; cbn [tb_archives with_archives with_operations].
  2:{ exists (fun _ => false). by rewrite update_none. }
  eexists. split; [reflexivity|]. intros a Hq. cbn beta in Hq. unfold is_kind in Ek. breflect. split; [done|].
  assert (Ea : ar_user a = user) by done. apply DeletionRetired; [by rewrite Ea|by rewrite Ea|exists o; split_and!; congruence|done].
Qed.

Lemma start_follows user t t1 t2 o t' c : sound t → retire_failed_managed_operation user t = Ok t1 → starts_for c user →
  tb_archives t2 = tb_archives t1 → insert_operation o t2 = Ok t' → follows t c t'.
Proof.
  intros S R Hc E (-> & _)%insert_keys. destruct (retire_follows user t t1 c S R Hc) as (_ & q & Eq & Hq).
  apply (follows_update t c _ q back); [by rewrite <- Eq, <- E|by apply Hq].
Qed.

Lemma created_follows user t t1 a t2 o t' c : sound t → retire_failed_managed_operation user t = Ok t1 → starts_for c user →
  insert_archive a t1 = Ok t2 → insert_operation o t2 = Ok t' → created_by c a → ar_user a = user →
  ready_at t user (ar_generation a) → follows t c t'.
Proof.
  intros S R Hc Ia (-> & _)%insert_keys Hn <- Hr. destruct (retire_follows _ t t1 c S R Hc) as (N & q & Eq & Hq).
  unfold insert_archive in Ia. inv_ok. exists (update q back (tb_archives t)), [a]. cbn. rewrite Eq.
  split_and!; [done|apply steps_update; apply Hq|right; by exists a].
Qed.

(** A deletion that starts again on the archive of a failed one leaves it. *)
Lemma deletion_follows user t t1 o t' g job n user' id : sound t → retire_failed_managed_operation user t = Ok t1 → strip user' = user →
  insert_operation o (with_archives (update (ready_archive id user)
    (fun a => set_archive_status ArchiveDeleting (ar_completed a) (ar_error a) a) (tb_archives t1)) t1) = Ok t' →
  follows t (StartDeletion user' id g job (Some n)) t'.
Proof.
  intros S R Eu (-> & _)%insert_keys. set (c := StartDeletion _ _ _ _ _).
  destruct (retire_follows _ t t1 c S R Eu) as (N & q & Eq & Hq). eexists _, []. cbn. rewrite Eq, app_nil_r.
  split_and!; [reflexivity| |by left]. clear Eq R. induction (tb_archives t) as [|a l IH]; [done|]. constructor; [|exact IH].
  destruct (q a) eqn:Eqa, (ready_archive id user _) eqn:Er.
  - destruct (Hq a Eqa) as [Es _]. replace (set_archive_status _ _ _ _) with a; [constructor|]. destruct a. cbn in *. by subst.
  - by apply Hq.
  - unfold ready_archive in Er. breflect. subst id user. by apply DeletionStarted.
  - constructor.
Qed.

Lemma effect_follows t c t' x : sound t → effect t c t' x → follows t c t'.
Proof.
  intros S H. destruct H as [worker token n e o claimed Ho Hn Hr Hx Hc|c n p f b Hp Hf _|c n p f rts b Hact Hp Hf _|c n p b Hp Hk _
    |job gen owner token failure error n p b Hp _|c n o p f q g b Hp Hf Ho Hk Hpo Hq Hg _ Hs|c n o p q g Hp Ho Hk Hpo Hq Hg _ Hs
    |c n o p Hp Ho Hk Hpo Hs|user job gen code n o q g Ho Hk Hj Hr Hq _ Hg Hs|c user t1 a t2 o t3 R Ia Io Hst E1 E2 E3 E4 E5 Hob Hk Hrt Hn Hc
    |c user t1 a o t2 R Ha Io Hst E1 E2 E3 E4 Hk Hrt Hc|c user id t1 a t2 o R Ha Hra Io Hst E1 E2 Hk (g & job & n & user' & -> & Eu)|rts].
  1-5, 13: by apply follows_same.
  - by apply (follows_update t c _ q g).
  - by apply (follows_update t c _ q g).
  - eapply (follows_update t c); [reflexivity|]. intros a Hq. cbn beta in Hq. breflect. by apply Hs.
  - by apply (follows_update t _ _ q g).
  - apply (created_follows user t t1 a t2 o); try done. destruct Hrt as (r & Hr & Er & Es & Eg).
    exists r. split_and!; [done|congruence|done|congruence].
  - by apply (start_follows user t t1 t1 o).
  - by apply (deletion_follows user t t1 o).
Qed.

Lemma exec_follows c fault t : sound t → follows t c (exec c fault t).1.
Proof.
  intros S. destruct (exec_tables c fault t) as [->|[x H]]; [by apply follows_same|by apply (effect_follows t c _ x)].
Qed.

Lemma follows_evolves t c t' a : follows t c t' → a ∈ tb_archives t → ∃ b, b ∈ tb_archives t' ∧ evolves a b.
Proof.
  intros (kept & new & E & F & _) Ha. apply list_elem_of_lookup in Ha as [i Ha].
  destruct (Forall2_lookup_l _ _ _ _ _ F Ha) as (b & Hb & Hs). exists b. split; [|by eapply step_evolves].
  rewrite E. apply elem_of_app. left. by eapply list_elem_of_lookup_2.
Qed.

Lemma exec_all_follows k : ∀ t a, sound t → a ∈ tb_archives t → ∃ b, b ∈ tb_archives (exec_all k t) ∧ evolves a b.
Proof.
  induction k as [|[c fault] k IH]; intros t a S Ha; [by exists a|]. cbn [exec_all].
  destruct (follows_evolves t c _ a (exec_follows c fault t S) Ha) as (b & Hb & Ev).
  destruct (IH _ b (exec_sound c fault t S) Hb) as (d & Hd & Ev'). exists d. split; [done|by transitivity b].
Qed.

(** C34. In every state that calls reach, whichever commits fail, the archives
    after one more call are those before it, each stepped by [archive_step],
    and at most one that it created. Each step names the call that makes it,
    what the call asks and what it writes: a version, size and digest are
    recorded, and a creation completed, only under the current lease of the
    running creation of that archive (completing it also needs the account's
    runtime ready at that generation); a deletion is completed, and the key and
    object data erased, only under the current lease of a deletion of that
    archive; a creation fails only while it runs; a deletion starts, by its
    account, on a ready archive and gives it back only after it failed; an
    archive is created empty when nothing of the account runs. So, over any
    calls, no archive is lost, its identity never changes, its key is kept
    until it is deleted, what a ready archive holds never changes until it is
    deleted, and a failed or deleted archive never changes again. *)
Theorem archives_follow_lifecycle l k c fault a : a ∈ tb_archives (exec_all l empty_tables) →
  (∃ b, b ∈ tb_archives (exec_all (l ++ k) empty_tables) ∧ evolves a b)
  ∧ follows (exec_all l empty_tables) c (exec c fault (exec_all l empty_tables)).1.
Proof.
  intros Ha. pose proof (exec_all_sound l _ empty_sound) as S. split; [|by apply exec_follows].
  rewrite exec_all_app. by apply exec_all_follows.
Qed.

(** ** Leases are exclusive *)

(** The job runs under the lease of a token that is current until [e]. *)
Definition holds (job token : pystr) (e : Z) (t : tables) : Prop :=
  ∃ o x, o ∈ tb_operations t ∧ op_job o = job ∧ running o = true ∧ op_lease_token o = Some token
    ∧ op_lease_expires o = Some x ∧ e <= x.

(** A call before the expiry, which does not shorten the lease itself. *)
Definition meanwhile (job token : pystr) (e : Z) (c : call) : Prop :=
  (∀ n, now_of c = Some n → n < e) ∧ (lease_of c = Some (job, token) → ∀ x, expiry_of c = Some x → e <= x).

(** A call of another worker on the job: a claim of anything, or a write in
    the name of another lease. *)
Definition rival (job token : pystr) (c : call) : Prop :=
  match c with
  | ClaimDue _ _ _ _ => True
  | FailOperation job' _ _ token' _ _ _ => job' = job ∧ token' ≠ Some token
  | _ => ∃ token', lease_of c = Some (job, token') ∧ token' ≠ token
  end.
Record denied (job : pystr) (t t' : tables) (r : res answer) : Prop := {
  dn_row : ∀ o, o ∈ tb_operations t → op_job o = job → o ∈ tb_operations t';
  dn_wrote : r ≠ Ok (Wrote true);
  dn_claimed : ∀ o, r = Ok (Claimed (Some o)) → op_job o ≠ job;
}.

(** The call by which a job stops running. *)
Definition ends (job token : pystr) (c : call) (t' : tables) : Prop :=
  (∀ o, o ∈ tb_operations t' → op_job o = job → running o = false)
  ∧ (lease_of c = Some (job, token)
     ∨ match c with
       | FailOperation job' _ _ token' _ _ _ => job' = job ∧ token' = Some token
       | FailCreation _ job' _ _ _ => job' = job
       | _ => False
       end).

Lemma holder t job token e o : sound t → holds job token e t → o ∈ tb_operations t → op_job o = job →
  op_lease_token o = Some token ∧ running o = true ∧ ∃ x, op_lease_expires o = Some x ∧ e <= x.
Proof.
  intros S (h & x & Hh & Ej & Hr & Et & Ex & Le) Ho E. rewrite (same_job t o h S Ho Hh) by congruence. eauto.
Qed.

Lemma holds_update t job token e p f t' : holds job token e t → tb_operations t' = update p f (tb_operations t) →
  (∀ o, p o = true → op_job o = job → op_lease_token o = Some token → running o = true →
     op_job (f o) = op_job o ∧ running (f o) = running o ∧ op_lease_token (f o) = op_lease_token o
     ∧ (op_lease_expires (f o) = op_lease_expires o ∨ ∃ x, op_lease_expires (f o) = Some x ∧ e <= x)) →
  holds job token e t'.
Proof.
  intros (h & x & Hh & Ej & Hr & Et & Ex & Le) E H. destruct (p h) eqn:Ep.
  - destruct (H h Ep Ej Et Hr) as (F1 & F2 & F3 & F4). exists (f h).
    assert (Hf : ∃ y, op_lease_expires (f h) = Some y ∧ e <= y) by (destruct F4 as [F4|F4]; [exists x; by rewrite F4|done]).
    destruct Hf as (y & Ey & Ly). exists y. rewrite F1, F2, F3. split_and!; try done.
    rewrite E. apply in_update. exists h. by rewrite Ep.
  - exists h, x. split_and!; try done. rewrite E. apply in_update. exists h. by rewrite Ep.
Qed.

Lemma holds_delete t job token e p t' : holds job token e t → tb_operations t' = delete_rows p (tb_operations t) →
  (∀ o, o ∈ tb_operations t → op_job o = job → op_lease_token o = Some token → p o = false) → holds job token e t'.
Proof.
  intros (h & x & Hh & Ej & Hr & Et & Ex & Le) E H. exists h, x. split_and!; try done.
  rewrite E. apply in_delete. split; [done|by apply H].
Qed.

Lemma leased_held t job token e c n p o : sound t → holds job token e t → by_lease c n p →
  o ∈ tb_operations t → p o = true → op_job o = job → lease_of c = Some (job, token).
Proof.
  intros S Hh Hp Ho Hpo Ej. destruct (by_lease_running _ _ _ _ Hp Hpo) as (_ & _ & job' & token' & El & Ej' & Et').
  destruct (holder t job token e o S Hh Ho Ej) as (Et & _). congruence.
Qed.

Lemma retire_holds user t t1 job token e : sound t → holds job token e t → retire_failed_managed_operation user t = Ok t1 →
  holds job token e t1.
Proof.
  intros S Hh. unfold retire_failed_managed_operation. destruct (List.find _ _) as [o|] eqn:Eo; [|by intros [= <-]].
  apply find_in in Eo as [Ho Hu]. destruct (running o) eqn:Er; [done|].
  assert (Hd : ∀ o', o' ∈ tb_operations t → op_job o' = job → op_lease_token o' = Some token → of_user user o' = false).
  { intros o' Ho' Ej Et. destruct (of_user user o') eqn:Eu; [|done]. unfold of_user in *. breflect.
    assert (o' = o) as -> by (apply (same_user t); [done|done|done|congruence]).
    destruct (holder t job token e o S Hh Ho Ej) as (_ & Hr & _). congruence. }
  destruct (is_kind _ _); intros [= <-]; by apply (holds_delete t job token e (of_user user)).
Qed.

Lemma insert_holds o t t' job token e : insert_operation o t = Ok t' → holds job token e t → holds job token e t'.
Proof.
  intros (-> & _)%insert_keys (h & x & Hh & H). exists h, x. split; [apply elem_of_app; by left|done].
Qed.

Section Lease.
Context (t : tables) (job token : pystr) (e : Z) (c : call).
Hypotheses (S : sound t) (Hh : holds job token e t) (M : meanwhile job token e c).

(** What a call leaves of the lease. *)
Let kept (t' : tables) (x : answer) : Prop :=
  (holds job token e t' ∨ ends job token c t') ∧ (rival job token c → denied job t t' (Ok x)).

Lemma row_of : ∃ h, h ∈ tb_operations t ∧ op_job h = job ∧ op_lease_token h = Some token ∧ running h = true
  ∧ ∀ o, o ∈ tb_operations t → op_job o = job → o = h.
Proof.
  destruct Hh as (h & x & Ho & Ej & Hr & Et & _). exists h. split_and!; try done.
  intros o Ho' E. by apply (same_job t); [done..|congruence].
Qed.

(** No write by lease of a rival is on the job. *)
Lemma rival_spared n p : rival job token c → by_lease c n p →
  ∀ o, o ∈ tb_operations t → p o = true → False.
Proof.
  intros R Hp o Ho Hpo. destruct (by_lease_running _ _ _ _ Hp Hpo) as (_ & _ & job' & token' & El & Ej & Et).
  assert (N : ∃ token'', lease_of c = Some (job, token'') ∧ token'' ≠ token) by (destruct c; try done; exact R).
  destruct N as (token'' & El' & N). rewrite El' in El. simplify_eq.
  destruct (holder t (op_job o) token e o S Hh Ho eq_refl) as (Et' & _). congruence.
Qed.

Lemma rival_denied t' n p b : rival job token c → by_lease c n p →
  (∀ o, o ∈ tb_operations t → p o = false → o ∈ tb_operations t') →
  (b = true → ∃ o, o ∈ tb_operations t ∧ p o = true) → denied job t t' (Ok (Wrote b)).
Proof.
  intros R Hp Hrow Hb. split; [|intros [= ->]; destruct (Hb eq_refl) as (o & Ho & Hpo); by apply (rival_spared n p R Hp o)|done].
  intros o Ho _. apply Hrow; [done|]. apply not_true_iff_false. intros Hpo. by apply (rival_spared n p R Hp o).
Qed.

Lemma expiry_later (x y : option Z) : lease_of c = Some (job, token) → is_Some (expiry_of c) → x = expiry_of c →
  ∃ z, x = Some z ∧ e <= z.
Proof. intros El [z Ez] ->. exists z. split; [done|]. by apply (proj2 M El). Qed.

Lemma touches_holds n p f t' : by_lease c n p → touches c f → tb_operations t' = update p f (tb_operations t) →
  holds job token e t'.
Proof.
  intros Hp Hf E. destruct Hh as (h & x & Ho & Ej & Hr & Et & Ex & Le). 
  apply (holds_update t job token e p f); [by exists h, x|done|].
  intros o Hpo Ejo Eto Hro. destruct (tc_core _ _ Hf o) as (_ & E1 & _ & _ & E2 & _).
  split_and!; [done|unfold running; by rewrite E2|by rewrite (tc_token _ _ Hf)|].
  destruct (tc_expiry _ _ Hf o) as [E3|[E3 E4]]; [by left|right].
  destruct (by_lease_running _ _ _ _ Hp Hpo) as (_ & _ & job' & token' & El & Ej' & Et').
  apply (expiry_later _ None); [congruence|done|done].
Qed.

Lemma row_kept_update p f : ∀ o, o ∈ tb_operations t → p o = false → o ∈ update p f (tb_operations t).
Proof. intros o Ho Hp. apply in_update. exists o. by rewrite Hp. Qed.
Lemma row_kept_delete p : ∀ o, o ∈ tb_operations t → p o = false → o ∈ delete_rows p (tb_operations t).
Proof. intros o Ho Hp. by apply in_delete. Qed.

Lemma kept_touches n p f ars b : by_lease c n p → touches c f → (b = true → ∃ o, o ∈ tb_operations t ∧ p o = true) →
  kept (with_archives ars (with_operations (update p f (tb_operations t)) t)) (Wrote b).
Proof.
  intros Hp Hf Hb. split; [left; by apply (touches_holds n p f)|intros R].
  apply (rival_denied _ n p); [done|done|apply row_kept_update|done].
Qed.

(** The operation of a job ends with its row. *)
Lemma kept_restored n p b : by_lease c n p → (b = true → ∃ o, o ∈ tb_operations t ∧ p o = true) →
  kept (with_operations (delete_rows p (tb_operations t)) t) (Wrote b).
Proof.
  intros Hp Hb. split; [|intros R; apply (rival_denied _ n p); [done|done|apply row_kept_delete|done]].
  destruct row_of as (h & Ho & Ej & Et & Hr & Hone). destruct (p h) eqn:Eph.
  - right. split; [|left; by apply (leased_held t job token e c n p h)].
    intros o [Hin Hd]%in_delete Ejo. rewrite (Hone o Hin Ejo) in Hd. congruence.
  - left. apply (holds_delete t job token e p); [done|done|]. intros o Hin Ejo _. by rewrite (Hone o Hin Ejo).
Qed.

Lemma kept_row n o p ars : by_lease c n p → o ∈ tb_operations t → p o = true →
  kept (with_archives ars (with_operations
    (delete_rows (fun x => of_user (op_user o) x && is_job (op_job o) x) (tb_operations t)) t)) (Wrote true).
Proof.
  intros Hp Ho Hpo. split; [|intros R; by destruct (rival_spared n p R Hp o)].
  destruct (decide (op_job o = job)) as [Ej|N].
  - right. split; [|left; by apply (leased_held t job token e c n p o)].
    intros o' [Hin Hd]%in_delete Ej'. rewrite (same_job t o' o S Hin Ho) in Hd by congruence.
    unfold of_user, is_job in Hd. by rewrite !bool_decide_eq_true_2 in Hd.
  - left. eapply (holds_delete t job token e); [done|done|]. cbn. intros o' Hin Ej' _.
    apply not_true_iff_false. intros Hd. unfold of_user, is_job in Hd. breflect. congruence.
Qed.

(** An operation fails. *)
Lemma kept_failed p f t' : tb_operations t' = update p f (tb_operations t) → (∀ o, op_job (f o) = op_job o) →
  (∀ o, running (f o) = false) →
  (∀ o, o ∈ tb_operations t → p o = true → op_job o = job → op_lease_token o = Some token →
    match c with
    | FailOperation job' _ _ token' _ _ _ => job' = job ∧ token' = Some token
    | FailCreation _ job' _ _ _ => job' = job
    | _ => False
    end) →
  holds job token e t' ∨ ends job token c t'.
Proof.
  intros E Hj Hf Hc. destruct row_of as (h & Ho & Ej & Et & Hr & Hone). destruct (p h) eqn:Eph.
  - right. split; [|right; by apply (Hc h)]. intros o' Hin Ej'. rewrite E in Hin.
    apply in_update in Hin as (o & Hin & ->). assert (o = h) as ->.
    { apply Hone; [done|]. destruct (p o); [by rewrite <- Hj|done]. }
    rewrite Eph. apply Hf.
  - left. destruct Hh as (h' & x & Ho' & Ej' & Hr' & Et' & Ex & Le). assert (h' = h) as -> by by apply Hone.
    exists h, x. split_and!; try done. rewrite E. by apply row_kept_update.
Qed.

Lemma kept_started user t1 t2 o t3 x : retire_failed_managed_operation user t = Ok t1 →
  tb_operations t2 = tb_operations t1 → insert_operation o t2 = Ok t3 → lease_of c = None →
  match c with ClaimDue _ _ _ _ | FailOperation _ _ _ _ _ _ _ => False | _ => True end → kept t3 x.
Proof.
  intros R E Io El Hc. split; [left|].
  - apply (insert_holds o t2); [done|]. destruct (retire_holds user t t1 job token e S Hh R) as (h & y & Hin & H).
    exists h, y. by rewrite E.
  - intros Rv. exfalso. destruct c; try done; by destruct Rv as (token' & El' & _).
Qed.
End Lease.

Lemma starts_lease c o : starts c o → lease_of c = None
  ∧ match c with ClaimDue _ _ _ _ | FailOperation _ _ _ _ _ _ _ => False | _ => True end.
Proof. intros (n & _ & H & _). by destruct c. Qed.

Lemma claims_lease t worker token1 n e1 o claimed job token e : sound t → holds job token e t → n < e →
  o ∈ tb_operations t → expired n o = true → op_job claimed = op_job o →
  let t' := with_operations (update (fun x => is_job (op_job o) x && running x && expired n x)
              (fun x => set_lease (Some worker) (Some token1) e1 (op_attempts x + 1) n x) (tb_operations t)) t in
  holds job token e t' ∧ denied job t t' (Ok (Claimed (Some claimed))).
Proof.
  intros S Hh Hn Ho Hx Hc t'.
  assert (Nj : op_job o ≠ job).
  { intros Ej. destruct (holder t job token e o S Hh Ho Ej) as (_ & _ & y & Ey & Ly). unfold expired in Hx.
    rewrite Ey in Hx. breflect. lia. }
  assert (Np : ∀ x, op_job x = job → is_job (op_job o) x && running x && expired n x = false).
  { intros x Ej. apply not_true_iff_false. intros Hp. unfold is_job in Hp. breflect. congruence. }
  split; [|split; [|done|intros o' [= <-]; congruence]].
  - eapply (holds_update t); [done|reflexivity|]. intros x Hp Ej. cbv beta in Hp. by rewrite (Np x Ej) in Hp.
  - intros x Hin Ej. apply row_kept_update; [done|by apply Np].
Qed.

(** What an effect leaves of a current lease. *)
Lemma effect_lease t c t' x job token e : sound t → effect t c t' x → holds job token e t → meanwhile job token e c →
  (holds job token e t' ∨ ends job token c t') ∧ (rival job token c → denied job t t' (Ok x)).
Proof.
  intros S H Hh M. destruct H as [worker token1 n e1 o claimed Ho Hn Hr Hx Hc|c n p f b Hp Hf Hb|c n p f rts b Hact Hp Hf Hb|c n p b Hp Hk Hb
    |job1 gen owner token1 failure error n p b Hp Hb|c n o p f q g b Hp Hf Ho Hk Hpo Hq Hg Hs|c n o p q g Hp Ho Hk Hpo Hq Hg Hs
    |c n o p Hp Ho Hk Hpo|user job1 gen code n o q g Ho Hk Hj Hr Hq _ Hg|c user t1 a0 t2 o t3 R Ia Io Hst E1 E2 E3 E4 E5 Hob Hk
    |c user t1 a0 o t2 R Ha0 Io Hst E1 E2 E3 E4 Hk Hrt|c user id t1 a0 t2 o R Ha0 Hra Io Hst E1 E2 Hk|rts].
  - destruct (claims_lease t worker token1 n e1 o claimed job token e) as [H1 H2]; [done|done|by apply M|done..|].
    split; [by left|done].
  - exact (kept_touches t job token e c S Hh M n p f (tb_archives t) b Hp Hf Hb).
  - destruct (kept_touches t job token e c S Hh M n p f (tb_archives t) b Hp Hf Hb) as [[H|H] Hd]; (split; [|intros R; by destruct (Hd R); split]);
      [by left|by right].
  - by apply (kept_restored t job token e c S Hh M n p b).
  - split.
    + eapply (kept_failed t job token e _ S Hh p); [reflexivity|done|done|].
      intros o Ho Hpo Ej Et. destruct (Hp o Hpo) as (E1 & _ & E2). split; congruence.
    + assert (Hn : job1 = job ∧ token1 ≠ Some token → ∀ o, o ∈ tb_operations t → p o = true → False).
      { intros [-> N] o Ho Hpo. destruct (Hp o Hpo) as (E1 & _ & E2), (holder t job token e o S Hh Ho E1) as (E3 & _).
        congruence. }
      intros R. split; [|intros [= ->]; destruct (Hb eq_refl) as (o & Ho & Hpo); by apply (Hn R o)|done].
      intros o Ho _. apply row_kept_update; [done|]. apply not_true_iff_false. intros Hpo. by apply (Hn R o).
  - apply (kept_touches t job token e c S Hh M n p f); [done|done|]. intros _. by exists o.
  - by apply (kept_row t job token e c S Hh M n o p).
  - by apply (kept_row t job token e c S Hh M n o p).
  - split; [|by intros (token' & [=] & _)].
    eapply (kept_failed t job token e _ S Hh); [reflexivity|done|done|]. cbn. intros o' Ho' Hp Ej Et.
    unfold is_job in Hp. breflect. congruence.
  - destruct (starts_lease c o Hst) as [El Hc]. unfold insert_archive in Ia. inv_ok.
    by eapply (kept_started t job token e c S Hh M); [exact R| |exact Io|..].
  - destruct (starts_lease c o Hst) as [El Hc]. by eapply (kept_started t job token e c S Hh M); [exact R| |exact Io|..].
  - destruct (starts_lease c o Hst) as [El Hc]. by eapply (kept_started t job token e c S Hh M); [exact R| |exact Io|..].
  - split; [by left|by intros (token' & [=] & _)].
Qed.

Lemma exec_lease t c fault job token e : sound t → holds job token e t → meanwhile job token e c →
  (holds job token e (exec c fault t).1 ∨ ends job token c (exec c fault t).1)
  ∧ (rival job token c → denied job t (exec c fault t).1 (exec c fault t).2).
Proof.
  intros S Hh M. destruct (exec_effect c fault t) as [[-> Hi]|(a & He & Ha)].
  - split; [by left|]. intros _. split; [done|..].
    + intros E. by destruct (Hi _ E) as [|].
    + intros o E. by destruct (Hi _ E) as [|].
  - destruct (effect_lease t c _ a job token e S He Hh M) as [H1 H2]. split; [done|]. intros R.
    specialize (H2 R). destruct Ha as [(x & -> & ->)|(er & ->)]; [done|]. by destruct H2; split.
Qed.

(** While the lease lasts, no rival has any effect on the job; it lasts until
    its own worker ends it or the operation is failed. *)
Fixpoint exclusive (job token : pystr) (e : Z) (l : list (call * store_fault)) (t : tables) : Prop :=
  match l with
  | [] => True
  | (c, fault) :: r =>
      let t' := (exec c fault t).1 in
      (rival job token c → denied job t t' (exec c fault t).2)
      ∧ (ends job token c t' ∨ holds job token e t' ∧ exclusive job token e r t')
  end.

Lemma lease_exclusive l t job token e : sound t → holds job token e t →
  Forall (fun cf => meanwhile job token e cf.1) l → exclusive job token e l t.
Proof.
  revert t. induction l as [|[c fault] l IH]; intros t S Hh HM; [done|]. apply Forall_cons in HM as [M HM]. cbn in M |- *.
  destruct (exec_lease t c fault job token e S Hh M) as [[Hh'|He] Hd]; split; try done; [right|by left].
  split; [done|]. apply IH; [by apply exec_sound|done|done].
Qed.

Lemma claim_holds t worker token now e fault o : (exec (ClaimDue worker token now (Some e)) fault t).2 = Ok (Claimed (Some o)) →
  holds (op_job o) token e (exec (ClaimDue worker token now (Some e)) fault t).1.
Proof.
  intros E. destruct (exec_effect (ClaimDue worker token now (Some e)) fault t) as [[_ Hi]|(a & H & [(x & Ex & ->)|[er Er]])].
  - by destruct (Hi _ E).
  - rewrite E in Ex. injection Ex as <-. revert H. generalize (exec (ClaimDue worker token now (Some e)) fault t).1 as t'.
    intros t' H. inversion H as [w k n e1 h claimed Ho Hn Hr Hx Hc| | | | | | | | | | | |]; subst.
    exists (set_lease (Some worker) (Some token) e (op_attempts h + 1) n h), e. split_and!; try done.
    apply in_update. exists h. unfold is_job. by rewrite bool_decide_eq_true_2, Hr, Hx.
  - congruence.
Qed.

(** C35. A claimed operation is its worker's alone: in every state that the
    catalog reaches, once a claim returns an operation under a token until an
    expiry, calls before that expiry (in any number and order, of any workers,
    with any commits failing) keep the operation running under that token,
    until its own worker ends it or a call fails it. Until then every other
    worker is denied: a claim returns another operation or none, a write in
    the name of another token is answered false, and the row of the operation
    is not changed by either. The worker's own renewals must not shorten its
    lease. *)
Theorem backup_lease_exclusive l worker token now e fault o m :
  (exec (ClaimDue worker token now (Some e)) fault (exec_all l empty_tables)).2 = Ok (Claimed (Some o)) →
  Forall (fun cf => meanwhile (op_job o) token e cf.1) m →
  let t := (exec (ClaimDue worker token now (Some e)) fault (exec_all l empty_tables)).1 in
  holds (op_job o) token e t ∧ exclusive (op_job o) token e m t.
Proof.
  intros E HM t. assert (Hh : holds (op_job o) token e t) by by apply claim_holds.
  split; [done|]. apply lease_exclusive; [|done|done]. apply exec_sound, exec_all_sound, empty_sound.
Qed.

(** ** A backup, claimed by one worker while another tries *)

#[local] Definition digest : pystr := replicate 64 48.
#[local] Definition a_backup : list (call * store_fault) := [
  (ChangeRuntimes [{| rt_user := u"u"; rt_runner := u"r"; rt_sprite := u"s"; rt_status := RuntimeReady; rt_generation := 1;
     rt_artifact := u"v"; rt_created := 1; rt_updated := 1; rt_error := None |}], NoFault);
  (StartCreation (u"u") 1 (u"a") (u"j") (u"objects/a") [1] (u"k") digest (Some 10), NoFault)].
#[local] Definition the_worker : list (call * store_fault) := [
  (UploadIntent (u"j") (u"t1") 1 5 digest (Some 21), NoFault);
  (ClaimDue (u"w2") (u"t2") (Some 22) (Some 200), NoFault);
  (RecordUpload (u"u") (u"j") (u"t2") 1 5 digest (u"v2") (Some 23), NoFault);
  (RecordUpload (u"u") (u"j") (u"t1") 1 5 digest (u"v1") (Some 24), NoFault);
  (CompleteCreation (u"u") (u"j") (Some (u"t1")) 1 5 digest (Some (u"v1")) (Some 25), NoFault)].

Lemma backup_lease_exclusive_witness : ∃ o,
  (exec (ClaimDue (u"w1") (u"t1") (Some 20) (Some 100)) NoFault (exec_all a_backup empty_tables)).2 = Ok (Claimed (Some o))
  ∧ exclusive (op_job o) (u"t1") 100 the_worker
      (exec (ClaimDue (u"w1") (u"t1") (Some 20) (Some 100)) NoFault (exec_all a_backup empty_tables)).1.
Proof.
  eexists. split; [vm_compute; reflexivity|].
  apply (backup_lease_exclusive a_backup (u"w1") (u"t1") (Some 20) 100 NoFault); [vm_compute; reflexivity|].
  cbn [op_job]. repeat apply Forall_cons_2; [..|apply Forall_nil_2];
    (split; [intros n [= <-]; reflexivity|cbn; intros H x E; try discriminate H; discriminate E]).
Defined.

Lemma archives_follow_lifecycle_witness :
  let a := {| ar_id := u"a"; ar_user := u"u"; ar_generation := 1; ar_status := ArchiveReady; ar_object_key := u"objects/a";
              ar_object_version := Some (u"v1"); ar_size := Some 5; ar_sha256 := Some digest; ar_wrapped_key := [1];
              ar_key_id := u"k"; ar_owner_digest := digest; ar_created := 10; ar_completed := Some 25; ar_error := None |} in
  let l := a_backup ++ (ClaimDue (u"w1") (u"t1") (Some 20) (Some 100), NoFault) :: the_worker in
  let k := [(StartDeletion (u"u") (u"a") 1 (u"d") (Some 30), NoFault)] in
  a ∈ tb_archives (exec_all l empty_tables)
  ∧ (∃ b, b ∈ tb_archives (exec_all (l ++ k) empty_tables) ∧ evolves a b)
  ∧ follows (exec_all l empty_tables) (StartDeletion (u"u") (u"a") 1 (u"d") (Some 30))
      (exec (StartDeletion (u"u") (u"a") 1 (u"d") (Some 30)) NoFault (exec_all l empty_tables)).1.
Proof.
  intros a l k. assert (Ha : a ∈ tb_archives (exec_all l empty_tables)).
  { replace (tb_archives (exec_all l empty_tables)) with [a] by (vm_compute; reflexivity). apply list_elem_of_here. }
  split; [exact Ha|].
  exact (archives_follow_lifecycle l k (StartDeletion (u"u") (u"a") 1 (u"d") (Some 30)) NoFault a Ha).
Defined.
