(* ===== verification/RunnerStorage.v ===== *)
(** * Storage profiles and capabilities of runners

    Models the part of [services/runners.py] that decides what a runner may
    say of its storage: profiles, paths and storage classes, the capabilities
    merged from them, and their text in the database. Text arguments are texts
    without lone surrogates. *)

From S2P Require Import Prelude Text Json JsonBytes.

(** ** Paths *)

(** [PurePosixPath]: exactly two leading slashes are a root of their own. *)
Record posix_path := { pp_root : pystr; pp_parts : list pystr }.
#[export] Instance posix_path_eq_dec : EqDecision posix_path.
Proof. solve_decision. Defined.

Definition posix_root (s : pystr) : pystr :=
  if starts_with (u"///") s then u"/" else if starts_with (u"//") s then u"//" else if starts_with (u"/") s then u"/" else [].
Definition parse_path (s : pystr) : posix_path := {|
  pp_root := posix_root s;
  pp_parts := List.filter (fun p => negb (bool_decide (p ∈ [[]; u"."]))) (split_on 47 s) |}.
Definition path_str (p : posix_path) : pystr :=
  match pp_root p, pp_parts p with
  | [], [] => u"."
  | root, parts => root ++ join_with 47 parts
  end.
Definition is_absolute (p : posix_path) : bool := negb (bool_decide (pp_root p = [])).

Fixpoint is_prefix (p l : list pystr) : bool :=
  match p, l with
  | [], _ => true
  | x :: p, y :: l => bool_decide (x = y) && is_prefix p l
  | _ :: _, [] => false
  end.
(** [_path_contains], for absolute paths: a parent has the root of its child. *)
Definition path_contains (parent child : posix_path) : bool :=
  bool_decide (pp_root parent = pp_root child) && is_prefix (pp_parts parent) (pp_parts child).

(** ** Profiles *)

Inductive storage_profile := AwsEbsS3Files | ArchilSharedFiles | ArchilAllPosix | FlySpritesPosix.
#[export] Instance storage_profile_eq_dec : EqDecision storage_profile.
Proof. solve_decision. Defined.

Definition profile_value (p : storage_profile) : pystr :=
  match p with
  | AwsEbsS3Files => u"aws_ebs_s3_files"
  | ArchilSharedFiles => u"archil_shared_files"
  | ArchilAllPosix => u"archil_all_posix"
  | FlySpritesPosix => u"fly_sprites_posix"
  end.
Definition all_profiles : list storage_profile := [AwsEbsS3Files; ArchilSharedFiles; ArchilAllPosix; FlySpritesPosix].

Definition DEFAULT_RUNNER_DATA_DIR : pystr := u"/var/lib/yinshi".
Definition DEFAULT_SQLITE_DIR : pystr := u"/var/lib/yinshi/sqlite".
Definition DEFAULT_SHARED_FILES_DIR : pystr := u"/mnt/yinshi-s3-files".
Definition DEFAULT_FLY_SPRITES_SHARED_FILES_DIR : pystr := u"/var/lib/yinshi/files".
Definition DEFAULT_ARCHIL_SHARED_FILES_DIR : pystr := u"/mnt/archil/yinshi".
Definition DEFAULT_ARCHIL_SQLITE_DIR : pystr := u"/mnt/archil/yinshi/sqlite".

(** [RunnerStorageProfileSpec] *)
Record profile_spec := {
  sp_value : pystr;
  sp_sqlite_storage : pystr;
  sp_shared_files_storage : pystr;
  sp_requires_explicit_storage : bool;
  sp_default_sqlite_dir : pystr;
  sp_default_shared_files_dir : pystr;
  sp_live_sqlite_on_shared_files : bool;
  sp_experimental : bool;
  sp_allow_sqlite_under_shared_files : bool;
  sp_allowed_sqlite_storage : list pystr;
  sp_allowed_shared_files_storage : list pystr;
}.

(** [_STORAGE_PROFILES] *)
Definition STORAGE_PROFILES (p : storage_profile) : profile_spec :=
  match p with
  | AwsEbsS3Files => {|
      sp_value := profile_value p; sp_sqlite_storage := u"runner_ebs";
      sp_shared_files_storage := u"s3_files_or_local_posix"; sp_requires_explicit_storage := false;
      sp_default_sqlite_dir := DEFAULT_SQLITE_DIR; sp_default_shared_files_dir := DEFAULT_SHARED_FILES_DIR;
      sp_live_sqlite_on_shared_files := false; sp_experimental := false; sp_allow_sqlite_under_shared_files := false;
      sp_allowed_sqlite_storage := [u"runner_ebs"];
      sp_allowed_shared_files_storage := [u"s3_files_or_local_posix"; u"s3_files_mount"; u"local_posix"] |}
  | ArchilSharedFiles => {|
      sp_value := profile_value p; sp_sqlite_storage := u"runner_ebs"; sp_shared_files_storage := u"archil";
      sp_requires_explicit_storage := true; sp_default_sqlite_dir := DEFAULT_SQLITE_DIR;
      sp_default_shared_files_dir := DEFAULT_ARCHIL_SHARED_FILES_DIR; sp_live_sqlite_on_shared_files := false;
      sp_experimental := true; sp_allow_sqlite_under_shared_files := false;
      sp_allowed_sqlite_storage := [u"runner_ebs"]; sp_allowed_shared_files_storage := [u"archil"] |}
  | ArchilAllPosix => {|
      sp_value := profile_value p; sp_sqlite_storage := u"archil"; sp_shared_files_storage := u"archil";
      sp_requires_explicit_storage := true; sp_default_sqlite_dir := DEFAULT_ARCHIL_SQLITE_DIR;
      sp_default_shared_files_dir := DEFAULT_ARCHIL_SHARED_FILES_DIR; sp_live_sqlite_on_shared_files := true;
      sp_experimental := true; sp_allow_sqlite_under_shared_files := true;
      sp_allowed_sqlite_storage := [u"archil"]; sp_allowed_shared_files_storage := [u"archil"] |}
  | FlySpritesPosix => {|
      sp_value := profile_value p; sp_sqlite_storage := u"local_posix"; sp_shared_files_storage := u"local_posix";
      sp_requires_explicit_storage := false; sp_default_sqlite_dir := DEFAULT_SQLITE_DIR;
      sp_default_shared_files_dir := DEFAULT_FLY_SPRITES_SHARED_FILES_DIR; sp_live_sqlite_on_shared_files := false;
      sp_experimental := false; sp_allow_sqlite_under_shared_files := false;
      sp_allowed_sqlite_storage := [u"local_posix"]; sp_allowed_shared_files_storage := [u"local_posix"] |}
  end.

(** ** Checks *)

Definition require_non_empty_text (name : string) (value : pystr) : res pystr :=
  let v := strip value in
  check! guard (negb (bool_decide (v = []))) ValueError (name +:+ " must not be empty") in Ok v.

Abbreviation dict := (list (pystr * json)).

Definition optional_capability_text (capabilities : dict) (key : string) : res (option pystr) :=
  match dict_get (u key) capabilities with
  | None | Some JNull => Ok None
  | Some (JStr s) => Ok (if bool_decide (strip s = []) then None else Some (strip s))
  | Some _ => raise ValueError (key +:+ " capability must be a string")
  end.

Definition storage_profile_spec (value : pystr) : res storage_profile :=
  let! v := require_non_empty_text "storage_profile" value in
  match List.find (fun p => bool_decide (profile_value p = v)) all_profiles with
  | Some p => Ok p
  | None => raise ValueError "Unsupported runner storage_profile"
  end.

Definition storage_profile_from_capabilities (capabilities : dict) : res storage_profile :=
  let! value := optional_capability_text capabilities "storage_profile" in
  match value with
  | None => Ok AwsEbsS3Files
  | Some v => storage_profile_spec v
  end.

Definition require_storage_path (name : string) (value : pystr) : res posix_path :=
  let! v := require_non_empty_text name value in
  let path := parse_path v in
  check! guard (is_absolute path) ValueError (name +:+ " must be an absolute path") in
  check! guard (negb (bool_decide (u".." ∈ pp_parts path))) ValueError
    (name +:+ " must not contain parent directory references") in
  Ok path.

Definition validated_storage_class (capabilities : dict) (key : string) (expected : pystr) (allowed : list pystr)
    (required : bool) : res pystr :=
  let! requested := optional_capability_text capabilities key in
  match requested with
  | None => if required then raise ValueError (key +:+ " must be set") else Ok expected
  | Some v => check! guard (bool_decide (v ∈ allowed)) ValueError (key +:+ " must be allowed") in Ok v
  end.

(** ** Capabilities *)

(** [d.update(items)], in order. *)
Definition dict_update (d items : dict) : dict := fold_left (fun d kv => dict_set kv.1 kv.2 d) items d.

Definition BASE_CAPABILITIES : dict :=
  [(u"posix_storage", JBool true); (u"sqlite", JBool true); (u"git_worktrees", JBool true); (u"pi_sidecar", JBool true)].

(** [directory or default]: no directory, or an empty one, is the default. *)
Definition or_default (directory : option pystr) (otherwise : pystr) : pystr :=
  match directory with None | Some [] => otherwise | Some d => d end.

(** What [_storage_capabilities] writes over the capabilities. *)
Definition storage_items (profile : storage_profile) (data_dir sqlite_dir shared_files_dir sqlite_storage
    shared_files_storage : pystr) : dict :=
  let spec := STORAGE_PROFILES profile in
  [(u"data_dir", JStr data_dir); (u"sqlite_dir", JStr sqlite_dir); (u"shared_files_dir", JStr shared_files_dir);
   (u"storage_profile", JStr (sp_value spec)); (u"storage_profile_experimental", JBool (sp_experimental spec));
   (u"sqlite_storage", JStr sqlite_storage); (u"shared_files_storage", JStr shared_files_storage);
   (u"live_sqlite_on_shared_files", JBool (sp_live_sqlite_on_shared_files spec))].

Definition storage_capabilities (capabilities : dict) (data_dir : pystr) (sqlite_dir shared_files_dir : option pystr)
    (profile : pystr) : res dict :=
  let! p := storage_profile_spec profile in
  let spec := STORAGE_PROFILES p in
  let! data := require_storage_path "data_dir" data_dir in
  let! sqlite := require_storage_path "sqlite_dir" (or_default sqlite_dir (sp_default_sqlite_dir spec)) in
  let! shared := require_storage_path "shared_files_dir"
                   (or_default shared_files_dir (sp_default_shared_files_dir spec)) in
  check! guard (sp_allow_sqlite_under_shared_files spec || negb (path_contains shared sqlite)) ValueError
    "sqlite_dir must not live under shared_files_dir" in
  let! sqlite_storage := validated_storage_class capabilities "sqlite_storage" (sp_sqlite_storage spec)
                           (sp_allowed_sqlite_storage spec) (sp_requires_explicit_storage spec) in
  let! shared_storage := validated_storage_class capabilities "shared_files_storage" (sp_shared_files_storage spec)
                           (sp_allowed_shared_files_storage spec) (sp_requires_explicit_storage spec) in
  Ok (dict_update (dict_update BASE_CAPABILITIES capabilities)
        (storage_items p (path_str data) (path_str sqlite) (path_str shared) sqlite_storage shared_storage)).

(** ** Their text *)

(** [_capabilities_json]; the text is ASCII, a byte a character. *)
Definition capabilities_json (capabilities : dict) : res pystr :=
  let serialized := dumps true true (JObj capabilities) in
  check! guard (zlen serialized <=? 16384) ValueError "capabilities payload is too large" in Ok serialized.

Section Text.
Context {FL : PyFloat}.

Definition decode_capabilities (text : pystr) : res dict :=
  let! v := loads read_float read_constant dict_of_pairs (if bool_decide (text = []) then u"{}" else text) in
  match v with
  | JObj d => Ok d
  | _ => raise ValueError "capabilities_json must decode to an object"
  end.

(** [text or default] *)
Definition or_text (r : res (option pystr)) (otherwise : pystr) : res pystr := let! o := r in Ok (default otherwise o).

Definition serialized_capabilities (text : pystr) : res dict :=
  let! capabilities := decode_capabilities text in
  let! p := storage_profile_from_capabilities capabilities in
  let spec := STORAGE_PROFILES p in
  let! data := or_text (optional_capability_text capabilities "data_dir") DEFAULT_RUNNER_DATA_DIR in
  let! sqlite := or_text (optional_capability_text capabilities "sqlite_dir") (sp_default_sqlite_dir spec) in
  let! shared := or_text (optional_capability_text capabilities "shared_files_dir") (sp_default_shared_files_dir spec) in
  storage_capabilities capabilities data (Some sqlite) (Some shared) (sp_value spec).

Definition requested_profile_matches (requested : pystr) (stored : dict) : res storage_profile :=
  let! p := storage_profile_from_capabilities stored in
  let! supplied := storage_profile_spec requested in
  check! guard (bool_decide (supplied = p)) ValueError "storage_profile must match requested runner profile" in
  Ok p.
End Text.

(** ** Texts without outer spaces *)

Definition no_space_head (s : pystr) : Prop := match s with [] => True | c :: _ => is_space c = false end.

Lemma lstrip_head s : no_space_head (lstrip s).
Proof. induction s as [|c s IH]; [done|]. cbn [lstrip]. destruct (is_space c) eqn:E; done. Qed.

Lemma lstrip_id s : no_space_head s → lstrip s = s.
Proof. destruct s as [|c s]; [done|]. cbn. by intros ->. Qed.

Lemma lstrip_suffix s : ∃ p, s = p ++ lstrip s.
Proof.
  induction s as [|c s [p E]]; [by exists []|]. cbn [lstrip]. destruct (is_space c); [|by exists []].
  exists (c :: p). cbn. by f_equal.
Qed.

Lemma strip_strip s : strip (strip s) = strip s.
Proof.
  unfold strip. set (a := lstrip s). set (b := lstrip (reverse a)).
  assert (Hh : no_space_head (reverse b)).
  { destruct (lstrip_suffix (reverse a)) as [p E]. fold b in E. pose proof (lstrip_head s) as Ha. fold a in Ha.
    assert (Ea : a = reverse b ++ reverse p) by (rewrite <- reverse_app, <- E; by rewrite reverse_involutive).
    destruct (reverse b) as [|c r]; [done|]. by rewrite Ea in Ha. }
  rewrite (lstrip_id (reverse b)) by done. rewrite reverse_involutive.
  by rewrite (lstrip_id b) by apply lstrip_head.
Qed.
