(* ===== verification/Runners.v ===== *)
(** * Runners of an account and their tokens

    Models the part of [services/runners.py] that keeps [user_runners]: the
    registration of a runner, its one-time registration token, its bearer
    token, heartbeats, the confirmation of its Noise key and its revocation.

    A function that reads a row in one statement and writes it in a later
    transaction is a program of two steps: calls of other requests, which run
    in other threads, may come between. Clocks, fresh tokens and fresh row ids
    are arguments. Of a row, the times that triggers keep are not modelled. *)

From S2P Require Import Prelude Text Json JsonBytes Crypto RunnerNoise RunnerCapabilities Transactions.
From S2P Require Import ManagedBackups RunnerStorage.

(** ** The control database *)

Inductive runner_kind := Byoc | Managed | ManagedRestore | ManagedRetired.
#[export] Instance runner_kind_eq_dec : EqDecision runner_kind.
Proof. solve_decision. Defined.
Inductive runner_status := RunnerPending | RunnerOnline | RunnerRevoked.
#[export] Instance runner_status_eq_dec : EqDecision runner_status.
Proof. solve_decision. Defined.

(** [user_runners] *)
Record runner := {
  rn_id : pystr;
  rn_user : pystr;
  rn_kind : runner_kind;
  rn_name : pystr;
  rn_provider : pystr;
  rn_region : pystr;
  rn_status : runner_status;
  rn_registration : option pystr;
  rn_registration_expires : option Z;
  rn_token : option pystr;
  rn_registered : option Z;
  rn_heartbeat : option Z;
  rn_version : option pystr;
  rn_capabilities : pystr;
  rn_data_dir : option pystr;
  rn_revoked : option Z;
  rn_noise_key : option pystr;
  rn_noise_confirmed : option Z;
  rn_restore_job : option pystr;
}.

(** [managed_sprite_identities] *)
Inductive identity_kind := RuntimeIdentity | RestoreCandidate.
#[export] Instance identity_kind_eq_dec : EqDecision identity_kind.
Proof. solve_decision. Defined.
Inductive identity_status := IdentityCreating | IdentityActive | IdentityRetired | IdentityDeleting.
#[export] Instance identity_status_eq_dec : EqDecision identity_status.
Proof. solve_decision. Defined.
Record identity := {
  id_sprite : pystr;
  id_kind : identity_kind;
  id_user : pystr;
  id_job : option pystr;
  id_status : identity_status;
  id_created : Z;
  id_updated : Z;
}.

(** [managed_runtime_activation_guards] *)
Record activation_guard := { gd_user : pystr; gd_job : pystr; gd_token : pystr }.

Record control := {
  ct_tables : tables;
  ct_runners : list runner;
  ct_identities : list identity;
  ct_guards : list activation_guard;
}.
Definition empty_control : control :=
  {| ct_tables := empty_tables; ct_runners := []; ct_identities := []; ct_guards := [] |}.
Definition with_tables (x : tables) (c : control) : control :=
  {| ct_tables := x; ct_runners := ct_runners c; ct_identities := ct_identities c; ct_guards := ct_guards c |}.
Definition with_runners (x : list runner) (c : control) : control :=
  {| ct_tables := ct_tables c; ct_runners := x; ct_identities := ct_identities c; ct_guards := ct_guards c |}.
Definition with_identities (x : list identity) (c : control) : control :=
  {| ct_tables := ct_tables c; ct_runners := ct_runners c; ct_identities := x; ct_guards := ct_guards c |}.
Definition with_guards (x : list activation_guard) (c : control) : control :=
  {| ct_tables := ct_tables c; ct_runners := ct_runners c; ct_identities := ct_identities c; ct_guards := x |}.

(** ** Rows *)

Definition is_runner (id : pystr) (r : runner) : bool := bool_decide (rn_id r = id).
Definition owned_runner (user : pystr) (kind : runner_kind) (r : runner) : bool :=
  bool_decide (rn_user r = user) && bool_decide (rn_kind r = kind).
Definition unrevoked (r : runner) : bool := bool_decide (rn_revoked r = None).
Definition find_runner (p : runner → bool) (c : control) : option runner := List.find p (ct_runners c).

Definition set_kind (kind : runner_kind) (r : runner) : runner := {|
  rn_id := rn_id r; rn_user := rn_user r; rn_kind := kind; rn_name := rn_name r; rn_provider := rn_provider r;
  rn_region := rn_region r; rn_status := rn_status r; rn_registration := rn_registration r;
  rn_registration_expires := rn_registration_expires r; rn_token := rn_token r; rn_registered := rn_registered r;
  rn_heartbeat := rn_heartbeat r; rn_version := rn_version r; rn_capabilities := rn_capabilities r;
  rn_data_dir := rn_data_dir r; rn_revoked := rn_revoked r; rn_noise_key := rn_noise_key r;
  rn_noise_confirmed := rn_noise_confirmed r; rn_restore_job := rn_restore_job r |}.
Definition set_restore_job (job : pystr) (r : runner) : runner := {|
  rn_id := rn_id r; rn_user := rn_user r; rn_kind := rn_kind r; rn_name := rn_name r; rn_provider := rn_provider r;
  rn_region := rn_region r; rn_status := rn_status r; rn_registration := rn_registration r;
  rn_registration_expires := rn_registration_expires r; rn_token := rn_token r; rn_registered := rn_registered r;
  rn_heartbeat := rn_heartbeat r; rn_version := rn_version r; rn_capabilities := rn_capabilities r;
  rn_data_dir := rn_data_dir r; rn_revoked := rn_revoked r; rn_noise_key := rn_noise_key r;
  rn_noise_confirmed := rn_noise_confirmed r; rn_restore_job := Some job |}.
(** [SET status = 'revoked', revoked_at = ?] and no tokens *)
Definition set_revoked (now : Z) (r : runner) : runner := {|
  rn_id := rn_id r; rn_user := rn_user r; rn_kind := rn_kind r; rn_name := rn_name r; rn_provider := rn_provider r;
  rn_region := rn_region r; rn_status := RunnerRevoked; rn_registration := None; rn_registration_expires := None;
  rn_token := None; rn_registered := rn_registered r; rn_heartbeat := rn_heartbeat r; rn_version := rn_version r;
  rn_capabilities := rn_capabilities r; rn_data_dir := rn_data_dir r; rn_revoked := Some now;
  rn_noise_key := rn_noise_key r; rn_noise_confirmed := rn_noise_confirmed r; rn_restore_job := rn_restore_job r |}.
Definition set_confirmed (now : Z) (r : runner) : runner := {|
  rn_id := rn_id r; rn_user := rn_user r; rn_kind := rn_kind r; rn_name := rn_name r; rn_provider := rn_provider r;
  rn_region := rn_region r; rn_status := rn_status r; rn_registration := rn_registration r;
  rn_registration_expires := rn_registration_expires r; rn_token := rn_token r; rn_registered := rn_registered r;
  rn_heartbeat := rn_heartbeat r; rn_version := rn_version r; rn_capabilities := rn_capabilities r;
  rn_data_dir := rn_data_dir r; rn_revoked := rn_revoked r; rn_noise_key := rn_noise_key r;
  rn_noise_confirmed := Some now; rn_restore_job := rn_restore_job r |}.
(** The row that [register_runner] writes. *)
Definition set_registered (token : pystr) (now : Z) (version capabilities data_dir : pystr) (key : option pystr)
    (r : runner) : runner := {|
  rn_id := rn_id r; rn_user := rn_user r; rn_kind := rn_kind r; rn_name := rn_name r; rn_provider := rn_provider r;
  rn_region := rn_region r; rn_status := RunnerOnline; rn_registration := None; rn_registration_expires := None;
  rn_token := Some token; rn_registered := Some now; rn_heartbeat := Some now; rn_version := Some version;
  rn_capabilities := capabilities; rn_data_dir := Some data_dir; rn_revoked := rn_revoked r; rn_noise_key := key;
  rn_noise_confirmed :=
    match rn_kind r with
    | Managed | ManagedRestore => Some now
    | _ => match rn_noise_key r, key with
           | Some k, Some k' => if bool_decide (k = k') then rn_noise_confirmed r else None
           | _, _ => None
           end
    end;
  rn_restore_job := rn_restore_job r |}.
Definition set_heartbeat (now : Z) (version capabilities data_dir : pystr) (r : runner) : runner := {|
  rn_id := rn_id r; rn_user := rn_user r; rn_kind := rn_kind r; rn_name := rn_name r; rn_provider := rn_provider r;
  rn_region := rn_region r; rn_status := RunnerOnline; rn_registration := rn_registration r;
  rn_registration_expires := rn_registration_expires r; rn_token := rn_token r; rn_registered := rn_registered r;
  rn_heartbeat := Some now; rn_version := Some version; rn_capabilities := capabilities;
  rn_data_dir := Some data_dir; rn_revoked := rn_revoked r; rn_noise_key := rn_noise_key r;
  rn_noise_confirmed := rn_noise_confirmed r; rn_restore_job := rn_restore_job r |}.

Definition HEARTBEAT_ONLINE_WINDOW_SECONDS : Z := 120.
Definition REGISTRATION_TOKEN_TTL_MINUTES : Z := 60.

Section Runners.
Context {SHA : Sha256} {X : X25519} {FL : PyFloat}.

(** ** Tokens and keys *)

Definition hash_token (token : pystr) : res pystr :=
  let! t := require_non_empty_text "token" token in
  let! b := utf8_encode t in
  Ok (hexdigest (sha256 b)).

(** [_validate_noise_public_key]; one padding character is added, so that
    only a text of the length of a key can decode to 32 bytes. *)
Definition validate_noise_public_key (value : option pystr) : res (option pystr) :=
  match value with
  | None => Ok None
  | Some value =>
      let! v := require_non_empty_text "noise_public_key" value in
      let! key := reraise_as (b64decode (v ++ u"=")) [BinasciiError; ValueError] ValueError
                    "noise_public_key must be canonical base64url" in
      check! guard (bool_decide (b64url_encode key = v)) ValueError "noise_public_key must be canonical base64url" in
      check! guard (zlen key =? 32) ValueError "noise_public_key must contain exactly 32 bytes" in
      check! guard (x25519_usable key) ValueError "noise_public_key is not a usable X25519 key" in
      Ok (Some v)
  end.

(** ** Views *)

Inductive display := DisplayRevoked | DisplayPending | DisplayOffline | DisplayOnline.
Definition display_status (r : runner) (now : Z) : display :=
  if bool_decide (is_Some (rn_revoked r)) then DisplayRevoked
  else if bool_decide (rn_registered r = None) then DisplayPending
  else match rn_heartbeat r with
       | None => DisplayOffline
       | Some h => if now - h <=? HEARTBEAT_ONLINE_WINDOW_SECONDS then DisplayOnline else DisplayOffline
       end.

Definition noise_key_fingerprint (key : option pystr) : res (option pystr) :=
  let! v := validate_noise_public_key key in
  match v with
  | None => Ok None
  | Some v => let! b := b64decode (v ++ u"=") in Ok (Some (u"SHA256:" ++ hexdigest (sha256 b)))
  end.

(** [_serialize_runner]: the columns it copies are those of the row. *)
Record runner_view := {
  rv_row : runner;
  rv_status : display;
  rv_capabilities : dict;
  rv_fingerprint : option pystr;
  rv_confirmed : bool;
}.
Definition serialize_runner (r : runner) (now : Z) : res runner_view :=
  let! capabilities := serialized_capabilities (rn_capabilities r) in
  let! fingerprint := noise_key_fingerprint (rn_noise_key r) in
  Ok {| rv_row := r; rv_status := display_status r now; rv_capabilities := capabilities;
        rv_fingerprint := fingerprint;
        rv_confirmed := negb (bool_decide (default [] (rn_noise_key r) = [])) && bool_decide (is_Some (rn_noise_confirmed r)) |}.

Definition get_runner (kind : runner_kind) (user : pystr) (now : Z) : prog control (option runner_view) :=
  let* user := pure (require_user_id user) in
  let* row := select (find_runner (owned_runner user kind)) in
  match row with
  | None => pure (Ok None)
  | Some r => pure (let! v := serialize_runner r now in Ok (Some v))
  end.
Definition get_runner_for_user := get_runner Byoc.
Definition get_managed_runner_for_user := get_runner Managed.
Definition get_managed_restore_runner_for_user := get_runner ManagedRestore.
Definition get_managed_restore_runner_for_job (user job : pystr) (now : Z) : prog control (option runner_view) :=
  let* user := pure (require_user_id user) in
  let* job := pure (require_non_empty_text "job_id" job) in
  let* row := select (find_runner (fun r => owned_runner user ManagedRestore r && bool_decide (rn_restore_job r = Some job))) in
  match row with
  | None => pure (Ok None)
  | Some r => pure (let! v := serialize_runner r now in Ok (Some v))
  end.

(** ** Registrations *)

(** [value.rstrip("/")] *)
Fixpoint drop_slashes (s : pystr) : pystr :=
  match s with
  | c :: r => if c =? 47 then drop_slashes r else s
  | [] => []
  end.
Definition rstrip_slashes (s : pystr) : pystr := reverse (drop_slashes (reverse s)).

Definition runner_environment (control_url registration_token : pystr) (p : storage_profile) : list (pystr * pystr) :=
  let spec := STORAGE_PROFILES p in
  [(u"YINSHI_CONTROL_URL", control_url); (u"YINSHI_REGISTRATION_TOKEN", registration_token);
   (u"YINSHI_RUNNER_STORAGE_PROFILE", sp_value spec); (u"YINSHI_RUNNER_SQLITE_STORAGE", sp_sqlite_storage spec);
   (u"YINSHI_RUNNER_SHARED_FILES_STORAGE", sp_shared_files_storage spec);
   (u"YINSHI_RUNNER_DATA_DIR", DEFAULT_RUNNER_DATA_DIR); (u"YINSHI_RUNNER_SQLITE_DIR", sp_default_sqlite_dir spec);
   (u"YINSHI_RUNNER_DATA_PROTECTION_KEY_FILE", sp_default_sqlite_dir spec ++ u"/.yinshi-data-protection-key");
   (u"YINSHI_RUNNER_SHARED_FILES_DIR", sp_default_shared_files_dir spec);
   (u"YINSHI_RUNNER_TOKEN_FILE", DEFAULT_RUNNER_DATA_DIR ++ u"/runner-token");
   (u"YINSHI_RUNNER_NOISE_KEY_FILE", DEFAULT_RUNNER_DATA_DIR ++ u"/runner-noise.key");
   (u"YINSHI_RUNNER_CAPABILITY_SIGNING_KEY_FILE", DEFAULT_RUNNER_DATA_DIR ++ u"/control-capability-signing.pub");
   (u"YINSHI_RUNNER_REPLAY_DATABASE_FILE", DEFAULT_RUNNER_DATA_DIR ++ u"/runner-capability-replay.sqlite3");
   (u"YINSHI_RUNNER_ENV_FILE", u"/etc/yinshi-runner.env")].

Record registration := {
  rg_runner : runner_view;
  rg_token : pystr;
  rg_expires : Z;
  rg_control_url : pystr;
  rg_environment : list (pystr * pystr);
}.

(** The row that a registration inserts, or writes over the one of the user
    and kind: a managed runner keeps its Noise key. *)
Definition pending_row (id user : pystr) (kind : runner_kind) (name provider region token : pystr) (expires : Z)
    (capabilities : pystr) : runner := {|
  rn_id := id; rn_user := user; rn_kind := kind; rn_name := name; rn_provider := provider; rn_region := region;
  rn_status := RunnerPending; rn_registration := Some token; rn_registration_expires := Some expires;
  rn_token := None; rn_registered := None; rn_heartbeat := None; rn_version := None;
  rn_capabilities := capabilities; rn_data_dir := None; rn_revoked := None; rn_noise_key := None;
  rn_noise_confirmed := None; rn_restore_job := None |}.
Definition set_pending (excluded r : runner) : runner := {|
  rn_id := rn_id r; rn_user := rn_user r; rn_kind := rn_kind r; rn_name := rn_name excluded;
  rn_provider := rn_provider excluded; rn_region := rn_region excluded; rn_status := RunnerPending;
  rn_registration := rn_registration excluded; rn_registration_expires := rn_registration_expires excluded;
  rn_token := None; rn_registered := None; rn_heartbeat := None; rn_version := None;
  rn_capabilities := rn_capabilities excluded; rn_data_dir := None; rn_revoked := None;
  rn_noise_key := if bool_decide (rn_kind excluded = Managed) then rn_noise_key r else None;
  rn_noise_confirmed := if bool_decide (rn_kind excluded = Managed) then rn_noise_confirmed r else None;
  rn_restore_job := rn_restore_job r |}.
Definition upsert_runner (excluded : runner) (c : control) : res control :=
  let its := owned_runner (rn_user excluded) (rn_kind excluded) in
  if existsb its (ct_runners c) then Ok (with_runners (update its (set_pending excluded) (ct_runners c)) c)
  else
    check! guard (negb (existsb (is_runner (rn_id excluded)) (ct_runners c))) IntegrityError "UNIQUE constraint failed" in
    Ok (with_runners (ct_runners c ++ [excluded]) c).

Definition registration_kind_ok (kind : runner_kind) (provider : pystr) : res unit :=
  match kind with
  | Byoc => guard (bool_decide (provider = u"aws")) ValueError "Only AWS runners are supported"
  | Managed | ManagedRestore =>
      guard (bool_decide (provider = u"fly_sprites")) ValueError "Managed runners require fly_sprites"
  | ManagedRetired => raise ValueError "Unsupported runner kind"
  end.

(** What a registration is asked for, and the fresh values it draws. *)
Record registration_request := {
  rq_name : pystr;
  rq_provider : pystr;
  rq_region : pystr;
  rq_profile : pystr;
  rq_control_url : pystr;
  rq_kind : runner_kind;
  rq_fresh_id : pystr;
  rq_fresh_token : pystr;
}.

(** [_create_runner_registration_in_connection], at the time [now]. *)
Definition create_in_connection (user : pystr) (q : registration_request) (now : Z) (c : control) :
    res (control * registration) :=
  let! user := require_user_id user in
  let! name := require_non_empty_text "name" (rq_name q) in
  let! provider := require_non_empty_text "cloud_provider" (rq_provider q) in
  let! region := require_non_empty_text "region" (rq_region q) in
  let! url := require_non_empty_text "control_url" (rq_control_url q) in
  let url := rstrip_slashes url in
  let! p := storage_profile_spec (rq_profile q) in
  check! registration_kind_ok (rq_kind q) provider in
  let! hash := hash_token (rq_fresh_token q) in
  let expires := now + REGISTRATION_TOKEN_TTL_MINUTES * 60 in
  let spec := STORAGE_PROFILES p in
  let! merged := storage_capabilities
      [(u"sqlite_storage", JStr (sp_sqlite_storage spec)); (u"shared_files_storage", JStr (sp_shared_files_storage spec))]
      DEFAULT_RUNNER_DATA_DIR (Some (sp_default_sqlite_dir spec)) (Some (sp_default_shared_files_dir spec)) (sp_value spec) in
  let! pending := capabilities_json merged in
  let! c := upsert_runner (pending_row (rq_fresh_id q) user (rq_kind q) name provider region hash expires pending) c in
  match find_runner (owned_runner user (rq_kind q)) c with
  | None => raise AssertionError "runner row must exist after registration upsert"
  | Some r =>
      let! view := serialize_runner r now in
      Ok (c, {| rg_runner := view; rg_token := rq_fresh_token q; rg_expires := expires; rg_control_url := url;
                rg_environment := runner_environment url (rq_fresh_token q) p |})
  end.

Definition create_runner_registration (user : pystr) (q : registration_request) (now : Z) (fault : store_fault) :
    prog control registration :=
  atomically (transaction fault (fun c =>
    let! made := create_in_connection user q now c in Ok (Some made.1, made.2))).

Definition restore_request (name region control_url fresh_id fresh_token : pystr) : registration_request := {|
  rq_name := name; rq_provider := u"fly_sprites"; rq_region := region; rq_profile := u"fly_sprites_posix";
  rq_control_url := control_url; rq_kind := ManagedRestore; rq_fresh_id := fresh_id; rq_fresh_token := fresh_token |}.
Definition create_managed_restore_registration (user job name region control_url fresh_id fresh_token : pystr) (now : Z)
    (fault : store_fault) : prog control registration :=
  let* user := pure (require_user_id user) in
  let* job := pure (require_non_empty_text "job_id" job) in
  atomically (transaction fault (fun c =>
    let! made := create_in_connection user (restore_request name region control_url fresh_id fresh_token) now c in
    let its := is_runner (rn_id (rv_row (rg_runner made.2))) in
    check! guard (count its (ct_runners made.1) =? 1) RunnerRegistrationError
      "Restore runner registration could not be bound" in
    Ok (Some (with_runners (update its (set_restore_job job) (ct_runners made.1)) made.1), made.2))).

(** ** Revocation *)

(** [revoke_runner_for_user], [revoke_managed_restore_runner_for_user] and
    [revoke_managed_restore_runner_for_job] are one [UPDATE] each, and a test
    of its row count. *)
Definition revoke_where (its : runner → bool) (done_if : Z → bool) (now : Z) (fault : store_fault) : prog control bool :=
  atomically (transaction fault (fun c =>
    let its r := its r && unrevoked r in
    Ok (Some (with_runners (update its (set_revoked now) (ct_runners c)) c), done_if (count its (ct_runners c))))).
Definition revoke_runner_for_user (user : pystr) (now : Z) (fault : store_fault) : prog control bool :=
  let* user := pure (require_user_id user) in
  revoke_where (owned_runner user Byoc) (Z.ltb 0) now fault.
Definition revoke_managed_restore_runner_for_user (user : pystr) (now : Z) (fault : store_fault) : prog control bool :=
  let* user := pure (require_user_id user) in
  revoke_where (owned_runner user ManagedRestore) (Z.eqb 1) now fault.
Definition revoke_managed_restore_runner_for_job (user job : pystr) (now : Z) (fault : store_fault) : prog control bool :=
  let* user := pure (require_user_id user) in
  let* job := pure (require_non_empty_text "job_id" job) in
  revoke_where (fun r => owned_runner user ManagedRestore r && bool_decide (rn_restore_job r = Some job)) (Z.eqb 1) now fault.

(** ** Registration, authentication and heartbeats of a runner *)

(** What a runner says of itself. *)
Record runner_report := {
  rp_version : pystr;
  rp_capabilities : dict;
  rp_data_dir : pystr;
  rp_sqlite_dir : option pystr;
  rp_shared_files_dir : option pystr;
  rp_profile : pystr;
}.

(** The capabilities that a report leaves in the row, and its directory. *)
Definition report_capabilities (q : runner_report) (row : runner) : res (pystr * pystr) :=
  let! stored := decode_capabilities (rn_capabilities row) in
  let! p := requested_profile_matches (rp_profile q) stored in
  let! merged := storage_capabilities (rp_capabilities q) (rp_data_dir q) (rp_sqlite_dir q) (rp_shared_files_dir q)
                   (profile_value p) in
  let! text := capabilities_json merged in
  match dict_get (u"data_dir") merged with
  | Some (JStr d) => Ok (text, d)
  | _ => raise KeyError "data_dir"
  end.

Definition managed_kind (k : runner_kind) : bool := bool_decide (k ∈ [Managed; ManagedRestore]).

(** What [register_runner] checks of the row that it selected; [now] is the
    time of this check. *)
Definition check_registration (row : option runner) (key : option pystr) (now : Z) : res runner :=
  match row with
  | None => raise RunnerRegistrationError "Runner registration token is invalid"
  | Some r =>
      match rn_registration_expires r with
      | None => raise RunnerRegistrationError "Runner registration token has expired"
      | Some e =>
          check! guard (now <? e) RunnerRegistrationError "Runner registration token has expired" in
          check! guard (negb (managed_kind (rn_kind r) && bool_decide (is_Some (rn_noise_key r))
                              && negb (bool_decide (key = rn_noise_key r))))
            RunnerRegistrationError "Managed runner Noise identity does not match" in
          Ok r
      end
  end.

Context {ED : Ed25519} {RAW : Ed25519Raw} {H : Hkdf}.

(** [register_runner]: reads the row of the token, and writes it in a
    transaction of its own. [secret_key] is a setting. *)
Definition register_runner (token : pystr) (q : runner_report) (key : option pystr) (fresh_token : pystr)
    (now later : Z) (secret_key : pystr) (fault : store_fault) : prog control (pystr * pystr * pystr) :=
  let* token_hash := pure (hash_token token) in
  let* version := pure (require_non_empty_text "runner_version" (rp_version q)) in
  let* key := pure (validate_noise_public_key key) in
  let* fresh_hash := pure (hash_token fresh_token) in
  let* row := select (find_runner (fun r => bool_decide (rn_registration r = Some token_hash) && unrevoked r)) in
  let* row := pure (check_registration row key later) in
  let* report := pure (report_capabilities q row) in
  do* atomically (transaction fault (fun c =>
    let its r := is_runner (rn_id row) r && unrevoked r in
    check! guard (count its (ct_runners c) =? 1) RunnerRegistrationError "Runner was revoked during registration" in
    Ok (Some (with_runners (update its (set_registered fresh_hash now version report.1 report.2 key) (ct_runners c)) c),
        tt))) in
  let* signing := pure (runner_capability_signing_public_key secret_key) in
  pure (Ok (rn_id row, fresh_token, signing)).

(** [authenticate_runner_token]: id, user and Noise key. *)
Definition authenticate_runner_token (token : pystr) : prog control (pystr * pystr * pystr) :=
  let* token_hash := pure (hash_token token) in
  let* row := select (find_runner (fun r => bool_decide (rn_token r = Some token_hash) && unrevoked r)) in
  match row with
  | None => pure (raise RunnerAuthenticationError "Runner token is invalid")
  | Some r =>
      match rn_noise_key r with
      | None | Some [] => pure (raise RunnerAuthenticationError "Runner Noise identity is unavailable")
      | Some key => pure (Ok (rn_id r, rn_user r, key))
      end
  end.

Definition record_runner_heartbeat (token : pystr) (q : runner_report) (now : Z) (secret_key : pystr)
    (fault : store_fault) : prog control (pystr * pystr) :=
  let* token_hash := pure (hash_token token) in
  let* version := pure (require_non_empty_text "runner_version" (rp_version q)) in
  let* row := select (find_runner (fun r => bool_decide (rn_token r = Some token_hash) && unrevoked r)) in
  match row with
  | None => pure (raise RunnerAuthenticationError "Runner token is invalid")
  | Some row =>
      let* report := pure (report_capabilities q row) in
      do* atomically (transaction fault (fun c =>
        let its r := is_runner (rn_id row) r && unrevoked r in
        check! guard (count its (ct_runners c) =? 1) RunnerAuthenticationError "Runner token is invalid" in
        Ok (Some (with_runners (update its (set_heartbeat now version report.1 report.2) (ct_runners c)) c), tt))) in
      let* signing := pure (runner_capability_signing_public_key secret_key) in
      pure (Ok (rn_id row, signing))
  end.

(** [confirm_runner_noise_key]: reads the row, confirms, and reads it again. *)
Definition confirm_runner_noise_key (user key : pystr) (now : Z) (fault : store_fault) : prog control runner_view :=
  let* user := pure (require_user_id user) in
  let* key := pure (validate_noise_public_key (Some key)) in
  let* row := select (find_runner (fun r => owned_runner user Byoc r && unrevoked r)) in
  match row with
  | None => pure (raise RunnerRegistrationError "Runner Noise key is not available")
  | Some row =>
      do* pure (guard (bool_decide (is_Some (rn_noise_key row))) RunnerRegistrationError "Runner Noise key is not available") in
      do* pure (guard (bool_decide (rn_noise_key row = key)) RunnerRegistrationError "Runner Noise key does not match") in
      do* atomically (transaction fault (fun c =>
        Ok (Some (with_runners (update (is_runner (rn_id row)) (set_confirmed now) (ct_runners c)) c), tt))) in
      let* confirmed := select (find_runner (is_runner (rn_id row))) in
      match confirmed with
      | None => pure (raise AssertionError "confirmed runner row must still exist")
      | Some r => pure (serialize_runner r now)
      end
  end.
End Runners.
