(* ===== verification/ManagedRunners.v ===== *)
(** * Managed runtimes

    Models [services/managed_runners.py] and
    [services/managed_sprite_registry.py]: the runtime of an account goes from
    provisioning to ready, failed and deleted, each time under a new
    generation, and a restore promotes another runner to it. Every function is
    one transaction over [managed_runtimes], [user_runners], the operations of
    [ManagedBackups], the identities of sprites and the activation guards, with
    the triggers of [db.py] that protect the runner of a runtime.

    [clock] is SQLite's clock, which a trigger writes to [updated_at] after an
    [UPDATE] of a runtime. Accounts are not deleted. *)

From S2P Require Import Prelude Text Json JsonBytes Crypto RunnerNoise RunnerCapabilities Transactions.
From S2P Require Import ManagedBackups RunnerStorage Runners.

(** ** Rows of runtimes *)

Definition set_runtime (status : runtime_status) (generation updated : Z) (error : option pystr) (r : runtime) : runtime := {|
  rt_user := rt_user r; rt_runner := rt_runner r; rt_sprite := rt_sprite r; rt_status := status;
  rt_generation := generation; rt_artifact := rt_artifact r; rt_created := rt_created r; rt_updated := updated;
  rt_error := error |}.
Definition set_runner (runner sprite : pystr) (status : runtime_status) (generation : Z) (artifact : pystr) (updated : Z)
    (r : runtime) : runtime := {|
  rt_user := rt_user r; rt_runner := runner; rt_sprite := sprite; rt_status := status; rt_generation := generation;
  rt_artifact := artifact; rt_created := rt_created r; rt_updated := updated; rt_error := None |}.

Definition runtimes (c : control) : list runtime := tb_runtimes (ct_tables c).
Definition put_runtimes (l : list runtime) (c : control) : control := with_tables (with_runtimes l (ct_tables c)) c.

Definition of_owner (user : pystr) (r : runtime) : bool := bool_decide (rt_user r = user).
Definition in_status (s : runtime_status) (r : runtime) : bool := bool_decide (rt_status r = s).
Definition of_generation (g : Z) (r : runtime) : bool := rt_generation r =? g.

(** Two rows that a [UNIQUE] constraint or the primary key keeps apart. *)
Definition conflicts (a b : runtime) : bool :=
  bool_decide (rt_user a = rt_user b) || bool_decide (rt_runner a = rt_runner b) || bool_decide (rt_sprite a = rt_sprite b).

(** [validate_managed_runtime_runner_insert] *)
Definition linked_runner (r : runtime) (c : control) : bool :=
  existsb (fun x => is_runner (rt_runner r) x && owned_runner (rt_user r) Managed x) (ct_runners c).
Definition guarded (user : pystr) (c : control) : bool := existsb (fun g => bool_decide (gd_user g = user)) (ct_guards c).
Definition abort {A} : res A := raise IntegrityError "trigger".

Definition insert_runtime (r : runtime) (c : control) : res control :=
  check! guard (linked_runner r c) IntegrityError "managed runtime must reference matching managed runner" in
  check! guard (negb (existsb (conflicts r) (runtimes c))) IntegrityError "UNIQUE constraint failed" in
  Ok (put_runtimes (runtimes c ++ [r]) c).

(** [INSERT OR REPLACE INTO managed_runtimes ... SELECT f FROM managed_runtimes
    WHERE p], for a [p] that holds of at most one row, and its row count. *)
Definition replace_runtime (p : runtime → bool) (f : runtime → runtime) (c : control) : res (control * Z) :=
  match List.find p (runtimes c) with
  | None => Ok (c, 0)
  | Some r =>
      check! guard (linked_runner (f r) c) IntegrityError "managed runtime must reference matching managed runner" in
      Ok (put_runtimes (delete_rows (conflicts (f r)) (runtimes c) ++ [f r]) c, 1)
  end.

(** [UPDATE managed_runtimes SET runner_id, ... WHERE p], with
    [validate_managed_runtime_runner_update], the constraints, and the trigger
    that writes [updated_at]. *)
Definition update_runtime (p : runtime → bool) (f : runtime → runtime) (c : control) : res control :=
  let new := List.filter p (runtimes c) in
  check! guard (forallb (fun r => linked_runner (f r) c || guarded (rt_user (f r)) c) new) IntegrityError
    "managed runtime must reference matching managed runner" in
  check! guard (forallb (fun r => negb (existsb (fun x => negb (p x) && conflicts (f r) x) (runtimes c))) new) IntegrityError
    "UNIQUE constraint failed" in
  Ok (put_runtimes (update p f (runtimes c)) c).

(** [protect_linked_managed_runner_update] and [UNIQUE(user_id, kind)], for an
    update of the kind of one row. *)
Definition update_kind (id : pystr) (kind : runner_kind) (c : control) : res control :=
  let rows := List.filter (is_runner id) (ct_runners c) in
  check! guard (forallb (fun x => negb (existsb (fun r => bool_decide (rt_runner r = rn_id x)) (runtimes c)
                                        && negb (bool_decide (rn_kind x = kind)) && negb (guarded (rn_user x) c))) rows)
    IntegrityError "cannot change linked managed runtime runner" in
  check! guard (forallb (fun x => negb (existsb (fun y => negb (is_runner id y) && owned_runner (rn_user x) kind y)
                                          (ct_runners c))) rows)
    IntegrityError "UNIQUE constraint failed" in
  Ok (with_runners (update (is_runner id) (set_kind kind) (ct_runners c)) c).

(** [DELETE FROM user_runners WHERE p], which takes the runtimes of the
    runners with it. *)
Definition delete_runners (p : runner → bool) (c : control) : control :=
  let gone := map rn_id (List.filter p (ct_runners c)) in
  put_runtimes (delete_rows (fun r => bool_decide (rt_runner r ∈ gone)) (runtimes c))
    (with_runners (delete_rows p (ct_runners c)) c).

(** The managed runner of an account, whose authority is revoked with the
    runtime, and the row count. *)
Definition the_managed (id user : pystr) (r : runner) : bool := is_runner id r && owned_runner user Managed r.
Definition revoke_managed (id user : pystr) (now : Z) (c : control) : control * Z :=
  (with_runners (update (the_managed id user) (set_revoked now) (ct_runners c)) c, count (the_managed id user) (ct_runners c)).

Definition joined (user : pystr) (c : control) : option (runtime * runner) :=
  match List.find (of_owner user) (runtimes c) with
  | None => None
  | Some r => match List.find (is_runner (rt_runner r)) (ct_runners c) with
              | Some x => Some (r, x)
              | None => None
              end
  end.

(** ** Reads *)

Definition get_managed_runtime_status (user : pystr) : prog control (option runtime) :=
  let* user := pure (require_user_id user) in
  select (fun c => List.find (of_owner user) (runtimes c)).

(** ** Deletion *)

Definition claim_managed_runtime_deletion (user : pystr) (now : option Z) (fault : store_fault) :
    prog control (option (bool * runtime)) :=
  let* user := pure (require_user_id user) in
  let* n := pure (timestamp now) in
  atomically (transaction fault (fun c =>
    check! guard (negb (existsb (fun o => of_user user o && running o) (tb_operations (ct_tables c)))) RuntimeError
      "managed runtime maintenance is active" in
    match joined user c with
    | None => Ok (None, None)
    | Some (rt, x) =>
        if in_status RuntimeDeleting rt then Ok (None, Some (false, rt))
        else
          let! replaced := replace_runtime (fun r => of_owner user r && negb (in_status RuntimeDeleting r))
                             (fun r => set_runtime RuntimeDeleting (rt_generation r + 1) n None r) c in
          let revoked := revoke_managed (rt_runner rt) user n replaced.1 in
          check! guard ((replaced.2 =? 1) && (revoked.2 =? 1)) RuntimeError
            "managed runtime deletion claim was not stored" in
          match List.find (of_owner user) (runtimes revoked.1) with
          | None => raise AssertionError "managed runtime deletion claim must exist"
          | Some claimed => Ok (Some revoked.1, Some (true, claimed))
          end
    end)).

Definition finalize_managed_runtime_deletion (user : pystr) (generation : Z) (fault : store_fault) : prog control bool :=
  let* user := pure (require_user_id user) in
  do* pure (guard (0 <? generation) ValueError "generation must be a positive integer") in
  atomically (transaction fault (fun c =>
    let its r := of_owner user r && of_generation generation r && in_status RuntimeDeleting r in
    match List.find its (runtimes c) with
    | None => Ok (None, false)
    | Some rt =>
        let n := count its (runtimes c) in
        let c := put_runtimes (delete_rows its (runtimes c)) c in
        let m := count (the_managed (rt_runner rt) user) (ct_runners c) in
        let c := delete_runners (the_managed (rt_runner rt) user) c in
        check! guard ((n =? 1) && (m =? 1)) RuntimeError "managed runtime deletion was not finalized" in
        Ok (Some c, true)
    end)).

(** ** Provisioning *)

Definition provisioning (user : pystr) (generation : Z) (r : runtime) : bool :=
  of_owner user r && of_generation generation r && in_status RuntimeProvisioning r.

Definition refresh_managed_runtime_provisioning (user : pystr) (generation : Z) (now : option Z) (fault : store_fault) :
    prog control bool :=
  let* user := pure (require_user_id user) in
  do* pure (guard (0 <? generation) ValueError "generation must be a positive integer") in
  let* n := pure (timestamp now) in
  atomically (transaction fault (fun c =>
    let! replaced := replace_runtime (provisioning user generation)
                       (fun r => set_runtime (rt_status r) (rt_generation r) n (rt_error r) r) c in
    Ok (Some replaced.1, replaced.2 =? 1))).

Section Provisioning.
Context {SHA : Sha256} {X : X25519} {FL : PyFloat}.

(** What [mark_managed_runtime_ready] asks of the runner. *)
Definition ready_runner (capabilities : dict) (n : Z) (x : runner) : bool :=
  bool_decide (rn_kind x = Managed) && bool_decide (rn_provider x = u"fly_sprites") && bool_decide (rn_status x = RunnerOnline)
  && match rn_heartbeat x with
     | Some h => (0 <=? n - h) && (n - h <=? HEARTBEAT_ONLINE_WINDOW_SECONDS)
     | None => false
     end
  && get_is_str capabilities (u"storage_profile") (u"fly_sprites_posix")
  && negb (bool_decide (default [] (rn_noise_key x) = [])) && bool_decide (is_Some (rn_noise_confirmed x)).

Definition mark_managed_runtime_ready (user : pystr) (generation : Z) (now : option Z) (fault : store_fault) :
    prog control bool :=
  let* user := pure (require_user_id user) in
  do* pure (guard (0 <? generation) ValueError "generation must be a positive integer") in
  let* n := pure (timestamp now) in
  atomically (transaction fault (fun c =>
    match joined user c with
    | None => Ok (None, false)
    | Some (rt, x) =>
        let! capabilities := decode_capabilities (rn_capabilities x) in
        if negb (in_status RuntimeProvisioning rt && of_generation generation rt && ready_runner capabilities n x)
        then Ok (None, false)
        else
          let! replaced := replace_runtime (provisioning user generation)
                             (fun r => set_runtime RuntimeReady (rt_generation r) n None r) c in
          Ok (Some replaced.1, replaced.2 =? 1)
    end)).

Definition MANAGED_RUNTIME_ERROR_CODES : list pystr :=
  map u ["artifact_invalid"; "provider_unavailable"; "network_policy_failed"; "bootstrap_failed";
         "runner_registration_failed"; "runner_identity_changed"; "wake_timeout"; "checkpoint_failed"; "delete_failed"]%string.

Definition mark_managed_runtime_failed (user : pystr) (generation : Z) (error_code : pystr) (now : option Z)
    (fault : store_fault) : prog control bool :=
  let* user := pure (require_user_id user) in
  do* pure (guard (0 <? generation) ValueError "generation must be a positive integer") in
  do* pure (guard (mem_str error_code MANAGED_RUNTIME_ERROR_CODES) ValueError
              "error_code is not an allowed managed runtime failure code") in
  let* n := pure (timestamp now) in
  atomically (transaction fault (fun c =>
    match joined user c with
    | None => Ok (None, false)
    | Some (rt, x) =>
        if negb (in_status RuntimeProvisioning rt && of_generation generation rt && bool_decide (rn_kind x = Managed))
        then Ok (None, false)
        else
          let! replaced := replace_runtime (provisioning user generation)
                             (fun r => set_runtime RuntimeFailed (rt_generation r) n (Some error_code) r) c in
          let revoked := revoke_managed (rt_runner rt) user n replaced.1 in
          check! guard ((replaced.2 =? 1) && (revoked.2 =? 1)) RuntimeError
            "managed runtime failure transition was not stored" in
          Ok (Some revoked.1, true)
    end)).

(** One abandoned runtime; the rows were read before. *)
Definition abandon_runtime (n clock : Z) (rt : runtime) (c : control) : res (control * Z) :=
  let its := provisioning (rt_user rt) (rt_generation rt) in
  if negb (count its (runtimes c) =? 1) then Ok (c, 0)
  else
    let c := put_runtimes (update its (fun r => set_runtime RuntimeFailed (rt_generation r) clock
                                                  (Some (u"provider_unavailable")) r) (runtimes c)) c in
    let revoked := revoke_managed (rt_runner rt) (rt_user rt) n c in
    check! guard (revoked.2 =? 1) RuntimeError "managed runtime reconciliation was not stored" in
    Ok (revoked.1, 1).
Fixpoint abandon_runtimes (n clock : Z) (l : list runtime) (c : control) : res (control * Z) :=
  match l with
  | [] => Ok (c, 0)
  | rt :: r =>
      let! first := abandon_runtime n clock rt c in
      let! rest := abandon_runtimes n clock r first.1 in
      Ok (rest.1, first.2 + rest.2)
  end.

Definition reconcile_managed_runtime_provisioning (owners : list (pystr * Z)) (now : option Z) (clock : Z)
    (fault : store_fault) : prog control Z :=
  let* n := pure (timestamp now) in
  atomically (transaction fault (fun c =>
    let abandoned := List.filter (fun r => in_status RuntimeProvisioning r
                       && negb (bool_decide ((rt_user r, rt_generation r) ∈ owners))) (runtimes c) in
    let! done := abandon_runtimes n clock abandoned c in
    Ok (Some done.1, done.2))).

(** ** Claims *)

(** [hmac.new(key, message, hashlib.sha256).digest()] *)
Definition hmac_sha256 (key message : pybytes) : pybytes :=
  let key := if 64 <? zlen key then sha256 key else key in
  let key := key ++ repeat 0 (64 - length key)%nat in
  sha256 (map (Z.lxor 92) key ++ sha256 (map (Z.lxor 54) key ++ message)).

(** [base64.b32encode(b).decode("ascii").lower().rstrip("=")] *)
Definition byte_bits (b : Z) : list bool := map (fun i => Z.testbit b i) [7; 6; 5; 4; 3; 2; 1; 0].
Definition b32_char (v : Z) : Z := if v <? 26 then 97 + v else 24 + v.
Fixpoint b32_bits (l : list bool) : pystr :=
  let bit (b : bool) (w : Z) : Z := if b then w else 0 in
  match l with
  | a :: b :: c :: d :: e :: r => b32_char (bit a 16 + bit b 8 + bit c 4 + bit d 2 + bit e 1) :: b32_bits r
  | [a; b; c; d] => [b32_char (bit a 16 + bit b 8 + bit c 4 + bit d 2)]
  | [a; b; c] => [b32_char (bit a 16 + bit b 8 + bit c 4)]
  | [a; b] => [b32_char (bit a 16 + bit b 8)]
  | [a] => [b32_char (bit a 16)]
  | [] => []
  end.
Definition b32encode_lower (b : pybytes) : pystr := b32_bits (concat (map byte_bits b)).

(** [_SPRITE_PREFIX_PATTERN] *)
Definition sprite_prefix_ok (s : pystr) : bool :=
  let edge c := is_lower c || is_digit c in
  match s with
  | [] => false
  | c :: _ => edge c && edge (List.last s 0) && (zlen s <=? 30) && forallb (fun c => edge c || (c =? 45)) s
  end.
Definition managed_sprite_name (user prefix secret_key : pystr) : res pystr :=
  let! user := require_user_id user in
  check! guard (sprite_prefix_ok prefix) ValueError "prefix must be a lowercase DNS label of 1 to 30 characters" in
  check! guard (negb (bool_decide (secret_key = []))) ValueError "secret_key must not be empty" in
  let! key := utf8_encode secret_key in
  let! message := utf8_encode user in
  Ok (prefix ++ u"-" ++ take 32 (b32encode_lower (hmac_sha256 key message))).

Definition managed_request (region control_url fresh_id fresh_token : pystr) : registration_request := {|
  rq_name := u"Managed Fly Sprite"; rq_provider := u"fly_sprites"; rq_region := region; rq_profile := u"fly_sprites_posix";
  rq_control_url := control_url; rq_kind := Managed; rq_fresh_id := fresh_id; rq_fresh_token := fresh_token |}.

(** Whether a claim takes the runtime over. *)
Definition should_claim (rt : runtime) (artifact : pystr) (allow_upgrade : bool) (n stale_after : Z) : bool :=
  in_status RuntimeFailed rt || in_status RuntimeProvisioning rt && (stale_after <=? n - rt_updated rt)
  || allow_upgrade && in_status RuntimeReady rt && negb (bool_decide (rt_artifact rt = artifact)).

Definition claim_managed_runtime_provisioning (user prefix name_key artifact region control_url : pystr)
    (allow_upgrade : bool) (now : option Z) (stale_after clock : Z) (fresh_id fresh_token : pystr) (fault : store_fault) :
    prog control (bool * runtime * option registration) :=
  let* user := pure (require_user_id user) in
  let* artifact := pure (require_non_empty_text "artifact_version" artifact) in
  let* region := pure (require_non_empty_text "region" region) in
  let* n := pure (timestamp now) in
  do* pure (guard (0 <? stale_after) ValueError "stale_after must be a positive timedelta") in
  let* generated := pure (managed_sprite_name user prefix name_key) in
  atomically (transaction fault (fun c =>
    let row := List.find (of_owner user) (runtimes c) in
    match row with
    | Some rt => if negb (should_claim rt artifact allow_upgrade n stale_after) then Ok (None, (false, rt, None)) else
        let! made := create_in_connection user (managed_request region control_url fresh_id fresh_token) n c in
        let rid := rn_id (rv_row (rg_runner made.2)) in
        let! c := update_runtime (of_owner user)
                    (fun r => set_runner rid (rt_sprite r) RuntimeProvisioning (rt_generation rt + 1) artifact clock r) made.1 in
        match List.find (of_owner user) (runtimes c) with
        | None => raise AssertionError "managed runtime claim must exist"
        | Some claimed => Ok (Some c, (true, claimed, Some made.2))
        end
    | None =>
        let! made := create_in_connection user (managed_request region control_url fresh_id fresh_token) n c in
        let rid := rn_id (rv_row (rg_runner made.2)) in
        let! c := insert_runtime {| rt_user := user; rt_runner := rid; rt_sprite := generated; rt_status := RuntimeProvisioning;
                    rt_generation := 1; rt_artifact := artifact; rt_created := n; rt_updated := n; rt_error := None |} made.1 in
        match List.find (of_owner user) (runtimes c) with
        | None => raise AssertionError "managed runtime claim must exist"
        | Some claimed => Ok (Some c, (true, claimed, Some made.2))
        end
    end)).
End Provisioning.

(** ** Activation of a restored runner *)

(** What [activate_managed_restore_candidate] selects for the candidate. *)
Definition candidate_runner (id user : pystr) (x : runner) : bool :=
  is_runner id x && owned_runner user ManagedRestore x && bool_decide (rn_status x = RunnerOnline)
  && bool_decide (is_Some (rn_token x)) && bool_decide (is_Some (rn_registered x)) && bool_decide (is_Some (rn_heartbeat x))
  && bool_decide (is_Some (rn_noise_key x)) && bool_decide (is_Some (rn_noise_confirmed x)) && unrevoked x.

Definition find_identity (sprite : pystr) (c : control) : option identity :=
  List.find (fun i => bool_decide (id_sprite i = sprite)) (ct_identities c).
Definition source_identity (sprite user : pystr) (i : identity) : bool :=
  bool_decide (id_sprite i = sprite) && bool_decide (id_kind i = RuntimeIdentity) && bool_decide (id_user i = user)
  && bool_decide (id_job i = None) && bool_decide (id_status i = IdentityActive).
Definition candidate_identity (sprite user job : pystr) (i : identity) : bool :=
  bool_decide (id_sprite i = sprite) && bool_decide (id_kind i = RestoreCandidate) && bool_decide (id_user i = user)
  && bool_decide (id_job i = Some job) && bool_decide (id_status i = IdentityCreating).
Definition set_identity (kind : identity_kind) (job : option pystr) (status : identity_status) (now : Z) (i : identity) :
    identity := {|
  id_sprite := id_sprite i; id_kind := kind; id_user := id_user i; id_job := job; id_status := status;
  id_created := id_created i; id_updated := now |}.

Definition insert_guard (g : activation_guard) (c : control) : res control :=
  check! guard (negb (existsb (fun x => bool_decide (gd_user x = gd_user g) || bool_decide (gd_job x = gd_job g)) (ct_guards c)))
    IntegrityError "UNIQUE constraint failed" in
  Ok (with_guards (ct_guards c ++ [g]) c).

(** Both identities are tracked, and are what they must be. *)
Definition identities_ok (source candidate user job : pystr) (c : control) : bool :=
  let s := find_identity source c in
  let d := find_identity candidate c in
  if bool_decide (s = None) && bool_decide (d = None) then true
  else match s, d with
       | Some s, Some d => source_identity source user s && candidate_identity candidate user job d
                           && negb (bool_decide (candidate = source))
       | _, _ => false
       end.
Definition identities_tracked (source candidate : pystr) (c : control) : bool :=
  bool_decide (is_Some (find_identity source c)) || bool_decide (is_Some (find_identity candidate c)).

(** The transaction after its checks, until it deletes its guard: the new
    state, or [None] to roll back. *)
Definition promote (rt : runtime) (user : pystr) (generation : Z) (candidate sprite artifact : pystr) (n clock : Z)
    (job token : pystr) (c : control) : res (option control) :=
  let tracked := identities_tracked (rt_sprite rt) sprite c in
  let c := (revoke_managed (rt_runner rt) user n c).1 in
  let! c := insert_guard {| gd_user := user; gd_job := job; gd_token := token |} c in
  let c := delete_runners (owned_runner user ManagedRetired) c in
  let! c := update_kind (rt_runner rt) ManagedRetired c in
  let! c := update_kind candidate Managed c in
  let its r := of_owner user r && of_generation generation r && in_status RuntimeReady r in
  let changed := count its (runtimes c) in
  let! c := update_runtime its (set_runner candidate sprite RuntimeReady (generation + 1) artifact clock) c in
  if negb (changed =? 1) then Ok None
  else
    let mine := activated user job token generation n in
    if negb (count mine (tb_operations (ct_tables c)) =? 1) then Ok None
    else
      let c := with_tables (with_operations (update mine (activate_operation generation n) (tb_operations (ct_tables c)))
                              (ct_tables c)) c in
      if tracked then
        let source := source_identity (rt_sprite rt) user in
        let retired := count source (ct_identities c) in
        let c := with_identities (update source (fun i => set_identity (id_kind i) (id_job i) IdentityRetired n i)
                                    (ct_identities c)) c in
        let chosen := candidate_identity sprite user job in
        if negb ((retired =? 1) && (count chosen (ct_identities c) =? 1)) then Ok None
        else Ok (Some (with_identities (update chosen (set_identity RuntimeIdentity None IdentityActive n) (ct_identities c)) c))
      else Ok (Some c).

Definition activation (user : pystr) (generation : Z) (candidate sprite artifact : pystr) (n clock : Z) (job token : pystr)
    (c : control) : res (option control * bool) :=
  let its r := of_owner user r && of_generation generation r && in_status RuntimeReady r in
  match List.find its (runtimes c), find_runner (candidate_runner candidate user) c with
  | Some rt, Some _ =>
      if negb (identities_ok (rt_sprite rt) sprite user job c) then Ok (None, false)
      else if negb (existsb (activated user job token generation n) (tb_operations (ct_tables c))) then Ok (None, false)
      else
        match promote rt user generation candidate sprite artifact n clock job token c with
        | Raise e => if caught e [IntegrityError] then Ok (None, false) else Raise e
        | Ok None => Ok (None, false)
        | Ok (Some c) => Ok (Some (with_guards (delete_rows (fun g => bool_decide (gd_user g = user)) (ct_guards c)) c), true)
        end
  | _, _ => Ok (None, false)
  end.

Definition activate_managed_restore_candidate (user : pystr) (generation : Z) (candidate sprite artifact : pystr)
    (now : option Z) (clock : Z) (job token : pystr) (fault : store_fault) : prog control bool :=
  let* user := pure (require_user_id user) in
  do* pure (guard (0 <? generation) ValueError "source_generation must be a positive integer") in
  let* candidate := pure (require_non_empty_text "candidate_runner_id" candidate) in
  let* sprite := pure (require_non_empty_text "candidate_sprite_id" sprite) in
  let* artifact := pure (require_non_empty_text "artifact_version" artifact) in
  let* job := pure (require_non_empty_text "job_id" job) in
  let* token := pure (require_non_empty_text "lease_token" token) in
  let* n := pure (timestamp now) in
  atomically (transaction fault (activation user generation candidate sprite artifact n clock job token)).

(** ** Identities of sprites *)

Definition register_managed_sprite_identity (sprite : pystr) (kind : identity_kind) (user : pystr) (job : option pystr)
    (status : identity_status) (now : option Z) (fault : store_fault) : prog control unit :=
  do* pure (guard (negb (bool_decide (sprite = [])) && negb (bool_decide (user = []))) ValueError
              "Sprite identity and owner must not be empty") in
  do* pure (guard (negb (bool_decide (kind = RuntimeIdentity) && bool_decide (is_Some job))) ValueError
              "Runtime Sprite identity must not have a job") in
  do* pure (guard (negb (bool_decide (kind = RestoreCandidate) && bool_decide (default [] job = []))) ValueError
              "Restore Sprite identity must have a job") in
  let* n := pure (timestamp now) in
  atomically (transaction fault (fun c =>
    match find_identity sprite c with
    | None =>
        let i := {| id_sprite := sprite; id_kind := kind; id_user := user; id_job := job; id_status := status;
                    id_created := n; id_updated := n |} in
        Ok (Some (with_identities (ct_identities c ++ [i]) c), tt)
    | Some i =>
        check! guard (bool_decide (id_kind i = kind) && bool_decide (id_user i = user) && bool_decide (id_job i = job))
          ValueError "Sprite identity conflicts with another owner" in
        Ok (Some (with_identities (update (fun i => bool_decide (id_sprite i = sprite))
                                     (fun i => set_identity (id_kind i) (id_job i) status n i) (ct_identities c)) c), tt)
    end)).

Definition remove_managed_sprite_identity (sprite : pystr) (fault : store_fault) : prog control bool :=
  do* pure (guard (negb (bool_decide (sprite = []))) ValueError "sprite_name must not be empty") in
  atomically (transaction fault (fun c =>
    let its i := bool_decide (id_sprite i = sprite) in
    Ok (Some (with_identities (delete_rows its (ct_identities c)) c), count its (ct_identities c) =? 1))).

(** [ORDER BY sprite_name] *)
Definition sprite_before (a b : identity) : Prop := str_ltb (id_sprite b) (id_sprite a) = false.
#[export] Instance sprite_before_dec : RelDecision sprite_before.
Proof. intros a b. unfold sprite_before. apply _. Defined.
Definition list_managed_sprite_identities : prog control (list identity) :=
  select (fun c => merge_sort sprite_before (ct_identities c)).
