(* ===== verification/ControlSystem.v ===== *)
(** * The control database under concurrent requests

    The calls of [ManagedBackups], [Runners] and [ManagedRunners] as threads on
    one database, their invariant, and what every step guarantees: the catalog
    of backups changes only as its own calls change it, bearer tokens appear
    only where a registration draws them, and generations of runtimes grow. *)

From S2P Require Import Prelude Text Json JsonBytes Crypto RunnerNoise RunnerCapabilities Transactions.
From S2P Require Import ManagedBackups ManagedBackupsSpec RunnerStorage Runners ManagedRunners.

(** ** Calls *)

Inductive control_call :=
  | Catalog (c : call) (fault : store_fault)
  | CreateRegistration (user : pystr) (q : registration_request) (now : Z) (fault : store_fault)
  | CreateRestoreRegistration (user job name region control_url fresh_id fresh_token : pystr) (now : Z) (fault : store_fault)
  | RevokeRunner (user : pystr) (now : Z) (fault : store_fault)
  | RevokeRestoreRunner (user : pystr) (now : Z) (fault : store_fault)
  | RevokeRestoreRunnerForJob (user job : pystr) (now : Z) (fault : store_fault)
  | RegisterRunner (token : pystr) (q : runner_report) (key : option pystr) (fresh_token : pystr) (now later : Z)
      (secret_key : pystr) (fault : store_fault)
  | Authenticate (token : pystr)
  | Heartbeat (token : pystr) (q : runner_report) (now : Z) (secret_key : pystr) (fault : store_fault)
  | ConfirmKey (user key : pystr) (now : Z) (fault : store_fault)
  | ClaimDeletion (user : pystr) (now : option Z) (fault : store_fault)
  | FinalizeDeletion (user : pystr) (generation : Z) (fault : store_fault)
  | RefreshProvisioning (user : pystr) (generation : Z) (now : option Z) (fault : store_fault)
  | MarkReady (user : pystr) (generation : Z) (now : option Z) (fault : store_fault)
  | MarkFailed (user : pystr) (generation : Z) (error_code : pystr) (now : option Z) (fault : store_fault)
  | Reconcile (owners : list (pystr * Z)) (now : option Z) (clock : Z) (fault : store_fault)
  | ClaimProvisioning (user prefix name_key artifact region control_url : pystr) (allow_upgrade : bool) (now : option Z)
      (stale_after clock : Z) (fresh_id fresh_token : pystr) (fault : store_fault)
  | ActivateCandidate (user : pystr) (generation : Z) (candidate sprite artifact : pystr) (now : option Z) (clock : Z)
      (job token : pystr) (fault : store_fault)
  | RegisterIdentity (sprite : pystr) (kind : identity_kind) (user : pystr) (job : option pystr) (status : identity_status)
      (now : option Z) (fault : store_fault)
  | RemoveIdentity (sprite : pystr) (fault : store_fault).

(** The result of a call is in its rows, or asked of the call by itself. *)
Definition discard {S A} (p : prog S A) : prog S unit := prog_bind p (fun _ => pure (Ok tt)).

Definition on_tables {A} (m : st tables A) : st control A := fun c =>
  let '(t, r) := m (ct_tables c) in (with_tables t c, r).

(** What the program calls: a catalog call is not one of the two abstractions
    of [ManagedBackupsSpec], and the account registers only its own runners. *)
Definition offered (c : control_call) : Prop :=
  match c with
  | Catalog (Activate _ _ _ _ _ _) _ | Catalog (ChangeRuntimes _) _ => False
  | CreateRegistration _ q _ _ => rq_kind q = Byoc
  | _ => True
  end.

Section Control.
Context {SHA : Sha256} {X : X25519} {FL : PyFloat} {ED : Ed25519} {RAW : Ed25519Raw} {H : Hkdf}.

Definition body (c : control_call) : prog control unit :=
  match c with
  | Catalog c fault => discard (atomically (on_tables (exec c fault)))
  | CreateRegistration user q now fault => discard (create_runner_registration user q now fault)
  | CreateRestoreRegistration user job name region url id token now fault =>
      discard (create_managed_restore_registration user job name region url id token now fault)
  | RevokeRunner user now fault => discard (revoke_runner_for_user user now fault)
  | RevokeRestoreRunner user now fault => discard (revoke_managed_restore_runner_for_user user now fault)
  | RevokeRestoreRunnerForJob user job now fault => discard (revoke_managed_restore_runner_for_job user job now fault)
  | RegisterRunner token q key fresh now later secret fault =>
      discard (register_runner token q key fresh now later secret fault)
  | Authenticate token => discard (authenticate_runner_token token)
  | Heartbeat token q now secret fault => discard (record_runner_heartbeat token q now secret fault)
  | ConfirmKey user key now fault => discard (confirm_runner_noise_key user key now fault)
  | ClaimDeletion user now fault => discard (claim_managed_runtime_deletion user now fault)
  | FinalizeDeletion user g fault => discard (finalize_managed_runtime_deletion user g fault)
  | RefreshProvisioning user g now fault => discard (refresh_managed_runtime_provisioning user g now fault)
  | MarkReady user g now fault => discard (mark_managed_runtime_ready user g now fault)
  | MarkFailed user g e now fault => discard (mark_managed_runtime_failed user g e now fault)
  | Reconcile owners now clock fault => discard (reconcile_managed_runtime_provisioning owners now clock fault)
  | ClaimProvisioning user prefix key artifact region url up now stale clock id token fault =>
      discard (claim_managed_runtime_provisioning user prefix key artifact region url up now stale clock id token fault)
  | ActivateCandidate user g candidate sprite artifact now clock job token fault =>
      discard (activate_managed_restore_candidate user g candidate sprite artifact now clock job token fault)
  | RegisterIdentity sprite kind user job status now fault =>
      discard (register_managed_sprite_identity sprite kind user job status now fault)
  | RemoveIdentity sprite fault => discard (remove_managed_sprite_identity sprite fault)
  end.
End Control.

(** ** Invariant *)

Definition owner (r : runner) : pystr * runner_kind := (rn_user r, rn_kind r).

(** A revoked runner has no token, and no runner has both kinds of token. *)
Definition row_ok (r : runner) : Prop :=
  (is_Some (rn_revoked r) → rn_status r = RunnerRevoked ∧ rn_token r = None ∧ rn_registration r = None)
  ∧ (rn_token r = None ∨ rn_registration r = None).

Record runners_ok (l : list runner) : Prop := {
  ro_ids : NoDup (map rn_id l);
  ro_owners : NoDup (map owner l);
  ro_rows : ∀ r, r ∈ l → row_ok r;
}.

Definition ended (r : runtime) : Prop := rt_status r = RuntimeFailed ∨ rt_status r = RuntimeDeleting.

(** A runtime has the managed runner of its account, revoked once it failed
    or is deleted. *)
Definition linked (l : list runner) (r : runtime) : Prop :=
  0 < rt_generation r
  ∧ ∃ x, x ∈ l ∧ rn_id x = rt_runner r ∧ owner x = (rt_user r, Managed) ∧ (ended r → is_Some (rn_revoked x)).

Record runtimes_ok (l : list runner) (rts : list runtime) : Prop := {
  to_users : NoDup (map rt_user rts);
  to_runners : NoDup (map rt_runner rts);
  to_sprites : NoDup (map rt_sprite rts);
  to_linked : ∀ r, r ∈ rts → linked l r;
}.

(** The runtime under a backup or a restore stays until that ends. *)
Definition maintained (rts : list runtime) (o : operation) : Prop :=
  running o = true → op_kind o ≠ DeleteOperation →
  ∃ r, r ∈ rts ∧ rt_user r = op_user o ∧ rt_status r ≠ RuntimeDeleting ∧ op_generation o <= rt_generation r.

Record control_ok (c : control) : Prop := {
  co_catalog : sound (ct_tables c);
  co_runners : runners_ok (ct_runners c);
  co_runtimes : runtimes_ok (ct_runners c) (runtimes c);
  co_maintained : ∀ o, o ∈ tb_operations (ct_tables c) → maintained (runtimes c) o;
  co_identities : NoDup (map id_sprite (ct_identities c));
  co_guards : ct_guards c = [];
}.

Lemma empty_control_ok : control_ok empty_control.
Proof.
  split; cbn.
  - apply empty_sound.
  - split; [apply NoDup_nil_2|apply NoDup_nil_2|by intros ? ?%elem_of_nil].
  - split; cbn; [apply NoDup_nil_2|apply NoDup_nil_2|apply NoDup_nil_2|by intros ? ?%elem_of_nil].
  - by intros ? ?%elem_of_nil.
  - apply NoDup_nil_2.
  - done.
Qed.

(** ** Guarantees *)

(** Every bearer token was there, in the same row, or is fresh. *)
Definition tokens_from (fresh : pystr → Prop) (l l' : list runner) : Prop :=
  ∀ x' h, x' ∈ l' → rn_token x' = Some h → fresh h ∨ ∃ x, x ∈ l ∧ rn_id x = rn_id x' ∧ rn_token x = Some h.

(** A revoked runner of an account's own stays revoked, for the accounts in
    [lapsed]. *)
Definition stays_revoked (lapsed : pystr → Prop) (l l' : list runner) : Prop :=
  ∀ x, x ∈ l → rn_kind x = Byoc → lapsed (rn_user x) → is_Some (rn_revoked x) →
    ∃ x', x' ∈ l' ∧ rn_id x' = rn_id x ∧ owner x' = owner x ∧ is_Some (rn_revoked x').

Record rows_from (fresh lapsed : pystr → Prop) (l l' : list runner) : Prop := {
  rf_tokens : tokens_from fresh l l';
  rf_revoked : stays_revoked lapsed l l';
}.

#[export] Instance rows_from_preorder fresh lapsed : PreOrder (rows_from fresh lapsed).
Proof.
  split.
  - intros l. split; [intros x h Hx E; right; by exists x|intros x Hx _ _ E; by exists x].
  - intros l1 l2 l3 [T1 R1] [T2 R2]. split.
    + intros x h Hx E. destruct (T2 x h Hx E) as [F|(y & Hy & Ey & Ty)]; [by left|].
      destruct (T1 y h Hy Ty) as [F|(z & Hz & Ez & Tz)]; [by left|right]. exists z. split_and!; [done|congruence|done].
    + intros x Hx Ek Hl E. destruct (R1 x Hx Ek Hl E) as (y & Hy & E1 & E2 & E3). pose proof E2 as E2'.
      unfold owner in E2'. injection E2' as Eu Ek'.
      destruct (R2 y Hy) as (z & Hz & F1 & F2 & F3); [congruence|by rewrite Eu|done|].
      exists z. split_and!; [done|congruence|congruence|done].
Qed.

(** What becomes of a runtime: the outcome of its provisioning under one
    generation, and then a later generation. *)
Definition ages (a b : runtime) : Prop :=
  rt_generation a < rt_generation b
  ∨ rt_generation b = rt_generation a ∧ rt_runner b = rt_runner a ∧ rt_sprite b = rt_sprite a ∧ rt_artifact b = rt_artifact a
    ∧ (rt_status b = rt_status a ∨ rt_status a = RuntimeProvisioning ∧ (rt_status b = RuntimeReady ∨ rt_status b = RuntimeFailed)).

#[export] Instance ages_preorder : PreOrder ages.
Proof.
  split.
  - intros a. right. by split_and!; [..|left].
  - intros a b c [L|(E1 & E2 & E3 & E4 & S)] [L'|(F1 & F2 & F3 & F4 & T)]; [left; lia|left; lia|left; lia|right].
    split_and!; [congruence..|]. destruct S as [S|[S1 S2]], T as [T|[T1 T2]]; try naive_solver congruence.
Qed.

(** The runtimes of the users in [users] are kept, and age. *)
Definition aged (users : pystr → Prop) (l l' : list runtime) : Prop :=
  ∀ a, a ∈ l → users (rt_user a) → ∃ b, b ∈ l' ∧ rt_user b = rt_user a ∧ ages a b.

Definition by_catalog (t t' : tables) : Prop := ∃ l, t' = exec_all l t.

Record grows (fresh users lapsed : pystr → Prop) (c c' : control) : Prop := {
  gr_catalog : by_catalog (ct_tables c) (ct_tables c');
  gr_rows : rows_from fresh lapsed (ct_runners c) (ct_runners c');
  gr_aged : aged users (runtimes c) (runtimes c');
}.

#[export] Instance grows_preorder fresh users lapsed : PreOrder (grows fresh users lapsed).
Proof.
  split.
  - intros c. split; [by exists []|done|intros a Ha _; by exists a].
  - intros c d e [[l1 C1] T1 A1] [[l2 C2] T2 A2]. split.
    + exists (l1 ++ l2). by rewrite exec_all_app, C2, C1.
    + by transitivity (ct_runners d).
    + intros a Ha Hu. destruct (A1 a Ha Hu) as (b & Hb & E & Ab). destruct (A2 b Hb) as (d' & Hd & E' & Ad); [by rewrite E|].
      exists d'. split_and!; [done|congruence|by transitivity b].
Qed.

(** ** Calls of the catalog *)

Definition abstract_call (c : call) : Prop :=
  match c with Activate _ _ _ _ _ _ | ChangeRuntimes _ => True | _ => False end.

Lemma effect_runtimes t c t' x : effect t c t' x → ¬ abstract_call c → tb_runtimes t' = tb_runtimes t.
Proof.
  intros He Ha. destruct He as [|?????? Hact|?????? Hact| | | | | | |c user t1 a t2 o t3 R Ia Io|c user t1 a o t2 R _ Io|c user id t1 a t2 o R _ _ Io|].
  all: try done.
  - destruct Hact as (? & ? & ? & ? & ? & ->). by destruct Ha.
  - apply insert_keys in Io as (-> & _). unfold insert_archive in Ia. inv_ok. by apply retire_runtimes in R.
  - apply insert_keys in Io as (-> & _). by apply retire_runtimes in R.
  - apply insert_keys in Io as (-> & _). by apply retire_runtimes in R.
Qed.

(** Where an operation that runs came from. *)
Definition came_from (t : tables) (o : operation) : Prop :=
  (∃ o', o' ∈ tb_operations t ∧ running o' = true ∧ op_user o' = op_user o ∧ op_kind o' = op_kind o
         ∧ op_generation o' = op_generation o) ∨ on_ready t o.

Lemma came_update t p f o : (∀ x, p x = true → running (f x) = true → op_user (f x) = op_user x ∧ op_kind (f x) = op_kind x
    ∧ op_generation (f x) = op_generation x ∧ running x = true) →
  o ∈ update p f (tb_operations t) → running o = true → came_from t o.
Proof.
  intros Hf (x & Hx & ->)%in_update Hr. left. exists x. destruct (p x) eqn:E; [|done].
  destruct (Hf x E Hr) as (E1 & E2 & E3 & E4). by split_and!.
Qed.

Lemma came_touches t c p f o : touches c f → o ∈ update p f (tb_operations t) → running o = true → came_from t o.
Proof.
  intros Hf. apply came_update. intros x _ Hr. destruct (tc_core _ _ Hf x) as (E1 & _ & _ & E2 & E3 & E4).
  unfold running in *. rewrite E3 in Hr. by split_and!.
Qed.

Lemma came_old t o : o ∈ tb_operations t → running o = true → came_from t o.
Proof. intros Ho Hr. left. by exists o. Qed.

Lemma came_delete t p o : o ∈ delete_rows p (tb_operations t) → running o = true → came_from t o.
Proof. intros [Ho _]%in_delete. by apply came_old. Qed.

Lemma retire_operations user t t1 o : retire_failed_managed_operation user t = Ok t1 → o ∈ tb_operations t1 → o ∈ tb_operations t.
Proof.
  unfold retire_failed_managed_operation. destruct (List.find _ _) as [f|]; [|by intros [= <-]].
  destruct (running f); [done|]. destruct (is_kind _ _); intros [= <-] [H _]%in_delete; exact H.
Qed.

Lemma came_started t user t1 t2 o t3 x : retire_failed_managed_operation user t = Ok t1 → tb_operations t2 = tb_operations t1 →
  insert_operation o t2 = Ok t3 → op_kind o = DeleteOperation ∨ on_ready t o → x ∈ tb_operations t3 → running x = true →
  op_kind x ≠ DeleteOperation → came_from t x.
Proof.
  intros R E (-> & _)%insert_keys Ho [Hx|Hx]%elem_of_app Hr Hk.
  - rewrite E in Hx. apply came_old; [by eapply retire_operations|done].
  - apply list_elem_of_singleton in Hx. subst x. destruct Ho; [done|by right].
Qed.

Lemma effect_came t c t' x o : effect t c t' x → o ∈ tb_operations t' → running o = true → op_kind o ≠ DeleteOperation → came_from t o.
Proof.
  intros He Ho Hr Hk. destruct He as [| | | | | | | | |c user t1 a t2 o1 t3 R Ia Io|c user t1 a o1 t2 R _ Io|c user id t1 a t2 o1 R _ _ Io|]; cbn [tb_operations with_operations with_archives with_runtimes] in Ho.
  - eapply came_update; [|exact Ho|done]. intros y _ Hy. by split_and!.
  - eapply came_touches; eassumption.
  - eapply came_touches; eassumption.
  - eapply came_delete; eassumption.
  - eapply came_update; [|exact Ho|done]. intros y _ Hy. unfold running in Hy. by breflect.
  - eapply came_touches; eassumption.
  - eapply came_delete; eassumption.
  - eapply came_delete; eassumption.
  - eapply came_update; [|exact Ho|done]. intros y _ Hy. unfold running in Hy. by breflect.
  - eapply (came_started t user t1 t2); try done; [unfold insert_archive in Ia; by inv_ok|by right].
  - eapply (came_started t user t1 t1); try done. by right.
  - eapply (came_started t user t1); [done| |exact Io|by left|done..]. done.
  - by apply came_old.
Qed.

Lemma came_maintained t rts o : rts = tb_runtimes t → (∀ o, o ∈ tb_operations t → maintained rts o) → came_from t o →
  op_kind o ≠ DeleteOperation → ∃ r, r ∈ rts ∧ rt_user r = op_user o ∧ rt_status r ≠ RuntimeDeleting ∧ op_generation o <= rt_generation r.
Proof.
  intros -> Hm [(o' & Ho & Hr & E1 & E2 & E3)|(r & Hin & E1 & E2 & E3)] Hk.
  - destruct (Hm o' Ho Hr) as (r & Hin & F1 & F2 & F3); [by rewrite E2|]. exists r. split_and!; [done|congruence|done|lia].
  - exists r. split_and!; [done|done|by rewrite E2|lia].
Qed.

Lemma by_catalog_exec c fault t : by_catalog t (exec c fault t).1.
Proof. by exists [(c, fault)]. Qed.

Lemma runtimes_tables c t : runtimes (with_tables t c) = tb_runtimes t.
Proof. done. Qed.

Lemma aged_same users l : aged users l l.
Proof. intros a Ha _. by exists a. Qed.
Lemma catalog_same t : by_catalog t t.
Proof. by exists []. Qed.

Section Steps.
Context (fresh users lapsed : pystr → Prop).

Definition steps {A} (Q : res A → Prop) (p : prog control A) : Prop := ensures control_ok (grows fresh users lapsed) Q p.
Definition anything {A} (r : res A) : Prop := True.

Lemma catalog_steps c fault : ¬ abstract_call c → steps anything (atomically (on_tables (exec c fault))).
Proof.
  intros Ha. apply ensures_atomically. intros s [S R T M I G].
  assert (E : (on_tables (exec c fault) s).1 = with_tables (exec c fault (ct_tables s)).1 s)
    by (unfold on_tables; by destruct (exec c fault (ct_tables s))).
  rewrite E. clear E.
  assert (Er : tb_runtimes (exec c fault (ct_tables s)).1 = runtimes s).
  { destruct (exec_tables c fault (ct_tables s)) as [->|[x He]]; [done|by apply (effect_runtimes _ c _ x)]. }
  split_and!; [split|split|done]; rewrite ?runtimes_tables, ?Er; cbn [ct_tables ct_runners ct_identities ct_guards with_tables]; try done.
  - by apply exec_sound.
  - intros o Ho Hr Hk. destruct (exec_tables c fault (ct_tables s)) as [Es|[x He]].
    + rewrite Es in Ho. by apply (M o Ho).
    + apply (came_maintained (ct_tables s)); [done|done|by apply (effect_came _ c _ x _ He)|done].
  - apply by_catalog_exec.
  - apply aged_same.
Qed.

(** ** Changes of runners *)

Lemma runners_update l p f : runners_ok l → (∀ r, rn_id (f r) = rn_id r ∧ owner (f r) = owner r) →
  (∀ r, r ∈ l → p r = true → row_ok (f r)) → runners_ok (update p f l).
Proof.
  intros [H1 H2 H3] Hf Hr. split.
  - rewrite map_update; [done|]. intros r. apply Hf.
  - rewrite map_update; [done|]. intros r. apply Hf.
  - intros r' (r & Hin & ->)%in_update. destruct (p r) eqn:E; [by apply Hr|by apply H3].
Qed.

Lemma runners_delete l p : runners_ok l → runners_ok (delete_rows p l).
Proof.
  intros [H1 H2 H3]. split; [by apply NoDup_delete..|]. intros r [Hr _]%in_delete. by apply H3.
Qed.

Lemma rows_update l p f : (∀ r h, p r = true → rn_token (f r) = Some h → fresh h ∨ rn_token r = Some h) →
  (∀ r, rn_id (f r) = rn_id r) →
  (∀ r, r ∈ l → p r = true → rn_kind r = Byoc → lapsed (rn_user r) → is_Some (rn_revoked r) →
     owner (f r) = owner r ∧ is_Some (rn_revoked (f r))) → rows_from fresh lapsed l (update p f l).
Proof.
  intros Ht Hi Hr. split.
  - intros x' h (x & Hx & ->)%in_update E. destruct (p x) eqn:Ep; [|right; by exists x].
    destruct (Ht x h Ep E) as [F|F]; [by left|right; by exists x].
  - intros x Hx Ek Hl E. exists (if p x then f x else x). split; [apply in_update; by exists x|].
    destruct (p x) eqn:Ep; [|done]. destruct (Hr x Hx Ep Ek Hl E). by split_and!.
Qed.

Lemma rows_delete l p : (∀ r, r ∈ l → p r = true → rn_kind r ≠ Byoc) → rows_from fresh lapsed l (delete_rows p l).
Proof.
  intros Hp. split; [intros x h [Hx _]%in_delete E; right; by exists x|].
  intros x Hx Ek _ E. exists x. split; [|done]. apply in_delete. split; [done|]. apply not_true_iff_false. intros Ep.
  by apply (Hp x Hx Ep).
Qed.

(** Rows that change in place keep runtimes linked, if none of a runtime that
    ended is no longer revoked. *)
Lemma linked_update l p f r : (∀ x, p x = true → rn_id (f x) = rn_id x ∧ owner (f x) = owner x) →
  (∀ x, p x = true → is_Some (rn_revoked x) → is_Some (rn_revoked (f x))) → linked l r → linked (update p f l) r.
Proof.
  intros Hf Hr (Hg & x & Hx & E1 & E2 & E3). split; [done|]. exists (if p x then f x else x).
  split; [apply in_update; by exists x|]. destruct (p x) eqn:Ep; [|done].
  destruct (Hf x Ep) as [F1 F2]. split_and!; [congruence|congruence|]. intros He. by apply Hr, E3.
Qed.

Lemma runtimes_linked l l' rts : runtimes_ok l rts → (∀ r, r ∈ rts → linked l r → linked l' r) → runtimes_ok l' rts.
Proof. intros [H1 H2 H3 H4] H. split; [done..|]. intros r Hr. by apply H, H4. Qed.

(** A step that changes runners in place and nothing else. *)
Lemma runners_step s p f : control_ok s → (∀ r, rn_id (f r) = rn_id r ∧ owner (f r) = owner r) →
  (∀ r, r ∈ ct_runners s → p r = true → row_ok (f r)) →
  (∀ r, p r = true → is_Some (rn_revoked r) → is_Some (rn_revoked (f r))) →
  (∀ r h, p r = true → rn_token (f r) = Some h → fresh h ∨ rn_token r = Some h) →
  control_ok (with_runners (update p f (ct_runners s)) s) ∧ grows fresh users lapsed s (with_runners (update p f (ct_runners s)) s).
Proof.
  intros [S R T M I G] Hf Hrow Hrev Htok. split.
  - split; cbn; try done; [by apply runners_update|].
    apply (runtimes_linked (ct_runners s)); [done|]. intros r _. apply linked_update; [intros x _; apply Hf|done].
  - split; cbn; [apply catalog_same|apply rows_update; [done|intros r; apply Hf|]|apply aged_same].
    intros r _ Hp _ _ E. split; [apply Hf|by apply Hrev].
Qed.

(** ** Programs over one transaction *)

Lemma pure_steps {A} (r : res A) : steps (fun x => x = r) (pure r).
Proof. done. Qed.

Lemma steps_pure {A B} (r : res A) (k : A → prog control B) : (∀ a, r = Ok a → steps anything (k a)) →
  steps anything (prog_bind (pure r) k).
Proof. intros H. destruct r as [a|e]; [by apply H|done]. Qed.

Lemma steps_select {A B} (f : control → A) (k : A → prog control B) : (∀ s, control_ok s → steps anything (k (f s))) →
  steps anything (prog_bind (select f) k).
Proof. intros H s Hs. cbn. split_and!; [done|reflexivity|by apply H]. Qed.

Lemma steps_bind {A B} (p : prog control A) (k : A → prog control B) : steps anything p → (∀ a, steps anything (k a)) →
  steps anything (prog_bind p k).
Proof. intros Hp Hk. eapply ensures_bind; [exact Hp|intros a _; apply Hk|done]. Qed.

Lemma steps_discard {A} (p : prog control A) : steps anything p → steps anything (discard p).
Proof. intros H. apply steps_bind; [done|]. by intros a. Qed.

Lemma steps_transaction {A} fault (t : control → res (option control * A)) :
  (∀ s s' a, control_ok s → t s = Ok (Some s', a) → control_ok s' ∧ grows fresh users lapsed s s') →
  steps anything (atomically (transaction fault t)).
Proof.
  intros H. apply ensures_transaction; try done. intros s s' a Hs E. destruct (H s s' a Hs E). by split_and!.
Qed.
End Steps.
Arguments anything {A} r /.
