(* ===== verification/ControlSteps.v ===== *)
(** * Every call keeps the control database sound

    One lemma for each call of [ControlSystem]: its steps keep [control_ok] and
    are [grows], for the bearer tokens that it draws and the users whose
    runtime it does not remove. *)

From S2P Require Import Prelude Text Json JsonBytes Crypto RunnerNoise RunnerCapabilities Transactions.
From S2P Require Import ManagedBackups ManagedBackupsSpec RunnerStorage Runners ManagedRunners ControlSystem.

Section Runners.
Context {SHA : Sha256} {X : X25519} {FL : PyFloat} {ED : Ed25519} {RAW : Ed25519Raw} {H : Hkdf}.
Context (fresh users lapsed : pystr → Prop).
#[local] Abbreviation steps := (steps fresh users lapsed).
#[local] Abbreviation grows := (grows fresh users lapsed).

(** ** Registrations *)

Lemma owned_owner user kind r : owned_runner user kind r = true ↔ owner r = (user, kind).
Proof.
  unfold owned_runner, owner. rewrite andb_true_iff, !bool_decide_eq_true. split; [by intros [-> ->]|by intros [= -> ->]].
Qed.

Lemma upsert_ok x c c' : upsert_runner x c = Ok c' →
  c' = with_runners (ct_runners c') c ∧
  (ct_runners c' = update (owned_runner (rn_user x) (rn_kind x)) (set_pending x) (ct_runners c)
   ∨ ct_runners c' = ct_runners c ++ [x] ∧ (∀ y, y ∈ ct_runners c → owner y ≠ owner x ∧ rn_id y ≠ rn_id x)).
Proof.
  unfold upsert_runner. destruct (existsb (owned_runner _ _) _) eqn:E.
  - intros [= <-]. split; [done|by left].
  - intros H1. inv_ok. split; [done|right]. split; [done|]. intros y Hy. breflect. split.
    + intros Ey. assert (Eo : owned_runner (rn_user x) (rn_kind x) y = true) by by apply owned_owner.
      apply not_true_iff_false in E. apply E, existsb_exists. exists y. by rewrite <- list_elem_of_In.
    + by apply (existsb_none rn_id _ _ G).
Qed.

Lemma pending_row_ok x r : is_Some (rn_registration x) → row_ok (set_pending x r).
Proof. intros _. split; [by intros [? [=]]|by left]. Qed.

Lemma upsert_runners_ok x c c' : upsert_runner x c = Ok c' → row_ok x → is_Some (rn_registration x) →
  runners_ok (ct_runners c) → runners_ok (ct_runners c').
Proof.
  intros [_ [->|[-> Hn]]]%upsert_ok Hx Hr Hok.
  - apply runners_update; [done|done|]. intros r _ _. by apply pending_row_ok.
  - destruct Hok as [H1 H2 H3]. split.
    + apply NoDup_snoc; [done|]. intros y Hy. by apply Hn.
    + apply NoDup_snoc; [done|]. intros y Hy. by apply Hn.
    + intros r [Hi|Hi]%elem_of_app; [by apply H3|]. apply list_elem_of_singleton in Hi. by subst.
Qed.

Lemma upsert_rows x c c' : upsert_runner x c = Ok c' → rn_token x = None → (rn_kind x = Byoc → ¬ lapsed (rn_user x)) →
  rows_from fresh lapsed (ct_runners c) (ct_runners c').
Proof.
  intros [_ [->|[-> Hn]]]%upsert_ok Hx Hl.
  - apply rows_update; [done|done|]. intros r _ Ho Ek Hlr _. apply owned_owner in Ho. unfold owner in Ho. injection Ho as Eu Ek'.
    destruct Hl; congruence.
  - split; [intros y h [Hy|Hy]%elem_of_app E; [right; by exists y|apply list_elem_of_singleton in Hy; congruence]|].
    intros y Hy _ _ E. exists y. split; [apply elem_of_app; by left|done].
Qed.

(** A runtime stays linked, unless its own runner is registered again. *)
Lemma upsert_linked x c c' r : upsert_runner x c = Ok c' → owner x ≠ (rt_user r, Managed) ∨ ¬ ended r →
  linked (ct_runners c) r → linked (ct_runners c') r.
Proof.
  intros [_ [->|[-> Hn]]]%upsert_ok Hr (Hg & y & Hy & E1 & E2 & E3); (split; [done|]).
  - exists (if owned_runner (rn_user x) (rn_kind x) y then set_pending x y else y).
    split; [apply in_update; by exists y|]. destruct (owned_runner _ _ y) eqn:Eo; [|by split_and!].
    apply owned_owner in Eo. destruct Hr as [Hr|Hr]; [|by split_and!]. destruct Hr. rewrite <- E2, Eo. done.
  - exists y. split_and!; [apply elem_of_app; by left|done..].
Qed.

(** What a registration does to the database, and the row that it names. *)
Lemma create_ok user q now c c' g : create_in_connection user q now c = Ok (c', g) →
  ∃ u x, require_user_id user = Ok u ∧ upsert_runner x c = Ok c' ∧ owner x = (u, rq_kind q) ∧ row_ok x
    ∧ is_Some (rn_registration x) ∧ rn_token x = None
    ∧ ∃ r, r ∈ ct_runners c' ∧ owner r = (u, rq_kind q) ∧ rn_id r = rn_id (rv_row (rg_runner g)).
Proof.
  unfold create_in_connection. intros Hc. destruct (require_user_id user) as [u|]; [|done]. cbn [res_bind] in Hc.
  do 9 (apply bind_error_ok in Hc as (? & _ & Hc)). apply bind_error_ok in Hc as (c1 & Hu & Hc).
  destruct (find_runner _ c1) as [r|] eqn:Er; [|done]. apply bind_error_ok in Hc as (v & Hv & Hc). injection Hc as <- <-.
  apply find_in in Er as [Hr Ho]. apply owned_owner in Ho.
  eexists u, _. split_and!; [done|exact Hu|done|split; [by intros [? [=]]|by left]|by eexists|done|].
  exists r. split_and!; [done|done|]. unfold serialize_runner in Hv. by inv_ok.
Qed.

(** The registration of a runner that is not the one of a runtime. *)
Lemma create_step user q now s c' g : control_ok s → rq_kind q ≠ Managed →
  (∀ u, rq_kind q = Byoc → require_user_id user = Ok u → ¬ lapsed u) → create_in_connection user q now s = Ok (c', g) →
  control_ok c' ∧ grows s c' ∧ ∃ r, r ∈ ct_runners c' ∧ rn_id r = rn_id (rv_row (rg_runner g)).
Proof.
  intros [S R T M I G] Hk Hq (u & x & Eu & Hu & Ho & Hrow & Hreg & Htok & r & Hr & _ & Er)%create_ok.
  pose proof (proj1 (upsert_ok _ _ _ Hu)) as Ec. split_and!; [| |by exists r]; rewrite Ec; cbn.
  - split; cbn; try done; [by eapply upsert_runners_ok|].
    apply (runtimes_linked (ct_runners s)); [done|]. intros rt _. apply (upsert_linked x s c'); [done|].
    left. rewrite Ho. congruence.
  - split; cbn; [apply catalog_same| |apply aged_same]. unfold owner in Ho. injection Ho as E1 E2.
    eapply upsert_rows; [exact Hu|done|]. intros E. rewrite E1. apply Hq; [congruence|done].
Qed.

Lemma create_registration_steps user q now fault : rq_kind q ≠ Managed →
  (∀ u, require_user_id user = Ok u → ¬ lapsed u) →
  steps anything (create_runner_registration user q now fault).
Proof.
  intros Hk Hl. apply steps_transaction. intros s s' g Hs Hb.
  apply bind_error_ok in Hb as ([c' g'] & Hc & [= <- <-]). by destruct (create_step user q now s c' g' Hs Hk (fun u _ => Hl u) Hc) as (? & ? & _).
Qed.

Lemma set_restore_job_step s p job : control_ok s →
  control_ok (with_runners (update p (set_restore_job job) (ct_runners s)) s)
  ∧ grows s (with_runners (update p (set_restore_job job) (ct_runners s)) s).
Proof.
  intros Hs. apply runners_step; try done; [|by intros r h _ E; right].
  intros r Hr _. exact (ro_rows _ (co_runners _ Hs) r Hr).
Qed.

Lemma create_restore_steps user job name region url id token now fault :
  steps anything (create_managed_restore_registration user job name region url id token now fault).
Proof.
  unfold create_managed_restore_registration. apply steps_pure. intros u _. apply steps_pure. intros j _.
  apply steps_transaction. intros s s' g Hs Hb. apply bind_error_ok in Hb as ([c' g'] & Hc & Hb).
  apply bind_error_ok in Hb as (? & _ & [= <- <-]). cbn [fst snd].
  apply create_step in Hc as (Hc & Hg & _); [|done..].
  destruct (set_restore_job_step c' (is_runner (rn_id (rv_row (rg_runner g')))) j Hc) as [H1 H2].
  split; [done|]. by transitivity c'.
Qed.

(** ** Revocation *)

Lemma set_revoked_step s p now : control_ok s →
  control_ok (with_runners (update p (set_revoked now) (ct_runners s)) s)
  ∧ grows s (with_runners (update p (set_revoked now) (ct_runners s)) s).
Proof.
  intros Hs. apply runners_step; try done.
  intros r Hr _. split; [done|by left].
Qed.

Lemma revoke_where_steps p done_if now fault : steps anything (revoke_where p done_if now fault).
Proof. apply steps_transaction. intros s s' b Hs [= <- <-]. by apply set_revoked_step. Qed.

Lemma revoke_runner_steps user now fault : steps anything (revoke_runner_for_user user now fault).
Proof. apply steps_pure. intros u _. apply revoke_where_steps. Qed.
Lemma revoke_restore_steps user now fault : steps anything (revoke_managed_restore_runner_for_user user now fault).
Proof. apply steps_pure. intros u _. apply revoke_where_steps. Qed.
Lemma revoke_restore_job_steps user job now fault : steps anything (revoke_managed_restore_runner_for_job user job now fault).
Proof. apply steps_pure. intros u _. apply steps_pure. intros j _. apply revoke_where_steps. Qed.

(** ** The calls of a runner *)

Lemma register_steps token q key fresh_token now later secret fault : (∀ h, hash_token fresh_token = Ok h → fresh h) →
  steps anything (register_runner token q key fresh_token now later secret fault).
Proof.
  intros Hfresh. unfold register_runner. apply steps_pure. intros h _. apply steps_pure. intros version _.
  apply steps_pure. intros k _. apply steps_pure. intros fh Eh. apply steps_select. intros s0 _.
  apply steps_pure. intros row _. apply steps_pure. intros report _. apply steps_bind.
  - apply steps_transaction. intros s s' a Hs Hb. apply bind_error_ok in Hb as (? & _ & [= <- <-]). apply runners_step; try done.
    + intros r Hr Hp. breflect. split; [|by right]. unfold unrevoked in *. breflect. cbn. intros [? E]. congruence.
    + intros r h' _ [= <-]. left. by apply Hfresh.
  - intros _. apply steps_pure. intros signing _. done.
Qed.

Lemma authenticate_steps token : steps anything (authenticate_runner_token token).
Proof.
  apply steps_pure. intros h _. apply steps_select. intros s _. destruct (find_runner _ s) as [r|]; [|done].
  by destruct (rn_noise_key r) as [[|]|].
Qed.

Lemma heartbeat_steps token q now secret fault : steps anything (record_runner_heartbeat token q now secret fault).
Proof.
  unfold record_runner_heartbeat. apply steps_pure. intros h _. apply steps_pure. intros version _.
  apply steps_select. intros s0 _. destruct (find_runner _ s0) as [row|]; [|done].
  apply steps_pure. intros report _. apply steps_bind.
  - apply steps_transaction. intros s s' a Hs Hb. apply bind_error_ok in Hb as (? & _ & [= <- <-]). apply runners_step; try done.
    + intros r Hr Hp. breflect. destruct (ro_rows _ (co_runners _ Hs) r Hr) as [_ Ht]. unfold unrevoked in *. breflect.
      split; [|done]. cbn. intros [? E]. congruence.
    + intros r h' _ E. by right.
  - intros _. apply steps_pure. intros signing _. done.
Qed.

Lemma confirm_steps user key now fault : steps anything (confirm_runner_noise_key user key now fault).
Proof.
  unfold confirm_runner_noise_key. apply steps_pure. intros u _. apply steps_pure. intros k _.
  apply steps_select. intros s0 _. destruct (find_runner _ s0) as [row|]; [|done].
  apply steps_pure. intros _ _. apply steps_pure. intros _ _. apply steps_bind.
  - apply steps_transaction. intros s s' a Hs [= <- <-]. apply runners_step; try done.
    + intros r Hr _. exact (ro_rows _ (co_runners _ Hs) r Hr).
    + intros r h _ E. by right.
  - intros _. apply steps_select. intros s _. by destruct (find_runner _ s).
Qed.

(** ** Changes of runtimes *)

Definition same_keys (a b : runtime) : Prop := rt_user b = rt_user a ∧ rt_runner b = rt_runner a ∧ rt_sprite b = rt_sprite a.

Lemma conflicts_same l rts r r' x : runtimes_ok l rts → r ∈ rts → x ∈ rts → same_keys r r' → conflicts r' x = true ↔ x = r.
Proof.
  intros [N1 N2 N3 _] Hr Hx (E1 & E2 & E3). unfold conflicts. rewrite !orb_true_iff, !bool_decide_eq_true, E1, E2, E3. split.
  - intros [[E|E]|E]; [by apply (NoDup_map_eq rt_user rts)|by apply (NoDup_map_eq rt_runner rts)|by apply (NoDup_map_eq rt_sprite rts)].
  - intros ->. by left; left.
Qed.

(** The runtime [r] becomes [r'] and the others stay. *)
Record replaced (rts : list runtime) (r r' : runtime) (rts' : list runtime) : Prop := {
  rp_users : NoDup (map rt_user rts');
  rp_runners : NoDup (map rt_runner rts');
  rp_sprites : NoDup (map rt_sprite rts');
  rp_rows : ∀ x, x ∈ rts' ↔ x = r' ∨ x ∈ rts ∧ x ≠ r;
}.

Lemma replaced_insert l rts r r' : runtimes_ok l rts → r ∈ rts → same_keys r r' →
  replaced rts r r' (delete_rows (conflicts r') rts ++ [r']).
Proof.
  intros T Hr E. pose proof E as (E1 & E2 & E3). split.
  1-3: (apply NoDup_snoc; [apply NoDup_delete, T|]; intros x [_ Hc]%in_delete Ex; unfold conflicts in Hc; breflect; congruence).
  intros x. rewrite elem_of_app, list_elem_of_singleton, in_delete.
  split; [intros [[Hx Hc]| ->]|intros [->|[Hx N]]]; auto.
  - right. split; [done|]. intros ->. assert (conflicts r' r = true) by by apply (conflicts_same l rts r). congruence.
  - left. split; [done|]. apply not_true_iff_false. intros Hc. by apply N, (conflicts_same l rts r r').
Qed.

Lemma NoDup_update {A B} (h : A → B) p f l : NoDup (map h l) → (∀ x y, x ∈ l → y ∈ l → p x = true → p y = true → x = y) →
  (∀ x y, x ∈ l → y ∈ l → p x = true → p y = false → h (f x) ≠ h y) → NoDup (map h (update p f l)).
Proof.
  intros Hn Hone Hne. unfold update. rewrite map_map. apply (NoDup_fmap_2_strong (A := A)); [|by eapply NoDup_fmap_1].
  intros x y Hx Hy E. cbn in E. destruct (p x) eqn:Ex, (p y) eqn:Ey.
  - by apply Hone.
  - by destruct (Hne x y Hx Hy Ex Ey).
  - by destruct (Hne y x Hy Hx Ey Ex).
  - by apply (NoDup_map_eq h l).
Qed.

Lemma replaced_update l rts r p f : runtimes_ok l rts → r ∈ rts → p r = true → (∀ x, x ∈ rts → p x = true → x = r) →
  (∀ x, x ∈ rts → x ≠ r → conflicts (f r) x = false) → replaced rts r (f r) (update p f rts).
Proof.
  intros [N1 N2 N3 _] Hr Hp Hone Hc.
  assert (Hno : ∀ x y, x ∈ rts → y ∈ rts → p x = true → p y = false → x = r ∧ conflicts (f r) y = false).
  { intros x y Hx Hy Ex Ey. split; [by apply Hone|]. apply Hc; [done|]. congruence. }
  split.
  1-3: (apply NoDup_update; [done|intros x y Hx Hy Ex Ey; by rewrite (Hone x), (Hone y)|];
        intros x y Hx Hy Ex Ey; destruct (Hno x y Hx Hy Ex Ey) as [-> Hcy]; unfold conflicts in Hcy; by breflect).
  intros x. rewrite in_update. split.
  - intros (y & Hy & ->). destruct (p y) eqn:Ep; [left; by rewrite (Hone y)|right]. split; [done|congruence].
  - intros [->|[Hx N]]; [exists r; by rewrite Hp|exists x]. split; [done|]. destruct (p x) eqn:Ep; [|done]. by destruct N; apply Hone.
Qed.

Lemma same_keys_conflicts l rts r r' : runtimes_ok l rts → r ∈ rts → same_keys r r' → ∀ x, x ∈ rts → x ≠ r → conflicts r' x = false.
Proof. intros T Hr E x Hx N. apply not_true_iff_false. intros Hc. by apply N, (conflicts_same l rts r r'). Qed.

Lemma replaced_ok l l' rts r r' rts' : runtimes_ok l rts → replaced rts r r' rts' → (∀ x, x ∈ rts → x ≠ r → linked l x → linked l' x) →
  linked l' r' → runtimes_ok l' rts'.
Proof.
  intros T [P1 P2 P3 P4] Hl Hl'. split; [done..|]. intros x [->|[Hx N]]%P4; [done|]. apply Hl; [done..|by apply T].
Qed.

Lemma put_runtimes_catalog rts s : by_catalog (ct_tables s) (ct_tables (put_runtimes rts s)).
Proof. by exists [(ChangeRuntimes rts, NoFault)]. Qed.

(** One runtime is replaced, with a change of runners. *)
Lemma replaced_step s r r' rts' l' : control_ok s → r ∈ runtimes s → replaced (runtimes s) r r' rts' → rt_user r' = rt_user r → ages r r' →
  (rt_status r' = RuntimeDeleting → ∀ o, o ∈ tb_operations (ct_tables s) → running o = true → op_user o ≠ rt_user r) →
  runners_ok l' → rows_from fresh lapsed (ct_runners s) l' → (∀ x, x ∈ runtimes s → x ≠ r → linked (ct_runners s) x → linked l' x) →
  linked l' r' → control_ok (with_runners l' (put_runtimes rts' s)) ∧ grows s (with_runners l' (put_runtimes rts' s)).
Proof.
  intros [S R T M I G] Hr P E Ha Hdel R' Htok Hl Hl'. pose proof (rp_rows _ _ _ _ P) as Hrows. split; split; cbn.
  - by apply runtimes_sound.
  - done.
  - by apply (replaced_ok (ct_runners s) l' (runtimes s) r r').
  - intros o Ho Hrun Hk. destruct (M o Ho Hrun Hk) as (rt & Hin & E1 & E2 & E3).
    destruct (decide (rt = r)) as [->|N].
    + exists r'. split_and!; [by apply Hrows; left|congruence|intros Hd; by apply (Hdel Hd o)|].
      destruct Ha as [L|(Eg & _)]; lia.
    + exists rt. split_and!; [by apply Hrows; right|done..].
  - done.
  - done.
  - apply put_runtimes_catalog.
  - done.
  - intros a Hin _. destruct (decide (a = r)) as [->|N].
    + exists r'. split_and!; [by apply Hrows; left|done..].
    + exists a. split_and!; [by apply Hrows; right|done..].
Qed.

Lemma linked_runner_in r c : linked_runner r c = true → ∃ x, x ∈ ct_runners c ∧ rn_id x = rt_runner r ∧ owner x = (rt_user r, Managed).
Proof.
  unfold linked_runner. rewrite existsb_exists. intros (x & Hx & Hp). breflect. exists x. unfold is_runner in *. breflect.
  split_and!; [by apply list_elem_of_In|done|by apply owned_owner].
Qed.

Lemma replace_ok p f s c' n : replace_runtime p f s = Ok (c', n) →
  c' = s ∧ n = 0 ∨ ∃ r, List.find p (runtimes s) = Some r ∧ n = 1
    ∧ c' = put_runtimes (delete_rows (conflicts (f r)) (runtimes s) ++ [f r]) s.
Proof.
  unfold replace_runtime. destruct (List.find p _) as [r|]; [|intros [= <- <-]; by left].
  intros Hb. apply bind_error_ok in Hb as (? & _ & [= <- <-]). right. by exists r.
Qed.

Lemma with_same_runners c : with_runners (ct_runners c) c = c.
Proof. by destruct c. Qed.

Lemma set_runtime_keys st g u e r : same_keys r (set_runtime st g u e r).
Proof. by split_and!. Qed.

(** A runtime is provisioned, under the same generation. *)
Lemma same_generation_step s p st u e c' n : control_ok s → (∀ r, p r = true → rt_status r = RuntimeProvisioning) →
  st = RuntimeProvisioning ∨ st = RuntimeReady → replace_runtime p (fun r => set_runtime st (rt_generation r) u (e r) r) s = Ok (c', n) →
  control_ok c' ∧ grows s c'.
Proof.
  intros Hs Hp Hst [[-> _]|(r & Hf & _ & ->)]%replace_ok; [done|]. apply find_in in Hf as [Hr Hpr].
  rewrite <- (with_same_runners (put_runtimes _ s)). apply Hp in Hpr as Hprov. destruct Hs as [S R T M I G].
  destruct (to_linked _ _ T r Hr) as (Hg & x & Hx & E1 & E2 & _).
  eapply (replaced_step s r); [by split|done|apply (replaced_insert (ct_runners s)); [done|done|apply set_runtime_keys]|done
    | | |done|done|done|].
  - right. cbn. split_and!; [done..|]. destruct Hst as [->| ->]; [by left|right]. split; [done|by left].
  - cbn. destruct Hst; congruence.
  - split; [done|]. exists x. split_and!; try done. intros [E|E]; cbn in E; destruct Hst; congruence.
Qed.

(** A runtime ends, and its runner with it. *)
Lemma linked_ends l r r' n : linked l r → same_keys r r' → 0 < rt_generation r' →
  linked (update (the_managed (rt_runner r) (rt_user r)) (set_revoked n) l) r'.
Proof.
  intros (_ & x & Hx & E1 & E2 & _) (F1 & F2 & _) Hg. split; [done|].
  assert (Hm : the_managed (rt_runner r) (rt_user r) x = true).
  { unfold the_managed, is_runner. rewrite bool_decide_eq_true_2 by done. by apply owned_owner. }
  exists (set_revoked n x). split_and!; [|cbn; congruence|cbn; unfold owner in *; cbn; congruence|by eexists].
  apply in_update. exists x. by rewrite Hm.
Qed.

Lemma ending_step s r r' rts' n : control_ok s → r ∈ runtimes s → replaced (runtimes s) r r' rts' → same_keys r r' → ages r r' →
  0 < rt_generation r' →
  (rt_status r' = RuntimeDeleting → ∀ o, o ∈ tb_operations (ct_tables s) → running o = true → op_user o ≠ rt_user r) →
  control_ok (revoke_managed (rt_runner r) (rt_user r) n (put_runtimes rts' s)).1
  ∧ grows s (revoke_managed (rt_runner r) (rt_user r) n (put_runtimes rts' s)).1.
Proof.
  intros Hs Hr P E Ha Hg Hdel.
  destruct (set_revoked_step s (the_managed (rt_runner r) (rt_user r)) n Hs) as [Hc Hg'].
  apply (replaced_step s r r'); [done|done|done|apply E|done|done|exact (co_runners _ Hc)|exact (gr_rows _ _ _ _ _ Hg')| |].
  - intros x Hx _. apply linked_update; [done|by intros; eexists].
  - apply linked_ends; [|done|done]. destruct Hs as [_ _ T _ _ _]. by apply T.
Qed.

(** ** Provisioning and deletion *)

Lemma provisioning_parts user g r : provisioning user g r = true → rt_user r = user ∧ rt_generation r = g ∧ rt_status r = RuntimeProvisioning.
Proof. unfold provisioning, of_owner, of_generation, in_status. intros Hp. by breflect. Qed.

Lemma refresh_steps user g now fault : steps anything (refresh_managed_runtime_provisioning user g now fault).
Proof.
  unfold refresh_managed_runtime_provisioning. apply steps_pure. intros u _. apply steps_pure. intros _ _. apply steps_pure. intros n _.
  apply steps_transaction. intros s s' b Hs Hb. apply bind_error_ok in Hb as ([c' m] & Hr & [= <- <-]).
  unfold replace_runtime in Hr. destruct (List.find _ _) as [r|] eqn:Ef; [|injection Hr as <- <-; done].
  apply (same_generation_step s (provisioning u g) RuntimeProvisioning n rt_error c' m); [done| |by left|].
  - intros r' Hp. by apply provisioning_parts in Hp as (_ & _ & ?).
  - unfold replace_runtime. rewrite Ef. apply find_in in Ef as [_ Hp]. apply provisioning_parts in Hp as (_ & _ & Es).
    cbn in Hr |- *. by rewrite Es in Hr.
Qed.

Lemma mark_ready_steps user g now fault : steps anything (mark_managed_runtime_ready user g now fault).
Proof.
  unfold mark_managed_runtime_ready. apply steps_pure. intros u _. apply steps_pure. intros _ _. apply steps_pure. intros n _.
  apply steps_transaction. intros s s' b Hs Hb. destruct (joined u s) as [[rt x]|]; [|done].
  apply bind_error_ok in Hb as (d & _ & Hb). destruct (negb _); [done|].
  apply bind_error_ok in Hb as ([c' m] & Hr & [= <- <-]).
  apply (same_generation_step s (provisioning u g) RuntimeReady n (fun _ => None) c' m); [done| |by right|done].
  intros r' Hp. by apply provisioning_parts in Hp as (_ & _ & ?).
Qed.

Lemma joined_in user s rt x : joined user s = Some (rt, x) → rt ∈ runtimes s ∧ rt_user rt = user ∧ x ∈ ct_runners s ∧ rn_id x = rt_runner rt.
Proof.
  unfold joined. destruct (List.find (of_owner user) _) as [r|] eqn:E1; [|done].
  destruct (List.find (is_runner _) _) as [y|] eqn:E2; [|done]. intros [= <- <-].
  apply find_in in E1 as [H1 H2], E2 as [H3 H4]. unfold of_owner, is_runner in *. by breflect.
Qed.

Lemma only_runtime s a b : control_ok s → a ∈ runtimes s → b ∈ runtimes s → rt_user a = rt_user b → a = b.
Proof. intros Hs Ha Hb E. by apply (NoDup_map_eq rt_user (runtimes s)); [apply (to_users _ _ (co_runtimes _ Hs))|..]. Qed.

Lemma mark_failed_steps user g e now fault : steps anything (mark_managed_runtime_failed user g e now fault).
Proof.
  unfold mark_managed_runtime_failed. apply steps_pure. intros u _. apply steps_pure. intros _ _. apply steps_pure. intros _ _.
  apply steps_pure. intros n _. apply steps_transaction. intros s s' b Hs Hb.
  destruct (joined u s) as [[rt x]|] eqn:Ej; [|done]. destruct (negb _); [done|].
  apply bind_error_ok in Hb as ([c' m] & Hr & Hb). apply bind_error_ok in Hb as (z0 & Hn & [= <- <-]). cbn [fst snd] in *.
  apply guard_ok in Hn. breflect. subst m. apply replace_ok in Hr as [[_ [=]]|(r & Hf & _ & ->)].
  apply joined_in in Ej as (Hrt & Eu & _). apply find_in in Hf as [Hr Hp]. apply provisioning_parts in Hp as (E1 & E2 & E3).
  assert (rt = r) as -> by (apply (only_runtime s); [done|done|done|congruence]). subst u.
  eapply ending_step; [done|done|apply (replaced_insert (ct_runners s)); [apply Hs|done|apply set_runtime_keys]|apply set_runtime_keys| | |done].
  - right. split_and!; [done..|]. right. split; [done|by right].
  - cbn. by apply (to_linked _ _ (co_runtimes _ Hs) r Hr).
Qed.

Lemma claim_deletion_steps user now fault : steps anything (claim_managed_runtime_deletion user now fault).
Proof.
  unfold claim_managed_runtime_deletion. apply steps_pure. intros u _. apply steps_pure. intros n _.
  apply steps_transaction. intros s s' b Hs Hb. apply bind_error_ok in Hb as (z & Hm & Hb). apply guard_ok in Hm. breflect.
  destruct (joined u s) as [[rt x]|] eqn:Ej; [|done]. destruct (in_status _ rt); [done|].
  apply bind_error_ok in Hb as ([c' m] & Hr & Hb). apply bind_error_ok in Hb as (z0 & Hn & Hb). cbn [fst snd] in *.
  apply guard_ok in Hn. breflect. subst m. destruct (List.find _ _) as [claimed|]; [|done]. injection Hb as <- <-.
  apply replace_ok in Hr as [[_ [=]]|(r & Hf & _ & ->)].
  apply joined_in in Ej as (Hrt & Eu & _). apply find_in in Hf as [Hr Hp]. unfold of_owner in Hp. breflect.
  assert (rt = r) as -> by (apply (only_runtime s); [done|done|done|congruence]). subst u.
  pose proof (proj1 (to_linked _ _ (co_runtimes _ Hs) r Hr)) as Hpos.
  eapply ending_step; [done|done|apply (replaced_insert (ct_runners s)); [apply Hs|done|apply set_runtime_keys]|apply set_runtime_keys
    |left; cbn; lia|cbn; lia|].
  intros _ o Ho Hrun E. apply not_true_iff_false in Hm. apply Hm, existsb_exists. exists o.
  split; [by apply list_elem_of_In|]. unfold of_user. by rewrite bool_decide_eq_true_2, Hrun.
Qed.

(** Runners are deleted with the runtimes that are linked to them. *)
Lemma delete_runners_ok l rts p : runtimes_ok l rts →
  runtimes_ok (delete_rows p l) (delete_rows (fun r => bool_decide (rt_runner r ∈ map rn_id (List.filter p l))) rts).
Proof.
  intros [H1 H2 H3 H4]. split; [by apply NoDup_delete..|]. intros r [Hr Hn]%in_delete. breflect.
  destruct (H4 r Hr) as (Hg & x & Hx & E1 & E2 & E3). split; [done|]. exists x. split_and!; [|done..].
  apply in_delete. split; [done|]. apply not_true_iff_false. intros Hp. apply Hn. rewrite <- E1.
  apply list_elem_of_fmap. exists x. split; [done|]. by apply list_elem_of_In, filter_In; rewrite <- list_elem_of_In.
Qed.

Lemma deleted_rows p l id : id ∈ map rn_id (List.filter p l) → ∃ x, x ∈ l ∧ rn_id x = id ∧ p x = true.
Proof. intros (x & -> & Hx)%list_elem_of_fmap. apply list_elem_of_In, filter_In in Hx as [Hx Hp]. exists x. by rewrite list_elem_of_In. Qed.

Lemma linked_runner_is s r x : control_ok s → r ∈ runtimes s → x ∈ ct_runners s → rn_id x = rt_runner r → owner x = (rt_user r, Managed).
Proof.
  intros Hs Hr Hx E. destruct (to_linked _ _ (co_runtimes _ Hs) r Hr) as (_ & y & Hy & E1 & E2 & _).
  assert (x = y) as ->; [|done]. apply (NoDup_map_eq rn_id (ct_runners s)); [apply (co_runners _ Hs)|done|done|congruence].
Qed.

(** The runtimes that a finalized deletion leaves. *)
Lemma finalize_rows s user its p : control_ok s → (∀ r, its r = true → rt_user r = user ∧ rt_status r = RuntimeDeleting) →
  (∀ x, p x = true → owner x = (user, Managed)) →
  (∀ r, r ∈ runtimes s → rt_user r ≠ user → r ∈ runtimes (delete_runners p (put_runtimes (delete_rows its (runtimes s)) s)))
  ∧ ∀ r, r ∈ runtimes (delete_runners p (put_runtimes (delete_rows its (runtimes s)) s)) → r ∈ runtimes s.
Proof.
  intros Hs Hits Hp. unfold delete_runners, runtimes. cbn. split.
  - intros r Hr N. apply in_delete. split; [apply in_delete; split; [done|]|].
    + apply not_true_iff_false. intros E. apply Hits in E as [E _]. congruence.
    + apply bool_decide_eq_false_2. intros (x & Hx & E & Hpx)%deleted_rows.
      pose proof (linked_runner_is s r x Hs Hr Hx E) as Eo. rewrite (Hp x Hpx) in Eo. congruence.
  - intros r [Hr _]%in_delete. by apply in_delete in Hr as [? _].
Qed.

Lemma finalize_steps user g fault : (∀ u, require_user_id user = Ok u → ¬ users u) →
  steps anything (finalize_managed_runtime_deletion user g fault).
Proof.
  intros Hu. unfold finalize_managed_runtime_deletion. apply steps_pure. intros u Eu. apply steps_pure. intros _ _.
  apply steps_transaction. intros s s' b Hs Hb. destruct (List.find _ (runtimes s)) as [rt|] eqn:Ef; [|done].
  apply bind_error_ok in Hb as (z0 & _ & [= <- <-]). apply find_in in Ef as [Hrt Hp].
  set (its := fun r => _ && _ && _) in *. set (p := the_managed _ _) in *.
  assert (Hits : ∀ r, its r = true → rt_user r = u ∧ rt_status r = RuntimeDeleting)
    by (intros r Hr; unfold its, of_owner, in_status in Hr; by breflect).
  assert (Hpo : ∀ x, p x = true → owner x = (u, Managed)) by (intros x Hx; unfold p, the_managed in Hx; breflect; by apply owned_owner).
  destruct (finalize_rows s u its p Hs Hits Hpo) as [Hkeep Hold]. pose proof Hs as [S R T M I G].
  split; split.
  - apply runtimes_sound, runtimes_sound, S.
  - by apply runners_delete.
  - apply delete_runners_ok. destruct T as [H1 H2 H3 H4]. split; [by apply NoDup_delete..|].
    intros r [Hr _]%in_delete. by apply H4.
  - intros o Ho Hrun Hk. destruct (M o Ho Hrun Hk) as (r & Hr & E1 & E2 & E3). exists r. split_and!; [|done..].
    apply Hkeep; [done|]. intros E. apply E2. destruct (Hits rt Hp) as [F1 F2].
    rewrite (only_runtime s r rt Hs Hr Hrt) by congruence. done.
  - done.
  - done.
  - eexists [(ChangeRuntimes _, NoFault)]. reflexivity.
  - apply rows_delete. intros r _ Hpr Ek. apply Hpo in Hpr. unfold owner in Hpr. congruence.
  - intros a Ha Hua. exists a. split_and!; [|done..]. apply Hkeep; [done|]. intros E. apply (Hu u Eu). by rewrite <- E.
Qed.

(** ** Reconciliation *)

(** A row that was read still names the runner of its generation. *)
Definition current (s : control) (rt : runtime) : Prop :=
  ∀ r, r ∈ runtimes s → rt_user r = rt_user rt → rt_generation r = rt_generation rt → rt_runner r = rt_runner rt.

Lemma abandon_step s n clock rt c' m : control_ok s → current s rt → abandon_runtime n clock rt s = Ok (c', m) →
  control_ok c' ∧ grows s c' ∧ ∀ a, current s a → current c' a.
Proof.
  intros Hs Hc Hb. unfold abandon_runtime in Hb.
  destruct (Z.eqb_spec (count (provisioning (rt_user rt) (rt_generation rt)) (runtimes s)) 1) as [E1|_]; cbn [negb] in Hb;
    [|injection Hb as <- <-; by split_and!].
  apply bind_error_ok in Hb as (z0 & _ & [= <- _]).
  destruct (count_pos (provisioning (rt_user rt) (rt_generation rt)) (runtimes s)) as (r & Hr & Hp); [lia|].
  pose proof (provisioning_parts _ _ _ Hp) as (F1 & F2 & F3). rewrite <- (Hc r Hr F1 F2), <- F1.
  assert (Hone : ∀ x, x ∈ runtimes s → provisioning (rt_user r) (rt_generation rt) x = true → x = r).
  { intros x Hx Hpx. apply provisioning_parts in Hpx as (G1 & _). by apply (only_runtime s). }
  rewrite <- F1 in Hp. set (f := fun r => set_runtime RuntimeFailed (rt_generation r) clock (Some (u"provider_unavailable")) r).
  destruct (ending_step s r (f r) (update (provisioning (rt_user r) (rt_generation rt)) f (runtimes s)) n) as [H1 H2].
  - done.
  - done.
  - apply (replaced_update (ct_runners s)); [apply Hs|done..|].
    apply (same_keys_conflicts (ct_runners s) (runtimes s) r); [apply Hs|done|apply set_runtime_keys].
  - apply set_runtime_keys.
  - right. split_and!; [done..|]. right. split; [done|by right].
  - by apply (to_linked _ _ (co_runtimes _ Hs) r Hr).
  - done.
  - split_and!; [done|done|]. intros a Ha y (x & Hx & ->)%in_update Eu Eg. destruct (provisioning _ _ x); exact (Ha x Hx Eu Eg).
Qed.

Lemma abandon_all_step n clock l : ∀ s c' m, control_ok s → Forall (current s) l → abandon_runtimes n clock l s = Ok (c', m) →
  control_ok c' ∧ grows s c'.
Proof.
  induction l as [|rt l IH]; intros s c' m Hs Hl Hb; [by injection Hb as <- <-|].
  apply Forall_cons in Hl as [Hrt Hl]. apply bind_error_ok in Hb as ([c1 m1] & H1 & Hb).
  apply bind_error_ok in Hb as ([c2 m2] & H2 & [= <- _]). cbn [fst snd] in *.
  destruct (abandon_step s n clock rt c1 m1 Hs Hrt H1) as (Hc1 & Hg1 & Hcur).
  destruct (IH c1 c2 m2 Hc1) as [Hc2 Hg2]; [by eapply Forall_impl|done|]. split; [done|by transitivity c1].
Qed.

Lemma reconcile_steps owners now clock fault : steps anything (reconcile_managed_runtime_provisioning owners now clock fault).
Proof.
  unfold reconcile_managed_runtime_provisioning. apply steps_pure. intros n _. apply steps_transaction. intros s s' b Hs Hb.
  apply bind_error_ok in Hb as ([c' m] & Ha & [= <- <-]). eapply abandon_all_step; [done| |exact Ha].
  apply Forall_forall. intros rt Hrt. apply list_elem_of_In, filter_In in Hrt as [Hrt _]. apply list_elem_of_In in Hrt.
  intros r Hr Eu _. by rewrite (only_runtime s r rt).
Qed.

(** ** Claims of provisioning *)

(** The registration of the runner of a runtime, inside its claim. *)
Lemma create_managed user q n s c1 g : control_ok s → rq_kind q = Managed → require_user_id user = Ok user →
  create_in_connection user q n s = Ok (c1, g) →
  runners_ok (ct_runners c1) ∧ rows_from fresh lapsed (ct_runners s) (ct_runners c1) ∧ c1 = with_runners (ct_runners c1) s
  ∧ (∀ x, linked (ct_runners s) x → rt_user x ≠ user → linked (ct_runners c1) x)
  ∧ (∀ x, rt_user x = user → rt_runner x = rn_id (rv_row (rg_runner g)) → 0 < rt_generation x → ¬ ended x → linked (ct_runners c1) x).
Proof.
  intros Hs Hk Eu (u & x & Eu' & Hu & Ho & Hrow & Hreg & Htok & r & Hr & Hor & Er)%create_ok.
  assert (u = user) as -> by congruence. rewrite Hk in *. split_and!.
  - eapply upsert_runners_ok; [exact Hu|done|done|apply Hs].
  - eapply upsert_rows; [exact Hu|done|]. unfold owner in Ho. by injection Ho as _ ->.
  - by apply upsert_ok in Hu as [-> _].
  - intros y Hl N. apply (upsert_linked x s c1); [done|left; congruence|done].
  - intros y E1 E2 Hg He. split; [done|]. exists r. split_and!; [done|congruence|congruence|done].
Qed.

Lemma require_user_idem user u : require_user_id user = Ok u → require_user_id u = Ok u.
Proof.
  unfold require_user_id. intros Hb. apply bind_error_ok in Hb as (z0 & Hg & [= <-]). apply guard_ok in Hg.
  rewrite strip_strip. cbn zeta. by rewrite Hg.
Qed.

Lemma update_runtime_ok p f c c' : update_runtime p f c = Ok c' → c' = put_runtimes (update p f (runtimes c)) c
  ∧ ∀ r x, r ∈ runtimes c → p r = true → x ∈ runtimes c → p x = false → conflicts (f r) x = false.
Proof.
  unfold update_runtime. intros Hb. apply bind_error_ok in Hb as (z0 & _ & Hb). apply bind_error_ok in Hb as (z1 & Hg & [= <-]).
  split; [done|]. intros r x Hr Hp Hx Hpx. apply guard_ok in Hg. rewrite forallb_forall in Hg.
  specialize (Hg r). rewrite filter_In, <- list_elem_of_In in Hg. specialize (Hg (conj Hr Hp)). breflect.
  apply not_true_iff_false. intros Hc. apply not_true_iff_false in Hg. apply Hg, existsb_exists. exists x.
  rewrite <- list_elem_of_In, Hpx, Hc. done.
Qed.

Lemma with_runners_put c l rts : put_runtimes rts (with_runners l c) = with_runners l (put_runtimes rts c).
Proof. done. Qed.

Lemma insert_runtime_ok r c c' : insert_runtime r c = Ok c' → c' = put_runtimes (runtimes c ++ [r]) c
  ∧ ∀ x, x ∈ runtimes c → conflicts r x = false.
Proof.
  unfold insert_runtime. intros Hb. apply bind_error_ok in Hb as (z0 & _ & Hb). apply bind_error_ok in Hb as (z1 & Hg & [= <-]).
  split; [done|]. intros x Hx. apply guard_ok in Hg. breflect. apply not_true_iff_false. intros Hc. apply not_true_iff_false in Hg.
  apply Hg, existsb_exists. exists x. by rewrite <- list_elem_of_In.
Qed.

(** A runtime is inserted, with the registration of its runner. *)
Lemma inserted_step s r l' : control_ok s → (∀ x, x ∈ runtimes s → conflicts r x = false) → runners_ok l' →
  rows_from fresh lapsed (ct_runners s) l' → (∀ x, x ∈ runtimes s → linked (ct_runners s) x → linked l' x) → linked l' r →
  control_ok (with_runners l' (put_runtimes (runtimes s ++ [r]) s)) ∧ grows s (with_runners l' (put_runtimes (runtimes s ++ [r]) s)).
Proof.
  intros [S R T M I G] Hc R' Htok Hl Hr. split; split; cbn.
  - by apply runtimes_sound.
  - done.
  - destruct T as [H1 H2 H3 H4]. split.
    1-3: (apply NoDup_snoc; [done|]; intros x Hx; specialize (Hc x Hx); unfold conflicts in Hc; by breflect).
    intros x [Hx|Hx]%elem_of_app; [by apply Hl, H4|]. apply list_elem_of_singleton in Hx. by subst.
  - intros o Ho Hrun Hk. destruct (M o Ho Hrun Hk) as (rt & Hin & E). exists rt. split; [apply elem_of_app; by left|done].
  - done.
  - done.
  - apply put_runtimes_catalog.
  - done.
  - intros a Ha _. exists a. split_and!; [apply elem_of_app; by left|done..].
Qed.

Lemma create_managed_user s u q n rt rts' r' c1 g : control_ok s → rq_kind q = Managed → require_user_id u = Ok u →
  create_in_connection u q n s = Ok (c1, g) → rt ∈ runtimes s → rt_user rt = u → replaced (runtimes s) rt r' rts' →
  rt_user r' = u → rt_runner r' = rn_id (rv_row (rg_runner g)) → rt_generation rt < rt_generation r' → rt_status r' = RuntimeProvisioning →
  control_ok (put_runtimes rts' c1) ∧ grows s (put_runtimes rts' c1).
Proof.
  intros Hs Hk Eu Hc Hrt Eur P E1 E2 E3 E4.
  destruct (create_managed u q n s c1 g Hs Hk Eu Hc) as (R' & Htok & Ec & Hl & Hl'). rewrite Ec, with_runners_put. cbn [ct_runners with_runners].
  pose proof (proj1 (to_linked _ _ (co_runtimes _ Hs) rt Hrt)) as Hpos.
  apply (replaced_step s rt r'); [done..|congruence|left; lia|congruence|done|done| |].
  - intros x Hx N Hlx. apply Hl; [done|]. intros E. apply N, (only_runtime s); [done..|congruence].
  - apply Hl'; [done|done|lia|]. intros [E|E]; congruence.
Qed.

Lemma claim_provisioning_steps user prefix key artifact region url up now stale clock id token fault :
  steps anything (claim_managed_runtime_provisioning user prefix key artifact region url up now stale clock id token fault).
Proof.
  unfold claim_managed_runtime_provisioning. apply steps_pure. intros u Eu%require_user_idem. apply steps_pure. intros art _.
  apply steps_pure. intros reg _. apply steps_pure. intros n _. apply steps_pure. intros _ _. apply steps_pure. intros name _.
  apply steps_transaction. intros s s' b Hs Hb. cbv zeta in Hb. destruct (List.find (of_owner u) (runtimes s)) as [rt|] eqn:Ef.
  - destruct (negb _); [done|]. apply find_in in Ef as [Hrt Eo]. unfold of_owner in Eo. breflect.
    apply bind_error_ok in Hb as ([c1 g] & Hc & Hb). apply bind_error_ok in Hb as (c2 & Hu & Hb). cbn [fst snd] in *.
    destruct (List.find (of_owner u) (runtimes c2)); [|done]. injection Hb as <- _. apply update_runtime_ok in Hu as [-> Hcf].
    assert (Er : runtimes c1 = runtimes s) by (destruct (create_managed u (managed_request reg url id token) n s c1 g Hs eq_refl Eu Hc) as (_ & _ & -> & _); done).
    rewrite Er in *. set (f := fun r => set_runner _ _ _ _ _ _ r) in *.
    assert (Ho : of_owner u rt = true) by by apply bool_decide_eq_true_2.
    apply (create_managed_user s u (managed_request reg url id token) n rt _ (f rt) c1 g Hs eq_refl Eu Hc); try done; [|cbn; lia].
    apply (replaced_update (ct_runners s)); [apply Hs|done|done| |].
    + intros x Hx Hox. unfold of_owner in Hox. breflect. apply (only_runtime s); [done..|congruence].
    + intros x Hx N. apply Hcf; [done..|]. unfold of_owner. apply bool_decide_eq_false_2. intros E. apply N, (only_runtime s); [done..|congruence].
  - apply bind_error_ok in Hb as ([c1 g] & Hc & Hb). apply bind_error_ok in Hb as (c2 & Hu & Hb). cbn [fst snd] in *.
    destruct (List.find (of_owner u) (runtimes c2)); [|done]. injection Hb as <- _. apply insert_runtime_ok in Hu as [-> Hcf].
    destruct (create_managed u (managed_request reg url id token) n s c1 g Hs eq_refl Eu Hc) as (R' & Htok & Ec & Hl & Hl'). rewrite Ec in *. clear Ec.
    apply (inserted_step s _ (ct_runners c1)); [exact Hs|exact Hcf|exact R'|exact Htok| |].
    + intros x Hx Hlx. apply Hl; [done|]. intros E. specialize (Hcf x Hx). unfold conflicts in Hcf. by breflect.
    + apply Hl'; [done|done|done|]. by intros [|].
Qed.

(** ** Activation *)

Lemma update_kind_ok id k c c' : update_kind id k c = Ok c' → c' = with_runners (update (is_runner id) (set_kind k) (ct_runners c)) c
  ∧ ∀ x y, x ∈ ct_runners c → rn_id x = id → y ∈ ct_runners c → rn_id y ≠ id → owner y ≠ (rn_user x, k).
Proof.
  unfold update_kind. intros Hb. apply bind_error_ok in Hb as (z0 & _ & Hb). apply bind_error_ok in Hb as (z1 & Hg & [= <-]).
  split; [done|]. intros x y Hx Ex Hy Ey Eo. apply guard_ok in Hg. rewrite forallb_forall in Hg. specialize (Hg x).
  rewrite filter_In, <- list_elem_of_In in Hg. unfold is_runner in Hg. rewrite (bool_decide_eq_true_2 (rn_id x = id)) in Hg by done.
  specialize (Hg (conj Hx eq_refl)). breflect. apply not_true_iff_false in Hg. apply Hg, existsb_exists. exists y.
  rewrite <- list_elem_of_In, bool_decide_eq_false_2 by done. split; [done|]. by apply owned_owner.
Qed.

Lemma update_kind_runners id k l : runners_ok l → (∀ x y, x ∈ l → rn_id x = id → y ∈ l → rn_id y ≠ id → owner y ≠ (rn_user x, k)) →
  runners_ok (update (is_runner id) (set_kind k) l).
Proof.
  intros [H1 H2 H3] Hk. split.
  - by rewrite map_update.
  - apply NoDup_update; [done|..]; intros x y Hx Hy Ex Ey; unfold is_runner in *; breflect.
    + apply (NoDup_map_eq rn_id l); [done|done|done|congruence].
    + intros E. by apply (Hk x y Hx Ex Hy Ey).
  - intros r (x & Hx & ->)%in_update. specialize (H3 x Hx). by destruct (is_runner id x).
Qed.

Lemma delete_none {A} (p : A → bool) l : (∀ x, x ∈ l → p x = false) → delete_rows p l = l.
Proof.
  unfold delete_rows. induction l as [|x l IH]; intros Hp; [done|]. cbn. rewrite (Hp x) by left. cbn. f_equal.
  apply IH. intros y Hy. apply Hp. by right.
Qed.

Lemma delete_runners_same p c : (∀ r, r ∈ runtimes c → rt_runner r ∉ map rn_id (List.filter p (ct_runners c))) →
  delete_runners p c = with_runners (delete_rows p (ct_runners c)) c.
Proof.
  intros Hn. unfold delete_runners. rewrite delete_none; [by destruct c as [[]]|].
  intros r Hr. apply bool_decide_eq_false_2. by apply Hn.
Qed.

(** The rows that a promotion leaves. *)
Section Promotion.
Context (s : control) (rt : runtime) (user : pystr) (generation : Z) (cand sprite artifact : pystr) (n clock : Z)
  (job token : pystr).

Definition promoted_runners : list runner :=
  update (is_runner cand) (set_kind Managed) (update (is_runner (rt_runner rt)) (set_kind ManagedRetired)
    (delete_rows (owned_runner user ManagedRetired)
       (update (the_managed (rt_runner rt) user) (set_revoked n) (ct_runners s)))).
Definition source_runtime (r : runtime) : bool := of_owner user r && of_generation generation r && in_status RuntimeReady r.
Definition promoted_runtimes : list runtime :=
  update source_runtime (set_runner cand sprite RuntimeReady (generation + 1) artifact clock) (runtimes s).
Definition promoted_tables : tables :=
  with_runtimes promoted_runtimes (with_operations (update (activated user job token generation n)
    (activate_operation generation n) (tb_operations (ct_tables s))) (ct_tables s)).
Definition promoted_identities : list identity :=
  if identities_tracked (rt_sprite rt) sprite s then
    update (candidate_identity sprite user job) (set_identity RuntimeIdentity None IdentityActive n)
      (update (source_identity (rt_sprite rt) user) (fun i => set_identity (id_kind i) (id_job i) IdentityRetired n i) (ct_identities s))
  else ct_identities s.

Context (Hs : control_ok s) (Hrt : rt ∈ runtimes s) (Hu : rt_user rt = user).

Lemma no_retired_linked r : r ∈ runtimes s →
  rt_runner r ∉ map rn_id (List.filter (owned_runner user ManagedRetired)
    (update (the_managed (rt_runner rt) user) (set_revoked n) (ct_runners s))).
Proof.
  intros Hr (x & Hx & Ei & Ho)%deleted_rows. apply owned_owner in Ho. apply in_update in Hx as (y & Hy & ->).
  assert (Ey : rn_id y = rt_runner r ∧ owner y = (user, ManagedRetired)) by by destruct (the_managed _ _ y).
  destruct Ey as [E1 E2]. pose proof (linked_runner_is s r y Hs Hr Hy E1). congruence.
Qed.

(** A promotion that is not rolled back has these rows, and met no conflict. *)
Lemma promote_ok c' : promote rt user generation cand sprite artifact n clock job token s = Ok (Some c') →
  ct_tables c' = promoted_tables ∧ ct_runners c' = promoted_runners ∧ ct_identities c' = promoted_identities
  ∧ Forall (fun g => gd_user g = user) (ct_guards c') ∧ runners_ok promoted_runners
  ∧ count (activated user job token generation n) (tb_operations (ct_tables s)) = 1
  ∧ ∀ r x, r ∈ runtimes s → source_runtime r = true → x ∈ runtimes s → source_runtime x = false →
      conflicts (set_runner cand sprite RuntimeReady (generation + 1) artifact clock r) x = false.
Proof.
  unfold promote. intros Hb. apply bind_error_ok in Hb as (c1 & Hg & Hb). unfold insert_guard in Hg.
  apply bind_error_ok in Hg as (z0 & _ & [= <-]).
  rewrite delete_runners_same in Hb by exact no_retired_linked. cbv zeta in Hb.
  apply bind_error_ok in Hb as (c2 & H2 & Hb). apply update_kind_ok in H2 as [-> K2].
  apply bind_error_ok in Hb as (c3 & H3 & Hb). apply update_kind_ok in H3 as [-> K3].
  apply bind_error_ok in Hb as (c4 & H4 & Hb). apply update_runtime_ok in H4 as [-> K4].
  assert (R' : runners_ok promoted_runners).
  { apply update_kind_runners; [apply update_kind_runners; [|exact K2]|exact K3].
    apply runners_delete. apply (co_runners _ (proj1 (set_revoked_step s (the_managed (rt_runner rt) user) n Hs))). }
  assert (Hg : Forall (fun g => gd_user g = user) (ct_guards s ++ [{| gd_user := user; gd_job := job; gd_token := token |}]))
    by (rewrite (co_guards _ Hs); by apply Forall_singleton).
  unfold promoted_identities. cbn [ct_tables ct_runners ct_identities ct_guards with_tables with_runners with_identities with_guards
    revoke_managed fst put_runtimes tb_operations with_runtimes] in Hb.
  destruct (negb _) in Hb; [done|].
  destruct (Z.eqb_spec (count (activated user job token generation n) (tb_operations (ct_tables s))) 1) as [Ec|Nc];
    cbn [negb] in Hb; [|done].
  destruct (identities_tracked _ _ s); [destruct (negb _) in Hb; [done|]|]; injection Hb as <-; by split_and!.
Qed.

(** What becomes of a row that is not deleted. *)
Definition promote_row (y : runner) : runner :=
  let y := if the_managed (rt_runner rt) user y then set_revoked n y else y in
  let y := if is_runner (rt_runner rt) y then set_kind ManagedRetired y else y in
  if is_runner cand y then set_kind Managed y else y.

Lemma in_promoted y : y ∈ ct_runners s → owner y ≠ (user, ManagedRetired) → promote_row y ∈ promoted_runners.
Proof.
  intros Hy Ho. apply in_update. eexists. split; [|reflexivity]. apply in_update. eexists. split; [|reflexivity].
  apply in_delete. split; [apply in_update; by exists y|]. apply not_true_iff_false. intros E%owned_owner. apply Ho.
  by destruct (the_managed _ _ y).
Qed.

Context (candidate : runner) (Hcand : candidate ∈ ct_runners s) (Hid : rn_id candidate = cand)
  (Ho : owner candidate = (user, ManagedRestore)).

Lemma same_id x y : x ∈ ct_runners s → y ∈ ct_runners s → rn_id x = rn_id y → x = y.
Proof. intros Hx Hy E. apply (NoDup_map_eq rn_id (ct_runners s)); [apply (co_runners _ Hs)|done..]. Qed.

(** A row that is not of the account's source or candidate stays as it is, but
    for a revocation. *)
Lemma promoted_kept y : y ∈ ct_runners s → rn_kind y = Byoc → promote_row y = y.
Proof.
  intros Hy Ek. unfold promote_row, the_managed, is_runner.
  assert (Nr : rn_id y ≠ rt_runner rt).
  { intros E. pose proof (linked_runner_is s rt y Hs Hrt Hy E) as Eo. unfold owner in Eo. congruence. }
  rewrite (bool_decide_eq_false_2 (rn_id y = rt_runner rt)) by done. cbn [andb].
  rewrite (bool_decide_eq_false_2 (rn_id y = rt_runner rt)) by done. rewrite bool_decide_eq_false_2; [done|].
  intros E. rewrite (same_id y candidate) in Ek by (congruence || done). unfold owner in Ho. congruence.
Qed.

Lemma promoted_rows : rows_from fresh lapsed (ct_runners s) promoted_runners.
Proof.
  split.
  - assert (T : rows_from fresh (fun _ => False) (ct_runners s) promoted_runners); [|apply T].
    unfold promoted_runners. etransitivity; [|apply rows_update; [by right|done|done]].
    etransitivity; [|apply rows_update; [by right|done|done]]. etransitivity; [apply (rows_update _ _ _ (the_managed (rt_runner rt) user) (set_revoked n)); done|].
    apply rows_delete. intros r _ E Ek. apply owned_owner in E. unfold owner in E. congruence.
  - intros y Hy Ek _ E. exists y. split; [|done]. rewrite <- (promoted_kept y Hy Ek) at 1. apply in_promoted; [done|].
    unfold owner. congruence.
Qed.

Lemma promoted_linked x : x ∈ runtimes s → x ≠ rt → linked (ct_runners s) x → linked promoted_runners x.
Proof.
  intros Hx N (Hg & y & Hy & E1 & E2 & E3). split; [done|].
  assert (Nu : rt_user x ≠ user) by (intros E; apply N, (only_runtime s); [done..|congruence]).
  assert (Nr : rt_runner x ≠ rt_runner rt).
  { intros E. apply N. apply (NoDup_map_eq rt_runner (runtimes s)); [apply (to_runners _ _ (co_runtimes _ Hs))|done..]. }
  assert (Ep : promote_row y = y).
  { unfold promote_row, the_managed, is_runner. rewrite (bool_decide_eq_false_2 (rn_id y = rt_runner rt)) by congruence.
    cbn [andb]. rewrite (bool_decide_eq_false_2 (rn_id y = rt_runner rt)) by congruence.
    rewrite bool_decide_eq_false_2; [done|]. intros E. rewrite (same_id y candidate) in E2 by (congruence || done). congruence. }
  exists y. rewrite <- Ep at 1. split_and!; [apply in_promoted; [done|congruence]|done..].
Qed.

Lemma promoted_link : linked promoted_runners (set_runner cand sprite RuntimeReady (generation + 1) artifact clock rt) ↔ 0 < generation + 1.
Proof.
  split; [by intros []|]. intros Hg. split; [done|]. exists (promote_row candidate).
  assert (Nr : rn_id candidate ≠ rt_runner rt).
  { intros E. pose proof (linked_runner_is s rt candidate Hs Hrt Hcand E). congruence. }
  assert (Ep : promote_row candidate = set_kind Managed candidate).
  { unfold promote_row, the_managed, is_runner. rewrite (bool_decide_eq_false_2 (rn_id candidate = rt_runner rt)) by done.
    cbn [andb]. rewrite (bool_decide_eq_false_2 (rn_id candidate = rt_runner rt)) by done.
    by rewrite bool_decide_eq_true_2. }
  split_and!; [apply in_promoted; [done|congruence]|by rewrite Ep| |by intros [|]].
  rewrite Ep. unfold owner in *. cbn. congruence.
Qed.

Lemma source_only r : r ∈ runtimes s → source_runtime r = true → r = rt.
Proof. intros Hr E. unfold source_runtime, of_owner in E. breflect. apply (only_runtime s); [done..|congruence]. Qed.

(** They are sound, and follow from the ones before. *)
Lemma promoted_step c' : promote rt user generation cand sprite artifact n clock job token s = Ok (Some c') →
  source_runtime rt = true →
  let c := with_guards (delete_rows (fun g => bool_decide (gd_user g = user)) (ct_guards c')) c' in
  control_ok c ∧ grows s c.
Proof.
  intros (Et & Er & Ei & Eg & R' & Ec & Hcf)%promote_ok Hsrc c. unfold c.
  assert (Hgen : rt_generation rt = generation) by (unfold source_runtime, of_generation in Hsrc; by breflect).
  assert (P : replaced (runtimes s) rt (set_runner cand sprite RuntimeReady (generation + 1) artifact clock rt) promoted_runtimes).
  { apply (replaced_update (ct_runners s)); [apply Hs|done|done|by intros x; apply source_only|].
    intros x Hx N. apply Hcf; [done..|]. apply not_true_iff_false. intros E. by apply N, source_only. }
  pose proof (proj1 (to_linked _ _ (co_runtimes _ Hs) rt Hrt)) as Hpos.
  destruct (replaced_step s rt (set_runner cand sprite RuntimeReady (generation + 1) artifact clock rt) promoted_runtimes
    promoted_runners) as [[S R T M I G] [Gc Gt Ga]]; try done.
  - left. cbn. lia.
  - apply promoted_rows.
  - intros x Hx N. by apply promoted_linked.
  - apply promoted_link. lia.
  - assert (Ex : promoted_tables = (exec (Activate user job token generation (Some n) promoted_runtimes) NoFault (ct_tables s)).1).
    { cbn [exec timestamp st_lift st_bind]. unfold answering, st_bind, st_lift, transaction. cbn [timestamp]. by rewrite Ec. }
    split; split; cbn; rewrite ?Er, ?Ei, ?Et; try done.
    + rewrite Ex. apply exec_sound, Hs.
    + unfold runtimes. cbn. by rewrite Et.
    + unfold runtimes. cbn. rewrite Et. intros o' (o & Hin & ->)%in_update Hr Hk.
      destruct (M o Hin) as (r & Hr1 & E1 & E2 & E3); [by destruct (activated _ _ _ _ _ o)|by destruct (activated _ _ _ _ _ o)|].
      exists r. by destruct (activated _ _ _ _ _ o).
    + unfold promoted_identities. destruct (identities_tracked _ _ s); [|done]. by rewrite !map_update.
    + clear -Eg. induction Eg as [|g l Hg Hl IH]; [done|]. cbn. by rewrite bool_decide_eq_true_2.
    + rewrite Ex. apply by_catalog_exec.
    + unfold runtimes in *. cbn. by rewrite Et.
Qed.
End Promotion.

Lemma activate_steps user g cand sprite artifact now clock job token fault :
  steps anything (activate_managed_restore_candidate user g cand sprite artifact now clock job token fault).
Proof.
  unfold activate_managed_restore_candidate. apply steps_pure. intros u _. apply steps_pure. intros z _. do 5 (apply steps_pure; intros ? _).
  apply steps_pure. intros n _. apply steps_transaction. intros s s' b Hs Hb. unfold activation in Hb.
  destruct (List.find _ (runtimes s)) as [rt|] eqn:Ef; [|done].
  destruct (find_runner _ s) as [cd|] eqn:Ed; [|done]. destruct (negb _); [done|]. destruct (negb _); [done|].
  destruct (promote _ _ _ _ _ _ _ _ _ _ s) as [[c|]|e] eqn:Ep; [|done|by destruct (caught e _)]. injection Hb as <- <-.
  apply find_in in Ef as [Hrt Hsrc], Ed as [Hcd Hc]. change (source_runtime u g rt = true) in Hsrc.
  assert (Eu : rt_user rt = u) by (unfold source_runtime, of_owner in Hsrc; by breflect). unfold candidate_runner in Hc. breflect.
  eapply promoted_step; [done|done|done|exact Hcd| |by apply owned_owner|exact Ep|exact Hsrc].
  unfold is_runner in *. by breflect.
Qed.

(** ** Identities *)

Lemma identities_step s l : control_ok s → NoDup (map id_sprite l) → control_ok (with_identities l s) ∧ grows s (with_identities l s).
Proof. intros [S R T M I G] Hl. split; [by split|]. split; [apply catalog_same|done|apply aged_same]. Qed.

Lemma register_identity_steps sprite kind user job status now fault :
  steps anything (register_managed_sprite_identity sprite kind user job status now fault).
Proof.
  unfold register_managed_sprite_identity. do 3 (apply steps_pure; intros ? _). apply steps_pure. intros n _.
  apply steps_transaction. intros s s' b Hs Hb. destruct (find_identity sprite s) as [i|] eqn:Ef.
  - apply bind_error_ok in Hb as (z0 & _ & [= <- <-]). apply identities_step; [done|]. rewrite map_update; [apply Hs|done].
  - injection Hb as <- <-. apply identities_step; [done|]. apply NoDup_snoc; [apply Hs|]. intros i Hi. cbn.
    intros E. apply (find_none_in _ _ i) in Ef; [|done]. apply bool_decide_eq_false in Ef. congruence.
Qed.

Lemma remove_identity_steps sprite fault : steps anything (remove_managed_sprite_identity sprite fault).
Proof.
  unfold remove_managed_sprite_identity. apply steps_pure. intros _ _. apply steps_transaction. intros s s' b Hs [= <- <-].
  apply identities_step; [done|]. apply NoDup_delete, Hs.
Qed.

(** ** Every call *)

(** The bearer tokens, as hashes, that a call may issue, the runtime that it
    may remove, and the account that it asks to register a runner of its own. *)
Definition draws (c : control_call) (h : pystr) : Prop :=
  match c with RegisterRunner _ _ _ fresh_token _ _ _ _ => hash_token fresh_token = Ok h | _ => False end.
Definition removes (c : control_call) (user : pystr) : Prop :=
  match c with FinalizeDeletion u _ _ => require_user_id u = Ok user | _ => False end.
Definition registers (c : control_call) (user : pystr) : Prop :=
  match c with CreateRegistration u _ _ _ => require_user_id u = Ok user | _ => False end.

Lemma body_steps c : offered c → (∀ h, draws c h → fresh h) → (∀ u, removes c u → ¬ users u) →
  (∀ u, registers c u → ¬ lapsed u) → steps anything (body c).
Proof.
  intros Hof Hd Hr Hg. destruct c; cbn [body]; apply steps_discard.
  - apply catalog_steps. match goal with c : call |- _ => by destruct c; cbn in *; tauto end.
  - apply create_registration_steps; [cbn in Hof; congruence|exact Hg].
  - apply create_restore_steps.
  - apply revoke_runner_steps.
  - apply revoke_restore_steps.
  - apply revoke_restore_job_steps.
  - apply register_steps, Hd.
  - apply authenticate_steps.
  - apply heartbeat_steps.
  - apply confirm_steps.
  - apply claim_deletion_steps.
  - apply finalize_steps, Hr.
  - apply refresh_steps.
  - apply mark_ready_steps.
  - apply mark_failed_steps.
  - apply reconcile_steps.
  - apply claim_provisioning_steps.
  - apply activate_steps.
  - apply register_identity_steps.
  - apply remove_identity_steps.
Qed.
End Runners.
