(* ===== verification/ControlScenario.v ===== *)
(** * A day of the control database

    Calls of [ControlSystem] as they follow each other when an account gets a
    managed runtime, backs it up, restores the backup onto another runner and
    connects a runner of its own. The theorems of [ControlSpec] and
    [ControlActivation] are applied to these. *)

From S2P Require Import Prelude Text Json JsonBytes Crypto RunnerNoise RunnerCapabilities Transactions.
From S2P Require Import ManagedBackups ManagedBackupsSpec RunnerStorage Runners ManagedRunners ControlSystem.

Module Scenario.
(** A digest that keeps short texts apart. *)
#[export] Instance sha : Sha256 := fun m => take 32 (m ++ repeat 0 32).
#[export] Existing Instance toy_x25519.
#[export] Existing Instance toy_float.
#[export] Existing Instance toy_ed25519.
#[export] Existing Instance toy_ed25519_raw.
#[export] Existing Instance toy_hkdf.

(** One call, without others in between; the programs have four steps at most. *)
Definition one (i : nat) (c : control_call) : list (event control_call) := Start c :: repeat (Step i) 4.
Fixpoint sequence (i : nat) (l : list control_call) : list (event control_call) :=
  match l with
  | [] => []
  | c :: r => one i c ++ sequence (S i) r
  end.

Definition user : pystr := u"user-1".
Definition key : pystr := b64url_encode (repeat 9 32).
Definition secret : pystr := repeat 115 32.
Definition report : runner_report := {|
  rp_version := u"1.0"; rp_capabilities := []; rp_data_dir := u"/var/lib/yinshi"; rp_sqlite_dir := None;
  rp_shared_files_dir := None; rp_profile := u"fly_sprites_posix" |}.
Definition own_report : runner_report := {|
  rp_version := u"1.0"; rp_capabilities := []; rp_data_dir := u"/var/lib/yinshi"; rp_sqlite_dir := None;
  rp_shared_files_dir := None; rp_profile := u"aws_ebs_s3_files" |}.
Definition digest : pystr := repeat 97 64.

(** The runtime of the account becomes ready. *)
Definition provisioned : list control_call :=
  [ClaimProvisioning user (u"yinshi") secret (u"v1") (u"fra") (u"https://control") false (Some 1000) 900 1000
     (u"runner-1") (u"token-1") NoFault;
   RegisterRunner (u"token-1") report (Some key) (u"bearer-1") 1010 1010 secret NoFault;
   MarkReady user 1 (Some 1020) NoFault].

(** A backup of it is made, and a restore begins on another runner. *)
Definition restoring : list control_call :=
  [Catalog (StartCreation user 1 (u"archive-1") (u"job-1") (u"objects/1") [1] (u"key-1") digest (Some 1030)) NoFault;
   Catalog (ClaimDue (u"worker") (u"lease-1") (Some 1040) (Some 1100)) NoFault;
   Catalog (UploadIntent (u"job-1") (u"lease-1") 1 7 digest (Some 1050)) NoFault;
   Catalog (CompleteCreation user (u"job-1") (Some (u"lease-1")) 1 7 digest (Some (u"version-1")) (Some 1060)) NoFault;
   Catalog (StartRestore false user (u"archive-1") 1 (u"job-2") (Some 1070)) NoFault;
   Catalog (ClaimDue (u"worker") (u"lease-2") (Some 1080) (Some 1200)) NoFault;
   CreateRestoreRegistration user (u"job-2") (u"Restore") (u"fra") (u"https://control") (u"runner-2") (u"token-2") 1090 NoFault;
   RegisterRunner (u"token-2") report (Some key) (u"bearer-2") 1095 1095 secret NoFault].

Definition switch (fault : store_fault) : prog control bool :=
  activate_managed_restore_candidate user 1 (u"runner-2") (u"sprite-2") (u"v2") (Some 1100) 1100 (u"job-2") (u"lease-2") fault.

Definition switching : control_call :=
  ActivateCandidate user 1 (u"runner-2") (u"sprite-2") (u"v2") (Some 1100) 1100 (u"job-2") (u"lease-2") NoFault.

(** The account connects a runner of its own. *)
Definition own_request : registration_request := {|
  rq_name := u"Mine"; rq_provider := u"aws"; rq_region := u"eu-1"; rq_profile := u"aws_ebs_s3_files";
  rq_control_url := u"https://control"; rq_kind := Byoc; rq_fresh_id := u"runner-3"; rq_fresh_token := u"token-3" |}.
Definition connected : list control_call :=
  [CreateRegistration user own_request 2000 NoFault;
   RegisterRunner (u"token-3") own_report (Some key) (u"bearer-3") 2010 2010 secret NoFault].

Definition again : list control_call :=
  [CreateRegistration user own_request 2100 NoFault;
   RegisterRunner (u"token-3") own_report (Some key) (u"bearer-4") 2110 2110 secret NoFault].

(** The first rows, to speak of them. *)
Definition blank_runner : runner := pending_row [] [] Byoc [] [] [] [] 0 [].
Definition blank_runtime : runtime := {|
  rt_user := []; rt_runner := []; rt_sprite := []; rt_status := RuntimeFailed; rt_generation := 0; rt_artifact := [];
  rt_created := 0; rt_updated := 0; rt_error := None |}.
Definition first_runner (c : control) : runner := List.hd blank_runner (ct_runners c).
Definition first_runtime (c : control) : runtime := List.hd blank_runtime (runtimes c).

Lemma sequence_starts i l c : Start c ∈ sequence i l → c ∈ l.
Proof.
  revert i. induction l as [|d r IH]; intros i; [by intros ?%elem_of_nil|]. cbn [sequence one app repeat].
  intros Hc. repeat (apply elem_of_cons in Hc as [[= <-]|Hc]; [by left|]).
  repeat (apply elem_of_cons in Hc as [Hc|Hc]; [done|]). right. by apply (IH (S i)).
Qed.
End Scenario.
