(* ===== verification/ControlSpec.v ===== *)
(** * What the control database promises

    Over every interleaving of the calls of [ControlSystem], in any number of
    threads, with connections that die and commits that fail: the tables are
    sound, the catalog of backups changes only by its own calls, a bearer
    token is dead once its runner is revoked, generations of runtimes only
    grow and fence the calls of earlier ones, and an activation happens as a
    whole or not at all. *)

From S2P Require Import Prelude Text Json JsonBytes Crypto RunnerNoise RunnerCapabilities Transactions.
From S2P Require Import ManagedBackups ManagedBackupsSpec RunnerStorage Runners ManagedRunners ControlSystem.
From S2P Require Import ControlSteps ControlScenario.

Section Control.
Context {SHA : Sha256} {X : X25519} {FL : PyFloat} {ED : Ed25519} {RAW : Ed25519Raw} {H : Hkdf}.

Definition idle_control : threads control control_call unit := {| th_state := empty_control; th_calls := [] |}.

(** The states that calls reach, in any interleaving. *)
Definition all_offered (l : list (event control_call)) : Prop := ∀ c, Start c ∈ l → offered c.
Definition reached (l : list (event control_call)) : threads control control_call unit := happens body l idle_control.

(** ** The rest of every call behaves *)

Definition behaves (c : control_call) (p : prog control unit) : Prop :=
  ∀ fresh users lapsed, (∀ h, draws c h → fresh h) → (∀ u, removes c u → ¬ users u) → (∀ u, registers c u → ¬ lapsed u) →
    steps fresh users lapsed anything p.

Lemma behaves_step c f k s : behaves c (Atomic f k) → control_ok s → control_ok (f s) ∧ behaves c (k s).
Proof.
  intros Hb Hs. split.
  - destruct (Hb (draws c) (fun u => ¬ removes c u) (fun u => ¬ registers c u)) with (s := s) as (? & _); auto.
  - intros fresh users lapsed Hd Hr Hg. by destruct (Hb fresh users lapsed Hd Hr Hg s Hs) as (_ & _ & ?).
Qed.

Lemma reached_behaves l : all_offered l →
  control_ok (th_state (reached l)) ∧ Forall (fun cp => behaves cp.1 cp.2) (th_calls (reached l)).
Proof.
  intros Hl. unfold reached. apply (threads_calls body control_ok behaves offered).
  - intros c Hc fresh users lapsed Hd Hr Hg. by apply body_steps.
  - intros c e fresh users lapsed _ _ _. exact Logic.I.
  - apply behaves_step.
  - apply empty_control_ok.
  - apply Forall_nil_2.
  - exact Hl.
Qed.

(** What calls do from a state that is reached, if none of them, nor one that
    has not returned yet, draws a token that is not fresh, removes a runtime
    of the users or registers a runner of a lapsed account; calls that returned
    do nothing. *)
Lemma reached_grows l k fresh users lapsed (P : control_call → Prop) s : all_offered l → all_offered k →
  (∀ c h, P c → draws c h → fresh h) → (∀ c u, P c → removes c u → ¬ users u) →
  (∀ c u, P c → registers c u → ¬ lapsed u) →
  Forall (fun cp => returned cp.2 = true ∨ P cp.1) (th_calls (reached l)) → (∀ c, Start c ∈ k → P c) → control_ok s →
  let m := happens body k {| th_state := s; th_calls := th_calls (reached l) |} in
  control_ok (th_state m) ∧ grows fresh users lapsed s (th_state m).
Proof.
  intros Hl Hk Hd Hr Hg HF HP Hs m. destruct (reached_behaves l Hl) as [_ Hb].
  destruct (threads_ensure body control_ok (grows fresh users lapsed) (fun c => offered c ∧ P c) k
    {| th_state := s; th_calls := th_calls (reached l) |}) as (H1 & H2 & _); [|done| | |done].
  - intros c [Ho Hp]. apply body_steps; [done|by intros h; apply Hd|by intros u; apply Hr|by intros u; apply Hg].
  - cbn. eapply Forall_and_impl; [exact HF|exact Hb|]. cbn. intros [c [r|f p]] [Hp|Hp] Hbeh; try done; apply Hbeh;
      [by intros h; apply Hd|by intros u; apply Hr|by intros u; apply Hg].
  - intros c Hc. split; [by apply Hk|by apply HP].
Qed.

(** C36. In every interleaving of the calls that the program makes
    ([all_offered]: an account registers a runner of its own kind): the tables of runners, runtimes,
    identities and backups are sound, and agree. Each account has one runner
    of each kind; a revoked runner has no token; every runtime has the managed
    runner of its account, revoked once the runtime failed or is being
    deleted; a runtime under a running backup or restore is not deleted and
    not of an earlier generation than the operation; and no activation guard
    outlives its transaction. *)
Theorem control_tables_sound l : all_offered l → control_ok (th_state (reached l)).
Proof. intros Hl. by apply reached_behaves. Qed.

(** ** Bearer tokens *)

Lemma tokens_absent fresh s s' id h : tokens_from fresh (ct_runners s) (ct_runners s') → ¬ fresh h →
  (∀ x, x ∈ ct_runners s → rn_id x = id → rn_token x ≠ Some h) → ∀ x, x ∈ ct_runners s' → rn_id x = id → rn_token x ≠ Some h.
Proof.
  intros Hf Hh Ha x Hx E Et. destruct (Hf x h Hx Et) as [F|(y & Hy & Ey & Ty)]; [done|]. apply (Ha y Hy); [congruence|done].
Qed.

Lemma authenticate_token s token h x : hash_token token = Ok h → (alone (authenticate_runner_token token) s).2 = Ok x →
  ∃ r, r ∈ ct_runners s ∧ rn_token r = Some h ∧ rn_id r = x.1.1 ∧ rn_revoked r = None.
Proof.
  intros Eh. unfold authenticate_runner_token. rewrite Eh. cbn. destruct (find_runner _ s) as [r|] eqn:Er; [|done].
  destruct (find_in _ _ _ Er) as [Hr Hp]. unfold unrevoked in Hp. breflect.
  destruct (rn_noise_key r) as [[|]|]; cbn; [done| |done]. intros [= <-]. exists r. by split_and!.
Qed.

Lemma revoked_rows s user now u x : require_user_id user = Ok u → control_ok s →
  x ∈ ct_runners (alone (revoke_runner_for_user user now NoFault) s).1 → owner x = (u, Byoc) → rn_token x = None.
Proof.
  intros Eu Hs. unfold revoke_runner_for_user. rewrite Eu. cbn. intros (y & Hy & ->)%in_update Eo.
  destruct (owned_runner u Byoc y && unrevoked y) eqn:Ep; [done|].
  assert (Eo' : owned_runner u Byoc y = true) by by apply owned_owner. rewrite Eo' in Ep. cbn in Ep.
  destruct (ro_rows _ (co_runners _ Hs) y Hy) as [Hrev _]. apply Hrev. unfold unrevoked in Ep. breflect.
  by apply not_eq_None_Some.
Qed.

Lemma revoke_ok s user now : control_ok s → control_ok (alone (revoke_runner_for_user user now NoFault) s).1.
Proof.
  intros Hs. unfold revoke_runner_for_user. destruct (require_user_id user) as [u|]; [|done]. cbn.
  apply (set_revoked_step (fun _ => True) (fun _ => True) (fun _ => True)), Hs.
Qed.

(** No call asks for what [P] says: none that starts in [k], and none of those
    that [l] left in flight. *)
Definition none_asks (P : control_call → Prop) (l k : list (event control_call)) : Prop :=
  Forall (fun cp => returned cp.2 = true ∨ ¬ P cp.1) (th_calls (reached l)) ∧ ∀ c, Start c ∈ k → ¬ P c.

Lemma revoked_row l r user u now z : all_offered l → require_user_id user = Ok u → r ∈ ct_runners (th_state (reached l)) →
  owner r = (u, Byoc) → z ∈ ct_runners (alone (revoke_runner_for_user user now NoFault) (th_state (reached l))).1 →
  rn_id z = rn_id r → owner z = (u, Byoc).
Proof.
  intros Hl Eu Hr Eo Hz Ez. unfold revoke_runner_for_user in Hz. rewrite Eu in Hz. cbn in Hz. apply in_update in Hz as (w & Hw & ->).
  assert (w = r) as ->; [|by destruct (_ && _)].
  apply (NoDup_map_eq rn_id (ct_runners (th_state (reached l)))); [by apply (co_runners _ (proj1 (reached_behaves l Hl)))|done|done|].
  revert Ez. by destruct (_ && _).
Qed.

(** A revoked runner, while its account asks for no other registration. *)
Lemma revoked_stays l k r user u now : all_offered l → all_offered k → require_user_id user = Ok u →
  r ∈ ct_runners (th_state (reached l)) → owner r = (u, Byoc) → none_asks (fun c => registers c u) l k →
  let s := (alone (revoke_runner_for_user user now NoFault) (th_state (reached l))).1 in
  let m := happens body k {| th_state := s; th_calls := th_calls (reached l) |} in
  ∀ y, y ∈ ct_runners (th_state m) → rn_id y = rn_id r → is_Some (rn_revoked y).
Proof.
  intros Hl Hk Eu Hr Eo [HF HP] s m y Hy Ey. pose proof (proj1 (reached_behaves l Hl)) as Hs0.
  destruct (reached_grows l k (fun _ => True) (fun _ => False) (fun v => v = u) (fun c => ¬ registers c u) s Hl Hk) as [Hm [_ [_ G] _]]; try done.
  { by intros c v _ _ []. }
  { by intros c v Hn Hg ->. }
  { by apply revoke_ok. }
  fold m in G, Hm. unfold owner in Eo. injection Eo as Eou Eok.
  assert (Hp : ∃ z, z ∈ ct_runners s ∧ rn_id z = rn_id r ∧ rn_kind z = Byoc ∧ rn_user z = u ∧ is_Some (rn_revoked z)).
  { unfold s, revoke_runner_for_user. rewrite Eu. cbn. eexists. split; [apply in_update; exists r; by split|].
    unfold owned_runner, unrevoked. rewrite Eou, Eok, !bool_decide_eq_true_2 by done. cbn.
    destruct (rn_revoked r) eqn:Er; cbn. split_and!; try done. by eexists. }
  destruct Hp as (z & Hz & Ez & Ekz & Euz & Hrz). destruct (G z Hz Ekz Euz Hrz) as (x & Hx & Ex & _ & Hrx).
  replace y with x; [done|]. apply (NoDup_map_eq rn_id (ct_runners (th_state m))); [apply (co_runners _ Hm)|done|done|congruence].
Qed.

(** C37. After the runner of an account's own is revoked, in any interleaving
    with the calls that had not returned and those that follow: a bearer token
    that none of these calls draws (so one that an earlier registration handed
    out) never authenticates as that runner again, even when the account
    registers the runner again; and as long as none of these calls asks to
    register the account's runner, no token at all authenticates as it, whatever
    registrations were in flight. What is left out does happen: in
    [revoked_token_revived] a registration in flight across both the revocation
    and a new registration takes effect, and its token authenticates. *)
Theorem revoked_tokens_stay_dead l k user u now r token h : all_offered l → all_offered k → require_user_id user = Ok u →
  r ∈ ct_runners (th_state (reached l)) → owner r = (u, Byoc) → hash_token token = Ok h →
  none_asks (fun c => draws c h) l k ∨ none_asks (fun c => registers c u) l k →
  let s := (alone (revoke_runner_for_user user now NoFault) (th_state (reached l))).1 in
  let m := happens body k {| th_state := s; th_calls := th_calls (reached l) |} in
  ∀ x, (alone (authenticate_runner_token token) (th_state m)).2 = Ok x → x.1.1 ≠ rn_id r.
Proof.
  intros Hl Hk Eu Hr Eo Eh Hn s m x Hx Ex. destruct (authenticate_token _ _ _ _ Eh Hx) as (y & Hy & Ty & Iy & Ny).
  destruct Hn as [[HF HP]|Hn].
  2:{ destruct (revoked_stays l k r user u now Hl Hk Eu Hr Eo Hn y Hy) as [z Ez]; congruence. }
  pose proof (proj1 (reached_behaves l Hl)) as Hs0. assert (Hs : control_ok s) by by apply revoke_ok.
  destruct (reached_grows l k (fun h' => h' ≠ h) (fun _ => False) (fun _ => False) (fun c => ¬ draws c h) s Hl Hk) as [_ [_ [G _] _]]; try done.
  { intros c h' Hd1 Hd ->. by apply Hd1. }
  { intros c v _ _ []. }
  { intros c v _ _ []. }
  fold m in G. eapply (tokens_absent _ s (th_state m) (rn_id r) h G); [by intros []| |exact Hy|congruence|exact Ty].
  intros z Hz Ez Tz. rewrite (revoked_rows (th_state (reached l)) user now u z Eu Hs0 Hz) in Tz; [done|].
  by apply (revoked_row l r user u now).
Qed.

(** ** Generations *)

(** The calls by which the owner of a generation acts on the runtime. *)
Definition acts_for (user : pystr) (g : Z) (c : control_call) : Prop :=
  match c with
  | RefreshProvisioning u' g' _ _ | MarkReady u' g' _ _ | MarkFailed u' g' _ _ _ | FinalizeDeletion u' g' _ =>
      require_user_id u' = Ok user ∧ g' = g
  | _ => False
  end.

(** A call that finds no row writes nothing. *)
Definition writes_nothing {A} (p : prog control A) (s : control) : Prop := (alone p s).1 = s.

Lemma nothing_pure {A B} (r : res A) (k : A → prog control B) s : (∀ a, r = Ok a → writes_nothing (k a) s) →
  writes_nothing (prog_bind (pure r) k) s.
Proof. intros Hn. destruct r as [a|e]; [by apply Hn|done]. Qed.

Lemma nothing_transaction {A} fault (t : control → res (option control * A)) s :
  (∀ s' a, t s = Ok (Some s', a) → s' = s) → writes_nothing (atomically (transaction fault t)) s.
Proof.
  intros Ht. unfold writes_nothing. cbn. unfold transaction. destruct fault as [| |d]; [|done|].
  - destruct (t s) as [[[s'|] a]|e] eqn:E; [by apply (Ht s' a)|done|done].
  - destruct (t s) as [[[s'|] a]|e] eqn:E; [|done|done]. destruct d; [by apply (Ht s' a)|done].
Qed.

Lemma nothing_discard {A} (p : prog control A) s : writes_nothing p s → writes_nothing (discard p) s.
Proof. unfold writes_nothing, discard. rewrite alone_bind. by destruct (alone p s) as [s' [a|e]]. Qed.

Lemma replace_none p f s c' n : (∀ r, r ∈ runtimes s → p r = false) → replace_runtime p f s = Ok (c', n) → c' = s ∧ n = 0.
Proof.
  intros Hp Hr. apply replace_ok in Hr as [?|(r & Hf & _)]; [done|]. apply find_in in Hf as [Hr Hpr].
  by rewrite Hp in Hpr.
Qed.

Lemma other_generation s b user g r : control_ok s → b ∈ runtimes s → rt_user b = user → rt_generation b ≠ g → r ∈ runtimes s →
  of_owner user r && of_generation g r = false.
Proof.
  intros Hs Hb Eu Ng Hr. apply not_true_iff_false. intros Hp. unfold of_owner, of_generation in Hp. breflect.
  apply Ng. rewrite <- (only_runtime s r b) by (done || congruence). done.
Qed.

Lemma fenced_call s b user g c : control_ok s → b ∈ runtimes s → rt_user b = user → rt_generation b ≠ g → acts_for user g c →
  writes_nothing (body c) s.
Proof.
  intros Hs Hb Eu Ng Hc. assert (Hno : ∀ r, r ∈ runtimes s → provisioning user g r = false).
  { intros r Hr. unfold provisioning. by rewrite (other_generation s b user g r). }
  destruct c; try done; destruct Hc as [Eu' ->]; apply nothing_discard; unfold finalize_managed_runtime_deletion,
    refresh_managed_runtime_provisioning, mark_managed_runtime_ready, mark_managed_runtime_failed;
    rewrite Eu'; apply nothing_pure; intros u' [= <-]; apply nothing_pure; intros z0 _.
  - apply nothing_transaction. intros s' a Ht. destruct (List.find _ (runtimes s)) as [rt|] eqn:Ef; [|done].
    apply find_in in Ef as [Hrt Hp]. by rewrite (other_generation s b user g rt) in Hp.
  - apply nothing_pure. intros n _. apply nothing_transaction. intros s' a Ht.
    apply bind_error_ok in Ht as ([c' m] & Hr & [= <- _]). by apply replace_none in Hr as [-> _].
  - apply nothing_pure. intros n _. apply nothing_transaction. intros s' a Ht. destruct (joined user s) as [[rt x]|]; [|done].
    apply bind_error_ok in Ht as (d & _ & Ht). destruct (negb _); [done|].
    apply bind_error_ok in Ht as ([c' m] & Hr & [= <- _]). by apply replace_none in Hr as [-> _].
  - apply nothing_pure. intros z1 _. apply nothing_pure. intros n _. apply nothing_transaction. intros s' a Ht.
    destruct (joined user s) as [[rt x]|]; [|done]. destruct (negb _); [done|].
    apply bind_error_ok in Ht as ([c' m] & Hr & Ht). apply replace_none in Hr as [-> ->]; [|done]. done.
Qed.

Lemma pure_result {A B} (r : res A) (k : A → prog control B) s b : (alone (prog_bind (pure r) k) s).2 = Ok b →
  ∃ a, r = Ok a ∧ (alone (k a) s).2 = Ok b.
Proof. destruct r as [a|e]; [|done]. intros Hb. by exists a. Qed.

Lemma transaction_result {A} fault (t : control → res (option control * A)) s a :
  (alone (atomically (transaction fault t)) s).2 = Ok a → ∃ o, t s = Ok (o, a).
Proof.
  cbn. unfold transaction. destruct fault as [| |d]; [|done|]; destruct (t s) as [[[s'|] x]|e]; cbn; intros E; simplify_eq; eauto.
Qed.

(** A claim that succeeds has a generation of its own. *)
Lemma claim_generation s a user prefix key artifact region url up now stale clock id token fault rt g : control_ok s →
  a ∈ runtimes s → require_user_id user = Ok (rt_user a) →
  (alone (claim_managed_runtime_provisioning user prefix key artifact region url up now stale clock id token fault) s).2 = Ok (true, rt, g) →
  rt_generation rt = rt_generation a + 1.
Proof.
  intros Hs Ha Eu Hc. unfold claim_managed_runtime_provisioning in Hc. apply pure_result in Hc as (u & Eu' & Hc).
  assert (u = rt_user a) as -> by congruence. do 5 (apply pure_result in Hc as (? & _ & Hc)).
  apply transaction_result in Hc as (o & Hc). cbv zeta in Hc.
  destruct (List.find (of_owner (rt_user a)) (runtimes s)) as [rt0|] eqn:Ef.
  - apply find_in in Ef as [H0 Ho]. unfold of_owner in Ho. breflect.
    assert (rt0 = a) as -> by by apply (only_runtime s). destruct (negb _); [done|].
    apply bind_error_ok in Hc as ([c1 g1] & _ & Hc). apply bind_error_ok in Hc as (c2 & Hu & Hc). cbn [fst snd] in *.
    destruct (List.find (of_owner (rt_user a)) (runtimes c2)) as [claimed|] eqn:Ec; [|done]. injection Hc as <- <- <-.
    apply update_runtime_ok in Hu as [-> _]. apply find_in in Ec as [Hin Ho']. apply in_update in Hin as (y & Hy & ->).
    destruct (of_owner (rt_user a) y) eqn:Ey; [done|congruence].
  - apply (find_none_in _ _ a) in Ef; [|done]. unfold of_owner in Ef. by breflect.
Qed.

(** C38. Generations fence a runtime: from a state with a runtime, until a call
    removes it, the runtime of the account either keeps its generation, its
    runner, sprite and version, and at most ends its provisioning, or has a
    later generation; a claim of its provisioning that succeeds has a later
    one. Once it has, no call for the earlier generation (to refresh it, to
    mark it ready or failed, or to remove it) writes anything. *)
Theorem runtime_generations_fence l k a : all_offered l → all_offered k → a ∈ runtimes (th_state (reached l)) →
  Forall (fun cp => returned cp.2 = true ∨ ¬ removes cp.1 (rt_user a)) (th_calls (reached l)) → (∀ c, Start c ∈ k → ¬ removes c (rt_user a)) →
  let s := th_state (happens body k (reached l)) in
  (∃ b, b ∈ runtimes s ∧ rt_user b = rt_user a ∧ ages a b
    ∧ (rt_generation b ≠ rt_generation a → ∀ c, acts_for (rt_user a) (rt_generation a) c → writes_nothing (body c) s))
  ∧ ∀ user prefix key artifact region url up now stale clock id token fault rt g, require_user_id user = Ok (rt_user a) →
      (alone (claim_managed_runtime_provisioning user prefix key artifact region url up now stale clock id token fault) s).2 = Ok (true, rt, g) →
      rt_generation a < rt_generation rt.
Proof.
  intros Hl Hk Ha HF HP s. assert (Hs0 : control_ok (th_state (reached l))) by by apply reached_behaves.
  destruct (reached_grows l k (fun _ => True) (fun u => u = rt_user a) (fun _ => False) (fun c => ¬ removes c (rt_user a)) (th_state (reached l)) Hl Hk)
    as [Hs [_ _ G]]; try done.
  { intros c u Hn Hr ->. by apply Hn. }
  { by intros c u _ _ []. }
  replace (happens body k {| th_state := th_state (reached l); th_calls := th_calls (reached l) |}) with (happens body k (reached l)) in *
    by by destruct (reached l).
  fold s in Hs, G. destruct (G a Ha eq_refl) as (b & Hb & Eb & Ab). split.
  - exists b. split_and!; [done..|]. intros Ng c Hc. by apply (fenced_call s b (rt_user a) (rt_generation a)).
  - intros user prefix key artifact region url up now stale clock id token fault rt g Eu Hc.
    rewrite <- Eb in Eu. rewrite (claim_generation s b _ _ _ _ _ _ _ _ _ _ _ _ _ _ _ Hs Hb Eu Hc).
    destruct Ab as [L|(Eg & _)]; lia.
Qed.

(** ** The catalog in the whole system *)

(** C39. The catalog keeps its promises in the whole system: what all calls in
    any interleaving leave of the catalog is what a sequence of its own calls
    leaves, an activation being one; so an archive, once it is in the
    database, stays there and follows its lifecycle whatever the other
    requests do. *)
Theorem system_refines_catalog l k : all_offered l → all_offered k →
  ∃ calls calls', ct_tables (th_state (reached l)) = exec_all calls empty_tables
    ∧ ct_tables (th_state (happens body k (reached l))) = exec_all calls' (ct_tables (th_state (reached l)))
    ∧ ∀ a, a ∈ tb_archives (ct_tables (th_state (reached l))) →
        ∃ b, b ∈ tb_archives (ct_tables (th_state (happens body k (reached l)))) ∧ evolves a b.
Proof.
  intros Hl Hk.
  destruct (reached_grows [] l (fun _ => True) (fun _ => False) (fun _ => False) (fun _ => True) empty_control) as [_ [[calls C] _ _]]; try done.
  { intros c Hc. by apply elem_of_nil in Hc. }
  { by intros c u _ _ []. }
  { by intros c u _ _ []. }
  { apply empty_control_ok. }
  destruct (reached_grows l k (fun _ => True) (fun _ => False) (fun _ => False) (fun _ => True) (th_state (reached l)) Hl Hk) as [_ [[calls' C'] _ _]]; try done.
  { by intros c u _ _ []. }
  { by intros c u _ _ []. }
  { apply Forall_true. by right. }
  { by apply reached_behaves. }
  replace (happens body k {| th_state := th_state (reached l); th_calls := th_calls (reached l) |}) with (happens body k (reached l)) in *
    by by destruct (reached l).
  exists calls, calls'. split_and!; [exact C|exact C'|]. intros a Ha. rewrite C'. apply exec_all_follows; [|done].
  by apply reached_behaves.
Qed.
End Control.

(** ** The calls of the scenario *)
Import Scenario.

Lemma sequence_offered i l : Forall offered l → all_offered (sequence i l).
Proof. intros Hl c Hc. rewrite Forall_forall in Hl. by apply Hl, (sequence_starts i). Qed.

Lemma all_returned {C S A} (P : C → Prop) (l : list (C * prog S A)) : forallb (fun cp => returned cp.2) l = true →
  Forall (fun cp => returned cp.2 = true ∨ P cp.1) l.
Proof. rewrite forallb_forall, Forall_forall. intros Hl cp Hc. left. by apply Hl, list_elem_of_In. Qed.

Lemma all_settled {C S A} (P : C → Prop) (quiet : C → bool) (l : list (C * prog S A)) : (∀ c, quiet c = true → P c) →
  forallb (fun cp => returned cp.2 || quiet cp.1) l = true → Forall (fun cp => returned cp.2 = true ∨ P cp.1) l.
Proof.
  rewrite forallb_forall, Forall_forall. intros Hq Hl cp Hc%list_elem_of_In. specialize (Hl cp Hc).
  apply orb_true_iff in Hl as [Hl|Hl]; [by left|right; by apply Hq].
Qed.

(** Two registrations of the same token, interleaved with a provisioning. *)
Definition interleaved : list (event control_call) :=
  let report := own_report in
  [Start (CreateRegistration user own_request 2000 NoFault); Step 0;
   Start (RegisterRunner (u"token-3") report (Some key) (u"bearer-3") 2010 2010 secret NoFault); Step 1;
   Start (RegisterRunner (u"token-3") report (Some key) (u"bearer-5") 2020 2020 secret NoFault); Step 2;
   Start (ClaimProvisioning user (u"yinshi") secret (u"v1") (u"fra") (u"https://control") false (Some 1000) 900 1000
     (u"runner-1") (u"token-1") NoFault); Step 1; Step 3; Step 2; Kill 2].

Lemma control_tables_sound_witness : control_ok (th_state (reached interleaved)) ∧ List.length (ct_runners (th_state (reached interleaved))) = 2%nat.
Proof.
  split; [|vm_compute; reflexivity]. apply control_tables_sound. intros c Hc. unfold interleaved in Hc.
  repeat (apply elem_of_cons in Hc as [Hc|Hc]; [first [discriminate Hc | injection Hc as ->; exact eq_refl || exact Logic.I]|]).
  by apply elem_of_nil in Hc.
Defined.

(** The one-time token is used twice, and the second use takes the runner
    over: the [UPDATE] of [register_runner] does not ask for the token that its
    [SELECT] found. *)
Lemma registration_token_used_twice :
  let m := reached (take 8 interleaved ++ [Step 1; Step 2]) in
  map (fun cp => match cp.2 with Done (Ok _) => true | _ => false end) (th_calls m) = [true; true; true; false]
  ∧ rn_token (first_runner (th_state m)) = (match hash_token (u"bearer-5") with Ok h => Some h | Raise _ => None end).
Proof. split; vm_compute; reflexivity. Qed.

(** A registration of a runner that has read its row, and is not done yet. *)
Definition in_flight : list (event control_call) :=
  [Start (CreateRegistration user own_request 2000 NoFault); Step 0;
   Start (RegisterRunner (u"token-3") own_report (Some key) (u"bearer-3") 2010 2010 secret NoFault); Step 1].
Definition revoked_after (l k : list (event control_call)) : control :=
  th_state (happens body k {| th_state := (alone (revoke_runner_for_user user 2050 NoFault) (th_state (reached l))).1;
                              th_calls := th_calls (reached l) |}).
Definition identified (token : pystr) (c : control) : option pystr :=
  match (alone (authenticate_runner_token token) c).2 with Ok x => Some x.1.1 | Raise _ => None end.

(** Between the revocation and its own [UPDATE], the account registers again:
    the [UPDATE] asks only that the row be not revoked. *)
Lemma revoked_token_revived :
  identified (u"bearer-3") (revoked_after in_flight [Start (CreateRegistration user own_request 2100 NoFault); Step 2; Step 1]) = Some (u"runner-3")
  ∧ identified (u"bearer-3") (revoked_after in_flight [Step 1]) = None.
Proof. split; vm_compute; reflexivity. Qed.

(** The bearer token of the runner is dead once it is revoked, though the
    account registers the runner again; and so is one that was being drawn,
    as long as it does not. *)
Lemma revoked_tokens_stay_dead_witness : ∃ r r', rn_id r = u"runner-3" ∧ is_Some (rn_token r) ∧ rn_id r' = u"runner-3"
  ∧ (∀ x, (alone (authenticate_runner_token (u"bearer-3")) (revoked_after (sequence 0 connected) (sequence 2 again))).2 = Ok x → x.1.1 ≠ rn_id r)
  ∧ (∀ x, (alone (authenticate_runner_token (u"bearer-3")) (revoked_after in_flight [Step 1])).2 = Ok x → x.1.1 ≠ rn_id r').
Proof.
  exists (first_runner (th_state (reached (sequence 0 connected)))), (first_runner (th_state (reached in_flight))).
  split; [vm_compute; reflexivity|]. split; [vm_compute; by eexists|]. split; [vm_compute; reflexivity|]. split.
  - unfold revoked_after. intros x. refine (revoked_tokens_stay_dead (sequence 0 connected) (sequence 2 again) user user 2050 _ (u"bearer-3")
      (match hash_token (u"bearer-3") with Ok h => h | Raise _ => [] end) _ _ _ _ _ _ _ x).
    + apply sequence_offered. repeat apply Forall_cons_2; [reflexivity|exact Logic.I|apply Forall_nil_2].
    + apply sequence_offered. repeat apply Forall_cons_2; [reflexivity|exact Logic.I|apply Forall_nil_2].
    + reflexivity.
    + replace (ct_runners _) with [first_runner (th_state (reached (sequence 0 connected)))] by (vm_compute; reflexivity).
      apply list_elem_of_here.
    + vm_compute. reflexivity.
    + vm_compute. reflexivity.
    + left. split; [apply (all_returned (fun c => ¬ draws c (match hash_token (u"bearer-3") with Ok h => h | Raise _ => [] end)));
        vm_compute; reflexivity|].
      intros c [->|[->|[]%elem_of_nil]%elem_of_cons]%sequence_starts%elem_of_cons; [by intros []|]. vm_compute. discriminate.
  - unfold revoked_after. intros x. refine (revoked_tokens_stay_dead in_flight [Step 1] user user 2050 _ (u"bearer-3")
      (match hash_token (u"bearer-3") with Ok h => h | Raise _ => [] end) _ _ _ _ _ _ _ x).
    + intros c Hc. unfold in_flight in Hc.
      repeat (apply elem_of_cons in Hc as [Hc|Hc]; [first [discriminate Hc | injection Hc as ->; exact eq_refl || exact Logic.I]|]).
      by apply elem_of_nil in Hc.
    + intros c [Hc|[]%elem_of_nil]%elem_of_cons. discriminate Hc.
    + reflexivity.
    + replace (ct_runners _) with [first_runner (th_state (reached in_flight))] by (vm_compute; reflexivity). apply list_elem_of_here.
    + vm_compute. reflexivity.
    + vm_compute. reflexivity.
    + right. split; [|intros c [Hc|[]%elem_of_nil]%elem_of_cons; discriminate Hc].
      apply (all_settled (fun c => ¬ registers c user) (fun c => match c with CreateRegistration _ _ _ _ => false | _ => true end));
        [intros [] Hq Hg; first [discriminate Hq|exact Hg]|vm_compute; reflexivity].
Defined.

Definition ready_runtime : runtime := first_runtime (th_state (reached (sequence 0 provisioned))).
Definition restored : control := th_state (happens body (sequence 3 (restoring ++ [switching])) (reached (sequence 0 provisioned))).

(** The restore of the scenario moves the runtime to another generation. *)
Lemma runtime_generations_fence_witness :
  rt_user ready_runtime = user ∧ rt_generation ready_runtime = 1 ∧ rt_generation (first_runtime restored) = 2
  ∧ ∃ b, b ∈ runtimes restored ∧ rt_user b = rt_user ready_runtime ∧ ages ready_runtime b
      ∧ (rt_generation b ≠ rt_generation ready_runtime →
         ∀ c, acts_for (rt_user ready_runtime) (rt_generation ready_runtime) c → writes_nothing (body c) restored).
Proof.
  split; [vm_compute; reflexivity|]. split; [vm_compute; reflexivity|]. split; [vm_compute; reflexivity|].
  assert (Ha : ready_runtime ∈ runtimes (th_state (reached (sequence 0 provisioned)))).
  { replace (runtimes _) with [ready_runtime] by (vm_compute; reflexivity). apply list_elem_of_here. }
  destruct (runtime_generations_fence (sequence 0 provisioned) (sequence 3 (restoring ++ [switching])) ready_runtime) as [Hb _].
  - apply sequence_offered. repeat apply Forall_cons_2; [exact Logic.I..|apply Forall_nil_2].
  - apply sequence_offered. repeat apply Forall_cons_2; [exact Logic.I..|apply Forall_nil_2].
  - exact Ha.
  - apply (all_returned (fun c => ¬ removes c (rt_user ready_runtime))). vm_compute. reflexivity.
  - intros c Hc%sequence_starts. repeat (apply elem_of_cons in Hc as [->|Hc]; [by intros []|]). by apply elem_of_nil in Hc.
  - exact Hb.
Defined.

Lemma system_refines_catalog_witness :
  let l := sequence 0 (provisioned ++ restoring) in let k := sequence 11 [switching] in
  List.length (tb_archives (ct_tables (th_state (reached l)))) = 1%nat
  ∧ ∃ calls calls', ct_tables (th_state (reached l)) = exec_all calls empty_tables
    ∧ ct_tables (th_state (happens body k (reached l))) = exec_all calls' (ct_tables (th_state (reached l)))
    ∧ ∀ a, a ∈ tb_archives (ct_tables (th_state (reached l))) →
        ∃ b, b ∈ tb_archives (ct_tables (th_state (happens body k (reached l)))) ∧ evolves a b.
Proof.
  intros l k. split; [vm_compute; reflexivity|]. apply system_refines_catalog; apply sequence_offered;
    repeat apply Forall_cons_2; try exact Logic.I; apply Forall_nil_2.
Defined.
