(* ===== verification/ControlActivation.v ===== *)
(** * The activation of a restored runner happens as a whole

    When the checks of [activate_managed_restore_candidate] pass, its
    statements meet no trigger and no constraint, and the replacement runner
    takes the place of the runtime's; otherwise nothing is written. *)

From S2P Require Import Prelude Text Json JsonBytes Crypto RunnerNoise RunnerCapabilities Transactions.
From S2P Require Import ManagedBackups ManagedBackupsSpec RunnerStorage Runners ManagedRunners ControlSystem.
From S2P Require Import ControlSteps ControlScenario ControlSpec.

(** ** Statements that meet no conflict *)

Lemma forallb_in {A} (p : A → bool) l : (∀ x, x ∈ l → p x = true) → forallb p l = true.
Proof. intros Hp. apply forallb_forall. intros x Hx. by apply Hp, list_elem_of_In. Qed.

Lemma existsb_not {A} (p : A → bool) l : (∀ x, x ∈ l → p x = false) → existsb p l = false.
Proof.
  intros Hp. apply not_true_iff_false. intros (x & Hx & E)%existsb_exists. apply list_elem_of_In in Hx.
  by rewrite Hp in E.
Qed.

Lemma filter_in {A} (p : A → bool) l x : x ∈ List.filter p l ↔ x ∈ l ∧ p x = true.
Proof. by rewrite !list_elem_of_In, filter_In. Qed.

Lemma update_kind_total id k c : (∀ x, x ∈ ct_runners c → rn_id x = id → guarded (rn_user x) c = true) →
  (∀ x y, x ∈ ct_runners c → rn_id x = id → y ∈ ct_runners c → rn_id y ≠ id → owner y ≠ (rn_user x, k)) →
  update_kind id k c = Ok (with_runners (update (is_runner id) (set_kind k) (ct_runners c)) c).
Proof.
  intros Hg Hk. unfold update_kind. rewrite (forallb_in _ (List.filter (is_runner id) (ct_runners c))); cbn [guard res_bind].
  - rewrite forallb_in; [done|]. intros x [Hx Ex]%filter_in. unfold is_runner in Ex. breflect. apply negb_true_iff, existsb_not.
    intros y Hy. apply not_true_iff_false. intros Ey. unfold is_runner in Ey. breflect. apply (Hk x y); [done..|]. by apply owned_owner.
  - intros x [Hx Ex]%filter_in. unfold is_runner in Ex. breflect. rewrite (Hg x Hx Ex). by rewrite andb_false_r.
Qed.

Lemma update_runtime_total p f c : (∀ r, r ∈ runtimes c → p r = true → guarded (rt_user (f r)) c = true) →
  (∀ r x, r ∈ runtimes c → p r = true → x ∈ runtimes c → p x = false → conflicts (f r) x = false) →
  update_runtime p f c = Ok (put_runtimes (update p f (runtimes c)) c).
Proof.
  intros Hg Hc. unfold update_runtime. rewrite forallb_in; cbn [guard res_bind].
  - rewrite forallb_in; [done|]. intros r [Hr Ep]%filter_in. apply negb_true_iff, existsb_not. intros x Hx.
    destruct (p x) eqn:Ex; [done|]. by rewrite (Hc r x).
  - intros r [Hr Ep]%filter_in. rewrite (Hg r Hr Ep). by rewrite orb_true_r.
Qed.

(** A property of exactly one row. *)
Lemma count_keyed {A B} (h : A → B) (p : A → bool) l x : NoDup (map h l) → x ∈ l → p x = true →
  (∀ y, y ∈ l → p y = true → h y = h x) → count p l = 1.
Proof.
  induction l as [|z l IH]; [by intros _ ?%elem_of_nil|]. cbn [map]. intros [Hz Hn]%NoDup_cons Hx Hp Hone. rewrite count_cons.
  assert (Hzero : h z = h x → count p l = 0).
  { intros E. unfold count. replace (List.filter p l) with (@nil A); [done|]. symmetry.
    destruct (List.filter p l) as [|y r] eqn:Ef; [done|]. destruct Hz. assert (Hy : y ∈ List.filter p l) by (rewrite Ef; by left).
    apply filter_in in Hy as [Hy Ey]. rewrite E, <- (Hone y); [|by right|done]. by apply list_elem_of_fmap_2. }
  apply elem_of_cons in Hx as [->|Hx].
  - rewrite Hp, Hzero by done. done.
  - destruct (p z) eqn:Ez.
    + rewrite Hzero; [done|]. apply Hone; [by left|done].
    + rewrite IH; [done|done|done|done|]. intros y Hy. apply Hone. by right.
Qed.

Section Activation.
Context (s : control) (rt : runtime) (user : pystr) (generation : Z) (cand sprite artifact : pystr) (n clock : Z)
  (job token : pystr).
Context (Hs : control_ok s) (Hrt : rt ∈ runtimes s) (Hsrc : source_runtime user generation rt = true).
Context (candidate : runner) (Hcand : candidate ∈ ct_runners s) (Hid : rn_id candidate = cand)
  (Ho : owner candidate = (user, ManagedRestore)).
Context (op : operation) (Hop : op ∈ tb_operations (ct_tables s)) (Hact : activated user job token generation n op = true).
Context (Hident : identities_ok (rt_sprite rt) sprite user job s = true).

Lemma source_user : rt_user rt = user.
Proof. unfold source_runtime, of_owner in Hsrc. by breflect. Qed.

Let retired_free := delete_rows (owned_runner user ManagedRetired)
  (update (the_managed (rt_runner rt) user) (set_revoked n) (ct_runners s)).

Lemma free_row x : x ∈ retired_free → owner x ≠ (user, ManagedRetired) ∧ ∃ y, y ∈ ct_runners s ∧ rn_id y = rn_id x ∧ owner y = owner x.
Proof.
  intros [Hx Hn]%in_delete. split; [by intros E%owned_owner; congruence|].
  apply in_update in Hx as (y & Hy & ->). exists y. by destruct (the_managed _ _ y).
Qed.

Lemma free_old x : x ∈ retired_free → rn_id x = rt_runner rt → owner x = (user, Managed).
Proof.
  intros (_ & y & Hy & E1 & <-)%free_row E. rewrite <- source_user. apply (linked_runner_is s); [done..|congruence].
Qed.

Lemma old_not_candidate : rt_runner rt ≠ cand.
Proof.
  intros E. pose proof (linked_runner_is s rt candidate Hs Hrt Hcand) as El. rewrite Ho in El. rewrite Hid in El.
  specialize (El (eq_sym E)). congruence.
Qed.

Lemma free_candidate x : x ∈ retired_free → rn_id x = cand → owner x = (user, ManagedRestore).
Proof.
  intros (_ & y & Hy & E1 & <-)%free_row E. by rewrite (same_id s Hs y candidate) by (done || congruence).
Qed.

Lemma retired_row x : x ∈ update (is_runner (rt_runner rt)) (set_kind ManagedRetired) retired_free →
  owner x ≠ (user, Managed) ∧ (rn_id x = cand → rn_user x = user).
Proof.
  intros (y & Hy & ->)%in_update. destruct (is_runner (rt_runner rt) y) eqn:E; unfold is_runner in E; breflect.
  - split; [by intros [= _]|]. cbn. intros Ec. exfalso. apply old_not_candidate. congruence.
  - split; [|intros Ec; pose proof (free_candidate y Hy Ec) as Eo; unfold owner in Eo; congruence].
    intros Eo. destruct (free_row y Hy) as (_ & z & Hz & E1 & E2). apply E.
    destruct (to_linked _ _ (co_runtimes _ Hs) rt Hrt) as (_ & w & Hw & F1 & F2 & _). rewrite <- F1, <- E1. f_equal.
    apply (NoDup_map_eq owner (ct_runners s)); [apply (co_runners _ Hs)|done|done|]. rewrite E2, F2, source_user. done.
Qed.

Lemma the_operation : count (activated user job token generation n) (tb_operations (ct_tables s)) = 1.
Proof.
  apply (count_keyed op_user _ _ op); [apply (s_users _ (co_catalog _ Hs))|done|done|]. intros o Hin Ha.
  unfold activated, of_user in *. breflect. congruence.
Qed.

Lemma the_runtime : count (source_runtime user generation) (runtimes s) = 1.
Proof.
  apply (count_keyed rt_user _ _ rt); [apply (to_users _ _ (co_runtimes _ Hs))|done|done|]. intros r Hr Ep.
  rewrite source_user. unfold source_runtime, of_owner in Ep. by breflect.
Qed.

(** Both rows of identities are there once, if they are tracked. *)
Lemma the_identities : identities_tracked (rt_sprite rt) sprite s = true →
  count (source_identity (rt_sprite rt) user) (ct_identities s) = 1
  ∧ count (candidate_identity sprite user job)
      (update (source_identity (rt_sprite rt) user) (fun i => set_identity (id_kind i) (id_job i) IdentityRetired n i)
         (ct_identities s)) = 1.
Proof.
  unfold identities_tracked, identities_ok in *. intros Ht.
  destruct (find_identity (rt_sprite rt) s) as [i|] eqn:Ei, (find_identity sprite s) as [j|] eqn:Ej; try done.
  cbn in Hident. apply find_in in Ei as [Hi _], Ej as [Hj _]. apply andb_true_iff in Hident as [[Ei Ej]%andb_true_iff Nn].
  pose proof (co_identities _ Hs) as N. split.
  - apply (count_keyed id_sprite _ _ i); [done..|]. intros k _ Ek. unfold source_identity in *. breflect. congruence.
  - apply (count_keyed id_sprite _ _ j); [by rewrite map_update|apply in_update; exists j|done|].
    + split; [done|]. destruct (source_identity (rt_sprite rt) user j) eqn:Es; [|done]. unfold source_identity, candidate_identity in *.
      breflect. congruence.
    + intros k _ Ek. unfold candidate_identity in *. breflect. congruence.
Qed.

(** The last conflict that is left: a runtime on the sprite of the candidate. *)
Definition sprite_free : Prop := ∀ x, x ∈ runtimes s → rt_sprite x = sprite → x = rt.

Lemma promotion_free r x : sprite_free → r ∈ runtimes s → source_runtime user generation r = true → x ∈ runtimes s →
  source_runtime user generation x = false →
  conflicts (set_runner cand sprite RuntimeReady (generation + 1) artifact clock r) x = false.
Proof.
  intros Hf Hr Er Hx Ex. rewrite (source_only s rt user generation Hs Hrt source_user r Hr Er). apply not_true_iff_false. intros Hc.
  assert (Nx : x ≠ rt) by congruence. unfold conflicts in Hc. rewrite !orb_true_iff, !bool_decide_eq_true in Hc. cbn in Hc.
  destruct Hc as [[E|E]|E]; apply Nx.
  - by apply (only_runtime s).
  - pose proof (linked_runner_is s x candidate Hs Hx Hcand) as El. rewrite Ho, Hid in El. by specialize (El E).
  - by apply Hf.
Qed.

Lemma promote_total : sprite_free → ∃ c', promote rt user generation cand sprite artifact n clock job token s = Ok (Some c').
Proof.
  intros Hf. pose proof source_user as Eu. unfold promote, insert_guard. cbn [revoke_managed fst ct_guards with_runners].
  rewrite (co_guards _ Hs). cbn [existsb negb guard res_bind app].
  rewrite delete_runners_same by exact (no_retired_linked s rt user n Hs). cbv zeta.
  rewrite update_kind_total; cbn [res_bind ct_runners with_runners with_guards].
  2: { intros x Hx Ex. unfold guarded. cbn. pose proof (free_old x Hx Ex) as E. unfold owner in E. rewrite bool_decide_eq_true_2; [done|congruence]. }
  2: { intros x y Hx Ex Hy _ E. pose proof (free_old x Hx Ex) as Ex'. unfold owner in Ex'.
       apply (proj1 (free_row y Hy)). rewrite E. congruence. }
  rewrite update_kind_total; cbn [res_bind ct_runners with_runners with_guards].
  2: { intros x Hx Ex. unfold guarded. cbn. rewrite bool_decide_eq_true_2; [done|]. symmetry. by apply (retired_row x Hx). }
  2: { intros x y Hx Ex Hy _ E. apply (proj1 (retired_row y Hy)). rewrite E. f_equal. by apply (retired_row x Hx). }
  rewrite update_runtime_total; cbn [res_bind].
  2: { intros r Hr Er. unfold guarded. cbn. rewrite bool_decide_eq_true_2; [done|].
       rewrite (source_only s rt user generation Hs Hrt Eu r Hr Er). done. }
  2: { intros r x Hr Er Hx Ex. by apply promotion_free. }
  cbn [ct_tables ct_identities with_tables with_runners with_identities with_guards put_runtimes tb_operations with_runtimes].
  change (count _ (runtimes _)) with (count (source_runtime user generation) (runtimes s)).
  rewrite the_runtime, the_operation. cbn [negb Z.eqb Pos.eqb].
  destruct (identities_tracked (rt_sprite rt) sprite s) eqn:Et; [|by eexists].
  destruct (the_identities Et) as [-> ->]. by eexists.
Qed.
End Activation.

(** ** What an activation needs, and what it does *)

Record activatable (user : pystr) (generation : Z) (cand sprite : pystr) (n : Z) (job token : pystr) (s : control)
    (rt : runtime) (candidate : runner) (op : operation) : Prop := {
  av_runtime : rt ∈ runtimes s ∧ source_runtime user generation rt = true;
  av_candidate : candidate ∈ ct_runners s ∧ candidate_runner cand user candidate = true;
  av_operation : op ∈ tb_operations (ct_tables s) ∧ activated user job token generation n op = true;
  av_identities : identities_ok (rt_sprite rt) sprite user job s = true;
  av_sprite : sprite_free s rt sprite;
}.

(** The runtime and the runners of the account switch; nothing of another
    account does, and no archive. *)
Record switched (user : pystr) (generation : Z) (cand sprite artifact : pystr) (n clock : Z)
    (s : control) (rt : runtime) (candidate : runner) (op : operation) (s' : control) : Prop := {
  sw_runtime : set_runner cand sprite RuntimeReady (generation + 1) artifact clock rt ∈ runtimes s';
  sw_candidate : set_kind Managed candidate ∈ ct_runners s';
  sw_retired : ∃ x, x ∈ ct_runners s ∧ rn_id x = rt_runner rt ∧ set_kind ManagedRetired (set_revoked n x) ∈ ct_runners s';
  sw_operation : activate_operation generation n op ∈ tb_operations (ct_tables s');
  sw_runtimes : ∀ x, rt_user x ≠ user → x ∈ runtimes s' ↔ x ∈ runtimes s;
  sw_runners : ∀ x, rn_user x ≠ user → x ∈ ct_runners s' ↔ x ∈ ct_runners s;
  sw_operations : ∀ o, op_user o ≠ user → o ∈ tb_operations (ct_tables s') ↔ o ∈ tb_operations (ct_tables s);
  sw_archives : tb_archives (ct_tables s') = tb_archives (ct_tables s);
  sw_source : ∀ i, i ∈ ct_identities s' → id_sprite i = rt_sprite rt → id_user i = user ∧ id_status i = IdentityRetired;
  sw_chosen : ∀ i, i ∈ ct_identities s' → id_sprite i = sprite →
    id_user i = user ∧ id_status i = IdentityActive ∧ id_kind i = RuntimeIdentity ∧ id_job i = None;
  sw_identities : ∀ i, id_user i ≠ user → i ∈ ct_identities s' ↔ i ∈ ct_identities s;
  sw_guards : ct_guards s' = [];
}.

(** An [UPDATE] leaves the rows of another account. *)
Lemma update_others {A} (h : A → pystr) user p (f : A → A) l x : (∀ y, y ∈ l → p y = true → h y = user ∧ h (f y) = user) → h x ≠ user →
  x ∈ update p f l ↔ x ∈ l.
Proof.
  intros Hp Hx. rewrite in_update. split.
  - intros (y & Hy & ->). destruct (p y) eqn:E; [|done]. by destruct (Hp y Hy E).
  - intros Hin. exists x. split; [done|]. destruct (p x) eqn:E; [|done]. by destruct (Hp x Hin E).
Qed.

Lemma delete_others {A} (h : A → pystr) user p (l : list A) x : (∀ y, p y = true → h y = user) → h x ≠ user →
  x ∈ delete_rows p l ↔ x ∈ l.
Proof.
  intros Hp Hx. rewrite in_delete. split; [by intros []|]. intros Hin. split; [done|]. apply not_true_iff_false.
  intros E. by apply Hx, Hp.
Qed.

Section Switch.
Context (s : control) (rt : runtime) (user : pystr) (generation : Z) (cand sprite artifact : pystr) (n clock : Z)
  (job token : pystr) (candidate : runner) (op : operation).
Context (Hs : control_ok s) (Ha : activatable user generation cand sprite n job token s rt candidate op).

Lemma candidate_facts : rn_id candidate = cand ∧ owner candidate = (user, ManagedRestore).
Proof.
  destruct (av_candidate _ _ _ _ _ _ _ _ _ _ _ Ha) as [_ Hc]. unfold candidate_runner in Hc. breflect. split; [|by apply owned_owner].
  unfold is_runner in *. by breflect.
Qed.

Lemma rt_of_user : rt_user rt = user.
Proof. apply (source_user rt user generation). apply (av_runtime _ _ _ _ _ _ _ _ _ _ _ Ha). Qed.

(** The identities before, when their sprites are tracked or not. *)
Lemma tracked_identity i : i ∈ ct_identities s →
  (id_sprite i = rt_sprite rt → source_identity (rt_sprite rt) user i = true ∧ identities_tracked (rt_sprite rt) sprite s = true)
  ∧ (id_sprite i = sprite → candidate_identity sprite user job i = true ∧ sprite ≠ rt_sprite rt
     ∧ identities_tracked (rt_sprite rt) sprite s = true).
Proof.
  intros Hi. pose proof (av_identities _ _ _ _ _ _ _ _ _ _ _ Ha) as Hk. pose proof (co_identities _ Hs) as N.
  assert (Hf : ∀ j, find_identity (id_sprite i) s = Some j → i = j).
  { intros j [Hj Ej]%find_in. apply (NoDup_map_eq id_sprite (ct_identities s)); [done..|]. by apply bool_decide_eq_true in Ej. }
  assert (Hn : find_identity (id_sprite i) s ≠ None).
  { intros E. apply (find_none_in _ _ i) in E; [|done]. by apply bool_decide_eq_false in E. }
  unfold identities_ok, identities_tracked in *. split; intros E; rewrite E in Hf, Hn.
  - destruct (find_identity (rt_sprite rt) s) as [a|] eqn:Ea; [|done]. rewrite (Hf a) by done.
    destruct (find_identity sprite s) as [b|]; [|done]. cbn in Hk. by breflect.
  - destruct (find_identity sprite s) as [b|] eqn:Eb; [|done]. rewrite (Hf b) by done.
    destruct (find_identity (rt_sprite rt) s) as [a|]; [|done]. cbn in Hk. breflect. by split_and!.
Qed.

Lemma switched_identities i : i ∈ promoted_identities s rt user sprite n job →
  (id_sprite i = rt_sprite rt → id_user i = user ∧ id_status i = IdentityRetired)
  ∧ (id_sprite i = sprite → id_user i = user ∧ id_status i = IdentityActive ∧ id_kind i = RuntimeIdentity ∧ id_job i = None).
Proof.
  unfold promoted_identities. destruct (identities_tracked _ _ s) eqn:Et.
  2: { intros Hi. destruct (tracked_identity i Hi) as [H1 H2]. split; intros E; [destruct (H1 E)|destruct (H2 E) as (? & ? & ?)]; congruence. }
  intros (y & (x & Hx & ->)%in_update & ->)%in_update. destruct (tracked_identity x Hx) as [H1 H2].
  destruct (source_identity (rt_sprite rt) user x) eqn:Es.
  - assert (Ex : id_sprite x = rt_sprite rt ∧ id_user x = user) by (unfold source_identity in Es; by breflect).
    unfold candidate_identity. cbn [id_sprite id_kind set_identity].
    assert (Ek : id_kind x = RuntimeIdentity) by (unfold source_identity in Es; by breflect).
    rewrite Ek, (bool_decide_eq_false_2 (RuntimeIdentity = RestoreCandidate)), andb_false_r by done. cbn. split; [tauto|].
    intros E. destruct (H2 E) as (_ & N & _). destruct Ex. congruence.
  - destruct (candidate_identity sprite user job x) eqn:Ec.
    + assert (Ex : id_sprite x = sprite ∧ id_user x = user) by (unfold candidate_identity in Ec; by breflect).
      cbn. split; [|tauto]. intros E. destruct (H1 E). congruence.
    + split; intros E; [destruct (H1 E)|destruct (H2 E)]; congruence.
Qed.

Lemma other_identities i : id_user i ≠ user → i ∈ promoted_identities s rt user sprite n job ↔ i ∈ ct_identities s.
Proof.
  intros Hi. unfold promoted_identities. destruct (identities_tracked _ _ s); [|done].
  rewrite (update_others id_user user); [rewrite (update_others id_user user); [done| |done]| |done]; intros y _ E;
    unfold source_identity, candidate_identity in E; by breflect.
Qed.

Lemma other_runners x : rn_user x ≠ user → x ∈ promoted_runners s rt user cand n ↔ x ∈ ct_runners s.
Proof.
  intros Hx. destruct candidate_facts as [Ei Eo], (av_candidate _ _ _ _ _ _ _ _ _ _ _ Ha) as [Hc _],
    (av_runtime _ _ _ _ _ _ _ _ _ _ _ Ha) as [Hrt _].
  assert (Hrow : ∀ y, y ∈ delete_rows (owned_runner user ManagedRetired) (update (the_managed (rt_runner rt) user) (set_revoked n) (ct_runners s)) →
    rn_id y = rt_runner rt ∨ rn_id y = cand → rn_user y = user).
  { intros y [(z & Hz & ->)%in_update _]%in_delete. intros E.
    assert (F : rn_id z = rt_runner rt ∨ rn_id z = cand) by by destruct (the_managed _ _ z).
    assert (rn_user z = user); [|by destruct (the_managed _ _ z)]. destruct F as [F|F].
    - pose proof (linked_runner_is s rt z Hs Hrt Hz F) as O. rewrite rt_of_user in O. unfold owner in O. congruence.
    - rewrite (same_id s Hs z candidate) by (done || congruence). unfold owner in Eo. congruence. }
  unfold promoted_runners. rewrite (update_others rn_user user); [|intros y Hy Ey|done].
  - rewrite (update_others rn_user user); [|intros y Hy Ey|done].
    + rewrite (delete_others rn_user user); [|intros y Ey|done].
      * apply (update_others rn_user user); [|done]. intros y _ Ey. unfold the_managed, owned_runner in Ey. by breflect.
      * unfold owned_runner in Ey. by breflect.
    + unfold is_runner in Ey. breflect. assert (rn_user y = user) by (apply Hrow; [done|by left]). by split.
  - apply in_update in Hy as (z & Hz & ->). unfold is_runner in *. breflect.
    destruct (bool_decide (rn_id z = rt_runner rt)); (assert (rn_user z = user) by (apply Hrow; [done|by right])); by split.
Qed.

(** The rows that a promotion leaves are the switched ones. *)
Lemma promote_switched c' : promote rt user generation cand sprite artifact n clock job token s = Ok (Some c') →
  switched user generation cand sprite artifact n clock s rt candidate op
    (with_guards (delete_rows (fun g => bool_decide (gd_user g = user)) (ct_guards c')) c').
Proof.
  destruct candidate_facts as [Ei Eo], Ha as [[Hrt Hsrc] [Hc Hcr] [Hop Hact] _ _]. intros Hp.
  destruct (promote_ok (fun _ => True) (fun _ => True) (fun _ => True) s rt user generation cand sprite artifact n clock job token Hs _ Hp) as (Et & Er & Ed & Eg & _).
  assert (Nc : rn_id candidate ≠ rt_runner rt).
  { intros E. pose proof (linked_runner_is s rt candidate Hs Hrt Hc E). congruence. }
  split; cbn [runtimes ct_tables ct_runners ct_identities ct_guards with_guards]; rewrite ?Er, ?Ed; unfold runtimes;
    cbn [ct_tables with_guards]; rewrite ?Et; cbn [promoted_tables tb_runtimes tb_operations tb_archives with_runtimes with_operations].
  - apply in_update. exists rt. by rewrite Hsrc.
  - pose proof (in_promoted s rt user cand n candidate Hc) as Hin. unfold promote_row, the_managed, is_runner in Hin.
    rewrite !(bool_decide_eq_false_2 (rn_id candidate = rt_runner rt)) in Hin by done. cbn [andb] in Hin.
    rewrite bool_decide_eq_true_2 in Hin by done. apply Hin. congruence.
  - destruct (to_linked _ _ (co_runtimes _ Hs) rt Hrt) as (_ & w & Hw & F1 & F2 & _). exists w. split_and!; [done..|].
    pose proof (in_promoted s rt user cand n w Hw) as Hin. unfold promote_row in Hin.
    assert (Em : the_managed (rt_runner rt) user w = true).
    { unfold the_managed, is_runner. rewrite bool_decide_eq_true_2 by done. apply owned_owner. by rewrite F2, rt_of_user. }
    rewrite Em in Hin. unfold is_runner in Hin. cbn [rn_id set_revoked] in Hin.
    rewrite (bool_decide_eq_true_2 (rn_id w = rt_runner rt)) in Hin by done. cbn [rn_id set_kind set_revoked] in Hin.
    rewrite bool_decide_eq_false_2 in Hin by congruence. apply Hin. rewrite F2. congruence.
  - apply in_update. exists op. by rewrite Hact.
  - intros x Hx. apply (update_others rt_user user); [|done]. intros y Hy Ey.
    rewrite (source_only s rt user generation Hs Hrt rt_of_user y Hy Ey). by rewrite <- rt_of_user.
  - intros x Hx. by apply other_runners.
  - intros o Ho. apply (update_others op_user user); [|done]. intros y _ Ey. unfold activated, of_user in Ey. by breflect.
  - done.
  - intros i Hi E. by apply (switched_identities i Hi).
  - intros i Hi E. by apply (switched_identities i Hi).
  - intros i Hi. by apply other_identities.
  - clear -Eg. induction Eg as [|g l Hg Hl IH]; [done|]. cbn. by rewrite bool_decide_eq_true_2.
Qed.

Lemma activatable_promotes : ∃ c', promote rt user generation cand sprite artifact n clock job token s = Ok (Some c').
Proof.
  destruct candidate_facts as [Ei Eo], Ha as [[Hrt Hsrc] [Hc _] [Hop Hact] Hid Hf].
  by apply (promote_total s rt user generation cand sprite artifact n clock job token Hs Hrt Hsrc candidate Hc Ei Eo op Hop Hact Hid).
Qed.
End Switch.

(** ** Every call *)

(** A promotion raises at most an [IntegrityError]. *)
Lemma promote_raises rt user g cand sprite artifact n clock job token c e :
  promote rt user g cand sprite artifact n clock job token c = Raise e → caught e [IntegrityError] = true.
Proof.
  intros Hp. unfold promote, insert_guard, update_kind, update_runtime, guard in Hp. cbv zeta in Hp.
  repeat match type of Hp with
  | res_bind _ _ = Raise _ => apply bind_raise in Hp as [Hp|(? & ? & Hp)]
  | (if ?b then _ else _) = Raise _ => destruct b
  | raise _ _ = Raise _ => injection Hp as <-
  end; done.
Qed.

Lemma activation_cases user g cand sprite artifact n clock job token s : control_ok s →
  (∃ rt candidate op c, activatable user g cand sprite n job token s rt candidate op
     ∧ activation user g cand sprite artifact n clock job token s = Ok (Some c, true)
     ∧ switched user g cand sprite artifact n clock s rt candidate op c)
  ∨ (∀ rt candidate op, ¬ activatable user g cand sprite n job token s rt candidate op)
    ∧ activation user g cand sprite artifact n clock job token s = Ok (None, false).
Proof.
  intros Hs. unfold activation. cbv zeta. change (fun r => of_owner user r && of_generation g r && in_status RuntimeReady r) with
    (source_runtime user g).
  destruct (List.find (source_runtime user g) (runtimes s)) as [rt|] eqn:Er.
  2: { right. split; [|done]. intros rt cd op [[Hr E] _ _ _ _]. by rewrite (find_none_in _ _ _ Er Hr) in E. }
  unfold find_runner. destruct (List.find (candidate_runner cand user) (ct_runners s)) as [cd|] eqn:Ec.
  2: { right. split; [|done]. intros rt' cd op [_ [Hc E] _ _ _]. by rewrite (find_none_in _ _ _ Ec Hc) in E. }
  apply find_in in Er as [Hrt Hsrc], Ec as [Hcd Hcr]. pose proof (source_user rt user g Hsrc) as Eu.
  assert (Only : ∀ x cd' op, activatable user g cand sprite n job token s x cd' op → x = rt).
  { intros x cd' op [[Hx Ex] _ _ _ _]. by apply (source_only s rt user g Hs Hrt Eu). }
  destruct (identities_ok (rt_sprite rt) sprite user job s) eqn:Ei; cbn [negb].
  2: { right. split; [|done]. intros x cd' op Hx. destruct (Only x cd' op Hx). destruct Hx. congruence. }
  destruct (existsb _ _) eqn:Eo; cbn [negb].
  2: { right. split; [|done]. intros x cd' op [_ _ [Ho E] _ _]. apply not_true_iff_false in Eo. apply Eo, existsb_exists.
       exists op. by rewrite <- list_elem_of_In. }
  apply existsb_exists in Eo as (op & Hop & Ho). apply list_elem_of_In in Hop.
  destruct (promote rt user g cand sprite artifact n clock job token s) as [[c|]|e] eqn:Ep.
  - left. assert (Ha : activatable user g cand sprite n job token s rt cd op).
    { split; try done. intros x Hx Ex. destruct (promote_ok (fun _ => True) (fun _ => True) (fun _ => True) _ _ _ _ _ _ _ _ _ _ _ Hs _ Ep)
        as (_ & _ & _ & _ & _ & _ & Hf).
      destruct (decide (x = rt)) as [|N]; [done|]. specialize (Hf rt x Hrt Hsrc Hx).
      unfold conflicts in Hf. cbn in Hf. rewrite (bool_decide_eq_true_2 (sprite = rt_sprite x)), orb_true_r in Hf by done.
      enough (true = false) by done. apply Hf, not_true_iff_false. intros E. by apply N, (source_only s rt user g Hs Hrt Eu). }
    exists rt, cd, op. eexists. split_and!; [done|done|]. by eapply promote_switched.
  - right. split; [|done]. intros x cd' op' Ha. destruct (Only x cd' op' Ha).
    destruct (activatable_promotes s x user g cand sprite artifact n clock job token cd' op' Hs Ha). congruence.
  - rewrite (promote_raises _ _ _ _ _ _ _ _ _ _ _ _ Ep). right. split; [|done].
    intros x cd' op' Ha. destruct (Only x cd' op' Ha).
    destruct (activatable_promotes s x user g cand sprite artifact n clock job token cd' op' Hs Ha). congruence.
Qed.

Section Activations.
Context {SHA : Sha256} {X : X25519} {FL : PyFloat} {ED : Ed25519} {RAW : Ed25519Raw} {H : Hkdf}.

(** C40. An activation happens as a whole or not at all, in every state that
    calls reach in any interleaving, when its arguments pass their checks. If
    it returns [True], its checks held and the account has switched: the
    runtime is the candidate's, on its sprite and under the next generation;
    the old runner is revoked and retired, the operation activated, no other
    account touched and no guard left. If it returns [False], they did not and
    nothing is written. Neither a trigger nor a constraint stops it half way:
    without a fault of the store it returns, and after a fault, the database
    is as before or has switched. *)
Theorem activation_all_or_nothing l user u generation cand c0 sprite d0 artifact a0 now n clock job j0 token t0 fault :
  all_offered l → require_user_id user = Ok u → 0 < generation → require_non_empty_text "candidate_runner_id" cand = Ok c0 →
  require_non_empty_text "candidate_sprite_id" sprite = Ok d0 → require_non_empty_text "artifact_version" artifact = Ok a0 →
  require_non_empty_text "job_id" job = Ok j0 → require_non_empty_text "lease_token" token = Ok t0 → timestamp now = Ok n →
  let s := th_state (reached l) in
  let out := alone (activate_managed_restore_candidate user generation cand sprite artifact now clock job token fault) s in
  let can rt candidate op := activatable u generation c0 d0 n j0 t0 s rt candidate op in
  let switches := ∃ rt candidate op, can rt candidate op ∧ switched u generation c0 d0 a0 n clock s rt candidate op out.1 in
  (out.1 = s ∨ switches) ∧ (out.2 = Ok true → switches)
  ∧ (out.2 = Ok false → out.1 = s ∧ ∀ rt candidate op, ¬ can rt candidate op)
  ∧ (fault = NoFault → out.2 = Ok true ∨ out.2 = Ok false).
Proof.
  intros Hl Eu Hg Ec Ed Ea Ej Et En s out can switches.
  assert (Hs : control_ok s) by by apply reached_behaves.
  assert (E : out = transaction fault (activation u generation c0 d0 a0 n clock j0 t0) s).
  { unfold out, activate_managed_restore_candidate. rewrite Eu, Ec, Ed, Ea, Ej, Et, En. apply Z.ltb_lt in Hg. rewrite Hg. cbn.
    by destruct (transaction fault (activation u generation c0 d0 a0 n clock j0 t0) s). }
  clearbody out. subst out.
  destruct (activation_cases u generation c0 d0 a0 n clock j0 t0 s Hs) as [(rt & cd & op & c & Hcan & Hact & Hsw)|[Hno Hact]];
    unfold switches, transaction; rewrite Hact.
  - assert (W : ∃ rt candidate op, can rt candidate op ∧ switched u generation c0 d0 a0 n clock s rt candidate op c) by by exists rt, cd, op.
    destruct fault as [| |[|]]; cbn; split_and!; auto; done.
  - destruct fault as [| |[|]]; cbn; split_and!; auto; done.
Qed.
End Activations.

Import Scenario.

(** The restore of the scenario, and the account that switches. *)
Lemma activation_all_or_nothing_witness :
  let s := th_state (reached (sequence 0 (provisioned ++ restoring))) in
  let out := alone (switch NoFault) s in
  out.2 = Ok true
  ∧ ∃ rt candidate op, activatable user 1 (u"runner-2") (u"sprite-2") 1100 (u"job-2") (u"lease-2") s rt candidate op
      ∧ switched user 1 (u"runner-2") (u"sprite-2") (u"v2") 1100 1100 s rt candidate op out.1.
Proof.
  intros s out. assert (E : out.2 = Ok true) by (vm_compute; reflexivity). split; [exact E|].
  assert (Ho : all_offered (sequence 0 (provisioned ++ restoring))).
  { apply sequence_offered. repeat apply Forall_cons_2; try exact Logic.I; apply Forall_nil_2. }
  apply (activation_all_or_nothing _ user user 1 (u"runner-2") (u"runner-2") (u"sprite-2") (u"sprite-2")
    (u"v2") (u"v2") (Some 1100) 1100 1100 (u"job-2") (u"job-2") (u"lease-2") (u"lease-2") NoFault Ho); first [exact E | reflexivity].
Defined.
